(* ===== verification/_CoqProject ===== *)
-Q . S2P
Prelude.v
StdMap.v
Dbl.v
Time.v
PQueue.v
Reorder.v
NamedThread.v
HeartBeat.v
L2Book.v
Types.v
Order.v
Boe20Attr.v
Position.v
Config.v
Instrument.v
FirmRisk.v
Alphanum.v
Codec.v
Calendar.v
TpsWire.v
TpsServer.v
TpsCorrect.v
L1Quotes.v
Nbbo.v
NbboCorrect.v
AsyncTps.v
Poller.v
PollerCorrect.v
TpsThread.v
Capture.v
CaptureCorrect.v
MappedFile.v
SeqnumCap.v
Pdp.v
PdpCorrect.v
PdpCapture.v
Boe20Wire.v
Boe20Framing.v
SoupBin.v
Ouch42Wire.v
OrderLog.v
Blotter.v
Session.v
SessionKit.v
Boe20.v
Boe20Sent.v
Boe20Login.v
Ouch42.v
SimSession.v
OrderManager.v
Manual.v
SimMatching.v
Replay.v
Ouch42Handler.v
Boe20Handler.v
OrderInvariant.v
OrderLifecycle.v
OrderRoom.v
ManualCorrect.v
ReplayCorrect.v
Ouch42Correct.v
SimCorrect.v
Boe20Correct.v
Restart.v
ConfigFile.v
CompressedCapture.v
