(* ===== verification/Prelude.v ===== *)
(** * i01 order engine: verification library

    The repository is an equities trading engine in C++.  Strategies hand orders
    to the order manager, which checks them against the limits of their
    instrument and of the firm, gives them a local id and passes them to the
    session of a market.  The session talks the protocol of that market (or
    simulates it) and calls the order manager back when the exchange answers;
    orders and positions change in these calls alone.  Everything that happens is
    appended to an order log, from which a restarted engine recovers.  This
    library models that core and proves what makes it correct.

    ** The program's parts and the files that model them

    All paths are under src/src/.

    - The C++ arithmetic: [Prelude] (integers with their wrap-around, failing
      computations [res], record update, sums over maps), [Dbl] (doubles as an
      interface with two instances: IEEE binary64, which is the program, and exact
      rationals, in which accounting identities hold), [StdMap] ([std::map]).
    - Timestamps (core/i01_core/Time.hpp): [Time].
    - Enumerations and markets (oe/i01_oe/Types.hpp, oe/Types.cpp, core/MIC.cpp):
      [Types].  Orders (oe/i01_oe/Order.hpp, oe/Order.cpp, NASDAQOrder.hpp):
      [Order].
    - Positions (oe/Position.cpp): [Position], the profit and loss, open exposure
      and remote positions of one instrument.
    - Configuration (core/Config.cpp): [Config], and [ConfigFile] for what it loads
      from Lua files and from the options of the command line.  Instruments
      (oe/EquityInstrument.cpp, oe/EqInstUniverse.cpp): [Instrument], [validate]
      with its locates and rate limit.
    - Firm risk (oe/Risk/FirmRiskCheck.cpp): [FirmRisk], totals, breakers, modes,
      [new_order] and the events that move the totals.
    - The order log (oe/OrderLogFormat.cpp, oe/FileBlotter.cpp,
      oe/BlotterReader.cpp): [Codec] (packed structs), [OrderLog] (the messages),
      [Blotter] (what is written when, and the reader).
    - Sessions (oe/i01_oe/OrderSession.hpp): [Session], a type class
      [OrderSession] with the laws [OrderSessionLaws] that the order manager's
      proofs rely on.
    - The order manager (oe/OrderManager.cpp): [OrderManager].  Its state holds
      the order objects in a heap by address, [m_orders] as the list of addresses
      by local id, instruments by symbol index and sessions by name; one
      definition per public operation and per callback.  Recovery ([on_log_*],
      [adopt_orphan_order]): [Replay]; starting over the file of a day
      (oe/FileBlotter.cpp, oe/FileBlotterReader.cpp): [Restart].
    - The simulated exchange (oe/L2SimSession.cpp): [SimSession] (state, [send],
      [cancel], an instance of [OrderSession]) and [SimMatching] (queue positions,
      crosses, auctions, the event queue), over the books of [L2Book]
      (md/i01_md/L2Book.hpp).
    - NASDAQ (oe/NASDAQ/): [Alphanum] (core/i01_core/Alphanumeric.hpp, order ids
      in base 62), [SoupBin] (packets cut from the stream), [Ouch42Wire] (the
      messages of OUCH 4.2), [Ouch42] (OUCH42Session: configuration, connection,
      login, timers, [send], [cancel]; an instance of [OrderSession]) and
      [Ouch42Handler] ([handle_packet] and [on_recv], which call the order
      manager).
    - BATS (oe/BATS/): [Boe20Wire] (the messages of BOE 2.0, their optional fields
      and the bits that announce them), [Boe20Framing] ([handle_raw_bytes]),
      [Boe20] (BOE20Session: configuration and persisted sequence numbers, pools
      of prepared buffers, connection, login, timers, [send], [cancel]; an
      instance of [OrderSession]) and [Boe20Handler] ([handle_raw_msg] and
      [on_recv]).
    - What the two sessions share is in [SessionKit]: the socket thread and the
      clock as the interface [Connection], symbology, required configuration.
    - The thread behind that interface: [NamedThread] (core/NamedThread.cpp, the
      life of any thread of the program, interleaved with its callers) and
      [HeartBeat] (net/HeartBeatConnThread.cpp, the loop over the socket and the
      timer; an instance of the class [Worker] of [NamedThread]).
    - The operator's strategy (ts/ManualStrategy.cpp): [Manual], an interpreter of
      typed commands over the order manager and its sessions, with the attributes
      of orders for BATS (oe/BOE20Order.cpp) in [Boe20Attr].
    - The sorter of captures (apps/reorderpcap/): [PQueue] (std::priority_queue)
      and [Reorder].
    - The server of quotes and positions (ts/tps/): [Calendar] (the dates of its
      handshakes), [TpsWire] (its messages), [TpsServer] (TPSServer.cpp: sessions,
      subscriptions, what is written to whom), [AsyncTps] (AsyncTPS.cpp,
      AsyncNBBO.cpp: the queue in front of it) and [TpsThread] (its thread over
      the poller).
    - The thread's poller (net/EventPoller.cpp, EpollSet.cpp, TCPSocket.cpp,
      ConnectionListenerThread.cpp): [Poller], with an interface [PollListener]
      for what it calls; its proofs are in [PollerCorrect].
    - Quotes (ts/L1EquitiesStrategy.cpp, ts/NBBOEquitiesStrategy.cpp):
      [L1Quotes], the best of each venue, [Nbbo], the best over venues, and
      [NbboCorrect].  The strategies derived from them are the classes
      [BboListener] and [NbboListener].
    - The replay of captures (net/Pcap.cpp, net/PcapFileMux.cpp): [Capture], frames
      taken apart, readers and the merge of many files with timers; its proofs are
      in [CaptureCorrect].  [CompressedCapture] (core/Pcap.cpp, core/LZ4.cpp): the
      reader of captures, plain or compressed.
    - Mapped files (core/MappedRegion.cpp, core/AsyncMappedFile.cpp): [MappedFile],
      the log that threads append to without a lock.
    - Captures of sequence numbers (apps/seqnumcap/, md/i01_md/SeqnumListener.hpp):
      [SeqnumCap], the listener that writes them to a mapped file and the reader.
    - The decoder of NYSE's feeds (md/i01_md/NYSE/PDP/): [Pdp], packets and messages
      turned around in place, gaps, resets and timeouts, over the class [MsgStream];
      [PdpCorrect] has the feed as bytes, [PdpCapture] the decoder with [SeqnumCap]
      as its listener.

    ** What is proved

    - The order manager: [OrderInvariant] states the book-keeping (local ids are
      dense; filled, cancelled and open sizes add up; the open sizes of positions
      are what their orders have outstanding) and [OrderLifecycle] proves, for
      every interleaving of callers with an exchange that answers as exchanges do
      ([allowed]: orders go to sessions of their own market, are destroyed with
      nothing outstanding, and are answered within what is outstanding), that no
      operation fails an assertion, throws or follows a bad pointer, and that each
      is a step of the specification [order_moves] of the life of an order.
      [OrderRoom] says for how many orders there is room.
    - Risk: in [FirmRisk] the firm's totals are the sums over positions, the
      breakers follow the totals, accepted orders trip no breaker, the operator's
      switch rejects; in [Instrument] sells are located and the rate is limited;
      in [Position] profit is conserved up to the fees that the code leaves out.
    - The log: in [Blotter] messages round-trip, a log cut off at any byte replays
      to the whole messages it holds, the reader terminates; [ReplayCorrect]
      proves that recovering the log of a day without manual adjustments mirrors the
      state of its writer, and [Restart] the same through the mapped file, read by
      the engine that starts after it.
    - The configuration: [ConfigFile], loading a Lua file gives every value the name
      of its path through the tables.
    - The simulation: [SimCorrect], what a trade fills and what an arriving order
      fills, leaves and rests; the queue is served in order and drained.
    - NASDAQ: an order that was sent reads back from its packet ([Ouch42]); the
      exchange's messages, as bytes, are exactly the steps of the order manager
      that they mean ([Ouch42Correct], a refinement through framing, decoding,
      token and dispatch).
    - BATS: what is sent, orders in [Boe20Sent] and the login in [Boe20Login],
      reads back as the exchange would read it, and its bits announce its fields;
      messages are numbered without a gap; [Boe20Framing] delivers a stream
      however it is cut; [Boe20Correct] is the refinement from bytes to steps, and
      an invariant of the session over whatever can happen to it.
    - The operator: [ManualCorrect], any line typed, when there is room for the
      orders it can create ([room_for]), keeps the books in order and is a sequence
      of steps of the order manager, lists show the orders there are, and positions
      are closed out at the price meant.
    - Threads: in [NamedThread] a thread is started once and ends when it is shut
      down; in [HeartBeat] a session receives the bytes of its connection, all and
      in order, and no step follows a socket that was torn down.
    - [Reorder]: a sorted capture holds the records of the original, in order.
    - The server: in [TpsCorrect] no sequence of bytes that clients send makes it
      fail, as long as its writes are taken at last, whole messages are handled once
      and in order, what is written is what a subscriber asked for; in [AsyncTps]
      every event queued is written, in order, when the server wakes up; in
      [PollerCorrect] and [TpsThread] the thread, which writes what is queued and
      then listens, survives every event of its sockets.  In [Calendar] dates count
      days.
    - Quotes: in [L1Quotes] the quotes kept follow the books through any feed; in
      [NbboCorrect] a consolidated quote is the best of the last quotes of the
      venues that are enabled, a refinement of the market [Market], and follows the
      books.
    - Captures: in [CaptureCorrect] a replay is an interleaving of the files in the
      order of time, with each timer at each second; in [MappedFile] the appends of
      threads never meet, however they interleave; in [SeqnumCap] what was captured
      reads back; in [PdpCorrect] the decoder accounts for every sequence number
      once, and in [PdpCapture] so does the capture of what it told; in
      [CompressedCapture] the records of a compressed capture read back.
    - Where the code does not do what it means to, a theorem says what it does
      instead: repriced acceptances leak exposure, adopted orders cannot be
      cancelled, split packets jam a session, disconnecting is lost when connecting
      came just before, orders typed for the wrong market abort, split handshakes
      are answered again and again, short ones never, a subscriber that died
      deadlocks the server, updating both sides at once loses the ask, halts are
      silent, connections that hang up leak, replays up to a time go one packet past
      it, a writer that was killed makes playback go round for ever, a capture with
      a short name cannot be reopened, heartbeats are not told, a place reserved in
      the log and never written hides what follows it, number keys break the loading
      of a Lua table, a record without bytes ends a compressed capture, a client that
      never reads holds the server for ever, and others at their definitions.

    A theorem that needs a hypothesis has an instance at a concrete state or
    input, evaluated in the kernel, that ends its file.

    ** Conventions and bounds

    An assertion of the code is a [Fail] of the computation, as are exceptions
    and undefined behaviour (a null or dangling pointer, an index out of range, a
    read past a buffer); a theorem that concludes [Ok] excludes them.  Operations
    under a lock are atomic.  Loops whose recursion is not structural take fuel
    (the log reader, the event queue, the dispatch of packets, replays), which their
    callers bound by the length of what remains to be read or served; theorems
    show that it suffices.  Machine integers wrap where the code's do, and a
    hypothesis says so where a theorem excludes it (2^32 local ids, 2^32 open
    shares of one side of an instrument).

    ** Not modelled

    - Output to std::cerr and text rendering, except where something reads it.
    - The system calls behind threads, sockets, epoll, timers and memory mapping,
      the clock: what they answer is an argument (a time, the content of a file, the
      outcome of a send; the answers to the writes of a server end with a socket that
      has room or is gone, or with one that stays full).  Lua and
      boost::program_options: a file of Lua is a function from the table it is given
      to the one it leaves, and the options are those that were parsed.
    - The listeners of orders only observe: a strategy that sends or cancels from
      within a callback, as SimTestStrategy does, is the next step of a caller and
      not part of the callback.
    - The other strategies and applications, which build on market data classes
      that are not in the repository, and the network cards and sockets beside
      those of the sessions and of the poller.
    - spdlog, lz4 and the pcap library are third party.  The ITCH decoder,
      [MD::MsgStream], [MD::MultiStreamDecoder], [MD::SymbolState] and
      [MD::BookBase] are not in the repository: what they answer is an argument of
      the simulation, or a class with its laws.  The threads of mapped files are
      atomic in the two steps of an append: the fetch-and-add and the copy. *)

From stdpp Require Export base list gmap strings option numbers fin_maps.
From Stdlib Require Export ZArith Lia.

Open Scope Z_scope.

(** ** Machine integers

    An unsigned w-bit integer is its value in [Z]; every operation that the
    C++ code performs at that width is followed by the wrap below.  Signed
    arithmetic is reduced to two's complement, what the target machine does. *)

Definition wrap (w z : Z) : Z := z mod 2 ^ w.
Definition swrap (w z : Z) : Z := (z + 2 ^ (w - 1)) mod 2 ^ w - 2 ^ (w - 1).

Abbreviation u8 := (wrap 8).
Abbreviation u16 := (wrap 16).
Abbreviation u32 := (wrap 32).
Abbreviation u64 := (wrap 64).
Abbreviation i32 := (swrap 32).
Abbreviation i64 := (swrap 64).

Definition u32_max : Z := 4294967295.
Definition i64_min : Z := -9223372036854775808.

Definition in_u (w z : Z) : Prop := 0 <= z < 2 ^ w.
Definition in_i (w z : Z) : Prop := - 2 ^ (w - 1) <= z < 2 ^ (w - 1).

#[export] Instance in_u_dec w z : Decision (in_u w z).
Proof. unfold in_u. apply _. Defined.
#[export] Instance in_i_dec w z : Decision (in_i w z).
Proof. unfold in_i. apply _. Defined.

Lemma wrap_small w z : in_u w z → wrap w z = z.
Proof. unfold in_u, wrap. intros. by apply Z.mod_small. Qed.

Lemma wrap_range w z : 0 <= w → in_u w (wrap w z).
Proof. intros. apply Z.mod_pos_bound. by apply Z.pow_pos_nonneg. Qed.

Lemma swrap_small w z : 0 < w → in_i w z → swrap w z = z.
Proof.
  unfold in_i, swrap. intros Hw Hz.
  assert (2 ^ w = 2 * 2 ^ (w - 1)) by (rewrite <- Z.pow_succ_r; f_equal; lia).
  rewrite Z.mod_small; lia.
Qed.

Lemma swrap_range w z : 0 < w → in_i w (swrap w z).
Proof.
  intros Hw. unfold in_i, swrap.
  assert (2 ^ w = 2 * 2 ^ (w - 1)) by (rewrite <- Z.pow_succ_r; f_equal; lia).
  assert (0 < 2 ^ (w - 1)) by (apply Z.pow_pos_nonneg; lia).
  pose proof (Z.mod_pos_bound (z + 2 ^ (w - 1)) (2 ^ w)). lia.
Qed.

Lemma wrap_wrap w z : wrap w (wrap w z) = wrap w z.
Proof. unfold wrap. apply Zmod_mod. Qed.

Lemma wrap_add_l w x y : wrap w (wrap w x + y) = wrap w (x + y).
Proof. unfold wrap. apply Zplus_mod_idemp_l. Qed.

Lemma wrap_sub_l w x y : wrap w (wrap w x - y) = wrap w (x - y).
Proof. unfold wrap. apply Zminus_mod_idemp_l. Qed.

(** ** Failing computations

    [Fail] is a run the C++ program does not survive: a failed [assert], a
    thrown exception, undefined behaviour, or a lock that its own holder waits
    for. *)

Inductive failure :=
| AssertFailed (what : string)
| Thrown (what : string)
| UndefinedBehaviour (what : string)
| Deadlock (what : string).

Inductive res (A : Type) :=
| Ok (a : A)
| Fail (e : failure).
Arguments Ok {A} a.
Arguments Fail {A} e.

#[export] Instance failure_eq_dec : EqDecision failure.
Proof. solve_decision. Defined.
#[export] Instance res_eq_dec `{EqDecision A} : EqDecision (res A).
Proof. solve_decision. Defined.

#[export] Instance res_ret : MRet res := λ A a, Ok a.
#[export] Instance res_bind : MBind res := λ A B f m,
  match m with Ok a => f a | Fail e => Fail e end.
#[export] Instance res_fmap : FMap res := λ A B f m,
  match m with Ok a => Ok (f a) | Fail e => Fail e end.

(** [assert(b)] of the C++ code. *)
Definition assert (what : string) (b : bool) : res unit :=
  if b then Ok () else Fail (AssertFailed what).

Lemma res_bind_Ok {A B} (m : res A) (f : A → res B) b :
  m ≫= f = Ok b ↔ ∃ a, m = Ok a ∧ f a = Ok b.
Proof. destruct m; cbn; naive_solver. Qed.

Lemma Ok_inj {A} (a b : A) : Ok a = Ok b → a = b.
Proof. by intros [= ->]. Qed.

Lemma assert_Ok what b u : assert what b = Ok u ↔ b = true.
Proof. destruct b, u; cbn; naive_solver. Qed.

(** A call that returns, or throws something that is caught. *)
Inductive Outcome (A : Type) := Done (a : A) | Threw (what : string).
Arguments Done {A}.
Arguments Threw {A}.

(** A fold whose step can fail. *)
Fixpoint foldM {A S} (f : S → A → res S) (s : S) (l : list A) : res S :=
  match l with
  | [] => Ok s
  | a :: l' => s' ← f s a; foldM f s' l'
  end.

Lemma foldM_app {A S} (f : S → A → res S) s l1 l2 :
  foldM f s (l1 ++ l2) = (s' ← foldM f s l1; foldM f s' l2).
Proof.
  revert s. induction l1 as [|a l1 IH]; intros s; cbn; [done|].
  destruct (f s a); cbn; [apply IH | done].
Qed.

(** An invariant that every successful step preserves holds at the end. *)
Lemma foldM_invariant {A S} (f : S → A → res S) (P : S → Prop) (Q : A → Prop) l :
  (∀ s a s', Q a → P s → f s a = Ok s' → P s') →
  ∀ s s', Forall Q l → P s → foldM f s l = Ok s' → P s'.
Proof.
  intros Hstep. induction l as [|a l IH]; intros s s' HQ HP; cbn.
  - by intros [= <-].
  - intros (s1 & H1 & H2)%res_bind_Ok. apply Forall_cons in HQ as [Ha Hl]. eauto.
Qed.

Lemma filter_none {A} (P : A → Prop) `{!∀ x, Decision (P x)} l :
  Forall (λ x, ¬ P x) l → filter P l = [].
Proof.
  induction 1 as [|x l Hx _ IH]; [done|]. by rewrite filter_cons_False.
Qed.

Lemma list_filter_all {A} (P : A → Prop) `{!∀ x, Decision (P x)} l : Forall P l → filter P l = l.
Proof. induction 1 as [|x l Hx _ IH]; [done|]. by rewrite filter_cons_True, IH. Qed.

Fixpoint list_sum_Z (l : list Z) : Z :=
  match l with [] => 0 | x :: l' => x + list_sum_Z l' end.
Lemma list_sum_Z_app l1 l2 : list_sum_Z (l1 ++ l2) = list_sum_Z l1 + list_sum_Z l2.
Proof. induction l1 as [|x l1 IH]; cbn; [done|]. rewrite IH. lia. Qed.

(** ** Record update

    [r <| f := v |>] is [r] with field [f] set to [v].  A record type declares
    how it is rebuilt from its projections ([Rebuild]); the setter of a field
    replaces that projection in the rebuilding expression. *)

Class Rebuild (R : Type) := rebuild : R → R.
Class FieldOf {R T : Type} (proj : R → T) := set_field : T → R → R.
Arguments set_field {R T} proj {_} v r.

Ltac solve_field R proj :=
  let inst := constr:(_ : Rebuild R) in
  let body := eval hnf in inst in
  match eval pattern proj in body with
  | ?abstracted _ =>
      let t := eval cbv beta in (λ v r, abstracted (λ _, v) r) in exact t
  end.
#[export] Hint Extern 1 (@FieldOf ?R _ ?proj) => solve_field R proj : typeclass_instances.

Notation "r <| f := v |>" := (set_field f v r)
  (at level 1, f at level 99, v at level 200, left associativity,
   format "r  <|  f  :=  v  |>").

(** ** Sums over a finite map *)

Section MapSum.
Context {K : Type} `{Countable K} {A G : Type} (op : G → G → G) (e : G).
Context {Hcomm : Comm (=) op} {Hassoc : Assoc (=) op}.
Implicit Types (f g : K → A → G) (m : gmap K A).

Definition msum f m : G := map_fold (λ k a acc, op (f k a) acc) e m.

Lemma msum_empty f : msum f ∅ = e.
Proof. apply map_fold_empty. Qed.

Lemma msum_insert f m k a :
  m !! k = None → msum f (<[k:=a]> m) = op (f k a) (msum f m).
Proof using Hcomm Hassoc.
  intros Hk. unfold msum. rewrite map_fold_insert_L; [done| |done].
  intros ??????. intros. by rewrite !assoc, (comm_L op (f _ _)).
Qed.

Lemma msum_take f m k a :
  m !! k = Some a → msum f m = op (f k a) (msum f (delete k m)).
Proof using Hcomm Hassoc.
  intros Hk. rewrite <- (insert_id m k a Hk) at 1.
  rewrite <- insert_delete_eq. apply msum_insert. apply lookup_delete_eq.
Qed.

(** Replacing the value at [k]: both sums share the rest of the map. *)
Lemma msum_replace f m k a b :
  m !! k = Some a →
  msum f (<[k:=b]> m) = op (f k b) (msum f (delete k m)).
Proof using Hcomm Hassoc.
  intros Hk. rewrite <- insert_delete_eq. apply msum_insert, lookup_delete_eq.
Qed.

Lemma msum_ext f g m :
  (∀ k a, m !! k = Some a → f k a = g k a) → msum f m = msum g m.
Proof using Hcomm Hassoc.
  induction m as [|k a m Hk IH] using map_ind; intros Hfg.
  - by rewrite !msum_empty.
  - rewrite !msum_insert by done. f_equal.
    + apply Hfg, lookup_insert_eq.
    + apply IH. intros k' a' Hk'. apply Hfg.
      rewrite lookup_insert_ne; [done|]. intros ->. congruence.
Qed.
End MapSum.

Abbreviation zsum := (msum Z.add 0).

Lemma zsum_nonneg {K} `{Countable K} {A} (f : K → A → Z) (m : gmap K A) :
  (∀ k a, m !! k = Some a → 0 <= f k a) → 0 <= zsum f m.
Proof.
  induction m as [|k a m Hk IH] using map_ind; intros Hf.
  - by rewrite msum_empty.
  - rewrite msum_insert by (done || apply _).
    assert (0 <= f k a) by apply Hf, lookup_insert_eq.
    assert (0 <= zsum f m); [|lia].
    apply IH. intros k' a' Hk'. apply Hf.
    rewrite lookup_insert_ne; [done|]. intros ->. congruence.
Qed.

(** One summand is bounded by a sum of non-negative terms. *)
Lemma zsum_term_le {K} `{Countable K} {A} (f : K → A → Z) (m : gmap K A) k a :
  (∀ k a, m !! k = Some a → 0 <= f k a) → m !! k = Some a → f k a <= zsum f m.
Proof.
  intros Hf Hk. rewrite (msum_take _ _ f m k a Hk).
  assert (0 <= zsum f (delete k m)); [|lia].
  apply zsum_nonneg. intros k' a' [_ Hk']%lookup_delete_Some. eauto.
Qed.

(** ** Proof automation *)

Create HintDb i01.
Create Rewrite HintDb i01.
#[export] Hint Resolve wrap_range swrap_range : i01.

(** Splits the hypotheses that say a [res] computation succeeded. *)
Ltac res_inv :=
  repeat match goal with
  | H : Fail _ = Ok _ |- _ => discriminate H
  | H : Ok _ = Fail _ |- _ => discriminate H
  | H : Ok _ = Ok _ |- _ => injection H as H; try subst
  | H : mret _ = Ok _ |- _ => injection H as H; try subst
  | H : (_ ≫= _) = Ok _ |- _ =>
      let x := fresh "x" in let Hx := fresh "Hx" in
      apply res_bind_Ok in H as (x & Hx & H)
  | H : assert _ _ = Ok _ |- _ => apply assert_Ok in H
  | H : (_, _) = (_, _) |- _ => injection H as H; try subst
  | x : unit |- _ => destruct x
  end.

(** Case analysis on the condition of a conditional. *)
Ltac case_if :=
  match goal with
  | |- context [if ?b then _ else _] =>
      lazymatch type of b with bool => let H := fresh "Hif" in destruct b eqn:H end
  | H0 : context [if ?b then _ else _] |- _ =>
      lazymatch type of b with bool => let H := fresh "Hif" in destruct b eqn:H end
  end.

(** Boolean tests to propositions. *)
Ltac bools :=
  repeat match goal with
  | H : _ && _ = true |- _ => apply andb_true_iff in H as [? ?]
  | H : _ || _ = false |- _ => apply orb_false_iff in H as [? ?]
  | H : negb _ = true |- _ => apply negb_true_iff in H
  | H : negb _ = false |- _ => apply negb_false_iff in H
  | H : (_ <? _) = true |- _ => apply Z.ltb_lt in H
  | H : (_ <? _) = false |- _ => apply Z.ltb_ge in H
  | H : (_ <=? _) = true |- _ => apply Z.leb_le in H
  | H : (_ <=? _) = false |- _ => apply Z.leb_gt in H
  | H : (_ =? _) = true |- _ => apply Z.eqb_eq in H
  | H : (_ =? _) = false |- _ => apply Z.eqb_neq in H
  | H : bool_decide _ = true |- _ => apply bool_decide_eq_true in H
  | H : bool_decide _ = false |- _ => apply bool_decide_eq_false in H
  end.

(** Closed conjunctions of comparisons of integers. *)
Ltac z_compute := repeat split; vm_compute; first [reflexivity | discriminate | exact I].

(** Range conditions at the widths in use, with the powers evaluated. *)
Ltac in_range :=
  unfold in_i, in_u in *;
  change (2 ^ (64 - 1)) with 9223372036854775808 in *;
  change (2 ^ (32 - 1)) with 2147483648 in *;
  change (2 ^ 64) with 18446744073709551616 in *;
  change (2 ^ 32) with 4294967296 in *;
  change (2 ^ 16) with 65536 in *;
  change (2 ^ 8) with 256 in *;
  change (2 ^ 60) with 1152921504606846976 in *;
  lia.
(** Removes the wrap-around of sums that stay in range. *)
Ltac no_wrap :=
  repeat match goal with
  | |- context [swrap 64 ?z] =>
      lazymatch z with
      | context [swrap _ _] => fail
      | context [wrap _ _] => fail
      | _ => rewrite (swrap_small 64 z) by in_range
      end
  | |- context [wrap 32 ?z] =>
      lazymatch z with
      | context [swrap _ _] => fail
      | context [wrap _ _] => fail
      | _ => rewrite (wrap_small 32 z) by in_range
      end
  end.
