(* ===== verification/StdMap.v ===== *)
(** * [std::map] with a comparison of its own

    The elements in key order.  [lt] is the comparison the map was declared
    with ([std::less], [std::greater]); two keys neither of which precedes the
    other are the same key.  The price levels of a market data book and the
    simulated orders of a session are kept in such maps. *)

From S2P Require Import Prelude.
From Stdlib Require Import Sorted.

Section Ops.
Context {K V : Type} (lt : K → K → bool).
Implicit Types (m : list (K * V)).

Definition same_key (a b : K) : bool := negb (lt a b) && negb (lt b a).

(** [find(k)]: the value there ([end()] is none). *)
Fixpoint sm_find (k : K) m : option V :=
  match m with
  | [] => None
  | (k', v) :: m' => if same_key k k' then Some v else sm_find k m'
  end.
(** [emplace(k, v)]: nothing when the key is there. *)
Fixpoint sm_emplace (k : K) (v : V) m : list (K * V) :=
  match m with
  | [] => [(k, v)]
  | (k', v') :: m' =>
      if lt k k' then (k, v) :: m
      else if same_key k k' then m
      else (k', v') :: sm_emplace k v m'
  end.
(** Writing through the iterator [find] returned. *)
Fixpoint sm_set (k : K) (v : V) m : list (K * V) :=
  match m with
  | [] => []
  | (k', v') :: m' =>
      if same_key k k' then (k', v) :: m' else (k', v') :: sm_set k v m'
  end.
Fixpoint sm_erase (k : K) m : list (K * V) :=
  match m with
  | [] => []
  | (k', v') :: m' => if same_key k k' then m' else (k', v') :: sm_erase k m'
  end.
(** [find(k) == begin()] *)
Definition sm_is_first (k : K) m : bool :=
  match m with
  | [] => false
  | (k', _) :: _ => same_key k k'
  end.

(** In key order. *)
Definition sm_sorted m : Prop := StronglySorted (λ x y, lt x y = true) m.*1.
End Ops.

(** What the comparison has to satisfy. *)
Class KeyOrder {K} (lt : K → K → bool) : Prop := {
  lt_irrefl k : lt k k = false;
  lt_trans a b c : lt a b = true → lt b c = true → lt a c = true;
  lt_total a b : lt a b = false → lt b a = false → a = b
}.
#[export] Instance Z_ltb_order : KeyOrder Z.ltb.
Proof. split; intros; bools; lia. Qed.
#[export] Instance Z_gtb_order : KeyOrder Z.gtb.
Proof. split; intros *; rewrite ?Z.gtb_ltb; intros; bools; lia. Qed.

Section Laws.
Context {K V : Type} (lt : K → K → bool) `{!KeyOrder lt}.
Implicit Types (m : list (K * V)).

Lemma same_key_refl k : same_key lt k k = true.
Proof. unfold same_key. by rewrite !(lt_irrefl (lt:=lt)). Qed.
Lemma same_key_eq a b : same_key lt a b = true → a = b.
Proof. unfold same_key. intros. bools. by apply lt_total. Qed.
Lemma same_key_ne a b : a ≠ b → same_key lt a b = false.
Proof. intros Hne. destruct (same_key lt a b) eqn:E; [|done]. by apply same_key_eq in E. Qed.
Lemma lt_not_same a b : lt a b = true → same_key lt a b = false.
Proof. unfold same_key. by intros ->. Qed.
Lemma lt_asym a b : lt a b = true → lt b a = false.
Proof.
  intros Hab. destruct (lt b a) eqn:Hba; [|done].
  pose proof (lt_trans a b a Hab Hba) as Haa. by rewrite (lt_irrefl (lt:=lt)) in Haa.
Qed.

Ltac keys :=
  repeat match goal with
  | H : same_key lt _ _ = true |- _ => apply same_key_eq in H; subst
  | |- context [same_key lt ?k ?k] => rewrite same_key_refl
  end.

(** A key below the first one is nowhere. *)
Lemma sm_find_below k m : Forall (λ x, lt k x = true) m.*1 → sm_find lt k m = None.
Proof.
  induction m as [|[k' v] m IH]; [done|]. intros [Hk Hm]%Forall_cons. cbn in *.
  rewrite lt_not_same by done. auto.
Qed.

Lemma sm_sorted_cons k v m :
  sm_sorted lt ((k, v) :: m) ↔ sm_sorted lt m /\ Forall (λ x, lt k x = true) m.*1.
Proof.
  unfold sm_sorted. cbn. split.
  - by intros []%StronglySorted_inv.
  - intros []. by constructor.
Qed.

Lemma sm_forall_emplace (P : K → Prop) k v m :
  P k → Forall P m.*1 → Forall P (sm_emplace lt k v m).*1.
Proof.
  intros Hk. induction m as [|[k' v'] m IH]; cbn; [by repeat constructor|].
  intros [? ?]%Forall_cons. repeat case_if; cbn; repeat constructor; auto.
Qed.
Lemma sm_forall_erase (P : K → Prop) k m : Forall P m.*1 → Forall P (sm_erase lt k m).*1.
Proof.
  induction m as [|[k' v'] m IH]; cbn; [done|].
  intros [? ?]%Forall_cons. case_if; cbn; [done|]. constructor; auto.
Qed.
Lemma sm_keys_set k v m : (sm_set lt k v m).*1 = m.*1.
Proof.
  induction m as [|[k' v'] m IH]; cbn; [done|]. case_if; cbn; [done|]. by rewrite IH.
Qed.

(** ** Every operation keeps the order *)

Lemma sm_sorted_emplace k v m : sm_sorted lt m → sm_sorted lt (sm_emplace lt k v m).
Proof.
  induction m as [|[k' v'] m IH]; cbn [sm_emplace].
  - intros _. repeat constructor.
  - intros Hm. pose proof Hm as [Hs Hall]%sm_sorted_cons. repeat case_if; [|done|].
    + apply sm_sorted_cons. split; [done|]. cbn. constructor; [done|].
      eapply Forall_impl; [done|]. cbn. intros x Hx. by eapply lt_trans.
    + apply sm_sorted_cons. split; [auto|]. apply sm_forall_emplace; [|done].
      destruct (lt k' k) eqn:E; [done|]. unfold same_key in Hif0. by rewrite Hif, E in Hif0.
Qed.
Lemma sm_sorted_erase k m : sm_sorted lt m → sm_sorted lt (sm_erase lt k m).
Proof.
  induction m as [|[k' v'] m IH]; cbn [sm_erase]; [done|].
  intros [Hs Hall]%sm_sorted_cons. case_if; [done|].
  apply sm_sorted_cons. split; [auto|]. by apply sm_forall_erase.
Qed.
Lemma sm_sorted_set k v m : sm_sorted lt m → sm_sorted lt (sm_set lt k v m).
Proof. unfold sm_sorted. by rewrite sm_keys_set. Qed.

(** ** As a finite map *)

Lemma sm_find_emplace k v m k' : sm_sorted lt m →
  sm_find lt k' (sm_emplace lt k v m)
  = if same_key lt k' k then Some (default v (sm_find lt k m)) else sm_find lt k' m.
Proof.
  induction m as [|[k0 v0] m IH]; cbn [sm_emplace sm_find].
  - intros _. by case_if.
  - intros [Hs Hall]%sm_sorted_cons.
    destruct (lt k k0) eqn:Hlt; cbn [sm_find].
    + rewrite (lt_not_same k k0) by done.
      rewrite (sm_find_below k m); [done|].
      eapply Forall_impl; [done|]. cbn. intros x Hx. by eapply lt_trans.
    + destruct (same_key lt k k0) eqn:Hk; keys; cbn [sm_find].
      * by case_if.
      * destruct (same_key lt k' k0) eqn:Hk'; keys; [|by apply IH].
        rewrite same_key_ne; [done|]. intros ->. by rewrite same_key_refl in Hk.
Qed.

Lemma sm_find_erase k m k' : sm_sorted lt m →
  sm_find lt k' (sm_erase lt k m) = if same_key lt k' k then None else sm_find lt k' m.
Proof.
  induction m as [|[k0 v0] m IH]; cbn [sm_erase sm_find].
  - intros _. by case_if.
  - intros [Hs Hall]%sm_sorted_cons.
    destruct (same_key lt k k0) eqn:Hk; keys; cbn [sm_find].
    + destruct (same_key lt k' k0) eqn:Hk'; keys; [|done]. by apply sm_find_below.
    + destruct (same_key lt k' k0) eqn:Hk'; keys; [|by apply IH].
      rewrite same_key_ne; [done|]. intros ->. by rewrite same_key_refl in Hk.
Qed.

Lemma sm_find_set k v m k' :
  sm_find lt k' (sm_set lt k v m)
  = if same_key lt k' k then match sm_find lt k m with Some _ => Some v | None => None end else sm_find lt k' m.
Proof.
  induction m as [|[k0 v0] m IH]; cbn [sm_set sm_find].
  - by case_if.
  - destruct (same_key lt k k0) eqn:Hk; keys; cbn [sm_find].
    + by case_if.
    + rewrite IH. destruct (same_key lt k' k0) eqn:Hk'; keys; [|done].
      rewrite same_key_ne; [done|]. intros ->. by rewrite same_key_refl in Hk.
Qed.

(** The first element precedes every other. *)
Lemma sm_first_least k v m k' v' :
  sm_sorted lt ((k, v) :: m) → sm_find lt k' ((k, v) :: m) = Some v' → k' = k \/ lt k k' = true.
Proof.
  intros [Hs Hall]%sm_sorted_cons. cbn. case_if; keys; [by left|].
  intros Hf. right. revert Hf Hall. clear Hs Hif. induction m as [|[k0 v0] m IH]; [done|].
  cbn. intros Hf [? ?]%Forall_cons. case_if; keys; [done|]. auto.
Qed.
End Laws.
#[export] Hint Resolve sm_sorted_emplace sm_sorted_erase sm_sorted_set : i01.
