(* ===== verification/Dbl.v ===== *)
(** * Arithmetic on prices and dollars

    The code computes prices, notionals and profit with [double].  Every
    definition that does so is written against the interface [Dbl] below, and
    is run at two instances:

    - [binary64], IEEE 754 double precision with round-to-nearest-even (the
      reference functions of [Stdlib.Floats.SpecFloat]): this is the program;
    - [ideal], exact rational arithmetic: the reference in which accounting
      identities hold without rounding.

    A theorem stated for an arbitrary [Dbl] holds of both; a theorem about
    accounting identities is stated at [ideal]. *)

From S2P Require Import Prelude.
From Stdlib Require Import SpecFloat Qcanon QArith Lqa.
Open Scope Z_scope.

Class Dbl (D : Type) := {
  d_add : D → D → D;
  d_sub : D → D → D;
  d_mul : D → D → D;
  d_div : D → D → D;
  d_opp : D → D;
  d_ltb : D → D → bool;
  d_leb : D → D → bool;
  (** [static_cast<double>] of an integer. *)
  d_of_Z : Z → D;
  (** [static_cast<std::int64_t>] of a double. *)
  d_to_i64 : D → Z
}.

Declare Scope dbl_scope.
Delimit Scope dbl_scope with dbl.
Infix "+" := d_add : dbl_scope.
Infix "-" := d_sub : dbl_scope.
Infix "*" := d_mul : dbl_scope.
Infix "/" := d_div : dbl_scope.
Notation "- x" := (d_opp x) : dbl_scope.
Infix "<?" := d_ltb : dbl_scope.
Infix "<=?" := d_leb : dbl_scope.

Definition d0 `{Dbl D} : D := d_of_Z 0.

(** A decimal literal [n / d] of the source: both integers are exact in
    binary64 and the quotient is correctly rounded, as the literal is. *)
Definition d_lit `{Dbl D} (n d : Z) : D := (d_of_Z n / d_of_Z d)%dbl.

(** ** The program's arithmetic: IEEE 754 binary64 *)

Definition b64_trunc (x : spec_float) : option Z :=
  match x with
  | S754_zero _ => Some 0
  | S754_finite s m e =>
      let a := if 0 <=? e then Z.shiftl (Z.pos m) e else Z.shiftr (Z.pos m) (- e) in
      Some (if s then - a else a)
  | S754_infinity _ | S754_nan => None
  end.

(** [cvttsd2si]: truncation, and the integer indefinite when out of range. *)
Definition b64_to_i64 (x : spec_float) : Z :=
  match b64_trunc x with
  | Some z => if bool_decide (in_i 64 z) then z else i64_min
  | None => i64_min
  end.

#[export] Instance binary64 : Dbl spec_float := {|
  d_add := SFadd 53 1024;
  d_sub := SFsub 53 1024;
  d_mul := SFmul 53 1024;
  d_div := SFdiv 53 1024;
  d_opp := SFopp;
  d_ltb := SFltb;
  d_leb := SFleb;
  d_of_Z z := binary_normalize 53 1024 z 0 false;
  d_to_i64 := b64_to_i64
|}.

(** ** The reference arithmetic: exact rationals *)

Definition qc_of_Z (z : Z) : Qc := Q2Qc (inject_Z z).
Definition qc_trunc (q : Qc) : Z := Z.quot (Qnum (this q)) (Z.pos (Qden (this q))).

#[export] Instance ideal : Dbl Qc := {|
  d_add := Qcplus;
  d_sub := Qcminus;
  d_mul := Qcmult;
  d_div := Qcdiv;
  d_opp := Qcopp;
  d_ltb x y := bool_decide (x < y)%Qc;
  d_leb x y := bool_decide (x <= y)%Qc;
  d_of_Z := qc_of_Z;
  d_to_i64 := qc_trunc
|}.

(** [static_cast<double>] is a ring morphism in the reference arithmetic. *)
Lemma qc_of_Z_add x y : qc_of_Z (x + y) = (qc_of_Z x + qc_of_Z y)%Qc.
Proof.
  apply Qc_is_canon. unfold qc_of_Z, Qcplus, Q2Qc. cbn [this].
  rewrite !Qred_correct. by rewrite inject_Z_plus.
Qed.

Lemma qc_of_Z_opp x : qc_of_Z (- x) = (- qc_of_Z x)%Qc.
Proof.
  apply Qc_is_canon. unfold qc_of_Z, Qcopp, Q2Qc. cbn [this].
  rewrite !Qred_correct. by rewrite inject_Z_opp.
Qed.

Lemma qc_of_Z_sub x y : qc_of_Z (x - y) = (qc_of_Z x - qc_of_Z y)%Qc.
Proof. unfold Z.sub, Qcminus. by rewrite qc_of_Z_add, qc_of_Z_opp. Qed.

Lemma qc_of_Z_mul x y : qc_of_Z (x * y) = (qc_of_Z x * qc_of_Z y)%Qc.
Proof.
  apply Qc_is_canon. unfold qc_of_Z, Qcmult, Q2Qc. cbn [this].
  rewrite !Qred_correct. by rewrite inject_Z_mult.
Qed.

Lemma qc_of_Z_0 : qc_of_Z 0 = 0%Qc.
Proof. by apply Qc_is_canon. Qed.

Lemma qc_of_Z_inj x y : qc_of_Z x = qc_of_Z y → x = y.
Proof.
  intros Hxy. assert (this (qc_of_Z x) == this (qc_of_Z y))%Q as H by (by rewrite Hxy).
  unfold qc_of_Z, Q2Qc in H. cbn [this] in H. rewrite !Qred_correct in H.
  unfold Qeq in H; cbn in H. lia.
Qed.

Lemma qc_of_Z_nonzero x : x ≠ 0 → qc_of_Z x ≠ 0%Qc.
Proof. rewrite <- qc_of_Z_0. intros Hx Heq. by apply Hx, qc_of_Z_inj. Qed.

Lemma qc_of_Z_nonneg x : 0 <= x → (0 <= qc_of_Z x)%Qc.
Proof.
  intros Hx. unfold Qcle, qc_of_Z, Q2Qc. cbn [this]. rewrite !Qred_correct.
  unfold Qle. cbn. lia.
Qed.

(** Unfolds the interface at the reference instance. *)
Ltac ideal_unfold :=
  cbv [d_add d_sub d_mul d_div d_opp d_ltb d_leb d_of_Z d_to_i64 ideal d0] in *;
  rewrite ?qc_of_Z_0 in *.

(** Linear arithmetic over [Qc], by transport to [Q]. *)
Lemma qc_eq_Q (x y : Qc) : x = y → (this x == this y)%Q.
Proof. by intros ->. Qed.

Ltac qc_lra :=
  repeat match goal with H : @eq Qc _ _ |- _ => apply qc_eq_Q in H end;
  try apply Qc_is_canon;
  unfold Qcle, Qclt, Qcminus, Qcplus, Qcopp, Q2Qc in *;
  cbn [this] in *; rewrite ?Qred_correct in *; lra.

(** ** The bytes of a double

    The order log stores prices as their 64-bit patterns. *)

Class DblBits (D : Type) := {
  d_bits : D → Z;
  d_of_bits : Z → D;
  (** The values that have one pattern. *)
  d_valid : D → Prop;
  d_bits_range x : d_valid x → 0 <= d_bits x < 18446744073709551616;
  d_of_bits_bits x : d_valid x → d_of_bits (d_bits x) = x
}.

Definition two52 : Z := 4503599627370496.
Definition two63 : Z := 9223372036854775808.

Definition b64_magnitude (m : positive) (e : Z) : Z :=
  if Z.pos m <? two52 then Z.pos m else (e + 1075) * two52 + (Z.pos m - two52).
Definition b64_bits (x : spec_float) : Z :=
  match x with
  | S754_zero s => if s then two63 else 0
  | S754_infinity s => (if s then two63 else 0) + 2047 * two52
  | S754_nan => 2047 * two52 + two52 / 2
  | S754_finite s m e => (if s then two63 else 0) + b64_magnitude m e
  end.
Definition b64_of_bits (z : Z) : spec_float :=
  let s := two63 <=? z in
  let ex := z / two52 mod 2048 in
  let mn := z mod two52 in
  if ex =? 2047 then (if mn =? 0 then S754_infinity s else S754_nan)
  else if ex =? 0 then
    match mn with Zpos p => S754_finite s p (-1074) | _ => S754_zero s end
  else match mn + two52 with Zpos p => S754_finite s p (ex - 1075) | _ => S754_nan end.

(** Normal and subnormal numbers in their IEEE form. *)
Definition b64_valid (x : spec_float) : Prop :=
  match x with
  | S754_finite _ m e =>
      (two52 <= Z.pos m < 2 * two52 ∧ -1074 <= e <= 971) ∨ (Z.pos m < two52 ∧ e = -1074)
  | _ => True
  end.

Lemma b64_fields s ex mn :
  0 <= ex < 2048 → 0 <= mn < two52 →
  let z := (if s : bool then two63 else 0) + (ex * two52 + mn) in
  (two63 <=? z) = s ∧ z / two52 mod 2048 = ex ∧ z mod two52 = mn ∧ 0 <= z < 2 * two63.
Proof.
  intros Hex Hmn z. subst z. unfold two52, two63 in *. split_and!; try (destruct s; lia).
  - assert (((if s then 9223372036854775808 else 0) + (ex * 4503599627370496 + mn))
      / 4503599627370496 = (if s then 2048 else 0) + ex) as ->.
    { symmetry. apply (Z.div_unique _ _ _ mn); destruct s; lia. }
    symmetry. apply (Z.mod_unique _ _ (if s then 1 else 0)); destruct s; lia.
  - symmetry. apply (Z.mod_unique _ _ ((if s then 2048 else 0) + ex)); destruct s; lia.
Qed.

Lemma b64_magnitude_fields m e : b64_valid (S754_finite false m e) →
  ∃ ex mn, b64_magnitude m e = ex * two52 + mn ∧ 0 <= mn < two52
    ∧ ((ex = 0 ∧ mn = Z.pos m ∧ e = -1074)
       ∨ (0 < ex < 2047 ∧ mn + two52 = Z.pos m ∧ e = ex - 1075)).
Proof.
  unfold b64_magnitude, two52. cbn. unfold two52. intros [[Hm He]|[Hm ->]].
  - exists (e + 1075), (Z.pos m - 4503599627370496).
    replace (_ <? _) with false by (symmetry; apply Z.ltb_ge; lia).
    split_and!; try lia.
  - exists 0, (Z.pos m). replace (_ <? _) with true by (symmetry; apply Z.ltb_lt; lia).
    split_and!; try lia.
Qed.

Lemma b64_bits_range x : b64_valid x → 0 <= b64_bits x < 18446744073709551616.
Proof.
  destruct x as [s|s| |s m e].
  1-3: intros _; try destruct s; vm_compute; split; congruence.
  - intros Hv. destruct (b64_magnitude_fields m e Hv) as (ex & mn & E & Hmn & Hc).
    cbn [b64_bits]. rewrite E.
    destruct (b64_fields s ex mn) as (_ & _ & _ & Hr); [lia|done|]. unfold two63, two52 in *. lia.
Qed.

Lemma b64_of_bits_bits x : b64_valid x → b64_of_bits (b64_bits x) = x.
Proof.
  destruct x as [s|s| |s m e]; try (intros _; destruct s; reflexivity); [reflexivity|].
  intros Hv. destruct (b64_magnitude_fields m e Hv) as (ex & mn & E & Hmn & Hc).
  cbn [b64_bits]. rewrite E. unfold b64_of_bits.
  destruct (b64_fields s ex mn) as (-> & -> & -> & _); [lia|done|].
  destruct Hc as [(-> & -> & ->)|(Hex & Hm & ->)]; [done|].
  replace (ex =? 2047) with false by (symmetry; apply Z.eqb_neq; lia).
  replace (ex =? 0) with false by (symmetry; apply Z.eqb_neq; lia). by rewrite Hm.
Qed.

#[export] Instance binary64_bits : DblBits spec_float := {|
  d_bits := b64_bits; d_of_bits := b64_of_bits; d_valid := b64_valid;
  d_bits_range := b64_bits_range; d_of_bits_bits := b64_of_bits_bits
|}.
