(* ===== verification/Time.v ===== *)
(** * Timestamps (src/core/i01_core/Time.hpp)

    [Timestamp] is a POSIX [timespec]: seconds and nanoseconds, both 64-bit
    signed.  The operations are transcribed with the conversions the C++
    expressions perform; the section at the end relates them to arithmetic on
    a count of nanoseconds. *)

From S2P Require Import Prelude.

Record Timestamp := mkTs { tv_sec : Z; tv_nsec : Z }.

#[export] Instance Timestamp_rebuild : Rebuild Timestamp :=
  λ r, mkTs (tv_sec r) (tv_nsec r).
#[export] Instance Timestamp_eq_dec : EqDecision Timestamp.
Proof. solve_decision. Defined.

Definition NS : Z := 1000000000.
Definition DAY_S : Z := 86400.

Definition ts_zero : Timestamp := mkTs 0 0.

(** [Timestamp(const time_t s, const long n)]: the remainder and the division
    are computed in [unsigned long long]. *)
Definition ts_make (s n : Z) : Timestamp :=
  let m := i64 (u64 n mod NS) in
  mkTs (i64 (u64 (u64 s + u64 (i64 (n - m)) / NS))) m.

Definition ts_plus (a t : Timestamp) : Timestamp :=
  let sum := ts_make (i64 (tv_sec a + tv_sec t)) (i64 (tv_nsec a + tv_nsec t)) in
  if NS <? tv_nsec sum
  then mkTs (i64 (tv_sec sum + 1)) (i64 (tv_nsec sum - NS))
  else sum.

Definition ts_plus_assign (a t : Timestamp) : Timestamp :=
  let s := i64 (tv_sec a + tv_sec t) in
  let n := i64 (tv_nsec a + tv_nsec t) in
  if NS <? n then mkTs (i64 (s - 1)) (i64 (n - NS)) else mkTs s n.

Definition ts_minus (a t : Timestamp) : Timestamp :=
  let diff := ts_make (i64 (tv_sec a - tv_sec t)) 0 in
  if tv_nsec a <? tv_nsec t
  then mkTs (i64 (tv_sec diff - 1)) (i64 (i64 (tv_nsec a + NS) - tv_nsec t))
  else mkTs (tv_sec diff) (i64 (tv_nsec a - tv_nsec t)).

Definition ts_minus_assign (a t : Timestamp) : Timestamp :=
  let s := i64 (tv_sec a - tv_sec t) in
  if tv_nsec a <? tv_nsec t
  then mkTs (i64 (s - 1)) (i64 (i64 (tv_nsec a + NS) - tv_nsec t))
  else mkTs s (i64 (tv_nsec a - tv_nsec t)).

Definition get_midnight (a : Timestamp) (add_ns : Z) : Timestamp :=
  let ts := ts_make (i64 (tv_sec a - Z.rem (tv_sec a) DAY_S)) (add_ns mod NS) in
  ts <| tv_sec := i64 (u64 (u64 (tv_sec ts) + u64 (add_ns - tv_nsec ts) / NS)) |>.

Definition seconds_since_midnight (a : Timestamp) : Z := u64 (tv_sec a) mod DAY_S.

Definition milliseconds_since_midnight (a : Timestamp) : Z :=
  u64 (u64 (u64 (tv_sec a) * 1000) + u64 (tv_nsec a) / 1000000) mod (DAY_S * 1000).

Definition nanoseconds_since_midnight (a : Timestamp) : Z :=
  u64 (u64 (u64 (tv_sec a) * NS) + u64 (tv_nsec a)) mod (DAY_S * NS).

Definition ts_eqb (a b : Timestamp) : bool :=
  (tv_sec a =? tv_sec b) && (tv_nsec a =? tv_nsec b).
Definition ts_neqb (a b : Timestamp) : bool := negb (ts_eqb a b).
Definition ts_ltb (l r : Timestamp) : bool :=
  (tv_sec l <? tv_sec r) || ((tv_sec l =? tv_sec r) && (tv_nsec l <? tv_nsec r)).
Definition ts_leb (l r : Timestamp) : bool := ts_eqb l r || ts_ltb l r.
Definition ts_gtb (l r : Timestamp) : bool := negb (ts_leb l r).
Definition ts_geb (l r : Timestamp) : bool := negb (ts_ltb l r).

(** [Timestamp::last_event]: a static maximum, returned and updated. *)
Definition last_event (ts newts : Timestamp) : Timestamp :=
  if ts_gtb newts ts then newts else ts.

(** ** Meaning as a count of nanoseconds *)

Definition to_ns (t : Timestamp) : Z := tv_sec t * NS + tv_nsec t.

(** A normalised timestamp of the years the code can meet (up to 2^33 s). *)
Definition ts_wf (t : Timestamp) : Prop :=
  0 <= tv_sec t < 8589934592 ∧ 0 <= tv_nsec t < NS.
#[export] Instance ts_wf_dec t : Decision (ts_wf t).
Proof. unfold ts_wf. apply _. Defined.

Lemma wrap64_id z : 0 <= z < 18446744073709551616 → u64 z = z.
Proof. intros. by apply wrap_small. Qed.

Lemma i64_id z : -9223372036854775808 <= z < 9223372036854775808 → i64 z = z.
Proof. intros. apply swrap_small; [lia|]. unfold in_i. lia. Qed.

Lemma ts_make_ns s n :
  - 8589934592 <= s < 17179869185 → 0 <= n < 2 * NS →
  to_ns (ts_make s n) = s * NS + n ∧ 0 <= tv_nsec (ts_make s n) < NS
  ∧ tv_sec (ts_make s n) = s + n / NS.
Proof.
  intros Hs Hn. unfold ts_make, to_ns. cbn [tv_sec tv_nsec].
  assert (0 <= n mod NS < NS) by (apply Z.mod_pos_bound; unfold NS; lia).
  assert (n = NS * (n / NS) + n mod NS) as Hdiv by (apply Z.div_mod; unfold NS; lia).
  rewrite (wrap64_id n) by (unfold NS in *; lia).
  rewrite (i64_id (n mod NS)) by (unfold NS in *; lia).
  replace (n - n mod NS) with (NS * (n / NS)) by lia.
  assert (0 <= n / NS <= 1) by (unfold NS in *; lia).
  rewrite (i64_id (NS * _)), (wrap64_id (NS * _)) by (unfold NS in *; lia).
  rewrite (Z.mul_comm NS), Z.div_mul by (unfold NS; lia).
  assert (i64 (u64 (u64 s + n / NS)) = s + n / NS) as ->.
  { rewrite wrap_add_l. unfold swrap, wrap. rewrite Zplus_mod_idemp_l.
    change (swrap 64 (s + n / NS) = s + n / NS). apply i64_id. unfold NS in *. lia. }
  nia.
Qed.

Lemma ts_plus_ns a b : ts_wf a → ts_wf b →
  to_ns (ts_plus a b) = to_ns a + to_ns b ∧ 0 <= tv_nsec (ts_plus a b) < NS.
Proof.
  intros [Ha1 Ha2] [Hb1 Hb2]. unfold ts_plus.
  rewrite !i64_id by (unfold NS in *; lia).
  destruct (ts_make_ns (tv_sec a + tv_sec b) (tv_nsec a + tv_nsec b))
    as (H1 & H2 & _); [unfold NS in *; lia..|].
  replace (NS <? _) with false by (symmetry; apply Z.ltb_ge; lia).
  unfold to_ns in *. lia.
Qed.

Lemma ts_minus_ns a b : ts_wf a → ts_wf b →
  to_ns (ts_minus a b) = to_ns a - to_ns b ∧ 0 <= tv_nsec (ts_minus a b) < NS.
Proof.
  intros [Ha1 Ha2] [Hb1 Hb2]. unfold ts_minus.
  rewrite (i64_id (tv_sec a - _)) by lia.
  destruct (ts_make_ns (tv_sec a - tv_sec b) 0) as (_ & _ & H3); [unfold NS; lia..|].
  rewrite Z.div_0_l, Z.add_0_r in H3 by (unfold NS; lia). rewrite H3.
  unfold to_ns. case_if; bools; cbn [tv_sec tv_nsec];
    rewrite !i64_id by (rewrite ?i64_id; unfold NS in *; lia); unfold NS in *; lia.
Qed.

Lemma ts_ltb_ns a b : ts_wf a → ts_wf b → ts_ltb a b = true ↔ to_ns a < to_ns b.
Proof.
  intros [Ha1 Ha2] [Hb1 Hb2]. unfold ts_ltb, to_ns.
  rewrite orb_true_iff, andb_true_iff, !Z.ltb_lt, Z.eqb_eq. unfold NS in *. lia.
Qed.

Lemma ts_leb_ns a b : ts_wf a → ts_wf b → ts_leb a b = true ↔ to_ns a <= to_ns b.
Proof.
  intros Ha Hb. unfold ts_leb, ts_eqb.
  rewrite orb_true_iff, ts_ltb_ns, andb_true_iff, !Z.eqb_eq by done.
  unfold to_ns. destruct Ha, Hb. unfold NS in *. lia.
Qed.

Lemma ts_ext a b :
  to_ns a = to_ns b → 0 <= tv_nsec a < NS → 0 <= tv_nsec b < NS → a = b.
Proof.
  destruct a as [sa na], b as [sb nb]. unfold to_ns, NS. cbn. intros. f_equal; lia.
Qed.

Lemma nanoseconds_since_midnight_ns t :
  ts_wf t → nanoseconds_since_midnight t = to_ns t mod (DAY_S * NS).
Proof.
  intros [H1 H2]. unfold nanoseconds_since_midnight, to_ns.
  rewrite (wrap64_id (tv_sec t)), (wrap64_id (tv_nsec t)) by (unfold NS in *; lia).
  rewrite (wrap64_id (tv_sec t * NS)) by (unfold NS in *; lia).
  by rewrite wrap64_id by (unfold NS in *; lia).
Qed.

Lemma get_midnight_ns t n : ts_wf t → 0 <= n < DAY_S * NS →
  to_ns (get_midnight t n) = to_ns t - to_ns t mod (DAY_S * NS) + n
  ∧ 0 <= tv_nsec (get_midnight t n) < NS.
Proof.
  intros [H1 H2] Hn. unfold get_midnight.
  rewrite Z.rem_mod_nonneg by (unfold DAY_S; lia).
  assert (0 <= n mod NS < NS) as Hm by (apply Z.mod_pos_bound; unfold NS; lia).
  assert (0 <= tv_sec t mod DAY_S < DAY_S) as Hd by (apply Z.mod_pos_bound; unfold DAY_S; lia).
  pose proof (Z.div_mod n NS ltac:(unfold NS; lia)) as En.
  pose proof (Z.div_mod (tv_sec t) DAY_S ltac:(unfold DAY_S; lia)) as Et.
  assert (0 <= n / NS < DAY_S) as Hq.
  { split; [apply Z.div_pos|apply Z.div_lt_upper_bound]; unfold NS, DAY_S in *; lia. }
  rewrite (i64_id (tv_sec t - _)) by (unfold DAY_S in *; lia).
  destruct (ts_make_ns (tv_sec t - tv_sec t mod DAY_S) (n mod NS)) as (E1 & E2 & E3);
    [unfold DAY_S, NS in *; lia..|].
  rewrite (Z.div_small (n mod NS)), Z.add_0_r in E3 by lia.
  assert (tv_nsec (ts_make (tv_sec t - tv_sec t mod DAY_S) (n mod NS)) = n mod NS) as E4.
  { unfold to_ns in E1. rewrite E3 in E1. lia. }
  unfold to_ns. cbn [tv_sec tv_nsec set_field]. rewrite E3, E4.
  replace (n - n mod NS) with (n / NS * NS) by lia.
  assert (0 <= n / NS * NS < 18446744073709551616) by (unfold NS, DAY_S in *; lia).
  rewrite (wrap64_id (n / NS * NS)), Z.div_mul by (done || (unfold NS; lia)).
  rewrite (wrap64_id (tv_sec t - _)), wrap64_id, i64_id by (unfold NS, DAY_S in *; lia).
  split; [|lia].
  assert ((tv_sec t * NS + tv_nsec t) mod (DAY_S * NS)
          = tv_sec t mod DAY_S * NS + tv_nsec t) as ->; [|nia].
  symmetry. apply (Z.mod_unique_pos _ _ (tv_sec t / DAY_S)); unfold NS, DAY_S in *; lia.
Qed.

(** ** Properties *)

(** on normalised timestamps, [+], [-] and the comparisons of [Timestamp]
    are exact arithmetic on nanosecond counts: the carry and the borrow are
    right, results are normalised, and subtracting what was added gives back
    the timestamp. *)
Theorem timestamp_arithmetic_exact (a b : Timestamp) :
  ts_wf a → ts_wf b →
  to_ns (ts_plus a b) = to_ns a + to_ns b
  ∧ to_ns (ts_minus a b) = to_ns a - to_ns b
  ∧ 0 <= tv_nsec (ts_plus a b) < NS ∧ 0 <= tv_nsec (ts_minus a b) < NS
  ∧ (ts_ltb a b = true ↔ to_ns a < to_ns b)
  ∧ (ts_leb a b = true ↔ to_ns a <= to_ns b)
  ∧ (ts_wf (ts_plus a b) → ts_minus (ts_plus a b) b = a).
Proof.
  intros Ha Hb. pose proof (ts_plus_ns a b Ha Hb) as [Hp ?].
  pose proof (ts_minus_ns a b Ha Hb) as [? ?].
  split_and!; try done; try lia; [by apply ts_ltb_ns|by apply ts_leb_ns|].
  intros Hs. destruct (ts_minus_ns _ b Hs Hb) as [Hm ?].
  apply ts_ext; [lia|lia|apply Ha].
Qed.

Lemma timestamp_arithmetic_exact_witness :
  ts_minus (ts_plus (mkTs 1400000000 999999999) (mkTs 3 500000000)) (mkTs 3 500000000)
  = mkTs 1400000000 999999999.
Proof. apply timestamp_arithmetic_exact; vm_compute; repeat split; discriminate. Defined.

(** [operator+=] disagrees with [operator+]: when the nanoseconds carry, it
    decrements the seconds, so its result is two seconds short of the sum. *)
Theorem timestamp_plus_assign_loses_two_seconds (a b : Timestamp) :
  ts_wf a → ts_wf b → NS < tv_nsec a + tv_nsec b →
  to_ns (ts_plus_assign a b) = to_ns (ts_plus a b) - 2 * NS.
Proof.
  intros Ha Hb Hc. destruct (ts_plus_ns a b Ha Hb) as [-> _].
  destruct Ha as [Ha1 Ha2], Hb as [Hb1 Hb2]. unfold ts_plus_assign, to_ns.
  rewrite !(i64_id (_ + _)) by (unfold NS in *; lia).
  replace (NS <? _) with true by (symmetry; apply Z.ltb_lt; lia).
  cbn [tv_sec tv_nsec]. rewrite !i64_id by (unfold NS in *; lia). unfold NS. lia.
Qed.

Lemma timestamp_plus_assign_loses_two_seconds_witness :
  to_ns (ts_plus_assign (mkTs 10 600000000) (mkTs 1 600000000)) = 10200000000.
Proof.
  rewrite (timestamp_plus_assign_loses_two_seconds (mkTs 10 600000000) (mkTs 1 600000000));
    [reflexivity|vm_compute; repeat split; discriminate..|reflexivity].
Defined.

(** Midnight arithmetic round-trips: [get_midnight] applied to the
    nanoseconds since midnight of a timestamp rebuilds that timestamp. *)
Theorem midnight_roundtrip (t : Timestamp) :
  ts_wf t → get_midnight t (nanoseconds_since_midnight t) = t.
Proof.
  intros Ht. rewrite nanoseconds_since_midnight_ns by done.
  pose proof (Z.mod_pos_bound (to_ns t) (DAY_S * NS) ltac:(unfold DAY_S, NS; lia)).
  destruct (get_midnight_ns t (to_ns t mod (DAY_S * NS)) Ht) as [E ?]; [done|].
  apply ts_ext; [lia|done|apply Ht].
Qed.

Lemma midnight_roundtrip_witness :
  get_midnight (mkTs 1430000000 123456789)
    (nanoseconds_since_midnight (mkTs 1430000000 123456789)) = mkTs 1430000000 123456789.
Proof. apply midnight_roundtrip. vm_compute. repeat split; discriminate. Defined.
