(* ===== verification/PQueue.v ===== *)
(** * Priority queues ([std::priority_queue] with [std::greater])

    The elements in no particular order, and which of those that may come first
    [top()] returns: the library promises that nothing is before it, and no more
    when keys are equal. *)

From S2P Require Import Prelude.
From stdpp Require Export sorting.

(** [after x y]: the operator [>] of the elements. *)
Class TopOk {A : Type} (after : A → A → bool) (top : list A → nat) : Prop :=
  top_least q : q ≠ [] → ∃ x, q !! top q = Some x /\ Forall (λ y, after x y = false) q.

Section Queue.
Context {A : Type} (after : A → A → bool) (top : list A → nat).
Implicit Types q : list A.

Definition pq_push (x : A) q : list A := q ++ [x].
Definition pq_top q : option A := q !! top q.
Definition pq_pop q : list A := delete (top q) q.

Lemma pq_push_perm x q : pq_push x q ≡ₚ x :: q.
Proof. unfold pq_push. by rewrite Permutation_app_comm. Qed.
Lemma pq_pop_perm q x : pq_top q = Some x → q ≡ₚ x :: pq_pop q.
Proof. intros Hx. unfold pq_pop. by rewrite <- delete_Permutation. Qed.
Lemma length_pq_pop q x : pq_top q = Some x → length q = S (length (pq_pop q)).
Proof. intros Hx. by rewrite (pq_pop_perm q x Hx) at 1. Qed.
Lemma length_pq_push x q : length (pq_push x q) = S (length q).
Proof. unfold pq_push. rewrite length_app. cbn. lia. Qed.

Lemma pq_top_some `{!TopOk after top} q : q ≠ [] → is_Some (pq_top q).
Proof. intros Hq. destruct (top_least q Hq) as (x & Hx & _). by exists x. Qed.
Lemma pq_top_least `{!TopOk after top} q x : pq_top q = Some x → Forall (λ y, after x y = false) q.
Proof.
  intros Hx. destruct (top_least q) as (y & Hy & Hl); [by intros ->|].
  unfold pq_top in Hx. rewrite Hx in Hy. by injection Hy as <-.
Qed.
End Queue.

(** A queue that returns the first of the least elements. *)
Section First.
Context {A : Type} (after : A → A → bool).
Fixpoint first_least (q : list A) : nat * option A :=
  match q with
  | [] => (0%nat, None)
  | x :: q' =>
      match first_least q' with
      | (i, Some y) => if after x y then (S i, Some y) else (0%nat, Some x)
      | (_, None) => (0%nat, Some x)
      end
  end.
Definition top_first (q : list A) : nat := (first_least q).1.

Context (Hirr : ∀ x, after x x = false)
  (Hasym : ∀ x y, after x y = true → after y x = false)
  (Htrans : ∀ x y z, after x y = false → after y z = false → after x z = false).
Lemma first_least_ok q : q ≠ [] → ∃ x, first_least q = ((first_least q).1, Some x)
  /\ q !! (first_least q).1 = Some x /\ Forall (λ y, after x y = false) q.
Proof using All.
  induction q as [|x q IH]; [done|]. intros _. cbn [first_least].
  destruct q as [|y0 q0].
  - cbn. exists x. split_and!; [done|done|]. constructor; [apply Hirr|constructor].
  - destruct IH as (y & E & Hy & Hl); [done|]. rewrite E. set (q := y0 :: q0) in *.
    destruct (after x y) eqn:Hxy.
    + exists y. cbn. split_and!; [done|done|]. constructor; [|done].
      by apply Hasym.
    + exists x. cbn. split_and!; [done|done|]. constructor; [apply Hirr|].
      eapply Forall_impl; [exact Hl|]. intros z Hz. by apply (Htrans x y z).
Qed.
Lemma top_first_ok : TopOk after top_first.
Proof using All.
  intros q Hq. destruct (first_least_ok q Hq) as (x & _ & Hx & Hl). by exists x.
Qed.
End First.
