(* ===== verification/Reorder.v ===== *)
(** * Sorting captured packets (src/apps/reorderpcap/reorderpcap.cpp)

    A capture is written out in the order of its timestamps; packets of equal
    times keep the order they were captured in.  The packets pass through a
    priority queue: of all of them, or in a chunked pass of as many as the chunk
    holds, which gives up when a packet turns out to come too late, and is tried
    again with chunks twice as large.  The files are the interface [Files]. *)

From S2P Require Import Prelude Time PQueue.
Open Scope Z_scope.

(** [pcap_pkthdr] and the bytes of a packet. *)
Record PcapPkt := mkPkt {
  pk_sec : Z; pk_usec : Z; pk_caplen : Z; pk_len : Z; pk_data : list Z
}.
(** [Record] *)
Record PktRecord := mkRec { rec_ts : Timestamp; rec_seqnum : Z; rec_pkt : PcapPkt }.
(** [operator>] *)
Definition rec_gtb (l r : PktRecord) : bool :=
  ts_gtb (rec_ts l) (rec_ts r)
  || (ts_eqb (rec_ts l) (rec_ts r) && (rec_seqnum r <? rec_seqnum l)).

(** What the calls of the operating system and of the pcap library answer: a pass
    writes to a file of its own, named after its chunk size. *)
Record Files := mkFiles {
  f_packets : list PcapPkt;
  (** what ended the reading: -2 is the end of the file *)
  f_read_end : Z;
  f_opens_input : bool;
  f_pass_exists : Z → bool;
  f_opens_output : Z → bool;
  (** [malloc] for the n-th packet *)
  f_memory : Z → bool;
  (** [ferror] after so many packets were dumped *)
  f_error : nat → bool;
  f_renames : bool
}.
#[export] Instance Files_rebuild : Rebuild Files := λ f,
  mkFiles (f_packets f) (f_read_end f) (f_opens_input f) (f_pass_exists f) (f_opens_output f)
    (f_memory f) (f_error f) (f_renames f).

(** What a pass returns, and the output file if it renamed its own to it. *)
Record PassResult := mkPass { pass_ret : Z; pass_output : option (list PcapPkt) }.

Definition record_of (seqnum : Z) (p : PcapPkt) : PktRecord :=
  mkRec (ts_make (pk_sec p) (pk_usec p)) seqnum p.

Section Passes.
Context (top : list PktRecord → nat).
Implicit Types (recs : list PktRecord) (out : list PcapPkt).

(** The loop that reads; the left is a return from inside it. *)
Fixpoint ingest (f : Files) (bs : Z) (pkts : list PcapPkt) recs (seqnum : Z) out
    (last_ts : Timestamp) : Z + (list PktRecord * list PcapPkt) :=
  match pkts with
  | [] => inr (recs, out)
  | p :: pkts =>
      if negb (f_memory f seqnum) then inl (-1)
      else
        let recs := pq_push (record_of seqnum p) recs in
        let seqnum := seqnum + 1 in
        if (0 <? bs) && (u64 bs <=? Z.of_nat (length recs)) && negb (f_error f (length out)) then
          match pq_top top recs with
          | None => ingest f bs pkts recs seqnum out last_ts
          | Some r =>
              if ts_gtb last_ts (rec_ts r) then inl seqnum
              else ingest f bs pkts (pq_pop top recs) seqnum (out ++ [rec_pkt r]) (rec_ts r)
          end
        else ingest f bs pkts recs seqnum out last_ts
  end.
(** The loop that writes what is left in the queue. *)
Fixpoint drain (f : Files) (fuel : nat) recs out : list PcapPkt :=
  match fuel, pq_top top recs with
  | S fuel, Some r =>
      if f_error f (length out) then out else drain f fuel (pq_pop top recs) (out ++ [rec_pkt r])
  | _, _ => out
  end.

Definition pass1 (f : Files) (bs : Z) : PassResult :=
  if negb (f_opens_input f) || f_pass_exists f bs || negb (f_opens_output f bs)
  then mkPass (-1) None
  else
    match ingest f bs (f_packets f) [] 0 [] ts_zero with
    | inl ret => mkPass ret None
    | inr (recs, out) =>
        if negb (f_read_end f =? -2) then mkPass (-1) None
        else
          let out := drain f (length recs) recs out in
          if f_renames f then mkPass 0 (Some out) else mkPass (-2) None
    end.

Definition EXIT_SUCCESS : Z := 0.
Definition EXIT_FAILURE : Z := 1.

(** The loop of [main].  [None]: out of fuel. *)
Fixpoint passes (f : Files) (no_fallback : bool) (fuel : nat) (remaining bs : Z)
    : option (Z * option (list PcapPkt)) :=
  if ((remaining <=? 0) || (bs =? 0)) && no_fallback then Some (EXIT_FAILURE, None)
  else
    let r := pass1 f (if 0 <? remaining then bs else 0) in
    if pass_ret r =? 0 then Some (EXIT_SUCCESS, pass_output r)
    else if pass_ret r <? 0 then Some (EXIT_FAILURE, pass_output r)
    else match fuel with
    | O => None
    | S fuel =>
        if 0 <? remaining then
          let remaining := remaining - 1 in
          passes f no_fallback fuel remaining (if remaining =? 0 then 0 else i64 (bs * 2))
        else passes f no_fallback fuel remaining bs
    end.
(** [main] after the options were read; [pass0] checks the names of the files. *)
Definition reorder_main (f : Files) (pass0_ok no_fallback : bool) (num_passes chunk : Z)
    : option (Z * option (list PcapPkt)) :=
  if chunk <? 0 then Some (EXIT_FAILURE, None)
  else
    let '(remaining, bs) := if (num_passes <=? 0) || (chunk <=? 0) then (0, 0) else (num_passes, chunk) in
    if (bs =? 0) && no_fallback then Some (EXIT_FAILURE, None)
    else if negb pass0_ok then Some (EXIT_FAILURE, None)
    else passes f no_fallback (Z.to_nat remaining) remaining bs.
End Passes.

(** ** The order of records *)

Definition rec_le (a b : PktRecord) : Prop := rec_gtb a b = false.
#[export] Instance rec_le_dec : RelDecision rec_le.
Proof. unfold RelDecision, rec_le. intros a b. apply _. Defined.

Definition rec_key (r : PktRecord) : Z * Z * Z := (tv_sec (rec_ts r), tv_nsec (rec_ts r), rec_seqnum r).
Lemma rec_le_spec a b : rec_le a b ↔
  let '(s1, n1, q1) := rec_key a in let '(s2, n2, q2) := rec_key b in
  s1 < s2 \/ (s1 = s2 /\ (n1 < n2 \/ (n1 = n2 /\ q1 <= q2))).
Proof.
  unfold rec_le, rec_gtb, ts_gtb, ts_leb, ts_eqb, ts_ltb, rec_key.
  destruct a as [[s1 n1] q1 p1], b as [[s2 n2] q2 p2]; cbn.
  destruct (Z.eqb_spec s1 s2), (Z.eqb_spec n1 n2), (Z.ltb_spec s1 s2), (Z.ltb_spec n1 n2),
    (Z.ltb_spec q2 q1); cbn; split; intros; try done; try lia.
Qed.
#[export] Instance rec_le_trans : Transitive rec_le.
Proof. intros a b c. rewrite !rec_le_spec. unfold rec_key. lia. Qed.
#[export] Instance rec_le_total : Total rec_le.
Proof. intros a b. rewrite !rec_le_spec. unfold rec_key. lia. Qed.
Lemma rec_le_ts a b : rec_le a b → ts_gtb (rec_ts a) (rec_ts b) = false.
Proof. unfold rec_le, rec_gtb. intros ?%orb_false_iff. tauto. Qed.
Lemma rec_gt_ts a b : rec_le a b → rec_seqnum b < rec_seqnum a → ts_gtb (rec_ts b) (rec_ts a) = true.
Proof.
  rewrite rec_le_spec. unfold rec_key, ts_gtb, ts_leb, ts_eqb, ts_ltb.
  destruct a as [[s1 n1] q1 p1], b as [[s2 n2] q2 p2]; cbn. intros Hle Hq.
  destruct (Z.eqb_spec s2 s1), (Z.eqb_spec n2 n1), (Z.ltb_spec s2 s1), (Z.ltb_spec n2 n1); cbn; lia.
Qed.
Lemma top_first_rec_ok : TopOk rec_gtb (top_first rec_gtb).
Proof.
  apply top_first_ok.
  - intros x. apply rec_le_spec. unfold rec_key. lia.
  - intros x y Hxy. assert (¬ rec_le x y) as Hn by (unfold rec_le; by rewrite Hxy).
    change (rec_le y x). revert Hn. rewrite !rec_le_spec. unfold rec_key. lia.
  - intros x y z Hxy Hyz. change (rec_le x z). by transitivity y.
Qed.

(** ** What the passes write *)

(** The records of the packets of a capture, the first of which has this number. *)
Fixpoint records (n : Z) (pkts : list PcapPkt) : list PktRecord :=
  match pkts with [] => [] | p :: pkts => record_of n p :: records (n + 1) pkts end.
(** The capture in the order of the timestamps, equal ones in the order of capture. *)
Definition in_order (pkts : list PcapPkt) : list PcapPkt :=
  rec_pkt <$> merge_sort rec_le (records 0 pkts).

Lemma records_app n a b : records n (a ++ b) = records n a ++ records (n + Z.of_nat (length a)) b.
Proof.
  revert n. induction a as [|q a IH]; intros n; cbn.
  - by rewrite Z.add_0_r.
  - rewrite IH. do 3 f_equal. lia.
Qed.
Lemma records_snoc n pkts p :
  records n (pkts ++ [p]) = records n pkts ++ [record_of (n + Z.of_nat (length pkts)) p].
Proof. apply records_app. Qed.
Lemma length_records n pkts : length (records n pkts) = length pkts.
Proof. revert n. induction pkts; intros n; cbn; [done|by rewrite IHpkts]. Qed.
Lemma records_seqnum n pkts r :
  r ∈ records n pkts → n <= rec_seqnum r < n + Z.of_nat (length pkts).
Proof.
  revert n. induction pkts as [|p pkts IH]; intros n; cbn; [by intros ?%not_elem_of_nil|].
  intros [->|Hr]%elem_of_cons; [cbn; lia|]. specialize (IH _ Hr). lia.
Qed.
Lemma records_seqnum_inj n pkts a b :
  a ∈ records n pkts → b ∈ records n pkts → rec_seqnum a = rec_seqnum b → a = b.
Proof.
  revert n. induction pkts as [|p pkts IH]; intros n; cbn; [by intros ?%not_elem_of_nil|].
  intros [->|Ha]%elem_of_cons [->|Hb]%elem_of_cons Hq; [done|..|by eapply IH].
  - apply records_seqnum in Hb. cbn in Hq. lia.
  - apply records_seqnum in Ha. cbn in Hq. lia.
Qed.
(** A sorted list of the records of a capture is the sorted capture. *)
Lemma sorted_in_order pkts l :
  l ≡ₚ records 0 pkts → StronglySorted rec_le l → rec_pkt <$> l = in_order pkts.
Proof.
  intros Hp Hs. unfold in_order. f_equal. eapply (StronglySorted_unique_strong rec_le).
  - intros a b Ha Hb Hab Hba. rewrite merge_sort_Permutation in Hb. rewrite Hp in Ha.
    apply (records_seqnum_inj 0 pkts); [done..|].
    apply rec_le_spec in Hab, Hba. unfold rec_key in *. lia.
  - done.
  - apply StronglySorted_merge_sort; apply _.
  - by rewrite merge_sort_Permutation.
Qed.


Section Correct.
Context (top : list PktRecord → nat) `{!TopOk rec_gtb top}.
Implicit Types (f : Files) (recs outr : list PktRecord) (out : list PcapPkt).

(** Of the [n] writes to come, those from the [k]-th on fail. *)
Definition writes_until f (k n : nat) : Prop := ∀ i, (i < n)%nat → f_error f i = (k <=? i)%nat.

Lemma drain_spec f fuel k recs out :
  length recs = fuel → writes_until f k (length out + length recs) →
  ∃ l, l ≡ₚ recs /\ StronglySorted rec_le l
    /\ drain top f fuel recs out = out ++ take (k - length out) (rec_pkt <$> l).
Proof using Type*.
  revert recs out. induction fuel as [|fuel IH]; intros recs out Hlen Hw.
  - destruct recs; [|done]. exists []. split_and!; [done|constructor|].
    cbn. by rewrite take_nil, app_nil_r.
  - assert (recs ≠ []) as Hne by (by intros ->).
    destruct (pq_top_some rec_gtb top recs Hne) as [r Hr].
    pose proof (pq_top_least rec_gtb top recs r Hr) as Hleast.
    pose proof (pq_pop_perm top recs r Hr) as Hperm.
    pose proof (length_pq_pop top recs r Hr) as Hpop. cbn [drain]. rewrite Hr.
    rewrite (Hw (length out)) by lia. destruct (Nat.leb_spec k (length out)) as [Hk|Hk].
    + exists (merge_sort rec_le recs). split_and!.
      * apply merge_sort_Permutation.
      * apply StronglySorted_merge_sort; apply _.
      * replace (k - length out)%nat with 0%nat by lia. by rewrite take_0, app_nil_r.
    + destruct (IH (pq_pop top recs) (out ++ [rec_pkt r])) as (l & Hl & Hs & E).
      * lia.
      * rewrite length_app; cbn. intros i Hi. apply Hw. lia.
      * exists (r :: l). split_and!.
        -- by rewrite Hl, <- Hperm.
        -- constructor; [done|]. rewrite Hl. rewrite Hperm in Hleast. by inversion Hleast.
        -- rewrite E, length_app, <- app_assoc. cbn.
           replace (k - length out)%nat with (S (k - (length out + 1))) by lia. done.
Qed.

(** What the loop that reads keeps: of the records [done], those in [outr] were
    written and those in [recs] are queued. *)
Record Batch (bs : Z) (done outr recs : list PktRecord) (last_ts : Timestamp) : Prop := mkBatch {
  b_perm : outr ++ recs ≡ₚ done;
  b_sorted : StronglySorted rec_le outr;
  b_low x y : x ∈ outr → y ∈ recs → rec_le x y;
  b_last : last_ts = default ts_zero (rec_ts <$> last outr);
  b_full : outr = [] \/ 0 < bs <= Z.of_nat (length recs) + 1
}.

Lemma sorted_snoc l x :
  StronglySorted rec_le l → (∀ y, y ∈ l → rec_le y x) → StronglySorted rec_le (l ++ [x]).
Proof.
  intros Hl Hx. apply StronglySorted_app. split_and!; [|done|by repeat constructor].
  intros y z Hy ->%list_elem_of_singleton. by apply Hx.
Qed.
Lemma last_bound l x y :
  StronglySorted rec_le l → last l = Some x → y ∈ l → rec_le y x.
Proof.
  intros Hs Hl Hy. apply last_Some in Hl as [l' ->].
  apply StronglySorted_app in Hs as (H & _ & _).
  apply elem_of_app in Hy as [Hy|Hy]; [apply H; [done|by apply list_elem_of_singleton]|].
  apply list_elem_of_singleton in Hy as ->. unfold rec_le, rec_gtb.
  apply rec_le_spec. unfold rec_key. lia.
Qed.

Lemma batch_wait bs done outr recs last_ts r :
  Batch bs done outr recs last_ts → Z.of_nat (length (pq_push r recs)) < bs \/ bs <= 0 →
  Batch bs (done ++ [r]) outr (pq_push r recs) last_ts.
Proof.
  intros [Hp Hs Hlow Hl Hf] Hlen. rewrite length_pq_push in Hlen.
  assert (outr = []) as -> by (destruct Hf as [?|Hf]; [done|lia]).
  split; [|constructor|by intros ?? ?%not_elem_of_nil|done|by left].
  rewrite pq_push_perm, <- Hp. cbn. by rewrite Permutation_cons_append.
Qed.
(** The packet just read is not earlier than what was written. *)
Lemma batch_written bs done outr recs last_ts r t :
  Batch bs done outr recs last_ts → (∀ x, x ∈ done → rec_seqnum x < rec_seqnum r) →
  t ∈ r :: recs → ts_gtb last_ts (rec_ts t) = false → ∀ x, x ∈ outr → rec_le x t.
Proof.
  intros [Hp Hs Hlow Hl Hf] Hseq Ht Hts x Hx. apply elem_of_cons in Ht as [->|Ht]; [|by apply Hlow].
  destruct (last outr) as [y|] eqn:Hy; [|apply last_None in Hy as ->; by apply not_elem_of_nil in Hx].
  transitivity y; [by apply (last_bound outr)|]. cbn in Hl. subst last_ts.
  assert (y ∈ done) as Hd.
  { rewrite <- Hp. apply last_Some in Hy as [o ->]. rewrite !elem_of_app, list_elem_of_singleton. tauto. }
  specialize (Hseq y Hd). destruct (decide (rec_le y r)) as [|Hn]; [done|].
  assert (rec_le r y) as Hle by (destruct (total rec_le y r); done).
  destruct (decide (ts_gtb (rec_ts y) (rec_ts r) = true)); [congruence|].
  exfalso. apply Hn. revert Hle Hts. rewrite !rec_le_spec. unfold rec_key, ts_gtb, ts_leb, ts_eqb, ts_ltb.
  destruct (rec_ts y) as [s1 n1], (rec_ts r) as [s2 n2]; cbn.
  destruct (Z.eqb_spec s1 s2), (Z.eqb_spec n1 n2), (Z.ltb_spec s1 s2), (Z.ltb_spec n1 n2); cbn; lia.
Qed.
Lemma batch_write bs done outr recs last_ts r t :
  Batch bs done outr recs last_ts → (∀ x, x ∈ done → rec_seqnum x < rec_seqnum r) →
  0 < bs <= Z.of_nat (length (pq_push r recs)) → pq_top top (pq_push r recs) = Some t →
  ts_gtb last_ts (rec_ts t) = false →
  Batch bs (done ++ [r]) (outr ++ [t]) (pq_pop top (pq_push r recs)) (rec_ts t).
Proof using Type*.
  intros HB Hseq Hbs Ht Hts. pose proof (pq_pop_perm top _ _ Ht) as Hpop.
  pose proof (pq_top_least rec_gtb top _ _ Ht) as Hleast. rewrite List.Forall_forall in Hleast.
  assert (∀ x, x ∈ outr → rec_le x t) as Hx.
  { eapply batch_written; [done..| |done]. rewrite <- (pq_push_perm r recs), Hpop. by left. }
  destruct HB as [Hp Hs Hlow Hl Hf]. split.
  - rewrite <- app_assoc, <- Hp. cbn. rewrite <- Hpop. unfold pq_push. by rewrite app_assoc.
  - by apply sorted_snoc.
  - intros x y Hxt Hy.
    assert (rec_le t y) as Hty by (apply Hleast, list_elem_of_In; rewrite Hpop; by right).
    apply elem_of_app in Hxt as [Hxo| ->%list_elem_of_singleton]; [|done].
    transitivity t; [by apply Hx|done].
  - by rewrite last_snoc.
  - right. rewrite (length_pq_pop top _ _ Ht) in Hbs. lia.
Qed.

(** At least [bs] packets that were captured earlier are later than this one. *)
Definition late_by (bs : Z) (done : list PktRecord) (r : PktRecord) : Prop :=
  bs <= Z.of_nat (length (filter (λ x, ts_gtb (rec_ts x) (rec_ts r) = true) done)).
(** Timestamps are not negative. *)
Definition timely (r : PktRecord) : Prop := ts_gtb ts_zero (rec_ts r) = false.

Lemma batch_late bs done outr recs last_ts r t :
  Batch bs done outr recs last_ts → (∀ x, x ∈ done → rec_seqnum x < rec_seqnum r) →
  0 < bs <= Z.of_nat (length (pq_push r recs)) → pq_top top (pq_push r recs) = Some t →
  ts_gtb last_ts (rec_ts t) = true → Forall timely (done ++ [r]) → late_by bs done r.
Proof using Type*.
  intros [Hp Hs Hlow Hl Hf] Hseq Hbs Ht Hts Htimely.
  pose proof (pq_top_least rec_gtb top _ _ Ht) as Hleast.
  assert (t ∈ r :: recs) as Hin.
  { rewrite <- (pq_push_perm r recs), (pq_pop_perm top _ _ Ht). by left. }
  assert (Hperm : r :: recs ⊆+ done ++ [r]).
  { rewrite (Permutation_app_comm done), <- Hp. cbn.
    apply submseteq_skip, submseteq_inserts_l. done. }
  destruct (last outr) as [y|] eqn:Hy.
  2: { cbn in Hl. subst last_ts. rewrite List.Forall_forall in Htimely.
       rewrite (Htimely t) in Hts; [done|]. apply list_elem_of_In.
       by eapply elem_of_submseteq. }
  cbn in Hl. subst last_ts. apply last_Some in Hy as [o ->].
  assert (t = r) as ->.
  { apply elem_of_cons in Hin as [|Hin]; [done|].
    rewrite rec_le_ts in Hts; [done|]. apply Hlow; [|done].
    apply elem_of_app. right. by apply list_elem_of_singleton. }
  unfold late_by. rewrite <- Hp, !filter_app, !length_app. rewrite filter_cons_True by done.
  rewrite (list_filter_all _ recs); [rewrite length_pq_push in Hbs; cbn; lia|].
  rewrite pq_push_perm in Hleast. inversion Hleast as [|?? _ Hq]; subst.
  rewrite List.Forall_forall in Hq. apply Forall_forall. intros z Hz.
  apply rec_gt_ts; [by apply Hq, list_elem_of_In|]. apply Hseq. rewrite <- Hp.
  apply elem_of_app. by right.
Qed.

(** No packet is later than [bs] of those captured before it. *)
Definition chunk_suffices (bs : Z) (pkts : list PcapPkt) : Prop :=
  ∀ pre p post, pkts = pre ++ p :: post →
    ¬ late_by bs (records 0 pre) (record_of (Z.of_nat (length pre)) p).
(** Everything works, but for the writes after the first [k]. *)
Record writes_only (f : Files) (k : nat) : Prop := mkWritesOnly {
  wo_input : f_opens_input f = true;
  wo_exists bs : f_pass_exists f bs = false;
  wo_output bs : f_opens_output f bs = true;
  wo_memory n : f_memory f n = true;
  wo_end : f_read_end f = -2;
  wo_error n : f_error f n = (k <=? n)%nat;
  wo_renames : f_renames f = true;
  wo_timely : Forall timely (records 0 (f_packets f))
}.
Definition all_written (f : Files) (k : nat) : Prop := (length (f_packets f) <= k)%nat.

Lemma batch_init bs : Batch bs (records 0 []) [] [] ts_zero.
Proof. split; [done|constructor|by intros ?? ?%not_elem_of_nil|done|by left]. Qed.
Lemma batch_length bs pkts outr recs last_ts :
  Batch bs (records 0 pkts) outr recs last_ts → (length outr + length recs = length pkts)%nat.
Proof.
  intros HB. rewrite <- (length_records 0 pkts), <- (b_perm _ _ _ _ _ HB). by rewrite length_app.
Qed.

Lemma ingest_spec f bs k pkts : writes_only f k → bs < 2 ^ 63 →
  ∀ pre outr recs last_ts, f_packets f = pre ++ pkts → (bs <= 0 \/ all_written f k) →
  Batch bs (records 0 pre) outr recs last_ts →
  match ingest top f bs pkts recs (Z.of_nat (length pre)) (rec_pkt <$> outr) last_ts with
  | inl ret => 0 < ret /\ 0 < bs /\ ¬ chunk_suffices bs (f_packets f)
  | inr (recs', out') => ∃ outr' last_ts', out' = rec_pkt <$> outr'
      /\ Batch bs (records 0 (f_packets f)) outr' recs' last_ts'
  end.
Proof using Type*.
  intros Hf Hbs. induction pkts as [|p pkts IH]; intros pre outr recs last_ts Hpk Hall HB; cbn [ingest].
  - rewrite app_nil_r in Hpk. subst pre. by exists outr, last_ts.
  - rewrite (wo_memory _ _ Hf). cbn [negb].
    set (r := record_of (Z.of_nat (length pre)) p).
    assert (f_packets f = (pre ++ [p]) ++ pkts) as Hpk' by (by rewrite <- app_assoc).
    assert (records 0 (pre ++ [p]) = records 0 pre ++ [r]) as Hrec by apply records_snoc.
    assert (∀ x, x ∈ records 0 pre → rec_seqnum x < rec_seqnum r) as Hseq.
    { intros x Hx%records_seqnum. cbn. lia. }
    replace (Z.of_nat (length pre) + 1) with (Z.of_nat (length (pre ++ [p])))
      by (rewrite length_app; cbn; lia).
    destruct (((0 <? bs) && (u64 bs <=? Z.of_nat (length (pq_push r recs)))
      && negb (f_error f (length (rec_pkt <$> outr))))%Z) eqn:Hc.
    + apply andb_true_iff in Hc as [[Hb Hlen]%andb_true_iff _].
      rewrite wrap64_id in Hlen by (split; lia).
      destruct (pq_top_some rec_gtb top (pq_push r recs)) as [t Ht].
      { unfold pq_push. by destruct recs. }
      rewrite Ht. destruct (ts_gtb last_ts (rec_ts t)) eqn:Hlate.
      * split_and!; [rewrite length_app; cbn; lia|lia|]. intros Hsuff.
        apply (Hsuff pre p pkts Hpk).
        apply (batch_late bs _ outr recs last_ts r t HB Hseq); [lia|done|done|].
        pose proof (wo_timely _ _ Hf) as Htm. rewrite Hpk', records_app in Htm.
        rewrite <- Hrec. by apply Forall_app in Htm as [? _].
      * specialize (IH (pre ++ [p]) (outr ++ [t]) (pq_pop top (pq_push r recs)) (rec_ts t) Hpk' Hall).
        rewrite fmap_app in IH. apply IH. rewrite Hrec.
        apply (batch_write bs _ _ _ _ _ _ HB); [done|lia|done|done].
    + apply (IH (pre ++ [p]) outr (pq_push r recs) last_ts Hpk' Hall). rewrite Hrec.
      apply batch_wait; [done|]. destruct Hall as [Hle|Hk]; [by right|].
      destruct (Z.leb_spec bs 0); [by right|]. left.
      rewrite wrap64_id in Hc by (split; lia). rewrite (wo_error _ _ Hf), length_fmap in Hc.
      pose proof (batch_length _ _ _ _ _ HB) as Hlen. unfold all_written in Hk. rewrite Hpk, length_app in Hk. cbn in Hk.
      destruct (Nat.leb_spec k (length outr)); [lia|].
      destruct (Z.ltb_spec 0 bs), (Z.leb_spec bs (Z.of_nat (length (pq_push r recs)))); cbn in Hc; [done|lia..].
Qed.

Lemma pass1_spec f bs k : writes_only f k → bs < 2 ^ 63 → (bs <= 0 \/ all_written f k) →
  pass1 top f bs = mkPass 0 (Some (take k (in_order (f_packets f))))
  \/ ∃ n, 0 < n /\ 0 < bs /\ pass1 top f bs = mkPass n None /\ ¬ chunk_suffices bs (f_packets f).
Proof using Type*.
  intros Hf Hbs Hall. unfold pass1.
  rewrite (wo_input _ _ Hf), (wo_exists _ _ Hf), (wo_output _ _ Hf). cbn [negb orb].
  pose proof (ingest_spec f bs k (f_packets f) Hf Hbs [] [] [] ts_zero eq_refl Hall (batch_init bs)) as Hi.
  cbn in Hi. destruct (ingest _ _ _ _ _ _ _ _) as [ret|[recs out]].
  { right. exists ret. tauto. }
  left. destruct Hi as (outr & last_ts & -> & HB).
  rewrite (wo_end _ _ Hf), (wo_renames _ _ Hf). cbn.
  destruct (drain_spec f (length recs) k recs (rec_pkt <$> outr)) as (l & Hl & Hs & ->); [done|..].
  { intros i _. apply (wo_error _ _ Hf). }
  pose proof (batch_length _ _ _ _ _ HB) as Hlen. destruct HB as [Hp Hso Hlow _ Hfull].
  rewrite <- (sorted_in_order _ (outr ++ l)), fmap_app, take_app.
  - do 3 f_equal. rewrite take_ge; [done|]. rewrite length_fmap.
    destruct Hfull as [->|Hfull]; [cbn; lia|]. destruct Hall as [|Hk]; [lia|]. unfold all_written in Hk. lia.
  - by rewrite Hl.
  - apply StronglySorted_app. split_and!; [|done..]. intros x y Hx Hy. apply Hlow; [done|]. by rewrite <- Hl.
Qed.

(** [main] with these options may fall back on sorting the capture as one chunk, or
    need not. *)
Definition may_sort (f : Files) (no_fallback : bool) (num_passes chunk : Z) : Prop :=
  0 <= chunk < 2 ^ 63
  /\ (no_fallback = true → 0 < num_passes /\ 0 < chunk /\ chunk_suffices chunk (f_packets f)).

Lemma passes_falls_back f k fuel remaining bs : writes_only f k → all_written f k →
  bs < 2 ^ 63 → Z.to_nat remaining = fuel →
  passes top f false fuel remaining bs = Some (EXIT_SUCCESS, Some (in_order (f_packets f))).
Proof using Type*.
  intros Hf Hk. revert remaining bs.
  assert (take k (in_order (f_packets f)) = in_order (f_packets f)) as Htake.
  { apply take_ge. unfold in_order. by rewrite length_fmap, merge_sort_Permutation, length_records. }
  induction fuel as [|fuel IH]; intros remaining bs Hbs Hfuel;
    cbn [passes]; rewrite andb_false_r.
  - destruct (Z.ltb_spec 0 remaining); [lia|].
    destruct (pass1_spec f 0 k Hf) as [->|(n & _ & Hn & _)]; [lia|by left|cbn; by rewrite Htake|lia].
  - destruct (Z.ltb_spec 0 remaining); [|lia].
    destruct (pass1_spec f bs k Hf) as [->|(n & Hn & _ & -> & _)]; [lia|by right|cbn; by rewrite Htake|].
    cbn [pass_ret]. destruct (Z.eqb_spec n 0), (Z.ltb_spec n 0); [lia..|].
    apply IH; [|lia]. destruct (_ =? 0); [lia|]. pose proof (swrap_range 64 (bs * 2) ltac:(lia)) as Hr. unfold in_i in Hr. lia.
Qed.

(** C32: Whatever packets the capture holds, in whatever order, and whatever the size
    of the chunks, [main] writes them in the order of their timestamps, equal ones in
    the order they were captured in, and succeeds; it needs no more passes than it
    was told to make and one of the whole capture, and with [--no-fallback-unchunked]
    it is enough that fewer packets than the chunk holds are overtaken by any.  The
    system is asked to do its part, and the capture to be whole: the files open, the
    ones that it makes are not there yet, the capture ends where its last packet
    does, the packets fit the memory, every write and the renaming at the end work,
    and no timestamp is negative ([writes_only], [all_written]; of a write that
    fails, see [reorder_hides_write_errors]). *)
Theorem reorder_sorts f k pass0_ok no_fallback num_passes chunk :
  writes_only f k → all_written f k → pass0_ok = true →
  may_sort f no_fallback num_passes chunk →
  reorder_main top f pass0_ok no_fallback num_passes chunk
  = Some (EXIT_SUCCESS, Some (in_order (f_packets f))).
Proof using Type*.
  intros Hf Hk -> [Hch Hnf]. unfold reorder_main. destruct (Z.ltb_spec chunk 0); [lia|].
  destruct no_fallback.
  2: { destruct (_ || _); cbn [andb negb]; rewrite andb_false_r; apply (passes_falls_back f k); (done || lia). }
  destruct Hnf as (Hn & Hc & Hsuff); [done|].
  destruct (Z.leb_spec num_passes 0), (Z.leb_spec chunk 0); [lia..|]. cbn [orb].
  destruct (Z.eqb_spec chunk 0); [lia|]. cbn [andb negb].
  destruct (Z.to_nat num_passes) eqn:Hfuel; [lia|]. cbn [passes].
  destruct (Z.leb_spec num_passes 0), (Z.eqb_spec chunk 0), (Z.ltb_spec 0 num_passes); try lia. cbn [orb andb].
  destruct (pass1_spec f chunk k Hf) as [->|(n' & _ & _ & _ & Hl)]; [lia|by right| |done].
  cbn. do 2 f_equal. rewrite take_ge; [done|].
  unfold in_order. by rewrite length_fmap, merge_sort_Permutation, length_records.
Qed.

(** when the disk is full after [k] packets, sorting the capture as one chunk
    still renames the file and succeeds: the output holds the first [k] packets
    only. *)
Theorem reorder_hides_write_errors f k no_fallback num_passes chunk :
  writes_only f k → 0 <= chunk → num_passes <= 0 \/ chunk = 0 → no_fallback = false →
  reorder_main top f true no_fallback num_passes chunk
  = Some (EXIT_SUCCESS, Some (take k (in_order (f_packets f)))).
Proof using Type*.
  intros Hf Hch Hone ->. unfold reorder_main. destruct (Z.ltb_spec chunk 0); [lia|].
  destruct (Z.leb_spec num_passes 0), (Z.leb_spec chunk 0); try lia;
    cbn -[pass1]; change (Z.to_nat 0) with 0%nat; cbn -[pass1]; (destruct (pass1_spec f 0 k Hf) as [->|(n & _ & Hn & _)]; [lia|by left|done|lia]).
Qed.
End Correct.

(** ** Captures that meet the hypotheses *)

Definition pkt_at (sec : Z) (data : Z) : PcapPkt := mkPkt sec 0 1 1 [data].
Definition disk (k : nat) (pkts : list PcapPkt) : Files :=
  mkFiles pkts (-2) true (λ _, false) (λ _, true) (λ _, true) (λ n, (k <=? n)%nat) true.
Definition capture : list PcapPkt :=
  [pkt_at 3 0; pkt_at 1 1; pkt_at 2 2; pkt_at 1 3; pkt_at 2 4].

Lemma disk_writes_only k : writes_only (disk k capture) k.
Proof. split; try done. repeat (constructor; [by vm_compute|]). constructor. Qed.

(** One packet is overtaken by two: chunks of two need another pass. *)
Lemma reorder_sorts_witness :
  reorder_main (top_first rec_gtb) (disk 9 capture) true false 1 2
  = Some (EXIT_SUCCESS, Some [pkt_at 1 1; pkt_at 1 3; pkt_at 2 2; pkt_at 2 4; pkt_at 3 0]).
Proof.
  rewrite (@reorder_sorts (top_first rec_gtb) top_first_rec_ok (disk 9 capture) 9);
    [by vm_compute|apply disk_writes_only|unfold all_written; cbn; lia|done|done].
Defined.
Lemma reorder_hides_write_errors_witness :
  reorder_main (top_first rec_gtb) (disk 2 capture) true false 0 0
  = Some (EXIT_SUCCESS, Some [pkt_at 1 1; pkt_at 1 3]).
Proof.
  rewrite (@reorder_hides_write_errors (top_first rec_gtb) top_first_rec_ok (disk 2 capture) 2);
    [by vm_compute|apply disk_writes_only|done|by left|done].
Defined.
