(* ===== verification/NamedThread.v ===== *)
(** * Threads (src/core/i01_core/NamedThread.hpp, src/core/NamedThread.cpp)

    The life of a thread that calls its worker until the worker, or another
    thread, stops it.  [th_state] is the atomic that the threads share; [th_pc] is
    where the thread itself is.  The steps of the thread and of its callers
    interleave freely. *)

From S2P Require Import Prelude.
Open Scope Z_scope.

Inductive ThreadState :=
| UNINITIALIZED | STARTING | ACTIVE | STOPPING | STOPPED | CANCELED | EXCEPTION.
#[export] Instance ThreadState_eq_dec : EqDecision ThreadState.
Proof. solve_decision. Defined.

(** Where the thread is: not created, at the start of [run], before [pre_process], at the head of
    the loop, after it, before [post_process], before its last assignment;
    returned, or left by an exception, which ends the application. *)
Inductive Pc := NotCreated | Begun | InPre | InLoop | Leaving | InPost | Ending | Exited | Died.
#[export] Instance Pc_eq_dec : EqDecision Pc.
Proof. solve_decision. Defined.

(** What a worker does, given what the system calls answer it ([I]).  [process]
    returns whether its result is not null. *)
Class Worker (W I : Type) := {
  pre_process : I → W → res (W * Outcome unit);
  process : I → W → res (W * Outcome bool);
  post_process : I → W → res (W * Outcome unit)
}.

Record NamedThread (W : Type) := mkThread {
  th_state : ThreadState;
  th_pc : Pc;
  th_retval : bool;
  th_throw_exceptions : bool;
  (** [pthread_cancel] was called *)
  th_cancelled : bool;
  th_worker : W
}.
Arguments mkThread {W}.
Arguments th_state {W}.
Arguments th_pc {W}.
Arguments th_retval {W}.
Arguments th_throw_exceptions {W}.
Arguments th_cancelled {W}.
Arguments th_worker {W}.
#[export] Instance NamedThread_rebuild {W} : Rebuild (NamedThread W) := λ t,
  mkThread (th_state t) (th_pc t) (th_retval t) (th_throw_exceptions t) (th_cancelled t) (th_worker t).

Section Thread.
Context {W I : Type} `{Worker W I}.
Implicit Types (t : NamedThread W) (w : W) (i : I).

Definition NamedThread_new (throw_exceptions : bool) w : NamedThread W :=
  mkThread UNINITIALIZED NotCreated false throw_exceptions false w.

(** [compare_and_swap(new, old)] gave back [old]. *)
Definition swapped (new old : ThreadState) t : bool * NamedThread W :=
  if bool_decide (th_state t = old) then (true, t <| th_state := new |>) else (false, t).
Definition active t : bool := bool_decide (th_state t = ACTIVE).

(** *** The callers *)

(** [created]: whether [pthread_create] succeeds. *)
Definition spawn (created : bool) t : bool * NamedThread W :=
  let '(ok, t) := swapped STARTING UNINITIALIZED t in
  if ok then if created then (true, t <| th_pc := Begun |>) else (false, t) else (false, t).
(** Whether it stopped the thread, which a blocking call then joins. *)
Definition shutdown t : bool * NamedThread W := swapped STOPPING ACTIVE t.
Definition thread_cancel t : NamedThread W :=
  let '(_, t) := shutdown t in
  let '(ok, t) := swapped CANCELED STOPPING t in
  if ok then t <| th_cancelled := true |> else t.

(** *** The thread *)

(** The handlers of [run], for an exception of the worker. *)
Definition caught w t : NamedThread W :=
  let t := t <| th_worker := w |> <| th_state := EXCEPTION |> in
  if th_throw_exceptions t then t <| th_pc := Died |> else t <| th_pc := Ending |>.
(** The forced unwinding of a cancelled thread is passed on, and ends the thread;
    the C library ends the application when it is not. *)
Definition unwound t : NamedThread W :=
  let t := t <| th_state := CANCELED |> in
  if th_throw_exceptions t then t <| th_pc := Exited |> else t <| th_pc := Died |>.

(** [run], from one look at the shared state to the next. *)
Definition run_step i t : res (NamedThread W) :=
  match th_pc t with
  | Begun => Ok (t <| th_state := ACTIVE |> <| th_pc := InPre |>)
  | InPre =>
      '(w, r) ← pre_process i (th_worker t);
      Ok (match r with
          | Done _ => t <| th_worker := w |> <| th_pc := InLoop |>
          | Threw _ => caught w t
          end)
  | InLoop =>
      if active t then
        '(w, r) ← process i (th_worker t);
        Ok (match r with
            | Done stop =>
                let t := t <| th_worker := w |> <| th_retval := stop |> in
                if stop then t <| th_pc := Leaving |> else t
            | Threw _ => caught w t
            end)
      else Ok (t <| th_pc := Leaving |>)
  | Leaving => Ok (t <| th_state := STOPPING |> <| th_pc := InPost |>)
  | InPost =>
      '(w, r) ← post_process i (th_worker t);
      Ok (match r with
          | Done _ => t <| th_worker := w |> <| th_pc := Ending |>
          | Threw _ => caught w t
          end)
  | Ending => Ok (t <| th_state := STOPPED |> <| th_pc := Exited |>)
  | NotCreated | Exited | Died => Ok t
  end.
(** Inside of [pre_process], the loop or [post_process] a cancelled thread may be
    unwound. *)
Definition may_unwind t : bool := th_cancelled t && bool_decide (th_pc t ∈ [InPre; InLoop; Leaving; InPost]).

Inductive thread_step : NamedThread W → NamedThread W → Prop :=
| step_spawn created t : thread_step t (spawn created t).2
| step_shutdown t : thread_step t (shutdown t).2
| step_cancel t : thread_step t (thread_cancel t)
| step_worker w t : thread_step t (t <| th_worker := w |>)
| step_run i t t' : run_step i t = Ok t' → thread_step t t'
| step_unwind t : may_unwind t = true → thread_step t (unwound t).

(** A thread that was ever spawned. *)
Definition spawned t : Prop := th_state t ≠ UNINITIALIZED.
Lemma step_spawned t t' : thread_step t t' → spawned t → spawned t'.
Proof.
  unfold spawned. intros Hs Hn.
  destruct Hs as [c t|t|t|w t|i t t' Hr|t Hm]; unfold spawn, shutdown, thread_cancel, swapped in *.
  - repeat case_bool_decide; by destruct c.
  - by case_bool_decide.
  - unfold shutdown, swapped. by repeat (case_bool_decide; cbn).
  - done.
  - unfold run_step, caught in Hr. destruct (th_pc t); res_inv; try done;
      repeat (case_match; res_inv; cbn); try done.
  - unfold unwound. by case_match.
Qed.
Lemma spawned_spawn c t : spawned t → spawn c t = (false, t).
Proof. unfold spawned, spawn, swapped. intros Hn. by rewrite bool_decide_false. Qed.

(** A thread is started once: after a call of [spawn], whether or not it
    succeeded, no other ever does, whatever happened to the thread since. *)
Theorem thread_spawns_once c c' t t' :
  rtc thread_step (spawn c t).2 t' → spawn c' t' = (false, t').
Proof.
  intros Hs. apply spawned_spawn.
  assert (spawned (spawn c t).2) as H0.
  { unfold spawned, spawn, swapped. case_bool_decide as Hst; [by destruct c|done]. }
  clear c'. induction Hs as [|t1 t2 t3 Hst _ IH]; [done|]. by eapply IH, step_spawned.
Qed.

(** How many steps a thread takes at most to its end once it is not active. *)
Definition rank (pc : Pc) : nat :=
  match pc with InLoop => 4 | Leaving => 3 | InPost => 2 | Ending => 1 | _ => 0 end.
Fixpoint run_steps (ins : list I) t : res (NamedThread W) :=
  match ins with [] => Ok t | i :: ins => t ← run_step i t; run_steps ins t end.
(** The worker's [post_process] comes to an end. *)
Definition post_ends : Prop := ∀ i w, ∃ r, post_process i w = Ok r.
Definition past_start (pc : Pc) : bool :=
  match pc with NotCreated | Begun | InPre => false | _ => true end.
Definition ended (pc : Pc) : bool := match pc with Exited | Died => true | _ => false end.
Lemma caught_ends w t : past_start (th_pc (caught w t)) = true /\ active (caught w t) = false
  /\ (rank (th_pc (caught w t)) <= 1)%nat.
Proof. unfold caught. case_match; cbn; split_and!; done || lia. Qed.
Lemma run_step_stopping i t : post_ends → active t = false → past_start (th_pc t) = true →
  ∃ t', run_step i t = Ok t' /\ active t' = false /\ past_start (th_pc t') = true
    /\ (rank (th_pc t') <= rank (th_pc t) - 1)%nat.
Proof.
  intros Hpost Ha Hp. unfold run_step. destruct (th_pc t) eqn:Ht; try done; rewrite ?Ha.
  - eexists. split_and!; done || cbn; lia.
  - eexists. split_and!; done || cbn; lia.
  - destruct (Hpost i (th_worker t)) as [[w r] E1]. rewrite E1. cbn [mbind res_bind].
    destruct r; [|destruct (caught_ends w t) as (? & ? & ?); by exists (caught w t)].
    eexists. split_and!; done || cbn; lia.
  - eexists. split_and!; done || cbn; lia.
  - exists t. by rewrite Ht.
  - exists t. by rewrite Ht.
Qed.
Lemma stopping_ends t ins : post_ends → active t = false → past_start (th_pc t) = true →
  (rank (th_pc t) <= length ins)%nat →
  ∃ t', run_steps ins t = Ok t' /\ ended (th_pc t') = true.
Proof.
  intros Hpost. revert t. induction ins as [|i ins IH]; intros t Ha Hp Hr; cbn [run_steps].
  - exists t. split; [done|]. destruct (th_pc t); cbn in Hr; try lia; done.
  - destruct (run_step_stopping i t Hpost Ha Hp) as (t1 & -> & Ha1 & Hp1 & Hr1).
    cbn [mbind res_bind]. apply IH; [done|done|]. cbn in Hr. lia.
Qed.

Lemma shutdown_inactive t : active (shutdown t).2 = false /\ th_pc (shutdown t).2 = th_pc t.
Proof.
  unfold shutdown, swapped. destruct (decide (th_state t = ACTIVE)) as [E|E];
    [rewrite bool_decide_true by done|rewrite bool_decide_false by done];
    (split; [|done]); [done|by apply bool_decide_false].
Qed.

(** A thread that has come to its loop and is shut down ends within four steps
    of its own, and calls [process] no more. *)
Theorem shut_down_thread_ends t ins : post_ends → th_pc t = InLoop → length ins = 4%nat →
  ∃ t', run_steps ins (shutdown t).2 = Ok t' /\ ended (th_pc t') = true.
Proof.
  intros Hpost Hpc Hlen. destruct (shutdown_inactive t) as [Ha Hp].
  apply stopping_ends; rewrite ?Hp, ?Hpc, ?Hlen; done || cbn; lia.
Qed.
End Thread.
