(* ===== verification/HeartBeat.v ===== *)
(** * The connection thread (src/net/HeartBeatConnThread.cpp)

    The thread that the sessions of exchanges keep: it connects a socket, waits for
    the socket and a timer, and calls the session back.  Descriptors are numbers;
    what the system calls answer is an input of each step.  A call that a session
    makes from a callback comes after the step here: [connect] and [disconnect]
    only raise signals that [process] looks at first. *)

From S2P Require Import Prelude NamedThread.
From stdpp Require Import gmap.
Open Scope Z_scope.

Definition READ_BUFFER_SIZE : Z := 2048.
Definition EINPROGRESS : Z := 115.

(** [TCPSocket]: only [connect] writes [m_errno]. *)
Record TCPSocket := mkSock { sk_fd : Z; sk_errno : Z }.
(** The calls of the listeners, without their times. *)
Inductive Callback :=
| cb_on_timer (iter : Z)
| cb_on_connected
| cb_on_recv (buf : list Z)
| cb_on_peer_disconnect
| cb_on_local_disconnect.

(** [hb_epoll]: the sockets that are waited for, and whether also for becoming
    writable.  [hb_open]: the descriptors of sockets that are open. *)
Record HeartBeatConn := mkHB {
  hb_socket : option TCPSocket;
  hb_epoll : gmap Z bool;
  hb_open : gset Z;
  hb_host : string;
  hb_port : Z;
  hb_done_signal : bool;
  hb_reconnect_signal : bool;
  hb_disconnect_signal : bool;
  hb_calls : list Callback
}.
#[export] Instance HeartBeatConn_rebuild : Rebuild HeartBeatConn := λ c,
  mkHB (hb_socket c) (hb_epoll c) (hb_open c) (hb_host c) (hb_port c) (hb_done_signal c)
    (hb_reconnect_signal c) (hb_disconnect_signal c) (hb_calls c).

(** What [recv] finds. *)
Inductive Received := Bytes (buf : list Z) | WouldBlock | PeerClosed | RecvError.
(** An event of [epoll_wait]: the timer with what it reads, or the socket. *)
Inductive EpollEvent :=
| TimerEvent (iter : option Z)
| SocketEvent (epollin epollout rdhup err hup : bool) (recvs : list Received).
(** What [connect] of the socket answers: nothing, or its [errno]. *)
Record Syscalls := mkSys {
  sys_timer : bool;
  sys_socket : option Z;
  sys_epoll_add : bool;
  sys_connect : option Z;
  sys_wait : option (list EpollEvent)
}.
#[export] Instance Syscalls_rebuild : Rebuild Syscalls := λ i,
  mkSys (sys_timer i) (sys_socket i) (sys_epoll_add i) (sys_connect i) (sys_wait i).

Section Connection.
Implicit Types (c : HeartBeatConn) (i : Syscalls).

Definition HeartBeatConn_new : HeartBeatConn := mkHB None ∅ ∅ "" 0 false false false [].
Definition call_back (cb : Callback) c : HeartBeatConn := c <| hb_calls := hb_calls c ++ [cb] |>.

(** [m_socket_p->] *)
Definition the_socket c : res TCPSocket :=
  match hb_socket c with Some s => Ok s | None => Fail (UndefinedBehaviour "null socket") end.

(** [m_socket_p.release()] gives the socket up and does not close it. *)
Definition teardown_socket c : HeartBeatConn :=
  match hb_socket c with
  | Some s => c <| hb_epoll := delete (sk_fd s) (hb_epoll c) |> <| hb_socket := None |>
  | None => c
  end.
(** [m_socket_p.reset(new TCPSocket())]: closes the socket there was. *)
Definition reset_socket (fd : Z) c : HeartBeatConn :=
  let c := match hb_socket c with
           | Some s => c <| hb_open := hb_open c ∖ {[sk_fd s]} |> <| hb_epoll := delete (sk_fd s) (hb_epoll c) |>
           | None => c end in
  c <| hb_socket := Some (mkSock fd 0) |> <| hb_open := {[fd]} ∪ hb_open c |>.
Definition add_and_connect_socket i c : HeartBeatConn * Outcome bool :=
  match sys_socket i with
  | None => (c, Threw "Failed socket call")
  | Some fd =>
      let c := reset_socket fd c in
      if sys_epoll_add i then
        let c := c <| hb_epoll := <[fd := true]> (hb_epoll c) |> in
        match sys_connect i with
        | None => (c, Done true)
        | Some e => (c <| hb_socket := Some (mkSock fd e) |>, Done (e =? EINPROGRESS))
        end
      else (c, Done false)
  end.

(** [TCPSocket::recv]: an orderly end and an error are both less than zero. *)
Definition recv_ret (r : Received) : Z :=
  match r with Bytes b => Z.of_nat (length b) | WouldBlock => 0 | PeerClosed | RecvError => -1 end.
(** [handle_socket_data_read]: reads on while the buffer comes back full.  After the
    last of [recvs] a read would block. *)
Fixpoint handle_socket_data_read (recvs : list Received) c : res HeartBeatConn :=
  s ← the_socket c;
  match recvs with
  | [] => Ok c
  | r :: recvs =>
      let c :=
        if recv_ret r <? 0 then
          if sk_errno s =? EINPROGRESS
          then c <| hb_epoll := alter (λ _, true) (sk_fd s) (hb_epoll c) |> else c
        else match r with Bytes ((_ :: _) as b) => call_back (cb_on_recv b) c | _ => c end in
      if recv_ret r =? READ_BUFFER_SIZE then handle_socket_data_read recvs c else Ok c
  end.
Definition handle_socket_data_write c : res HeartBeatConn :=
  s ← the_socket c;
  Ok (call_back cb_on_connected (c <| hb_epoll := alter (λ _, false) (sk_fd s) (hb_epoll c) |>)).
Definition handle_socket_events (rdhup hup : bool) c : res HeartBeatConn :=
  _ ← the_socket c;
  Ok (if rdhup then call_back cb_on_peer_disconnect (teardown_socket c)
      else if hup then call_back cb_on_local_disconnect (teardown_socket c)
      else c).
(** [hb_callback] and [socket_callback] *)
Definition handle_event (e : EpollEvent) c : res HeartBeatConn :=
  match e with
  | TimerEvent (Some n) => Ok (call_back (cb_on_timer n) c)
  | TimerEvent None => Ok c
  | SocketEvent epollin epollout rdhup err hup recvs =>
      c ← (if epollin : bool then handle_socket_data_read recvs c else Ok c);
      c ← (if epollout : bool then handle_socket_data_write c else Ok c);
      if rdhup || err || hup then handle_socket_events rdhup hup c else Ok c
  end.

(** Throws unless the timer is set and the socket connects. *)
Definition hb_pre_process i c : res (HeartBeatConn * Outcome unit) :=
  if sys_timer i then
    let '(c, r) := add_and_connect_socket i c in
    Ok (c, match r with Done true => Done tt | Done false => Threw "pre_process" | Threw w => Threw w end)
  else Ok (c, Threw "pre_process").
Definition hb_wait i c : res (HeartBeatConn * Outcome bool) :=
  match sys_wait i with
  | None => Ok (c, Done true)
  | Some evs => c ← foldM (λ c e, handle_event e c) c evs; Ok (c, Done false)
  end.
(** The signals, before it waits; [Done true]: the thread is to end. *)
Definition hb_signals i c : HeartBeatConn * Outcome bool :=
  if hb_done_signal c then (teardown_socket c, Done true)
  else
    let c := if hb_disconnect_signal c
             then (teardown_socket c) <| hb_disconnect_signal := false |> else c in
    if hb_reconnect_signal c then
      match add_and_connect_socket i c with
      | (c, Done true) => (c <| hb_reconnect_signal := false |>, Done false)
      | (c, Done false) => (c, Done true)
      | (c, Threw w) => (c, Threw w)
      end
    else (c, Done false).
Definition hb_process i c : res (HeartBeatConn * Outcome bool) :=
  match hb_signals i c with
  | (c, Done false) => hb_wait i c
  | (c, r) => Ok (c, r)
  end.
End Connection.
#[export] Instance HeartBeatConn_worker : Worker HeartBeatConn Syscalls := {|
  pre_process := hb_pre_process;
  process := hb_process;
  post_process := λ _ c, Ok (c, Done tt)
|}.

(** *** The calls of the session *)

Section Client.
Implicit Types (t : NamedThread HeartBeatConn).

Definition hb_connect (created : bool) (host : string) (port : Z) t : bool * NamedThread HeartBeatConn :=
  let t := t <| th_worker := (th_worker t) <| hb_host := host |> <| hb_port := port |> |> in
  match spawn created t with
  | (true, t) => (true, t)
  | (false, t) =>
      if negb (active t) then (false, t)
      else (true, t <| th_worker := (th_worker t) <| hb_reconnect_signal := true |> |>)
  end.
Definition hb_disconnect t : bool * NamedThread HeartBeatConn :=
  if active t then (true, t <| th_worker := (th_worker t) <| hb_disconnect_signal := true |> |>)
  else (false, t).
Definition hb_disconnect_and_quit t : NamedThread HeartBeatConn :=
  (shutdown (t <| th_worker := (th_worker t) <| hb_done_signal := true |> |>)).2.
(** [sent]: what the system call answers. *)
Definition hb_send (sent : Z) t : res Z := _ ← the_socket (th_worker t); Ok sent.
End Client.

(** ** What holds of the thread *)

Section Correct.
Implicit Types (c : HeartBeatConn) (i : Syscalls).

(** What is waited for is the socket the thread has, which is open. *)
Record hb_ok c : Prop := mkHbOk {
  ok_epoll fd : is_Some (hb_epoll c !! fd) → ∃ s, hb_socket c = Some s /\ sk_fd s = fd;
  ok_open s : hb_socket c = Some s → sk_fd s ∈ hb_open c
}.
(** [epoll_wait] returns an event of a descriptor that is waited for, and one for
    each at most. *)
Definition is_socket_event (e : EpollEvent) : bool := match e with SocketEvent _ _ _ _ _ _ => true | _ => false end.
Fixpoint possible_events (waited : bool) (evs : list EpollEvent) : Prop :=
  match evs with
  | [] => True
  | e :: evs => if is_socket_event e then waited = true /\ possible_events false evs
                else possible_events waited evs
  end.
Definition waited c : bool := negb (bool_decide (hb_epoll c = ∅)).
Definition possible i c : Prop :=
  ∀ evs, sys_wait i = Some evs → possible_events (waited (hb_signals i c).1) evs.

Lemma waited_socket c : hb_ok c → waited c = true → is_Some (hb_socket c).
Proof.
  intros [He _] Hw. unfold waited in Hw. bools.
  apply map_choose in Hw as (fd & b & Hfd). destruct (He fd) as (s & Hs & _); [by rewrite Hfd|]. by exists s.
Qed.
Lemma call_ok cb c : hb_ok c → hb_ok (call_back cb c).
Proof. by intros []. Qed.
Lemma alter_ok f fd c : hb_ok c → hb_ok (c <| hb_epoll := alter f fd (hb_epoll c) |>).
Proof. intros [He Ho]. split; [|done]. cbn. intros fd'. rewrite lookup_alter_is_Some. apply He. Qed.
Lemma teardown_ok c : hb_ok c → hb_ok (teardown_socket c).
Proof.
  intros [He Ho]. unfold teardown_socket. destruct (hb_socket c) as [s|] eqn:Hs; [|by split; rewrite ?Hs].
  split; cbn; [|done]. intros fd Hfd. rewrite lookup_delete_is_Some in Hfd. destruct Hfd as [Hne Hfd].
  destruct (He fd Hfd) as (s' & E1 & E2). by simplify_eq.
Qed.
Lemma reset_ok fd c : hb_ok c → hb_ok (reset_socket fd c) /\ hb_epoll (reset_socket fd c) = ∅.
Proof.
  intros [He Ho].
  assert (hb_epoll (reset_socket fd c) = ∅) as Hem.
  { apply map_eq. intros k. rewrite lookup_empty. apply eq_None_not_Some. intros Hk.
    unfold reset_socket in Hk. destruct (hb_socket c) as [s|] eqn:Hs; cbn in Hk.
    - rewrite lookup_delete_is_Some in Hk. destruct Hk as [Hne Hk]. destruct (He k Hk) as (s' & E1 & E2). by simplify_eq.
    - destruct (He k Hk) as (s' & E1 & E2). by simplify_eq. }
  split; [|done]. split.
  - rewrite Hem. intros k [? Hk]. by rewrite lookup_empty in Hk.
  - unfold reset_socket. cbn. intros s [= <-]. cbn. set_solver.
Qed.
Lemma connect_ok i c c' r : hb_ok c → add_and_connect_socket i c = (c', r) → hb_ok c'.
Proof.
  unfold add_and_connect_socket. intros Hok. destruct (sys_socket i) as [fd|]; [|by intros [= <- _]].
  destruct (reset_ok fd c Hok) as [[He Ho] Hem].
  assert (hb_socket (reset_socket fd c) = Some (mkSock fd 0)) as Hs by done.
  destruct (sys_epoll_add i); [|intros [= <- _]; by split].
  assert (∀ s, sk_fd s = fd → hb_ok ((reset_socket fd c) <| hb_epoll := <[fd := true]> (hb_epoll (reset_socket fd c)) |>
    <| hb_socket := Some s |>)) as Hput.
  { intros s Hfd. rewrite Hem. split; cbn -[reset_socket].
    - intros k [x Hk]. apply lookup_insert_Some in Hk as [[<- _]|[_ Hk]]; [by exists s|by rewrite lookup_empty in Hk].
    - intros s' [= <-]. rewrite Hfd. apply (Ho (mkSock fd 0) Hs). }
  destruct (sys_connect i) as [e|]; intros [= <- _]; [by apply (Hput (mkSock fd e))|by apply (Hput (mkSock fd 0))].
Qed.
Lemma signals_ok i c : hb_ok c → hb_ok (hb_signals i c).1.
Proof.
  intros Hok. unfold hb_signals. case_if; [by apply teardown_ok|].
  match goal with |- context [if hb_reconnect_signal ?x then _ else _] => set (c1 := x) end.
  assert (hb_ok c1) as H1 by (subst c1; case_if; [by destruct (teardown_ok c Hok)|done]).
  case_if; [|done]. destruct (add_and_connect_socket i c1) as [c2 r] eqn:E1. apply connect_ok in E1; [|done].
  destruct r as [[]|]; [|done..]. by destruct E1.
Qed.

(** *** What the session receives *)

(** The bytes of one event, as the kernel hands them over: read on while the
    buffer is full. *)
Fixpoint kernel_bytes (recvs : list Received) : list Z :=
  match recvs with
  | [] => []
  | r :: recvs =>
      (match r with Bytes b => b | _ => [] end)
      ++ (if recv_ret r =? READ_BUFFER_SIZE then kernel_bytes recvs else [])
  end.
Definition event_bytes (e : EpollEvent) : list Z :=
  match e with SocketEvent true _ _ _ _ recvs => kernel_bytes recvs | _ => [] end.
(** The stream the session was given. *)
Definition received (calls : list Callback) : list Z :=
  concat ((λ cb, match cb with cb_on_recv b => b | _ => [] end) <$> calls).
Lemma received_app l1 l2 : received (l1 ++ l2) = received l1 ++ received l2.
Proof. unfold received. by rewrite fmap_app, concat_app. Qed.
Lemma received_call cb c : received (hb_calls (call_back cb c)) =
  received (hb_calls c) ++ match cb with cb_on_recv b => b | _ => [] end.
Proof.
  change (hb_calls (call_back cb c)) with (hb_calls c ++ [cb]). rewrite received_app.
  f_equal. unfold received. cbn. by rewrite app_nil_r.
Qed.

Lemma read_spec recvs c : hb_ok c → is_Some (hb_socket c) →
  ∃ c', handle_socket_data_read recvs c = Ok c' /\ hb_ok c' /\ hb_socket c' = hb_socket c
    /\ received (hb_calls c') = received (hb_calls c) ++ kernel_bytes recvs.
Proof.
  revert c. induction recvs as [|r recvs IH]; intros c Hok [s Hs]; cbn [handle_socket_data_read kernel_bytes];
    unfold the_socket; rewrite Hs; cbn [mbind res_bind].
  { exists c. by rewrite app_nil_r. }
  match goal with |- context [if recv_ret r =? _ then handle_socket_data_read _ ?x else _] => set (c1 := x) end.
  assert (hb_ok c1 /\ hb_socket c1 = Some s /\ received (hb_calls c1) =
    received (hb_calls c) ++ match r with Bytes b => b | _ => [] end) as (H1 & H2 & H3).
  { subst c1. destruct r as [[|x b]| | |]; cbn [recv_ret]; rewrite ?app_nil_r.
    - done.
    - case_if; [bools; cbn in *; lia|]. split; [by apply call_ok|]. split; [done|]. apply received_call.
    - done.
    - cbn. case_if; [|done]. split; [by apply alter_ok|done].
    - cbn. case_if; [|done]. split; [by apply alter_ok|done]. }
  clearbody c1. case_if.
  - destruct (IH c1 H1) as (c' & -> & ? & Hs' & Hr); [by exists s|]. exists c'.
    split_and!; [done|done|congruence|]. by rewrite Hr, H3, app_assoc.
  - exists c1. rewrite app_nil_r. split_and!; [done|done|congruence|done].
Qed.
Lemma event_spec e c : hb_ok c → (is_socket_event e = true → is_Some (hb_socket c)) →
  ∃ c', handle_event e c = Ok c' /\ hb_ok c'
    /\ received (hb_calls c') = received (hb_calls c) ++ event_bytes e
    /\ (is_socket_event e = false → hb_socket c' = hb_socket c).
Proof.
  intros Hok Hsk. destruct e as [[n|]|inp out rdhup err hup recvs]; cbn [handle_event event_bytes].
  - eexists. split; [done|]. split; [by apply call_ok|]. split; [apply received_call|done].
  - exists c. by rewrite app_nil_r.
  - destruct (Hsk eq_refl) as [s Hs].
    assert (∃ c1, (if inp then handle_socket_data_read recvs c else Ok c) = Ok c1 /\ hb_ok c1
      /\ hb_socket c1 = hb_socket c /\ received (hb_calls c1)
      = received (hb_calls c) ++ (if inp then kernel_bytes recvs else [])) as (c1 & -> & Hok1 & Hs1 & Hr1).
    { destruct inp; [apply read_spec; [done|by exists s]|]. exists c. by rewrite app_nil_r. }
    cbn [mbind res_bind].
    assert (∃ c2, (if out then handle_socket_data_write c1 else Ok c1) = Ok c2 /\ hb_ok c2
      /\ hb_socket c2 = Some s /\ received (hb_calls c2) = received (hb_calls c1)) as (c2 & -> & Hok2 & Hs2 & Hr2).
    { destruct out; [|exists c1; by rewrite Hs1]. unfold handle_socket_data_write, the_socket.
      rewrite Hs1, Hs. eexists. split; [done|]. split; [by apply call_ok, alter_ok|]. split; [cbn; congruence|].
      rewrite received_call. cbn. by rewrite app_nil_r. }
    cbn [mbind res_bind]. rewrite <- Hr1, <- Hr2.
    case_if; [|exists c2; by split_and!].
    unfold handle_socket_events, the_socket. rewrite Hs2. eexists. split; [done|].
    assert (received (hb_calls (teardown_socket c2)) = received (hb_calls c2)) as Htd
      by (unfold teardown_socket; by rewrite Hs2).
    destruct rdhup; [|destruct hup]; (split; [|split; [|done]]); try done;
      try (by apply call_ok, teardown_ok); by rewrite received_call, app_nil_r.
Qed.
Lemma events_spec evs c w : hb_ok c → (w = true → is_Some (hb_socket c)) → possible_events w evs →
  ∃ c', foldM (λ c e, handle_event e c) c evs = Ok c' /\ hb_ok c'
    /\ received (hb_calls c') = received (hb_calls c) ++ concat (event_bytes <$> evs).
Proof.
  revert c w. induction evs as [|e evs IH]; intros c w Hok Hw Hp; cbn [foldM fmap list_fmap concat].
  { exists c. by rewrite app_nil_r. }
  cbn in Hp. destruct (event_spec e c Hok) as (c1 & -> & Hok1 & Hr1 & Hs1).
  { destruct (is_socket_event e); [intros _; apply Hw; by destruct Hp|done]. }
  cbn [mbind res_bind]. destruct (is_socket_event e).
  - destruct (IH c1 false Hok1) as (c' & -> & Hok' & Hr'); [done|by destruct Hp|].
    exists c'. by rewrite Hr', Hr1, app_assoc.
  - destruct (IH c1 w Hok1) as (c' & -> & Hok' & Hr'); [by rewrite Hs1|done|].
    exists c'. by rewrite Hr', Hr1, app_assoc.
Qed.

Lemma calls_teardown c : hb_calls (teardown_socket c) = hb_calls c.
Proof. unfold teardown_socket. by case_match. Qed.
Lemma calls_connect i c c' r : add_and_connect_socket i c = (c', r) → hb_calls c' = hb_calls c.
Proof.
  unfold add_and_connect_socket, reset_socket. intros Ha.
  repeat case_match; simplify_eq; done.
Qed.
Lemma calls_signals i c : hb_calls (hb_signals i c).1 = hb_calls c.
Proof.
  unfold hb_signals. case_if; [apply calls_teardown|].
  match goal with |- context [if hb_reconnect_signal ?x then _ else _] => set (c1 := x) end.
  assert (hb_calls c1 = hb_calls c) as <- by (subst c1; case_if; [apply calls_teardown|done]).
  case_if; [|done]. destruct (add_and_connect_socket i c1) as [c2 r] eqn:E1. apply calls_connect in E1.
  destruct r as [[]|]; done.
Qed.

(** The bytes the kernel hands over in a step. *)
Definition step_bytes i c : list Z :=
  match (hb_signals i c).2, sys_wait i with
  | Done false, Some evs => concat (event_bytes <$> evs)
  | _, _ => []
  end.
Lemma process_spec i c : hb_ok c → possible i c →
  ∃ c' r, hb_process i c = Ok (c', r) /\ hb_ok c'
    /\ received (hb_calls c') = received (hb_calls c) ++ step_bytes i c.
Proof.
  intros Hok Hp. unfold hb_process, step_bytes. rewrite <- (calls_signals i c).
  pose proof (signals_ok i c Hok) as Hok1. unfold possible in Hp.
  destruct (hb_signals i c) as [c1 r]. cbn [fst snd] in *.
  destruct r as [[]|]; [by exists c1, (Done true); rewrite app_nil_r| |by exists c1, (Threw what); rewrite app_nil_r].
  unfold hb_wait. destruct (sys_wait i) as [evs|]; [|by exists c1, (Done true); rewrite app_nil_r].
  destruct (events_spec evs c1 (waited c1) Hok1 (waited_socket c1 Hok1) (Hp evs eq_refl)) as (c2 & -> & Hok2 & Hr).
  by exists c2, (Done false).
Qed.

(** The steps of the loop, one after the other. *)
Fixpoint process_all (ins : list Syscalls) c : res HeartBeatConn :=
  match ins with [] => Ok c | i :: ins => '(c, _) ← hb_process i c; process_all ins c end.
Fixpoint all_possible (ins : list Syscalls) c : Prop :=
  match ins with
  | [] => True
  | i :: ins => possible i c /\ ∀ c' r, hb_process i c = Ok (c', r) → all_possible ins c'
  end.
Fixpoint all_bytes (ins : list Syscalls) c : list Z :=
  match ins with
  | [] => []
  | i :: ins => step_bytes i c ++ match hb_process i c with Ok (c', _) => all_bytes ins c' | Fail _ => [] end
  end.

(** C18: Whatever the system calls answer, the steps of the loop never follow the
    null pointer of a socket that was torn down, and the session is given the
    bytes that the kernel hands over, all of them and in order, however many full
    buffers they take. *)
Theorem connection_delivers_stream ins c : hb_ok c → all_possible ins c →
  ∃ c', process_all ins c = Ok c' /\ hb_ok c'
    /\ received (hb_calls c') = received (hb_calls c) ++ all_bytes ins c.
Proof.
  revert c. induction ins as [|i ins IH]; intros c Hok Hp; cbn [process_all all_bytes].
  { exists c. by rewrite app_nil_r. }
  destruct Hp as [Hp Hps]. destruct (process_spec i c Hok Hp) as (c1 & r & E1 & Hok1 & Hr).
  rewrite E1. cbn [mbind res_bind]. destruct (IH c1 Hok1 (Hps c1 r E1)) as (c' & -> & Hok' & Hr').
  exists c'. by rewrite Hr', Hr, app_assoc.
Qed.

(** A session that connects and then disconnects before the thread has come
    round stays connected: [process] looks at the signal to disconnect first,
    whichever was raised last.  The socket it had is not closed: a descriptor is
    lost each time. *)
Theorem disconnect_after_connect_is_lost (t : NamedThread HeartBeatConn) (created : bool) host port i s fd :
  active t = true → hb_socket (th_worker t) = Some s → hb_done_signal (th_worker t) = false →
  sk_fd s ∈ hb_open (th_worker t) → sys_socket i = Some fd → sys_epoll_add i = true →
  sys_connect i = Some EINPROGRESS → sys_wait i = Some [] →
  let t1 := (hb_disconnect (hb_connect created host port t).2).2 in
  (hb_connect created host port t).1 = true /\ (hb_disconnect (hb_connect created host port t).2).1 = true
  /\ ∃ c', hb_process i (th_worker t1) = Ok (c', Done false)
       /\ hb_socket c' = Some (mkSock fd EINPROGRESS) /\ hb_disconnect_signal c' = false
       /\ hb_open c' = {[fd]} ∪ hb_open (th_worker t) /\ sk_fd s ∈ hb_open c'.
Proof.
  intros Ha Hs Hd Ho Hf He Hc Hw. unfold active in Ha. apply bool_decide_eq_true in Ha.
  destruct t as [st pc rv te ca w]. cbn in *. subst st. split; [done|]. split; [done|].
  match goal with |- context [hb_process i ?x] => set (w1 := x) end.
  assert (w1 = w <| hb_host := host |> <| hb_port := port |> <| hb_reconnect_signal := true |>
    <| hb_disconnect_signal := true |>) as -> by reflexivity.
  unfold hb_process, hb_signals, hb_wait, add_and_connect_socket, reset_socket, teardown_socket. cbn.
  rewrite Hd, Hs. cbn. rewrite Hf, He, Hc. cbn. rewrite Hw. cbn. eexists. split; [done|]. cbn.
  split_and!; [done|done|done|set_solver].
Qed.

(** A full buffer, then the end of the stream that came while it was read. *)
Definition full_then_closed (b : list Z) : EpollEvent := SocketEvent true false false false false [Bytes b; PeerClosed].
(** What [epoll_wait] says of the closed socket if it may be written. *)
Definition closed_writable : EpollEvent := SocketEvent true true true false false [PeerClosed].

(** The end of the stream is taken for a connection still in progress, since
    [recv] does not touch the [errno] that connecting left: the thread waits for
    the socket to become writable, as it does at once, and tells the session that
    it is connected, a second time, before that its peer is gone. *)
Theorem closed_peer_reported_connected i1 i2 c s b :
  hb_socket c = Some s → sk_errno s = EINPROGRESS → hb_done_signal c = false →
  hb_disconnect_signal c = false → hb_reconnect_signal c = false → hb_epoll c !! sk_fd s = Some false →
  Z.of_nat (length b) = READ_BUFFER_SIZE →
  sys_wait i1 = Some [full_then_closed b] → sys_wait i2 = Some [closed_writable] →
  ∃ c1 c2, hb_process i1 c = Ok (c1, Done false) /\ hb_epoll c1 !! sk_fd s = Some true
    /\ hb_process i2 c1 = Ok (c2, Done false) /\ hb_socket c2 = None
    /\ hb_calls c2 = hb_calls c ++ [cb_on_recv b; cb_on_connected; cb_on_peer_disconnect].
Proof.
  intros Hs He Hd Hdis Hre Hfd Hb Hw1 Hw2. destruct b as [|x b]; [done|].
  exists ((call_back (cb_on_recv (x :: b)) c) <| hb_epoll := alter (λ _, true) (sk_fd s) (hb_epoll c) |>). eexists.
  split; [|split; [cbn; by rewrite lookup_alter_eq, Hfd|]].
  - unfold hb_process, hb_signals, hb_wait. rewrite Hd, Hdis. cbv zeta. rewrite Hre, Hw1.
    cbn [foldM handle_event full_then_closed mbind res_bind handle_socket_data_read the_socket recv_ret].
    unfold the_socket. rewrite Hs. cbn [mbind res_bind]. rewrite Hb. cbn -[length]. rewrite Hs.
    cbn [mbind res_bind]. by rewrite He.
  - unfold hb_process, hb_signals, hb_wait. cbn. rewrite Hd, Hdis. cbn. rewrite Hre, Hw2. cbn.
    unfold handle_socket_data_write, handle_socket_events, the_socket. cbn.
    rewrite Hs. cbn. rewrite He. cbn. rewrite Hs. cbn. rewrite Hs. cbn. split_and!; [done|..];
      unfold teardown_socket; cbn; rewrite Hs; cbn; [done|]. by rewrite <- !app_assoc.
Qed.

(** A connection that is refused outright, and not only put in progress, when
    the thread starts is thrown out of the thread, which ends the application. *)
Theorem refused_at_start_dies (t : NamedThread HeartBeatConn) i fd e :
  th_pc t = InPre → th_throw_exceptions t = true → sys_timer i = true → sys_socket i = Some fd →
  sys_epoll_add i = true → sys_connect i = Some e → e ≠ EINPROGRESS →
  ∃ t', run_step i t = Ok t' /\ th_pc t' = Died /\ th_state t' = EXCEPTION.
Proof.
  intros Hpc Ht Hti Hf He Hc Hne. unfold run_step. rewrite Hpc. cbn [pre_process HeartBeatConn_worker].
  unfold hb_pre_process, add_and_connect_socket. rewrite Hti, Hf, He, Hc. cbn [mbind res_bind].
  apply Z.eqb_neq in Hne. rewrite Hne. unfold caught. cbn. rewrite Ht. by eexists.
Qed.
End Correct.

(** ** Concrete runs *)

Definition quiet : Syscalls := mkSys true (Some 7) true (Some EINPROGRESS) (Some []).
Definition connected_thread : HeartBeatConn :=
  HeartBeatConn_new <| hb_socket := Some (mkSock 7 EINPROGRESS) |> <| hb_epoll := {[7 := false]} |>
    <| hb_open := {[7]} |>.
Lemma connected_ok : hb_ok connected_thread.
Proof.
  split; cbn.
  - intros fd [b Hfd]. apply lookup_singleton_Some in Hfd as [<- _]. by eexists.
  - intros s [= <-]. set_solver.
Qed.
Definition hello : Syscalls :=
  quiet <| sys_wait := Some [TimerEvent (Some 1); SocketEvent true false false false false [Bytes [72; 105]]] |>.
Definition buffer_full : Syscalls := quiet <| sys_wait := Some [full_then_closed (replicate 2048 1)] |>.
Definition closed_now : Syscalls := quiet <| sys_wait := Some [closed_writable] |>.

Lemma connection_delivers_stream_witness :
  ∃ c', process_all [hello; buffer_full; closed_now] connected_thread = Ok c'
    /\ received (hb_calls c') = 72 :: 105 :: replicate 2048 1.
Proof.
  destruct (connection_delivers_stream [hello; buffer_full; closed_now] connected_thread) as (c' & E1 & _ & E2).
  - apply connected_ok.
  - split; [intros evs [= <-]; by vm_compute|]. intros c1 r1 E1. vm_compute in E1. injection E1 as <- <-.
    split; [intros evs [= <-]; by vm_compute|]. intros c2 r2 E2. vm_compute in E2. injection E2 as <- <-.
    split; [intros evs [= <-]; by vm_compute|done].
  - exists c'. split; [exact E1|]. rewrite E2. vm_compute. reflexivity.
Defined.
Lemma disconnect_after_connect_is_lost_witness :
  let t := mkThread ACTIVE InLoop false true false connected_thread in
  let i := quiet <| sys_socket := Some 9 |> in
  let t1 := (hb_disconnect (hb_connect true "host" 80 t).2).2 in
  ∃ c', hb_process i (th_worker t1) = Ok (c', Done false) /\ hb_socket c' = Some (mkSock 9 EINPROGRESS)
    /\ hb_open c' = {[9]} ∪ {[7]}.
Proof.
  intros t i t1.
  destruct (disconnect_after_connect_is_lost t true "host" 80 i (mkSock 7 EINPROGRESS) 9)
    as (_ & _ & c' & E1 & E2 & _ & E3 & _); try reflexivity.
  exists c'. split; [exact E1|]. split; [exact E2|exact E3].
Defined.
