(* ===== verification/L2Book.v ===== *)
(** * Aggregated books (src/md/i01_md/L2Book.hpp, src/md/i01_md/OrderData.hpp)

    One side of a book is a [std::map] from prices to levels, with the flags the
    last update left.  [L2BookHalf] is generic in the comparison of prices
    ([std::greater] for bids, [std::less] for asks) and in the price an empty
    side quotes.  Prices are fixed point, 64 bits; sizes 32 bits.  The bodies of
    [L2Book::replace], [crossed] and [locked] are not in the repository. *)

From S2P Require Import Prelude Dbl StdMap Time.

(** ** OrderData.hpp *)

Definition EmptyAsk_price : Z := 2 ^ 64 - 1.
Definition EmptyBid_price : Z := 0.

Record L2Quote := mkQuote { q_price : Z; q_size : Z; q_num_orders : Z }.
#[export] Instance L2Quote_eq_dec : EqDecision L2Quote.
Proof. solve_decision. Defined.
Definition Summary : Type := Z * Z * Z.
Definition quote_of_summary (s : Summary) : L2Quote := let '(p, sz, n) := s in mkQuote p sz n.
Definition quote_to_summary (q : L2Quote) : Summary := (q_price q, q_size q, q_num_orders q).
Record FullL2Quote := mkFull { fq_bid : L2Quote; fq_ask : L2Quote }.
#[export] Instance FullL2Quote_eq_dec : EqDecision FullL2Quote.
Proof. solve_decision. Defined.
Definition FullL2Quote_new : FullL2Quote := mkFull (mkQuote 0 0 0) (mkQuote (2 ^ 64 - 1) 0 0).

Section Prices.
Context {D : Type} `{Dbl D}.
Definition PRICE_DIVISOR_INV : D := d_lit 1 10000.
Definition PRICE_DIVISOR : D := d_of_Z 10000.
Definition to_double (p : Z) : D := (d_of_Z p * PRICE_DIVISOR_INV)%dbl.
(** [static_cast<Price>(d * 1e4)]; out of range it is undefined. *)
Definition to_fixed (d : D) : Z := u64 (d_to_i64 (d * PRICE_DIVISOR)%dbl).
Definition price_as_double (q : L2Quote) : D := (d_of_Z (q_price q) * PRICE_DIVISOR_INV)%dbl.
End Prices.

(** ** L2PriceLevel *)

Record L2PriceLevel := mkLevel {
  pl_price : Z;
  pl_size : Z;
  pl_num_orders : Z;
  pl_last_updated : Timestamp;
  pl_created : Timestamp
}.
#[export] Instance L2PriceLevel_rebuild : Rebuild L2PriceLevel := λ r,
  mkLevel (pl_price r) (pl_size r) (pl_num_orders r) (pl_last_updated r) (pl_created r).
Definition L2PriceLevel_new (p s no : Z) (ts : Timestamp) : L2PriceLevel := mkLevel p s no ts ts.

(** ** L2BookHalf *)

Section Half.
Context (lt : Z → Z → bool) (EMPTY_PRICE : Z).

Record L2BookHalf := mkHalf {
  h_storage : list (Z * L2PriceLevel);
  h_level_added : bool;
  h_level_deleted : bool;
  h_deleted_level_existed : bool;
  h_reduced_size : bool
}.
#[export] Instance L2BookHalf_rebuild : Rebuild L2BookHalf := λ r,
  mkHalf (h_storage r) (h_level_added r) (h_level_deleted r) (h_deleted_level_existed r)
    (h_reduced_size r).

Definition best_quote (h : L2BookHalf) : L2Quote :=
  match h_storage h with
  | (p, l) :: _ => mkQuote p (pl_size l) (pl_num_orders l)
  | [] => mkQuote EMPTY_PRICE 0 0
  end.
Definition best (h : L2BookHalf) : Summary := quote_to_summary (best_quote h).

(** [replace]: the flag is whether the top of the book changed. *)
Definition replace (p s n : Z) (ts : Timestamp) (h : L2BookHalf) : bool * L2BookHalf :=
  let deleted := s =? 0 in
  let h := h <| h_level_deleted := deleted |> <| h_reduced_size := deleted |> in
  match sm_find lt p (h_storage h) with
  | None =>
      if deleted then (false, h <| h_deleted_level_existed := false |>)
      else
        let m := sm_emplace lt p (L2PriceLevel_new p s n ts) (h_storage h) in
        (sm_is_first lt p m, h <| h_level_added := true |> <| h_storage := m |>)
  | Some l =>
      let h := h <| h_level_added := false |> in
      if deleted then
        (sm_is_first lt p (h_storage h),
         h <| h_storage := sm_erase lt p (h_storage h) |> <| h_deleted_level_existed := true |>)
      else
        let l' := l <| pl_size := s |> <| pl_num_orders := n |> <| pl_last_updated := ts |> in
        (sm_is_first lt p (h_storage h),
         h <| h_reduced_size := s <? pl_size l |>
           <| h_storage := sm_set lt p l' (h_storage h) |>)
  end.

Definition h_clear (h : L2BookHalf) : L2BookHalf := h <| h_storage := [] |>.
Definition half_find (p : Z) (h : L2BookHalf) : option L2PriceLevel := sm_find lt p (h_storage h).
End Half.

(** A price of the half-open ranges a feed uses: bids highest first, asks lowest first. *)
Definition bid_replace := replace Z.gtb.
Definition ask_replace := replace Z.ltb.

(** ** Correctness *)

Section HalfSpec.
Context (lt : Z → Z → bool) `{!KeyOrder lt} (E : Z).
Implicit Types (h : L2BookHalf).

(** The side as what it means: the size and number of orders at each price.
    Levels are where they say they are, and none is empty. *)
Definition level_view (l : L2PriceLevel) : Z * Z := (pl_size l, pl_num_orders l).
Definition depth h (p : Z) : option (Z * Z) := level_view <$> half_find lt p h.
Definition half_ok h : Prop :=
  sm_sorted lt (h_storage h)
  /\ Forall (λ kl, pl_price kl.2 = kl.1 /\ pl_size kl.2 ≠ 0) (h_storage h).

Lemma Forall_emplace {V} (P : Z * V → Prop) k v (m : list (Z * V)) :
  P (k, v) → Forall P m → Forall P (sm_emplace lt k v m).
Proof.
  intros Hk. induction m as [|[k' v'] m IH]; cbn; [by repeat constructor|].
  intros [? ?]%Forall_cons. repeat case_if; repeat constructor; auto.
Qed.
Lemma Forall_erase {V} (P : Z * V → Prop) k (m : list (Z * V)) :
  Forall P m → Forall P (sm_erase lt k m).
Proof.
  induction m as [|[k' v'] m IH]; cbn; [done|].
  intros [? ?]%Forall_cons. case_if; [done|]. constructor; auto.
Qed.
Lemma Forall_set {V} (P : Z * V → Prop) k v (m : list (Z * V)) :
  P (k, v) → Forall P m → Forall P (sm_set lt k v m).
Proof.
  intros Hk. induction m as [|[k' v'] m IH]; cbn; [done|].
  intros [? ?]%Forall_cons. case_if; constructor; auto.
  apply (same_key_eq lt) in Hif. by subst k'.
Qed.
Lemma find_in {V} k (v : V) (m : list (Z * V)) : sm_find lt k m = Some v → (k, v) ∈ m.
Proof.
  induction m as [|[k' v'] m IH]; cbn; [done|]. case_if; intros Hf;
    apply elem_of_cons; [left|right; by apply IH].
  apply (same_key_eq lt) in Hif. subst k'. by injection Hf as <-.
Qed.

Lemma replace_ok p s n ts h b h' : half_ok h → replace lt p s n ts h = (b, h') → half_ok h'.
Proof.
  intros [Hs Hall]. unfold replace. cbn -[Z.eqb Z.ltb].
  destruct (sm_find lt p (h_storage h)) as [l|] eqn:Hf; destruct (Z.eqb_spec s 0) as [->|Hne];
    intros [= _ <-]; split; cbn; eauto with i01.
  - by apply Forall_erase.
  - apply Forall_set; [|done]. apply find_in in Hf. split; [|done].
    by apply (proj1 (Forall_forall _ _) Hall) in Hf as [Hp _].
  - by apply Forall_emplace.
Qed.

Lemma depth_replace p s n ts h b h' p' : half_ok h → replace lt p s n ts h = (b, h') →
  depth h' p' = if decide (p' = p) then (if s =? 0 then None else Some (s, n)) else depth h p'.
Proof.
  intros [Hs Hall]. unfold replace, depth, half_find. cbn -[Z.eqb Z.ltb].
  assert (∀ A (x y : A), (if same_key lt p' p then x else y) = if decide (p' = p) then x else y) as Hk.
  { intros. destruct (decide (p' = p)) as [->|Hne]; [by rewrite (same_key_refl lt)|].
    by rewrite (same_key_ne lt). }
  destruct (sm_find lt p (h_storage h)) as [l|] eqn:Hf; destruct (Z.eqb_spec s 0) as [->|Hne];
    intros [= _ <-]; cbn.
  - rewrite sm_find_erase, Hk by done. by case_decide.
  - rewrite sm_find_set, Hf, Hk by done. by case_decide.
  - case_decide; [by subst; rewrite Hf|done].
  - rewrite sm_find_emplace, Hf, Hk by done. by case_decide.
Qed.

(** Of every price it has, the one that [lt] puts first. *)
Lemma best_is_least h : half_ok h →
  match depth h (q_price (best_quote E h)) with
  | Some (s, n) => best_quote E h = mkQuote (q_price (best_quote E h)) s n
      /\ ∀ p, depth h p ≠ None → p = q_price (best_quote E h) \/ lt (q_price (best_quote E h)) p = true
  | None => h_storage h = [] /\ best_quote E h = mkQuote E 0 0
  end.
Proof.
  intros [Hs Hall]. unfold best_quote, depth, half_find.
  destruct (h_storage h) as [|[p l] m] eqn:Hh; [done|].
  cbn [q_price]. cbn [sm_find]. rewrite (same_key_refl lt). cbn. split; [done|]. intros p' Hp'.
  destruct (sm_find lt p' ((p, l) :: m)) as [l'|] eqn:Hf; [|by cbn in Hf; rewrite Hf in Hp'].
  by eapply (sm_first_least lt).
Qed.

(** Insertion and removal away from the front leave the front alone. *)
Lemma head_emplace {V} k (v : V) m : sm_is_first lt k (sm_emplace lt k v m) = false →
  head (sm_emplace lt k v m) = head m.
Proof.
  destruct m as [|[k' v'] m]; cbn; [by rewrite (same_key_refl lt)|].
  repeat case_if; cbn; [by rewrite (same_key_refl lt)|done|done].
Qed.
Lemma head_erase {V} k (m : list (Z * V)) : sm_is_first lt k m = false →
  head (sm_erase lt k m) = head m.
Proof. destruct m as [|[k' v'] m]; cbn; [done|]. by intros ->. Qed.
Lemma head_set {V} k v (m : list (Z * V)) : sm_is_first lt k m = false →
  head (sm_set lt k v m) = head m.
Proof. destruct m as [|[k' v'] m]; cbn; [done|]. by intros ->. Qed.
Lemma best_head h h' : head (h_storage h') = head (h_storage h) → best_quote E h' = best_quote E h.
Proof. unfold best_quote. destruct (h_storage h), (h_storage h'); cbn; naive_solver. Qed.
Lemma first_best h p : sm_is_first lt p (h_storage h) = true → q_price (best_quote E h) = p.
Proof.
  unfold best_quote. destruct (h_storage h) as [|[k l] m]; [done|]. cbn.
  by intros Hk%(same_key_eq lt).
Qed.

Lemma replace_top p s n ts h b h' : replace lt p s n ts h = (b, h') →
  if b then q_price (best_quote E h) = p \/ q_price (best_quote E h') = p
  else best_quote E h' = best_quote E h.
Proof.
  unfold replace. cbn -[Z.eqb Z.ltb].
  destruct (sm_find lt p (h_storage h)) as [l|]; destruct (Z.eqb_spec s 0) as [->|Hne];
    intros [= <- <-]; try (case_match; [left; by apply first_best|apply best_head]); cbn.
  - by apply head_erase.
  - by apply head_set.
  - done.
  - case_match; [right; by apply first_best|by apply best_head, head_emplace].
Qed.

(** C39: Replacing a price level of a book side is what a feed means by it: the
    size and order count at that price become the given ones (none when the size
    is zero) and no other price changes; the levels stay in price order without
    empty ones; the quote stays the best price there is; and the result tells
    whether the top of the book may have changed. *)
Theorem book_replace_correct p s n ts h : half_ok h →
  let '(top, h') := replace lt p s n ts h in
  half_ok h'
  /\ (∀ p', depth h' p' =
        if decide (p' = p) then (if s =? 0 then None else Some (s, n)) else depth h p')
  /\ match depth h' (q_price (best_quote E h')) with
     | Some (s', n') => best_quote E h' = mkQuote (q_price (best_quote E h')) s' n'
         /\ ∀ p', depth h' p' ≠ None →
              p' = q_price (best_quote E h') \/ lt (q_price (best_quote E h')) p' = true
     | None => h_storage h' = [] /\ best_quote E h' = mkQuote E 0 0
     end
  /\ (if top then q_price (best_quote E h) = p \/ q_price (best_quote E h') = p
      else best_quote E h' = best_quote E h).
Proof.
  intros Hok. destruct (replace lt p s n ts h) as [top h'] eqn:Hr.
  assert (half_ok h') as Hok' by eauto using replace_ok.
  split; [done|]. split; [eauto using depth_replace|].
  split; [by apply best_is_least|by eapply replace_top].
Qed.
End HalfSpec.

(** A bid side: two levels, the better one removed. *)
Definition sample_half : L2BookHalf :=
  (bid_replace 1000000 300 2 (mkTs 1 0) (bid_replace 1010000 100 1 (mkTs 1 0)
     (mkHalf [] false false false false)).2).2.
Lemma book_replace_correct_witness :
  bid_replace 1010000 0 0 (mkTs 2 0) sample_half
    = (true, mkHalf [(1000000, L2PriceLevel_new 1000000 300 2 (mkTs 1 0))] false true true true)
  /\ half_ok Z.gtb (bid_replace 1010000 0 0 (mkTs 2 0) sample_half).2
  /\ best_quote EmptyBid_price (bid_replace 1010000 0 0 (mkTs 2 0) sample_half).2
     = mkQuote 1000000 300 2.
Proof.
  split; [vm_compute; reflexivity|].
  assert (half_ok Z.gtb sample_half) as Hok by (split; repeat constructor; done).
  pose proof (book_replace_correct Z.gtb EmptyBid_price 1010000 0 0 (mkTs 2 0) sample_half Hok) as Hc.
  split; [|vm_compute; reflexivity].
  unfold bid_replace. destruct (replace Z.gtb 1010000 0 0 (mkTs 2 0) sample_half). apply Hc.
Defined.
