(* ===== verification/Types.v ===== *)
(** * Order-entry enumerations (src/oe/i01_oe/Types.hpp, src/oe/Types.cpp)

    One inductive type per [enum class], with its numeric value ([.._to_Z], the
    value the order log stores), the inverse cast, and the text that
    [operator<<] prints. *)

From S2P Require Import Prelude.

(** ** Side *)

Inductive Side := SIDE_UNKNOWN | BUY | SELL | SHORT | SHORT_EXEMPT.
#[export] Instance Side_eq_dec : EqDecision Side.
Proof. solve_decision. Defined.

Definition Side_to_Z (s : Side) : Z :=
  match s with
  | SIDE_UNKNOWN => 0 | BUY => 1 | SELL => 2 | SHORT => 3 | SHORT_EXEMPT => 4
  end.
Definition Side_of_Z (z : Z) : option Side :=
  match z with
  | 0 => Some SIDE_UNKNOWN | 1 => Some BUY | 2 => Some SELL | 3 => Some SHORT
  | 4 => Some SHORT_EXEMPT | _ => None
  end.

(** [operator-(const Side&)]: the opposite side. *)
Definition side_neg (s : Side) : Side :=
  match s with
  | BUY => SELL
  | SELL | SHORT | SHORT_EXEMPT => BUY
  | SIDE_UNKNOWN => SIDE_UNKNOWN
  end.

Definition side_to_sign (s : Side) : Z :=
  match s with
  | BUY => 1
  | SELL | SHORT | SHORT_EXEMPT => -1
  | SIDE_UNKNOWN => 0
  end.

Definition Side_to_string (s : Side) : string :=
  match s with
  | SIDE_UNKNOWN => "UNKNOWN" | BUY => "BUY" | SELL => "SELL" | SHORT => "SHORT"
  | SHORT_EXEMPT => "SHORT_EXEMPT"
  end.

Definition is_buy (s : Side) : bool := bool_decide (s = BUY).

(** ** OrderType *)

Inductive OrderType := OT_UNKNOWN | MARKET | LIMIT | STOP | MIDPOINT_PEG.
#[export] Instance OrderType_eq_dec : EqDecision OrderType.
Proof. solve_decision. Defined.

Definition OrderType_to_Z (t : OrderType) : Z :=
  match t with
  | OT_UNKNOWN => 0 | MARKET => 1 | LIMIT => 2 | STOP => 4 | MIDPOINT_PEG => 8
  end.
Definition OrderType_of_Z (z : Z) : option OrderType :=
  match z with
  | 0 => Some OT_UNKNOWN | 1 => Some MARKET | 2 => Some LIMIT | 4 => Some STOP
  | 8 => Some MIDPOINT_PEG | _ => None
  end.
Definition OrderType_to_string (t : OrderType) : string :=
  match t with
  | OT_UNKNOWN => "UNKNOWN" | MARKET => "MARKET" | LIMIT => "LIMIT" | STOP => "STOP"
  | MIDPOINT_PEG => "MIDPOINT_PEG"
  end.

(** ** TimeInForce *)

Inductive TimeInForce :=
| TIF_UNKNOWN | DAY | EXT | GTC | AUCTION_OPEN | AUCTION_CLOSE | AUCTION_HALT
| TIMED | IMMEDIATE_OR_CANCEL | FILL_OR_KILL.
#[export] Instance TimeInForce_eq_dec : EqDecision TimeInForce.
Proof. solve_decision. Defined.

Definition TimeInForce_to_Z (t : TimeInForce) : Z :=
  match t with
  | TIF_UNKNOWN => 0 | DAY => 1 | EXT => 2 | GTC => 3 | AUCTION_OPEN => 4
  | AUCTION_CLOSE => 5 | AUCTION_HALT => 6 | TIMED => 7
  | IMMEDIATE_OR_CANCEL => 8 | FILL_OR_KILL => 9
  end.
Definition TimeInForce_of_Z (z : Z) : option TimeInForce :=
  match z with
  | 0 => Some TIF_UNKNOWN | 1 => Some DAY | 2 => Some EXT | 3 => Some GTC
  | 4 => Some AUCTION_OPEN | 5 => Some AUCTION_CLOSE | 6 => Some AUCTION_HALT
  | 7 => Some TIMED | 8 => Some IMMEDIATE_OR_CANCEL | 9 => Some FILL_OR_KILL
  | _ => None
  end.
Definition TimeInForce_to_string (t : TimeInForce) : string :=
  match t with
  | TIF_UNKNOWN => "UNKNOWN" | DAY => "DAY" | EXT => "EXT" | GTC => "GTC"
  | AUCTION_OPEN => "AUCTION_OPEN" | AUCTION_CLOSE => "AUCTION_CLOSE"
  | AUCTION_HALT => "AUCTION_HALT" | TIMED => "TIMED"
  | IMMEDIATE_OR_CANCEL => "IOC" | FILL_OR_KILL => "FOK"
  end.

(** ** OrderState *)

Inductive OrderState :=
| OS_UNKNOWN | NEW_AND_UNSENT | LOCALLY_REJECTED | SENT | ACKNOWLEDGED
| PARTIALLY_FILLED | FILLED | PENDING_CANCEL | PARTIALLY_CANCELLED | CANCELLED
| PENDING_CANCEL_REPLACE | CANCEL_REPLACED | REMOTELY_REJECTED | CANCEL_REJECTED.
#[export] Instance OrderState_eq_dec : EqDecision OrderState.
Proof. solve_decision. Defined.

Definition OrderState_to_Z (s : OrderState) : Z :=
  match s with
  | OS_UNKNOWN => 0 | NEW_AND_UNSENT => 1 | LOCALLY_REJECTED => 2 | SENT => 3
  | ACKNOWLEDGED => 4 | PARTIALLY_FILLED => 5 | FILLED => 6 | PENDING_CANCEL => 7
  | PARTIALLY_CANCELLED => 8 | CANCELLED => 9 | PENDING_CANCEL_REPLACE => 10
  | CANCEL_REPLACED => 11 | REMOTELY_REJECTED => 12 | CANCEL_REJECTED => 13
  end.
Definition OrderState_to_string (s : OrderState) : string :=
  match s with
  | OS_UNKNOWN => "UNKNOWN" | NEW_AND_UNSENT => "NEW_AND_UNSENT"
  | LOCALLY_REJECTED => "LOCALLY_REJECTED" | SENT => "SENT"
  | ACKNOWLEDGED => "ACKNOWLEDGED" | PARTIALLY_FILLED => "PARTIALLY_FILLED"
  | FILLED => "FILLED" | PENDING_CANCEL => "PENDING_CANCEL"
  | PARTIALLY_CANCELLED => "PARTIALLY_CANCELLED" | CANCELLED => "CANCELLED"
  | PENDING_CANCEL_REPLACE => "PENDING_CANCEL_REPLACE"
  | CANCEL_REPLACED => "CANCEL_REPLACED" | REMOTELY_REJECTED => "REMOTELY_REJECTED"
  | CANCEL_REJECTED => "CANCEL_REJECTED"
  end.

(** ** Fill fee codes

    The code is carried as its 32-bit value; the enumerators that the engine
    names are the OUCH 4.2 liquidity flags, i.e. character codes. *)

Definition FFC_UNKNOWN : Z := 0.
Definition FFC_XNAS_ADDED : Z := 65.
Definition FFC_XNAS_REMOVED : Z := 82.

(** ** Markets (src/core/i01_core/MIC.hpp, MIC.def.hpp) *)

Inductive MIC :=
| MIC_UNKNOWN | XNYS | XNAS | ARCX | XBOS | XPSX | BATY | BATS | EDGA | EDGX | CAES.
#[export] Instance MIC_eq_dec : EqDecision MIC.
Proof. solve_decision. Defined.

Definition NUM_MIC : Z := 11.
Definition MIC_index (m : MIC) : Z :=
  match m with
  | MIC_UNKNOWN => 0 | XNYS => 1 | XNAS => 2 | ARCX => 3 | XBOS => 4 | XPSX => 5
  | BATY => 6 | BATS => 7 | EDGA => 8 | EDGX => 9 | CAES => 10
  end.
Definition MIC_enums : list MIC :=
  [MIC_UNKNOWN; XNYS; XNAS; ARCX; XBOS; XPSX; BATY; BATS; EDGA; EDGX; CAES].
Definition MIC_name (m : MIC) : string :=
  match m with
  | MIC_UNKNOWN => "UNKNOWN" | XNYS => "XNYS" | XNAS => "XNAS" | ARCX => "ARCX"
  | XBOS => "XBOS" | XPSX => "XPSX" | BATY => "BATY" | BATS => "BATS"
  | EDGA => "EDGA" | EDGX => "EDGX" | CAES => "CAES"
  end.

(** [MIC::clone] of a C string: the first market of that name. *)
Definition MIC_of_name (n : string) : MIC :=
  match list_find (λ m, n = MIC_name m) MIC_enums with
  | Some (_, m) => m
  | None => MIC_UNKNOWN
  end.

(** [MIC::clone(const std::uint8_t)]. *)
Definition MIC_of_index (i : Z) : MIC :=
  if (i =? 0) || (NUM_MIC <=? i) then MIC_UNKNOWN
  else default MIC_UNKNOWN (MIC_enums !! Z.to_nat i).

(** ** Properties of the tables *)

Lemma Side_of_to_Z s : Side_of_Z (Side_to_Z s) = Some s.
Proof. by destruct s. Qed.
Lemma OrderType_of_to_Z s : OrderType_of_Z (OrderType_to_Z s) = Some s.
Proof. by destruct s. Qed.
Lemma TimeInForce_of_to_Z s : TimeInForce_of_Z (TimeInForce_to_Z s) = Some s.
Proof. by destruct s. Qed.
Lemma MIC_of_to_index m : MIC_of_index (MIC_index m) = m.
Proof. by destruct m. Qed.

#[export] Hint Resolve Side_of_to_Z OrderType_of_to_Z TimeInForce_of_to_Z
  MIC_of_to_index : i01.

Lemma Side_to_Z_bound s : 0 <= Side_to_Z s <= 4.
Proof. destruct s; cbn; lia. Qed.
Lemma OrderType_to_Z_bound s : 0 <= OrderType_to_Z s <= 8.
Proof. destruct s; cbn; lia. Qed.
Lemma TimeInForce_to_Z_bound s : 0 <= TimeInForce_to_Z s <= 9.
Proof. destruct s; cbn; lia. Qed.
Lemma MIC_index_bound m : 0 <= MIC_index m <= 10.
Proof. destruct m; cbn; lia. Qed.

(** The market and order tables are consistent: a market is recovered both
    from its name and from its index, every name or index outside the table
    maps to [UNKNOWN], the three order enumerations are recovered from the
    value the log stores, and side negation agrees with the side's sign. *)
Lemma enumeration_tables_consistent :
  (∀ m, MIC_of_name (MIC_name m) = m ∧ MIC_of_index (MIC_index m) = m)
  ∧ (∀ n, (∀ m, n ≠ MIC_name m) → MIC_of_name n = MIC_UNKNOWN)
  ∧ (∀ i, NUM_MIC <= i → MIC_of_index i = MIC_UNKNOWN)
  ∧ (∀ s, Side_of_Z (Side_to_Z s) = Some s)
  ∧ (∀ t, OrderType_of_Z (OrderType_to_Z t) = Some t)
  ∧ (∀ t, TimeInForce_of_Z (TimeInForce_to_Z t) = Some t)
  ∧ (∀ s, side_to_sign (side_neg s) = - side_to_sign s).
Proof.
  split_and!; auto with i01.
  - by intros [].
  - intros n Hn. unfold MIC_of_name.
    destruct (list_find _ _) as [[i m]|] eqn:E; [|done].
    apply list_find_Some in E as (_ & E & _). by destruct (Hn m).
  - intros i Hi. unfold MIC_of_index. apply Z.leb_le in Hi. by rewrite Hi, orb_true_r.
  - by intros [].
Qed.
