(* ===== verification/Order.v ===== *)
(** * Orders (src/oe/i01_oe/Order.hpp, src/oe/Order.cpp)

    The mutable fields of [Order].  Pointers are names: the instrument is its
    symbol index, the session its name, the listener an identifier.  The
    dynamic type of an order is its [OrderKind], which the two virtual methods
    [market] and [validate] dispatch on. *)

From S2P Require Import Prelude Dbl Time Types.

(** The members that [NASDAQOrder] adds (src/oe/i01_oe/NASDAQOrder.hpp); the
    enumerations are their bytes.  The constructor leaves two of them
    indeterminate. *)
Record NASDAQFields := mkNASDAQ {
  nq_display : Z;
  nq_capacity : Z;
  nq_min_size : Z;
  nq_tif_timed : Z;
  nq_iso_eligible : bool;
  nq_bbo_weight_indicator : option Z;
  nq_cancel_reason : option Z;
  nq_liquidity_flag : Z;
  nq_match_number : Z
}.
#[export] Instance NASDAQFields_eq_dec : EqDecision NASDAQFields.
Proof. solve_decision. Defined.
#[export] Instance NASDAQFields_rebuild : Rebuild NASDAQFields := λ r,
  mkNASDAQ (nq_display r) (nq_capacity r) (nq_min_size r) (nq_tif_timed r)
    (nq_iso_eligible r) (nq_bbo_weight_indicator r) (nq_cancel_reason r)
    (nq_liquidity_flag r) (nq_match_number r).

Definition DISPLAY_UNKNOWN : Z := 0.
Definition DISPLAY_ANONYMOUS_PRICE_TO_COMPLY : Z := 89.
Definition DISPLAY_NON_DISPLAY : Z := 78.
Definition DISPLAY_MIDPOINT_PEG : Z := 77.
Definition CAPACITY_AGENCY : Z := 65.
Definition LIQUIDITY_UNKNOWN : Z := 0.

(** The constructor, after [Order]'s. *)
Definition NASDAQOrder_init (display capacity min_size : Z) : NASDAQFields :=
  mkNASDAQ display capacity min_size 0 false None None LIQUIDITY_UNKNOWN 0.
Definition NASDAQOrder_default : NASDAQFields :=
  NASDAQOrder_init DISPLAY_UNKNOWN CAPACITY_AGENCY 0.

(** The members that [BOE20Order] adds (src/oe/i01_oe/BOE20Order.hpp): two
    enumerations as their bytes, and the union [RoutingInst] as its four bytes. *)
Record BOEFields := mkBOE {
  be_display_indicator : Z;
  be_exec_inst : Z;
  be_routing_inst : list Z
}.
#[export] Instance BOEFields_eq_dec : EqDecision BOEFields.
Proof. solve_decision. Defined.
#[export] Instance BOEFields_rebuild : Rebuild BOEFields := λ r,
  mkBOE (be_display_indicator r) (be_exec_inst r) (be_routing_inst r).

Definition DI_UNKNOWN : Z := 0.
Definition EI_UNKNOWN : Z := 0.
(** The constructor, after [Order]'s. *)
Definition BOE20Order_default : BOEFields := mkBOE DI_UNKNOWN EI_UNKNOWN (replicate 4 0).

(** The classes derived from [Order]. *)
Inductive OrderKind :=
| NYSEOrder | NASDAQOrder (fields : NASDAQFields) | ARCAOrder | BATSOrder (boe : BOEFields).
#[export] Instance OrderKind_eq_dec : EqDecision OrderKind.
Proof. solve_decision. Defined.

Definition CLIENT_ORDER_ID_LENGTH : nat := 20.

Record Order (D : Type) := mkOrder {
  o_kind : OrderKind;
  (* initial data *)
  o_instrument : Z;
  o_original_price : D;
  o_price : D;
  o_size : Z;
  o_side : Side;
  o_tif : TimeInForce;
  o_type : OrderType;
  o_userdata : Z;
  o_creation_time : Timestamp;
  (* state data *)
  o_state : OrderState;
  (* send time data *)
  o_session : option string;
  o_sent_time : Timestamp;
  o_last_request_time : Timestamp;
  o_local_account : Z;
  o_localID : Z;
  o_client_order_id : list Z;
  o_pendingcancel_newqty : Z;
  (* response time data *)
  o_listener : option Z;
  o_exchangeID : Z;
  o_last_response_time : Timestamp;
  o_filled_size : Z;
  o_open_size : Z;
  o_cancelled_size : Z;
  o_total_value_paid : D;
  o_last_fill_fee_code : Z;
  o_last_exchange_time : Z
}.

Arguments mkOrder {D}.
Arguments o_kind {D} _.
Arguments o_instrument {D} _.
Arguments o_original_price {D} _.
Arguments o_price {D} _.
Arguments o_size {D} _.
Arguments o_side {D} _.
Arguments o_tif {D} _.
Arguments o_type {D} _.
Arguments o_userdata {D} _.
Arguments o_creation_time {D} _.
Arguments o_state {D} _.
Arguments o_session {D} _.
Arguments o_sent_time {D} _.
Arguments o_last_request_time {D} _.
Arguments o_local_account {D} _.
Arguments o_localID {D} _.
Arguments o_client_order_id {D} _.
Arguments o_pendingcancel_newqty {D} _.
Arguments o_listener {D} _.
Arguments o_exchangeID {D} _.
Arguments o_last_response_time {D} _.
Arguments o_filled_size {D} _.
Arguments o_open_size {D} _.
Arguments o_cancelled_size {D} _.
Arguments o_total_value_paid {D} _.
Arguments o_last_fill_fee_code {D} _.
Arguments o_last_exchange_time {D} _.

#[export] Instance Order_rebuild {D} : Rebuild (Order D) := λ r,
  mkOrder (o_kind r) (o_instrument r) (o_original_price r) (o_price r) (o_size r)
    (o_side r) (o_tif r) (o_type r) (o_userdata r) (o_creation_time r) (o_state r)
    (o_session r) (o_sent_time r) (o_last_request_time r) (o_local_account r)
    (o_localID r) (o_client_order_id r) (o_pendingcancel_newqty r) (o_listener r)
    (o_exchangeID r) (o_last_response_time r) (o_filled_size r) (o_open_size r)
    (o_cancelled_size r) (o_total_value_paid r) (o_last_fill_fee_code r)
    (o_last_exchange_time r).

Definition kind_market (k : OrderKind) : MIC :=
  match k with
  | NYSEOrder => XNYS | NASDAQOrder _ => XNAS | ARCAOrder => ARCX | BATSOrder _ => BATS
  end.
(** Every derived [validate()] returns true. *)
Definition kind_validate (k : OrderKind) : bool :=
  match k with
  | NYSEOrder => true | NASDAQOrder _ => true | ARCAOrder => true | BATSOrder _ => true
  end.

Section Order.
Context {D : Type} `{Dbl D}.
Implicit Types o : Order D.

(** The constructor; [now] is what [Timestamp::now()] returned. *)
Definition Order_new (now : Timestamp) (kind : OrderKind) (instrument : Z)
    (orig_price : D) (size : Z) (side : Side) (tif : TimeInForce)
    (type : OrderType) (listener : option Z) (userdata : Z) : Order D := {|
  o_kind := kind;
  o_instrument := instrument;
  o_original_price := orig_price;
  o_price := orig_price;
  o_size := size;
  o_side := side;
  o_tif := tif;
  o_type := type;
  o_userdata := userdata;
  o_creation_time := now;
  o_state := NEW_AND_UNSENT;
  o_session := None;
  o_sent_time := ts_zero;
  o_last_request_time := ts_zero;
  o_local_account := 0;
  o_localID := 0;
  o_client_order_id := replicate CLIENT_ORDER_ID_LENGTH 32;
  o_pendingcancel_newqty := u32_max;
  o_listener := listener;
  o_exchangeID := 0;
  o_last_response_time := ts_zero;
  o_filled_size := 0;
  o_open_size := 0;
  o_cancelled_size := 0;
  o_total_value_paid := d0;
  o_last_fill_fee_code := FFC_UNKNOWN;
  o_last_exchange_time := 0
|}.

(** The copy constructor: the mutex, the last request time and the pending
    cancel quantity are fresh, and [m_listener] is not initialised: its value
    is whatever the memory held ([indeterminate]). *)
Definition Order_copy (indeterminate : option Z) o : Order D :=
  o <| o_last_request_time := ts_zero |>
    <| o_pendingcancel_newqty := u32_max |>
    <| o_listener := indeterminate |>.

Definition o_market o : MIC := kind_market (o_kind o).
Definition o_validate o : bool := kind_validate (o_kind o).

Definition is_terminal o : bool :=
  (o_open_size o =? 0)
  || bool_decide (o_state o = LOCALLY_REJECTED)
  || bool_decide (o_state o = REMOTELY_REJECTED)
  || bool_decide (o_state o = CANCELLED)
  || bool_decide (o_state o = FILLED)
  || bool_decide (o_state o = NEW_AND_UNSENT)
  || bool_decide (o_state o = CANCEL_REPLACED)
  || bool_decide (o_state o = OS_UNKNOWN).

Definition is_open o : bool :=
  negb (bool_decide (o_state o = NEW_AND_UNSENT)) && negb (is_terminal o).

Definition unsent o : bool := bool_decide (o_state o = NEW_AND_UNSENT).

Definition mean_fill_price o : D :=
  (o_total_value_paid o / d_of_Z (o_filled_size o))%dbl.

Definition listener_or_default o (default_listener : option Z) : option Z :=
  match o_listener o with Some l => Some l | None => default_listener end.

(** [client_order_id(const std::array<..., N>&)]: overwrites the prefix. *)
Definition set_client_order_id o (clordid : list Z) : Order D :=
  let m := Nat.min (length clordid) CLIENT_ORDER_ID_LENGTH in
  o <| o_client_order_id := take m clordid ++ drop m (o_client_order_id o) |>.

(** [std::numeric_limits<double>::epsilon()] is 2^-52. *)
Definition price_epsilon : D := d_lit 1 4503599627370496.

Definition validate_base o : bool :=
  unsent o
  && (d0 + price_epsilon <? o_price o)%dbl
  && (0 <? o_size o)
  && negb (bool_decide (o_side o = SIDE_UNKNOWN))
  && negb (bool_decide (o_tif o = TIF_UNKNOWN))
  && negb (bool_decide (o_type o = OT_UNKNOWN)).

Lemma validate_base_unsent o : validate_base o = true → o_state o = NEW_AND_UNSENT.
Proof. unfold validate_base, unsent. intros. by bools. Qed.

Lemma validate_base_size o : validate_base o = true → 0 < o_size o.
Proof. unfold validate_base. intros. by bools. Qed.

Lemma take_client_order_id o token n : length token = n → (n <= CLIENT_ORDER_ID_LENGTH)%nat →
  take n (o_client_order_id (set_client_order_id o token)) = token.
Proof.
  intros <- Hn. unfold set_client_order_id. rewrite Nat.min_l by done. cbn [o_client_order_id set_field].
  rewrite firstn_all. apply take_app_length.
Qed.

Lemma is_open_terminal o : is_open o = true → is_terminal o = false.
Proof. unfold is_open. intros. by bools. Qed.
End Order.

#[export] Hint Resolve validate_base_unsent validate_base_size is_open_terminal : i01.
