(* ===== verification/Boe20Attr.v ===== *)
(** * Attributes of BOE orders (src/oe/BOE20Order.cpp)

    The fields of an order for BATS that its sender names by text:
    [tag=value] with the value in the characters of the protocol. *)

From S2P Require Import Prelude Dbl Time Types Order.
From Stdlib Require Import Ascii.
Open Scope Z_scope.

Definition char_code (c : ascii) : Z := Z.of_nat (nat_of_ascii c).
(** [toupper], in the C locale. *)
Definition toupper (c : ascii) : ascii :=
  let n := nat_of_ascii c in
  if (97 <=? n)%nat && (n <=? 122)%nat then ascii_of_nat (n - 32) else c.
Fixpoint to_upper (s : string) : string :=
  match s with EmptyString => EmptyString | String c s => String (toupper c) (to_upper s) end.
(** [s[0]], which is 0 for the empty string. *)
Definition first_char (s : string) : Z :=
  match s with EmptyString => 0 | String c _ => char_code c end.

(** The enumerators, as their characters. *)
Definition DisplayIndicators : list Z :=
  [0; 86 (* V *); 80 (* P *); 109 (* m *); 82 (* R *); 114 (* r *); 83 (* S *); 76 (* L *);
   77 (* M *); 72 (* H *); 118 (* v *); 73 (* I *); 78 (* N *)].
Definition RoutingInstFirstChars : list Z :=
  [0; 66 (* B *); 80 (* P *); 81 (* Q *); 82 (* R *); 83 (* S *); 88 (* X *); 75 (* K *); 65 (* A *)].
Definition RoutingInstSecondChars : list Z := [0; 68 (* D *); 76 (* L *)].

Definition boe_display_indicator (value : string) (be : BOEFields) : bool * BOEFields :=
  match value with
  | String c EmptyString =>
      if bool_decide (char_code c ∈ DisplayIndicators)
      then (true, be <| be_display_indicator := char_code c |>) else (false, be)
  | _ => (false, be)
  end.
Definition boe_routing_inst (value : string) (be : BOEFields) : bool * BOEFields :=
  match value with
  | String c EmptyString =>
      if bool_decide (char_code c ∈ RoutingInstFirstChars)
      then (true, be <| be_routing_inst := [char_code c; 0; 0; 0] |>) else (false, be)
  | String c (String c2 EmptyString) =>
      if bool_decide (char_code c ∈ RoutingInstFirstChars)
         && bool_decide (char_code c2 ∈ RoutingInstSecondChars)
      then (true, be <| be_routing_inst := [char_code c; char_code c2; 0; 0] |>) else (false, be)
  | _ => (false, be)
  end.
(** A tag it does not know is accepted. *)
Definition set_attribute (name value : string) (be : BOEFields) : bool * BOEFields :=
  let nn := to_upper name in
  if bool_decide (nn = "DISPLAYINDICATOR") || bool_decide (nn = "DISPIND")
  then boe_display_indicator value be
  else if bool_decide (nn = "ROUTINGINST") then boe_routing_inst value be
  else (true, be).

Definition set_order_attribute {D} (name value : string) (o : Order D) : bool * Order D :=
  match o_kind o with
  | BATSOrder be => let '(ok, be) := set_attribute name value be in (ok, o <| o_kind := BATSOrder be |>)
  | _ => (false, o)
  end.
