(* ===== verification/Position.v ===== *)
(** * Positions (src/oe/i01_oe/Position.hpp, src/oe/Position.cpp)

    The position the engine holds in one instrument: the traded quantity with
    its profit and loss, the exposure of the open orders, the locates and the
    positions reported by the other engines. *)

From S2P Require Import Prelude Dbl Types.
From Stdlib Require Import Qcanon Ring Field.
Open Scope Z_scope.

Definition c_MIN_ENGINE_ID : Z := 1.
Definition c_MAX_ENGINE_ID : Z := 7.
Definition LOCATES_REMAINING_SENTINEL : Z := i64_min.

Record RemotePosition (D : Type) := mkRemote {
  rp_trading_quantity : Z;
  rp_vwap : D;
  rp_mark : D;
  rp_locates_remaining : Z;
  rp_locates_used : Z
}.
Arguments mkRemote {D}.
Arguments rp_trading_quantity {D} _.
Arguments rp_vwap {D} _.
Arguments rp_mark {D} _.
Arguments rp_locates_remaining {D} _.
Arguments rp_locates_used {D} _.

Record Position (D : Type) := mkPosition {
  p_trading_quantity : Z;
  p_start_quantity : Z;
  p_open_long_size : Z;
  p_open_short_size : Z;
  p_open_long_exposure : D;
  p_open_short_exposure : D;
  p_realized : D;
  p_unrealized : D;
  p_vwap : D;
  p_mark : D;
  p_prior_adjusted_close : D;
  p_locates_remaining : Z;
  p_locates_used : Z;
  p_norecycle : bool;
  p_remote_trading_quantity : Z;
  p_remote_vwap : D;
  p_remote_positions : list (RemotePosition D)
}.
Arguments mkPosition {D}.
Arguments p_trading_quantity {D} _.
Arguments p_start_quantity {D} _.
Arguments p_open_long_size {D} _.
Arguments p_open_short_size {D} _.
Arguments p_open_long_exposure {D} _.
Arguments p_open_short_exposure {D} _.
Arguments p_realized {D} _.
Arguments p_unrealized {D} _.
Arguments p_vwap {D} _.
Arguments p_mark {D} _.
Arguments p_prior_adjusted_close {D} _.
Arguments p_locates_remaining {D} _.
Arguments p_locates_used {D} _.
Arguments p_norecycle {D} _.
Arguments p_remote_trading_quantity {D} _.
Arguments p_remote_vwap {D} _.
Arguments p_remote_positions {D} _.

#[export] Instance Position_rebuild {D} : Rebuild (Position D) := λ r,
  mkPosition (p_trading_quantity r) (p_start_quantity r) (p_open_long_size r)
    (p_open_short_size r) (p_open_long_exposure r) (p_open_short_exposure r)
    (p_realized r) (p_unrealized r) (p_vwap r) (p_mark r) (p_prior_adjusted_close r)
    (p_locates_remaining r) (p_locates_used r) (p_norecycle r)
    (p_remote_trading_quantity r) (p_remote_vwap r) (p_remote_positions r).

Section Position.
Context {D : Type} `{Dbl D}.
Implicit Types p : Position D.

Definition Remote_new : RemotePosition D :=
  {| rp_trading_quantity := 0; rp_vwap := d0; rp_mark := d0;
     rp_locates_remaining := 0; rp_locates_used := 0 |}.

Definition Position_new (startq : Z) (adj_close : D) : Position D := {|
  p_trading_quantity := startq;
  p_start_quantity := startq;
  p_open_long_size := 0;
  p_open_short_size := 0;
  p_open_long_exposure := d0;
  p_open_short_exposure := d0;
  p_realized := d0;
  p_unrealized := d0;
  p_vwap := d0;
  p_mark := d0;
  p_prior_adjusted_close := adj_close;
  p_locates_remaining := LOCATES_REMAINING_SENTINEL;
  p_locates_used := 0;
  p_norecycle := false;
  p_remote_trading_quantity := 0;
  p_remote_vwap := d0;
  p_remote_positions := replicate (Z.to_nat (c_MAX_ENGINE_ID + 1)) Remote_new
|}.

Definition quantity p : Z := p_trading_quantity p.
Definition remote_quantity p : Z := p_remote_trading_quantity p.

(** [notional] is the value of the position at the last mark. *)
Definition notional p : D := (p_mark p * d_of_Z (p_trading_quantity p))%dbl.

Definition start_of_day_long_exposure p : D :=
  if 0 <? p_start_quantity p
  then (d_of_Z (p_start_quantity p) * p_prior_adjusted_close p)%dbl else d0.
Definition start_of_day_short_exposure p : D :=
  if p_start_quantity p <? 0
  then (d_of_Z (p_start_quantity p) * p_prior_adjusted_close p)%dbl else d0.
Definition long_open_exposure p : D :=
  (p_open_long_exposure p + start_of_day_long_exposure p)%dbl.
Definition short_open_exposure p : D :=
  (p_open_short_exposure p + start_of_day_short_exposure p)%dbl.

Definition add_trading_quantity (q : Z) p : Position D :=
  p <| p_trading_quantity := i64 (p_trading_quantity p + q) |>.
Definition sub_trading_quantity (q : Z) p : Position D :=
  p <| p_trading_quantity := i64 (p_trading_quantity p - q) |>.

Definition add_open_buys (px : D) (s : Z) p : Position D :=
  p <| p_open_long_size := u32 (p_open_long_size p + s) |>
    <| p_open_long_exposure := (p_open_long_exposure p + d_of_Z s * px)%dbl |>.
Definition sub_open_buys (px : D) (s : Z) p : res (Position D) :=
  _ ← assert "m_open_long_size >= s" (s <=? p_open_long_size p);
  Ok (p <| p_open_long_size := u32 (p_open_long_size p - s) |>
        <| p_open_long_exposure := (p_open_long_exposure p - d_of_Z s * px)%dbl |>).
Definition add_open_sells (px : D) (s : Z) p : Position D :=
  p <| p_open_short_size := u32 (p_open_short_size p + s) |>
    <| p_open_short_exposure := (p_open_short_exposure p - d_of_Z s * px)%dbl |>.
Definition sub_open_sells (px : D) (s : Z) p : res (Position D) :=
  _ ← assert "m_open_short_size >= s" (s <=? p_open_short_size p);
  Ok (p <| p_open_short_size := u32 (p_open_short_size p - s) |>
        <| p_open_short_exposure := (p_open_short_exposure p + d_of_Z s * px)%dbl |>).

Definition on_update_mark (px : D) p : Position D :=
  p <| p_mark := px |>
    <| p_unrealized := ((px - p_vwap p) * d_of_Z (p_trading_quantity p))%dbl |>.

(** [update_realized_and_unrealized_pnl]: the six cases, buy or sell, that
    enter, (partly) close, or reverse the position.  The pair computed first
    is the new realized profit and the new volume-weighted price. *)
Definition update_realized_and_unrealized_pnl
    (side : Side) (size : Z) (price fee : D) p : Position D :=
  let q := p_trading_quantity p in
  let dq := d_of_Z q in
  let net := (price * d_of_Z size)%dbl in
  let '(new_pos, realized, vwap) :=
    if is_buy side then
      let net_delta := (net + fee)%dbl in
      let new_pos := i64 (q + size) in
      if 0 <=? q then
        (new_pos, p_realized p, ((dq * p_vwap p + net_delta) / d_of_Z new_pos)%dbl)
      else if new_pos <=? 0 then
        (new_pos, (p_realized p + (p_vwap p - price) * d_of_Z size)%dbl,
         if 0 =? new_pos then d0 else p_vwap p)
      else
        (new_pos, (p_realized p + (p_vwap p - price) * - dq)%dbl, price)
    else
      let net_delta := (net - fee)%dbl in
      let new_pos := i64 (q - size) in
      if q <=? 0 then
        (new_pos, p_realized p, ((net_delta - dq * p_vwap p) / - d_of_Z new_pos)%dbl)
      else if 0 <=? new_pos then
        (new_pos, (p_realized p + (price - p_vwap p) * d_of_Z size)%dbl,
         if 0 =? new_pos then d0 else p_vwap p)
      else
        (new_pos, (p_realized p + (price - p_vwap p) * dq)%dbl, price) in
  p <| p_mark := price |>
    <| p_realized := realized |>
    <| p_vwap := vwap |>
    <| p_unrealized := ((price - vwap) * d_of_Z new_pos)%dbl |>
    <| p_trading_quantity := new_pos |>.

(** The remote engines that the loops over [c_MIN_ENGINE_ID .. c_MAX_ENGINE_ID] visit. *)
Definition remote_range p : list (RemotePosition D) := drop 1 (p_remote_positions p).
Definition calc_remote_quantity p : Z :=
  foldl (λ ret r, i64 (ret + rp_trading_quantity r)) 0 (remote_range p).
Definition calc_remote_vwap p : D :=
  foldl (λ ret r, ret + d_of_Z (rp_trading_quantity r) * rp_vwap r)%dbl d0 (remote_range p).

(** [auto oldq = rempos.trading_quantity = qty;] makes [oldq] the new quantity. *)
Definition update_remote_position (source qty : Z) (avg_px mark_px : D)
    (locates_remaining locates_used : Z) p : Position D :=
  if (c_MIN_ENGINE_ID <=? source) && (source <=? c_MAX_ENGINE_ID) then
    let oldq := qty in
    let rempos := mkRemote qty avg_px mark_px locates_remaining locates_used in
    let p1 := p <| p_remote_positions := <[Z.to_nat source := rempos]> (p_remote_positions p) |>
                <| p_remote_trading_quantity :=
                     i64 (p_remote_trading_quantity p + i64 (qty - oldq)) |> in
    p1 <| p_remote_vwap := calc_remote_vwap p1 |>
  else p.
End Position.

(** ** What the bookkeeping of fills means

    Stated in the reference arithmetic: the accounting identities that
    [update_realized_and_unrealized_pnl] and [on_update_mark] are written for. *)

(** The two operations that change profit and loss. *)
Inductive PosEvent :=
| PosFill (side : Side) (size : Z) (price fee : Qc)
| PosMark (price : Qc).

Definition pos_step (p : Position Qc) (e : PosEvent) : Position Qc :=
  match e with
  | PosFill side size price fee => update_realized_and_unrealized_pnl side size price fee p
  | PosMark price => on_update_mark price p
  end.
Definition pos_run (p : Position Qc) (es : list PosEvent) : Position Qc :=
  foldl pos_step p es.

(** The signed quantity, buys positive. *)
Definition signed (side : Side) (size : Z) : Z := if is_buy side then size else - size.

(** The quantity fits the 64-bit counter and the size is that of a fill. *)
Definition event_ok (q : Z) (e : PosEvent) : Prop :=
  match e with
  | PosFill side size _ _ => 0 < size /\ in_i 64 (q + signed side size)
  | PosMark _ => True
  end.
Definition event_qty (e : PosEvent) : Z :=
  match e with PosFill side size _ _ => signed side size | PosMark _ => 0 end.

(** A fill enters when it does not reduce the position. *)
Definition enters (side : Side) (q : Z) : bool :=
  if is_buy side then 0 <=? q else q <=? 0.

(** The cash that an event costs, fees included, and what of it the code never counts:
    the fee of a fill that closes or reverses. *)
Definition event_cash (e : PosEvent) : Qc :=
  match e with
  | PosFill side size price fee => (qc_of_Z (signed side size) * price + fee)%Qc
  | PosMark _ => 0%Qc
  end.
Definition event_uncounted (q : Z) (e : PosEvent) : Qc :=
  match e with
  | PosFill side _ _ fee => if enters side q then 0%Qc else fee
  | PosMark _ => 0%Qc
  end.
Definition event_booked (q : Z) (e : PosEvent) : Qc := (event_cash e - event_uncounted q e)%Qc.

(** Profit with the open position carried at its volume-weighted price. *)
Definition cash (p : Position Qc) : Qc :=
  (p_realized p - p_vwap p * qc_of_Z (p_trading_quantity p))%Qc.
Definition marked (p : Position Qc) : Prop :=
  p_unrealized p = ((p_mark p - p_vwap p) * qc_of_Z (p_trading_quantity p))%Qc.

Lemma i64_small z : in_i 64 z → i64 z = z.
Proof. by apply swrap_small. Qed.
#[export] Hint Resolve i64_small : i01.

Lemma qc_of_Z_1 : qc_of_Z 1 = 1%Qc.
Proof. by apply Qc_is_canon. Qed.

Lemma qc_div_mul (x y : Qc) : y ≠ 0%Qc → (x / y * y)%Qc = x.
Proof. intros. field. done. Qed.
Lemma qc_div_opp_mul (x y : Qc) : y ≠ 0%Qc → (x / - y * y)%Qc = (- x)%Qc.
Proof.
  intros Hy. rewrite <- (qc_div_mul x (- y)%Qc) at 2; [ring|].
  intros Hz. apply Hy. rewrite <- (Qcopp_involutive y), Hz. ring.
Qed.

Lemma event_booked_is q e : event_booked q e =
  match e with
  | PosFill side size price fee => (qc_of_Z (signed side size) * price + (if enters side q then fee else 0))%Qc
  | PosMark _ => 0%Qc
  end.
Proof. destruct e; unfold event_booked; cbn; [destruct (enters _ _)|]; ring. Qed.
(** One event: quantity, cash and the marked-to-market invariant. *)
Lemma pos_step_spec p e :
  event_ok (p_trading_quantity p) e →
  p_trading_quantity (pos_step p e) = p_trading_quantity p + event_qty e
  /\ cash (pos_step p e) = (cash p - event_booked (p_trading_quantity p) e)%Qc
  /\ marked (pos_step p e).
Proof.
  rewrite event_booked_is. destruct e as [side size price fee|price]; cbn.
  - intros [Hsize Hrange]. unfold cash, marked, update_realized_and_unrealized_pnl, enters, signed in *.
    set (q := p_trading_quantity p) in *.
    destruct (is_buy side); cbn -[qc_of_Z swrap Z.eqb].
    + rewrite (i64_small _ Hrange).
      destruct (0 <=? q) eqn:Hq; [|destruct (q + size <=? 0) eqn:Hn]; bools; cbn -[qc_of_Z swrap Z.eqb].
      * repeat split; ideal_unfold. rewrite qc_div_mul by (apply qc_of_Z_nonzero; lia).
        rewrite ?qc_of_Z_add. ring.
      * destruct (0 =? q + size) eqn:Hz; bools; repeat split; ideal_unfold.
        -- rewrite <- Hz, qc_of_Z_0. assert (q = - size) as -> by lia.
           rewrite qc_of_Z_opp. ring.
        -- rewrite qc_of_Z_add. ring.
      * repeat split; ideal_unfold. rewrite qc_of_Z_add. ring.
    + assert (in_i 64 (q - size)) as Hr by (unfold in_i in *; lia).
      rewrite (i64_small _ Hr).
      destruct (q <=? 0) eqn:Hq; [|destruct (0 <=? q - size) eqn:Hn]; bools; cbn -[qc_of_Z swrap Z.eqb].
      * repeat split; try lia; ideal_unfold.
        rewrite qc_div_opp_mul by (apply qc_of_Z_nonzero; lia).
        rewrite ?qc_of_Z_opp. ring.
      * destruct (0 =? q - size) eqn:Hz; bools; repeat split; try lia; ideal_unfold.
        -- rewrite <- Hz, qc_of_Z_0. assert (q = size) as -> by lia. rewrite qc_of_Z_opp. ring.
        -- rewrite qc_of_Z_sub, qc_of_Z_opp. ring.
      * repeat split; try lia; ideal_unfold. rewrite qc_of_Z_sub, qc_of_Z_opp. ring.
  - intros _. unfold cash, marked. cbn. repeat split; [lia|].
    ideal_unfold. ring.
Qed.

(** The side conditions and the cash flow of a run. *)
Fixpoint events_ok (q : Z) (es : list PosEvent) : Prop :=
  match es with
  | [] => True
  | e :: es' => event_ok q e /\ events_ok (q + event_qty e) es'
  end.
Fixpoint cash_flow (es : list PosEvent) : Qc :=
  match es with [] => 0%Qc | e :: es' => (event_cash e + cash_flow es')%Qc end.
Fixpoint fees_uncounted (q : Z) (es : list PosEvent) : Qc :=
  match es with
  | [] => 0%Qc
  | e :: es' => (event_uncounted q e + fees_uncounted (q + event_qty e) es')%Qc
  end.
Fixpoint qty_flow (es : list PosEvent) : Z :=
  match es with [] => 0 | e :: es' => event_qty e + qty_flow es' end.

Lemma pos_run_spec es : ∀ p,
  marked p → events_ok (p_trading_quantity p) es →
  p_trading_quantity (pos_run p es) = p_trading_quantity p + qty_flow es
  /\ cash (pos_run p es) = (cash p - (cash_flow es - fees_uncounted (p_trading_quantity p) es))%Qc
  /\ marked (pos_run p es).
Proof.
  induction es as [|e es IH]; intros p Hm Hok; cbn.
  - repeat split; [lia| |done]. ring.
  - destruct Hok as [He Hes]. destruct (pos_step_spec p e He) as (Hq & Hc & Hm').
    rewrite <- Hq in Hes. destruct (IH _ Hm' Hes) as (Hq' & Hc' & Hm'').
    unfold pos_run in *; cbn. split; [lia|]. split; [|done].
    rewrite Hc', Hc, Hq. unfold event_booked. ring.
Qed.

(** C30: Profit and loss conservation, in exact arithmetic.  After any sequence of
    fills (entering, closing, reversing) and marks, the quantity is the start
    quantity plus the signed fills, and the realized plus the unrealized profit is
    the value of the position at the last mark, less what the fills cost, fees
    included, plus the fees that the code does not count: it charges the fee of a
    fill that enters a position, and not that of one that closes or reverses it,
    although its comment calls the profits net of fee. *)
Theorem pnl_conservation (startq : Z) (adj_close : Qc) (es : list PosEvent)
    (Hok : events_ok startq es) :
  let p := pos_run (Position_new startq adj_close) es in
  p_trading_quantity p = startq + qty_flow es
  /\ (p_realized p + p_unrealized p)%Qc
     = (p_mark p * qc_of_Z (startq + qty_flow es) - cash_flow es + fees_uncounted startq es)%Qc.
Proof.
  intros p. assert (marked (Position_new startq adj_close)) as Hm.
  { unfold marked; cbn. ideal_unfold. ring. }
  destruct (pos_run_spec es (Position_new startq adj_close) Hm Hok) as (Hq & Hc & Hm').
  fold p in Hq, Hc, Hm'. cbn in Hq, Hc. split; [done|].
  rewrite Hm', <- Hq. unfold cash in Hc at 1. unfold cash in Hc; cbn in Hc.
  assert (p_realized p =
    (fees_uncounted startq es - cash_flow es + p_vwap p * qc_of_Z (p_trading_quantity p))%Qc) as ->; [|ring].
  apply (f_equal (λ x, x + p_vwap p * qc_of_Z (p_trading_quantity p))%Qc) in Hc.
  ideal_unfold. ring_simplify in Hc. rewrite Hc. ring.
Qed.

(** A sale of 150 for a fee of 2, which reverses the position, is not charged. *)
Lemma pnl_conservation_witness :
  let es := [PosFill BUY 100 (qc_of_Z 10) (qc_of_Z 1); PosFill SELL 150 (qc_of_Z 12) (qc_of_Z 2);
     PosMark (qc_of_Z 11)] in
  let p := pos_run (Position_new 0 0%Qc) es in
  p_trading_quantity p = -50 /\ fees_uncounted 0 es = qc_of_Z 2
  /\ (p_realized p + p_unrealized p)%Qc = qc_of_Z 249.
Proof.
  intros es p. assert (Hok : events_ok 0 es) by z_compute.
  destruct (pnl_conservation 0 0%Qc es Hok) as [Hq Hp].
  split; [exact Hq|]. split; [apply Qc_is_canon; vm_compute; reflexivity|].
  unfold p. rewrite Hp. apply Qc_is_canon. vm_compute. reflexivity.
Defined.

(** ** Open orders *)

Section OpenOrders.
Context {D : Type} `{Dbl D}.
Implicit Types p : Position D.

(** What [FirmRiskCheck] adds for an order and takes away again, by side. *)
Definition add_open (side : Side) (px : D) (s : Z) p : Position D :=
  if is_buy side then add_open_buys px s p else add_open_sells px s p.
Definition sub_open (side : Side) (px : D) (s : Z) p : res (Position D) :=
  if is_buy side then sub_open_buys px s p else sub_open_sells px s p.
Definition open_size_of (side : Side) p : Z :=
  if is_buy side then p_open_long_size p else p_open_short_size p.

Lemma add_open_size side px s p :
  open_size_of side (add_open side px s p) = u32 (open_size_of side p + s).
Proof. unfold open_size_of, add_open. by destruct (is_buy side). Qed.

Lemma add_open_other side px s p :
  p_trading_quantity (add_open side px s p) = p_trading_quantity p
  /\ p_mark (add_open side px s p) = p_mark p.
Proof. unfold add_open. by destruct (is_buy side). Qed.

(** [sub_open] succeeds exactly when the open size covers it. *)
Lemma sub_open_Ok side px s p p' :
  sub_open side px s p = Ok p' ↔
  s <= open_size_of side p
  /\ p' = (if is_buy side
     then p <| p_open_long_size := u32 (p_open_long_size p - s) |>
            <| p_open_long_exposure := (p_open_long_exposure p - d_of_Z s * px)%dbl |>
     else p <| p_open_short_size := u32 (p_open_short_size p - s) |>
            <| p_open_short_exposure := (p_open_short_exposure p + d_of_Z s * px)%dbl |>).
Proof.
  unfold sub_open, open_size_of. destruct (is_buy side);
    [unfold sub_open_buys|unfold sub_open_sells]; unfold assert;
    (destruct (s <=? _) eqn:Hs; bools; cbn);
    (split; [by intros [= <-]|by intros [? ->]]) ||
    (split; [discriminate|intros [? _]; lia]).
Qed.
End OpenOrders.

(** [update_remote_position] stores the remote engine's quantity but never
    moves [remote_quantity()]: the old quantity is overwritten before the
    difference is taken, so position limits and locates, which read
    [remote_quantity()], ignore every report. *)
Theorem remote_quantity_never_updated `{Dbl D} (p : Position D)
    (source qty : Z) (avg_px mark_px : D) (lr lu : Z)
    (Hsrc : c_MIN_ENGINE_ID <= source <= c_MAX_ENGINE_ID)
    (Hlen : length (p_remote_positions p) = 8%nat)
    (Hq : in_i 64 (p_remote_trading_quantity p)) :
  let p' := update_remote_position source qty avg_px mark_px lr lu p in
  remote_quantity p' = remote_quantity p
  /\ rp_trading_quantity <$> p_remote_positions p' !! Z.to_nat source = Some qty.
Proof.
  unfold c_MIN_ENGINE_ID, c_MAX_ENGINE_ID in *. unfold update_remote_position.
  rewrite (proj2 (andb_true_iff _ _)) by (split; apply Z.leb_le; unfold c_MIN_ENGINE_ID, c_MAX_ENGINE_ID; lia).
  split.
  - unfold remote_quantity. cbn -[swrap Z.sub Z.add]. rewrite Z.sub_diag.
    rewrite (i64_small 0) by z_compute. rewrite Z.add_0_r. by apply i64_small.
  - cbn -[lookup insert fmap]. rewrite list_lookup_insert_eq; [done|]. rewrite Hlen. lia.
Qed.

Lemma remote_quantity_never_updated_witness :
  let p' := update_remote_position 2 500 (d_of_Z 10) (d_of_Z 11) 0 0 (Position_new 0 d0)
    : Position Qc in
  remote_quantity p' = 0 /\ calc_remote_quantity p' = 500.
Proof.
  intros p'. split; [|reflexivity].
  refine (proj1 (remote_quantity_never_updated (Position_new 0 d0) 2 500 _ _ 0 0 _ _ _)).
  - vm_compute; split; discriminate.
  - reflexivity.
  - z_compute.
Defined.
