(* ===== verification/Config.v ===== *)
(** * Configuration (src/core/i01_core/Config.hpp, src/core/Config.cpp)

    [ConfigState] is a sorted map from dotted keys to strings with the prefix
    it was cut from and a version.  The typed reads convert with
    [boost::lexical_cast], which is a parameter: a partial function from the
    text, [None] where it throws [bad_lexical_cast].  [Config] is the shared
    state that whole snapshots are published to. *)

From S2P Require Import Prelude.

Record ConfigState := mkCS {
  cs_map : gmap string string;
  cs_prefix : string;
  cs_version : Z
}.

#[export] Instance ConfigState_rebuild : Rebuild ConfigState := λ r,
  mkCS (cs_map r) (cs_prefix r) (cs_version r).

(** [ConfigState::create()] *)
Definition cs_create (m : gmap string string) (prefix : string) : ConfigState :=
  mkCS m prefix 0.

(** ** Typed reads *)

Section Get.
Context {T : Type} (lexical_cast : string → option T).

(** [get(key)]: a missing key and text that does not convert are both none. *)
Definition cs_get (cs : ConfigState) (key : string) : option T :=
  cs_map cs !! key ≫= lexical_cast.

(** [get(key, destination)]: whether it was found, and the destination after. *)
Definition cs_get_into (cs : ConfigState) (key : string) (destination : T) : bool * T :=
  match cs_get cs key with
  | Some v => (true, v)
  | None => (false, destination)
  end.

Definition cs_get_or_default (cs : ConfigState) (key : string) (default_value : T) : T :=
  match cs_get cs key with Some result => result | None => default_value end.

(** The destination that a default-setting read leaves. *)
Definition cs_read (cs : ConfigState) (key : string) (destination : T) : T :=
  (cs_get_into cs key destination).2.
End Get.

(** ** Prefix domains *)

(** The rest of [k] after [p], when [k] starts with [p]. *)
Fixpoint strip_prefix (p k : string) : option string :=
  match p, k with
  | EmptyString, _ => Some k
  | String a p', String b k' => if bool_decide (a = b) then strip_prefix p' k' else None
  | String _ _, EmptyString => None
  end.

(** [emplace]: inserts unless the key is already there. *)
Definition emplace (k v : string) (m : gmap string string) : gmap string string :=
  match m !! k with Some _ => m | None => <[k := v]> m end.

Definition copy_prefix_domain (cs : ConfigState) (prefix : string) : ConfigState :=
  mkCS
    (map_fold (λ k v acc,
       match strip_prefix prefix k with
       | Some k' => emplace k' v acc
       | None => acc
       end) ∅ (cs_map cs))
    (cs_prefix cs +:+ prefix)
    (cs_version cs).

(** [substr(0, find(delimiter))]: up to the delimiter, all of it when absent. *)
Fixpoint up_to (delimiter : Ascii.ascii) (k : string) : string :=
  match k with
  | EmptyString => EmptyString
  | String c k' =>
      if bool_decide (c = delimiter) then EmptyString else String c (up_to delimiter k')
  end.

(** The code's default delimiter is the dot. *)
Definition dot : Ascii.ascii := Ascii.ascii_of_nat 46.

Definition get_key_prefix_set (cs : ConfigState) (delimiter : Ascii.ascii) : gset string :=
  map_fold (λ k _ acc, {[ up_to delimiter k ]} ∪ acc) ∅ (cs_map cs).

(** ** The shared configuration *)

(** [m_listeners] are the subscribers in the order the set is walked; an
    update notifies each with the old and the new state. *)
Record Config := mkConfig {
  cfg_storage : ConfigState;
  cfg_listeners : list Z
}.

#[export] Instance Config_rebuild : Rebuild Config := λ r,
  mkConfig (cfg_storage r) (cfg_listeners r).

Definition Config_new : Config := mkConfig (cs_create ∅ "") [].

Definition cfg_subscribe (lp : Z) (c : Config) : bool * Config :=
  if bool_decide (lp ∈ cfg_listeners c) then (false, c)
  else (true, c <| cfg_listeners := cfg_listeners c ++ [lp] |>).
Definition cfg_unsubscribe (lp : Z) (c : Config) : bool * Config :=
  (bool_decide (lp ∈ cfg_listeners c),
   c <| cfg_listeners := filter (λ l, l ≠ lp) (cfg_listeners c) |>).

(** A notification is [on_config_update(old, new)] of one listener. *)
Record Notification := mkNotification {
  n_listener : Z;
  n_old : ConfigState;
  n_new : ConfigState
}.

(** [Config::update]: a state with the same map is dropped. *)
Definition cfg_update (new_state : ConfigState) (c : Config) : list Notification * Config :=
  if bool_decide (cs_map (cfg_storage c) = cs_map new_state) then ([], c)
  else
    let old_state := cfg_storage c in
    let new_state := new_state <| cs_version := u64 (cs_version old_state + 1) |> in
    ((λ l, mkNotification l old_state new_state) <$> cfg_listeners c,
     c <| cfg_storage := new_state |>).

Definition load_strings (strs : gmap string string) (c : Config)
    : list Notification * Config :=
  cfg_update (cs_create (strs ∪ cs_map (cfg_storage c)) (cs_prefix (cfg_storage c))) c.

(** [load_environ]: the variables that start with the prefix, without it. *)
Definition load_environ (environment : list (string * string)) (prefix : string)
    (c : Config) : list Notification * Config :=
  let cs := foldl (λ m kv,
      match strip_prefix prefix kv.1 with
      | Some k => <[k := kv.2]> m
      | None => m
      end) (cs_map (cfg_storage c)) environment in
  cfg_update (cs_create cs (cs_prefix (cfg_storage c))) c.

(** The text after the last delimiter, all of it when absent
    ([find_last_of] and [substr(p + 1)]). *)
Fixpoint after_last (delimiter : Ascii.ascii) (k : string) : option string :=
  match k with
  | EmptyString => None
  | String c k' =>
      match after_last delimiter k' with
      | Some r => Some r
      | None => if bool_decide (c = delimiter) then Some k' else None
      end
  end.

Fixpoint last_char (s : string) : option Ascii.ascii :=
  match s with
  | EmptyString => None
  | String c EmptyString => Some c
  | String _ s' => last_char s'
  end.

(** [copy_key]: with an empty destination the code indexes position -1 of the
    string, which is undefined. *)
Definition copy_key (src_key dst_domain : string) (overwrite : bool)
    (delimiter : Ascii.ascii) (c : Config) : res (Z * list Notification * Config) :=
  let cs := cfg_storage c in
  match cs_map cs !! src_key with
  | None => Ok (0, [], c)
  | Some v =>
      let k := default src_key (after_last delimiter src_key) in
      match last_char dst_domain with
      | None => Fail (UndefinedBehaviour "dst_domain[size - 1] of an empty string")
      | Some l =>
          let dstk := if bool_decide (l = delimiter) then dst_domain +:+ k
                      else dst_domain +:+ String delimiter k in
          if negb overwrite && bool_decide (is_Some (cs_map cs !! dstk)) then Ok (0, [], c)
          else
            let '(ns, c') :=
              cfg_update (cs_create (<[dstk := v]> (cs_map cs)) (cs_prefix cs)) c in
            Ok (1, ns, c')
      end
  end.

(** ** Lemmas *)

Lemma strip_prefix_Some p k k' : strip_prefix p k = Some k' ↔ k = p +:+ k'.
Proof.
  revert k. induction p as [|a p IH]; intros k; cbn.
  - split; [by intros [= ->]|by intros ->].
  - destruct k as [|b k]; cbn; [split; discriminate|].
    case_bool_decide as Hab.
    + subst b. rewrite IH. split; [by intros ->|by intros [= ->]].
    + split; [discriminate|]. intros [= Heq _]. congruence.
Qed.

Lemma app_string_inj p k1 k2 : p +:+ k1 = p +:+ k2 → k1 = k2.
Proof.
  induction p as [|a p IH]; [done|].
  change (String a (p +:+ k1) = String a (p +:+ k2) → k1 = k2). intros [= H]. by apply IH.
Qed.

Lemma app_string_assoc p q k : (p +:+ q) +:+ k = p +:+ (q +:+ k).
Proof.
  induction p as [|a p IH]; [done|].
  change (String a ((p +:+ q) +:+ k) = String a (p +:+ (q +:+ k))). by rewrite IH.
Qed.

Lemma lookup_emplace k v m k' :
  emplace k v m !! k' = match m !! k' with
                        | Some v' => Some v'
                        | None => if bool_decide (k = k') then Some v else None
                        end.
Proof.
  unfold emplace. destruct (m !! k) as [v0|] eqn:Hk.
  - case_bool_decide; [subst; by rewrite Hk|]. by destruct (m !! k').
  - case_bool_decide as Hkk.
    + subst. by rewrite lookup_insert_eq, Hk.
    + rewrite lookup_insert_ne by done. by destruct (m !! k').
Qed.

(** A key of the domain is that key under the prefix. *)
Lemma copy_prefix_domain_lookup cs p k :
  cs_map (copy_prefix_domain cs p) !! k = cs_map cs !! (p +:+ k).
Proof.
  unfold copy_prefix_domain; cbn. revert k.
  apply (map_fold_weak_ind (λ acc m, ∀ k, acc !! k = m !! (p +:+ k))); [done|].
  intros k0 v m acc Hk0 IH k.
  destruct (strip_prefix p k0) as [k1|] eqn:Hs.
  - apply strip_prefix_Some in Hs as ->. rewrite lookup_emplace, IH.
    case_bool_decide as Hkk.
    + subst k1. by rewrite Hk0, lookup_insert_eq.
    + rewrite lookup_insert_ne; [by destruct (m !! (p +:+ k))|].
      intros ?%app_string_inj. congruence.
  - rewrite lookup_insert_ne; [apply IH|]. intros ->.
    by rewrite (proj2 (strip_prefix_Some p _ k) eq_refl) in Hs.
Qed.

Lemma elem_of_key_prefix_set cs d x :
  x ∈ get_key_prefix_set cs d ↔ ∃ k, is_Some (cs_map cs !! k) /\ x = up_to d k.
Proof.
  unfold get_key_prefix_set.
  apply (map_fold_weak_ind (λ acc m, x ∈ acc ↔ ∃ k, is_Some (m !! k) /\ x = up_to d k)).
  - split; [set_solver|]. intros (k & [? Hk] & _). by rewrite lookup_empty in Hk.
  - intros k v m acc Hk IH. rewrite elem_of_union, elem_of_singleton, IH. split.
    + intros [->|(k' & Hk' & ->)]; [exists k|exists k'].
      * by rewrite lookup_insert_eq.
      * destruct (decide (k = k')) as [->|]; [by rewrite lookup_insert_eq|].
        by rewrite lookup_insert_ne.
    + intros (k' & Hk' & ->). destruct (decide (k = k')) as [->|]; [by left|right].
      rewrite lookup_insert_ne in Hk' by done. eauto.
Qed.

Lemma get_prefix {T} (f : string → option T) cs p k :
  cs_get f (copy_prefix_domain cs p) k = cs_get f cs (p +:+ k).
Proof. unfold cs_get. by rewrite copy_prefix_domain_lookup. Qed.

#[export] Hint Rewrite @get_prefix copy_prefix_domain_lookup : i01.

(** ** Properties *)

(** Prefix domains compose: cutting out a domain and then a sub-domain of
    it is cutting out the concatenated prefix, with the prefix and the version
    carried along, and a typed read in a domain is the read of the full key. *)
Theorem prefix_domains_compose {T} (lexical_cast : string → option T)
    (cs : ConfigState) (p q key : string) :
  copy_prefix_domain (copy_prefix_domain cs p) q = copy_prefix_domain cs (p +:+ q)
  /\ cs_get lexical_cast (copy_prefix_domain (copy_prefix_domain cs p) q) key
     = cs_get lexical_cast cs (p +:+ q +:+ key).
Proof.
  split.
  - assert (∀ a b : ConfigState, cs_map a = cs_map b → cs_prefix a = cs_prefix b →
      cs_version a = cs_version b → a = b) as Hext by (intros [] []; cbn; congruence).
    apply Hext; [|cbn; by rewrite app_string_assoc|done].
    apply map_eq. intros k. by rewrite !copy_prefix_domain_lookup, app_string_assoc.
  - by rewrite !get_prefix.
Qed.

(** Publishing is observable exactly when the map changes: [update] bumps
    the version by one and notifies every subscriber once, with the old state
    and the very state that is then stored; otherwise it changes nothing. *)
Theorem config_update_notifies (c : Config) (new_state : ConfigState) :
  let '(ns, c') := cfg_update new_state c in
  cfg_listeners c' = cfg_listeners c
  /\ cs_map (cfg_storage c') = cs_map new_state
  /\ (cs_map new_state = cs_map (cfg_storage c) → ns = [] /\ c' = c)
  /\ (cs_map new_state ≠ cs_map (cfg_storage c) →
        cs_version (cfg_storage c') = u64 (cs_version (cfg_storage c) + 1)
        /\ n_listener <$> ns = cfg_listeners c
        /\ Forall (λ n, n_old n = cfg_storage c /\ n_new n = cfg_storage c') ns).
Proof.
  unfold cfg_update. case_bool_decide as Heq; cbn.
  - by repeat split; try done.
  - split; [done|]. split; [done|]. split; [intros He; by rewrite He in Heq|].
    intros _. split; [done|]. split.
    + rewrite <- list_fmap_compose. apply list_fmap_id.
    + apply Forall_fmap, Forall_forall. by intros.
Qed.

Lemma config_update_notifies_witness :
  let c := mkConfig (cs_create {["oe.x" := "1"]} "") [7; 9] in
  let '(ns, c') := cfg_update (cs_create {["oe.x" := "2"]} "") c in
  n_listener <$> ns = [7; 9] /\ cs_version (cfg_storage c') = 1.
Proof.
  intros c. pose proof (config_update_notifies c (cs_create {["oe.x" := "2"]} "")) as H.
  destruct (cfg_update _ c) as [ns c'] eqn:E.
  destruct H as (_ & _ & _ & H). destruct H as (H1 & H2 & _).
  - intros Heq. apply (f_equal (lookup "oe.x")) in Heq. discriminate Heq.
  - split; [exact H2|]. rewrite H1. reflexivity.
Defined.
