(* ===== verification/Instrument.v ===== *)
(** * Instruments (src/oe/i01_oe/Instrument.hpp, src/oe/i01_oe/EquityInstrument.hpp,
      src/oe/EquityInstrument.cpp, src/oe/EqInstUniverse.cpp)

    An equity instrument: its limits, its position, its queue of order times
    for the rate limit and its locates; the parameters read from the
    configuration; and [validate], the last check before an order is sent. *)

From S2P Require Import Prelude Dbl Time Types Order Position Config.
From Stdlib Require Import Qcanon.
Open Scope Z_scope.

(** [AperiodicDailySeries]: three averages. *)
Record DailySeries (A : Type) := mkSeries {
  five_day : A;
  ten_day : A;
  twenty_day : A
}.
Arguments mkSeries {A}.
Arguments five_day {A} _.
Arguments ten_day {A} _.
Arguments twenty_day {A} _.

(** [Instrument::Params] and the fields [EquityInstrument::Params] adds. *)
Record EqInstParams (D : Type) := mkParams {
  ip_start_quantity : Z;
  ip_prior_adjusted_close : D;
  ip_order_size_limit : Z;
  ip_order_price_limit : D;
  ip_order_value_limit : D;
  ip_order_rate_limit : Z;
  ip_position_limit : Z;
  ip_position_value_limit : D;
  ip_lot_size : Z;
  ip_locate_size : Z;
  ip_adv : DailySeries Z;
  ip_adr : DailySeries D;
  ip_norecycle : bool
}.
Arguments mkParams {D}.
Arguments ip_start_quantity {D} _.
Arguments ip_prior_adjusted_close {D} _.
Arguments ip_order_size_limit {D} _.
Arguments ip_order_price_limit {D} _.
Arguments ip_order_value_limit {D} _.
Arguments ip_order_rate_limit {D} _.
Arguments ip_position_limit {D} _.
Arguments ip_position_value_limit {D} _.
Arguments ip_lot_size {D} _.
Arguments ip_locate_size {D} _.
Arguments ip_adv {D} _.
Arguments ip_adr {D} _.
Arguments ip_norecycle {D} _.

Record EquityInstrument (D : Type) := mkInst {
  i_symbol : string;
  i_esi : Z;
  i_listing_market : MIC;
  i_order_size_limit : Z;
  i_order_price_limit : D;
  i_order_value_limit : D;
  i_order_rate_limit : Z;
  i_position_limit : Z;
  i_position_value_limit : D;
  i_position : Position D;
  i_order_rate : list Timestamp;
  i_lot_size : Z;
  i_locate_size : Z;
  i_adv : DailySeries Z;
  i_adr : DailySeries D;
  i_norecycle : bool
}.
Arguments mkInst {D}.
Arguments i_symbol {D} _.
Arguments i_esi {D} _.
Arguments i_listing_market {D} _.
Arguments i_order_size_limit {D} _.
Arguments i_order_price_limit {D} _.
Arguments i_order_value_limit {D} _.
Arguments i_order_rate_limit {D} _.
Arguments i_position_limit {D} _.
Arguments i_position_value_limit {D} _.
Arguments i_position {D} _.
Arguments i_order_rate {D} _.
Arguments i_lot_size {D} _.
Arguments i_locate_size {D} _.
Arguments i_adv {D} _.
Arguments i_adr {D} _.
Arguments i_norecycle {D} _.

#[export] Instance EquityInstrument_rebuild {D} : Rebuild (EquityInstrument D) := λ r,
  mkInst (i_symbol r) (i_esi r) (i_listing_market r) (i_order_size_limit r)
    (i_order_price_limit r) (i_order_value_limit r) (i_order_rate_limit r)
    (i_position_limit r) (i_position_value_limit r) (i_position r) (i_order_rate r)
    (i_lot_size r) (i_locate_size r) (i_adv r) (i_adr r) (i_norecycle r).

(** [labs]; the absolute value of the least 64-bit number wraps. *)
Definition labs (z : Z) : Z := i64 (Z.abs z).

Section Instrument.
Context {D : Type} `{Dbl D}.
Implicit Types i : EquityInstrument D.

Definition EquityInstrument_new (isymbol : string) (iesi : Z) (ilisting_market : MIC)
    (p : EqInstParams D) : EquityInstrument D := {|
  i_symbol := isymbol;
  i_esi := iesi;
  i_listing_market := ilisting_market;
  i_order_size_limit := ip_order_size_limit p;
  i_order_price_limit := ip_order_price_limit p;
  i_order_value_limit := ip_order_value_limit p;
  i_order_rate_limit := ip_order_rate_limit p;
  i_position_limit := ip_position_limit p;
  i_position_value_limit := ip_position_value_limit p;
  i_position :=
    (Position_new (ip_start_quantity p) (ip_prior_adjusted_close p))
      <| p_locates_remaining := ip_locate_size p |>;
  i_order_rate := [];
  i_lot_size := ip_lot_size p;
  i_locate_size := ip_locate_size p;
  i_adv := ip_adv p;
  i_adr := ip_adr p;
  i_norecycle := ip_norecycle p
|}.

(** ** The order rate window *)

(** The test of the loop of [validate]: older than one second before [t]. *)
Definition rate_expired (t front : Timestamp) : bool :=
  i64 (i64 (tv_sec front * NS) + tv_nsec front)
  <? i64 (i64 (i64 (tv_sec t - 1) * NS) + tv_nsec t).

Fixpoint pop_expired (t : Timestamp) (q : list Timestamp) : list Timestamp :=
  match q with
  | [] => []
  | front :: q' => if rate_expired t front then pop_expired t q' else q
  end.

(** ** [EquityInstrument::validate] *)

Definition post_position (o : Order D) i : Z :=
  let postPosition := i64 (quantity (i_position i) + remote_quantity (i_position i)) in
  if is_buy (o_side o) then i64 (postPosition + o_size o) else i64 (postPosition - o_size o).

(** The checks on size, price, value and position. *)
Definition limits_ok (o : Order D) i : bool :=
  let orderValue := (d_of_Z (o_size o) * o_price o)%dbl in
  let post := post_position o i in
  let positionValue := (d_of_Z (labs post) * o_price o)%dbl in
  negb (i_order_size_limit i <? o_size o)
  && negb (i_order_price_limit i <? o_price o)%dbl
  && negb (i_order_value_limit i <? orderValue)%dbl
  && negb (i_position_limit i <? labs post)
  && negb (i_position_value_limit i <? positionValue)%dbl.

Definition is_sell_side (s : Side) : bool :=
  bool_decide (s = SELL) || bool_decide (s = SHORT) || bool_decide (s = SHORT_EXEMPT).

(** The position an accepted sell leads to once every open sell is filled. *)
Definition short_position (o : Order D) i : Z :=
  i64 (post_position o i - p_open_short_size (i_position i)).
Definition requiredLocateSize (o : Order D) i : Z :=
  if short_position o i <? 0 then u32 (i64 (- short_position o i)) else 0.

(** A sell: the side is corrected to what the position makes it, and the
    locates it needs are taken. *)
Definition validate_locates (o : Order D) i : bool * EquityInstrument D * Order D :=
  let required := requiredLocateSize o i in
  let o' := o <| o_side := if short_position o i <? 0 then SHORT else SELL |> in
  let pos := i_position i in
  if (p_locates_remaining pos =? LOCATES_REMAINING_SENTINEL)
     || (p_locates_remaining pos <? required)
  then (false, i, o')
  else
    (true,
     i <| i_position := pos
            <| p_locates_remaining := i64 (p_locates_remaining pos - required) |>
            <| p_locates_used := i64 (p_locates_used pos + required) |> |>,
     o').

Definition inst_validate (o : Order D) i : bool * EquityInstrument D * Order D :=
  let limited := -1 <? i_order_rate_limit i in
  let i1 := if limited
            then i <| i_order_rate := pop_expired (o_creation_time o) (i_order_rate i) |>
            else i in
  if limited && (u32 (i_order_rate_limit i) <? Z.of_nat (length (i_order_rate i1)) + 1)
  then (false, i1, o)
  else if negb (limits_ok o i1) then (false, i1, o)
  else
    let '(ok, i2, o2) :=
      if is_sell_side (o_side o) then validate_locates o i1 else (true, i1, o) in
    if ok then
      (true,
       if limited
       then i2 <| i_order_rate := i_order_rate i2 ++ [o_creation_time o] |>
       else i2,
       o2)
    else (false, i2, o2).

Definition update_locates_live (new_locate_size : Z) (only_if_increasing : bool) i
    : EquityInstrument D :=
  if new_locate_size =? i_locate_size i then i
  else
    let locate_diff := i64 (new_locate_size - i_locate_size i) in
    if (locate_diff =? 0) || (only_if_increasing && (locate_diff <=? 0)) then i
    else
      let pos := i_position i in
      i <| i_locate_size := new_locate_size |>
        <| i_position := pos
             <| p_locates_remaining := i64 (p_locates_remaining pos + locate_diff) |> |>.

(** ** The universe of instruments

    [lex_u32], [lex_i32], [lex_i64], [lex_D] and [lex_bool] are [boost::lexical_cast]
    to the integral, floating and boolean types.  The base class [MD::Universe] maps symbols to
    indices; its symbols are the argument of [universe_init]. *)

Section Universe.
Context (lex_u32 lex_i32 lex_i64 : string → option Z) (lex_D : string → option D)
        (lex_bool : string → option bool).

Definition eqinst_params_zero : EqInstParams D := {|
  ip_start_quantity := 0; ip_prior_adjusted_close := d0;
  ip_order_size_limit := 0; ip_order_price_limit := d0; ip_order_value_limit := d0;
  ip_order_rate_limit := 0; ip_position_limit := 0; ip_position_value_limit := d0;
  ip_lot_size := 0; ip_locate_size := 0;
  ip_adv := mkSeries 0 0 0; ip_adr := mkSeries d0 d0 d0; ip_norecycle := false
|}.

Definition eqinst_params_from_conf (cfg : ConfigState) (default_eqi : EqInstParams D)
    : EqInstParams D := {|
  ip_start_quantity := cs_read lex_i64 cfg "start_quantity" (ip_start_quantity default_eqi);
  ip_prior_adjusted_close :=
    cs_read lex_D cfg "prior_adjusted_close" (ip_prior_adjusted_close default_eqi);
  ip_order_size_limit := cs_read lex_u32 cfg "order_size_limit" (ip_order_size_limit default_eqi);
  ip_order_price_limit :=
    cs_read lex_D cfg "order_price_limit" (ip_order_price_limit default_eqi);
  ip_order_value_limit :=
    cs_read lex_D cfg "order_value_limit" (ip_order_value_limit default_eqi);
  ip_order_rate_limit := cs_read lex_i32 cfg "order_rate_limit" (ip_order_rate_limit default_eqi);
  ip_position_limit := cs_read lex_u32 cfg "position_limit" (ip_position_limit default_eqi);
  ip_position_value_limit :=
    cs_read lex_D cfg "position_value_limit" (ip_position_value_limit default_eqi);
  ip_lot_size := cs_read lex_u32 cfg "lot_size" (ip_lot_size default_eqi);
  ip_locate_size := cs_read lex_i64 cfg "locate_size" (ip_locate_size default_eqi);
  ip_adv := mkSeries (cs_read lex_u32 cfg "adv_5day" 0) (cs_read lex_u32 cfg "adv_10day" 0)
              (cs_read lex_u32 cfg "adv_20day" 0);
  ip_adr := mkSeries (cs_read lex_D cfg "adr_5day" d0) (cs_read lex_D cfg "adr_10day" d0)
              (cs_read lex_D cfg "adr_20day" d0);
  ip_norecycle := cs_get_or_default lex_bool cfg "norecycle" false
|}.

Record EqInstUniverse := mkUniverse {
  u_default_params : EqInstParams D;
  u_params_by_name : gmap string (EqInstParams D);
  u_data : gmap Z (EquityInstrument D)
}.

Definition data_for_atom (defaults : EqInstParams D)
    (params_by_name : gmap string (EqInstParams D)) (esi : Z) (symbol : string)
    : EquityInstrument D :=
  match params_by_name !! symbol with
  | None => EquityInstrument_new symbol esi MIC_UNKNOWN defaults
  | Some p => EquityInstrument_new symbol esi MIC_UNKNOWN p
  end.

Definition universe_init (symbols : gmap Z string) (oe_cfg : ConfigState) : EqInstUniverse :=
  let csd := copy_prefix_domain oe_cfg "default." in
  let defaults :=
    if bool_decide (cs_map csd = ∅) then eqinst_params_zero
    else eqinst_params_from_conf csd eqinst_params_zero in
  let eqd := copy_prefix_domain oe_cfg "eqinst." in
  let by_name :=
    set_fold (λ k m,
        <[k := eqinst_params_from_conf (copy_prefix_domain eqd (k +:+ ".")) defaults]> m)
      ∅ (get_key_prefix_set eqd dot) in
  {| u_default_params := defaults;
     u_params_by_name := by_name;
     u_data := map_imap (λ esi symbol, Some (data_for_atom defaults by_name esi symbol)) symbols |}.
End Universe.
End Instrument.

Arguments EqInstUniverse D : clear implicits.

(** ** Effects of [validate] *)

Section ValidateLemmas.
Context {D : Type} `{Dbl D}.
Implicit Types (i : EquityInstrument D) (o : Order D).

(** [validate] changes the rate queue and the locates, nothing else. *)
Definition same_limits i i' : Prop :=
  i_order_size_limit i' = i_order_size_limit i
  /\ i_order_rate_limit i' = i_order_rate_limit i
  /\ i_position_limit i' = i_position_limit i
  /\ i_locate_size i' = i_locate_size i
  /\ i_esi i' = i_esi i.

(** The outcome of a successful run, with its branches resolved. *)
Lemma inst_validate_true o i i' o' :
  inst_validate o i = (true, i', o') →
  let q := pop_expired (o_creation_time o) (i_order_rate i) in
  limits_ok o i = true
  /\ (-1 < i_order_rate_limit i →
        Z.of_nat (length q) + 1 <= u32 (i_order_rate_limit i)
        /\ i_order_rate i' = q ++ [o_creation_time o])
  /\ (i_order_rate_limit i <= -1 → i_order_rate i' = i_order_rate i)
  /\ (is_sell_side (o_side o) = false → i_position i' = i_position i /\ o' = o)
  /\ (is_sell_side (o_side o) = true →
        p_locates_remaining (i_position i) ≠ LOCATES_REMAINING_SENTINEL
        /\ requiredLocateSize o i <= p_locates_remaining (i_position i)
        /\ i_position i' = (i_position i)
             <| p_locates_remaining :=
                  i64 (p_locates_remaining (i_position i) - requiredLocateSize o i) |>
             <| p_locates_used :=
                  i64 (p_locates_used (i_position i) + requiredLocateSize o i) |>
        /\ o' = o <| o_side := if short_position o i <? 0 then SHORT else SELL |>)
  /\ same_limits i i'.
Proof.
  intros Hv q. unfold inst_validate in Hv.
  set (i1 := if -1 <? i_order_rate_limit i then _ else i) in Hv.
  assert (i_position i1 = i_position i) as Hp by (subst i1; by case_if).
  assert (same_limits i i1) as Hsl by (subst i1; by case_if).
  assert (i_order_rate i1 = if -1 <? i_order_rate_limit i then q else i_order_rate i)
    as Hq by (subst i1; by case_if).
  assert (limits_ok o i1 = limits_ok o i) as Hlo by (subst i1; by case_if).
  clearbody i1.
  assert (short_position o i1 = short_position o i) as E1.
  { unfold short_position, post_position. by rewrite Hp. }
  assert (requiredLocateSize o i1 = requiredLocateSize o i) as E2.
  { unfold requiredLocateSize. by rewrite E1. }
  unfold validate_locates in Hv. rewrite E1, E2, Hp, Hlo in Hv.
  destruct (-1 <? i_order_rate_limit i) eqn:Hlim; cbn [andb] in Hv;
    [destruct (_ <? _) eqn:Hrate in Hv; [discriminate|]|];
    (destruct (limits_ok o i) eqn:Hok; [|discriminate]; cbn [negb] in Hv);
    (destruct (is_sell_side (o_side o)) eqn:Hs;
      [destruct (_ || _) eqn:Hl in Hv; [discriminate|]|]); injection Hv as <- <-; bools;
    rewrite ?Hq in *; (split_and!; intros; try done; try lia); cbn; rewrite ?Hq; done.
Qed.

(** A rejected order leaves the position as it was. *)
Lemma inst_validate_false o i i' o' :
  inst_validate o i = (false, i', o') →
  i_position i' = i_position i /\ same_limits i i'
  /\ i_order_rate i' = (if -1 <? i_order_rate_limit i
       then pop_expired (o_creation_time o) (i_order_rate i) else i_order_rate i).
Proof.
  unfold inst_validate. intros Hv.
  set (i1 := if -1 <? i_order_rate_limit i then _ else i) in Hv.
  assert (i_position i1 = i_position i /\ same_limits i i1 /\
    i_order_rate i1 = (if -1 <? i_order_rate_limit i
       then pop_expired (o_creation_time o) (i_order_rate i) else i_order_rate i))
    as Hi by (subst i1; by case_if).
  clearbody i1. unfold validate_locates in Hv.
  repeat case_if; cbn in Hv; try discriminate Hv; by injection Hv as <- <-.
Qed.
End ValidateLemmas.

(** ** Locates *)

Section Locates.
Context {D : Type} `{Dbl D}.
Implicit Types (i : EquityInstrument D) (o : Order D).

(** Counters far from the ends of their types. *)
Definition locates_small i : Prop :=
  0 <= p_locates_remaining (i_position i) < 2 ^ 60
  /\ 0 <= p_locates_used (i_position i) < 2 ^ 60.
Definition sizes_small o i : Prop :=
  0 <= o_size o /\ 0 <= p_open_short_size (i_position i)
  /\ Z.abs (quantity (i_position i)) + Z.abs (remote_quantity (i_position i))
     + o_size o + p_open_short_size (i_position i) < 2 ^ 32.

(** What the position would be if every open sell, this order included, filled. *)
Definition position_if_filled o i : Z :=
  quantity (i_position i) + remote_quantity (i_position i) - o_size o
  - p_open_short_size (i_position i).

Lemma is_sell_not_buy s : is_sell_side s = true → is_buy s = false.
Proof. by destruct s. Qed.

Lemma short_position_exact o i :
  sizes_small o i → is_sell_side (o_side o) = true →
  short_position o i = position_if_filled o i.
Proof.
  intros (Hs & Hp & Hb) Hsell. unfold short_position, post_position, position_if_filled.
  rewrite is_sell_not_buy by done. unfold quantity, remote_quantity in *.
  by no_wrap.
Qed.

Lemma requiredLocateSize_exact o i :
  sizes_small o i → is_sell_side (o_side o) = true →
  requiredLocateSize o i = Z.max 0 (- position_if_filled o i).
Proof.
  intros Hs Hsell. unfold requiredLocateSize. rewrite short_position_exact by done.
  destruct Hs as (Hs & Hp & Hb). unfold position_if_filled, quantity, remote_quantity in *.
  case_if; bools; [|lia].
  no_wrap. lia.
Qed.
End Locates.

(** C36: Short sales are located.  A sell that [validate] accepts takes exactly
    the locates that the whole prospective short position needs (position after
    this and every open sell fills), never more than remain; taken and remaining
    locates keep their sum, and the side is corrected to SHORT exactly when the
    sell can leave the position short. *)
Theorem accepted_sell_located `{Dbl D} (o : Order D) (i : EquityInstrument D) i' o'
    (Hv : inst_validate o i = (true, i', o'))
    (Hsell : is_sell_side (o_side o) = true)
    (Hloc : locates_small i) (Hsize : sizes_small o i) :
  let need := Z.max 0 (- position_if_filled o i) in
  p_locates_used (i_position i') = p_locates_used (i_position i) + need
  /\ p_locates_remaining (i_position i') = p_locates_remaining (i_position i) - need
  /\ 0 <= p_locates_remaining (i_position i')
  /\ - position_if_filled o i <= p_locates_used (i_position i')
  /\ o_side o' = (if position_if_filled o i <? 0 then SHORT else SELL).
Proof.
  intros need. destruct (inst_validate_true _ _ _ _ Hv) as (_ & _ & _ & _ & Hs & _).
  destruct (Hs Hsell) as (_ & Hreq & Hpos & ->). clear Hs.
  pose proof (requiredLocateSize_exact o i Hsize Hsell) as Hr. fold need in Hr.
  rewrite Hr in *. destruct Hloc as [Hl1 Hl2].
  assert (0 <= need) by (unfold need; lia).
  assert (need < 2 ^ 32).
  { unfold need, position_if_filled. destruct Hsize as (? & ? & ?). in_range. }
  rewrite Hpos. cbn -[Z.pow swrap].
  rewrite (swrap_small 64 (_ - need)), (swrap_small 64 (_ + need)) by in_range.
  rewrite short_position_exact by done. split_and!; try lia; try done.
Qed.

(** A configured instrument and an order on it, in the reference arithmetic. *)
Definition sample_params : EqInstParams Qc :=
  mkParams 0 (d_of_Z 10) 1000 (d_of_Z 500) (d_of_Z 100000) 2 5000 (d_of_Z 1000000)
    100 500 (mkSeries 0 0 0) (mkSeries d0 d0 d0) false.
Definition sample_instrument : EquityInstrument Qc :=
  EquityInstrument_new "IBM" 1 XNYS sample_params.
Definition sample_order (sec size : Z) (side : Side) : Order Qc :=
  Order_new (mkTs sec 0) NYSEOrder 1 (d_of_Z 20) size side DAY LIMIT None 0.

Lemma accepted_sell_located_witness :
  p_locates_used (i_position (inst_validate (sample_order 100 300 SELL) sample_instrument).1.2)
  = 300.
Proof.
  pose proof (accepted_sell_located (sample_order 100 300 SELL) sample_instrument _ _
    eq_refl eq_refl ltac:(z_compute) ltac:(z_compute)) as [Hu _].
  exact Hu.
Defined.

(** One change to the locates of an instrument between fills. *)
Inductive LocatesStep (D : Type) :=
| LValidate (o : Order D)
| LLive (new_locate_size : Z).
Arguments LValidate {D}.
Arguments LLive {D}.

Definition locates_step `{Dbl D} (i : EquityInstrument D) (st : LocatesStep D)
    : EquityInstrument D :=
  match st with
  | LValidate o => (inst_validate o i).1.2
  | LLive n => update_locates_live n true i
  end.

(** Remaining and taken locates account for the configured locates. *)
Definition locates_ledger {D} (i : EquityInstrument D) : Prop :=
  p_locates_remaining (i_position i) + p_locates_used (i_position i) = i_locate_size i
  /\ 0 <= p_locates_remaining (i_position i)
  /\ 0 <= p_locates_used (i_position i)
  /\ i_locate_size i < 2 ^ 60.

Definition locates_step_ok {D} (i : EquityInstrument D) (st : LocatesStep D) : Prop :=
  match st with
  | LValidate o => sizes_small o i
  | LLive n => 0 <= n < 2 ^ 60
  end.

(** The position apart from its locates. *)
Definition same_holdings {D} (i i' : EquityInstrument D) : Prop :=
  quantity (i_position i') = quantity (i_position i)
  /\ remote_quantity (i_position i') = remote_quantity (i_position i)
  /\ p_open_short_size (i_position i') = p_open_short_size (i_position i).

Lemma locates_step_ledger `{Dbl D} (i : EquityInstrument D) st :
  locates_ledger i → locates_step_ok i st →
  locates_ledger (locates_step i st) /\ same_holdings i (locates_step i st).
Proof.
  intros (Hsum & Hr & Hu & Hb) Hok. destruct st as [o|n]; cbn [locates_step].
  - destruct (inst_validate o i) as [[ok i'] o'] eqn:Hv. destruct ok; cbn.
    + destruct (inst_validate_true _ _ _ _ Hv) as (_ & _ & _ & Hns & Hs & Hl).
      destruct Hl as (_ & _ & _ & Hls & _).
      destruct (is_sell_side (o_side o)) eqn:Hsell.
      * destruct (accepted_sell_located _ _ _ _ Hv Hsell) as (Eu & Er & ? & _);
          [split; lia|done|].
        destruct (Hs eq_refl) as (_ & _ & Hp & _).
        unfold locates_ledger, same_holdings. rewrite Eu, Er, Hls, Hp. split_and!; try done; lia.
      * destruct (Hns eq_refl) as [Hp _]. unfold locates_ledger, same_holdings.
        rewrite Hp, Hls. done.
    + destruct (inst_validate_false _ _ _ _ Hv) as (Hp & Hl & _).
      destruct Hl as (_ & _ & _ & Hls & _).
      unfold locates_ledger, same_holdings. rewrite Hp, Hls. done.
  - unfold update_locates_live. case_if; [done|]. bools. cbn in Hok.
    rewrite (swrap_small 64 (n - _)) by in_range. case_if; [done|]. bools.
    rewrite andb_true_l in *. bools.
    unfold locates_ledger, same_holdings; cbn -[Z.pow swrap]. no_wrap. split_and!; try done; lia.
Qed.

(** C37: Locates ledger.  Along any sequence of [validate] calls (accepted or
    not) and live increases of the locate file, taken plus remaining locates is
    exactly the configured locate size and neither is ever negative. *)
Theorem locates_ledger_invariant `{Dbl D} (i : EquityInstrument D) (sts : list (LocatesStep D))
    (Hi : locates_ledger i) (Hok : Forall (locates_step_ok i) sts) :
  locates_ledger (foldl locates_step i sts).
Proof.
  assert (∀ j, locates_ledger j → same_holdings i j → locates_ledger (foldl locates_step j sts))
    as Hgen; [|by apply Hgen].
  induction Hok as [|st sts Hst _ IH]; intros j Hj Hij; [done|].
  assert (locates_step_ok j st) as Hst'.
  { destruct st; cbn in *; [|done]. unfold sizes_small in *.
    destruct Hij as (-> & -> & ->). done. }
  destruct (locates_step_ledger j st Hj Hst') as [Hl Hh]. apply IH; [done|].
  unfold same_holdings in *. intuition congruence.
Qed.

Lemma locates_ledger_invariant_witness :
  locates_ledger (foldl locates_step sample_instrument
    [LValidate (sample_order 100 300 SELL); LLive 800; LValidate (sample_order 101 400 SHORT)]).
Proof.
  apply locates_ledger_invariant; [z_compute|].
  repeat constructor; try (z_compute); vm_compute; congruence.
Defined.

(** A short sell takes again the locates that the open short sells before it
    already took: two sells from a flat book, of [s1] and then [s2] shares, take
    [s1 + (s1 + s2)] locates although filling both leaves the position short by
    [s1 + s2] only. *)
Theorem open_shorts_located_twice `{Dbl D} (i : EquityInstrument D) o1 o2 i1 i2 o1' o2'
    (Hflat : quantity (i_position i) + remote_quantity (i_position i) = 0
             /\ p_open_short_size (i_position i) = 0)
    (Hl : locates_ledger i)
    (Hs : is_sell_side (o_side o1) = true /\ is_sell_side (o_side o2) = true)
    (Hz : 0 < o_size o1 /\ 0 < o_size o2
          /\ Z.abs (quantity (i_position i)) + Z.abs (remote_quantity (i_position i))
             + o_size o1 + o_size o2 < 2 ^ 32)
    (Hv1 : inst_validate o1 i = (true, i1, o1'))
    (Hv2 : inst_validate o2
             (i1 <| i_position := add_open_sells (o_price o1) (o_size o1) (i_position i1) |>)
           = (true, i2, o2')) :
  p_locates_used (i_position i2)
  = p_locates_used (i_position i) + o_size o1 + (o_size o1 + o_size o2).
Proof.
  destruct Hflat as [Hq Ho], Hs as [Hs1 Hs2], Hz as (Hz1 & Hz2 & Hz3).
  assert (sizes_small o1 i) as Hsm1 by (unfold sizes_small; lia).
  destruct (locates_step_ledger i (LValidate o1) Hl Hsm1) as [Hl1 (Hq1 & Hr1 & Ho1)].
  cbn [locates_step] in *. rewrite Hv1 in *. cbn in Hl1, Hq1, Hr1, Ho1.
  destruct Hl as (? & ? & ? & ?), Hl1 as (? & ? & ? & ?).
  destruct (accepted_sell_located _ _ _ _ Hv1 Hs1) as (E1 & _); [split; lia|done|].
  set (j := i1 <| i_position := _ |>) in Hv2.
  assert (quantity (i_position j) = quantity (i_position i)
    /\ remote_quantity (i_position j) = remote_quantity (i_position i)
    /\ p_open_short_size (i_position j) = o_size o1
    /\ p_locates_remaining (i_position j) = p_locates_remaining (i_position i1)
    /\ p_locates_used (i_position j) = p_locates_used (i_position i1)) as (Jq & Jr & Jo & Jl & Ju).
  { subst j. unfold quantity, remote_quantity in *. cbn -[wrap].
    rewrite Hq1, Hr1, Ho1, Ho, wrap_small by in_range. done. }
  clearbody j. destruct (accepted_sell_located _ _ _ _ Hv2 Hs2) as (E2 & _).
  - unfold locates_small. rewrite Jl, Ju. split; lia.
  - unfold sizes_small. rewrite Jq, Jr, Jo. lia.
  - rewrite E2, Ju, E1. unfold position_if_filled. rewrite Jq, Jr, Jo, Ho. lia.
Qed.

Lemma open_shorts_located_twice_witness :
  let i1 := (inst_validate (sample_order 100 100 SELL) sample_instrument).1.2 in
  p_locates_used (i_position (inst_validate (sample_order 101 100 SELL)
    (i1 <| i_position := add_open_sells (d_of_Z 20) 100 (i_position i1) |>)).1.2) = 300.
Proof.
  intros i1.
  refine (open_shorts_located_twice sample_instrument (sample_order 100 100 SELL)
    (sample_order 101 100 SELL) i1 _ _ _ _ _ _ _ _ _).
  - z_compute.
  - z_compute.
  - z_compute.
  - z_compute.
  - vm_compute. reflexivity.
  - vm_compute. reflexivity.
Defined.

(** ** The order rate limit *)

(** Runs of one instrument: [h] collects the creation times of the accepted
    orders, [now] is the latest creation time offered, and anything that keeps
    the rate queue and the rate limit may happen between the calls. *)
Inductive rate_run `{Dbl D} : EquityInstrument D → list Timestamp → Z → Prop :=
| rate_start i t : i_order_rate i = [] → rate_run i [] t
| rate_validate i h t o ok i' o' :
    rate_run i h t →
    ts_wf (o_creation_time o) → t <= to_ns (o_creation_time o) →
    inst_validate o i = (ok, i', o') →
    rate_run i' (if ok then h ++ [o_creation_time o] else h) (to_ns (o_creation_time o))
| rate_other i h t i' :
    rate_run i h t → i_order_rate i' = i_order_rate i →
    i_order_rate_limit i' = i_order_rate_limit i → rate_run i' h t.

(** The accepted orders created in the closed second that ends at [t]. *)
Definition in_second (t : Z) (x : Timestamp) : bool :=
  (t - NS <=? to_ns x) && (to_ns x <=? t).
Definition count_second (t : Z) (h : list Timestamp) : nat :=
  length (filter (λ x, in_second t x = true) h).

Lemma rate_expired_ns t x : ts_wf t → ts_wf x →
  rate_expired t x = (to_ns x <? to_ns t - NS).
Proof.
  intros [Ht1 Ht2] [Hx1 Hx2]. unfold rate_expired, to_ns, NS in *.
  assert (0 <= tv_sec t < 8589934592 ∧ 0 <= tv_sec x < 8589934592) as [??]
    by (split; lia).
  no_wrap. apply eq_true_iff_eq. rewrite !Z.ltb_lt. lia.
Qed.

(** Popping drops expired entries from the front, and what is left is sorted
    and starts with an entry that has not expired. *)
Lemma pop_expired_spec t q : ts_wf t → Forall ts_wf q →
  ∃ d, q = d ++ pop_expired t q /\ Forall (λ x, to_ns x < to_ns t - NS) d
       /\ (∀ x, head (pop_expired t q) = Some x → to_ns t - NS <= to_ns x).
Proof.
  intros Ht Hq. induction Hq as [|x q Hx Hq IH]; cbn; [by exists []|].
  rewrite rate_expired_ns by done. destruct (_ <? _) eqn:Hlt; bools.
  - destruct IH as (d & E & Hd & Hh). exists (x :: d). cbn. split_and!; [by f_equal| |done].
    by constructor.
  - exists []. split_and!; [done|done|]. cbn. by intros ? [= <-].
Qed.

(** What left the queue is more than a second old, and the history is past. *)
Lemma rate_run_queue `{Dbl D} (i : EquityInstrument D) h t :
  rate_run i h t → -1 < i_order_rate_limit i →
  Forall ts_wf h /\ Forall (λ x, to_ns x <= t) h
  /\ ∃ d, h = d ++ i_order_rate i /\ Forall (λ x, to_ns x < t - NS) d.
Proof.
  intros Hrun. induction Hrun as [i t Hq|i h t o ok i' o' Hrun IH Hwf Hle Hv|
    i h t i' Hrun IH Hq Hl]; intros Hlim.
  - split_and!; try constructor. exists []. by rewrite Hq.
  - assert (i_order_rate_limit i' = i_order_rate_limit i) as Hl.
    { destruct ok; [destruct (inst_validate_true _ _ _ _ Hv) as (_&_&_&_&_&Hs)|
        destruct (inst_validate_false _ _ _ _ Hv) as (_&Hs&_)]; apply Hs. }
    rewrite Hl in Hlim. destruct (IH Hlim) as (Hwfs & Hpast & d & Hd & Hold).
    assert (Forall ts_wf (i_order_rate i)) as Hwq by (rewrite Hd, Forall_app in Hwfs; tauto).
    destruct (pop_expired_spec (o_creation_time o) _ Hwf Hwq) as (d' & Hd' & Hold' & _).
    set (q := pop_expired (o_creation_time o) (i_order_rate i)) in *.
    assert (h = (d ++ d') ++ q) as Eh by (rewrite Hd at 1; rewrite Hd' at 1; by rewrite app_assoc).
    assert (Forall (λ x, to_ns x < to_ns (o_creation_time o) - NS) (d ++ d')) as Hold2.
    { apply Forall_app. split; [|done]. eapply Forall_impl; [exact Hold|]. cbn. lia. }
    assert (Forall (λ x, to_ns x <= to_ns (o_creation_time o)) h) as Hpast2.
    { eapply Forall_impl; [exact Hpast|]. cbn. lia. }
    destruct ok.
    + destruct (inst_validate_true _ _ _ _ Hv) as (_ & Hr & _).
      destruct (Hr Hlim) as [_ ->]. fold q. split_and!.
      * apply Forall_app. split; [done|]. by constructor.
      * apply Forall_app. split; [done|]. constructor; [lia|constructor].
      * exists (d ++ d'). split; [|done]. rewrite Eh at 1. by rewrite <- (assoc_L app).
    + destruct (inst_validate_false _ _ _ _ Hv) as (_ & _ & ->).
      replace (-1 <? _) with true by (symmetry; apply Z.ltb_lt; lia). fold q.
      split_and!; try done. by exists (d ++ d').
  - rewrite Hq. rewrite Hl in Hlim. by apply IH.
Qed.

(** The order rate limit.  In any run with non-decreasing creation times,
    whatever happens to the instrument between the orders, every closed
    one-second window contains at most [order_rate_limit] accepted orders. *)
Theorem order_rate_limit_holds `{Dbl D} (i : EquityInstrument D) (h : list Timestamp) (t : Z)
    (Hrun : rate_run i h t) (Hlim : 0 <= i_order_rate_limit i < 2 ^ 31) :
  ∀ w, Z.of_nat (count_second w h) <= i_order_rate_limit i.
Proof.
  induction Hrun as [i t Hq|i h t o ok i' o' Hrun IH Hwf Hle Hv|i h t i' Hrun IH Hq Hl]; intros w.
  - unfold count_second; cbn. lia.
  - assert (i_order_rate_limit i' = i_order_rate_limit i) as Hl.
    { destruct ok; [destruct (inst_validate_true _ _ _ _ Hv) as (_&_&_&_&_&Hs)|
        destruct (inst_validate_false _ _ _ _ Hv) as (_&Hs&_)]; apply Hs. }
    rewrite Hl in *. destruct ok; [|by apply IH].
    specialize (IH Hlim w).
    unfold count_second in *. rewrite filter_app, length_app.
    destruct (in_second w (o_creation_time o)) eqn:Hin.
    2:{ rewrite filter_cons_False by congruence. cbn. lia. }
    destruct (rate_run_queue _ _ _ Hrun ltac:(lia)) as (Hwfs & _ & d & Hd & Hold).
    assert (Forall ts_wf (i_order_rate i)) as Hwq by (rewrite Hd, Forall_app in Hwfs; tauto).
    destruct (pop_expired_spec (o_creation_time o) _ Hwf Hwq) as (d' & Hd' & Hold' & _).
    destruct (inst_validate_true _ _ _ _ Hv) as (_ & Hr & _).
    destruct (Hr ltac:(lia)) as [Hlen _]. rewrite wrap_small in Hlen by (unfold in_u; lia).
    set (q := pop_expired (o_creation_time o) (i_order_rate i)) in *.
    assert (length (filter (λ x, in_second w x = true) h) <= length q)%nat.
    { rewrite Hd, filter_app, length_app. rewrite Hd' at 1. rewrite filter_app, length_app.
      unfold in_second in Hin. bools.
      assert (∀ l, Forall (λ x, to_ns x < to_ns (o_creation_time o) - NS) l →
        filter (λ x, in_second w x = true) l = []) as Hnil.
      { intros l Hlt. apply filter_none. eapply Forall_impl; [exact Hlt|].
        cbn. intros x Hx Hs. unfold in_second in Hs. bools. lia. }
      rewrite (Hnil d'), (Hnil d) by (done || (eapply Forall_impl; [exact Hold|]; cbn; lia)).
      cbn. apply length_filter. }
    cbn. case_decide; cbn; lia.
  - rewrite Hl in *. by apply IH.
Qed.

Lemma order_rate_limit_holds_witness :
  let i1 := (inst_validate (sample_order 100 100 BUY) sample_instrument).1.2 in
  let i2 := (inst_validate (sample_order 101 100 BUY) i1).1.2 in
  rate_run i2 [mkTs 100 0; mkTs 101 0] 101000000000
  /\ Z.of_nat (count_second 101000000000 [mkTs 100 0; mkTs 101 0]) <= 2
  /\ (inst_validate (sample_order 101 100 BUY) i2).1.1 = false.
Proof.
  intros i1 i2.
  assert (rate_run i2 [mkTs 100 0; mkTs 101 0] 101000000000) as Hrun.
  { refine (rate_validate i1 [mkTs 100 0] 100000000000 (sample_order 101 100 BUY) true i2 _
      (rate_validate sample_instrument [] 0 (sample_order 100 100 BUY) true i1 _
        (rate_start sample_instrument 0 eq_refl) _ _ _) _ _ _); try (vm_compute; reflexivity); z_compute. }
  split; [exact Hrun|]. split; [|vm_compute; reflexivity].
  exact (order_rate_limit_holds i2 _ _ Hrun ltac:(z_compute) 101000000000).
Defined.
