(* ===== verification/FirmRisk.v ===== *)
(** * Firm-wide risk (src/oe/i01_oe/Risk/FirmRiskCheck.hpp, src/oe/Risk/FirmRiskCheck.cpp,
      and the pass-through checks of PortfolioRiskCheck.cpp and SessionRiskCheck.cpp)

    Running totals of profit, notional and open exposure over all instruments;
    circuit breakers derived from them; a trading mode derived from the
    breakers; and [new_order], the check an order passes before it is sent. *)

From S2P Require Import Prelude Dbl Time Types Order Position Config Instrument.
From Stdlib Require Import Qcanon Ring SpecFloat.
Open Scope Z_scope.

(** [FirmRiskCheck::Breakers] *)
Inductive Breakers :=
| REALIZED_LOSS | UNREALIZED_LOSS | GROSS_NOTIONAL | NET_NOTIONAL
| LONG_OPEN | SHORT_OPEN | GROSS_OPEN | BR_USER_DISABLE.
#[export] Instance Breakers_eq_dec : EqDecision Breakers.
Proof. solve_decision. Defined.

Definition breaker_bit (b : Breakers) : Z :=
  match b with
  | REALIZED_LOSS => 0 | UNREALIZED_LOSS => 1 | GROSS_NOTIONAL => 2 | NET_NOTIONAL => 3
  | LONG_OPEN => 4 | SHORT_OPEN => 5 | GROSS_OPEN => 6 | BR_USER_DISABLE => 7
  end.
Definition Breakers_to_string (b : Breakers) : string :=
  match b with
  | REALIZED_LOSS => "REALIZED_LOSS" | UNREALIZED_LOSS => "UNREALIZED_LOSS"
  | GROSS_NOTIONAL => "GROSS_NOTIONAL" | NET_NOTIONAL => "NET_NOTIONAL"
  | LONG_OPEN => "LONG_OPEN" | SHORT_OPEN => "SHORT_OPEN" | GROSS_OPEN => "GROSS_OPEN"
  | BR_USER_DISABLE => "USER_DISABLE"
  end.

(** [FirmRiskCheck::InstPermissions] *)
Inductive InstPermissions := IP_FLATTEN_ONLY | IP_USER_DISABLE.
Definition permission_bit (p : InstPermissions) : Z :=
  match p with IP_FLATTEN_ONLY => 0 | IP_USER_DISABLE => 1 end.

(** [FirmRiskCheck::Mode] *)
Inductive Mode :=
| MODE_UNKNOWN | NORMAL | DISABLE_ALL | FLATTEN_ONLY | LENGTHEN_ONLY | SHORTEN_ONLY.
#[export] Instance Mode_eq_dec : EqDecision Mode.
Proof. solve_decision. Defined.
Definition Mode_to_string (m : Mode) : string :=
  match m with
  | MODE_UNKNOWN => "UNKNOWN" | NORMAL => "NORMAL" | DISABLE_ALL => "DISABLE_ALL"
  | FLATTEN_ONLY => "FLATTEN_ONLY" | LENGTHEN_ONLY => "LENGTHEN_ONLY"
  | SHORTEN_ONLY => "SHORTEN_ONLY"
  end.

(** A [std::bitset] is the number of its bits. *)
Definition bit_set (n bits : Z) : Z := Z.setbit bits n.
Definition bit_reset (n bits : Z) : Z := Z.clearbit bits n.
Definition bit_put (n : Z) (v : bool) (bits : Z) : Z :=
  if v then bit_set n bits else bit_reset n bits.

Record FirmRisk (D : Type) := mkFirm {
  f_dirty_mode : bool;
  f_mode : Mode;
  f_breakers : Z;
  f_inst_permissions : gmap Z Z;
  f_long_notional : D;
  f_short_notional : D;
  f_long_open_exposure : D;
  f_short_open_exposure : D;
  f_total_realized : D;
  f_total_unrealized : D;
  f_realized_loss_limit : D;
  f_unrealized_loss_limit : D;
  f_gross_notional_limit : D;
  f_net_notional_limit : D;
  f_long_open_exposure_limit : D;
  f_short_open_exposure_limit : D;
  f_gross_open_exposure_limit : D
}.
Arguments mkFirm {D}.
Arguments f_dirty_mode {D} _.
Arguments f_mode {D} _.
Arguments f_breakers {D} _.
Arguments f_inst_permissions {D} _.
Arguments f_long_notional {D} _.
Arguments f_short_notional {D} _.
Arguments f_long_open_exposure {D} _.
Arguments f_short_open_exposure {D} _.
Arguments f_total_realized {D} _.
Arguments f_total_unrealized {D} _.
Arguments f_realized_loss_limit {D} _.
Arguments f_unrealized_loss_limit {D} _.
Arguments f_gross_notional_limit {D} _.
Arguments f_net_notional_limit {D} _.
Arguments f_long_open_exposure_limit {D} _.
Arguments f_short_open_exposure_limit {D} _.
Arguments f_gross_open_exposure_limit {D} _.

#[export] Instance FirmRisk_rebuild {D} : Rebuild (FirmRisk D) := λ r,
  mkFirm (f_dirty_mode r) (f_mode r) (f_breakers r) (f_inst_permissions r)
    (f_long_notional r) (f_short_notional r) (f_long_open_exposure r)
    (f_short_open_exposure r) (f_total_realized r) (f_total_unrealized r)
    (f_realized_loss_limit r) (f_unrealized_loss_limit r) (f_gross_notional_limit r)
    (f_net_notional_limit r) (f_long_open_exposure_limit r)
    (f_short_open_exposure_limit r) (f_gross_open_exposure_limit r).

Section FirmRisk.
Context {D : Type} `{Dbl D}.
Implicit Types (f : FirmRisk D) (o : Order D) (p : Position D).

Definition FirmRisk_new : FirmRisk D := {|
  f_dirty_mode := false; f_mode := MODE_UNKNOWN; f_breakers := 0; f_inst_permissions := ∅;
  f_long_notional := d0; f_short_notional := d0;
  f_long_open_exposure := d0; f_short_open_exposure := d0;
  f_total_realized := d0; f_total_unrealized := d0;
  f_realized_loss_limit := d0; f_unrealized_loss_limit := d0;
  f_gross_notional_limit := d0; f_net_notional_limit := d0;
  f_long_open_exposure_limit := d0; f_short_open_exposure_limit := d0;
  f_gross_open_exposure_limit := d0
|}.

Definition HARD_REALIZED_LOSS_LIMIT : D := d_of_Z 480000.
Definition HARD_UNREALIZED_LOSS_LIMIT : D := d_of_Z 480000.
Definition HARD_GROSS_NOTIONAL_LIMIT : D := d_of_Z 42000000.
Definition HARD_NET_NOTIONAL_LIMIT : D := d_of_Z 4800000.
Definition HARD_LONG_OPEN_EXPOSURE_LIMIT : D := d_of_Z 12000000.
Definition HARD_SHORT_OPEN_EXPOSURE_LIMIT : D := d_of_Z 12000000.
Definition HARD_GROSS_OPEN_EXPOSURE_LIMIT : D := d_of_Z 18000000.

(** ** Configuration *)

(** One limit: none configured keeps the old value; a negative one and one above
    the hard limit throw. *)
Definition read_limit (lex_D : string → option D) (cfg : ConfigState) (key : string)
    (hard old : D) : res D :=
  match cs_get lex_D cfg key with
  | Some l =>
      if (l <? d0)%dbl then Fail (Thrown ("negative " +:+ key))
      else if (hard <? l)%dbl then Fail (Thrown (key +:+ " exceeds hard limit"))
      else Ok l
  | None => Ok old
  end.

Definition firm_init (lex_D : string → option D) (cfg : ConfigState) f : res (FirmRisk D) :=
  rl ← read_limit lex_D cfg "realized_loss_limit"
         HARD_REALIZED_LOSS_LIMIT (f_realized_loss_limit f);
  ul ← read_limit lex_D cfg "unrealized_loss_limit"
         HARD_UNREALIZED_LOSS_LIMIT (f_unrealized_loss_limit f);
  gn ← read_limit lex_D cfg "gross_notional_limit"
         HARD_GROSS_NOTIONAL_LIMIT (f_gross_notional_limit f);
  nn ← read_limit lex_D cfg "net_notional_limit"
         HARD_NET_NOTIONAL_LIMIT (f_net_notional_limit f);
  lo ← read_limit lex_D cfg "long_open_exposure_limit"
         HARD_LONG_OPEN_EXPOSURE_LIMIT (f_long_open_exposure_limit f);
  so ← read_limit lex_D cfg "short_open_exposure_limit"
         HARD_SHORT_OPEN_EXPOSURE_LIMIT (f_short_open_exposure_limit f);
  go ← read_limit lex_D cfg "gross_open_exposure_limit"
         HARD_GROSS_OPEN_EXPOSURE_LIMIT (f_gross_open_exposure_limit f);
  Ok (f <| f_realized_loss_limit := rl |> <| f_unrealized_loss_limit := ul |>
        <| f_gross_notional_limit := gn |> <| f_net_notional_limit := nn |>
        <| f_long_open_exposure_limit := lo |> <| f_short_open_exposure_limit := so |>
        <| f_gross_open_exposure_limit := go |> <| f_mode := NORMAL |>).

(** ** Derived quantities and breaker conditions *)

Definition total_pnl f : D := (f_total_realized f + f_total_unrealized f)%dbl.
Definition realized_loss_limit f : D := (- f_realized_loss_limit f)%dbl.
Definition unrealized_loss_limit f : D := (- f_unrealized_loss_limit f)%dbl.
Definition gross_notional f : D := (f_long_notional f - f_short_notional f)%dbl.
Definition net_notional f : D := (f_long_notional f + f_short_notional f)%dbl.
Definition abs_net_notional f : D :=
  if (net_notional f <? d0)%dbl then (- net_notional f)%dbl else net_notional f.
Definition gross_open_exposure f : D :=
  (f_long_open_exposure f - f_short_open_exposure f)%dbl.
Definition net_open_exposure f : D :=
  (f_long_open_exposure f + f_short_open_exposure f)%dbl.
Definition short_open_exposure_limit f : D := (- f_short_open_exposure_limit f)%dbl.

Definition realized_loss_breaker f : bool :=
  (f_total_realized f <=? realized_loss_limit f)%dbl.
Definition unrealized_loss_breaker f : bool :=
  (f_total_unrealized f <=? unrealized_loss_limit f)%dbl.
Definition gross_notional_breaker f : bool :=
  (f_gross_notional_limit f <=? gross_notional f)%dbl.
Definition net_notional_breaker f : bool :=
  (f_net_notional_limit f <=? abs_net_notional f)%dbl.
Definition long_open_exposure_breaker f : bool :=
  (f_long_open_exposure_limit f <=? f_long_open_exposure f)%dbl.
Definition short_open_exposure_breaker f : bool :=
  (f_short_open_exposure f <=? short_open_exposure_limit f)%dbl.
Definition gross_open_exposure_breaker f : bool :=
  (f_gross_open_exposure_limit f <=? gross_open_exposure f)%dbl.

(** Whether a breaker is set, and setting or resetting it. *)
Definition breaker f (b : Breakers) : bool := Z.testbit (f_breakers f) (breaker_bit b).
Definition put_breaker (b : Breakers) (v : bool) f : FirmRisk D :=
  f <| f_breakers := bit_put (breaker_bit b) v (f_breakers f) |>.

Definition update_pnl_breaker_state f : FirmRisk D :=
  let f := f <| f_dirty_mode := true |> in
  let f := put_breaker REALIZED_LOSS (realized_loss_breaker f) f in
  put_breaker UNREALIZED_LOSS (unrealized_loss_breaker f) f.

Definition update_notional_breaker_state f : FirmRisk D :=
  let f := f <| f_dirty_mode := true |> in
  let f := put_breaker GROSS_NOTIONAL (gross_notional_breaker f) f in
  put_breaker NET_NOTIONAL (net_notional_breaker f) f.

Definition update_open_exposure_breaker_state (s : Side) f : FirmRisk D :=
  let f := f <| f_dirty_mode := true |> in
  let f := if is_buy s
           then put_breaker LONG_OPEN (long_open_exposure_breaker f) f
           else put_breaker SHORT_OPEN (short_open_exposure_breaker f) f in
  put_breaker GROSS_OPEN (gross_open_exposure_breaker f) f.

(** ** Mode *)

(** [update_mode()] computes the mode; it does not store it. *)
Definition update_mode f : Mode :=
  if breaker f BR_USER_DISABLE then DISABLE_ALL
  else if breaker f REALIZED_LOSS || breaker f UNREALIZED_LOSS then DISABLE_ALL
  else if breaker f GROSS_NOTIONAL then FLATTEN_ONLY
  else if breaker f NET_NOTIONAL then
    if (d0 <? net_notional f)%dbl then SHORTEN_ONLY else LENGTHEN_ONLY
  else if breaker f GROSS_OPEN || breaker f LONG_OPEN || breaker f SHORT_OPEN then DISABLE_ALL
  else NORMAL.

Definition mode f : Mode * FirmRisk D :=
  let f' := if f_dirty_mode f then f <| f_mode := update_mode f |> else f in
  (f_mode f', f').

Definition user_disable f : FirmRisk D := put_breaker BR_USER_DISABLE true f.
Definition user_enable f : FirmRisk D := put_breaker BR_USER_DISABLE false f.

Definition get_inst_permissions (esi : Z) f : Z := default 0 (f_inst_permissions f !! esi).
Definition inst_permission f (esi : Z) (p : InstPermissions) : bool :=
  Z.testbit (get_inst_permissions esi f) (permission_bit p).
Definition user_disable_inst (esi : Z) f : FirmRisk D :=
  f <| f_inst_permissions :=
    <[esi := bit_set (permission_bit IP_USER_DISABLE) (get_inst_permissions esi f)]>
      (f_inst_permissions f) |>.
Definition user_enable_inst (esi : Z) f : FirmRisk D :=
  f <| f_inst_permissions :=
    <[esi := bit_reset (permission_bit IP_USER_DISABLE) (get_inst_permissions esi f)]>
      (f_inst_permissions f) |>.

(** ** [new_order] *)

(** No subpenny price above a dollar, no submil price below. *)
Definition nms_price_ok (price : D) : bool :=
  let half := d_lit 1 2 in
  if (d_of_Z 1 <=? price)%dbl
  then Z.rem (d_to_i64 (price * d_of_Z 10000 + half)%dbl) 100 =? 0
  else Z.rem (d_to_i64 (price * d_of_Z 1000000 + half)%dbl) 100 =? 0.

(** The mode's restriction; [check_flatten_only] is where FLATTEN_ONLY jumps,
    past the test of the stock's own disable bit. *)
Definition mode_allows (m : Mode) o : bool :=
  match m with
  | NORMAL | FLATTEN_ONLY => true
  | DISABLE_ALL | MODE_UNKNOWN => false
  | LENGTHEN_ONLY => is_buy (o_side o)
  | SHORTEN_ONLY => negb (Side_to_Z (o_side o) <=? Side_to_Z BUY)
  end.
Definition stock_allows (m : Mode) (esi : Z) f : bool :=
  bool_decide (m = FLATTEN_ONLY) || negb (inst_permission f esi IP_USER_DISABLE).
Definition flatten_allows (esi : Z) (q : Z) o f : bool :=
  if inst_permission f esi IP_FLATTEN_ONLY || bool_decide (f_mode f = FLATTEN_ONLY)
  then if 0 <? q then negb (is_buy (o_side o)) else is_buy (o_side o)
  else true.

Definition order_notional o : D := (d_of_Z (o_size o) * o_price o)%dbl.

Definition notional_allows (m : Mode) o f : bool :=
  let n := order_notional o in
  negb (bool_decide (m = NORMAL) && (f_gross_notional_limit f <=? gross_notional f + n)%dbl)
  && negb (f_gross_open_exposure_limit f <=? gross_open_exposure f + n)%dbl
  && (if is_buy (o_side o) then
        negb (f_net_notional_limit f <=? net_notional f + n)%dbl
        && negb (f_long_open_exposure_limit f <=? f_long_open_exposure f + n)%dbl
      else
        negb (net_notional f - n <=? - f_net_notional_limit f)%dbl
        && negb (f_short_open_exposure f - n <=? short_open_exposure_limit f)%dbl).

(** [inst] is the order's instrument.  [mode()] may store a recomputed mode. *)
Definition firm_new_order o (inst : EquityInstrument D) f : bool * FirmRisk D :=
  let '(m, f) := mode f in
  (mode_allows m o
   && stock_allows m (i_esi inst) f
   && flatten_allows (i_esi inst) (quantity (i_position inst)) o f
   && nms_price_ok (o_price o)
   && notional_allows m o f, f).

Definition is_passive o : bool :=
  negb (bool_decide (o_tif o = IMMEDIATE_OR_CANCEL))
  && negb (bool_decide (o_tif o = FILL_OR_KILL)).
Definition firm_cancel_order (_ : Order D) : bool := true.
Definition firm_replace_order (_ _ : Order D) : bool := false.

(** ** Events on an order's position *)

Definition on_order_adds o (add_size : Z) f p : FirmRisk D * Position D :=
  if is_buy (o_side o) then
    let prior := long_open_exposure p in
    let p := add_open_buys (o_price o) add_size p in
    (update_open_exposure_breaker_state (o_side o)
       (f <| f_long_open_exposure :=
            (f_long_open_exposure f + (long_open_exposure p - prior))%dbl |>), p)
  else
    let prior := short_open_exposure p in
    let p := add_open_sells (o_price o) add_size p in
    (update_open_exposure_breaker_state (o_side o)
       (f <| f_short_open_exposure :=
            (f_short_open_exposure f + (short_open_exposure p - prior))%dbl |>), p).

Definition on_order_removes o (cancel_size : Z) f p : res (FirmRisk D * Position D) :=
  if is_buy (o_side o) then
    let prior := long_open_exposure p in
    p ← sub_open_buys (o_price o) cancel_size p;
    Ok (update_open_exposure_breaker_state (o_side o)
          (f <| f_long_open_exposure :=
               (f_long_open_exposure f + (long_open_exposure p - prior))%dbl |>), p)
  else
    let prior := short_open_exposure p in
    p ← sub_open_sells (o_price o) cancel_size p;
    Ok (update_open_exposure_breaker_state (o_side o)
          (f <| f_short_open_exposure :=
               (f_short_open_exposure f + (short_open_exposure p - prior))%dbl |>), p).

(** The notionals before the fill are taken out, those after it put in. *)
Definition notional_out p f : FirmRisk D :=
  if 0 <? p_trading_quantity p then
    f <| f_long_notional := (f_long_notional f - notional p)%dbl |>
  else if p_trading_quantity p <? 0 then
    f <| f_short_notional := (f_short_notional f - notional p)%dbl |>
  else f.
Definition notional_in p f : FirmRisk D :=
  if 0 <? p_trading_quantity p then
    f <| f_long_notional := (f_long_notional f + notional p)%dbl |>
  else if p_trading_quantity p <? 0 then
    f <| f_short_notional := (f_short_notional f + notional p)%dbl |>
  else f.

Definition on_order_fill o (size : Z) (price fee : D) f p : res (FirmRisk D * Position D) :=
  let f := notional_out p f in
  let p' := update_realized_and_unrealized_pnl (o_side o) size price fee p in
  let f := f <| f_total_realized :=
                  (f_total_realized f + (p_realized p' - p_realized p))%dbl |>
             <| f_total_unrealized :=
                  (f_total_unrealized f + (p_unrealized p' - p_unrealized p))%dbl |> in
  let f := notional_in p' f in
  '(f, p') ← on_order_removes o size f p';
  Ok (update_open_exposure_breaker_state (o_side o)
        (update_notional_breaker_state (update_pnl_breaker_state f)), p').

(** [on_last_sale_change]; the argument is [to_double(ls.price)]. *)
Definition firm_on_last_sale_change (px : D) f p : FirmRisk D * Position D :=
  if p_trading_quantity p =? 0 then (f, p)
  else
    let p' := on_update_mark px p in
    let f := f <| f_total_unrealized :=
      (f_total_unrealized f + (p_unrealized p' - p_unrealized p))%dbl |> in
    let dn := (notional p' - notional p)%dbl in
    let f := if 0 <? p_trading_quantity p'
             then f <| f_long_notional := (f_long_notional f + dn)%dbl |>
             else f <| f_short_notional := (f_short_notional f + dn)%dbl |> in
    (update_notional_breaker_state (update_pnl_breaker_state f), p').

(** ** Reports *)

Record Status := mkStatus { s_mode : Mode; s_breakers : Z }.
Definition status f : Status := mkStatus (f_mode f) (f_breakers f).

(** [print_breaker_helper]: the name when set, and the separator. *)
Definition print_breaker (bits : Z) (b : Breakers) (comma : bool) : string :=
  (if Z.testbit bits (breaker_bit b) then Breakers_to_string b else "")
    +:+ (if comma then "," else "").
Definition Status_to_string (s : Status) : string :=
  Mode_to_string (s_mode s) +:+ "," +:+
  print_breaker (s_breakers s) REALIZED_LOSS true +:+
  print_breaker (s_breakers s) UNREALIZED_LOSS true +:+
  print_breaker (s_breakers s) GROSS_NOTIONAL true +:+
  print_breaker (s_breakers s) NET_NOTIONAL true +:+
  print_breaker (s_breakers s) LONG_OPEN true +:+
  print_breaker (s_breakers s) SHORT_OPEN true +:+
  print_breaker (s_breakers s) GROSS_OPEN true +:+
  print_breaker (s_breakers s) BR_USER_DISABLE false.

(** [FirmRiskSnapshot] *)
Record FirmRiskSnapshot := mkSnapshot {
  sn_long_notional : D; sn_short_notional : D;
  sn_long_open_exposure : D; sn_short_open_exposure : D;
  sn_total_realized : D; sn_total_unrealized : D
}.
Definition snapshot f : FirmRiskSnapshot :=
  mkSnapshot (f_long_notional f) (f_short_notional f) (f_long_open_exposure f)
    (f_short_open_exposure f) (f_total_realized f) (f_total_unrealized f).

(** [FirmRiskLimits] *)
Record FirmRiskLimits := mkLimits {
  l_realized_loss : D; l_unrealized_loss : D; l_gross_notional : D; l_net_notional : D;
  l_long_open_exposure : D; l_short_open_exposure : D; l_gross_open_exposure : D
}.
Definition limits f : FirmRiskLimits :=
  mkLimits (realized_loss_limit f) (unrealized_loss_limit f) (f_gross_notional_limit f)
    (f_net_notional_limit f) (f_long_open_exposure_limit f) (short_open_exposure_limit f)
    (f_gross_open_exposure_limit f).

(** [PortfolioRiskCheck] and [SessionRiskCheck] pass everything. *)
Definition portfolio_new_order (_ : Order D) : bool := true.
Definition portfolio_cancel_order (_ : Order D) : bool := true.
Definition portfolio_replace_order (_ _ : Order D) : bool := true.
Definition session_new_order (_ : Order D) : bool := true.
Definition session_cancel_order (_ : Order D) : bool := true.
Definition session_replace_order (_ _ : Order D) : bool := true.
End FirmRisk.

Arguments FirmRiskSnapshot D : clear implicits.
Arguments FirmRiskLimits D : clear implicits.

(** ** Lemmas on bits and breakers *)

Lemma breaker_bit_nonneg b : 0 <= breaker_bit b.
Proof. destruct b; cbn; lia. Qed.
Lemma breaker_bit_inj b b' : breaker_bit b = breaker_bit b' → b = b'.
Proof. by destruct b, b'. Qed.

Lemma testbit_put n v bits m : 0 <= n → 0 <= m →
  Z.testbit (bit_put n v bits) m = if decide (n = m) then v else Z.testbit bits m.
Proof.
  intros. unfold bit_put, bit_set, bit_reset. destruct v; case_decide; subst.
  - by apply Z.setbit_eq.
  - by apply Z.setbit_neq.
  - by apply Z.clearbit_eq.
  - by apply Z.clearbit_neq.
Qed.

Section BreakerLemmas.
Context {D : Type} `{Dbl D}.
Implicit Types (f : FirmRisk D) (o : Order D) (p : Position D).

Lemma breaker_put b v f b' :
  breaker (put_breaker b v f) b' = if decide (b = b') then v else breaker f b'.
Proof.
  unfold breaker, put_breaker; cbn -[bit_put]. rewrite testbit_put by apply breaker_bit_nonneg.
  do 2 case_decide; try done; exfalso; naive_solver eauto using breaker_bit_inj.
Qed.

(** What each breaker bit should say of the totals. *)
Definition breaker_cond f (b : Breakers) : bool :=
  match b with
  | REALIZED_LOSS => realized_loss_breaker f
  | UNREALIZED_LOSS => unrealized_loss_breaker f
  | GROSS_NOTIONAL => gross_notional_breaker f
  | NET_NOTIONAL => net_notional_breaker f
  | LONG_OPEN => long_open_exposure_breaker f
  | SHORT_OPEN => short_open_exposure_breaker f
  | GROSS_OPEN => gross_open_exposure_breaker f
  | BR_USER_DISABLE => breaker f BR_USER_DISABLE
  end.
Definition breakers_exact f : Prop := ∀ b, breaker f b = breaker_cond f b.

Definition pnl_bits (b : Breakers) : bool :=
  match b with REALIZED_LOSS | UNREALIZED_LOSS => true | _ => false end.
Definition notional_bits (b : Breakers) : bool :=
  match b with GROSS_NOTIONAL | NET_NOTIONAL => true | _ => false end.
Definition open_bits (s : Side) (b : Breakers) : bool :=
  match b with
  | LONG_OPEN => is_buy s | SHORT_OPEN => negb (is_buy s) | GROSS_OPEN => true | _ => false
  end.

(** Each update makes its own bits exact and leaves the others alone. *)
Lemma update_pnl_bits f b :
  breaker (update_pnl_breaker_state f) b = if pnl_bits b then breaker_cond f b else breaker f b.
Proof. unfold update_pnl_breaker_state. rewrite !breaker_put. by destruct b. Qed.
Lemma update_notional_bits f b :
  breaker (update_notional_breaker_state f) b
  = if notional_bits b then breaker_cond f b else breaker f b.
Proof. unfold update_notional_breaker_state. rewrite !breaker_put. by destruct b. Qed.
Lemma update_open_bits s f b :
  breaker (update_open_exposure_breaker_state s f) b
  = if open_bits s b then breaker_cond f b else breaker f b.
Proof.
  unfold update_open_exposure_breaker_state. destruct (is_buy s) eqn:Hs; rewrite !breaker_put;
    destruct b; cbn; rewrite ?Hs; done.
Qed.

(** The totals and limits that the conditions read. *)
Definition same_totals f f' : Prop :=
  f_long_notional f' = f_long_notional f /\ f_short_notional f' = f_short_notional f
  /\ f_long_open_exposure f' = f_long_open_exposure f
  /\ f_short_open_exposure f' = f_short_open_exposure f
  /\ f_total_realized f' = f_total_realized f
  /\ f_total_unrealized f' = f_total_unrealized f
  /\ limits f' = limits f.

#[export] Instance same_totals_equiv : Equivalence same_totals.
Proof. unfold same_totals. split; repeat intro; intuition congruence. Qed.

(** The conditions are functions of the totals. *)
#[export] Instance breaker_cond_proper b :
  b ≠ BR_USER_DISABLE → Proper (same_totals ==> eq) (λ f, breaker_cond f b).
Proof.
  intros Hb f f' (E1 & E2 & E3 & E4 & E5 & E6 & E7). unfold limits in E7. injection E7.
  intros. destruct b; try done; cbn;
    unfold realized_loss_breaker, unrealized_loss_breaker, gross_notional_breaker,
      net_notional_breaker, long_open_exposure_breaker, short_open_exposure_breaker,
      gross_open_exposure_breaker, abs_net_notional, net_notional, gross_notional,
      gross_open_exposure; rewrite ?E1, ?E2, ?E3, ?E4, ?E5, ?E6; congruence.
Qed.

Lemma same_totals_pnl f : same_totals f (update_pnl_breaker_state f).
Proof. by repeat split. Qed.
Lemma same_totals_notional f : same_totals f (update_notional_breaker_state f).
Proof. by repeat split. Qed.
Lemma same_totals_open s f : same_totals f (update_open_exposure_breaker_state s f).
Proof. unfold update_open_exposure_breaker_state. destruct (is_buy s); by repeat split. Qed.
Lemma same_totals_mode f : same_totals f (mode f).2.
Proof. unfold mode; cbn. by case_if. Qed.

Lemma cond_totals f f' b : b ≠ BR_USER_DISABLE → same_totals f f' →
  breaker_cond f' b = breaker_cond f b.
Proof. intros Hb Hs. symmetry. by apply (breaker_cond_proper b Hb). Qed.

Lemma dirty_open s f : f_dirty_mode (update_open_exposure_breaker_state s f) = true.
Proof. unfold update_open_exposure_breaker_state. by destruct (is_buy s). Qed.
End BreakerLemmas.

#[export] Hint Resolve same_totals_pnl same_totals_notional same_totals_open same_totals_mode : i01.
#[export] Hint Rewrite @breaker_put @update_pnl_bits @update_notional_bits @update_open_bits : i01.

(** ** Runs of the firm check over many instruments

    The positions of the instruments by index, and the events that reach
    [FirmRiskCheck]; an event on an unknown instrument is a null dereference. *)

Inductive RiskEvent (D : Type) :=
| RAdds (o : Order D) (size : Z)
| RRemoves (o : Order D) (size : Z)
| RFill (o : Order D) (size : Z) (price fee : D)
| RLastSale (esi : Z) (price : D)
| RUserDisable
| RUserEnable
| RUserDisableInst (esi : Z)
| RUserEnableInst (esi : Z)
| RNewOrder (o : Order D) (inst : EquityInstrument D).
Arguments RAdds {D}.
Arguments RRemoves {D}.
Arguments RFill {D}.
Arguments RLastSale {D}.
Arguments RUserDisable {D}.
Arguments RUserEnable {D}.
Arguments RUserDisableInst {D}.
Arguments RUserEnableInst {D}.
Arguments RNewOrder {D}.

Definition RiskState (D : Type) : Type := FirmRisk D * gmap Z (Position D).

Section Runs.
Context {D : Type} `{Dbl D}.
Implicit Types (f : FirmRisk D) (o : Order D) (p : Position D).

(** Runs [g] on the position of instrument [esi] and stores the result. *)
Definition on_position (esi : Z) (g : Position D → res (FirmRisk D * Position D))
    (ps : gmap Z (Position D)) : res (RiskState D) :=
  match ps !! esi with
  | None => Fail (UndefinedBehaviour "null instrument")
  | Some p => '(f', p') ← g p; Ok (f', <[esi := p']> ps)
  end.

Definition risk_step (s : RiskState D) (e : RiskEvent D) : res (RiskState D) :=
  let '(f, ps) := s in
  match e with
  | RAdds o size => on_position (o_instrument o) (λ p, Ok (on_order_adds o size f p)) ps
  | RRemoves o size => on_position (o_instrument o) (on_order_removes o size f) ps
  | RFill o size price fee =>
      on_position (o_instrument o) (on_order_fill o size price fee f) ps
  | RLastSale esi price => on_position esi (λ p, Ok (firm_on_last_sale_change price f p)) ps
  | RUserDisable => Ok (user_disable f, ps)
  | RUserEnable => Ok (user_enable f, ps)
  | RUserDisableInst esi => Ok (user_disable_inst esi f, ps)
  | RUserEnableInst esi => Ok (user_enable_inst esi f, ps)
  | RNewOrder o inst => Ok ((firm_new_order o inst f).2, ps)
  end.
Definition risk_run : RiskState D → list (RiskEvent D) → res (RiskState D) :=
  foldM risk_step.

Lemma on_position_Ok esi g ps s :
  on_position esi g ps = Ok s ↔
  ∃ p p', ps !! esi = Some p /\ g p = Ok (s.1, p') /\ s.2 = <[esi := p']> ps.
Proof.
  unfold on_position. destruct (ps !! esi) as [p|]; [|split; [done|by intros (?&?&?&_)]].
  rewrite res_bind_Ok. split.
  - intros ([f' p'] & Hg & [= <-]). by exists p, p'.
  - intros (p0 & p' & [= <-] & Hg & Hs). exists (s.1, p'). split; [done|].
    rewrite <- Hs. by destruct s.
Qed.

(** Which of the three updates an event ends with, by the totals it touched. *)
Lemma on_order_adds_spec o n f p f' p' : on_order_adds o n f p = (f', p') →
  ∃ f1, f' = update_open_exposure_breaker_state (o_side o) f1
    /\ (∀ b, open_bits (o_side o) b = false → b ≠ BR_USER_DISABLE →
          breaker_cond f1 b = breaker_cond f b)
    /\ f_breakers f1 = f_breakers f.
Proof.
  unfold on_order_adds, open_bits.
  destruct (is_buy (o_side o)) eqn:Hb; intros [= <- <-]; eexists; (split; [done|]);
    (split; [|done]); intros [] Hbit Hu; try done; by rewrite Hb in Hbit.
Qed.

Lemma on_order_removes_spec o n f p f' p' : on_order_removes o n f p = Ok (f', p') →
  ∃ f1, f' = update_open_exposure_breaker_state (o_side o) f1
    /\ (∀ b, open_bits (o_side o) b = false → b ≠ BR_USER_DISABLE →
          breaker_cond f1 b = breaker_cond f b)
    /\ f_breakers f1 = f_breakers f.
Proof.
  unfold on_order_removes, open_bits.
  destruct (is_buy (o_side o)) eqn:Hb; intros Hr; res_inv; eexists; (split; [done|]);
    (split; [|done]); intros [] Hbit Hu; try done; by rewrite Hb in Hbit.
Qed.

Lemma exact_open s f f1 :
  (∀ b, open_bits s b = false → b ≠ BR_USER_DISABLE → breaker_cond f1 b = breaker_cond f b) →
  f_breakers f1 = f_breakers f →
  breakers_exact f → breakers_exact (update_open_exposure_breaker_state s f1).
Proof.
  intros Hc Hb Hex b. destruct (decide (b = BR_USER_DISABLE)) as [->|Hu]; [done|].
  rewrite (cond_totals f1) by eauto with i01. rewrite update_open_bits. case_if; [done|].
  rewrite Hc by done. unfold breaker. rewrite Hb. apply Hex.
Qed.

(** A fill and a price change recompute all the bits they can affect. *)
Lemma exact_pnl_notional f f1 :
  (∀ b, open_bits BUY b || open_bits SELL b = true → breaker f1 b = breaker_cond f1 b) →
  breakers_exact (update_notional_breaker_state (update_pnl_breaker_state f1)).
Proof.
  intros Ho b. destruct (decide (b = BR_USER_DISABLE)) as [->|Hu]; [done|].
  rewrite (cond_totals (update_pnl_breaker_state f1)) by eauto with i01.
  rewrite update_notional_bits, update_pnl_bits, (cond_totals f1) by eauto with i01.
  destruct b; try done; by apply Ho.
Qed.

Lemma exact_open_self s f :
  breakers_exact f → breakers_exact (update_open_exposure_breaker_state s f).
Proof. intros. by apply exact_open with f. Qed.

Lemma exact_fill o n px fee f p f' p' :
  breakers_exact f → on_order_fill o n px fee f p = Ok (f', p') → breakers_exact f'.
Proof.
  intros Hex. unfold on_order_fill. intros Hf. res_inv. destruct x as [f1 p1].
  cbn in Hf. res_inv. apply exact_open_self, exact_pnl_notional; [exact f|].
  apply on_order_removes_spec in Hx as (f2 & -> & Hc & Hb).
  set (f3 := notional_in _ _) in *.
  assert (f_breakers f3 = f_breakers f) as Hb3.
  { subst f3. unfold notional_in, notional_out. by repeat case_if. }
  assert (∀ b, open_bits BUY b || open_bits SELL b = true →
    breaker_cond f3 b = breaker_cond f b) as Hc3.
  { subst f3. intros []; try done; intros _; unfold notional_in, notional_out;
      by repeat case_if. }
  intros b Hbit. assert (b ≠ BR_USER_DISABLE) as Hu by (by intros ->).
  rewrite (cond_totals f2) by eauto with i01. rewrite update_open_bits.
  case_if; [done|]. rewrite Hc by done. unfold breaker. rewrite Hb, Hb3, Hc3 by done.
  apply Hex.
Qed.

Lemma exact_last_sale px f p f' p' :
  breakers_exact f → firm_on_last_sale_change px f p = (f', p') → breakers_exact f'.
Proof.
  intros Hex. unfold firm_on_last_sale_change. case_if; [by intros [= <- <-]|].
  intros [= <- <-]. apply exact_pnl_notional; [exact f|]. intros b Hb.
  specialize (Hex b). unfold breaker in *. case_if; destruct b; done.
Qed.

Lemma exact_mode f : breakers_exact f → breakers_exact (mode f).2.
Proof.
  intros Hex b. destruct (decide (b = BR_USER_DISABLE)) as [->|]; [done|].
  rewrite (cond_totals f) by eauto with i01. rewrite <- Hex. unfold mode, breaker; cbn.
  by case_if.
Qed.

Lemma exact_put_disable v f : breakers_exact f → breakers_exact (put_breaker BR_USER_DISABLE v f).
Proof.
  intros Hex b. destruct (decide (b = BR_USER_DISABLE)) as [->|]; [done|].
  rewrite breaker_put, decide_False by congruence.
  rewrite (cond_totals f) by (done || by repeat split). apply Hex.
Qed.

Lemma firm_new_order_state o inst f : (firm_new_order o inst f).2 = (mode f).2.
Proof. unfold firm_new_order. by destruct (mode f). Qed.

(** Circuit breakers track the totals.  Over any run of order, fill, price
    and operator events on any instruments, in any arithmetic, each breaker bit
    is set exactly when its condition on the current totals and limits holds. *)
Theorem breakers_track_totals f (ps : gmap Z (Position D)) es f' ps'
    (Hex : breakers_exact f) (Hrun : risk_run (f, ps) es = Ok (f', ps')) :
  breakers_exact f'.
Proof.
  refine (foldM_invariant risk_step (λ s, breakers_exact s.1) (λ _, True) es _
    (f, ps) (f', ps') _ Hex Hrun); [|by apply Forall_true].
  clear. intros [f ps] e [f' ps'] _ Hex Hs. cbn [fst] in *.
  destruct e; cbn [risk_step] in Hs;
    try (apply on_position_Ok in Hs as (p & p' & _ & Hg & _); cbn [fst snd] in Hg).
  - injection Hg as Hg. apply on_order_adds_spec in Hg as (f1 & -> & ? & ?).
    by apply exact_open with f.
  - apply on_order_removes_spec in Hg as (f1 & -> & ? & ?). by apply exact_open with f.
  - by eapply exact_fill.
  - injection Hg as Hg. by eapply exact_last_sale.
  - injection Hs as <- <-. by apply exact_put_disable.
  - injection Hs as <- <-. by apply exact_put_disable.
  - by injection Hs as <- <-.
  - by injection Hs as <- <-.
  - injection Hs as <- <-. exact (exact_mode f Hex).
Qed.
End Runs.

(** ** Limits *)

(** A limit that the configuration may have set. *)
Lemma read_limit_bounded lex cfg key (hard old l : Qc) :
  (0 <= old <= hard)%Qc → read_limit lex cfg key hard old = Ok l → (0 <= l <= hard)%Qc.
Proof.
  unfold read_limit. intros Hold. destruct (cs_get lex cfg key) as [v|]; [|by intros [= <-]].
  destruct (v <? d0)%dbl eqn:Hn; [discriminate|].
  destruct (hard <? v)%dbl eqn:Hh; [discriminate|]. intros [= <-].
  ideal_unfold. apply bool_decide_eq_false in Hn, Hh.
  split; by apply Qcnot_lt_le.
Qed.

Definition hard_limits : FirmRiskLimits Qc :=
  mkLimits (- HARD_REALIZED_LOSS_LIMIT)%dbl (- HARD_UNREALIZED_LOSS_LIMIT)%dbl
    HARD_GROSS_NOTIONAL_LIMIT HARD_NET_NOTIONAL_LIMIT HARD_LONG_OPEN_EXPOSURE_LIMIT
    (- HARD_SHORT_OPEN_EXPOSURE_LIMIT)%dbl HARD_GROSS_OPEN_EXPOSURE_LIMIT.

(** The compiled-in limits cannot be configured away: whatever the
    configuration holds, initialisation either throws or leaves every limit
    between zero and its hard limit, in mode NORMAL with no breaker set. *)
Theorem firm_limits_within_hard_limits (lex : string → option Qc) (cfg : ConfigState)
    (f : FirmRisk Qc) (Hinit : firm_init lex cfg FirmRisk_new = Ok f) :
  (0 <= f_realized_loss_limit f <= HARD_REALIZED_LOSS_LIMIT)%Qc
  /\ (0 <= f_unrealized_loss_limit f <= HARD_UNREALIZED_LOSS_LIMIT)%Qc
  /\ (0 <= f_gross_notional_limit f <= HARD_GROSS_NOTIONAL_LIMIT)%Qc
  /\ (0 <= f_net_notional_limit f <= HARD_NET_NOTIONAL_LIMIT)%Qc
  /\ (0 <= f_long_open_exposure_limit f <= HARD_LONG_OPEN_EXPOSURE_LIMIT)%Qc
  /\ (0 <= f_short_open_exposure_limit f <= HARD_SHORT_OPEN_EXPOSURE_LIMIT)%Qc
  /\ (0 <= f_gross_open_exposure_limit f <= HARD_GROSS_OPEN_EXPOSURE_LIMIT)%Qc
  /\ f_mode f = NORMAL /\ f_breakers f = 0.
Proof.
  unfold firm_init in Hinit. res_inv.
  assert (∀ z, 0 <= z → (0 <= @d0 Qc _ <= d_of_Z z)%Qc) as Hz.
  { intros z Hz. ideal_unfold. split; [apply Qcle_refl|by apply qc_of_Z_nonneg]. }
  repeat match goal with
  | Hr : read_limit _ _ _ _ _ = Ok _ |- _ =>
      apply read_limit_bounded in Hr; [|cbn [FirmRisk_new f_realized_loss_limit
        f_unrealized_loss_limit f_gross_notional_limit f_net_notional_limit
        f_long_open_exposure_limit f_short_open_exposure_limit f_gross_open_exposure_limit];
        apply Hz; lia]
  end.
  cbn. tauto.
Qed.

Definition sample_lex (s : string) : option Qc :=
  if bool_decide (s = "1e5") then Some (d_of_Z 100000)
  else if bool_decide (s = "1e9") then Some (d_of_Z 1000000000) else None.
Definition sample_cfg (gross : string) : ConfigState :=
  cs_create (list_to_map
    [("realized_loss_limit", "1e5"); ("unrealized_loss_limit", "1e5");
     ("gross_notional_limit", gross); ("net_notional_limit", "1e5");
     ("long_open_exposure_limit", "1e5"); ("short_open_exposure_limit", "1e5");
     ("gross_open_exposure_limit", "1e5")]) "oe.risk.firm.".
Definition sample_firm : FirmRisk Qc :=
  match firm_init sample_lex (sample_cfg "1e5") FirmRisk_new with
  | Ok f => f | Fail _ => FirmRisk_new
  end.

Lemma firm_limits_within_hard_limits_witness :
  (0 <= f_gross_notional_limit sample_firm <= HARD_GROSS_NOTIONAL_LIMIT)%Qc
  /\ firm_init sample_lex (sample_cfg "1e9") FirmRisk_new
     = Fail (Thrown "gross_notional_limit exceeds hard limit").
Proof.
  split; [|vm_compute; reflexivity].
  assert (firm_init sample_lex (sample_cfg "1e5") FirmRisk_new = Ok sample_firm) as Hf
    by (vm_compute; reflexivity).
  pose proof (firm_limits_within_hard_limits _ _ _ Hf) as (_ & _ & H & _). exact H.
Defined.

(** In the program's arithmetic a limit configured as not-a-number passes
    both tests of [init], and the gross notional breaker and the gross notional
    test of [new_order] are then off whatever the totals are. *)
Theorem nan_limit_disarms_gross_notional (lex : string → option spec_float)
    (cfg : ConfigState) (key : string) (hard old : spec_float)
    (Hcfg : cs_get lex cfg key = Some S754_nan) :
  read_limit lex cfg key hard old = Ok S754_nan
  /\ ∀ f : FirmRisk spec_float, f_gross_notional_limit f = S754_nan →
       gross_notional_breaker f = false
       /\ ∀ o, (f_gross_notional_limit f <=? gross_notional f + order_notional o)%dbl = false.
Proof.
  unfold read_limit. rewrite Hcfg. split.
  - by destruct hard as [| | |[] ? ?].
  - intros f Hf. unfold gross_notional_breaker. rewrite Hf. split; [|intros o]; reflexivity.
Qed.

Lemma nan_limit_disarms_gross_notional_witness :
  let lex s := if bool_decide (s = "nan") then Some S754_nan else Some (d_of_Z 100000) in
  match firm_init lex (sample_cfg "nan") FirmRisk_new with
  | Ok f => f_gross_notional_limit f = S754_nan
      /\ gross_notional_breaker (f <| f_long_notional := S754_infinity false |>) = false
  | Fail _ => False
  end.
Proof.
  intros lex.
  destruct (nan_limit_disarms_gross_notional lex (sample_cfg "nan") "gross_notional_limit"
    HARD_GROSS_NOTIONAL_LIMIT d0 ltac:(vm_compute; reflexivity)) as [_ H].
  destruct (firm_init lex (sample_cfg "nan") FirmRisk_new) as [f|] eqn:E;
    vm_compute in E; [|discriminate E].
  injection E as <-. split; [reflexivity|]. apply H. reflexivity.
Defined.

(** ** Mode and the kill switch *)

Lemma user_disable_rejects `{Dbl D} (f : FirmRisk D) o inst :
  f_dirty_mode f = true → breaker f BR_USER_DISABLE = true →
  (firm_new_order o inst f).1 = false.
Proof.
  intros Hd Hb. unfold firm_new_order, mode. rewrite Hd. unfold update_mode. by rewrite Hb.
Qed.

(** An order, fill or price event, i.e. one that recomputes breakers. *)
Definition is_activity {D} (e : RiskEvent D) : bool :=
  match e with RAdds _ _ | RRemoves _ _ | RFill _ _ _ _ => true | _ => false end.
Definition no_enable {D} (e : RiskEvent D) : bool :=
  match e with RUserEnable => false | _ => true end.

Section KillSwitch.
Context {D : Type} `{Dbl D}.
Implicit Types (f : FirmRisk D).

Lemma risk_step_disable f ps e f' ps' :
  no_enable e = true → risk_step (f, ps) e = Ok (f', ps') →
  (f_dirty_mode f = true → f_dirty_mode f' = true)
  /\ (is_activity e = true → f_dirty_mode f' = true)
  /\ (breaker f BR_USER_DISABLE = true → breaker f' BR_USER_DISABLE = true).
Proof.
  intros He Hs.
  assert (∀ s f1 f2, f_breakers f2 = f_breakers f1 → breaker f1 BR_USER_DISABLE = true →
    breaker (update_open_exposure_breaker_state s f2) BR_USER_DISABLE = true) as Hopen.
  { intros s f1 f2 Hb. unfold breaker at 1. rewrite <- Hb.
    change (breaker f2 BR_USER_DISABLE = true → 
      breaker (update_open_exposure_breaker_state s f2) BR_USER_DISABLE = true).
    by rewrite update_open_bits. }
  assert (∀ f1 f2, f_breakers f2 = f_breakers f1 → breaker f1 BR_USER_DISABLE = true →
    breaker (update_notional_breaker_state (update_pnl_breaker_state f2)) BR_USER_DISABLE = true)
    as Hpn.
  { intros f1 f2 Hb. unfold breaker at 1. rewrite <- Hb.
    change (breaker f2 BR_USER_DISABLE = true → breaker (update_notional_breaker_state
      (update_pnl_breaker_state f2)) BR_USER_DISABLE = true).
    by rewrite update_notional_bits, update_pnl_bits. }
  destruct e; cbn [risk_step] in Hs;
    try (apply on_position_Ok in Hs as (p & p' & _ & Hg & _); cbn [fst snd] in Hg).
  - injection Hg as Hg. apply on_order_adds_spec in Hg as (f1 & -> & _ & Hb).
    split_and!; [by rewrite dirty_open..|]. by apply Hopen.
  - apply on_order_removes_spec in Hg as (f1 & -> & _ & Hb).
    split_and!; [by rewrite dirty_open..|]. by apply Hopen.
  - unfold on_order_fill in Hg. res_inv. destruct x as [f1 p1]. cbn in Hg. res_inv.
    apply on_order_removes_spec in Hx as (f2 & -> & _ & Hb).
    split_and!; [by rewrite dirty_open..|]. intros Hd.
    assert (breaker f2 BR_USER_DISABLE = true) as Hd2.
    { unfold breaker in *. rewrite Hb. unfold notional_in, notional_out. by repeat case_if. }
    eapply Hopen; [reflexivity|]. eapply Hpn; [reflexivity|]. eapply Hopen; [reflexivity|done].
  - injection Hg as Hg. unfold firm_on_last_sale_change in Hg. case_if; [by injection Hg as <- <-|].
    injection Hg as <- <-. split_and!; try done. intros Hd.
    apply Hpn with f; [by case_if|done].
  - injection Hs as <- <-. split_and!; try done. intros _. by apply breaker_put.
  - done.
  - by injection Hs as <- <-.
  - by injection Hs as <- <-.
  - injection Hs as <- <-. split_and!; try done; by case_if.
Qed.

Lemma risk_run_disable es : ∀ f ps f' ps',
  Forall (λ e, no_enable e = true) es → risk_run (f, ps) es = Ok (f', ps') →
  breaker f BR_USER_DISABLE = true →
  (f_dirty_mode f = true \/ existsb is_activity es = true) →
  f_dirty_mode f' = true /\ breaker f' BR_USER_DISABLE = true.
Proof.
  induction es as [|e es IH]; intros f ps f' ps' Hall Hrun Hb Hd; cbn in Hrun.
  - injection Hrun as <- <-. split; [|done]. destruct Hd as [|Hd]; [done|discriminate Hd].
  - apply Forall_cons in Hall as [He Hall]. apply res_bind_Ok in Hrun as ([f1 ps1] & H1 & H2).
    destruct (risk_step_disable _ _ _ _ _ He H1) as (D1 & D2 & D3).
    apply (IH f1 ps1 f' ps' Hall H2 (D3 Hb)).
    destruct Hd as [Hd|Hd]; [auto|]. cbn in Hd. apply orb_true_iff in Hd as [Hd|Hd]; auto.
Qed.
End KillSwitch.

(** Kill switch.  Once the operator has disabled trading and, before or
    after that, an order event has been processed, every new order is rejected
    until trading is enabled again, whatever else happens. *)
Theorem kill_switch_rejects `{Dbl D} (f f' : FirmRisk D) ps ps' es o inst
    (Hall : Forall (λ e, no_enable e = true) es)
    (Hrun : risk_run (user_disable f, ps) es = Ok (f', ps'))
    (Hactive : f_dirty_mode f = true \/ existsb is_activity es = true) :
  (firm_new_order o inst f').1 = false.
Proof.
  destruct (risk_run_disable es _ _ _ _ Hall Hrun) as [Hd Hb]; [|done|].
  - unfold user_disable. by rewrite breaker_put.
  - by apply user_disable_rejects.
Qed.

Lemma kill_switch_rejects_witness :
  match risk_run (user_disable sample_firm, {[1 := Position_new 0 d0]})
          [RAdds (sample_order 100 100 BUY) 100] with
  | Ok (f', _) => (firm_new_order (sample_order 101 100 BUY) sample_instrument f').1 = false
  | Fail _ => False
  end.
Proof.
  destruct (risk_run _ _) as [[f' ps']|] eqn:E; [|vm_compute in E; discriminate E].
  refine (kill_switch_rejects sample_firm f' _ ps' _ _ _ _ E _); [repeat constructor|].
  right. reflexivity.
Defined.

(** Before the first event the kill switch does nothing: [user_disable()]
    discards the mode it computes, and [mode()] does not recompute it, so
    [new_order] answers as if trading were enabled. *)
Theorem kill_switch_ignored_before_first_event `{Dbl D} (f : FirmRisk D) o inst
    (Hclean : f_dirty_mode f = false) :
  (firm_new_order o inst (user_disable f)).1 = (firm_new_order o inst f).1.
Proof.
  unfold firm_new_order, mode.
  change (f_dirty_mode (user_disable f)) with (f_dirty_mode f). by rewrite Hclean.
Qed.

Lemma kill_switch_ignored_before_first_event_witness :
  (firm_new_order (sample_order 100 100 BUY) sample_instrument (user_disable sample_firm)).1
  = true.
Proof.
  rewrite (kill_switch_ignored_before_first_event sample_firm) by (vm_compute; reflexivity).
  vm_compute. reflexivity.
Defined.

Lemma disable_inst_flatten `{Dbl D} (f : FirmRisk D) esi :
  inst_permission (user_disable_inst esi f) esi IP_FLATTEN_ONLY
  = inst_permission f esi IP_FLATTEN_ONLY.
Proof.
  unfold inst_permission, user_disable_inst, get_inst_permissions, bit_set.
  cbn [set_field f_inst_permissions]. rewrite lookup_insert_eq. cbn [default id].
  by rewrite Z.setbit_neq.
Qed.

(** In FLATTEN_ONLY mode the check jumps past the stock's own disable bit,
    so disabling the stock changes no decision; and with no position at all a
    buy passes the flatten test. *)
Theorem flatten_only_ignores_stock_disable `{Dbl D} (f : FirmRisk D) o inst
    (Hmode : (mode f).1 = FLATTEN_ONLY) :
  (firm_new_order o inst (user_disable_inst (i_esi inst) f)).1 = (firm_new_order o inst f).1
  /\ (o_side o = BUY → quantity (i_position inst) = 0 →
        flatten_allows (i_esi inst) (quantity (i_position inst)) o (mode f).2 = true).
Proof.
  assert (∀ g h : FirmRisk D, (mode g).1 = FLATTEN_ONLY → (mode h).2 = user_disable_inst (i_esi inst) (mode g).2 →
    (mode h).1 = FLATTEN_ONLY → (firm_new_order o inst h).1 = (firm_new_order o inst g).1) as Hgen.
  { intros g h Hg Hh Hm. unfold firm_new_order. destruct (mode g) as [m g'], (mode h) as [m' h'].
    cbn in Hg, Hh, Hm. subst. cbn [fst]. unfold stock_allows, flatten_allows.
    rewrite disable_inst_flatten. reflexivity. }
  split.
  - apply Hgen; [done|..]; unfold mode in *; cbn in *; by destruct (f_dirty_mode f).
  - intros Hs Hq. unfold flatten_allows. rewrite Hq, Hs. by case_if.
Qed.

Lemma flatten_only_ignores_stock_disable_witness :
  let f := sample_firm <| f_dirty_mode := true |> <| f_breakers := 4 |> in
  (firm_new_order (sample_order 100 100 BUY) sample_instrument (user_disable_inst 1 f)).1 = true.
Proof.
  intros f.
  destruct (flatten_only_ignores_stock_disable f (sample_order 100 100 BUY) sample_instrument
    ltac:(vm_compute; reflexivity)) as [H _].
  change (i_esi sample_instrument) with 1 in H. rewrite H. vm_compute. reflexivity.
Defined.

(** ** Accepted orders and the open exposure breakers *)

Lemma qc_leb_false (x y : Qc) : (x <=? y)%dbl = false ↔ (y < x)%Qc.
Proof.
  ideal_unfold. rewrite bool_decide_eq_false. split; [apply Qcnot_le_lt|].
  intros Hl Hle. by apply (Qclt_not_le _ _ Hl).
Qed.

Lemma add_open_buys_exposure (p : Position Qc) px n :
  (long_open_exposure (add_open_buys px n p) - long_open_exposure p)%dbl = (d_of_Z n * px)%dbl.
Proof.
  unfold long_open_exposure.
  change (start_of_day_long_exposure (add_open_buys px n p)) with (start_of_day_long_exposure p).
  cbn -[qc_of_Z start_of_day_long_exposure]. ideal_unfold. ring.
Qed.
Lemma add_open_sells_exposure (p : Position Qc) px n :
  (short_open_exposure (add_open_sells px n p) - short_open_exposure p)%dbl
  = (- (d_of_Z n * px))%dbl.
Proof.
  unfold short_open_exposure.
  change (start_of_day_short_exposure (add_open_sells px n p))
    with (start_of_day_short_exposure p).
  cbn -[qc_of_Z start_of_day_short_exposure]. ideal_unfold. ring.
Qed.

(** In exact arithmetic an order's exposure is its notional. *)
Lemma on_order_adds_exposure (o : Order Qc) (f : FirmRisk Qc) (p : Position Qc) f' p' :
  on_order_adds o (o_size o) f p = (f', p') →
  (if is_buy (o_side o)
   then f_long_open_exposure f' = (f_long_open_exposure f + order_notional o)%Qc
        /\ f_short_open_exposure f' = f_short_open_exposure f
   else f_short_open_exposure f' = (f_short_open_exposure f - order_notional o)%Qc
        /\ f_long_open_exposure f' = f_long_open_exposure f)
  /\ limits f' = limits f /\ f_long_notional f' = f_long_notional f
  /\ f_short_notional f' = f_short_notional f.
Proof.
  unfold on_order_adds. destruct (is_buy (o_side o)) eqn:Hb; intros [= <- <-];
    unfold update_open_exposure_breaker_state; rewrite Hb; (split; [|done]); (split; [|done]).
  - exact (f_equal (Qcplus _) (add_open_buys_exposure p (o_price o) (o_size o))).
  - exact (f_equal (Qcplus _) (add_open_sells_exposure p (o_price o) (o_size o))).
Qed.

(** Adding exposure recomputes the breakers of its side and keeps the others. *)
Lemma adds_bits `{Dbl D} (o : Order D) n f p f' p' b : on_order_adds o n f p = (f', p') →
  breaker f' b = if open_bits (o_side o) b then breaker_cond f' b else breaker f b.
Proof.
  intros (g & -> & _ & Hb)%on_order_adds_spec. rewrite update_open_bits. case_if.
  - symmetry. apply cond_totals; [by intros ->|eauto with i01].
  - unfold breaker. by rewrite Hb.
Qed.

Lemma normal_mode_clear `{Dbl D} (f : FirmRisk D) :
  update_mode f = NORMAL ↔ ∀ b, breaker f b = false.
Proof.
  unfold update_mode. split.
  - intros Hm b. repeat case_if; try discriminate; bools; by destruct b.
  - intros Hc. by rewrite !Hc.
Qed.

(** What acceptance says of the open exposure after the order is added. *)
Lemma accepted_conditions (o : Order Qc) (f f' : FirmRisk Qc) m p p' b :
  notional_allows m o f = true → on_order_adds o (o_size o) f p = (f', p') →
  open_bits (o_side o) b = true → breaker_cond f' b = false.
Proof.
  intros Hn Hadd. destruct (on_order_adds_exposure _ _ _ _ _ Hadd) as (Hexp & Hlim & _).
  assert (f_long_open_exposure_limit f' = f_long_open_exposure_limit f) as L5
    by exact (f_equal l_long_open_exposure Hlim).
  assert (short_open_exposure_limit f' = short_open_exposure_limit f) as L6
    by exact (f_equal l_short_open_exposure Hlim).
  assert (f_gross_open_exposure_limit f' = f_gross_open_exposure_limit f) as L7
    by exact (f_equal l_gross_open_exposure Hlim).
  unfold notional_allows in Hn. bools.
  assert (gross_open_exposure_breaker f' = false) as Hg.
  { unfold gross_open_exposure_breaker. rewrite L7.
    replace (gross_open_exposure f') with (gross_open_exposure f + order_notional o)%dbl; [done|].
    unfold gross_open_exposure. ideal_unfold.
    destruct (is_buy _); destruct Hexp as [-> ->]; ring. }
  unfold open_bits. destruct (is_buy (o_side o)); bools; destruct Hexp as [E1 E2];
    destruct b; try done; intros _; cbn [breaker_cond].
  - unfold long_open_exposure_breaker. by rewrite L5, E1.
  - unfold short_open_exposure_breaker. by rewrite L6, E1.
Qed.

(** C27: Accepted orders keep the firm open.  An order that [new_order] accepts
    while no breaker stops trading trips no breaker when its exposure is then
    added: the mode is still NORMAL and every open exposure is still below its
    limit.  (Exact arithmetic.) *)
Theorem accepted_order_trips_no_breaker (o : Order Qc) (inst : EquityInstrument Qc)
    (f : FirmRisk Qc) f1 f2 p2
    (Hex : breakers_exact f) (Hmode : update_mode f = NORMAL)
    (Hnew : firm_new_order o inst f = (true, f1))
    (Hadd : on_order_adds o (o_size o) f1 (i_position inst) = (f2, p2)) :
  update_mode f2 = NORMAL /\ breakers_exact f2
  /\ long_open_exposure_breaker f2 = false /\ short_open_exposure_breaker f2 = false
  /\ gross_open_exposure_breaker f2 = false.
Proof.
  assert (f1 = (mode f).2) as -> by (rewrite <- (firm_new_order_state o inst), Hnew; done).
  apply (f_equal fst) in Hnew. unfold firm_new_order in Hnew.
  destruct (mode f) as [m g] eqn:Hm. cbn [fst snd] in *. bools.
  assert (g = (mode f).2) as Hg by (by rewrite Hm).
  assert (∀ b, breaker g b = false) as Hclear.
  { intros b. rewrite Hg. rewrite <- (proj1 (normal_mode_clear f) Hmode b).
    unfold mode, breaker; cbn. by case_if. }
  assert (∀ b, breaker f2 b = false) as Hclear2.
  { intros b. rewrite (adds_bits _ _ _ _ _ _ b Hadd). case_if; [|done].
    by eapply accepted_conditions. }
  assert (breakers_exact f2) as Hex2.
  { apply on_order_adds_spec in Hadd as (h & -> & ? & ?). apply exact_open with g; [done..|].
    rewrite Hg. by apply exact_mode. }
  split; [by apply normal_mode_clear|]. split; [done|].
  rewrite <- (Hex2 LONG_OPEN : _ = long_open_exposure_breaker f2),
    <- (Hex2 SHORT_OPEN : _ = short_open_exposure_breaker f2),
    <- (Hex2 GROSS_OPEN : _ = gross_open_exposure_breaker f2), !Hclear2. done.
Qed.

Lemma accepted_order_trips_no_breaker_witness :
  let f := update_open_exposure_breaker_state BUY sample_firm in
  let o := sample_order 100 1000 BUY in
  let r := firm_new_order o sample_instrument f in
  r.1 = true
  /\ update_mode (on_order_adds o 1000 r.2 (i_position sample_instrument)).1 = NORMAL.
Proof.
  intros f o r. split; [vm_compute; reflexivity|].
  destruct (on_order_adds o 1000 r.2 (i_position sample_instrument)) as [f2 p2] eqn:Hadd.
  assert (firm_new_order o sample_instrument f = (true, r.2)) as Hr by (vm_compute; reflexivity).
  refine (proj1 (accepted_order_trips_no_breaker o sample_instrument f r.2 f2 p2 _ _ Hr Hadd)).
  - intros []; vm_compute; reflexivity.
  - vm_compute. reflexivity.
Defined.

(** ** The totals are sums over the instruments *)

#[export] Instance Qcplus_Comm : Comm (=) Qcplus := Qcplus_comm.
#[export] Instance Qcplus_Assoc : Assoc (=) Qcplus := Qcplus_assoc.

Inductive Total := T_LONG | T_SHORT | T_LONG_OPEN | T_SHORT_OPEN | T_REALIZED | T_UNREALIZED.

Definition firm_total (f : FirmRisk Qc) (c : Total) : Qc :=
  match c with
  | T_LONG => f_long_notional f
  | T_SHORT => f_short_notional f
  | T_LONG_OPEN => f_long_open_exposure f
  | T_SHORT_OPEN => f_short_open_exposure f
  | T_REALIZED => f_total_realized f
  | T_UNREALIZED => f_total_unrealized f
  end.

(** What one position contributes to a total. *)
Definition contribution (c : Total) (p : Position Qc) : Qc :=
  match c with
  | T_LONG => if 0 <? p_trading_quantity p then notional p else 0%Qc
  | T_SHORT => if p_trading_quantity p <? 0 then notional p else 0%Qc
  | T_LONG_OPEN => p_open_long_exposure p
  | T_SHORT_OPEN => p_open_short_exposure p
  | T_REALIZED => p_realized p
  | T_UNREALIZED => p_unrealized p
  end.

Abbreviation qsum := (msum Qcplus 0%Qc).
Definition totals_are_sums (s : RiskState Qc) : Prop :=
  ∀ c, firm_total s.1 c = qsum (λ _, contribution c) s.2.

(** The change of every total is the change of that position's contribution. *)
Definition delta (f : FirmRisk Qc) (p : Position Qc) (f' : FirmRisk Qc) (p' : Position Qc) : Prop :=
  ∀ c, firm_total f' c = (firm_total f c + (contribution c p' - contribution c p))%Qc.

Lemma delta_sums f ps esi p f' p' :
  totals_are_sums (f, ps) → ps !! esi = Some p → delta f p f' p' →
  totals_are_sums (f', <[esi := p']> ps).
Proof.
  intros Hsum Hp Hd c. specialize (Hsum c). cbn [fst snd] in *.
  rewrite Hd, Hsum, (msum_take _ _ _ _ _ _ Hp), (msum_replace _ _ _ _ _ _ _ Hp). ring.
Qed.

Lemma delta_trans f1 p1 f2 p2 f3 p3 : delta f1 p1 f2 p2 → delta f2 p2 f3 p3 → delta f1 p1 f3 p3.
Proof. intros H1 H2 c. rewrite H2, H1. ring. Qed.

Lemma firm_total_same f f' c : same_totals f f' → firm_total f' c = firm_total f c.
Proof. intros (E1 & E2 & E3 & E4 & E5 & E6 & _). by destruct c. Qed.

Lemma delta_same f p f1 p1 f2 : delta f p f1 p1 → same_totals f1 f2 → delta f p f2 p1.
Proof. intros Hd Hs c. by rewrite (firm_total_same f1). Qed.

Ltac exposure_ring :=
  unfold long_open_exposure, short_open_exposure, start_of_day_long_exposure,
    start_of_day_short_exposure, notional; cbn -[qc_of_Z]; repeat case_if; ideal_unfold; ring.

Lemma on_order_adds_delta o n f p f' p' :
  on_order_adds o n f p = (f', p') → delta f p f' p'.
Proof.
  unfold on_order_adds. case_if; intros [= <- <-];
    (eapply delta_same; [|apply same_totals_open]); intros []; cbn -[qc_of_Z]; exposure_ring.
Qed.

Lemma on_order_removes_delta o n f p f' p' :
  on_order_removes o n f p = Ok (f', p') → delta f p f' p'.
Proof.
  unfold on_order_removes, sub_open_buys, sub_open_sells. case_if; intros Hr; res_inv;
    (eapply delta_same; [|apply same_totals_open]); intros []; cbn -[qc_of_Z]; exposure_ring.
Qed.

Lemma on_order_fill_delta o n px fee f p f' p' :
  on_order_fill o n px fee f p = Ok (f', p') → delta f p f' p'.
Proof.
  unfold on_order_fill. intros Hf. res_inv. destruct x as [f1 p1]. cbn in Hf. res_inv.
  eapply delta_same; [|etrans; [apply same_totals_pnl|etrans; [apply same_totals_notional|
    apply same_totals_open]]].
  eapply delta_trans; [|by eapply on_order_removes_delta].
  set (p2 := update_realized_and_unrealized_pnl _ _ _ _ p).
  assert (p_open_long_exposure p2 = p_open_long_exposure p
    /\ p_open_short_exposure p2 = p_open_short_exposure p) as [Hl Hs].
  { subst p2. unfold update_realized_and_unrealized_pnl. by repeat case_if. }
  clearbody p2. intros c. unfold notional_in, notional_out.
  destruct c; cbn -[Z.ltb]; repeat case_if; bools; try lia; cbn;
    rewrite ?Hl, ?Hs; ideal_unfold; try ring.
Qed.

Lemma on_last_sale_delta px f p f' p' :
  firm_on_last_sale_change px f p = (f', p') → delta f p f' p'.
Proof.
  unfold firm_on_last_sale_change. case_if.
  - intros [= <- <-] c. ring.
  - intros [= <- <-]. eapply delta_same; [|etrans; [apply same_totals_pnl|
      apply same_totals_notional]].
    intros c. unfold notional in *. destruct c; cbn -[Z.ltb qc_of_Z]; unfold notional;
      repeat case_if; bools; try lia; cbn -[qc_of_Z]; ideal_unfold; ring.
Qed.

(** C26: The firm's long and short notional, long and short open exposure,
    realized and unrealized profit are, after any run of events over any number
    of instruments, exactly the sums of what the positions hold.  (Exact
    arithmetic: what the running [+=] of the code is meant to maintain.) *)
Theorem firm_totals_are_position_sums (s s' : RiskState Qc) (es : list (RiskEvent Qc))
    (Hs : totals_are_sums s) (Hrun : risk_run s es = Ok s') :
  totals_are_sums s'.
Proof.
  refine (foldM_invariant risk_step totals_are_sums (λ _, True) es _ s s' _ Hs Hrun);
    [|by apply Forall_true].
  clear. intros [f ps] e [f' ps'] _ Hsum Hs. destruct e; cbn [risk_step] in Hs;
    try (apply on_position_Ok in Hs as (p & p' & Hp & Hg & Hps); cbn [fst snd] in Hg, Hps;
         subst ps'; apply (delta_sums _ _ _ _ _ _ Hsum Hp)).
  - injection Hg as Hg. by eapply on_order_adds_delta.
  - by eapply on_order_removes_delta.
  - by eapply on_order_fill_delta.
  - injection Hg as Hg. by eapply on_last_sale_delta.
  - by injection Hs as <- <-.
  - by injection Hs as <- <-.
  - by injection Hs as <- <-.
  - by injection Hs as <- <-.
  - injection Hs as <- <-. intros c. etrans; [|exact (Hsum c)].
    apply firm_total_same. exact (same_totals_mode f).
Qed.

Lemma firm_totals_are_position_sums_witness :
  let ps := {[1 := Position_new 0 d0; 2 := Position_new 0 d0]} : gmap Z (Position Qc) in
  let o := sample_order 100 100 BUY in
  let s := (sample_firm, ps) in
  match risk_run s [RAdds o 100; RFill o 60 (d_of_Z 19) d0; RLastSale 1 (d_of_Z 21)] with
  | Ok s' => totals_are_sums s' /\ firm_total s'.1 T_LONG = d_of_Z 1260
  | Fail _ => False
  end.
Proof.
  intros ps o s.
  destruct (risk_run s _) as [s'|] eqn:E; [|vm_compute in E; discriminate E].
  split.
  - refine (firm_totals_are_position_sums s s' _ _ E). intros []; vm_compute; reflexivity.
  - vm_compute in E. injection E as <-. vm_compute. reflexivity.
Defined.

(** Orders for 120,000 trip the limit of 100,000 on the long open exposure. *)
Lemma breakers_track_totals_witness :
  let o := sample_order 100 6000 BUY in
  match risk_run (sample_firm, {[1 := Position_new 0 d0]} : gmap Z (Position Qc))
          [RAdds o 6000; RNewOrder o sample_instrument] with
  | Ok (f, _) => breakers_exact f /\ breaker f LONG_OPEN = true
  | Fail _ => False
  end.
Proof.
  intros o. destruct (risk_run _ _) as [[f ps]|] eqn:E; [|vm_compute in E; discriminate E].
  split.
  - refine (breakers_track_totals sample_firm _ _ f ps _ E). intros []; vm_compute; reflexivity.
  - vm_compute in E. injection E as <- _. vm_compute. reflexivity.
Defined.
