(* ===== verification/Alphanum.v ===== *)
(** * Alphanumeric tokens (src/core/i01_core/Alphanumeric.hpp)

    An unsigned integer written in base 62 or 36 in a field of fixed width: the
    local order ids of OUCH and BOE order tokens.  The template's parameters are
    a record; characters are their codes. *)

From S2P Require Import Prelude.

Record AlnumFormat := mkAlnum {
  OUT_WIDTH : nat;
  CASE_SENSITIVE : bool;
  LEFT_PADDING : bool;
  PAD_CHAR : Z
}.

Section Alphanumeric.
Context (fmt : AlnumFormat).

Definition BASE : Z := if CASE_SENSITIVE fmt then 62 else 36.

Definition charset (d : Z) : Z :=
  if d <? 10 then 48 + d else if d <? 36 then 65 + (d - 10) else 97 + (d - 36).

(** The characters in the order of the loop, which goes from the units up. *)
Definition in_loop_order (l : list Z) : list Z := if LEFT_PADDING fmt then reverse l else l.

(** What a character adds; none for an invalid one. *)
Definition char_value (c : Z) : option Z :=
  if (48 <=? c) && (c <=? 57) then Some (c - 48)
  else if (65 <=? c) && (c <=? 90) then Some (c - 65 + 10)
  else if (97 <=? c) && (c <=? 122) then Some (c - 97 + (if CASE_SENSITIVE fmt then 36 else 10))
  else if c =? PAD_CHAR fmt then Some 0 else None.

(** [get<T>()] for an unsigned [T] of [w] bits. *)
Fixpoint get_loop (w ret multiplier : Z) (l : list Z) : Z :=
  match l with
  | [] => ret
  | c :: l' =>
      match char_value c with
      | None => 0
      | Some inc =>
          get_loop w (wrap w (ret + wrap w (multiplier * inc))) (wrap w (multiplier * BASE)) l'
      end
  end.
Definition alnum_get (w : Z) (raw : list Z) : Z := get_loop w 0 1 (in_loop_order raw).

(** [set(n)]: the field, and whether the number fitted. *)
Fixpoint set_loop (width : nat) (first : bool) (n : Z) : list Z * Z :=
  match width with
  | O => ([], n)
  | S width' =>
      if (n =? 0) && negb first then
        let '(l, n) := set_loop width' false n in (PAD_CHAR fmt :: l, n)
      else
        let '(l, n') := set_loop width' false ((n - n mod BASE) / BASE) in
        (charset (n mod BASE) :: l, n')
  end.
Definition alnum_set (n : Z) : list Z * bool :=
  let '(l, n) := set_loop (OUT_WIDTH fmt) true n in (in_loop_order l, n =? 0).

(** ** Round trip *)

(** The padding reads as zero. *)
Definition pad_ok : Prop := char_value (PAD_CHAR fmt) = Some 0.

Lemma BASE_range : 2 <= BASE <= 62.
Proof. unfold BASE. case_match; lia. Qed.

Lemma charset_value d : 0 <= d < BASE → char_value (charset d) = Some d.
Proof.
  unfold BASE, char_value, charset. intros Hd.
  destruct (Z.ltb_spec d 10); [|destruct (Z.ltb_spec d 36)].
  - rewrite (proj2 (andb_true_iff _ _)) by (split; apply Z.leb_le; lia). f_equal. lia.
  - rewrite (proj2 (andb_false_iff _ _)) by (right; apply Z.leb_gt; lia).
    rewrite (proj2 (andb_true_iff _ _)) by (split; apply Z.leb_le; lia). f_equal. lia.
  - destruct (CASE_SENSITIVE fmt); [|lia].
    do 2 rewrite (proj2 (andb_false_iff _ _)) by (right; apply Z.leb_gt; lia).
    rewrite (proj2 (andb_true_iff _ _)) by (split; apply Z.leb_le; lia). f_equal. lia.
Qed.

Lemma set_loop_length width first n : length (set_loop width first n).1 = width.
Proof.
  revert first n. induction width as [|width IH]; intros first n; cbn [set_loop]; [done|].
  case_match; [specialize (IH false n)|specialize (IH false ((n - n mod BASE) / BASE))];
    destruct (set_loop _ _ _); cbn in *; by f_equal.
Qed.

Lemma div_digit n : (n - n mod BASE) / BASE = n / BASE.
Proof.
  pose proof BASE_range. rewrite (Z.div_mod n BASE) at 1 by lia.
  replace (BASE * (n / BASE) + n mod BASE - n mod BASE) with (n / BASE * BASE) by lia.
  by rewrite Z.div_mul by lia.
Qed.

(** What is left of the number, and what the field reads as. *)
Lemma set_loop_rest width first n : 0 <= n →
  (set_loop width first n).2 = n / BASE ^ Z.of_nat width.
Proof.
  pose proof BASE_range as HB.
  revert first n. induction width as [|width IH]; intros first n Hn; cbn [set_loop].
  - change (BASE ^ Z.of_nat 0) with 1. by rewrite Z.div_1_r.
  - rewrite Nat2Z.inj_succ, Z.pow_succ_r by lia. destruct ((n =? 0) && negb first) eqn:Hz.
    + bools. subst n. specialize (IH false 0 ltac:(lia)).
      destruct (set_loop _ _ _). cbn in *. rewrite IH, !Z.div_0_l; try done;
        pose proof (Z.pow_pos_nonneg BASE (Z.of_nat width)); nia.
    + rewrite div_digit. specialize (IH false (n / BASE) ltac:(apply Z.div_pos; lia)).
      destruct (set_loop _ _ _). cbn in *. rewrite IH. apply Z.div_div; [lia|].
      apply Z.pow_pos_nonneg; lia.
Qed.

Lemma get_set_loop w width first n ret mult : 0 <= w → pad_ok → 0 <= n →
  get_loop w (wrap w ret) (wrap w mult) (set_loop width first n).1
  = wrap w (ret + mult * (n mod BASE ^ Z.of_nat width)).
Proof.
  intros Hw Hpad. pose proof BASE_range as HB. revert first n ret mult.
  induction width as [|width IH]; intros first n ret mult Hn; cbn [set_loop].
  - cbn [fst get_loop]. change (BASE ^ Z.of_nat 0) with 1. rewrite Z.mod_1_r. f_equal. lia.
  - assert (∀ inc n', 0 <= n' →
      get_loop w (wrap w (wrap w ret + wrap w (wrap w mult * inc))) (wrap w (wrap w mult * BASE))
        (set_loop width false n').1
      = wrap w (ret + mult * (inc + BASE * (n' mod BASE ^ Z.of_nat width)))) as Hstep.
    { intros inc n' Hn'.
      replace (wrap w (wrap w mult * BASE)) with (wrap w (mult * BASE))
        by (unfold wrap; by rewrite Zmult_mod_idemp_l).
      replace (wrap w (wrap w ret + wrap w (wrap w mult * inc))) with (wrap w (ret + mult * inc)).
      2: { unfold wrap. rewrite Zmult_mod_idemp_l. by rewrite <- Zplus_mod. }
      rewrite IH by done. f_equal. lia. }
    rewrite Nat2Z.inj_succ, Z.pow_succ_r by lia.
    pose proof (Z.pow_pos_nonneg BASE (Z.of_nat width)).
    destruct ((n =? 0) && negb first) eqn:Hz.
    + bools. subst n. specialize (Hstep 0 0 ltac:(lia)). destruct (set_loop width false 0).
      cbn [fst get_loop] in *. rewrite Hpad, Hstep, !Z.mod_0_l by nia. f_equal. lia.
    + rewrite div_digit. specialize (Hstep (n mod BASE) (n / BASE) ltac:(apply Z.div_pos; lia)).
      destruct (set_loop width false (n / BASE)). cbn [fst get_loop] in *.
      rewrite charset_value by (apply Z.mod_pos_bound; lia). rewrite Hstep.
      rewrite Z.rem_mul_r by lia. done.
Qed.

Lemma in_loop_order_twice l : in_loop_order (in_loop_order l) = l.
Proof. unfold in_loop_order. case_match; [apply reverse_involutive|done]. Qed.
End Alphanumeric.

(** Tokens round-trip: [set] fills the whole field and says whether the
    number fitted its width, and reading a field that a number was set in gives
    the number, as far as the field and the integer type read hold it. *)
Lemma alphanumeric_roundtrip (fmt : AlnumFormat) (w n : Z) (Hw : 0 <= w) (Hpad : pad_ok fmt)
    (Hn : 0 <= n) :
  let cap := BASE fmt ^ Z.of_nat (OUT_WIDTH fmt) in
  let '(raw, fits) := alnum_set fmt n in
  length raw = OUT_WIDTH fmt
  /\ fits = bool_decide (n < cap)
  /\ alnum_get fmt w raw = wrap w (n mod cap)
  /\ (n < cap → n < 2 ^ w → alnum_get fmt w raw = n).
Proof.
  intros cap. unfold alnum_set.
  pose proof (set_loop_length fmt (OUT_WIDTH fmt) true n) as Hlen.
  pose proof (set_loop_rest fmt (OUT_WIDTH fmt) true n Hn) as Hrest.
  pose proof (get_set_loop fmt w (OUT_WIDTH fmt) true n 0 1 Hw Hpad Hn) as Hget.
  pose proof (BASE_range fmt). pose proof (Z.pow_pos_nonneg (BASE fmt) (Z.of_nat (OUT_WIDTH fmt))).
  destruct (set_loop fmt (OUT_WIDTH fmt) true n) as [l r]. cbn [fst snd] in *. subst r.
  assert (alnum_get fmt w (in_loop_order fmt l) = wrap w (n mod cap)) as Hg.
  { unfold alnum_get. rewrite in_loop_order_twice.
    replace (get_loop fmt w 0 1 l) with (get_loop fmt w (wrap w 0) (wrap w 1) l).
    - rewrite Hget. f_equal. subst cap. lia.
    - destruct (decide (w = 0)) as [->|].
      + change (wrap 0 0) with 0. change (wrap 0 1) with 0.
        assert (∀ m m' ret, get_loop fmt 0 ret m l = get_loop fmt 0 ret m' l) as Hm.
        { clear. induction l as [|c l IH]; intros m m' ret; cbn [get_loop]; [done|].
          case_match; [|done]. unfold wrap. change (2 ^ 0) with 1. rewrite !Z.mod_1_r. apply IH. }
        apply Hm.
      + rewrite !(wrap_small w); [done|..]; unfold in_u;
          pose proof (Z.pow_gt_1 2 w); lia. }
  split_and!; [|..|done|].
  - unfold in_loop_order. case_match; by rewrite ?length_reverse.
  - subst cap. case_bool_decide as Hc.
    + rewrite Z.div_small by lia. done.
    + apply Z.eqb_neq. pose proof (Z.div_le_mono _ _ (BASE fmt ^ Z.of_nat (OUT_WIDTH fmt))
        ltac:(lia) (proj1 (Z.nlt_ge _ _) Hc)) as Hd. rewrite Z.div_same in Hd by lia. lia.
  - intros Hc Hn2. rewrite Hg, Z.mod_small by lia. apply wrap_small. by split.
Qed.

(** The id field of an order token: 8 characters, left-padded with zeros. *)
Definition order_id_format : AlnumFormat := mkAlnum 8 true true 48.

(** A field that was set holds bytes. *)
Lemma alnum_set_bytes fmt n : 0 <= PAD_CHAR fmt < 256 → 0 <= n →
  Forall (λ b, 0 <= b < 256) (alnum_set fmt n).1.
Proof.
  intros Hpad. unfold alnum_set. pose proof (BASE_range fmt) as HB.
  assert (∀ d, 0 <= d < BASE fmt → 0 <= charset d < 256) as Hc.
  { unfold BASE, charset. intros d Hd. repeat case_match; lia. }
  assert (∀ width first m, 0 <= m → Forall (λ b, 0 <= b < 256) (set_loop fmt width first m).1) as Hl.
  { induction width as [|width IH]; intros first m Hm; cbn [set_loop]; [constructor|].
    case_match; [specialize (IH false m Hm)|specialize (IH false ((m - m mod BASE fmt) / BASE fmt))];
      destruct (set_loop _ _ _ _); cbn in *; constructor; try done.
    - apply Hc, Z.mod_pos_bound. lia.
    - apply IH. rewrite div_digit. apply Z.div_pos; lia. }
  intros Hn. specialize (Hl (OUT_WIDTH fmt) true n Hn). destruct (set_loop _ _ _ _). cbn in *.
  unfold in_loop_order. case_match; [by apply Forall_reverse|done].
Qed.
