(* ===== verification/Codec.v ===== *)
(** * Packed little-endian records

    The order log writes packed structs as they lie in memory on x86.  A byte is
    its value in [Z]; a [Codec] says how many bytes a type takes, how it is laid
    out, and how it is read back from the front of a buffer, which is what a
    [reinterpret_cast] to the struct does.  [CodecOk] is the law; records are
    built from codecs of their fields and inherit it. *)

From S2P Require Import Prelude Dbl.

Definition is_byte (b : Z) : Prop := 0 <= b < 256.

(** ** Integers *)

Fixpoint le_bytes (n : nat) (z : Z) : list Z :=
  match n with
  | O => []
  | S n' => z mod 256 :: le_bytes n' (z / 256)
  end.
Fixpoint le_val (l : list Z) : Z :=
  match l with
  | [] => 0
  | b :: l' => b + 256 * le_val l'
  end.

Lemma length_le_bytes n z : length (le_bytes n z) = n.
Proof. revert z. induction n; intros z; cbn; [done|]. by f_equal. Qed.

Lemma le_bytes_are_bytes n z : Forall is_byte (le_bytes n z).
Proof.
  revert z. induction n as [|n IH]; intros z; cbn; constructor; [|done].
  apply Z.mod_pos_bound. lia.
Qed.

Lemma le_val_bytes n z : 0 <= z < 256 ^ Z.of_nat n → le_val (le_bytes n z) = z.
Proof.
  revert z. induction n as [|n IH]; intros z Hz; cbn [le_bytes le_val].
  - change (256 ^ Z.of_nat 0) with 1 in Hz. lia.
  - rewrite Nat2Z.inj_succ, Z.pow_succ_r in Hz by lia.
    rewrite IH.
    + pose proof (Z.div_mod z 256 ltac:(lia)). lia.
    + split; [apply Z.div_pos; lia|]. apply Z.div_lt_upper_bound; lia.
Qed.

Lemma le_val_nonneg l : Forall is_byte l → 0 <= le_val l.
Proof. induction 1 as [|b l Hb _ IH]; cbn; [lia|]. unfold is_byte in Hb. lia. Qed.

(** ** Codecs *)

Record Codec (A : Type) := mkCodec {
  c_size : nat;
  c_enc : A → list Z;
  c_dec : list Z → A;
  c_valid : A → Prop
}.
Arguments mkCodec {A}.
Arguments c_size {A} _.
Arguments c_enc {A} _ _.
Arguments c_dec {A} _ _.
Arguments c_valid {A} _ _.

Class CodecOk {A} (c : Codec A) : Prop := {
  codec_length a : c_valid c a → length (c_enc c a) = c_size c;
  codec_bytes a : c_valid c a → Forall is_byte (c_enc c a);
  codec_dec_enc a rest : c_valid c a → c_dec c (c_enc c a ++ rest) = a
}.

(** An unsigned integer of [n] bytes, and a signed one in two's complement. *)
Definition c_uint (n : nat) : Codec Z :=
  mkCodec n (le_bytes n) (λ l, le_val (take n l)) (λ z, 0 <= z < 256 ^ Z.of_nat n).
Definition c_int (n : nat) : Codec Z :=
  mkCodec n (λ z, le_bytes n (z mod 256 ^ Z.of_nat n))
    (λ l, swrap (8 * Z.of_nat n) (le_val (take n l)))
    (λ z, in_i (8 * Z.of_nat n) z /\ (0 < n)%nat).
(** An array of [n] bytes. *)
Definition c_array (n : nat) : Codec (list Z) :=
  mkCodec n (λ l, l) (take n) (λ l, length l = n /\ Forall is_byte l).
(** A double. *)
Definition c_double {D} `{DblBits D} : Codec D :=
  mkCodec 8 (λ x, le_bytes 8 (d_bits x)) (λ l, d_of_bits (le_val (take 8 l))) d_valid.

(** Two fields one after the other, and a record seen as its fields. *)
Definition c_pair {A B} (ca : Codec A) (cb : Codec B) : Codec (A * B) :=
  mkCodec (c_size ca + c_size cb)
    (λ ab, c_enc ca ab.1 ++ c_enc cb ab.2)
    (λ l, (c_dec ca l, c_dec cb (drop (c_size ca) l)))
    (λ ab, c_valid ca ab.1 /\ c_valid cb ab.2).
Definition c_record {A B} (mk : A → B) (fields : B → A) (ca : Codec A) : Codec B :=
  mkCodec (c_size ca) (λ b, c_enc ca (fields b)) (λ l, mk (c_dec ca l))
    (λ b, c_valid ca (fields b)).
Infix "*c" := c_pair (at level 40, left associativity).

Lemma take_app_n {A} (n : nat) (l k : list A) : length l = n → take n (l ++ k) = l.
Proof. intros <-. apply take_app_length. Qed.
Lemma drop_app_n {A} (n : nat) (l k : list A) : length l = n → drop n (l ++ k) = k.
Proof. intros <-. apply drop_app_length. Qed.

#[export] Instance c_uint_ok n : CodecOk (c_uint n).
Proof.
  split; cbn.
  - intros. apply length_le_bytes.
  - intros. apply le_bytes_are_bytes.
  - intros a rest Ha. rewrite take_app_n by apply length_le_bytes. by apply le_val_bytes.
Qed.

#[export] Instance c_int_ok n : CodecOk (c_int n).
Proof.
  split; cbn.
  - intros. apply length_le_bytes.
  - intros. apply le_bytes_are_bytes.
  - intros a rest [Ha Hn]. rewrite take_app_n by apply length_le_bytes.
    assert (256 ^ Z.of_nat n = 2 ^ (8 * Z.of_nat n)) as E.
    { rewrite Z.pow_mul_r by lia. done. }
    rewrite le_val_bytes by (apply Z.mod_pos_bound; rewrite E; apply Z.pow_pos_nonneg; lia).
    rewrite E. unfold swrap. rewrite Zplus_mod_idemp_l. apply swrap_small; [lia|done].
Qed.

#[export] Instance c_array_ok n : CodecOk (c_array n).
Proof.
  split; cbn.
  - by intros a [].
  - by intros a [].
  - intros a rest [Ha _]. by apply take_app_n.
Qed.

#[export] Instance c_double_ok {D} `{DblBits D} : CodecOk c_double.
Proof.
  split; cbn [c_valid c_enc c_dec c_size c_double].
  - intros. apply length_le_bytes.
  - intros. apply le_bytes_are_bytes.
  - intros a rest Ha. rewrite take_app_n by apply length_le_bytes.
    rewrite le_val_bytes by (change (256 ^ Z.of_nat 8) with 18446744073709551616;
      by apply d_bits_range). by apply d_of_bits_bits.
Qed.

#[export] Instance c_pair_ok {A B} (ca : Codec A) (cb : Codec B) :
  CodecOk ca → CodecOk cb → CodecOk (c_pair ca cb).
Proof.
  intros Ha Hb. split; cbn; intros [a b]; cbn.
  - intros [??]. by rewrite length_app, !codec_length.
  - intros [??]. apply Forall_app. split; by apply codec_bytes.
  - intros rest [??]. rewrite <- app_assoc. rewrite codec_dec_enc by done.
    rewrite drop_app_n by by apply codec_length. by rewrite codec_dec_enc.
Qed.

Lemma c_record_ok {A B} (mk : A → B) (fields : B → A) (ca : Codec A) :
  (∀ b, mk (fields b) = b) → CodecOk ca → CodecOk (c_record mk fields ca).
Proof.
  intros Hmk Ha. split; cbn; intros b.
  - apply codec_length.
  - apply codec_bytes.
  - intros rest Hb. rewrite codec_dec_enc by done. apply Hmk.
Qed.

(** Proves the law of a record codec from the laws of its fields. *)
Ltac solve_codec := apply c_record_ok; [by intros []|apply _].

(** ** Reading from received bytes *)

(** [reinterpret_cast<const M *>(mh)], and reading the whole of it. *)
Definition reading {A} (c : Codec A) (mh : list Z) : res A :=
  if (length mh <? c_size c)%nat
  then Fail (UndefinedBehaviour "message read past the received bytes") else Ok (c_dec c mh).

Lemma reading_enc {A} (c : Codec A) `{!CodecOk c} m rest : c_valid c m →
  reading c (c_enc c m ++ rest) = Ok m.
Proof.
  intros Hv. unfold reading. rewrite length_app, (codec_length m Hv).
  rewrite (proj2 (Nat.ltb_ge _ _)) by lia. by rewrite codec_dec_enc.
Qed.
