(* ===== verification/Calendar.v ===== *)
(** * Dates (src/core/Date.cpp, src/ts/tps/TPSServer.cpp)

    A date is the number yyyymmdd.  Clients of the position server count days
    from the first of January 1900, as spreadsheets do, with the 29th of February
    1900 that there never was. *)

From S2P Require Import Prelude.
Open Scope Z_scope.

Definition date_yyyy (d : Z) : Z := d / 10000.
Definition date_mm (d : Z) : Z := d mod 10000 / 100.
Definition date_dd (d : Z) : Z := d mod 100.

(** *** [date_from_yyyymmdd] *)

Definition is_leap_year (yy : Z) : bool :=
  if yy =? 1900 then true
  else if yy mod 400 =? 0 then true
  else if yy mod 100 =? 0 then false
  else yy mod 4 =? 0.

(** The loop over the years, [n] of them. *)
Fixpoint count_years (n : nat) (yyyy mm ret : Z) : Z :=
  match n with
  | O => ret
  | S n =>
      let long := (2 <? mm) && is_leap_year yyyy || (mm <=? 2) && is_leap_year (yyyy - 1) in
      count_years n (yyyy - 1) mm (u32 (ret + (if long then 366 else 365)))
  end.
(** The days of the months before [mm] in 1900: the switch without breaks. *)
Definition count_months (mm : Z) : Z :=
  (if 12 <=? mm then 30 else 0) + (if 11 <=? mm then 31 else 0) + (if 10 <=? mm then 30 else 0)
  + (if 9 <=? mm then 31 else 0) + (if 8 <=? mm then 31 else 0) + (if 7 <=? mm then 30 else 0)
  + (if 6 <=? mm then 31 else 0) + (if 5 <=? mm then 30 else 0) + (if 4 <=? mm then 31 else 0)
  + (if 3 <=? mm then 28 + (if is_leap_year 1900 then 1 else 0) else 0) + (if 2 <=? mm then 31 else 0).

Definition bad_day : res Z := Fail (Thrown "Invalid day").
Definition date_from_yyyymmdd (yyyy mm dd : Z) : res Z :=
  if yyyy <? 1900 then Fail (Thrown "Invalid year")
  else if (mm <? 1) || (12 <? mm) then Fail (Thrown "Invalid month")
  else if dd <? 1 then bad_day
  else
    let finish ret dd :=
      Ok (u32 (count_years (Z.to_nat (yyyy - 1900)) yyyy mm (u32 (ret + dd)) + count_months mm)) in
    if mm =? 2 then
      if dd =? 29 then if is_leap_year yyyy then finish 28 1 else bad_day
      else if 28 <? dd then bad_day else finish 0 dd
    else if (mm =? 4) || (mm =? 6) || (mm =? 9) || (mm =? 11)
    then if 30 <? dd then bad_day else finish 0 dd
    else if 31 <? dd then bad_day else finish 0 dd.

(** ** The calendar *)

(** The years with a 29th of February: every fourth, of the centuries every fourth,
    and 1900, which spreadsheets take for one. *)
Definition leap (y : Z) : bool :=
  (y =? 1900) || ((y mod 4 =? 0) && ((y mod 400 =? 0) || negb (y mod 100 =? 0))).
Definition month_days (y m : Z) : Z :=
  nth (Z.to_nat (m - 1)) [31; if leap y then 29 else 28; 31; 30; 31; 30; 31; 31; 30; 31; 30; 31] 0.
Definition valid_date (y m d : Z) : Prop := 1900 <= y < 10000000 /\ 1 <= m <= 12 /\ 1 <= d <= month_days y m.
(** The day after. *)
Definition next_day (y m d : Z) : Z * Z * Z :=
  if d <? month_days y m then (y, m, d + 1)
  else if m <? 12 then (y, m + 1, 1) else (y + 1, 1, 1).

(** The days of the years before [y] since 1900, of the months before [m]. *)
Definition year_days (y : Z) : Z := if leap y then 366 else 365.
Definition days_before_year (y : Z) : Z :=
  list_sum_Z (year_days <$> seqZ 1900 (y - 1900)).
Definition days_before_month (y m : Z) : Z := list_sum_Z (month_days y <$> seqZ 1 (m - 1)).
Definition day_number (y m d : Z) : Z := days_before_year y + days_before_month y m + d.

Lemma is_leap_year_leap y : is_leap_year y = leap y.
Proof.
  unfold is_leap_year, leap. destruct (y =? 1900); [done|]. cbn [orb].
  destruct (Z.eqb_spec (y mod 400) 0), (Z.eqb_spec (y mod 100) 0), (Z.eqb_spec (y mod 4) 0);
    try done; exfalso; Z.to_euclidean_division_equations; lia.
Qed.

Lemma days_before_year_succ y : 1900 <= y → days_before_year (y + 1) = days_before_year y + year_days y.
Proof.
  intros Hy. unfold days_before_year. replace (y + 1 - 1900) with (y - 1900 + 1) by lia.
  rewrite seqZ_app, fmap_app, list_sum_Z_app by lia. replace (1900 + (y - 1900)) with y by lia.
  change (seqZ y 1) with [y]. change (year_days <$> [y]) with [year_days y]. cbn [list_sum_Z]. lia.
Qed.
Lemma year_days_bounds y : 365 <= year_days y <= 366.
Proof. unfold year_days. case_match; lia. Qed.
Lemma days_before_year_bounds y : 1900 <= y → 0 <= days_before_year y <= 366 * (y - 1900).
Proof.
  intros Hy. replace y with (1900 + Z.of_nat (Z.to_nat (y - 1900))) by lia.
  induction (Z.to_nat (y - 1900)) as [|n IH]; [done|].
  replace (1900 + Z.of_nat (S n)) with (1900 + Z.of_nat n + 1) by lia.
  rewrite days_before_year_succ by lia. pose proof (year_days_bounds (1900 + Z.of_nat n)). lia.
Qed.

(** The months, one by one. *)
Lemma month_cases m : 1 <= m <= 12 →
  m = 1 \/ m = 2 \/ m = 3 \/ m = 4 \/ m = 5 \/ m = 6 \/ m = 7 \/ m = 8 \/ m = 9 \/ m = 10 \/ m = 11 \/ m = 12.
Proof. lia. Qed.
Ltac each_month m H :=
  destruct (month_cases m H) as [->|[->|[->|[->|[->|[->|[->|[->|[->|[->|[->| ->]]]]]]]]]]].

(** Years from 1900, seen from month [m]: the loop counts from this month of
    [y] to this month of 1900. *)
Lemma count_years_spec n m ret : 1 <= m <= 12 → 0 <= ret → ret + 366 * Z.of_nat n < 2 ^ 32 →
  count_years n (1900 + Z.of_nat n) m ret
  = ret + days_before_year (1900 + Z.of_nat n) + days_before_month (1900 + Z.of_nat n) m - days_before_month 1900 m.
Proof.
  intros Hm. revert ret. induction n as [|n IH]; intros ret Hr Hb.
  { cbn [count_years]. change (1900 + Z.of_nat 0) with 1900. change (days_before_year 1900) with 0. lia. }
  cbn [count_years]. replace (1900 + Z.of_nat (S n) - 1) with (1900 + Z.of_nat n) by lia.
  replace (1900 + Z.of_nat (S n)) with (1900 + Z.of_nat n + 1) by lia.
  set (k := (if _ : bool then 366 else 365)). assert (365 <= k <= 366) as Hk by (subst k; case_match; lia).
  rewrite (wrap_small 32) by (unfold in_u; lia). rewrite IH by lia.
  set (y := 1900 + Z.of_nat n) in *.
  rewrite days_before_year_succ by lia.
  cut (k + days_before_month y m = year_days y + days_before_month (y + 1) m); [lia|].
  subst k. unfold year_days. replace (y + 1 - 1) with y by lia.
  each_month m Hm; unfold days_before_month, month_days; cbn;
    rewrite ?is_leap_year_leap; destruct (leap y), (leap (y + 1)); reflexivity.
Qed.
Lemma count_months_spec m : 1 <= m <= 12 → count_months m = days_before_month 1900 m.
Proof. intros Hm. each_month m Hm; reflexivity. Qed.
Lemma days_before_month_bounds y m : 1 <= m <= 12 → 0 <= days_before_month y m <= 335.
Proof.
  intros Hm. each_month m Hm; unfold days_before_month, month_days; generalize (leap y); intros []; vm_compute; split; discriminate.
Qed.

Lemma month_days_switch y m : 1 <= m <= 12 → month_days y m =
  if m =? 2 then if is_leap_year y then 29 else 28
  else if (m =? 4) || (m =? 6) || (m =? 9) || (m =? 11) then 30 else 31.
Proof. intros Hm. rewrite is_leap_year_leap. each_month m Hm; reflexivity. Qed.

Lemma date_counted y m d : y < 10000000 →
  match date_from_yyyymmdd y m d with
  | Ok n => valid_date y m d /\ n = day_number y m d
  | Fail e => (∃ what, e = Thrown what) /\ ~ valid_date y m d
  end.
Proof.
  intros Hy. unfold date_from_yyyymmdd, valid_date, bad_day.
  destruct (Z.ltb_spec y 1900); [split; [by eexists|lia]|].
  destruct (Z.ltb_spec m 1); [split; [by eexists|lia]|].
  destruct (Z.ltb_spec 12 m); [split; [by eexists|lia]|].
  destruct (Z.ltb_spec d 1); [split; [by eexists|lia]|]. cbn [orb].
  assert (∀ ret dd, 1 <= ret + dd <= 31 → 0 <= ret → 0 <= dd →
    u32 (count_years (Z.to_nat (y - 1900)) y m (u32 (ret + dd)) + count_months m)
    = day_number y m (ret + dd)) as Hfin.
  { intros ret dd Hrd _ _. rewrite (wrap_small 32 (ret + dd)) by (unfold in_u; lia).
    pose proof (count_years_spec (Z.to_nat (y - 1900)) m (ret + dd)) as E.
    replace (1900 + Z.of_nat (Z.to_nat (y - 1900))) with y in E by lia. rewrite E by lia.
    rewrite count_months_spec by lia. unfold day_number.
    pose proof (days_before_year_bounds y). pose proof (days_before_month_bounds y m).
    rewrite (wrap_small 32) by (unfold in_u; lia). lia. }
  rewrite month_days_switch by lia. destruct (Z.eqb_spec m 2).
  - destruct (Z.eqb_spec d 29) as [->|].
    + destruct (is_leap_year y); [|split; [by eexists|lia]]. split; [lia|]. by apply Hfin.
    + destruct (Z.ltb_spec 28 d); [split; [by eexists|destruct (is_leap_year y); lia]|].
      split; [destruct (is_leap_year y); lia|]. apply Hfin; lia.
  - destruct ((m =? 4) || (m =? 6) || (m =? 9) || (m =? 11)).
    + destruct (Z.ltb_spec 30 d); [split; [by eexists|lia]|]. split; [lia|]. apply Hfin; lia.
    + destruct (Z.ltb_spec 31 d); [split; [by eexists|lia]|]. split; [lia|]. apply Hfin; lia.
Qed.

(** C38: Every date up to the year 9999999 has the number of the days up to it, of the
    years and then the months before it: a year has 366 days when it can be divided by
    four, unless by a hundred and not by four hundred, and 1900 is taken for such a
    year.  No other dates are accepted. *)
Theorem date_number y m d : y < 10000000 →
  match date_from_yyyymmdd y m d with
  | Ok n => valid_date y m d /\ n = day_number y m d
  | Fail e => (∃ what, e = Thrown what) /\ ~ valid_date y m d
  end.
Proof. apply date_counted. Qed.

Lemma next_day_valid y m d y' m' d' : valid_date y m d → next_day y m d = (y', m', d') → y' < 10000000 →
  valid_date y' m' d'.
Proof.
  unfold next_day, valid_date. intros (Hy & Hm & Hd).
  destruct (Z.ltb_spec d (month_days y m)); [intros [= <- <- <-]; lia|].
  destruct (Z.ltb_spec m 12); intros [= <- <- <-] Hy'; (split; [lia|split; [lia|]]);
    (rewrite month_days_switch by lia || unfold month_days); repeat case_match; cbn; lia.
Qed.
Lemma day_number_next y m d y' m' d' : valid_date y m d → next_day y m d = (y', m', d') →
  day_number y' m' d' = day_number y m d + 1.
Proof.
  unfold next_day, valid_date, day_number. intros (Hy & Hm & Hd).
  destruct (Z.ltb_spec d (month_days y m)); [intros [= <- <- <-]; lia|].
  assert (d = month_days y m) as -> by lia. destruct (Z.ltb_spec m 12); intros [= <- <- <-].
  - unfold days_before_month. replace (m + 1 - 1) with (m - 1 + 1) by lia.
    rewrite seqZ_app, fmap_app, list_sum_Z_app by lia. replace (1 + (m - 1)) with m by lia.
    change (seqZ m 1) with [m]. change (month_days y <$> [m]) with [month_days y m]. cbn [list_sum_Z]. lia.
  - assert (m = 12) as -> by lia. rewrite days_before_year_succ by lia.
    assert (days_before_month y 12 + month_days y 12 = year_days y) as <-.
    { unfold year_days, days_before_month, month_days. by destruct (leap y). }
    change (days_before_month (y + 1) 1) with 0. lia.
Qed.

(** Consecutive days have consecutive numbers, counted from the first of
    January 1900. *)
Theorem consecutive_days y m d y' m' d' : valid_date y m d → next_day y m d = (y', m', d') →
  y' < 10000000 →
  ∃ n, date_from_yyyymmdd y m d = Ok n /\ date_from_yyyymmdd y' m' d' = Ok (n + 1).
Proof.
  intros Hv Hn Hy'. pose proof (next_day_valid _ _ _ _ _ _ Hv Hn Hy') as Hv'.
  pose proof (date_counted y m d ltac:(destruct Hv; lia)) as E1. pose proof (date_counted y' m' d' Hy') as E2.
  destruct (date_from_yyyymmdd y m d) as [n|e]; [|by destruct E1 as [_ []]].
  destruct (date_from_yyyymmdd y' m' d') as [n'|e]; [|by destruct E2 as [_ []]].
  exists n. split; [done|]. f_equal. destruct E1 as [_ ->]. destruct E2 as [_ ->].
  by apply day_number_next.
Qed.
Lemma consecutive_days_witness : ∃ n, date_from_yyyymmdd 1900 2 28 = Ok n /\ date_from_yyyymmdd 1900 2 29 = Ok (n + 1).
Proof. apply (consecutive_days 1900 2 28 1900 2 29); [vm_compute; repeat split; discriminate|reflexivity|lia]. Defined.
Lemma date_number_witness :
  match date_from_yyyymmdd 2014 10 31 with
  | Ok n => valid_date 2014 10 31 /\ n = day_number 2014 10 31
  | Fail e => (∃ what, e = Thrown what) /\ ~ valid_date 2014 10 31
  end /\ date_from_yyyymmdd 2014 10 31 = Ok 41943.
Proof. split; [apply (date_number 2014 10 31); lia|vm_compute; reflexivity]. Defined.
