(* ===== verification/TpsWire.v ===== *)
(** * The protocol of the position server (src/ts/tps/TPSServer.hpp, TPSServer.cpp)

    Events as packed structs, the wrappers that lay them over received bytes, and
    the events the server sends.  A wrapper keeps the bytes it was made from; a
    pointer into them is an offset, or nothing for null.  A version, two bytes,
    is its value as 16 bits. *)

From Stdlib Require Import SpecFloat.
From S2P Require Import Prelude Dbl Time Codec L2Book Calendar.
Open Scope Z_scope.

(** ** Structs *)

Record TimeType := mkTimeType { tt_secs : Z; tt_nsecs : Z }.
Definition c_TimeType : Codec TimeType :=
  c_record (λ '(s, n), mkTimeType s n) (λ t, (tt_secs t, tt_nsecs t)) (c_uint 8 *c c_uint 8).
Definition from_timestamp (ts : Timestamp) : TimeType :=
  let ns := nanoseconds_since_midnight ts in mkTimeType (ns / 1000000000) (ns mod 1000000000).

Record EventBuf := mkEventBuf {
  ev_version : Z;
  ev_event_type : Z;
  ev_inst_type : Z;
  ev_inst_id : Z;
  ev_date : Z;
  ev_time : TimeType
}.
Definition c_EventBuf : Codec EventBuf :=
  c_record (λ '(v, t, it, id, d, tm), mkEventBuf v t it id d tm)
    (λ e, (ev_version e, ev_event_type e, ev_inst_type e, ev_inst_id e, ev_date e, ev_time e))
    (c_uint 2 *c c_uint 2 *c c_int 4 *c c_int 4 *c c_uint 4 *c c_TimeType).
Record NetEventBuf := mkNetEventBuf { ne_event : EventBuf; ne_version : Z; ne_time : TimeType }.
Definition c_NetEventBuf : Codec NetEventBuf :=
  c_record (λ '(e, v, t), mkNetEventBuf e v t) (λ n, (ne_event n, ne_version n, ne_time n))
    (c_EventBuf *c c_uint 2 *c c_TimeType).
Record MarketEventBaseBuf := mkMarketEventBase { mb_version : Z; mb_market_event_type : Z; mb_exchange : Z }.
Definition c_MarketEventBaseBuf : Codec MarketEventBaseBuf :=
  c_record (λ '(v, t, e), mkMarketEventBase v t e)
    (λ b, (mb_version b, mb_market_event_type b, mb_exchange b)) (c_uint 2 *c c_uint 4 *c c_uint 4).
(** Prices are floats, as their bits. *)
Record MarketQuoteEventBuf := mkMarketQuote {
  mq_event : EventBuf;
  mq_market_event_base : MarketEventBaseBuf;
  mq_bid_price : Z;
  mq_bid_size : Z;
  mq_ask_price : Z;
  mq_ask_size : Z
}.
Definition c_MarketQuoteEventBuf : Codec MarketQuoteEventBuf :=
  c_record (λ '(e, b, bp, bs, ap, as_), mkMarketQuote e b bp bs ap as_)
    (λ q, (mq_event q, mq_market_event_base q, mq_bid_price q, mq_bid_size q, mq_ask_price q, mq_ask_size q))
    (c_EventBuf *c c_MarketEventBaseBuf *c c_uint 4 *c c_uint 4 *c c_uint 4 *c c_uint 4).
Record MarketTradeEventBuf := mkMarketTrade {
  mt_event : EventBuf;
  mt_market_event_base : MarketEventBaseBuf;
  mt_trade_price : Z;
  mt_trade_size : Z
}.
Definition c_MarketTradeEventBuf : Codec MarketTradeEventBuf :=
  c_record (λ '(e, b, p, s), mkMarketTrade e b p s)
    (λ t, (mt_event t, mt_market_event_base t, mt_trade_price t, mt_trade_size t))
    (c_EventBuf *c c_MarketEventBaseBuf *c c_uint 4 *c c_uint 4).
Record HandshakeEventBuf := mkHandshake { hs_net_event : NetEventBuf; hs_version : Z; hs_version_string_len : Z }.
Definition c_HandshakeEventBuf : Codec HandshakeEventBuf :=
  c_record (λ '(n, v, l), mkHandshake n v l) (λ h, (hs_net_event h, hs_version h, hs_version_string_len h))
    (c_NetEventBuf *c c_uint 2 *c c_uint 2).
Record SubscriptionEventBuf := mkSubscription { sb_net_event : NetEventBuf; sb_version : Z; sb_flags : Z }.
Definition c_SubscriptionEventBuf : Codec SubscriptionEventBuf :=
  c_record (λ '(n, v, f), mkSubscription n v f) (λ s, (sb_net_event s, sb_version s, sb_flags s))
    (c_NetEventBuf *c c_uint 2 *c c_uint 4).
Record SnapshotRequestEventBuf := mkSnapshotRequest {
  sr_net_event : NetEventBuf;
  sr_version : Z;
  sr_type : Z;
  sr_which : Z;
  sr_price_or_level : Z;
  sr_id : Z
}.
Definition c_SnapshotRequestEventBuf : Codec SnapshotRequestEventBuf :=
  c_record (λ '(n, v, t, w, p, i), mkSnapshotRequest n v t w p i)
    (λ s, (sr_net_event s, sr_version s, sr_type s, sr_which s, sr_price_or_level s, sr_id s))
    (c_NetEventBuf *c c_uint 2 *c c_uint 1 *c c_uint 1 *c c_uint 4 *c c_uint 8).

#[export] Instance c_TimeType_ok : CodecOk c_TimeType. Proof. solve_codec. Qed.
#[export] Instance c_EventBuf_ok : CodecOk c_EventBuf. Proof. solve_codec. Qed.
#[export] Instance c_NetEventBuf_ok : CodecOk c_NetEventBuf. Proof. solve_codec. Qed.
#[export] Instance c_MarketEventBaseBuf_ok : CodecOk c_MarketEventBaseBuf. Proof. solve_codec. Qed.
#[export] Instance c_MarketQuoteEventBuf_ok : CodecOk c_MarketQuoteEventBuf. Proof. solve_codec. Qed.
#[export] Instance c_MarketTradeEventBuf_ok : CodecOk c_MarketTradeEventBuf. Proof. solve_codec. Qed.
#[export] Instance c_HandshakeEventBuf_ok : CodecOk c_HandshakeEventBuf. Proof. solve_codec. Qed.
#[export] Instance c_SubscriptionEventBuf_ok : CodecOk c_SubscriptionEventBuf. Proof. solve_codec. Qed.
#[export] Instance c_SnapshotRequestEventBuf_ok : CodecOk c_SnapshotRequestEventBuf. Proof. solve_codec. Qed.

(** ** Constants *)

(** [EventType] *)
Definition MARKET_EVENT : Z := 0.
Definition SUBSCRIPTION_EVENT : Z := 7.
Definition SNAPSHOT_REQUEST_EVENT : Z := 8.
Definition HANDSHAKE_EVENT : Z := 11.
Definition QUOTE_EVENT_TYPE : Z := 1.
Definition TRADE_EVENT_TYPE : Z := 2.
(** The version [{0, 1}], which all events but requests of snapshots have, and
    [{0, 2}]. *)
Definition EXPECTED_VERSION : Z := 256.
Definition SNAPSHOT_REQUEST_VERSION : Z := 512.
Definition REQUEST : Z := 1.
(** The characters of a literal. *)
Definition chars (s : string) : list Z := (λ c, Z.of_nat (Ascii.nat_of_ascii c)) <$> Stdlib.Strings.String.list_ascii_of_string s.
Definition EXPECTED_VERSION_STRING : list Z := chars "EVS111111221".
Definition RESPONSE_HANDSHAKE_OK : list Z := chars "OK".
Definition RESPONSE_HANDSHAKE_DENIED : list Z := chars "DENIED".
(** [FDOExchange] of each market, by its index. *)
Definition fdo_exchange (mic_index : Z) : Z :=
  nth (Z.to_nat mic_index) [0; 1; 3; 36; 6; 51; 52; 2; 5; 6; 29] 0.

(** ** Received events *)

Record EventBufWrapper := mkWrapper {
  w_buf : list Z;
  w_event_buf : bool;
  w_valid : bool;
  w_bytes_read : Z;
  w_version_buf : option Z;
  w_alias_buf : option Z
}.
#[export] Instance EventBufWrapper_rebuild : Rebuild EventBufWrapper := λ w,
  mkWrapper (w_buf w) (w_event_buf w) (w_valid w) (w_bytes_read w) (w_version_buf w) (w_alias_buf w).
Definition sizeof {A} (c : Codec A) : Z := Z.of_nat (c_size c).
Definition buf_len (buf : list Z) : Z := Z.of_nat (length buf).

Definition EventBufWrapper_new (buf : list Z) : res EventBufWrapper :=
  let w := mkWrapper buf false false 0 None None in
  if sizeof c_EventBuf <=? buf_len buf then
    e ← reading c_EventBuf buf;
    let w := w <| w_event_buf := true |> in
    Ok (if ev_version e =? EXPECTED_VERSION
        then w <| w_bytes_read := sizeof c_EventBuf |> <| w_valid := true |> else w)
  else Ok w.
Definition invalid (w : EventBufWrapper) : EventBufWrapper := w <| w_valid := false |> <| w_bytes_read := 0 |>.
Definition NetEventBufWrapper_new (buf : list Z) : res EventBufWrapper :=
  w ← EventBufWrapper_new buf;
  if w_valid w then
    if sizeof c_NetEventBuf <=? buf_len buf then
      n ← reading c_NetEventBuf buf;
      Ok (if ne_version n =? EXPECTED_VERSION then w <| w_bytes_read := sizeof c_NetEventBuf |> else w)
    else Ok (invalid w)
  else Ok w.
Definition SubscriptionEventBufWrapper_new (buf : list Z) : res EventBufWrapper :=
  w ← NetEventBufWrapper_new buf;
  if w_valid w then
    if sizeof c_SubscriptionEventBuf <=? buf_len buf then
      s ← reading c_SubscriptionEventBuf buf;
      Ok (if sb_version s =? EXPECTED_VERSION then w <| w_bytes_read := sizeof c_SubscriptionEventBuf |> else w)
    else Ok (invalid w)
  else Ok w.
Definition SnapshotRequestEventBufWrapper_new (buf : list Z) : res EventBufWrapper :=
  w ← NetEventBufWrapper_new buf;
  if w_valid w then
    if sizeof c_SnapshotRequestEventBuf <=? buf_len buf then
      s ← reading c_SnapshotRequestEventBuf buf;
      Ok (if sr_version s =? SNAPSHOT_REQUEST_VERSION
          then w <| w_bytes_read := sizeof c_SnapshotRequestEventBuf |> else w)
    else Ok (invalid w)
  else Ok w.
(** The length of the version lies at the end of the struct, the version after it,
    then the length of the alias and the alias, which may be missing.  (What was read
    is there: the first difference does not underflow.) *)
Definition HandshakeEventBufWrapper_new (buf : list Z) : res EventBufWrapper :=
  w ← NetEventBufWrapper_new buf;
  if negb (w_valid w) then Ok (invalid w)
  else if buf_len buf - w_bytes_read w <? sizeof c_HandshakeEventBuf then Ok (invalid w)
  else
    h ← reading c_HandshakeEventBuf buf;
    let read := sizeof c_HandshakeEventBuf in
    if negb (hs_version h =? EXPECTED_VERSION) then Ok (invalid w)
    else if read + hs_version_string_len h <=? buf_len buf then
      let w := w <| w_version_buf := Some read |> in
      let read := read + hs_version_string_len h in
      if read + 2 <=? buf_len buf then
        alias_len ← reading (c_uint 2) (drop (Z.to_nat read) buf);
        let read := read + 2 in
        Ok (if read + alias_len <=? buf_len buf
            then w <| w_alias_buf := Some read |> <| w_bytes_read := read + alias_len |>
            else w <| w_bytes_read := read |>)
      else Ok (invalid w)
    else Ok (invalid w).

(** [event_type], [inst], [flags] and [version] of a wrapper. *)
Definition the_event (w : EventBufWrapper) : res EventBuf :=
  if w_event_buf w then reading c_EventBuf (w_buf w) else Fail (UndefinedBehaviour "null event").
Definition wrapper_flags (w : EventBufWrapper) : res Z := sb_flags <$> reading c_SubscriptionEventBuf (w_buf w).
Definition wrapper_version (w : EventBufWrapper) : res (list Z) :=
  h ← reading c_HandshakeEventBuf (w_buf w);
  match w_version_buf w with
  | None => Fail (UndefinedBehaviour "string of a null pointer")
  | Some off => reading (c_array (Z.to_nat (hs_version_string_len h))) (drop (Z.to_nat off) (w_buf w))
  end.

Definition next_event_from_buffer (buf : list Z) : res (option EventBufWrapper) :=
  if 4 <=? buf_len buf then
    h ← reading (c_uint 2 *c c_uint 2) buf;
    let t := h.2 in
    if t =? SUBSCRIPTION_EVENT then Some <$> SubscriptionEventBufWrapper_new buf
    else if t =? SNAPSHOT_REQUEST_EVENT then Some <$> SnapshotRequestEventBufWrapper_new buf
    else if t =? HANDSHAKE_EVENT then Some <$> HandshakeEventBufWrapper_new buf
    else Ok None
  else Ok None.

(** ** Sent events *)

(** [static_cast<float>] of a double, as the bits of the float. *)
Class ToFloat (D : Type) := d_to_float : D → Z.

(** [Event] with a date, an instrument and a time. *)
Definition Event_new (et date inst_id : Z) (ts : Timestamp) : EventBuf :=
  mkEventBuf EXPECTED_VERSION et 0 (i32 inst_id) date (from_timestamp ts).
Definition HandshakeEvent (version alias : list Z) : list Z :=
  let e := mkEventBuf EXPECTED_VERSION HANDSHAKE_EVENT 0 (-1) 0 (mkTimeType 0 0) in
  c_enc c_HandshakeEventBuf
    (mkHandshake (mkNetEventBuf e EXPECTED_VERSION (mkTimeType 0 0)) EXPECTED_VERSION (u16 (buf_len version)))
  ++ version ++ le_bytes 2 (u16 (buf_len alias)) ++ alias.

Section Market.
Context {D : Type} `{Dbl D} `{ToFloat D}.
Definition float_price (p : Z) : Z := u32 (d_to_float (to_double p)).
Definition MarketQuoteEvent (ts : Timestamp) (date fdoid : Z) (q : FullL2Quote) (exchange : Z) : list Z :=
  c_enc c_MarketQuoteEventBuf
    (mkMarketQuote (Event_new MARKET_EVENT date fdoid ts)
       (mkMarketEventBase EXPECTED_VERSION QUOTE_EVENT_TYPE exchange)
       (float_price (q_price (fq_bid q))) (q_size (fq_bid q))
       (float_price (q_price (fq_ask q))) (q_size (fq_ask q))).
Definition MarketTradeEvent (ts : Timestamp) (date fdoid price size exchange : Z) : list Z :=
  c_enc c_MarketTradeEventBuf
    (mkMarketTrade (Event_new MARKET_EVENT date fdoid ts)
       (mkMarketEventBase EXPECTED_VERSION TRADE_EVENT_TYPE exchange) (float_price price) size).
End Market.

(** The program's floats: the double rounded to 24 bits. *)
Definition b32_of_b64 (x : spec_float) : spec_float :=
  match x with
  | S754_finite s m e => binary_normalize 24 128 (if s then Z.neg m else Z.pos m) e s
  | _ => x
  end.
Definition two23 : Z := 8388608.
Definition b32_bits (x : spec_float) : Z :=
  let sign (s : bool) := if s then 2147483648 else 0 in
  match x with
  | S754_zero s => sign s
  | S754_infinity s => sign s + 255 * two23
  | S754_nan => 255 * two23 + two23 / 2
  | S754_finite s m e =>
      sign s + (if Z.pos m <? two23 then Z.pos m else (e + 150) * two23 + (Z.pos m - two23))
  end.
#[export] Instance binary64_to_float : ToFloat spec_float := λ x, b32_bits (b32_of_b64 x).
