(* ===== verification/TpsServer.v ===== *)
(** * The position server (src/ts/tps/TPSServer.cpp)

    The sessions of the clients and the server that shares out quotes and trades
    among them.  A session is named by its index in [m_clients].  The lock of the
    server is the spinning reader-writer lock of TBB, which its holder cannot take
    again to write: who does waits forever.  Arrays by symbol are total maps.
    What the coming calls of [write] answer is part of the state: when the answers
    are used up, a write takes everything, unless they end with [StaysFull]: the
    socket takes nothing from there on, and a write that blocks does not return. *)

From S2P Require Import Prelude Dbl Time Codec L2Book Calendar TpsWire.
From stdpp Require Import gmap.
Open Scope Z_scope.

(** ** State *)

Inductive ClientState := CLIENT_UNKNOWN | PRE_HANDSHAKE | HANDSHAKE_OK | HANDSHAKE_DENIED | DISCONNECTED.
#[export] Instance ClientState_eq_dec : EqDecision ClientState.
Proof. solve_decision. Defined.

Record ClientSession := mkClient {
  cs_fd : Z;
  cs_state : ClientState;
  cs_dangly_bytes : list Z;
  cs_subscribed_esi : list Z;
  cs_date : Z;
  cs_tz_offset_secs : Z
}.
#[export] Instance ClientSession_rebuild : Rebuild ClientSession := λ c,
  mkClient (cs_fd c) (cs_state c) (cs_dangly_bytes c) (cs_subscribed_esi c) (cs_date c) (cs_tz_offset_secs c).

Inductive WriteAnswer := Wrote (n : nat) | Errno (e : Z) | StaysFull.
Inductive Lock := Free | Reading | Writing.
#[export] Instance Lock_eq_dec : EqDecision Lock.
Proof. solve_decision. Defined.

(** [tps_wire]: what was written, with the descriptor it was written to. *)
Record TPSServer := mkServer {
  tps_clients : list ClientSession;
  tps_instrument_clients : gmap Z (list Z);
  tps_fdoid_esi : gmap Z Z;
  tps_esi_fdoid : gmap Z Z;
  tps_lock : Lock;
  tps_answers : list WriteAnswer;
  tps_wire : list (Z * list Z)
}.
#[export] Instance TPSServer_rebuild : Rebuild TPSServer := λ s,
  mkServer (tps_clients s) (tps_instrument_clients s) (tps_fdoid_esi s) (tps_esi_fdoid s)
    (tps_lock s) (tps_answers s) (tps_wire s).

Implicit Types (s : TPSServer) (c : ClientSession) (cid esi : Z).

Definition get_client cid s : res ClientSession :=
  match (if cid <? 0 then None else tps_clients s !! Z.to_nat cid) with
  | Some c => Ok c
  | None => Fail (UndefinedBehaviour "client index out of range")
  end.
Definition put_client cid c s : TPSServer :=
  s <| tps_clients := <[Z.to_nat cid := c]> (tps_clients s) |>.
Definition clients_of esi s : list Z := default [] (tps_instrument_clients s !! esi).

(** [Mutex::scoped_lock lock(m_mutex, write)] around the rest of a block. *)
Definition locked {A} (write : bool) (body : TPSServer → res (A * TPSServer)) s : res (A * TPSServer) :=
  match tps_lock s, write with
  | Free, _ =>
      '(x, s) ← body (s <| tps_lock := if write then Writing else Reading |>);
      Ok (x, s <| tps_lock := Free |>)
  | Reading, false => body s
  | _, _ => Fail (Deadlock "m_mutex")
  end.

(** ** Subscriptions *)

Definition add_subscription cid (fdo_id : Z) s : res (Z * TPSServer) :=
  match tps_fdoid_esi s !! fdo_id with
  | Some esi =>
      locked true (λ s, Ok (esi,
        s <| tps_instrument_clients := <[esi := clients_of esi s ++ [cid]]> (tps_instrument_clients s) |>)) s
  | None => Ok (0, s)
  end.
Definition is_subscribed cid (fdo_id : Z) s : res (bool * TPSServer) :=
  locked false (λ s, Ok (
    match tps_fdoid_esi s !! fdo_id with
    | Some esi => bool_decide (cid ∈ clients_of esi s)
    | None => false
    end, s)) s.
(** The first place of the client takes the last client. *)
Fixpoint swap_remove (cid : Z) (v : list Z) : list Z :=
  match v with
  | [] => []
  | c :: v =>
      if c =? cid then match v with [] => [] | _ => List.last v 0 :: removelast v end
      else c :: swap_remove cid v
  end.
Definition remove_subscription cid esi s : res (unit * TPSServer) :=
  locked true (λ s, Ok (tt,
    s <| tps_instrument_clients := <[esi := swap_remove cid (clients_of esi s)]> (tps_instrument_clients s) |>)) s.

(** ** Sessions *)

Definition client_disconnect cid s : res TPSServer :=
  c ← get_client cid s;
  let s := put_client cid (c <| cs_state := DISCONNECTED |> <| cs_fd := -1 |>) s in
  foldM (λ s esi, '(_, s) ← remove_subscription cid esi s; Ok s) s (cs_subscribed_esi c).

Definition EAGAIN : Z := 11.
Definition EBADF : Z := 9.
(** [write_buffer]: what it returns, and what it has written by then.  A blocking
    call tries again for as long as the socket is full: for ever, when it stays so. *)
Fixpoint write_loop (buf : list Z) (blocking : bool) (answers : list WriteAnswer) : res (Z * list Z * list WriteAnswer) :=
  match answers with
  | [] => Ok (0, buf, [])
  | Wrote n :: answers =>
      match drop n buf with
      | [] => Ok (0, buf, answers)
      | rest => '(err, written, answers) ← write_loop rest blocking answers;
                Ok (err, take n buf ++ written, answers)
      end
  | Errno e :: answers =>
      if (e =? EAGAIN) && blocking then write_loop buf blocking answers else Ok (- e, [], answers)
  | StaysFull :: _ => if blocking then Fail (Deadlock "write") else Ok (- EAGAIN, [], answers)
  end.
Definition write_buffer (fd : Z) (buf : list Z) (blocking : bool) s : res (Z * TPSServer) :=
  if fd <? 0 then Ok (- EBADF, s)
  else
    '(err, written, answers) ← write_loop buf blocking (tps_answers s);
    Ok (err, s <| tps_answers := answers |> <| tps_wire := tps_wire s ++ [(fd, written)] |>).
Definition send_or_disconnect cid (buf : list Z) (blocking : bool) s : res (bool * TPSServer) :=
  c ← get_client cid s;
  '(err, s) ← write_buffer (cs_fd c) buf blocking s;
  if err <? 0 then s ← client_disconnect cid s; Ok (false, s) else Ok (true, s).

Section Quotes.
Context {D : Type} `{Dbl D} `{ToFloat D}.
Definition local_time (ts : Timestamp) c : Timestamp := ts_minus ts (ts_make (cs_tz_offset_secs c) 0).
Definition write_quote (ts : Timestamp) cid (fdoid : Z) (q : FullL2Quote) s : res TPSServer :=
  c ← get_client cid s;
  '(_, s) ← send_or_disconnect cid (MarketQuoteEvent (D:=D) (local_time ts c) (cs_date c) fdoid q 0) true s;
  Ok s.
Definition write_trade (ts : Timestamp) (mic_index : Z) cid (fdoid price size : Z) s : res TPSServer :=
  c ← get_client cid s;
  '(_, s) ← send_or_disconnect cid
    (MarketTradeEvent (D:=D) (local_time ts c) (cs_date c) fdoid price size (fdo_exchange mic_index)) true s;
  Ok s.
Definition fdoid_of esi s : Z := default 0 (tps_esi_fdoid s !! esi).
Definition on_quote_update (ts : Timestamp) esi (q : FullL2Quote) s : res TPSServer :=
  '(_, s) ← locked false (λ s,
    s ← foldM (λ s cid, write_quote ts cid (fdoid_of esi s) q s) s (clients_of esi s); Ok (tt, s)) s;
  Ok s.
Definition on_trade_update (ts : Timestamp) (mic_index : Z) esi (price size : Z) s : res TPSServer :=
  '(_, s) ← locked false (λ s,
    s ← foldM (λ s cid, write_trade ts mic_index cid (fdoid_of esi s) price size s) s (clients_of esi s); Ok (tt, s)) s;
  Ok s.
End Quotes.

(** *** What clients send *)

Definition answer_handshake cid (version : list Z) s : res TPSServer :=
  c ← get_client cid s;
  let '(state, reply) :=
    if bool_decide (EXPECTED_VERSION_STRING = version)
    then (HANDSHAKE_OK, RESPONSE_HANDSHAKE_OK) else (HANDSHAKE_DENIED, RESPONSE_HANDSHAKE_DENIED) in
  let s := put_client cid (c <| cs_state := state |>) s in
  '(_, s) ← send_or_disconnect cid (HandshakeEvent EXPECTED_VERSION_STRING reply) true s;
  Ok s.
Definition handle_handshake_event cid (w : EventBufWrapper) s : res TPSServer :=
  version ← wrapper_version w; answer_handshake cid version s.
Definition subscribe cid (fdo_id : Z) s : res TPSServer :=
  '(yes, s) ← is_subscribed cid fdo_id s;
  if yes : bool then Ok s
  else
    '(esi, s) ← add_subscription cid fdo_id s;
    c ← get_client cid s;
    Ok (if esi =? 0 then s
        else put_client cid (c <| cs_subscribed_esi := cs_subscribed_esi c ++ [esi] |>) s).
Definition handle_subscription_event cid (w : EventBufWrapper) s : res TPSServer :=
  flags ← wrapper_flags w;
  if Z.land flags REQUEST =? 0 then Ok s
  else e ← the_event w; subscribe cid (u32 (ev_inst_id e)) s.
(** Requests of snapshots are only printed. *)
Definition client_handle_event cid (w : EventBufWrapper) s : res TPSServer :=
  e ← the_event w;
  let t := ev_event_type e in
  if t =? SUBSCRIPTION_EVENT then handle_subscription_event cid w s
  else if t =? HANDSHAKE_EVENT then handle_handshake_event cid w s
  else Ok s.

(** The loop of [handle_raw_bytes]: the bytes it leaves.  [fuel]: as much as there
    are bytes is enough. *)
Fixpoint events_loop (fuel : nat) cid (buf : list Z) s : option (res (list Z * TPSServer)) :=
  match next_event_from_buffer buf with
  | Fail e => Some (Fail e)
  | Ok (Some w) =>
      if w_valid w then
        match client_handle_event cid w s with
        | Fail e => Some (Fail e)
        | Ok s =>
            match fuel with
            | O => None
            | S fuel => events_loop fuel cid (drop (Z.to_nat (w_bytes_read w)) buf) s
            end
        end
      else Some (Ok (buf, s))
  | Ok None => Some (Ok (buf, s))
  end.
(** Bytes that are left over replace the ones that dangled; when none are, the
    ones that dangled stay, with the bytes just read. *)
Definition client_raw_bytes cid (buf : list Z) s : res TPSServer :=
  c ← get_client cid s;
  let use_buf := match cs_dangly_bytes c with [] => buf | d => d ++ buf end in
  let s := match cs_dangly_bytes c with
           | [] => s
           | d => put_client cid (c <| cs_dangly_bytes := d ++ buf |>) s
           end in
  '(rest, s) ← default (Fail (UndefinedBehaviour "no fuel")) (events_loop (length use_buf) cid use_buf s);
  match rest with
  | [] => Ok s
  | _ => c ← get_client cid s; Ok (put_client cid (c <| cs_dangly_bytes := rest |>) s)
  end.

(** ** The listener of the sockets *)

(** [date]: today's, as the data manager has it; [tz]: what the difference of
    [mktime] and [timegm] comes to.  A bad date throws. *)
Definition ClientSession_new (fd date tz : Z) : res ClientSession :=
  d ← date_from_yyyymmdd (u32 (date_yyyy date)) (u32 (date_mm date)) (u32 (date_dd date));
  Ok (mkClient fd PRE_HANDSHAKE [] [] d tz).
Definition on_new_client (fd date tz : Z) s : res (Z * TPSServer) :=
  locked true (λ s,
    c ← ClientSession_new fd date tz;
    Ok (Z.of_nat (length (tps_clients s)), s <| tps_clients := tps_clients s ++ [c] |>)) s.
Definition tps_on_peer_disconnect cid s : res TPSServer := client_disconnect cid s.
Definition tps_on_recv cid (buf : list Z) s : res TPSServer := client_raw_bytes cid buf s.
(** [symbols]: the symbol index of every instrument, with its FDO symbol if that is a
    number. *)
Definition TPSServer_new (symbols : list (Z * option Z)) : TPSServer :=
  fold_left (λ s '(esi, fdo),
    match fdo with
    | Some fdoid => s <| tps_fdoid_esi := <[fdoid := esi]> (tps_fdoid_esi s) |>
                      <| tps_esi_fdoid := <[esi := fdoid]> (tps_esi_fdoid s) |>
    | None => s
    end) symbols (mkServer [] ∅ ∅ ∅ Free [] []).
