(* ===== verification/TpsCorrect.v ===== *)
(** * What holds of the position server

    Whole messages are handled once each, in order; subscriptions stay consistent
    whatever clients send; quotes reach their subscribers.  And what goes wrong:
    short handshakes wait for ever, split ones are answered again and again, and a
    dead subscriber locks the server up. *)

From S2P Require Import Prelude Dbl Time Codec L2Book Calendar TpsWire TpsServer.
From stdpp Require Import gmap.
Open Scope Z_scope.

(** ** Reading messages *)

Inductive ClientMessage :=
| MSubscribe (n : NetEventBuf) (flags : Z)
| MSnapshot (n : NetEventBuf) (type which price_or_level id : Z)
| MHandshake (n : NetEventBuf) (version alias : list Z).
Definition message_net (m : ClientMessage) : NetEventBuf :=
  match m with MSubscribe n _ | MSnapshot n _ _ _ _ | MHandshake n _ _ => n end.
Definition message_type (m : ClientMessage) : Z :=
  match m with
  | MSubscribe _ _ => SUBSCRIPTION_EVENT
  | MSnapshot _ _ _ _ _ => SNAPSHOT_REQUEST_EVENT
  | MHandshake _ _ _ => HANDSHAKE_EVENT
  end.
Definition encode (m : ClientMessage) : list Z :=
  match m with
  | MSubscribe n f => c_enc c_SubscriptionEventBuf (mkSubscription n EXPECTED_VERSION f)
  | MSnapshot n t w p i => c_enc c_SnapshotRequestEventBuf (mkSnapshotRequest n SNAPSHOT_REQUEST_VERSION t w p i)
  | MHandshake n v a =>
      c_enc c_HandshakeEventBuf (mkHandshake n EXPECTED_VERSION (buf_len v))
      ++ v ++ le_bytes 2 (buf_len a) ++ a
  end.
Definition payload_ok (m : ClientMessage) : Prop :=
  match m with
  | MSubscribe n f => c_valid c_SubscriptionEventBuf (mkSubscription n EXPECTED_VERSION f)
  | MSnapshot n t w p i => c_valid c_SnapshotRequestEventBuf (mkSnapshotRequest n SNAPSHOT_REQUEST_VERSION t w p i)
  | MHandshake n v a =>
      c_valid c_HandshakeEventBuf (mkHandshake n EXPECTED_VERSION (buf_len v))
      /\ Forall is_byte v /\ buf_len a < 65536
  end.
(** A message as a client should send it. *)
Definition client_message_ok (m : ClientMessage) : Prop :=
  payload_ok m /\ ne_version (message_net m) = EXPECTED_VERSION
  /\ ev_version (ne_event (message_net m)) = EXPECTED_VERSION
  /\ ev_event_type (ne_event (message_net m)) = message_type m.
Definition is_handshake (m : ClientMessage) : bool := match m with MHandshake _ _ _ => true | _ => false end.

(** What the message does. *)
Definition message_step (cid : Z) (m : ClientMessage) (s : TPSServer) : res TPSServer :=
  match m with
  | MSubscribe n f =>
      if Z.land f REQUEST =? 0 then Ok s else subscribe cid (u32 (ev_inst_id (ne_event n))) s
  | MSnapshot _ _ _ _ _ => Ok s
  | MHandshake _ v _ => answer_handshake cid v s
  end.

Lemma c_event_size : sizeof c_EventBuf = 32. Proof. done. Qed.
Lemma c_net_size : sizeof c_NetEventBuf = 50. Proof. done. Qed.
Lemma c_hs_size : sizeof c_HandshakeEventBuf = 54. Proof. done. Qed.
Lemma c_sub_size : sizeof c_SubscriptionEventBuf = 56. Proof. done. Qed.
Lemma c_snap_size : sizeof c_SnapshotRequestEventBuf = 66. Proof. done. Qed.

(** Every struct begins with the one it extends. *)
Lemma pair_enc {A B} (ca : Codec A) (cb : Codec B) a b : c_enc (ca *c cb) (a, b) = c_enc ca a ++ c_enc cb b.
Proof. reflexivity. Qed.
Lemma record_enc {A B} (mk : A → B) fields (ca : Codec A) b : c_enc (c_record mk fields ca) b = c_enc ca (fields b).
Proof. reflexivity. Qed.
Lemma event_prefix e : ∃ tl, c_enc c_EventBuf e
  = c_enc (c_uint 2 *c c_uint 2) (ev_version e, ev_event_type e) ++ tl.
Proof. unfold c_EventBuf. rewrite record_enc, !pair_enc, <- !app_assoc. by eexists. Qed.
Lemma net_prefix n : ∃ tl, c_enc c_NetEventBuf n = c_enc c_EventBuf (ne_event n) ++ tl.
Proof. unfold c_NetEventBuf. rewrite record_enc, !pair_enc, <- !app_assoc. by eexists. Qed.
Lemma message_prefix m : ∃ tl, encode m = c_enc c_NetEventBuf (message_net m) ++ tl.
Proof.
  destruct m; cbn [encode message_net];
    unfold c_SubscriptionEventBuf, c_SnapshotRequestEventBuf, c_HandshakeEventBuf;
    rewrite record_enc, !pair_enc, <- !app_assoc; by eexists.
Qed.
Lemma net_valid m : payload_ok m → c_valid c_NetEventBuf (message_net m).
Proof.
  destruct m; intros Hv.
  - exact (proj1 (proj1 Hv)).
  - exact (proj1 (proj1 (proj1 (proj1 (proj1 Hv))))).
  - exact (proj1 (proj1 (proj1 Hv))).
Qed.
Lemma event_valid n : c_valid c_NetEventBuf n → c_valid c_EventBuf (ne_event n).
Proof. intros Hv. exact (proj1 (proj1 Hv)). Qed.
Lemma length_enc {A} (c : Codec A) `{!CodecOk c} x : c_valid c x → buf_len (c_enc c x) = sizeof c.
Proof. intros Hv. unfold buf_len, sizeof. by rewrite codec_length. Qed.
Lemma buf_len_app l1 l2 : buf_len (l1 ++ l2) = buf_len l1 + buf_len l2.
Proof. unfold buf_len. rewrite length_app. lia. Qed.
Lemma buf_len_nonneg l : 0 <= buf_len l. Proof. unfold buf_len. lia. Qed.

Section Message.
Context (m : ClientMessage) (Hm : client_message_ok m) (rest : list Z).

Lemma message_event : reading c_EventBuf (encode m ++ rest) = Ok (ne_event (message_net m)).
Proof.
  destruct Hm as (Hp & _). destruct (message_prefix m) as [tl ->]. destruct (net_prefix (message_net m)) as [tl' ->].
  rewrite <- !app_assoc. apply reading_enc; [apply _|]. by apply event_valid, net_valid.
Qed.
Lemma message_net_read : reading c_NetEventBuf (encode m ++ rest) = Ok (message_net m).
Proof.
  destruct Hm as (Hp & _). destruct (message_prefix m) as [tl ->].
  rewrite <- !app_assoc. apply reading_enc; [apply _|]. by apply net_valid.
Qed.
Lemma message_header : reading (c_uint 2 *c c_uint 2) (encode m ++ rest) = Ok (EXPECTED_VERSION, message_type m).
Proof.
  destruct Hm as (Hp & Hnv & Hv & Ht). destruct (message_prefix m) as [tl ->].
  destruct (net_prefix (message_net m)) as [tl' ->]. destruct (event_prefix (ne_event (message_net m))) as [tl'' ->].
  rewrite <- !app_assoc, Hv, Ht. apply reading_enc; [apply _|]. by destruct m.
Qed.
Lemma message_len : 50 <= buf_len (encode m ++ rest).
Proof.
  destruct Hm as (Hp & _). destruct (message_prefix m) as [tl ->]. rewrite !buf_len_app.
  rewrite length_enc by (apply _ || by apply net_valid). rewrite c_net_size.
  pose proof (buf_len_nonneg tl). pose proof (buf_len_nonneg rest). lia.
Qed.
(** The part of the wrapper that all messages share. *)
Definition net_wrapper : EventBufWrapper := mkWrapper (encode m ++ rest) true true 50 None None.
Lemma message_wrapper : NetEventBufWrapper_new (encode m ++ rest) = Ok net_wrapper.
Proof.
  destruct Hm as (Hp & Hnv & Hv & Ht). pose proof message_len as Hl.
  unfold NetEventBufWrapper_new, EventBufWrapper_new. rewrite c_event_size, c_net_size.
  rewrite (proj2 (Z.leb_le 32 _)) by lia. rewrite message_event. cbn [mbind res_bind].
  rewrite Hv, Z.eqb_refl. cbn -[reading buf_len Z.leb encode app]. rewrite (proj2 (Z.leb_le 50 _)) by lia.
  rewrite message_net_read. cbn [mbind res_bind]. by rewrite Hnv, Z.eqb_refl.
Qed.

(** Enough bytes for the wrapper of a handshake, which asks for a struct's worth
    more than the event. *)
Definition seen : Prop := is_handshake m = true → 104 <= buf_len (encode m ++ rest).
Definition reads_as : Prop :=
  ∃ w, next_event_from_buffer (encode m ++ rest) = Ok (Some w) /\ w_valid w = true
    /\ w_bytes_read w = buf_len (encode m)
    /\ ∀ cid s, client_handle_event cid w s = message_step cid m s.
Lemma message_dispatch :
  next_event_from_buffer (encode m ++ rest) =
    Some <$> (match m with
              | MSubscribe _ _ => SubscriptionEventBufWrapper_new
              | MSnapshot _ _ _ _ _ => SnapshotRequestEventBufWrapper_new
              | MHandshake _ _ _ => HandshakeEventBufWrapper_new
              end) (encode m ++ rest).
Proof.
  unfold next_event_from_buffer. pose proof message_len. rewrite (proj2 (Z.leb_le 4 _)) by lia.
  rewrite message_header. cbn [mbind res_bind snd]. by destruct m.
Qed.
End Message.

Lemma subscribe_reads n f rest : client_message_ok (MSubscribe n f) → reads_as (MSubscribe n f) rest.
Proof.
  intros Hm. pose proof (message_event _ Hm rest) as He. pose proof (message_wrapper _ Hm rest) as Hw.
  unfold reads_as. rewrite (message_dispatch _ Hm). unfold SubscriptionEventBufWrapper_new. rewrite Hw.
  destruct Hm as (Hp & Hnv & Hv & Ht).
  assert (reading c_SubscriptionEventBuf (encode (MSubscribe n f) ++ rest) = Ok (mkSubscription n EXPECTED_VERSION f)) as Hr
    by (apply reading_enc; [apply _|done]).
  assert (buf_len (encode (MSubscribe n f)) = 56) as Hl by (cbn [encode]; rewrite length_enc by (apply _ || done); done).
  cbn [mbind res_bind net_wrapper w_valid]. rewrite c_sub_size, buf_len_app, Hl.
  rewrite (proj2 (Z.leb_le 56 _)) by (pose proof (buf_len_nonneg rest); lia). rewrite Hr. cbn [mbind res_bind].
  eexists. split; [reflexivity|]. split; [done|]. split; [done|]. intros cid s.
  unfold client_handle_event, the_event, handle_subscription_event, wrapper_flags, the_event.
  cbn [w_buf w_event_buf net_wrapper]. cbn -[reading encode subscribe Z.land app]. rewrite He, Hr.
  cbn -[reading encode subscribe Z.land app]. cbn in Ht. by rewrite Ht.
Qed.
Lemma snapshot_reads n t wh p i rest :
  client_message_ok (MSnapshot n t wh p i) → reads_as (MSnapshot n t wh p i) rest.
Proof.
  intros Hm. pose proof (message_event _ Hm rest) as He. pose proof (message_wrapper _ Hm rest) as Hw.
  unfold reads_as. rewrite (message_dispatch _ Hm). unfold SnapshotRequestEventBufWrapper_new. rewrite Hw.
  destruct Hm as (Hp & Hnv & Hv & Ht).
  assert (reading c_SnapshotRequestEventBuf (encode (MSnapshot n t wh p i) ++ rest)
    = Ok (mkSnapshotRequest n SNAPSHOT_REQUEST_VERSION t wh p i)) as Hr by (apply reading_enc; [apply _|done]).
  assert (buf_len (encode (MSnapshot n t wh p i)) = 66) as Hl
    by (cbn [encode]; rewrite length_enc by (apply _ || done); done).
  cbn [mbind res_bind net_wrapper w_valid]. rewrite c_snap_size, buf_len_app, Hl.
  rewrite (proj2 (Z.leb_le 66 _)) by (pose proof (buf_len_nonneg rest); lia). rewrite Hr. cbn [mbind res_bind].
  eexists. split; [reflexivity|]. split; [done|]. split; [done|]. intros cid s.
  unfold client_handle_event, the_event. cbn -[reading encode subscribe app]. rewrite He.
  cbn -[reading encode subscribe app]. cbn in Ht. by rewrite Ht.
Qed.
Lemma handshake_reads n v a rest : client_message_ok (MHandshake n v a) →
  104 <= buf_len (encode (MHandshake n v a) ++ rest) → reads_as (MHandshake n v a) rest.
Proof.
  intros Hm Hlen. pose proof (message_event _ Hm rest) as He. pose proof (message_wrapper _ Hm rest) as Hw.
  unfold reads_as. rewrite (message_dispatch _ Hm). unfold HandshakeEventBufWrapper_new. rewrite Hw.
  destruct Hm as ((Hpv & Hb & Ha) & Hnv & Hv & Ht). set (h := mkHandshake n EXPECTED_VERSION (buf_len v)) in *.
  set (buf := encode (MHandshake n v a) ++ rest) in *.
  assert (buf = c_enc c_HandshakeEventBuf h ++ v ++ le_bytes 2 (buf_len a) ++ a ++ rest) as Hbuf
    by (subst buf; cbn [encode]; by rewrite <- !app_assoc).
  assert (reading c_HandshakeEventBuf buf = Ok h) as Hr by (rewrite Hbuf; apply reading_enc; [apply _|done]).
  assert (buf_len (encode (MHandshake n v a)) = 56 + buf_len v + buf_len a) as Hl.
  { cbn [encode]. rewrite !buf_len_app, length_enc by (apply _ || done). rewrite c_hs_size. cbn -[le_bytes].
    unfold buf_len at 2. rewrite length_le_bytes. lia. }
  assert (buf_len buf = 56 + buf_len v + buf_len a + buf_len rest) as Hbl by (subst buf; rewrite buf_len_app; lia).
  pose proof (buf_len_nonneg v). pose proof (buf_len_nonneg a). pose proof (buf_len_nonneg rest).
  assert (drop 54 buf = v ++ le_bytes 2 (buf_len a) ++ a ++ rest) as Hd54
    by (change 54%nat with (c_size c_HandshakeEventBuf); rewrite Hbuf; by apply drop_app_n, (codec_length h)).
  assert (reading (c_uint 2) (drop (Z.to_nat (54 + buf_len v)) buf) = Ok (buf_len a)) as Hal.
  { replace (Z.to_nat (54 + buf_len v)) with (54 + length v)%nat by (unfold buf_len; lia).
    rewrite <- drop_drop, Hd54, drop_app_length.
    apply (reading_enc (c_uint 2)). cbn. lia. }
  assert (reading (c_array (length v)) (drop 54 buf) = Ok v) as Hrv
    by (rewrite Hd54; by apply (reading_enc (c_array (length v)))).
  cbn [mbind res_bind net_wrapper w_valid negb w_bytes_read]. rewrite c_hs_size, Hbl.
  rewrite (proj2 (Z.ltb_ge _ 54)) by lia.
  rewrite Hr. cbn [mbind res_bind]. cbn [hs_version h]. rewrite Z.eqb_refl. cbn [negb hs_version_string_len h].
  rewrite !(proj2 (Z.leb_le _ _)) by lia. rewrite Hal. cbn [mbind res_bind].
  rewrite (proj2 (Z.leb_le _ _)) by lia.
  eexists. split; [reflexivity|]. split; [done|]. split; [rewrite Hl; cbn -[buf_len Z.add]; lia|]. intros cid s.
  unfold client_handle_event, the_event, handle_handshake_event, wrapper_version.
  cbn -[reading encode answer_handshake app]. fold buf. rewrite He, Hr.
  cbn -[reading encode answer_handshake app]. cbn in Ht. rewrite Ht. cbn -[reading encode answer_handshake app].
  change (Z.to_nat 54) with 54%nat. unfold buf_len at 1. rewrite Nat2Z.id, Hrv. done.
Qed.

(** ** Whatever the bytes *)

Lemma reading_enough {A} (c : Codec A) l : sizeof c <= buf_len l → reading c l = Ok (c_dec c l).
Proof. unfold sizeof, buf_len, reading. intros Hl. by rewrite (proj2 (Nat.ltb_ge _ _)) by lia. Qed.
Lemma leb_cases (a b : Z) : (a <=? b) = true /\ a <= b \/ (a <=? b) = false /\ b < a.
Proof. destruct (Z.leb_spec a b); [by left|by right]. Qed.

(** A wrapper of these bytes which, if it is valid, read some of them. *)
Record wraps (buf : list Z) (w : EventBufWrapper) : Prop := mkWraps {
  wr_buf : w_buf w = buf;
  wr_event : w_valid w = true → w_event_buf w = true;
  wr_read : w_valid w = true → 32 <= w_bytes_read w <= buf_len buf
}.
Lemma event_wraps buf : ∃ w, EventBufWrapper_new buf = Ok w /\ wraps buf w.
Proof.
  unfold EventBufWrapper_new. rewrite c_event_size. destruct (leb_cases 32 (buf_len buf)) as [[-> Hl]|[-> Hl]].
  - rewrite reading_enough by done. cbn -[c_dec c_EventBuf]. case_match; eexists; (split; [done|]); split; done || cbn; lia.
  - eexists. split; [done|]. by split.
Qed.
Lemma net_wraps buf : ∃ w, NetEventBufWrapper_new buf = Ok w /\ wraps buf w
  /\ (w_valid w = true → 50 <= buf_len buf).
Proof.
  unfold NetEventBufWrapper_new. destruct (event_wraps buf) as (w & -> & [Hb He Hr]). cbn [mbind res_bind].
  destruct (w_valid w) eqn:Hv; [|exists w; rewrite Hv; by split_and!; [|split; rewrite ?Hv|]].
  rewrite c_net_size. destruct (leb_cases 50 (buf_len buf)) as [[-> Hl]|[-> Hl]].
  - rewrite reading_enough by done. cbn [mbind res_bind]. specialize (He eq_refl). specialize (Hr eq_refl).
    case_match; eexists; (split; [done|]); (split; [|done]); split; cbn; done || auto || lia.
  - eexists. split; [done|]. split; [|done]. by split.
Qed.
(** What the wrapper of either fixed struct comes to. *)
Lemma fixed_wraps {A} (c : Codec A) (ok : A → bool) buf : 32 <= sizeof c →
  ∃ w, (w ← NetEventBufWrapper_new buf;
        if w_valid w then
          if sizeof c <=? buf_len buf then
            s ← reading c buf; Ok (if ok s then w <| w_bytes_read := sizeof c |> else w)
          else Ok (invalid w)
        else Ok w) = Ok w /\ wraps buf w /\ (w_valid w = true → sizeof c <= buf_len buf).
Proof.
  intros Hc. destruct (net_wraps buf) as (w & -> & [Hb He Hr] & Hl). cbn [mbind res_bind].
  destruct (w_valid w) eqn:Hv; [|exists w; rewrite Hv; by split_and!; [|split; rewrite ?Hv|]].
  destruct (leb_cases (sizeof c) (buf_len buf)) as [[-> Hs]|[-> Hs]].
  - rewrite reading_enough by done. cbn [mbind res_bind]. specialize (He eq_refl). specialize (Hr eq_refl).
    case_match; eexists; (split; [done|]); (split; [|done]); split; cbn -[sizeof]; done || auto || lia.
  - eexists. split; [done|]. split; [|done]. by split.
Qed.
Lemma le_val_bound n l : Forall is_byte l → 0 <= le_val (take n l).
Proof. intros Hl. apply le_val_nonneg. by apply Forall_take. Qed.
Lemma handshake_wraps buf : Forall is_byte buf → ∃ w, HandshakeEventBufWrapper_new buf = Ok w /\ wraps buf w
  /\ (w_valid w = true → 86 <= buf_len buf /\ ∃ v, wrapper_version w = Ok v).
Proof.
  intros Hbytes. unfold HandshakeEventBufWrapper_new. destruct (net_wraps buf) as (w & -> & [Hb He Hr] & Hl).
  cbn [mbind res_bind]. assert (wraps buf (invalid w)) as Hinv by by split.
  destruct (w_valid w) eqn:Hv; cbn [negb]; [|by exists (invalid w)].
  specialize (He eq_refl). specialize (Hr eq_refl). rewrite c_hs_size.
  destruct (Z.ltb_spec (buf_len buf - w_bytes_read w) 54); [by exists (invalid w)|].
  assert (sizeof c_HandshakeEventBuf <= buf_len buf) as Hs by (rewrite c_hs_size; lia).
  rewrite reading_enough by done. cbn [mbind res_bind]. set (h := c_dec c_HandshakeEventBuf buf).
  destruct (hs_version h =? EXPECTED_VERSION); cbn [negb]; [|by exists (invalid w)].
  assert (0 <= hs_version_string_len h) as Hpos by (apply (le_val_bound 2); by apply Forall_drop).
  destruct (leb_cases (54 + hs_version_string_len h) (buf_len buf)) as [[-> H1]|[-> H1]]; [|by exists (invalid w)].
  destruct (leb_cases (54 + hs_version_string_len h + 2) (buf_len buf)) as [[-> H2]|[-> H2]]; [|eexists; split; [done|]; split; [by split|done]].
  assert (reading (c_uint 2) (drop (Z.to_nat (54 + hs_version_string_len h)) buf)
    = Ok (le_val (take 2 (drop (Z.to_nat (54 + hs_version_string_len h)) buf)))) as ->.
  { apply reading_enough. unfold buf_len in *. rewrite length_drop. change (sizeof (c_uint 2)) with 2. lia. }
  cbn [mbind res_bind]. set (al := le_val _).
  assert (0 <= al) as Hal by (apply (le_val_bound 2); by apply Forall_drop). clearbody al.
  match goal with |- ∃ w, Ok ?x = _ /\ _ => set (w' := x) end. exists w'. split; [done|].
  assert (w_buf w' = buf /\ w_event_buf w' = true /\ w_version_buf w' = Some 54
    /\ 32 <= w_bytes_read w' <= buf_len buf) as (Hb' & He' & Hv' & Hr').
  { subst w'. destruct (leb_cases (54 + hs_version_string_len h + 2 + al) (buf_len buf)) as [[-> H3]|[-> H3]];
      cbn -[h buf_len Z.add]; split_and!; done || lia. }
  split; [by split|]. intros _. split; [lia|]. unfold wrapper_version. rewrite Hb', Hv', reading_enough by done.
  cbn [mbind res_bind]. fold h. eexists. apply reading_enough. unfold buf_len in *. rewrite length_drop.
  unfold sizeof. cbn -[h]. lia.
Qed.

(** What [next_event_from_buffer] finds is safe to handle. *)
Definition safe_event (buf : list Z) (w : EventBufWrapper) : Prop :=
  56 <= buf_len buf /\ 32 <= w_bytes_read w <= buf_len buf /\
  ∃ e, the_event w = Ok e
    /\ (ev_event_type e = SUBSCRIPTION_EVENT → ∃ f, wrapper_flags w = Ok f)
    /\ (ev_event_type e = HANDSHAKE_EVENT → ∃ v, wrapper_version w = Ok v).
Lemma next_event_safe buf : Forall is_byte buf →
  ∃ r, next_event_from_buffer buf = Ok r /\ ∀ w, r = Some w → w_valid w = true → safe_event buf w.
Proof.
  intros Hbytes. unfold next_event_from_buffer.
  destruct (leb_cases 4 (buf_len buf)) as [[-> H4]|[-> H4]]; [|by exists None].
  rewrite reading_enough by done. cbn [mbind res_bind]. set (t := (c_dec (c_uint 2 *c c_uint 2) buf).2).
  assert (∀ w, wraps buf w → w_valid w = true → 32 <= buf_len buf →
    ∃ e, the_event w = Ok e /\ ev_event_type e = t) as Hev.
  { intros w [Hb He _] Hv Hl. exists (c_dec c_EventBuf buf). split; [|done].
    unfold the_event. rewrite (He Hv), Hb. by apply reading_enough. }
  destruct (Z.eqb_spec t SUBSCRIPTION_EVENT) as [Ht|_]; [|destruct (Z.eqb_spec t SNAPSHOT_REQUEST_EVENT) as [Ht|_];
    [|destruct (Z.eqb_spec t HANDSHAKE_EVENT) as [Ht|_]; [|by exists None]]].
  - destruct (fixed_wraps c_SubscriptionEventBuf (λ s, sb_version s =? EXPECTED_VERSION) buf) as (w & E & Hw & Hl);
      [done|]. unfold SubscriptionEventBufWrapper_new. rewrite E. exists (Some w). split; [done|].
    intros ? [= <-] Hv. specialize (Hl Hv). rewrite c_sub_size in Hl. split; [done|].
    split; [by apply Hw|]. destruct (Hev w Hw Hv) as (e & -> & Ht'); [lia|]. exists e. rewrite Ht', Ht.
    split; [done|]. split; [|done]. intros _. unfold wrapper_flags. rewrite (wr_buf _ _ Hw), reading_enough by done.
    by eexists.
  - destruct (fixed_wraps c_SnapshotRequestEventBuf (λ s, sr_version s =? SNAPSHOT_REQUEST_VERSION) buf) as (w & E & Hw & Hl);
      [done|]. unfold SnapshotRequestEventBufWrapper_new. rewrite E. exists (Some w). split; [done|].
    intros ? [= <-] Hv. specialize (Hl Hv). rewrite c_snap_size in Hl. split; [lia|].
    split; [by apply Hw|]. destruct (Hev w Hw Hv) as (e & -> & Ht'); [lia|]. exists e. by rewrite Ht', Ht.
  - destruct (handshake_wraps buf Hbytes) as (w & -> & Hw & Hl). exists (Some w). split; [done|].
    intros ? [= <-] Hv. destruct (Hl Hv) as [Hl' Hver]. split; [lia|].
    split; [by apply Hw|]. destruct (Hev w Hw Hv) as (e & -> & Ht'); [lia|]. exists e. by rewrite Ht', Ht.
Qed.

(** ** The loop over the events *)

Definition flat (ms : list ClientMessage) : list Z := concat (encode <$> ms).
Fixpoint fits (ms : list ClientMessage) (rest : list Z) : Prop :=
  match ms with
  | [] => True
  | m :: ms' => (is_handshake m = true → 104 <= buf_len (flat ms ++ rest)) /\ fits ms' rest
  end.
(** Bytes in which no event is found. *)
Definition waits (buf : list Z) : Prop :=
  match next_event_from_buffer buf with
  | Ok (Some w) => w_valid w = false
  | Ok None => True
  | Fail _ => False
  end.
Lemma short_waits buf : Forall is_byte buf → buf_len buf < 56 → waits buf.
Proof.
  intros Hb Hl. unfold waits. destruct (next_event_safe buf Hb) as (r & -> & Hr). destruct r as [w|]; [|done].
  destruct (w_valid w) eqn:Hv; [|done]. destruct (Hr w eq_refl Hv). lia.
Qed.
Lemma loop_waits fuel cid buf s : waits buf → events_loop fuel cid buf s = Some (Ok (buf, s)).
Proof.
  intros Hw. unfold waits in Hw.
  destruct fuel; cbn [events_loop]; destruct (next_event_from_buffer buf) as [[w|]|]; rewrite ?Hw; done.
Qed.
Lemma message_reads m rest : client_message_ok m → (is_handshake m = true → 104 <= buf_len (encode m ++ rest)) →
  reads_as m rest.
Proof.
  intros Hm Hl. destruct m; [by apply subscribe_reads|by apply snapshot_reads|].
  apply handshake_reads; [done|by apply Hl].
Qed.
Lemma flat_cons m ms rest : flat (m :: ms) ++ rest = encode m ++ (flat ms ++ rest).
Proof. unfold flat. cbn [fmap list_fmap concat]. by rewrite <- app_assoc. Qed.
Lemma loop_messages cid ms rest : Forall client_message_ok ms → fits ms rest → waits rest →
  ∀ fuel s, (length ms <= fuel)%nat →
  events_loop fuel cid (flat ms ++ rest) s
  = Some (s' ← foldM (λ s m, message_step cid m s) s ms; Ok (rest, s')).
Proof.
  intros Hms Hf Hw. induction ms as [|m ms IH]; intros fuel s Hfuel; cbn [foldM].
  { by rewrite loop_waits. }
  apply Forall_cons in Hms as [Hm Hms]. destruct Hf as [Hf Hfs]. rewrite flat_cons in *.
  destruct (message_reads m (flat ms ++ rest) Hm Hf) as (w & E1 & Hv & Hr & Hstep).
  destruct fuel as [|fuel]; [cbn in Hfuel; lia|]. cbn [events_loop]. rewrite E1, Hv, Hstep.
  destruct (message_step cid m s) as [s1|e]; cbn [mbind res_bind]; [|done].
  rewrite Hr. unfold buf_len. rewrite Nat2Z.id, drop_app_length. apply IH; [done..|cbn in Hfuel; lia].
Qed.
Lemma message_length m : client_message_ok m → (50 <= length (encode m))%nat.
Proof.
  intros Hm. pose proof (message_len m Hm []) as Hl. rewrite app_nil_r in Hl. unfold buf_len in Hl. lia.
Qed.
Lemma length_flat ms rest : Forall client_message_ok ms → (length ms <= length (flat ms ++ rest))%nat.
Proof.
  induction 1 as [|m ms Hm _ IH]; [cbn; lia|]. rewrite flat_cons, length_app. pose proof (message_length m Hm).
  cbn. lia.
Qed.
Lemma waits_nil : waits []. Proof. done. Qed.

(** C12: A read that holds whole messages and follows only such reads handles each
    of them once, in the order they were sent, and leaves nothing behind, provided
    that from the start of each handshake among them the read holds 104 bytes: its
    56 fixed ones and 48 more, of its version, its alias or the messages that
    follow ([fits]).  The client is one the server knows, and its messages are
    requests of the version it expects whose fields hold what they say
    ([client_message_ok]).  A handshake with less is not handled by the read that holds
    it ([short_handshake_waits]). *)
Theorem whole_messages_handled cid c ms s : get_client cid s = Ok c → cs_dangly_bytes c = [] →
  Forall client_message_ok ms → fits ms [] →
  tps_on_recv cid (flat ms) s = foldM (λ s m, message_step cid m s) s ms.
Proof.
  intros Hc Hd Hms Hf. unfold tps_on_recv, client_raw_bytes. rewrite Hc. cbn [mbind res_bind]. rewrite Hd.
  pose proof (loop_messages cid ms [] Hms Hf waits_nil (length (flat ms)) s) as E. rewrite app_nil_r in E.
  rewrite E by (pose proof (length_flat ms [] Hms) as Hl; by rewrite app_nil_r in Hl). cbn [default].
  by destruct (foldM _ s ms).
Qed.

(** A handshake with a short alias is never answered on its own: its reader
    asks for 54 bytes more than the event takes, and so for 48 in the version and
    the alias.  The answers of the server itself are too short. *)
Theorem short_handshake_waits cid c n v a s : get_client cid s = Ok c → cs_dangly_bytes c = [] →
  client_message_ok (MHandshake n v a) → buf_len v + buf_len a < 48 → Forall is_byte a →
  tps_on_recv cid (encode (MHandshake n v a)) s
  = Ok (put_client cid (c <| cs_dangly_bytes := encode (MHandshake n v a) |>) s).
Proof.
  intros Hc Hd Hm Hl Ha. set (m := MHandshake n v a) in *.
  assert (buf_len (encode m) = 56 + buf_len v + buf_len a) as Hlen.
  { destruct Hm as ((Hpv & _) & _). cbn [encode m]. rewrite !buf_len_app, length_enc by (apply _ || done).
    rewrite c_hs_size. unfold buf_len at 2. rewrite length_le_bytes. lia. }
  assert (waits (encode m)) as Hw.
  { unfold waits. pose proof (message_dispatch m Hm []) as E. pose proof (message_wrapper m Hm []) as E2.
    rewrite app_nil_r in E, E2. rewrite E. cbn [m]. unfold HandshakeEventBufWrapper_new. fold m. rewrite E2.
    cbn [mbind res_bind net_wrapper w_valid negb w_bytes_read]. rewrite c_hs_size.
    by rewrite (proj2 (Z.ltb_lt _ 54)) by lia. }
  unfold tps_on_recv, client_raw_bytes. rewrite Hc. cbn [mbind res_bind]. rewrite Hd, loop_waits by done.
  cbn [default]. destruct (encode m) as [|x l] eqn:E; [pose proof (message_length m Hm) as H1; rewrite E in H1; cbn in H1; lia|].
  unfold id. cbn [mbind res_bind]. by rewrite Hc.
Qed.

(** ** Split messages *)

Lemma get_put cid c0 c s : get_client cid s = Ok c0 → get_client cid (put_client cid c s) = Ok c.
Proof.
  unfold get_client, put_client. destruct (cid <? 0); [done|]. cbn.
  destruct (tps_clients s !! Z.to_nat cid) eqn:E; [|done]. intros _.
  rewrite list_lookup_insert_eq; [done|]. by eapply lookup_lt_Some.
Qed.
(** What is left over from before is read again, with what came. *)
Lemma leftover_handled cid c buf ms s : get_client cid s = Ok c → cs_dangly_bytes c ≠ [] →
  cs_dangly_bytes c ++ buf = flat ms → Forall client_message_ok ms → fits ms [] →
  tps_on_recv cid buf s
  = foldM (λ s m, message_step cid m s) (put_client cid (c <| cs_dangly_bytes := flat ms |>) s) ms.
Proof.
  intros Hc Hd Hb Hms Hf. unfold tps_on_recv, client_raw_bytes. rewrite Hc. cbn [mbind res_bind].
  destruct (cs_dangly_bytes c) as [|x d] eqn:E; [done|]. rewrite Hb.
  pose proof (loop_messages cid ms [] Hms Hf waits_nil (length (flat ms))
    (put_client cid (c <| cs_dangly_bytes := flat ms |>) s)) as El. rewrite app_nil_r in El.
  rewrite El by (pose proof (length_flat ms [] Hms) as Hl; by rewrite app_nil_r in Hl). cbn [default].
  by destruct (foldM _ _ ms).
Qed.
Lemma prefix_kept cid c a s : get_client cid s = Ok c → cs_dangly_bytes c = [] → a ≠ [] → waits a →
  tps_on_recv cid a s = Ok (put_client cid (c <| cs_dangly_bytes := a |>) s).
Proof.
  intros Hc Hd Ha Hw. unfold tps_on_recv, client_raw_bytes. rewrite Hc. cbn [mbind res_bind].
  rewrite Hd, loop_waits by done. cbn [default]. unfold id. destruct a; [done|]. cbn [mbind res_bind]. by rewrite Hc.
Qed.

Definition handshake_reply (v : list Z) : list Z :=
  HandshakeEvent EXPECTED_VERSION_STRING
    (if bool_decide (EXPECTED_VERSION_STRING = v) then RESPONSE_HANDSHAKE_OK else RESPONSE_HANDSHAKE_DENIED).
(** A session whose socket takes what is written. *)
Record healthy cid c s : Prop := mkHealthy {
  he_client : get_client cid s = Ok c;
  he_fd : 0 <= cs_fd c;
  he_answers : tps_answers s = []
}.
Definition sent (fd : Z) (buf : list Z) s : TPSServer :=
  s <| tps_answers := [] |> <| tps_wire := tps_wire s ++ [(fd, buf)] |>.
Lemma healthy_send cid c buf blocking s : healthy cid c s →
  send_or_disconnect cid buf blocking s = Ok (true, sent (cs_fd c) buf s).
Proof.
  intros [Hc Hfd Ha]. unfold send_or_disconnect, write_buffer. rewrite Hc. cbn [mbind res_bind].
  rewrite (proj2 (Z.ltb_ge _ 0)) by done. rewrite Ha. cbn [write_loop]. done.
Qed.
Lemma healthy_put cid c c' s : healthy cid c s → cs_fd c' = cs_fd c → healthy cid c' (put_client cid c' s).
Proof. intros [Hc Hfd Ha] E. split; [by eapply get_put|by rewrite E|done]. Qed.
Lemma healthy_sent cid c fd buf s : healthy cid c s → healthy cid c (sent fd buf s).
Proof. by intros []. Qed.
Lemma healthy_answer cid c v s : healthy cid c s → ∃ s' c', answer_handshake cid v s = Ok s' /\ healthy cid c' s'
  /\ cs_fd c' = cs_fd c /\ cs_dangly_bytes c' = cs_dangly_bytes c
  /\ tps_wire s' = tps_wire s ++ [(cs_fd c, handshake_reply v)].
Proof.
  intros Hh. unfold answer_handshake, handshake_reply. rewrite (he_client _ _ _ Hh). cbn [mbind res_bind].
  destruct (bool_decide (EXPECTED_VERSION_STRING = v)); cbn beta iota;
    (match goal with |- context [send_or_disconnect _ _ _ (put_client _ ?x _)] => set (c' := x) end);
    pose proof (healthy_put _ _ c' _ Hh eq_refl) as Hh'; rewrite (healthy_send _ _ _ _ _ Hh'); cbn [mbind res_bind];
    do 2 eexists; (split; [done|]); (split; [by apply healthy_sent|]); done.
Qed.

(** Messages that have no answer. *)
Definition is_snapshot (m : ClientMessage) : bool := match m with MSnapshot _ _ _ _ _ => true | _ => false end.
Definition quiet_read (ms : list ClientMessage) : Prop := Forall (λ m, client_message_ok m /\ is_snapshot m = true) ms.
Lemma quiet_steps cid ms s : quiet_read ms → foldM (λ s m, message_step cid m s) s ms = Ok s.
Proof. induction 1 as [|m ms [_ Hm] _ IH]; [done|]. by destruct m. Qed.
Lemma quiet_fits ms : quiet_read ms → fits ms [].
Proof. induction 1 as [|m ms [_ Hm] _ IH]; [done|]. split; [by destruct m|done]. Qed.
Lemma flat_app l1 l2 : flat (l1 ++ l2) = flat l1 ++ flat l2.
Proof. unfold flat. by rewrite fmap_app, concat_app. Qed.
Lemma quiet_ok ms : quiet_read ms → Forall client_message_ok ms.
Proof. intros Hq. eapply Forall_impl; [exact Hq|]. by intros m []. Qed.

(** One more read while the handshake [m] dangles, or its beginning does. *)
Lemma handshake_again cid c buf n v al ms s : healthy cid c s →
  let m := MHandshake n v al in
  client_message_ok m → 104 <= buf_len (encode m) → quiet_read ms →
  cs_dangly_bytes c ≠ [] → cs_dangly_bytes c ++ buf = flat (m :: ms) →
  ∃ s' c', tps_on_recv cid buf s = Ok s' /\ healthy cid c' s' /\ cs_fd c' = cs_fd c
    /\ cs_dangly_bytes c' = flat (m :: ms)
    /\ tps_wire s' = tps_wire s ++ [(cs_fd c, handshake_reply v)].
Proof.
  intros Hh m Hm Hl Hms Hne Hd. set (c1 := c <| cs_dangly_bytes := flat (m :: ms) |>).
  pose proof (healthy_put _ _ c1 _ Hh eq_refl) as H1.
  destruct (healthy_answer _ _ v _ H1) as (s' & c' & E & Hh' & Hfd & Hd' & Hw).
  exists s', c'. split; [|done].
  rewrite (leftover_handled cid c buf (m :: ms) s); [|by apply Hh|done|done| |].
  - cbn [foldM]. change (message_step cid m _) with (answer_handshake cid v (put_client cid c1 s)).
    rewrite E. cbn [mbind res_bind]. by apply quiet_steps.
  - apply Forall_cons. split; [done|]. by apply quiet_ok.
  - split; [|by apply quiet_fits]. intros _. rewrite app_nil_r.
    replace (flat (m :: ms)) with (encode m ++ flat ms) by done. rewrite buf_len_app.
    pose proof (buf_len_nonneg (flat ms)). lia.
Qed.
Lemma handshake_every_time cid n v al reads : let m := MHandshake n v al in
  client_message_ok m → 104 <= buf_len (encode m) → Forall quiet_read reads → ∀ c seen s,
  healthy cid c s → quiet_read seen → cs_dangly_bytes c = flat (m :: seen) →
  ∃ s', foldM (λ s buf, tps_on_recv cid buf s) s (flat <$> reads) = Ok s'
    /\ tps_wire s' = tps_wire s ++ replicate (length reads) (cs_fd c, handshake_reply v).
Proof.
  intros m Hm Hl Hr. induction Hr as [|ms reads Hms _ IH]; intros c seen s Hh Hs Hd.
  { exists s. by rewrite app_nil_r. }
  destruct (handshake_again cid c (flat ms) n v al (seen ++ ms) s Hh Hm Hl) as (s1 & c1 & E & Hh1 & Hfd & Hd1 & Hw).
  - by apply Forall_app.
  - rewrite Hd. pose proof (message_length m Hm) as H1. intros E. apply (f_equal length) in E.
    change (flat (m :: seen)) with (encode m ++ flat seen) in E. rewrite length_app in E. cbn in E. lia.
  - by rewrite Hd, <- flat_app.
  - cbn [fmap list_fmap foldM]. rewrite E. cbn [mbind res_bind].
    destruct (IH c1 (seen ++ ms) s1 Hh1) as (s' & E' & Hw'); [by apply Forall_app|done|].
    exists s'. split; [exact E'|]. by rewrite Hw', Hw, Hfd, <- app_assoc.
Qed.

(** A handshake that comes in two reads is answered when it is whole, and then
    again with every read that follows: its bytes are never dropped. *)
Theorem split_handshake_answered_again cid c n v al a b reads s :
  let m := MHandshake n v al in
  healthy cid c s → cs_dangly_bytes c = [] → client_message_ok m → 104 <= buf_len (encode m) →
  encode m = a ++ b → a ≠ [] → buf_len a < 56 → Forall is_byte a → Forall quiet_read reads →
  ∃ s', foldM (λ s buf, tps_on_recv cid buf s) s (a :: b :: (flat <$> reads)) = Ok s'
    /\ tps_wire s' = tps_wire s ++ replicate (S (length reads)) (cs_fd c, handshake_reply v).
Proof.
  intros m Hh Hd Hm Hl Hab Hne Ha Hbytes Hr. cbn [foldM].
  rewrite (prefix_kept cid c a s) by (done || apply Hh || by apply short_waits). cbn [mbind res_bind].
  set (c1 := c <| cs_dangly_bytes := a |>). pose proof (healthy_put _ _ c1 _ Hh eq_refl) as H1.
  destruct (handshake_again cid c1 b n v al [] _ H1 Hm Hl) as (s2 & c2 & -> & Hh2 & Hfd & Hd2 & Hw);
    [constructor|done|unfold flat; cbn -[encode]; by rewrite app_nil_r|]. cbn [mbind res_bind].
  destruct (handshake_every_time cid n v al reads Hm Hl Hr c2 [] s2 Hh2) as (s' & -> & Hw'); [constructor|done|].
  exists s'. split; [done|]. by rewrite Hw', Hw, Hfd, <- app_assoc.
Qed.

(** ** Subscriptions *)

(** Who is listed for an instrument is a client that subscribed to it, once; who
    subscribed and has a socket is listed. *)
Record tps_ok s : Prop := mkTpsOk {
  ok_lock : tps_lock s = Free;
  ok_listed esi cid : cid ∈ clients_of esi s → ∃ c, get_client cid s = Ok c /\ esi ∈ cs_subscribed_esi c;
  ok_nodup esi : NoDup (clients_of esi s);
  ok_open cid c esi : get_client cid s = Ok c → 0 <= cs_fd c → esi ∈ cs_subscribed_esi c → cid ∈ clients_of esi s;
  ok_esi fdo esi : tps_fdoid_esi s !! fdo = Some esi → esi ≠ 0;
  ok_bytes cid c : get_client cid s = Ok c → Forall is_byte (cs_dangly_bytes c);
  (** no socket stays full for ever *)
  ok_drains : StaysFull ∉ tps_answers s
}.

Lemma swap_remove_in cid v : cid ∈ v → v ≡ₚ cid :: swap_remove cid v.
Proof.
  induction v as [|x v IH]; intros Hin; [by apply elem_of_nil in Hin|]. cbn [swap_remove].
  destruct (Z.eqb_spec x cid) as [->|Hne].
  - destruct v as [|y v]; [done|]. constructor.
    rewrite (app_removelast_last 0 (l:=y :: v)) at 1 by done. by rewrite Permutation_app_comm.
  - rewrite IH at 1; [|set_solver]. constructor.
Qed.
Lemma swap_remove_out cid v : cid ∉ v → swap_remove cid v = v.
Proof.
  induction v as [|x v IH]; intros Hin; [done|]. cbn [swap_remove]. apply not_elem_of_cons in Hin as [Hne Hin].
  destruct (Z.eqb_spec x cid) as [->|_]; [done|]. f_equal. by apply IH.
Qed.
Lemma swap_remove_spec cid v : NoDup v → NoDup (swap_remove cid v) /\ ∀ x, x ∈ swap_remove cid v ↔ x ∈ v /\ x ≠ cid.
Proof.
  intros Hv. destruct (decide (cid ∈ v)) as [Hin|Hin].
  - pose proof (swap_remove_in cid v Hin) as Hp. rewrite Hp in Hv. apply NoDup_cons in Hv as [Hn Hv].
    split; [done|]. intros x. assert (x ∈ v ↔ x ∈ cid :: swap_remove cid v) as -> by by rewrite <- Hp.
    rewrite elem_of_cons. naive_solver.
  - rewrite swap_remove_out by done. split; [done|]. naive_solver.
Qed.

Lemma get_client_length cid s : (∃ c, get_client cid s = Ok c) ↔ 0 <= cid < Z.of_nat (length (tps_clients s)).
Proof.
  unfold get_client. destruct (Z.ltb_spec cid 0); [split; [by intros []|lia]|].
  destruct (tps_clients s !! Z.to_nat cid) as [c|] eqn:E.
  - apply lookup_lt_Some in E. split; [lia|]. intros _. by exists c.
  - apply lookup_ge_None in E. split; [by intros []|lia].
Qed.
Lemma get_put_client cid c0 c cid' s : get_client cid s = Ok c0 →
  get_client cid' (put_client cid c s) = if cid' =? cid then Ok c else get_client cid' s.
Proof.
  intros Hc. destruct (Z.eqb_spec cid' cid) as [->|Hne]; [by eapply get_put|].
  unfold get_client, put_client in *. cbn. destruct (Z.ltb_spec cid' 0); [done|].
  destruct (Z.ltb_spec cid 0); [done|]. rewrite list_lookup_insert_ne by lia. done.
Qed.
(** A change of a session that keeps its socket and subscriptions. *)
Lemma put_ok cid c c' s : tps_ok s → get_client cid s = Ok c →
  cs_subscribed_esi c' = cs_subscribed_esi c → (0 <= cs_fd c' → 0 <= cs_fd c) →
  Forall is_byte (cs_dangly_bytes c') → tps_ok (put_client cid c' s).
Proof.
  intros Hok Hc Hsub Hfd Hb. destruct Hok as [Hl Hli Hn Ho He Hby Hdr].
  split; [done| |done| |done| |done].
  - intros esi x Hx. destruct (Hli esi x Hx) as (cx & Hcx & Hin). rewrite (get_put_client _ c) by done.
    destruct (Z.eqb_spec x cid) as [->|_]; [exists c'|by exists cx]. split; [done|]. rewrite Hsub.
    rewrite Hc in Hcx. by injection Hcx as ->.
  - intros x cx esi Hx Hfx Hin. rewrite (get_put_client _ c) in Hx by done. change (clients_of esi (put_client cid c' s)) with (clients_of esi s).
    destruct (Z.eqb_spec x cid) as [->|_]; [|by eapply Ho]. injection Hx as <-. rewrite Hsub in Hin. eapply Ho; eauto.
  - intros x cx Hx. rewrite (get_put_client _ c) in Hx by done.
    destruct (Z.eqb_spec x cid) as [->|_]; [by injection Hx as <-|by eapply Hby].
Qed.

(** What a disconnecting client leaves. *)
Definition rest_of s : list ClientSession * gmap Z Z * Lock * list WriteAnswer * list (Z * list Z) :=
  (tps_clients s, tps_fdoid_esi s, tps_lock s, tps_answers s, tps_wire s).
Lemma remove_all cid l s : tps_lock s = Free → (∀ esi, NoDup (clients_of esi s)) →
  ∃ s', foldM (λ s esi, '(_, s) ← remove_subscription cid esi s; Ok s) s l = Ok s'
    /\ rest_of s' = rest_of s /\ (∀ esi, NoDup (clients_of esi s'))
    /\ ∀ esi x, x ∈ clients_of esi s' ↔ x ∈ clients_of esi s /\ ~ (x = cid /\ esi ∈ l).
Proof.
  revert s. induction l as [|e l IH]; intros s Hl Hn; cbn [foldM].
  { exists s. split; [done|]. split; [done|]. split; [done|]. set_solver. }
  assert (∃ s1, remove_subscription cid e s = Ok (tt, s1) /\ rest_of s1 = rest_of s
    /\ tps_instrument_clients s1 = <[e := swap_remove cid (clients_of e s)]> (tps_instrument_clients s))
    as (s1 & -> & Hr1 & Hi1).
  { unfold remove_subscription, locked. rewrite Hl. eexists. split; [reflexivity|].
    split; [unfold rest_of; cbn; by rewrite Hl|done]. }
  cbn [mbind res_bind].
  assert (∀ esi, clients_of esi s1 = if esi =? e then swap_remove cid (clients_of e s) else clients_of esi s) as Hs1.
  { intros esi. unfold clients_of. rewrite Hi1. destruct (Z.eqb_spec esi e) as [->|Hne].
    - by rewrite lookup_insert_eq.
    - by rewrite lookup_insert_ne. }
  destruct (IH s1) as (s' & E & Hr & Hn' & Hx); [unfold rest_of in Hr1; congruence| |].
  { intros esi. rewrite Hs1. destruct (Z.eqb_spec esi e); [by apply swap_remove_spec|done]. }
  exists s'. split; [exact E|]. split; [congruence|]. split; [done|].
  intros esi x. rewrite Hx, Hs1. destruct (Z.eqb_spec esi e) as [->|Hne].
  - rewrite (proj2 (swap_remove_spec cid _ (Hn e))). set_solver.
  - set_solver.
Qed.

(** *** Every operation keeps them consistent *)

Definition keeps_clients s s' : Prop := length (tps_clients s') = length (tps_clients s).
Definition good_step s (r : res TPSServer) : Prop := ∃ s', r = Ok s' /\ tps_ok s' /\ keeps_clients s s'.
Lemma client_after cid c s s' : get_client cid s = Ok c → keeps_clients s s' → ∃ c', get_client cid s' = Ok c'.
Proof. intros Hc Hk. apply get_client_length. rewrite Hk. apply get_client_length. by exists c. Qed.
Lemma put_keeps cid c s : keeps_clients s (put_client cid c s).
Proof. unfold keeps_clients, put_client. cbn. by rewrite length_insert. Qed.
Lemma good_put cid c c' s (f : TPSServer → res TPSServer) : get_client cid s = Ok c →
  (∀ s1, tps_ok s1 → keeps_clients s s1 → good_step s1 (f s1)) → tps_ok (put_client cid c' s) →
  good_step s (f (put_client cid c' s)).
Proof.
  intros Hc Hf Hok. destruct (Hf _ Hok (put_keeps cid c' s)) as (s' & E & Hok' & Hk).
  exists s'. split; [done|]. split; [done|]. unfold keeps_clients in *. rewrite Hk. apply put_keeps.
Qed.

Lemma disconnect_ok cid c s : tps_ok s → get_client cid s = Ok c → good_step s (client_disconnect cid s).
Proof.
  intros Hok Hc. unfold client_disconnect. rewrite Hc. cbn [mbind res_bind].
  set (c' := c <| cs_state := DISCONNECTED |> <| cs_fd := -1 |>).
  assert (tps_ok (put_client cid c' s)) as Hok1 by (eapply put_ok; eauto; cbn; [lia|by eapply ok_bytes]).
  destruct (remove_all cid (cs_subscribed_esi c) (put_client cid c' s) (ok_lock _ Hok1) (ok_nodup _ Hok1))
    as (s' & E & Hr & Hn & Hx). unfold rest_of in Hr. injection Hr as Hcl Hfd Hlk Han _.
  exists s'. split; [exact E|]. split; [|unfold keeps_clients; rewrite Hcl; apply put_keeps].
  assert (∀ x, get_client x s' = get_client x (put_client cid c' s)) as Hg by (intros x; unfold get_client; by rewrite Hcl).
  destruct Hok1 as [Hl1 Hli1 Hn1 Ho1 He1 Hby1 Hdr1]. split.
  - by rewrite Hlk.
  - intros esi x [Hin _]%Hx. rewrite Hg. by apply Hli1.
  - done.
  - intros x cx esi Hgx Hfx Hin. rewrite Hg in Hgx. apply Hx. split; [by eapply Ho1|].
    intros [-> _]. rewrite (get_put _ _ _ _ Hc) in Hgx. injection Hgx as <-. cbn in Hfx. lia.
  - intros fdo esi. rewrite Hfd. apply He1.
  - intros x cx. rewrite Hg. apply Hby1.
  - by rewrite Han.
Qed.
(** A write to a socket that does not stay full returns. *)
Lemma write_returns blocking an : ∀ buf, StaysFull ∉ an →
  ∃ err written an', write_loop buf blocking an = Ok (err, written, an') /\ StaysFull ∉ an'.
Proof.
  induction an as [|[n|e|] an IH]; intros buf Hno; cbn [write_loop]; [by do 3 eexists|..|set_solver];
    apply not_elem_of_cons in Hno as [_ Hno].
  - destruct (drop n buf) as [|x rest]; [by do 3 eexists|].
    destruct (IH (x :: rest) Hno) as (err & w & an' & -> & Hno'). by do 3 eexists.
  - destruct (_ && _); [by apply IH|by do 3 eexists].
Qed.
Lemma send_ok cid c buf blocking s : tps_ok s → get_client cid s = Ok c →
  good_step s ('(_, s) ← send_or_disconnect cid buf blocking s; Ok s).
Proof.
  intros Hok Hc. unfold send_or_disconnect. rewrite Hc. cbn [mbind res_bind].
  assert (∃ err s1, write_buffer (cs_fd c) buf blocking s = Ok (err, s1) /\ tps_ok s1
    /\ tps_clients s1 = tps_clients s) as (err & s1 & -> & Hok1 & Hcl).
  { unfold write_buffer. destruct (cs_fd c <? 0); [by do 2 eexists|].
    destruct (write_returns blocking (tps_answers s) buf (ok_drains _ Hok)) as (e & w & an & -> & Han).
    do 2 eexists. split; [done|]. split; [by destruct Hok|done]. }
  cbn [mbind res_bind].
  destruct (err <? 0).
  - destruct (disconnect_ok cid c s1 Hok1) as (s2 & -> & Hok2 & Hk).
    { unfold get_client in *. by rewrite Hcl. }
    exists s2. split; [done|]. split; [done|]. unfold keeps_clients in *. by rewrite Hk, Hcl.
  - exists s1. split; [done|]. split; [done|]. unfold keeps_clients. by rewrite Hcl.
Qed.
Lemma answer_ok cid c v s : tps_ok s → get_client cid s = Ok c → good_step s (answer_handshake cid v s).
Proof.
  intros Hok Hc. unfold answer_handshake. rewrite Hc. cbn [mbind res_bind].
  destruct (bool_decide _); cbn beta iota;
    (apply (good_put cid c _ s (λ s, '(_, s) ← send_or_disconnect cid _ true s; Ok s) Hc);
      [intros s1 Hok1 Hk; destruct (client_after _ _ _ _ Hc Hk) as [c1 Hc1]; by eapply send_ok
      |apply (put_ok cid c); try done; by apply (ok_bytes _ Hok cid c)]).
Qed.
Lemma is_subscribed_spec cid fdo s : tps_lock s = Free →
  is_subscribed cid fdo s
  = Ok (match tps_fdoid_esi s !! fdo with Some esi => bool_decide (cid ∈ clients_of esi s) | None => false end, s).
Proof. unfold is_subscribed, locked. destruct s. cbn. by intros ->. Qed.
Definition enlist cid esi s : TPSServer :=
  s <| tps_instrument_clients := <[esi := clients_of esi s ++ [cid]]> (tps_instrument_clients s) |>.
Lemma add_subscription_spec cid fdo s : tps_lock s = Free →
  add_subscription cid fdo s
  = Ok (match tps_fdoid_esi s !! fdo with Some esi => (esi, enlist cid esi s) | None => (0, s) end).
Proof.
  unfold add_subscription, locked, enlist, clients_of. destruct s. cbn. intros ->. by destruct (_ !! fdo).
Qed.
Lemma clients_enlist cid esi esi' s :
  clients_of esi' (enlist cid esi s) = if esi' =? esi then clients_of esi s ++ [cid] else clients_of esi' s.
Proof.
  unfold clients_of at 1, enlist. cbn. destruct (Z.eqb_spec esi' esi) as [->|Hne].
  - by rewrite lookup_insert_eq.
  - by rewrite lookup_insert_ne.
Qed.
Lemma subscribe_ok cid c fdo s : tps_ok s → get_client cid s = Ok c → good_step s (subscribe cid fdo s).
Proof.
  intros Hok Hc. pose proof Hok as [Hl Hli Hn Ho He Hby Hdr]. unfold subscribe.
  rewrite is_subscribed_spec by done. cbn [mbind res_bind]. rewrite add_subscription_spec by done.
  destruct (tps_fdoid_esi s !! fdo) as [esi|] eqn:Ef.
  2:{ cbn [mbind res_bind]. rewrite Hc. cbn. by exists s. }
  case_bool_decide as Hin; [by exists s|]. cbn [mbind res_bind].
  change (get_client cid (enlist cid esi s)) with (get_client cid s). rewrite Hc. cbn [mbind res_bind].
  rewrite (proj2 (Z.eqb_neq esi 0)) by (by eapply He).
  set (c' := c <| cs_subscribed_esi := cs_subscribed_esi c ++ [esi] |>).
  exists (put_client cid c' (enlist cid esi s)). split; [done|]. split; [|apply (put_keeps cid c' (enlist cid esi s))].
  assert (∀ x, get_client x (put_client cid c' (enlist cid esi s)) = if x =? cid then Ok c' else get_client x s) as Hg
    by (intros x; by rewrite (get_put_client _ c)).
  assert (∀ e, clients_of e (put_client cid c' (enlist cid esi s)) = clients_of e (enlist cid esi s)) as Hcl by done.
  split; [done| | | |done| |done].
  - intros e x. rewrite Hg, Hcl, clients_enlist. destruct (Z.eqb_spec e esi) as [->|Hne].
    + rewrite elem_of_app, list_elem_of_singleton. destruct (Z.eqb_spec x cid) as [->|Hx].
      * intros _. exists c'. split; [done|]. cbn. set_solver.
      * intros [Hx'| ->]; [by apply Hli|done].
    + intros Hx. destruct (Hli e x Hx) as (cx & Hcx & Hinx). destruct (Z.eqb_spec x cid) as [->|_]; [|by exists cx].
      exists c'. split; [done|]. rewrite Hc in Hcx. injection Hcx as <-. cbn. set_solver.
  - intros e. rewrite Hcl, clients_enlist. destruct (Z.eqb_spec e esi); [|done].
    apply NoDup_app. split; [done|]. split; [set_solver|apply NoDup_singleton].
  - intros x cx e Hgx Hfx. rewrite Hg in Hgx. rewrite Hcl, clients_enlist.
    destruct (Z.eqb_spec x cid) as [->|Hx].
    + injection Hgx as <-. cbn. intros [He'| ->%list_elem_of_singleton]%elem_of_app.
      * assert (cid ∈ clients_of e s) by (by eapply Ho). destruct (e =? esi) eqn:E; [|done].
        apply Z.eqb_eq in E as ->. set_solver.
      * rewrite Z.eqb_refl. set_solver.
    + intros He'. assert (x ∈ clients_of e s) by (by eapply Ho). destruct (e =? esi) eqn:E; [|done].
      apply Z.eqb_eq in E as ->. set_solver.
  - intros x cx. rewrite Hg. destruct (Z.eqb_spec x cid) as [->|_]; [|apply Hby]. intros [= <-]. exact (Hby cid c Hc).
Qed.
Lemma handle_event_ok cid c buf w s : tps_ok s → get_client cid s = Ok c → safe_event buf w →
  good_step s (client_handle_event cid w s).
Proof.
  intros Hok Hc (_ & _ & e & He & Hf & Hv). assert (good_step s (Ok s)) as Hsame by by exists s.
  unfold client_handle_event. rewrite He. cbn [mbind res_bind].
  destruct (Z.eqb_spec (ev_event_type e) SUBSCRIPTION_EVENT) as [Ht|_].
  - destruct (Hf Ht) as [f Hf']. unfold handle_subscription_event. rewrite Hf'. cbn [mbind res_bind].
    case_match; [done|]. rewrite He. cbn [mbind res_bind]. by eapply subscribe_ok.
  - destruct (Z.eqb_spec (ev_event_type e) HANDSHAKE_EVENT) as [Ht|_]; [|done].
    destruct (Hv Ht) as [v Hv']. unfold handle_handshake_event. rewrite Hv'. cbn [mbind res_bind].
    by eapply answer_ok.
Qed.
Lemma loop_ok cid fuel buf c s : tps_ok s → get_client cid s = Ok c → Forall is_byte buf →
  (length buf <= fuel)%nat →
  ∃ rest s', events_loop fuel cid buf s = Some (Ok (rest, s')) /\ tps_ok s' /\ keeps_clients s s'
    /\ Forall is_byte rest.
Proof.
  revert buf c s. induction fuel as [|fuel IH]; intros buf c s Hok Hc Hb Hf.
  - destruct buf; [|cbn in Hf; lia]. by exists [], s.
  - cbn [events_loop]. destruct (next_event_safe buf Hb) as (r & -> & Hr).
    destruct r as [w|]; [|by exists buf, s]. destruct (w_valid w) eqn:Hv; [|by exists buf, s].
    specialize (Hr w eq_refl Hv). destruct (handle_event_ok cid c buf w s Hok Hc Hr) as (s1 & -> & Hok1 & Hk1).
    destruct (client_after _ _ _ _ Hc Hk1) as [c1 Hc1]. destruct Hr as (Hl & Hread & _).
    destruct (IH (drop (Z.to_nat (w_bytes_read w)) buf) c1 s1) as (rest & s' & -> & Hok' & Hk' & Hrest);
      [done|done|by apply Forall_drop|rewrite length_drop; lia|].
    exists rest, s'. split; [done|]. split; [done|]. split; [unfold keeps_clients in *; congruence|done].
Qed.

Lemma client_read_ok cid c buf s : tps_ok s → get_client cid s = Ok c → Forall is_byte buf →
  good_step s (tps_on_recv cid buf s).
Proof.
  intros Hok Hc Hb. unfold tps_on_recv, client_raw_bytes. rewrite Hc. cbn [mbind res_bind].
  set (use_buf := match cs_dangly_bytes c with [] => buf | x :: l => (x :: l) ++ buf end).
  set (s1 := match cs_dangly_bytes c with [] => s | x :: l => put_client cid (c <| cs_dangly_bytes := (x :: l) ++ buf |>) s end).
  pose proof (ok_bytes _ Hok cid c Hc) as Hd.
  assert (Forall is_byte use_buf) as Hub by (subst use_buf; destruct (cs_dangly_bytes c); [done|by apply Forall_app]).
  assert (tps_ok s1 /\ keeps_clients s s1) as [Hok1 Hk1].
  { subst s1. destruct (cs_dangly_bytes c) as [|x l]; [done|]. split; [|apply put_keeps].
    apply (put_ok cid c); done. }
  destruct (client_after _ _ _ _ Hc Hk1) as [c1 Hc1].
  destruct (loop_ok cid (length use_buf) use_buf c1 s1 Hok1 Hc1 Hub) as (rest & s2 & E & Hok2 & Hk2 & Hrest); [done|].
  fold use_buf s1. rewrite E. cbn [default]. unfold id. cbn [mbind res_bind].
  destruct (client_after _ _ _ _ Hc1 Hk2) as [c2 Hc2].
  destruct rest as [|x rest]; [exists s2|rewrite Hc2; cbn [mbind res_bind]; eexists]; (split; [done|]).
  - split; [done|]. unfold keeps_clients in *. congruence.
  - split; [by apply (put_ok cid c2)|]. pose proof (put_keeps cid (c2 <| cs_dangly_bytes := x :: rest |>) s2) as H.
    unfold keeps_clients in *. congruence.
Qed.

(** A server over instruments with symbol indexes, which are not zero. *)
Lemma new_server_ok symbols : Forall (λ p, p.1 ≠ 0) symbols → tps_ok (TPSServer_new symbols).
Proof.
  intros Hs. unfold TPSServer_new.
  set (fresh s := tps_clients s = [] /\ tps_instrument_clients s = ∅ /\ tps_lock s = Free
    /\ tps_answers s = [] /\ ∀ fdo esi, tps_fdoid_esi s !! fdo = Some esi → esi ≠ 0).
  assert (∀ s, fresh s → tps_ok s) as Hok.
  { intros s (Hc & Hi & Hl & Han & He). assert (∀ esi, clients_of esi s = []) as Hno.
    { intros esi. unfold clients_of. by rewrite Hi, lookup_empty. }
    assert (∀ cid c, get_client cid s ≠ Ok c) as Hnc by (intros cid c; unfold get_client; rewrite Hc; by destruct (cid <? 0)).
    split; [done| | | |done| |by rewrite Han; intros ?%elem_of_nil].
    - intros esi cid Hin. rewrite Hno in Hin. by apply elem_of_nil in Hin.
    - intros esi. rewrite Hno. constructor.
    - intros cid c esi Hg. by apply Hnc in Hg.
    - intros cid c Hg. by apply Hnc in Hg. }
  apply Hok. assert (fresh (mkServer [] ∅ ∅ ∅ Free [] [])) as H0.
  { by split_and!. }
  revert H0. generalize (mkServer [] ∅ ∅ ∅ Free [] []). induction Hs as [|[esi fdo] l Hne _ IH]; intros s H0; [done|].
  cbn [fold_left]. apply IH. destruct fdo as [fdoid|]; [|done]. destruct H0 as (Hc & Hi & Hl & Han & He).
  split_and!; try done. cbn. intros f e [[_ <-]|[_ Hf]]%lookup_insert_Some; [done|by eapply He].
Qed.

(** *** What the network does *)

Inductive TpsInput :=
| InConnect (fd date tz : Z)
| InRead (cid : Z) (buf : list Z)
| InDisconnect (cid : Z)
| InAnswers (answers : list WriteAnswer).
Definition tps_input s (i : TpsInput) : res TPSServer :=
  match i with
  | InConnect fd date tz => '(_, s) ← on_new_client fd date tz s; Ok s
  | InRead cid buf => tps_on_recv cid buf s
  | InDisconnect cid => tps_on_peer_disconnect cid s
  | InAnswers an => Ok (s <| tps_answers := an |>)
  end.
(** On a day of the calendar, clients that connected send bytes; no socket stays full
    for ever. *)
Definition possible_input (clients : Z) (i : TpsInput) : Prop :=
  match i with
  | InConnect _ date tz => ∃ d, date_from_yyyymmdd (u32 (date_yyyy date)) (u32 (date_mm date)) (u32 (date_dd date)) = Ok d
  | InRead cid buf => 0 <= cid < clients /\ Forall is_byte buf
  | InDisconnect cid => 0 <= cid < clients
  | InAnswers an => StaysFull ∉ an
  end.
Fixpoint possible_inputs (clients : Z) (ins : list TpsInput) : Prop :=
  match ins with
  | [] => True
  | i :: ins => possible_input clients i
      /\ possible_inputs (match i with InConnect _ _ _ => clients + 1 | _ => clients end) ins
  end.
Definition num_clients s : Z := Z.of_nat (length (tps_clients s)).

Lemma client_connect_ok fd date tz s : tps_ok s → possible_input (num_clients s) (InConnect fd date tz) →
  ∃ s', tps_input s (InConnect fd date tz) = Ok s' /\ tps_ok s' /\ num_clients s' = num_clients s + 1.
Proof.
  intros [Hl Hli Hn Ho He Hby Hdr] [d Hd]. cbn [tps_input]. unfold on_new_client, locked, ClientSession_new. rewrite Hl, Hd.
  cbn [mbind res_bind]. eexists. split; [done|]. unfold num_clients. cbn [tps_clients]. split.
  - set (c' := mkClient fd PRE_HANDSHAKE [] [] d tz).
    match goal with |- tps_ok ?x => set (s' := x) end.
    assert (∀ x c, get_client x s' = Ok c → get_client x s = Ok c \/ c = c') as Hg.
    { intros x c. unfold get_client, s'. cbn. destruct (x <? 0); [done|].
      destruct (decide (Z.to_nat x < length (tps_clients s))%nat).
      - rewrite lookup_app_l by done. by left.
      - rewrite lookup_app_r by lia. destruct (Z.to_nat x - _)%nat; [|done]. cbn. intros [= <-]. by right. }
    assert (∀ x c, get_client x s = Ok c → get_client x s' = Ok c) as Hg'.
    { intros x c. unfold get_client, s'. cbn. destruct (x <? 0); [done|].
      destruct (tps_clients s !! Z.to_nat x) eqn:E; [|done]. by rewrite (lookup_app_l_Some _ _ _ _ E). }
    split; [done| |done| |done| |done].
    + intros esi x Hx. destruct (Hli esi x Hx) as (c & Hc & Hin). exists c. split; [by apply Hg'|done].
    + intros x c esi [Hc| ->]%Hg Hf Hin; [by eapply Ho|]. by apply elem_of_nil in Hin.
    + intros x c [Hc| ->]%Hg; [by eapply Hby|constructor].
  - cbn. rewrite length_app. cbn. lia.
Qed.

(** A client that no longer reads, whose socket stays full, stops whoever answers it:
    the write is tried again for ever. *)
Theorem full_socket_never_returns cid c v s : get_client cid s = Ok c → 0 <= cs_fd c →
  head (tps_answers s) = Some StaysFull → answer_handshake cid v s = Fail (Deadlock "write").
Proof.
  intros Hc Hfd Ha. unfold answer_handshake. rewrite Hc. cbn [mbind res_bind].
  destruct (bool_decide _); cbn beta iota; unfold send_or_disconnect; rewrite (get_put _ _ _ _ Hc); cbn [mbind res_bind];
    unfold write_buffer; cbn [cs_fd]; rewrite (proj2 (Z.ltb_ge _ 0)) by done;
    change (tps_answers (put_client _ _ s)) with (tps_answers s); by destruct (tps_answers s) as [|[]].
Qed.


(** ** Quotes *)

Section Quotes.
Context {D : Type} `{Dbl D} `{ToFloat D}.

Definition quote_for (ts : Timestamp) esi (q : FullL2Quote) s cid : Z * list Z :=
  match get_client cid s with
  | Ok c => (cs_fd c, MarketQuoteEvent (D:=D) (local_time ts c) (cs_date c) (fdoid_of esi s) q 0)
  | Fail _ => (-1, [])
  end.
Definition trade_for (ts : Timestamp) mic_index esi price size s cid : Z * list Z :=
  match get_client cid s with
  | Ok c => (cs_fd c, MarketTradeEvent (D:=D) (local_time ts c) (cs_date c) (fdoid_of esi s) price size (fdo_exchange mic_index))
  | Fail _ => (-1, [])
  end.
(** The subscribers of the instrument can be written to. *)
Definition subscribers_open esi s : Prop :=
  ∀ cid c, cid ∈ clients_of esi s → get_client cid s = Ok c → 0 <= cs_fd c.
Definition wire_on (w : list (Z * list Z)) s : TPSServer := s <| tps_lock := Reading |> <| tps_wire := w |>.

(** Writing to the subscribers one after the other. *)
Lemma share_loop (write : Z → TPSServer → res TPSServer) (msg : Z → Z * list Z) l s :
  (∀ cid w, cid ∈ l → write cid (wire_on w s) = Ok (wire_on (w ++ [msg cid]) s)) →
  ∀ w, foldM (λ s0 cid, write cid s0) (wire_on w s) l = Ok (wire_on (w ++ (msg <$> l)) s).
Proof.
  intros Hw. induction l as [|cid l IH]; intros w; cbn [foldM fmap list_fmap]; [by rewrite app_nil_r|].
  rewrite Hw by set_solver. cbn [mbind res_bind]. rewrite IH; [by rewrite <- app_assoc|set_solver].
Qed.
Lemma open_client esi s cid : tps_ok s → subscribers_open esi s → cid ∈ clients_of esi s →
  ∃ c, get_client cid s = Ok c /\ 0 <= cs_fd c.
Proof.
  intros Hok Hop Hin. destruct (ok_listed _ Hok esi cid Hin) as (c & Hc & _). exists c. split; [done|]. by eapply Hop.
Qed.
Lemma open_send cid c buf s w : get_client cid s = Ok c → tps_answers s = [] → 0 <= cs_fd c →
  send_or_disconnect cid buf true (wire_on w s) = Ok (true, wire_on (w ++ [(cs_fd c, buf)]) s).
Proof.
  intros Hc Ha Hfd. assert (healthy cid c (wire_on w s)) as Hh by by split.
  rewrite (healthy_send _ _ _ _ _ Hh). unfold sent, wire_on. destruct s. cbn in *. by subst.
Qed.
(** What sharing out comes to. *)
Lemma shared_out (write : Z → TPSServer → res TPSServer) (msg : Z → Z * list Z) esi s : tps_ok s →
  (∀ cid w, cid ∈ clients_of esi s → write cid (wire_on w s) = Ok (wire_on (w ++ [msg cid]) s)) →
  ('(_, s') ← locked false (λ s, s ← foldM (λ s cid, write cid s) s (clients_of esi s); Ok (tt, s)) s; Ok s')
  = Ok (s <| tps_wire := tps_wire s ++ (msg <$> clients_of esi s) |>).
Proof.
  intros Hok Hw. unfold locked. rewrite (ok_lock _ Hok).
  change (clients_of esi (s <| tps_lock := Reading |>)) with (clients_of esi s).
  pose proof (share_loop write msg (clients_of esi s) s Hw (tps_wire s)) as Hl.
  assert (wire_on (tps_wire s) s = s <| tps_lock := Reading |>) as E by (by destruct s). rewrite E in Hl. rewrite Hl.
  cbn [mbind res_bind]. pose proof (ok_lock _ Hok) as Hlock. clear -Hlock. destruct s. cbn in *. by subst.
Qed.
Lemma quote_written ts esi q s : tps_ok s → tps_answers s = [] → subscribers_open esi s →
  on_quote_update (D:=D) ts esi q s = Ok (s <| tps_wire := tps_wire s ++ (quote_for ts esi q s <$> clients_of esi s) |>).
Proof.
  intros Hok Ha Hop. apply (shared_out (λ cid s0, write_quote (D:=D) ts cid (fdoid_of esi s0) q s0)); [done|].
  intros cid w Hin. destruct (open_client _ _ _ Hok Hop Hin) as (c & Hc & Hfd). unfold write_quote, quote_for.
  change (get_client cid (wire_on w s)) with (get_client cid s). rewrite Hc. cbn [mbind res_bind].
  by rewrite (open_send cid c _ s w Hc Ha Hfd).
Qed.
Lemma trade_written ts mic_index esi price size s : tps_ok s → tps_answers s = [] → subscribers_open esi s →
  on_trade_update (D:=D) ts mic_index esi price size s
  = Ok (s <| tps_wire := tps_wire s ++ (trade_for ts mic_index esi price size s <$> clients_of esi s) |>).
Proof.
  intros Hok Ha Hop.
  apply (shared_out (λ cid s0, write_trade (D:=D) ts mic_index cid (fdoid_of esi s0) price size s0)); [done|].
  intros cid w Hin. destruct (open_client _ _ _ Hok Hop Hin) as (c & Hc & Hfd). unfold write_trade, trade_for.
  change (get_client cid (wire_on w s)) with (get_client cid s). rewrite Hc. cbn [mbind res_bind].
  by rewrite (open_send cid c _ s w Hc Ha Hfd).
Qed.

(** While every socket takes what it is given, a quote is written to the
    clients that subscribed to the instrument, once to each and to no others, and
    nothing else changes. *)
Theorem quote_reaches_subscribers ts esi q s : tps_ok s → tps_answers s = [] →
  (∀ cid c, cid ∈ clients_of esi s → get_client cid s = Ok c → 0 <= cs_fd c) →
  on_quote_update (D:=D) ts esi q s
  = Ok (s <| tps_wire := tps_wire s ++ (quote_for ts esi q s <$> clients_of esi s) |>)
  /\ NoDup (clients_of esi s)
  /\ ∀ cid c, get_client cid s = Ok c → 0 <= cs_fd c → (cid ∈ clients_of esi s ↔ esi ∈ cs_subscribed_esi c).
Proof.
  intros Hok Ha Hfd. split; [by apply quote_written|]. split; [by apply ok_nodup|].
  intros cid c Hc Hf. split; [|by eapply ok_open]. intros Hin.
  destruct (ok_listed _ Hok esi cid Hin) as (c' & Hc' & Hin'). rewrite Hc in Hc'. by injection Hc' as ->.
Qed.

(** A quote for a subscriber whose socket fails locks the server up: the
    session is torn down under the lock that the quote was shared out with, and
    giving up its subscriptions waits for that lock for ever. *)
Theorem dead_subscriber_deadlocks ts esi q s cid l e rest : tps_ok s →
  clients_of esi s = cid :: l → tps_answers s = Errno e :: rest → 0 < e → e ≠ EAGAIN →
  on_quote_update (D:=D) ts esi q s = Fail (Deadlock "m_mutex").
Proof.
  intros Hok Hcl Ha He Hne. destruct (ok_listed _ Hok esi cid) as (c & Hc & Hin); [rewrite Hcl; set_solver|].
  unfold on_quote_update, locked at 1. rewrite (ok_lock _ Hok).
  change (clients_of esi (s <| tps_lock := Reading |>)) with (clients_of esi s). rewrite Hcl. cbn [foldM].
  assert (∀ buf s1, get_client cid s1 = Ok c → tps_lock s1 = Reading →
    (cs_fd c < 0 \/ tps_answers s1 = Errno e :: rest) →
    send_or_disconnect cid buf true s1 = Fail (Deadlock "m_mutex")) as Hsend.
  { intros buf s1 Hc1 Hl1 Hf. unfold send_or_disconnect. rewrite Hc1. cbn [mbind res_bind].
    assert (∃ err s2, write_buffer (cs_fd c) buf true s1 = Ok (err, s2) /\ err < 0 /\ get_client cid s2 = Ok c
      /\ tps_lock s2 = Reading) as (err & s2 & -> & Herr & Hc2 & Hl2).
    { unfold write_buffer. destruct (Z.ltb_spec (cs_fd c) 0); [by do 2 eexists|].
      destruct Hf as [Hf| ->]; [lia|]. cbn [write_loop]. rewrite (proj2 (Z.eqb_neq e EAGAIN)) by done. cbn [andb].
      do 2 eexists. split; [done|]. split; [lia|done]. }
    cbn [mbind res_bind]. rewrite (proj2 (Z.ltb_lt err 0)) by done. unfold client_disconnect. rewrite Hc2. cbn [mbind res_bind].
    destruct (cs_subscribed_esi c) as [|e1 es]; [by apply elem_of_nil in Hin|]. cbn [foldM].
    unfold remove_subscription, locked. cbn -[put_client]. change (tps_lock (put_client _ _ s2)) with (tps_lock s2).
    by rewrite Hl2. }
  assert (∀ fdoid, write_quote (D:=D) ts cid fdoid q (s <| tps_lock := Reading |>) = Fail (Deadlock "m_mutex")) as Hw.
  { intros fdoid. unfold write_quote. change (get_client cid (s <| tps_lock := Reading |>)) with (get_client cid s).
    rewrite Hc. cbn [mbind res_bind]. rewrite Hsend; [done|done|done|by right]. }
  rewrite Hw. done.
Qed.
End Quotes.

(** ** A client that subscribes *)

Definition demo_server : TPSServer :=
  match on_new_client 5 20141031 18000 (TPSServer_new [(1, Some 42); (2, None)]) with
  | Ok (_, s) => s
  | Fail _ => TPSServer_new []
  end.
Definition demo_net (type : Z) : NetEventBuf :=
  mkNetEventBuf (mkEventBuf EXPECTED_VERSION type 0 42 0 (mkTimeType 0 0)) EXPECTED_VERSION (mkTimeType 0 0).
Definition demo_subscribe : ClientMessage := MSubscribe (demo_net SUBSCRIPTION_EVENT) REQUEST.
Definition demo_handshake (alias : nat) : ClientMessage :=
  MHandshake (demo_net HANDSHAKE_EVENT) EXPECTED_VERSION_STRING (replicate alias 97).
Definition demo_snapshot : ClientMessage := MSnapshot (demo_net SNAPSHOT_REQUEST_EVENT) 0 1 0 7.
Definition demo_client : ClientSession := mkClient 5 PRE_HANDSHAKE [] [] 41943 18000.

Ltac concrete := vm_compute; repeat split; (reflexivity || discriminate || lia).
Lemma forall_bytes l : forallb (λ b, (0 <=? b) && (b <? 256)) l = true → Forall is_byte l.
Proof.
  induction l as [|b l IH]; cbn; [constructor|]. intros Hb. apply andb_prop in Hb as [Hb Hl].
  constructor; [unfold is_byte; lia|by apply IH].
Qed.
Lemma demo_subscribe_ok : client_message_ok demo_subscribe. Proof. concrete. Qed.
Lemma demo_snapshot_ok : client_message_ok demo_snapshot. Proof. concrete. Qed.
Lemma demo_handshake_ok alias : Z.of_nat alias < 65536 → client_message_ok (demo_handshake alias).
Proof.
  intros Ha. split; [|done]. split; [concrete|]. split; [by apply forall_bytes|].
  unfold buf_len. rewrite length_replicate. lia.
Qed.
Lemma demo_ok : tps_ok demo_server.
Proof.
  destruct (client_connect_ok 5 20141031 18000 (TPSServer_new [(1, Some 42); (2, None)])) as (s & E & Hok & _).
  - apply new_server_ok. by repeat constructor.
  - by exists 41943.
  - replace demo_server with s; [done|]. revert E. vm_compute. by intros [= <-].
Qed.
Lemma demo_healthy : healthy 0 demo_client demo_server. Proof. by split. Qed.

Lemma whole_messages_handled_witness :
  fits [demo_handshake 36; demo_subscribe] [] /\
  ∃ s', tps_on_recv 0 (flat [demo_handshake 36; demo_subscribe]) demo_server = Ok s'
    /\ tps_wire s' = [(5, handshake_reply EXPECTED_VERSION_STRING)] /\ clients_of 1 s' = [0].
Proof.
  split; [by vm_compute|].
  rewrite (whole_messages_handled 0 demo_client [demo_handshake 36; demo_subscribe] demo_server);
    [eexists; split; [vm_compute; reflexivity|by vm_compute]|reflexivity|reflexivity| |by vm_compute].
  apply Forall_cons; split; [apply demo_handshake_ok; lia|]. apply Forall_cons; split; [apply demo_subscribe_ok|constructor].
Defined.
Lemma short_handshake_waits_witness :
  tps_on_recv 0 (encode (demo_handshake 2)) demo_server
  = Ok (put_client 0 (demo_client <| cs_dangly_bytes := encode (demo_handshake 2) |>) demo_server).
Proof.
  apply (short_handshake_waits 0 demo_client (demo_net HANDSHAKE_EVENT) EXPECTED_VERSION_STRING (replicate 2 97));
    [reflexivity|reflexivity|apply (demo_handshake_ok 2); lia|reflexivity|by apply forall_bytes].
Defined.
Lemma split_handshake_answered_again_witness :
  ∃ s', foldM (λ s buf, tps_on_recv 0 buf s) demo_server
      (take 30 (encode (demo_handshake 40)) :: drop 30 (encode (demo_handshake 40)) :: (flat <$> [[demo_snapshot]; []])) = Ok s'
    /\ tps_wire s' = replicate 3 (5, handshake_reply EXPECTED_VERSION_STRING).
Proof.
  apply (split_handshake_answered_again 0 demo_client (demo_net HANDSHAKE_EVENT) EXPECTED_VERSION_STRING (replicate 40 97)
    _ _ [[demo_snapshot]; []] demo_server demo_healthy eq_refl).
  - apply (demo_handshake_ok 40). lia.
  - by vm_compute.
  - by rewrite take_drop.
  - by vm_compute.
  - by vm_compute.
  - apply forall_bytes. by vm_compute.
  - apply Forall_cons; split; [|by repeat constructor]. by apply Forall_singleton; split; [apply demo_snapshot_ok|].
Defined.
Definition demo_subscribed : TPSServer :=
  match tps_on_recv 0 (encode demo_subscribe) demo_server with Ok s => s | Fail _ => demo_server end.
Lemma demo_subscribed_ok : tps_ok demo_subscribed.
Proof.
  destruct (client_read_ok 0 demo_client (encode demo_subscribe) demo_server demo_ok eq_refl) as (s & E & Hok & _);
    [by apply forall_bytes; vm_compute|]. unfold demo_subscribed. by rewrite E.
Qed.
Definition demo_quote : FullL2Quote := mkFull (mkQuote 1000000 300 2) (mkQuote 1000100 200 1).
Lemma quote_reaches_subscribers_witness :
  ∃ s', on_quote_update (D:=SpecFloat.spec_float) (mkTs 1414780200 5) 1 demo_quote demo_subscribed = Ok s'
    /\ map fst (tps_wire s') = [5].
Proof.
  destruct (quote_reaches_subscribers (D:=SpecFloat.spec_float) (mkTs 1414780200 5) 1 demo_quote demo_subscribed demo_subscribed_ok)
    as (E & _).
  - by vm_compute.
  - intros cid c Hin Hc. assert (clients_of 1 demo_subscribed = [0]) as Hcl by by vm_compute.
    rewrite Hcl in Hin. apply list_elem_of_singleton in Hin as ->. revert Hc. vm_compute. intros [= <-]. discriminate.
  - rewrite E. eexists. split; [reflexivity|]. by vm_compute.
Defined.
Lemma dead_subscriber_deadlocks_witness :
  on_quote_update (D:=SpecFloat.spec_float) (mkTs 1414780200 5) 1 demo_quote (demo_subscribed <| tps_answers := [Errno 32] |>)
  = Fail (Deadlock "m_mutex").
Proof.
  apply (dead_subscriber_deadlocks (D:=SpecFloat.spec_float) (mkTs 1414780200 5) 1 demo_quote _ 0 [] 32 []);
    [|by vm_compute|by vm_compute|done|done].
  destruct demo_subscribed_ok. split; try done. clear. by intros [=]%list_elem_of_singleton.
Defined.
