(* ===== verification/L1Quotes.v ===== *)
(** * Best quotes of the venues (src/ts/L1EquitiesStrategy.cpp)

    The strategy notes which sides of which stocks a packet touched, and at the
    end of the packet compares the best quotes of their books with the ones it
    holds.  Venues and stocks are named by their index; arrays by index are total
    maps.  What derives from the strategy is a component of its state, and
    implements the class [BboListener].  The books of the decoders (BookBase) are
    not in the repository: they are a type with the best quotes read from it. *)

From stdpp Require Import gmap.
From S2P Require Import Prelude Dbl Time L2Book.
Open Scope Z_scope.

Inductive L3Side := L3_BUY | L3_SELL.
#[export] Instance L3Side_eq_dec : EqDecision L3Side.
Proof. solve_decision. Defined.

(** The values of [L3OrderData::Side] (not in the repository) are used as flags. *)
Class SideBits := side_bits : L3Side → Z.
Class SideBitsOk `{SideBits} := {
  side_bits_u8 s : 0 <= side_bits s < 2 ^ 8;
  side_bits_nonzero s : side_bits s ≠ 0;
  side_bits_disjoint : Z.land (side_bits L3_BUY) (side_bits L3_SELL) = 0
}.

Class BookQuotes (B : Type) := {
  book_best_bid_quote : B → L2Quote;
  book_best_ask_quote : B → L2Quote
}.
Definition book_best_quote `{BookQuotes B} (b : B) : FullL2Quote :=
  mkFull (book_best_bid_quote b) (book_best_ask_quote b).
Definition quote_side (side : L3Side) (q : FullL2Quote) : L2Quote :=
  match side with L3_BUY => fq_bid q | L3_SELL => fq_ask q end.

Class BboListener (L : Type) := {
  on_bbo_update : Timestamp → Z → Z → L3Side → L2Quote → L → L;
  on_bbo_update_both : Timestamp → Z → Z → FullL2Quote → L → L
}.

(** ** State *)

Record StockSide := mkStockSide { ss_esi : Z; ss_side_flags : Z }.
Record QuoteEntry := mkEntry { qe_quote : FullL2Quote; qe_bid_ts : Timestamp; qe_ask_ts : Timestamp }.
#[export] Instance QuoteEntry_rebuild : Rebuild QuoteEntry := λ e,
  mkEntry (qe_quote e) (qe_bid_ts e) (qe_ask_ts e).
Definition QuoteEntry_new : QuoteEntry := mkEntry FullL2Quote_new ts_zero ts_zero.

Record L1EquitiesStrategy (L : Type) := mkL1 {
  l1_updated_stocks : gmap Z (list StockSide);
  l1_quotes : gmap (Z * Z) QuoteEntry;
  l1_derived : L
}.
Arguments mkL1 {L}.
Arguments l1_updated_stocks {L}.
Arguments l1_quotes {L}.
Arguments l1_derived {L}.
Definition L1_new {L} (d : L) : L1EquitiesStrategy L := mkL1 ∅ ∅ d.

Definition updated {L} (mic : Z) (st : L1EquitiesStrategy L) : list StockSide :=
  default [] (l1_updated_stocks st !! mic).
Definition entry {L} (mic esi : Z) (st : L1EquitiesStrategy L) : QuoteEntry :=
  default QuoteEntry_new (l1_quotes st !! (mic, esi)).

(** ** Marking *)

Fixpoint updates_insert (ss : StockSide) (v : list StockSide) : list StockSide :=
  match v with
  | [] => [ss]
  | e :: v =>
      if ss_esi e =? ss_esi ss
      then mkStockSide (ss_esi e) (u8 (Z.lor (ss_side_flags e) (ss_side_flags ss))) :: v
      else e :: updates_insert ss v
  end.

Section Strategy.
Context `{SideBits} {L : Type}.
Implicit Types (st : L1EquitiesStrategy L) (mic esi : Z).

Definition mark mic esi (side : L3Side) st : L1EquitiesStrategy L :=
  mkL1 (<[mic := updates_insert (mkStockSide esi (u8 (side_bits side))) (updated mic st)]> (l1_updated_stocks st))
    (l1_quotes st) (l1_derived st).
Definition l1_on_book_added mic esi side st := mark mic esi side st.
Definition l1_on_book_canceled mic esi side st := mark mic esi side st.
Definition l1_on_book_modified mic esi (new_side : L3Side) st := mark mic esi new_side st.
Definition l1_on_book_executed mic esi side st := mark mic esi side st.
Definition l1_on_l2_update mic esi (is_buy is_bbo : bool) st : L1EquitiesStrategy L :=
  if is_bbo then mark mic esi (if is_buy then L3_BUY else L3_SELL) st else st.

(** ** The end of a packet *)

Context `{BboListener L} `{BookQuotes B}.

Definition set_entry mic esi (e : QuoteEntry) (d : L) st : L1EquitiesStrategy L :=
  mkL1 (l1_updated_stocks st) (<[(mic, esi) := e]> (l1_quotes st)) d.
Definition compare_both (ts : Timestamp) mic esi (b : B) st : L1EquitiesStrategy L :=
  let bq := book_best_quote b in
  if decide (bq = qe_quote (entry mic esi st)) then st
  else set_entry mic esi (mkEntry bq ts ts) (on_bbo_update_both ts mic esi bq (l1_derived st)) st.
Definition compare_bid (ts : Timestamp) mic esi (b : B) st : L1EquitiesStrategy L :=
  let bb := book_best_bid_quote b in
  let e := entry mic esi st in
  if decide (bb = fq_bid (qe_quote e)) then st
  else set_entry mic esi (mkEntry (mkFull bb (fq_ask (qe_quote e))) ts (qe_ask_ts e))
         (on_bbo_update ts mic esi L3_BUY bb (l1_derived st)) st.
Definition compare_ask (ts : Timestamp) mic esi (b : B) st : L1EquitiesStrategy L :=
  let ba := book_best_ask_quote b in
  let e := entry mic esi st in
  if decide (ba = fq_ask (qe_quote e)) then st
  else set_entry mic esi (mkEntry (mkFull (fq_bid (qe_quote e)) ba) (qe_bid_ts e) ts)
         (on_bbo_update ts mic esi L3_SELL ba (l1_derived st)) st.
Definition has_flag (flags : Z) (side : L3Side) : bool := negb (Z.land flags (side_bits side) =? 0).
Definition compare_stock (ts : Timestamp) mic (s : StockSide) (b : B) st : L1EquitiesStrategy L :=
  let both := Z.lor (side_bits L3_BUY) (side_bits L3_SELL) in
  if Z.land (ss_side_flags s) both =? both then compare_both ts mic (ss_esi s) b st
  else
    let st := if has_flag (ss_side_flags s) L3_BUY then compare_bid ts mic (ss_esi s) b st else st in
    if has_flag (ss_side_flags s) L3_SELL then compare_ask ts mic (ss_esi s) b st else st.

(** [get_bm]: the book mux of a venue, which may be none, with its books by stock. *)
Definition end_of_data_stock (bm : option (Z → option B)) (ts : Timestamp) mic st (s : StockSide) :
    res (L1EquitiesStrategy L) :=
  match bm with
  | None => Fail (UndefinedBehaviour "null book mux")
  | Some books => Ok match books (ss_esi s) with None => st | Some b => compare_stock ts mic s b st end
  end.
Definition on_end_of_data (get_bm : Z → option (Z → option B)) (ts : Timestamp) mic st :
    res (L1EquitiesStrategy L) :=
  st ← foldM (end_of_data_stock (get_bm mic) ts mic) st (updated mic st);
  Ok (mkL1 (<[mic := []]> (l1_updated_stocks st)) (l1_quotes st) (l1_derived st)).

Definition unsafe_best_quote mic esi st : FullL2Quote := qe_quote (entry mic esi st).
Definition unsafe_best_bid_quote mic esi st : L2Quote := fq_bid (qe_quote (entry mic esi st)).
Definition unsafe_best_ask_quote mic esi st : L2Quote := fq_ask (qe_quote (entry mic esi st)).
Definition unsafe_last_ts mic esi st : Timestamp :=
  let e := entry mic esi st in
  if ts_geb (qe_bid_ts e) (qe_ask_ts e) then qe_bid_ts e else qe_ask_ts e.
End Strategy.

(** ** The feed *)

(** The calls a decoder makes. *)
Inductive FeedEvent :=
| Added (mic esi : Z) (side : L3Side)
| Canceled (mic esi : Z) (side : L3Side)
| Modified (mic esi : Z) (side : L3Side)
| Executed (mic esi : Z) (side : L3Side)
| L2Updated (mic esi : Z) (is_buy is_bbo : bool)
| EndOfData (ts : Timestamp) (mic : Z).

Section Feed.
Context `{SideBits} {L : Type} `{BboListener L} `{BookQuotes B}.
Implicit Types (st : L1EquitiesStrategy L) (mic esi : Z) (books : gmap (Z * Z) B).

Definition on_feed (books : gmap (Z * Z) B) (ev : FeedEvent) st : res (L1EquitiesStrategy L) :=
  match ev with
  | Added mic esi side => Ok (l1_on_book_added mic esi side st)
  | Canceled mic esi side => Ok (l1_on_book_canceled mic esi side st)
  | Modified mic esi side => Ok (l1_on_book_modified mic esi side st)
  | Executed mic esi side => Ok (l1_on_book_executed mic esi side st)
  | L2Updated mic esi is_buy is_bbo => Ok (l1_on_l2_update mic esi is_buy is_bbo st)
  | EndOfData ts mic => on_end_of_data (λ mic, Some (λ esi, books !! (mic, esi))) ts mic st
  end.
(** Each step of a feed: what the books became, and then the call. *)
Definition run_feed (steps : list (gmap (Z * Z) B * FeedEvent)) st : res (L1EquitiesStrategy L) :=
  foldM (λ st '(books, ev), on_feed books ev st) st steps.
End Feed.

(** ** Correctness *)

(** What the books quote. *)
Definition quote_of `{BookQuotes B} (books : gmap (Z * Z) B) (mic esi : Z) : FullL2Quote :=
  default FullL2Quote_new (book_best_quote <$> books !! (mic, esi)).
(** The sides an event tells of. *)
Definition touches (ev : FeedEvent) (mic esi : Z) (side : L3Side) : Prop :=
  match ev with
  | Added m e s | Canceled m e s | Modified m e s | Executed m e s => m = mic /\ e = esi /\ s = side
  | L2Updated m e is_buy is_bbo => is_bbo = true /\ m = mic /\ e = esi /\ (if is_buy then L3_BUY else L3_SELL) = side
  | EndOfData _ _ => False
  end.
(** A feed tells of every change of a best quote, and books stay. *)
Definition feed_step `{BookQuotes B} (books books' : gmap (Z * Z) B) (ev : FeedEvent) : Prop :=
  (∀ k, is_Some (books !! k) → is_Some (books' !! k))
  /\ ∀ mic esi side, touches ev mic esi side
     \/ quote_side side (quote_of books' mic esi) = quote_side side (quote_of books mic esi).
Fixpoint feed_ok `{BookQuotes B} (books : gmap (Z * Z) B) (steps : list (gmap (Z * Z) B * FeedEvent)) : Prop :=
  match steps with
  | [] => True
  | (books', ev) :: steps => feed_step books books' ev /\ feed_ok books' steps
  end.
Definition last_books {B} (books : gmap (Z * Z) B) (steps : list (gmap (Z * Z) B * FeedEvent)) : gmap (Z * Z) B :=
  fold_left (λ _ s, s.1) steps books.

(** The events the derived strategy is told, and the quotes they add up to. *)
Inductive BboEvent :=
| SideQuote (ts : Timestamp) (mic esi : Z) (side : L3Side) (q : L2Quote)
| BothQuotes (ts : Timestamp) (mic esi : Z) (q : FullL2Quote).
Definition deliver `{BboListener L} (d : L) (ev : BboEvent) : L :=
  match ev with
  | SideQuote ts mic esi side q => on_bbo_update ts mic esi side q d
  | BothQuotes ts mic esi q => on_bbo_update_both ts mic esi q d
  end.
Definition with_side (side : L3Side) (q : L2Quote) (f : FullL2Quote) : FullL2Quote :=
  match side with L3_BUY => mkFull q (fq_ask f) | L3_SELL => mkFull (fq_bid f) q end.
Definition hear_bbo (m : gmap (Z * Z) FullL2Quote) (ev : BboEvent) : gmap (Z * Z) FullL2Quote :=
  match ev with
  | SideQuote _ mic esi side q => <[(mic, esi) := with_side side q (default FullL2Quote_new (m !! (mic, esi)))]> m
  | BothQuotes _ mic esi q => <[(mic, esi) := q]> m
  end.
Definition heard (evs : list BboEvent) (mic esi : Z) : FullL2Quote :=
  default FullL2Quote_new (fold_left hear_bbo evs ∅ !! (mic, esi)).
(** The quote is one that some book had. *)
Definition event_from (had : Z → Z → FullL2Quote → Prop) (ev : BboEvent) : Prop :=
  match ev with
  | SideQuote _ mic esi side q => ∃ f, had mic esi f /\ q = quote_side side f
  | BothQuotes _ mic esi q => had mic esi q
  end.
Definition tells_news (known : Z → Z → FullL2Quote) (ev : BboEvent) : Prop :=
  match ev with
  | SideQuote _ mic esi side q => q ≠ quote_side side (known mic esi)
  | BothQuotes _ mic esi q => q ≠ known mic esi
  end.

Definition one_sided (ev : BboEvent) : Prop := match ev with SideQuote _ _ _ _ _ => True | BothQuotes _ _ _ _ => False end.

(** The side of a stock that a call of the feed tells of. *)
Definition event_side (ev : FeedEvent) : option (Z * Z * L3Side) :=
  match ev with
  | Added m e s | Canceled m e s | Modified m e s | Executed m e s => Some (m, e, s)
  | L2Updated m e is_buy true => Some (m, e, if is_buy then L3_BUY else L3_SELL)
  | _ => None
  end.
Definition other_side (side : L3Side) : L3Side := match side with L3_BUY => L3_SELL | L3_SELL => L3_BUY end.
(** No packet tells of both sides of a stock; [seen]: what the packets that have not
    ended told of. *)
Fixpoint one_sided_packets {B} (seen : list (Z * Z * L3Side)) (steps : list (gmap (Z * Z) B * FeedEvent)) : Prop :=
  match steps with
  | [] => True
  | (_, EndOfData _ mic) :: steps => one_sided_packets (filter (λ x, x.1.1 ≠ mic) seen) steps
  | (_, ev) :: steps =>
      match event_side ev with
      | Some (m, e, s) => ((m, e, other_side s) ∉ seen) /\ one_sided_packets ((m, e, s) :: seen) steps
      | None => one_sided_packets seen steps
      end
  end.

Lemma heard_snoc evs ev mic esi : heard (evs ++ [ev]) mic esi =
  match ev with
  | SideQuote _ m e side q => if decide ((m, e) = (mic, esi)) then with_side side q (heard evs m e) else heard evs mic esi
  | BothQuotes _ m e q => if decide ((m, e) = (mic, esi)) then q else heard evs mic esi
  end.
Proof.
  unfold heard. rewrite fold_left_app. cbn [fold_left]. destruct ev; cbn [hear_bbo]; case_decide as E;
    by rewrite ?E, ?lookup_insert_eq, ?lookup_insert_ne by done.
Qed.

Section Correct.
Context `{SideBitsOk} {L : Type} `{BboListener L} `{BookQuotes B}.
(** [one]: no packet tells of both sides of a stock. *)
Context (had : Z → Z → FullL2Quote → Prop) (one : bool).
Implicit Types (st : L1EquitiesStrategy L) (mic esi : Z) (books : gmap (Z * Z) B).

Definition stock_marked (flagged : Z → bool) esi (v : list StockSide) : Prop :=
  Exists (λ s, ss_esi s = esi /\ flagged (ss_side_flags s) = true) v.
Definition side_marked st mic esi side : Prop := stock_marked (λ f, has_flag f side) esi (updated mic st).
Definition current books st mic esi side : Prop :=
  quote_side side (unsafe_best_quote mic esi st) = quote_side side (quote_of books mic esi).
(** Whatever is not noted is current, and there are no quotes without a book. *)
Definition tracks books st : Prop :=
  (∀ mic esi side, side_marked st mic esi side \/ current books st mic esi side)
  /\ ∀ mic esi, books !! (mic, esi) = None → unsafe_best_quote mic esi st = FullL2Quote_new.
Definition adds_up (d : L) st : Prop :=
  ∃ evs, l1_derived st = fold_left deliver evs d
    /\ (∀ mic esi, unsafe_best_quote mic esi st = heard evs mic esi)
    /\ (∀ pre ev post, evs = pre ++ ev :: post → tells_news (heard pre) ev)
    /\ Forall (event_from had) evs
    /\ (one = true → Forall one_sided evs).

Lemma land_u8 x b : 0 <= b < 2 ^ 8 → Z.land (u8 x) b = Z.land x b.
Proof.
  intros Hb. unfold u8, wrap. rewrite <- Z.land_ones, <- Z.land_assoc by lia. f_equal.
  rewrite Z.land_comm, Z.land_ones by lia. by apply Z.mod_small.
Qed.
Lemma has_flag_u8 f side : has_flag (u8 f) side = has_flag f side.
Proof. unfold has_flag. by rewrite land_u8 by apply side_bits_u8. Qed.
Lemma has_flag_lor f g side : has_flag (Z.lor f g) side = has_flag f side || has_flag g side.
Proof.
  unfold has_flag. rewrite Z.land_lor_distr_l.
  destruct (Z.eqb_spec (Z.land f (side_bits side)) 0) as [->|Hf]; cbn [negb orb]; [by rewrite Z.lor_0_l|].
  destruct (Z.eqb_spec (Z.lor (Z.land f (side_bits side)) (Z.land g (side_bits side))) 0) as [E|]; [|done].
  by apply Z.lor_eq_0_iff in E as [? _].
Qed.
Lemma has_flag_self side : has_flag (side_bits side) side = true.
Proof. unfold has_flag. rewrite Z.land_diag. by destruct (Z.eqb_spec (side_bits side) 0) as [E|]; [apply side_bits_nonzero in E|]. Qed.

Lemma insert_marks side esi f v : has_flag f side = true →
  stock_marked (λ f, has_flag f side) esi (updates_insert (mkStockSide esi f) v).
Proof.
  intros Hf. induction v as [|e v IH]; cbn [updates_insert ss_esi ss_side_flags]; [by left|].
  destruct (Z.eqb_spec (ss_esi e) esi) as [<-|]; [left|by right].
  split; [done|]. cbn [ss_side_flags]. by rewrite has_flag_u8, has_flag_lor, Hf, orb_true_r.
Qed.
Lemma insert_keeps side ss esi v : stock_marked (λ f, has_flag f side) esi v →
  stock_marked (λ f, has_flag f side) esi (updates_insert ss v).
Proof.
  induction 1 as [e v [He Hf]|e v Hv IH]; cbn [updates_insert]; case_match.
  - left. cbn [ss_esi ss_side_flags]. by rewrite has_flag_u8, has_flag_lor, Hf.
  - by left.
  - right. done.
  - by right.
Qed.

(** *** Marking *)

Lemma updated_mark mic esi side mic' st :
  updated mic' (mark mic esi side st)
  = if decide (mic = mic') then updates_insert (mkStockSide esi (u8 (side_bits side))) (updated mic' st)
    else updated mic' st.
Proof.
  unfold mark, updated at 1. cbn [l1_updated_stocks]. case_decide as E.
  - subst mic'. by rewrite lookup_insert_eq.
  - by rewrite lookup_insert_ne.
Qed.
Lemma marks_side mic esi side st : side_marked (mark mic esi side st) mic esi side.
Proof.
  unfold side_marked. rewrite updated_mark, decide_True by done. apply insert_marks.
  by rewrite has_flag_u8, has_flag_self.
Qed.
Lemma mark_keeps mic esi side st mic' esi' side' :
  side_marked st mic' esi' side' → side_marked (mark mic esi side st) mic' esi' side'.
Proof. unfold side_marked. rewrite updated_mark. case_decide; [apply insert_keeps|done]. Qed.
Lemma mark_tracks books books' ev mic esi side st : feed_step books books' ev →
  (∀ m e s, touches ev m e s → m = mic /\ e = esi /\ s = side) →
  tracks books st → tracks books' (mark mic esi side st).
Proof.
  intros [Hstay Hside] Ht [Hm Hn]. split.
  - intros m e s. destruct (Hside m e s) as [(-> & -> & ->)%Ht|E]; [left; apply marks_side|].
    destruct (Hm m e s) as [?|Hc]; [left; by apply mark_keeps|right]. unfold current in *. by rewrite E.
  - intros m e E. apply Hn. destruct (books !! (m, e)) eqn:E'; [|done].
    destruct (Hstay (m, e)) as [? ?]; [by eexists|congruence].
Qed.
Lemma quiet_tracks books books' ev st : feed_step books books' ev → (∀ m e s, ¬ touches ev m e s) →
  tracks books st → tracks books' st.
Proof.
  intros [Hstay Hside] Ht [Hm Hn]. split.
  - intros m e s. destruct (Hside m e s) as [[]%Ht|E]. destruct (Hm m e s) as [?|Hc]; [by left|right].
    unfold current in *. by rewrite E.
  - intros m e E. apply Hn. destruct (books !! (m, e)) eqn:E'; [|done].
    destruct (Hstay (m, e)) as [? ?]; [by eexists|congruence].
Qed.

(** *** The end of a packet *)

Lemma quotes_eq (f g : FullL2Quote) : (∀ side, quote_side side f = quote_side side g) → f = g.
Proof.
  intros E. pose proof (E L3_BUY). pose proof (E L3_SELL).
  destruct f, g; cbn in *; congruence.
Qed.
Lemma unsafe_set mic esi e d st m s :
  unsafe_best_quote m s (set_entry mic esi e d st)
  = if decide ((mic, esi) = (m, s)) then qe_quote e else unsafe_best_quote m s st.
Proof.
  unfold unsafe_best_quote, entry, set_entry. cbn [l1_quotes]. case_decide as E; rewrite ?E.
  - by rewrite lookup_insert_eq.
  - by rewrite lookup_insert_ne.
Qed.

(** What comparing a side or both comes to: an event when the quote is news. *)
Lemma compare_bid_is ts mic esi (b : B) st :
  let q := unsafe_best_quote mic esi st in
  (book_best_bid_quote b = fq_bid q /\ compare_bid ts mic esi b st = st)
  \/ (book_best_bid_quote b ≠ fq_bid q /\ ∃ e, qe_quote e = with_side L3_BUY (book_best_bid_quote b) q
      /\ compare_bid ts mic esi b st
         = set_entry mic esi e (deliver (l1_derived st) (SideQuote ts mic esi L3_BUY (book_best_bid_quote b))) st).
Proof. cbn zeta. unfold compare_bid. fold (unsafe_best_quote mic esi st). case_decide; [by left|right; split; [done|]; eexists; split; [|reflexivity]; done]. Qed.
Lemma compare_ask_is ts mic esi (b : B) st :
  let q := unsafe_best_quote mic esi st in
  (book_best_ask_quote b = fq_ask q /\ compare_ask ts mic esi b st = st)
  \/ (book_best_ask_quote b ≠ fq_ask q /\ ∃ e, qe_quote e = with_side L3_SELL (book_best_ask_quote b) q
      /\ compare_ask ts mic esi b st
         = set_entry mic esi e (deliver (l1_derived st) (SideQuote ts mic esi L3_SELL (book_best_ask_quote b))) st).
Proof. cbn zeta. unfold compare_ask. fold (unsafe_best_quote mic esi st). case_decide; [by left|right; split; [done|]; eexists; split; [|reflexivity]; done]. Qed.
Lemma compare_both_is ts mic esi (b : B) st :
  let q := unsafe_best_quote mic esi st in
  (book_best_quote b = q /\ compare_both ts mic esi b st = st)
  \/ (book_best_quote b ≠ q /\ ∃ e, qe_quote e = book_best_quote b
      /\ compare_both ts mic esi b st
         = set_entry mic esi e (deliver (l1_derived st) (BothQuotes ts mic esi (book_best_quote b))) st).
Proof. cbn zeta. unfold compare_both. fold (unsafe_best_quote mic esi st). case_decide; [by left|right; split; [done|]; eexists; split; [|reflexivity]; done]. Qed.

Lemma news_snoc evs ev : (∀ pre e post, evs = pre ++ e :: post → tells_news (heard pre) e) → tells_news (heard evs) ev →
  ∀ pre e post, evs ++ [ev] = pre ++ e :: post → tells_news (heard pre) e.
Proof.
  intros Hevs Hev pre e post E. destruct post as [|x post _] using rev_ind.
  - by apply app_inj_tail in E as [-> ->].
  - rewrite app_comm_cons, app_assoc in E. apply app_inj_tail in E as [E _]. by eapply Hevs.
Qed.
Lemma event_adds_up d mic esi e ev st :
  qe_quote e = match ev with
               | SideQuote _ _ _ side q => with_side side q (unsafe_best_quote mic esi st)
               | BothQuotes _ _ _ q => q
               end →
  match ev with SideQuote _ m s _ _ | BothQuotes _ m s _ => (m, s) = (mic, esi) end →
  tells_news (λ m s, unsafe_best_quote m s st) ev → event_from had ev → (one = true → one_sided ev) →
  adds_up d st → adds_up d (set_entry mic esi e (deliver (l1_derived st) ev) st).
Proof.
  intros He Hev Hnews Hfrom Hside (evs & Hd & Hq & Hn & Hf & Hone). exists (evs ++ [ev]). split_and!.
  - cbn [l1_derived set_entry]. by rewrite fold_left_app, Hd.
  - intros m s. rewrite unsafe_set, heard_snoc, He. destruct ev; rewrite Hev, <- ?Hq; case_decide; try done.
    by simplify_eq.
  - apply news_snoc; [done|]. destruct ev; cbn in *; by rewrite <- Hq.
  - apply Forall_app. by repeat constructor.
  - intros E. apply Forall_app. split; [by apply Hone|]. apply Forall_singleton. by apply Hside.
Qed.

(** [st'] is [st] with the quotes of one stock brought up to date, on the [due]
    sides at least. *)
Record refreshes (b : B) mic esi (due : L3Side → Prop) st st' : Prop := mkRefreshes {
  rf_updated : l1_updated_stocks st' = l1_updated_stocks st;
  rf_others m s : (mic, esi) ≠ (m, s) → unsafe_best_quote m s st' = unsafe_best_quote m s st;
  rf_sides side : quote_side side (unsafe_best_quote mic esi st') = quote_side side (book_best_quote b)
    \/ (¬ due side /\ quote_side side (unsafe_best_quote mic esi st') = quote_side side (unsafe_best_quote mic esi st));
  rf_adds_up d : had mic esi (book_best_quote b) → adds_up d st → adds_up d st'
}.
Lemma refreshes_refl b mic esi (due : L3Side → Prop) st : (∀ side, ¬ due side) → refreshes b mic esi due st st.
Proof. intros Hd. split; auto. Qed.
Lemma refreshes_trans b mic esi (due1 due2 due : L3Side → Prop) st1 st2 st3 :
  (∀ side, due side → due1 side \/ due2 side) →
  refreshes b mic esi due1 st1 st2 → refreshes b mic esi due2 st2 st3 → refreshes b mic esi due st1 st3.
Proof.
  intros Hdue [Hu1 Ho1 Hs1 Ha1] [Hu2 Ho2 Hs2 Ha2]. split; [congruence| | |auto].
  - intros m s Hne. by rewrite Ho2, Ho1.
  - intros side. destruct (Hs2 side) as [?|[Hn2 ->]]; [by left|]. destruct (Hs1 side) as [?|[Hn1 ->]]; [by left|].
    right. naive_solver.
Qed.
Lemma refreshes_event b mic esi (due : L3Side → Prop) ev e st :
  qe_quote e = match ev with
               | SideQuote _ _ _ side q => with_side side q (unsafe_best_quote mic esi st)
               | BothQuotes _ _ _ q => q
               end →
  match ev with SideQuote _ m s _ _ | BothQuotes _ m s _ => (m, s) = (mic, esi) end →
  tells_news (λ m s, unsafe_best_quote m s st) ev → (one = true → one_sided ev) →
  match ev with SideQuote _ _ _ side q => q = quote_side side (book_best_quote b) | BothQuotes _ _ _ q => q = book_best_quote b end →
  (∀ side, quote_side side (qe_quote e) = quote_side side (book_best_quote b)
    \/ (¬ due side /\ quote_side side (qe_quote e) = quote_side side (unsafe_best_quote mic esi st))) →
  refreshes b mic esi due st (set_entry mic esi e (deliver (l1_derived st) ev) st).
Proof.
  intros He Hev Hnews Hside Hb Hs. split; [done| | |].
  - intros m s Hne. by rewrite unsafe_set, decide_False.
  - intros side. rewrite unsafe_set, decide_True by done. apply Hs.
  - intros d Hhad. apply event_adds_up; [done..| |done].
    clear He Hside. destruct ev; simplify_eq; cbn; [by exists (book_best_quote b)|done].
Qed.
Lemma refreshes_weaken b mic esi (due due' : L3Side → Prop) st st' : (∀ side, due' side → due side) →
  refreshes b mic esi due st st' → refreshes b mic esi due' st st'.
Proof. intros Hd [Hu Ho Hs Ha]. split; try done. intros side. destruct (Hs side) as [?|[? ?]]; naive_solver. Qed.
Lemma compare_bid_refreshes ts mic esi (b : B) st : refreshes b mic esi (λ s, s = L3_BUY) st (compare_bid ts mic esi b st).
Proof.
  destruct (compare_bid_is ts mic esi b st) as [[Hb ->]|(Hne & e & He & ->)].
  - split; [done..| |done]. intros []; [left; by cbn|right; by split].
  - apply refreshes_event; [done|done|done|done|done|]. rewrite He. intros []; [by left|right; by split].
Qed.
Lemma compare_ask_refreshes ts mic esi (b : B) st : refreshes b mic esi (λ s, s = L3_SELL) st (compare_ask ts mic esi b st).
Proof.
  destruct (compare_ask_is ts mic esi b st) as [[Hb ->]|(Hne & e & He & ->)].
  - split; [done..| |done]. intros []; [right; by split|left; by cbn].
  - apply refreshes_event; [done|done|done|done|done|]. rewrite He. intros []; [right; by split|by left].
Qed.
Lemma compare_both_refreshes ts mic esi (b : B) due st : one = false → refreshes b mic esi due st (compare_both ts mic esi b st).
Proof.
  intros Hone. destruct (compare_both_is ts mic esi b st) as [[Hb ->]|(Hne & e & He & ->)].
  - split; [done..| |done]. intros side. left. by rewrite Hb.
  - apply refreshes_event; [done|done|done|congruence|done|]. rewrite He. by left.
Qed.
(** What is marked is marked on one side, if need be. *)
Definition marked_once (s : StockSide) : Prop :=
  one = true → ¬ (has_flag (ss_side_flags s) L3_BUY = true /\ has_flag (ss_side_flags s) L3_SELL = true).
Lemma both_flags f : let both := Z.lor (side_bits L3_BUY) (side_bits L3_SELL) in
  Z.land f both = both → ∀ side, has_flag f side = true.
Proof.
  intros both E side. unfold has_flag. assert (Z.land both (side_bits side) = side_bits side) as Eb.
  { unfold both. rewrite Z.land_lor_distr_l. destruct side; rewrite ?Z.land_diag.
    - by rewrite (Z.land_comm (side_bits L3_SELL)), side_bits_disjoint, Z.lor_0_r.
    - by rewrite side_bits_disjoint, Z.lor_0_l. }
  assert (Z.land f (side_bits side) = side_bits side) as ->.
  { rewrite <- Eb at 1. by rewrite Z.land_assoc, E. }
  by destruct (Z.eqb_spec (side_bits side) 0) as [E0|]; [apply side_bits_nonzero in E0|].
Qed.
Lemma compare_stock_refreshes ts mic s (b : B) st : marked_once s →
  refreshes b mic (ss_esi s) (λ side, has_flag (ss_side_flags s) side = true) st (compare_stock ts mic s b st).
Proof.
  intros Hs. unfold compare_stock. cbn zeta. case_match eqn:Eb.
  { apply compare_both_refreshes. apply not_true_is_false. intros Hone. apply (Hs Hone).
    apply Z.eqb_eq in Eb. split; by apply both_flags. }
  apply (refreshes_trans _ _ _ (λ side, side = L3_BUY /\ has_flag (ss_side_flags s) L3_BUY = true)
           (λ side, side = L3_SELL /\ has_flag (ss_side_flags s) L3_SELL = true) _ _
           (if has_flag (ss_side_flags s) L3_BUY then compare_bid ts mic (ss_esi s) b st else st)).
  - intros []; auto.
  - destruct (has_flag _ L3_BUY); [|apply refreshes_refl; naive_solver].
    eapply refreshes_weaken; [|apply compare_bid_refreshes]. naive_solver.
  - destruct (has_flag _ L3_SELL); [|apply refreshes_refl; naive_solver].
    eapply refreshes_weaken; [|apply compare_ask_refreshes]. naive_solver.
Qed.

(** The loop over the stocks of the venue, [v] of which are left. *)
Definition tracks_but books mic (v : list StockSide) st : Prop :=
  (∀ m esi side, current books st m esi side \/
     if decide (m = mic) then stock_marked (λ f, has_flag f side) esi v else side_marked st m esi side)
  /\ ∀ m esi, books !! (m, esi) = None → unsafe_best_quote m esi st = FullL2Quote_new.
Lemma no_book_current books st mic esi side : books !! (mic, esi) = None →
  unsafe_best_quote mic esi st = FullL2Quote_new → current books st mic esi side.
Proof. intros E Hq. unfold current, quote_of. by rewrite E, Hq. Qed.
Definition all_had books : Prop := ∀ mic esi b, books !! (mic, esi) = Some b → had mic esi (book_best_quote b).
Lemma stock_step books ts mic s v d st : all_had books → marked_once s →
  tracks_but books mic (s :: v) st → adds_up d st →
  ∃ st', end_of_data_stock (Some (λ esi, books !! (mic, esi))) ts mic st s = Ok st'
    /\ tracks_but books mic v st' /\ adds_up d st' /\ l1_updated_stocks st' = l1_updated_stocks st.
Proof.
  intros Hhad Honce [Ht Hn] Ha. cbn [end_of_data_stock]. eexists. split; [reflexivity|].
  destruct (books !! (mic, ss_esi s)) as [b|] eqn:Hb.
  - destruct (compare_stock_refreshes ts mic s b st Honce) as [Hu Ho Hs Hd].
    split; [split|split; [apply Hd; [by apply Hhad|done]|done]].
    + intros m esi side. unfold current. destruct (decide ((mic, ss_esi s) = (m, esi))) as [E|Hne].
      * simplify_eq. rewrite decide_True by done. unfold quote_of. rewrite Hb. cbn [fmap option_fmap option_map default].
        destruct (Hs side) as [?|[Hdue E]]; [by left|]. rewrite E. specialize (Ht m (ss_esi s) side).
        rewrite decide_True in Ht by done. unfold current, quote_of in Ht. rewrite Hb in Ht.
        destruct Ht as [?|Hm]; [by left|right]. apply Exists_cons in Hm as [[_ ?]|?]; done.
      * rewrite Ho by done. specialize (Ht m esi side). destruct Ht as [?|Hm]; [by left|right].
        case_decide as Em; [subst m|by unfold side_marked, updated in *; rewrite Hu].
        apply Exists_cons in Hm as [[? _]|?]; [congruence|done].
    + intros m esi E. rewrite Ho by congruence. by apply Hn.
  - split; [split; [|done]|done]. intros m esi side. specialize (Ht m esi side).
    destruct Ht as [?|Hm]; [by left|]. case_decide as Em; [subst m|by right].
    apply Exists_cons in Hm as [[<- _]|?]; [left|by right]. apply no_book_current; [done|by apply Hn].
Qed.
Lemma stocks_loop books ts mic d v st : all_had books → Forall marked_once v → tracks_but books mic v st → adds_up d st →
  ∃ st', foldM (end_of_data_stock (Some (λ esi, books !! (mic, esi))) ts mic) st v = Ok st'
    /\ tracks_but books mic [] st' /\ adds_up d st' /\ l1_updated_stocks st' = l1_updated_stocks st.
Proof.
  intros Hhad Hv. revert st. induction Hv as [|s v Hs Hv IH]; intros st Ht Ha; cbn [foldM]; [by eexists|].
  destruct (stock_step books ts mic s v d st Hhad Hs Ht Ha) as (st1 & -> & Ht1 & Ha1 & Hu1). cbn [mbind res_bind].
  destruct (IH st1 Ht1 Ha1) as (st' & -> & Ht' & Ha' & Hu'). exists st'. split_and!; [done..|congruence].
Qed.
Lemma end_of_data_tracks books ts mic d st : all_had books → Forall marked_once (updated mic st) →
  tracks books st → adds_up d st →
  ∃ st', on_end_of_data (λ mic, Some (λ esi, books !! (mic, esi))) ts mic st = Ok st'
    /\ tracks books st' /\ adds_up d st'
    /\ (∀ m, updated m st' = if decide (m = mic) then [] else updated m st)
    /\ ∀ esi, unsafe_best_quote mic esi st' = quote_of books mic esi.
Proof.
  intros Hhad Honce [Hm Hn] Ha. destruct (stocks_loop books ts mic d (updated mic st) st) as (st1 & E & [Ht Hn'] & Ha' & Hu).
  { done. }
  { done. }
  { split; [|done]. intros m esi side. destruct (Hm m esi side) as [Hk|?]; [right|by left].
    case_decide; [by subst m|done]. }
  { done. }
  unfold on_end_of_data. rewrite E. cbn [mbind res_bind]. eexists. split; [reflexivity|].
  assert (∀ m esi side, m = mic → current books st1 m esi side) as Hcur.
  { intros m esi side ->. destruct (Ht mic esi side) as [?|Hx]; [done|]. rewrite decide_True in Hx by done.
    by apply Exists_nil in Hx. }
  split_and!; [split| | |].
  - intros m esi side. destruct (Ht m esi side) as [?|Hx]; [by right|]. case_decide as Em; [right; by apply Hcur|left].
    unfold side_marked, updated in *. cbn [l1_updated_stocks]. by rewrite lookup_insert_ne.
  - exact Hn'.
  - exact Ha'.
  - intros m. unfold updated. cbn [l1_updated_stocks]. rewrite Hu. case_decide; [subst; by rewrite lookup_insert_eq|by rewrite lookup_insert_ne].
  - intros esi. apply quotes_eq. intros side. by apply (Hcur mic esi side).
Qed.

(** *** Runs *)

Lemma mark_adds_up d mic esi side st : adds_up d st → adds_up d (mark mic esi side st).
Proof. done. Qed.
(** What is marked is what the packets told of, on one side of each stock. *)
Definition marks_seen (seen : list (Z * Z * L3Side)) st : Prop := one = true →
  (∀ mic s side, s ∈ updated mic st → has_flag (ss_side_flags s) side = true → (mic, ss_esi s, side) ∈ seen)
  /\ ∀ mic esi side, (mic, esi, side) ∈ seen → (mic, esi, other_side side) ∉ seen.
Lemma seen_once seen mic st : marks_seen seen st → Forall marked_once (updated mic st).
Proof.
  intros Hm. apply Forall_forall. intros s Hin Hone [Hb Ha]. destruct (Hm Hone) as [Hs Hd].
  exact (Hd _ _ _ (Hs mic s L3_BUY Hin Hb) (Hs mic s L3_SELL Hin Ha)).
Qed.
Lemma flag_of_side side side' : has_flag (u8 (side_bits side)) side' = true → side' = side.
Proof.
  rewrite has_flag_u8. unfold has_flag. destruct side, side'; try done.
  - by rewrite side_bits_disjoint.
  - by rewrite Z.land_comm, side_bits_disjoint.
Qed.
Lemma insert_from ss v s side : s ∈ updates_insert ss v → has_flag (ss_side_flags s) side = true →
  (∃ s', s' ∈ v /\ ss_esi s' = ss_esi s /\ has_flag (ss_side_flags s') side = true)
  \/ (ss_esi s = ss_esi ss /\ has_flag (ss_side_flags ss) side = true).
Proof.
  induction v as [|e v IH]; cbn [updates_insert].
  - intros ->%list_elem_of_singleton Hf. by right.
  - destruct (Z.eqb_spec (ss_esi e) (ss_esi ss)) as [E|E]; intros [->|Hin]%elem_of_cons Hf.
    + cbn [ss_esi ss_side_flags] in *. rewrite has_flag_u8, has_flag_lor in Hf. apply orb_true_iff in Hf as [Hf|Hf]; [left|by right].
      exists e. split_and!; [by left|done|done].
    + left. exists s. split_and!; [by right|done|done].
    + left. exists e. split_and!; [by left|done|done].
    + destruct (IH Hin Hf) as [(s' & ? & ? & ?)|?]; [left; exists s'|by right]. split_and!; [by right|done|done].
Qed.
Lemma mark_seen seen mic esi side st : (one = true → (mic, esi, other_side side) ∉ seen) → marks_seen seen st →
  marks_seen ((mic, esi, side) :: seen) (mark mic esi side st).
Proof.
  intros Hno Hm Hone. destruct (Hm Hone) as [Hs Hd]. specialize (Hno Hone). split.
  - intros m s sd. rewrite updated_mark. case_decide as E; [subst m|by intros ? ?; right; apply Hs].
    intros Hin Hf. destruct (insert_from _ _ _ _ Hin Hf) as [(s' & Hin' & <- & Hf')|[-> ->%flag_of_side]]; [right; by apply Hs|by left].
  - intros m e sd. rewrite !elem_of_cons. intros [E|Hin] [E'|Hin'].
    + injection E as -> -> ->. injection E' as E'. by destruct side.
    + injection E as -> -> ->. exact (Hno Hin').
    + injection E' as -> -> <-. apply Hno. by destruct sd.
    + exact (Hd _ _ _ Hin Hin').
Qed.
(** What is told of after the event. *)
Definition seen_after (seen : list (Z * Z * L3Side)) (ev : FeedEvent) : list (Z * Z * L3Side) :=
  match ev with
  | EndOfData _ mic => filter (λ x, x.1.1 ≠ mic) seen
  | _ => match event_side ev with Some x => x :: seen | None => seen end
  end.
Lemma feed_preserves seen books books' ev d st : all_had books' → feed_step books books' ev →
  marks_seen seen st → (one = true → match event_side ev with Some (m, e, s) => (m, e, other_side s) ∉ seen | None => True end) →
  tracks books st → adds_up d st →
  ∃ st', on_feed books' ev st = Ok st' /\ tracks books' st' /\ adds_up d st' /\ marks_seen (seen_after seen ev) st'
    /\ match ev with
       | EndOfData _ mic => ∀ esi, unsafe_best_quote mic esi st' = quote_of books' mic esi
       | _ => True
       end.
Proof.
  intros Hhad Hs Hm Hno Ht Ha. destruct ev as [m e s|m e s|m e s|m e s|m e is_buy is_bbo|ts m]; cbn [on_feed].
  1-4: eexists; (split; [reflexivity|]); (split; [|split_and!; [done|by apply mark_seen|done]]);
    eapply mark_tracks; [exact Hs|cbn; by intros ??? (-> & -> & ->)|done].
  - eexists. split; [reflexivity|]. unfold l1_on_l2_update. destruct is_bbo.
    + split; [|split_and!; [done|by apply mark_seen|done]].
      eapply mark_tracks; [exact Hs|cbn; by intros ??? (_ & -> & -> & ->)|done].
    + split; [|by split_and!]. eapply quiet_tracks; [exact Hs|cbn; by intros ??? [? _]|done].
  - destruct (end_of_data_tracks books' ts m d st Hhad (seen_once _ _ _ Hm)) as (st' & E & Ht' & Ha' & Hu & Hq); [|done|].
    { eapply quiet_tracks; [exact Hs|cbn; by intros ??? []|done]. }
    exists st'. split_and!; try done. intros Hone. destruct (Hm Hone) as [Hms Hd]. cbn [seen_after]. split.
    + intros mic x side. rewrite Hu. case_decide as E1; [by intros ?%not_elem_of_nil|]. intros Hin Hf.
      apply list_elem_of_filter. split; [done|]. by apply Hms.
    + intros mic x side [_ Hin]%list_elem_of_filter [_ Hin']%list_elem_of_filter. exact (Hd _ _ _ Hin Hin').
Qed.
Lemma run_preserves d steps : ∀ seen books st, Forall (λ s, all_had s.1) steps → feed_ok books steps →
  (one = true → one_sided_packets seen steps) → marks_seen seen st → tracks books st → adds_up d st →
  ∃ st', run_feed steps st = Ok st' /\ tracks (last_books books steps) st' /\ adds_up d st'.
Proof.
  unfold run_feed. induction steps as [|[books' ev] steps IH]; intros seen books st Hhad Hf Hone Hm Ht Ha; cbn [foldM].
  { by exists st. }
  apply Forall_cons in Hhad as [Hb Hhad]. destruct Hf as [Hs Hf].
  destruct (feed_preserves seen books books' ev d st Hb Hs Hm) as (st1 & -> & Ht1 & Ha1 & Hm1 & _); [|done..|].
  { intros E. specialize (Hone E). destruct ev as [| | | |? ? ? []|]; cbn in *; tauto. }
  cbn [mbind res_bind]. destruct (IH (seen_after seen ev) books' st1 Hhad Hf) as (st' & E & Ht' & Ha'); [|done..|by exists st'].
  intros E. specialize (Hone E). destruct ev as [| | | |? ? ? []|]; cbn in *; tauto.
Qed.
Lemma new_tracks d : tracks ∅ (L1_new d) /\ adds_up d (L1_new d).
Proof.
  split; [split; [|done]|].
  - intros. right. done.
  - exists []. split_and!; [done|done| |done|done]. intros pre ev post E. by destruct pre.
Qed.
Lemma new_seen d : marks_seen [] (L1_new d).
Proof. intros _. split; [|by intros ??? ?%not_elem_of_nil]. intros mic s side. by intros ?%not_elem_of_nil. Qed.
Lemma feed_ok_snoc books steps books' ev :
  feed_ok books (steps ++ [(books', ev)]) ↔ feed_ok books steps /\ feed_step (last_books books steps) books' ev.
Proof.
  revert books. induction steps as [|[b e] steps IH]; intros books; cbn [feed_ok app].
  - unfold last_books. cbn. tauto.
  - rewrite IH. unfold last_books. cbn [fold_left fst]. tauto.
Qed.

End Correct.

Definition books_had `{BookQuotes B} (steps : list (gmap (Z * Z) B * FeedEvent)) (mic esi : Z) (q : FullL2Quote) : Prop :=
  ∃ s b, s ∈ steps /\ s.1 !! (mic, esi) = Some b /\ q = book_best_quote b.
(** What a feed that ends with the end of a packet comes to. *)
Lemma feed_followed `{SideBitsOk} {L : Type} `{BboListener L} `{BookQuotes B} (one : bool) (d : L)
    (steps : list (gmap (Z * Z) B * FeedEvent)) books ts mic :
  let all := steps ++ [(books, EndOfData ts mic)] in
  feed_ok ∅ all → (one = true → one_sided_packets [] all) →
  ∃ st evs, run_feed all (L1_new d) = Ok st
    /\ (∀ esi, unsafe_best_quote mic esi st = quote_of books mic esi)
    /\ l1_derived st = fold_left deliver evs d
    /\ (∀ mic esi, unsafe_best_quote mic esi st = heard evs mic esi)
    /\ (∀ pre ev post, evs = pre ++ ev :: post → tells_news (heard pre) ev)
    /\ Forall (event_from (books_had all)) evs
    /\ (one = true → Forall one_sided evs).
Proof.
  intros all [Hf Hs]%feed_ok_snoc Hone. set (had := books_had all).
  assert (∀ s, s ∈ all → all_had had s.1) as Hhad by (intros s Hin m e b Hb; by exists s, b).
  destruct (new_tracks had one d) as [Ht Ha].
  destruct (run_preserves had one d all [] ∅ (L1_new d)) as (st & E & _ & (evs & Hd & Hq & Hn & Hfrom & Hside)); try done.
  { apply Forall_forall. exact Hhad. }
  { by apply feed_ok_snoc. }
  { apply new_seen. }
  exists st, evs. split_and!; try done.
  unfold run_feed in E. unfold all in E. rewrite foldM_app in E. apply res_bind_Ok in E as (st1 & E1 & E2).
  destruct (run_preserves had false d steps [] ∅ (L1_new d)) as (st1' & E1' & Ht1 & Ha1); try done.
  { apply Forall_forall. intros s Hin. apply Hhad, elem_of_app. by left. }
  { apply new_tracks. }
  unfold run_feed in E1'. rewrite E1 in E1'. injection E1' as <-.
  destruct (feed_preserves had false [] (last_books ∅ steps) books (EndOfData ts mic) d st1)
    as (st' & E' & _ & _ & _ & Hcur); try done.
  { apply (Hhad (books, EndOfData ts mic)), elem_of_app. right. by apply list_elem_of_singleton. }
  cbn [foldM] in E2. rewrite E' in E2. cbn [mbind res_bind] in E2. by injection E2 as <-.
Qed.
(** C13: If decoders report every change of a best quote and end each packet, then
    at the end of every packet of a venue the strategy holds exactly the best quotes
    of all its books, sides that several messages touched and stocks that have no
    book included.  And the strategy derived from it was told: the events it got add
    up to those quotes, each of them was a change, and each is a quote that a book
    had. *)
Theorem quotes_follow_books `{SideBitsOk} {L : Type} `{BboListener L} `{BookQuotes B} (d : L)
    (steps : list (gmap (Z * Z) B * FeedEvent)) books ts mic :
  feed_ok ∅ (steps ++ [(books, EndOfData ts mic)]) →
  ∃ st evs, run_feed (steps ++ [(books, EndOfData ts mic)]) (L1_new d) = Ok st
    /\ (∀ esi, unsafe_best_quote mic esi st = quote_of books mic esi)
    /\ l1_derived st = fold_left deliver evs d
    /\ (∀ mic esi, unsafe_best_quote mic esi st = heard evs mic esi)
    /\ (∀ pre ev post, evs = pre ++ ev :: post → tells_news (heard pre) ev)
    /\ Forall (event_from (books_had (steps ++ [(books, EndOfData ts mic)]))) evs.
Proof.
  intros Hf. destruct (feed_followed false d steps books ts mic Hf ltac:(done)) as (st & evs & ? & ? & ? & ? & ? & ? & _).
  by exists st, evs.
Qed.

(** ** A run *)

#[export] Instance bit_sides : SideBits := λ s, match s with L3_BUY => 1 | L3_SELL => 2 end.
#[export] Instance bit_sides_ok : SideBitsOk.
Proof. split; [by intros []|by intros []|done]. Qed.
(** A listener that keeps what it hears. *)
#[export] Instance recorder : BboListener (list BboEvent) := {
  on_bbo_update ts mic esi side q evs := evs ++ [SideQuote ts mic esi side q];
  on_bbo_update_both ts mic esi q evs := evs ++ [BothQuotes ts mic esi q]
}.
(** A book that is its quotes. *)
#[export] Instance plain_quotes : BookQuotes FullL2Quote := { book_best_bid_quote := fq_bid; book_best_ask_quote := fq_ask }.
(** An aggregated book of two halves. *)
#[export] Instance L2Book_quotes : BookQuotes (L2BookHalf * L2BookHalf) := {
  book_best_bid_quote b := best_quote EmptyBid_price b.1;
  book_best_ask_quote b := best_quote EmptyAsk_price b.2
}.

(** A bid is added, and canceled and an ask added in the next packet. *)
Definition sample_bid : L2Quote := mkQuote 100000 300 1.
Definition sample_ask : L2Quote := mkQuote 101000 200 1.
Definition sample_steps : list (gmap (Z * Z) FullL2Quote * FeedEvent) :=
  [({[ (3, 7) := mkFull sample_bid (fq_ask FullL2Quote_new) ]}, Added 3 7 L3_BUY);
   ({[ (3, 7) := mkFull sample_bid (fq_ask FullL2Quote_new) ]}, EndOfData (mkTs 1 0) 3);
   ({[ (3, 7) := FullL2Quote_new ]}, Canceled 3 7 L3_BUY);
   ({[ (3, 7) := mkFull (fq_bid FullL2Quote_new) sample_ask ]}, Added 3 7 L3_SELL)].
Lemma singleton_step (q q' : FullL2Quote) mic esi side ev :
  (∀ s, s ≠ side → quote_side s q' = quote_side s q) → touches ev mic esi side →
  feed_step {[ (mic, esi) := q ]} {[ (mic, esi) := q' ]} ev.
Proof.
  intros Hs Ht. split.
  - intros k [x Hx]. destruct (decide (k = (mic, esi))) as [->|].
    + rewrite lookup_singleton_eq. by eexists.
    + by rewrite lookup_singleton_ne in Hx.
  - intros m e s. unfold quote_of. destruct (decide ((mic, esi) = (m, e))) as [E|].
    + simplify_eq. rewrite !lookup_singleton_eq. cbn. destruct (decide (s = side)) as [->|]; [by left|right].
      destruct q, q'. apply (Hs s n).
    + rewrite !lookup_singleton_ne by done. by right.
Qed.
Lemma same_books_step (books : gmap (Z * Z) FullL2Quote) ev : feed_step books books ev.
Proof. split; [done|by right]. Qed.
Lemma sample_feed_ok : feed_ok ∅ (sample_steps ++ [({[ (3, 7) := mkFull (fq_bid FullL2Quote_new) sample_ask ]}, EndOfData (mkTs 2 0) 3)]).
Proof.
  cbn [sample_steps app feed_ok]. split_and!; try apply same_books_step; try done.
  - split; [by intros k [? ?]|]. intros m e s. destruct (decide ((m, e, s) = (3, 7, L3_BUY))) as [|Hne]; [left; naive_solver|right].
    unfold quote_of. rewrite lookup_empty. destruct (decide ((3, 7) = (m, e))) as [E|].
    + simplify_eq. destruct s; [naive_solver|]. by rewrite lookup_singleton_eq.
    + by rewrite lookup_singleton_ne.
  - apply (singleton_step _ _ _ _ L3_BUY); [by intros [] ?|done].
  - apply (singleton_step _ _ _ _ L3_SELL); [by intros [] ?|done].
Qed.
Lemma quotes_follow_books_witness :
  (∃ st evs, run_feed (sample_steps ++ [({[ (3, 7) := mkFull (fq_bid FullL2Quote_new) sample_ask ]}, EndOfData (mkTs 2 0) 3)])
     (L1_new []) = Ok st
    /\ unsafe_best_quote 3 7 st = mkFull (fq_bid FullL2Quote_new) sample_ask
    /\ l1_derived st = fold_left deliver evs [])
  /\ l1_derived <$> run_feed (sample_steps ++ [({[ (3, 7) := mkFull (fq_bid FullL2Quote_new) sample_ask ]}, EndOfData (mkTs 2 0) 3)])
     (L1_new [])
    = Ok [SideQuote (mkTs 1 0) 3 7 L3_BUY sample_bid;
          BothQuotes (mkTs 2 0) 3 7 (mkFull (fq_bid FullL2Quote_new) sample_ask)].
Proof.
  split; [|vm_compute; reflexivity].
  destruct (quotes_follow_books ([] : list BboEvent) sample_steps _ (mkTs 2 0) 3 sample_feed_ok)
    as (st & evs & E & Hq & Hd & _).
  exists st, evs. split; [exact E|]. split; [|exact Hd]. rewrite Hq. reflexivity.
Defined.
