(* ===== verification/Nbbo.v ===== *)
(** * The consolidated book (src/ts/NBBOEquitiesStrategy.cpp)

    For each stock the strategy keeps an order book in which the best quote of a
    venue on a side is one order, and tells what derives from it when the best of
    the book changes.  The order book (OrderBook) and the trading states are not
    in the repository: they are the classes [OrderBook], whose laws are the ones
    src/test/md/md_orderbook.t.cpp exercises, and [TradingStateBits].  The orders'
    time in force, always [DAY], is left out. *)

From stdpp Require Import gmap.
From S2P Require Import Prelude Dbl Time L2Book L1Quotes.
Open Scope Z_scope.

(** ** Order books *)

Record L3OrderData := mkL3 {
  lo_refnum : Z;
  lo_side : L3Side;
  lo_price : Z;
  lo_size : Z;
  lo_created : Timestamp;
  lo_updated : Timestamp
}.
#[export] Instance L3OrderData_rebuild : Rebuild L3OrderData := λ o,
  mkL3 (lo_refnum o) (lo_side o) (lo_price o) (lo_size o) (lo_created o) (lo_updated o).

Class OrderBook (B : Type) := {
  ob_new : B;
  ob_find : Z → B → option L3OrderData;
  ob_add : L3OrderData → B → B;
  ob_erase : L3OrderData → B → B;
  ob_replace : Z → L3OrderData → B → B;
  ob_modify : L3OrderData → Z → B → B;
  ob_remove : Z → B → B;
  ob_best_bid : B → Summary;
  ob_best_ask : B → Summary
}.
Definition ob_best `{OrderBook B} (b : B) : FullL2Quote :=
  mkFull (quote_of_summary (ob_best_bid b)) (quote_of_summary (ob_best_ask b)).

Definition empty_price (side : L3Side) : Z := match side with L3_BUY => EmptyBid_price | L3_SELL => EmptyAsk_price end.
(** The best quote of a side of a set of orders. *)
Definition better (side : L3Side) : Z → Z → Z := match side with L3_BUY => Z.max | L3_SELL => Z.min end.
Definition side_orders (side : L3Side) (m : gmap Z L3OrderData) : list L3OrderData :=
  filter (λ o, lo_side o = side) (map_to_list m).*2.
Definition best_price (side : L3Side) (l : list L3OrderData) : Z := foldr (λ o, better side (lo_price o)) (empty_price side) l.
Definition best_of (side : L3Side) (m : gmap Z L3OrderData) : Summary :=
  let l := side_orders side m in
  let p := best_price side l in
  let top := filter (λ o, lo_price o = p) l in
  (p, u32 (list_sum_Z (lo_size <$> top)), Z.of_nat (length top)).

(** A book holds one order for a reference number. *)
Class OrderBookOk (B : Type) `{OrderBook B} := {
  ob_orders : B → gmap Z L3OrderData;
  orders_new : ob_orders ob_new = ∅;
  orders_find r b : ob_find r b = ob_orders b !! r;
  orders_add o b : ob_orders b !! lo_refnum o = None → ob_orders (ob_add o b) = <[lo_refnum o := o]> (ob_orders b);
  orders_erase o b : ob_orders b !! lo_refnum o = Some o → ob_orders (ob_erase o b) = delete (lo_refnum o) (ob_orders b);
  orders_replace r o b : is_Some (ob_orders b !! r) → lo_refnum o = r →
    ob_orders (ob_replace r o b) = <[r := o]> (ob_orders b);
  orders_modify o size b : ob_orders b !! lo_refnum o = Some o → 0 < size →
    ob_orders (ob_modify o size b) = <[lo_refnum o := o <| lo_size := size |>]> (ob_orders b);
  orders_remove r b : ob_orders (ob_remove r b) = delete r (ob_orders b);
  orders_best_bid b : ob_best_bid b = best_of L3_BUY (ob_orders b);
  orders_best_ask b : ob_best_ask b = best_of L3_SELL (ob_orders b)
}.

(** ** Reference numbers *)

Definition SIDE_MASK : Z := 65536.
Definition side_to_bits (side : L3Side) : Z := match side with L3_BUY => 0 | L3_SELL => SIDE_MASK end.
Definition refnum_to_side (r : Z) : L3Side := if Z.land r SIDE_MASK =? 0 then L3_BUY else L3_SELL.
Definition refnum_to_index (r : Z) : Z := Z.land r (u32 (Z.lnot SIDE_MASK)).
Definition make_refnum (index : Z) (side : L3Side) : Z := Z.lor index (side_to_bits side).

(** ** State *)

Inductive VenueState := STATE_TRADING | STATE_HALTED | STATE_QUOTATION_ONLY.
Class TradingStateBits := state_bits : VenueState → Z.
Class NbboListener (L : Type) := on_nbbo_update : Timestamp → Z → Z → FullL2Quote → L → L.
Inductive TradingStatus :=
| ST_UNKNOWN | ST_TRADING | ST_HALT | ST_QUOTE_ONLY | ST_SSR_IN_EFFECT | ST_SSR_NOT_IN_EFFECT
| ST_PRE_MKT_SESSION | ST_REGULAR_MKT_SESSION | ST_POST_MKT_SESSION.

Record NBBOEquitiesStrategy (B L : Type) := mkNbbo {
  nb_books : gmap Z B;
  nb_venue_enabled : gmap (Z * Z) bool;
  nb_status_policy_bitfield : Z;
  nb_derived : L
}.
Arguments mkNbbo {B L}.
Arguments nb_books {B L}.
Arguments nb_venue_enabled {B L}.
Arguments nb_status_policy_bitfield {B L}.
Arguments nb_derived {B L}.

Section Strategy.
Context `{TradingStateBits} {B L : Type} `{OrderBook B} `{NbboListener L}.
#[export] Instance Nbbo_rebuild : Rebuild (NBBOEquitiesStrategy B L) := λ n,
  mkNbbo (nb_books n) (nb_venue_enabled n) (nb_status_policy_bitfield n) (nb_derived n).
Implicit Types (n : NBBOEquitiesStrategy B L) (mic esi : Z) (side : L3Side) (q : L2Quote).

Definition bbo_book esi n : B := default ob_new (nb_books n !! esi).
Definition put_book esi (b : B) n : NBBOEquitiesStrategy B L := n <| nb_books := <[esi := b]> (nb_books n) |>.
Definition venue_enabled mic esi n : bool := default true (nb_venue_enabled n !! (mic, esi)).
Definition NBBO_new (d : L) : NBBOEquitiesStrategy B L := mkNbbo ∅ ∅ (state_bits STATE_TRADING) d.

(** ** Quotes *)

Definition make_new_order (refnum : Z) (ts : Timestamp) q : L3OrderData :=
  mkL3 refnum (refnum_to_side refnum) (q_price q) (q_size q) ts ts.
Definition best_quote_of side (b : B) : L2Quote :=
  quote_of_summary (match side with L3_BUY => ob_best_bid b | L3_SELL => ob_best_ask b end).
Definition book_with (refnum : Z) (ts : Timestamp) side q (b : B) : B :=
  match ob_find refnum b with
  | None => if negb (q_price q =? empty_price side) then ob_add (make_new_order refnum ts q) b else b
  | Some p =>
      if negb (q_price q =? lo_price p) then
        if q_price q =? empty_price side then ob_erase p b
        else ob_replace refnum (make_new_order refnum ts q) b
      else ob_modify p (q_size q) b
  end.
Definition update_book (ts : Timestamp) mic esi side q n : bool * NBBOEquitiesStrategy B L :=
  let priorq := best_quote_of side (bbo_book esi n) in
  let n := put_book esi (book_with (make_refnum mic side) ts side q (bbo_book esi n)) n in
  let newq := best_quote_of side (bbo_book esi n) in
  (bool_decide (newq ≠ priorq), n).
Definition tell (ts : Timestamp) mic esi n : NBBOEquitiesStrategy B L :=
  n <| nb_derived := on_nbbo_update ts mic esi (ob_best (bbo_book esi n)) (nb_derived n) |>.
Definition nbbo_on_bbo_update (ts : Timestamp) mic esi side q n : NBBOEquitiesStrategy B L :=
  if negb (venue_enabled mic esi n) then n
  else
    let '(changed, n) := update_book ts mic esi side q n in
    if changed then tell ts mic esi n else n.
(** The right operand of [||] is not run when the left one is true. *)
Definition nbbo_on_bbo_update_both (ts : Timestamp) mic esi (q : FullL2Quote) n : NBBOEquitiesStrategy B L :=
  if negb (venue_enabled mic esi n) then n
  else
    let '(changed, n) := update_book ts mic esi L3_BUY (fq_bid q) n in
    let '(changed, n) := if changed : bool then (true, n) else update_book ts mic esi L3_SELL (fq_ask q) n in
    if changed : bool then tell ts mic esi n else n.

(** ** Venues *)

Definition enable_venue mic esi n : NBBOEquitiesStrategy B L :=
  n <| nb_venue_enabled := <[(mic, esi) := true]> (nb_venue_enabled n) |>.
Definition disable_venue mic esi n : NBBOEquitiesStrategy B L :=
  let n :=
    if venue_enabled mic esi n
    then put_book esi (ob_remove (make_refnum mic L3_SELL) (ob_remove (make_refnum mic L3_BUY) (bbo_book esi n))) n
    else n in
  n <| nb_venue_enabled := <[(mic, esi) := false]> (nb_venue_enabled n) |>.
Definition update_venue_from_status mic esi (ts : VenueState) n : NBBOEquitiesStrategy B L :=
  if negb (Z.land (nb_status_policy_bitfield n) (state_bits ts) =? 0) then enable_venue mic esi n
  else disable_venue mic esi n.
Definition nbbo_on_trading_status_update mic esi (ev : TradingStatus) n : NBBOEquitiesStrategy B L :=
  match ev with
  | ST_TRADING => update_venue_from_status mic esi STATE_TRADING n
  | ST_HALT => update_venue_from_status mic esi STATE_HALTED n
  | ST_QUOTE_ONLY => update_venue_from_status mic esi STATE_QUOTATION_ONLY n
  | _ => n
  end.
Definition enable_quotes_in_state (s : VenueState) n : NBBOEquitiesStrategy B L :=
  n <| nb_status_policy_bitfield := Z.lor (nb_status_policy_bitfield n) (state_bits s) |>.
Definition disable_quotes_in_state (s : VenueState) n : NBBOEquitiesStrategy B L :=
  n <| nb_status_policy_bitfield := Z.land (nb_status_policy_bitfield n) (Z.lnot (state_bits s)) |>.

#[export] Instance nbbo_listens : BboListener (NBBOEquitiesStrategy B L) := {
  on_bbo_update := nbbo_on_bbo_update;
  on_bbo_update_both := nbbo_on_bbo_update_both
}.
End Strategy.
