(* ===== verification/NbboCorrect.v ===== *)
(** * What holds of the consolidated book

    What a venue shows is its last quote on each side; the best of the book is the
    best the enabled venues show; what derives from the strategy hears of every
    change that a quote makes.  And what goes wrong: of an update of both sides the
    ask is dropped when the bid changed the best, and a halt changes the best
    without a word. *)

From stdpp Require Import gmap.
From S2P Require Import Prelude Dbl Time L2Book L1Quotes Nbbo.
Open Scope Z_scope.

(** ** Reference numbers *)

Definition venue_index (mic : Z) : Prop := 0 <= mic < 65536.
Lemma low_bits mic : venue_index mic → Z.land mic SIDE_MASK = 0.
Proof.
  intros Hm. apply Z.bits_inj'. intros i Hi. change SIDE_MASK with (2 ^ 16).
  rewrite Z.land_spec, Z.pow2_bits_eqb, Z.bits_0 by lia. destruct (Z.eqb_spec 16 i) as [<-|]; [|by rewrite andb_false_r].
  rewrite andb_true_r, Z.testbit_false, Z.div_small by (cbn; unfold venue_index in Hm; lia). done.
Qed.
Lemma low_mask mic : venue_index mic → Z.land mic (u32 (Z.lnot SIDE_MASK)) = mic.
Proof.
  intros Hm. rewrite <- (Z.mod_small mic (2 ^ 16)) at 1 by apply Hm. rewrite <- Z.land_ones, <- Z.land_assoc by lia.
  change (Z.land (Z.ones 16) _) with (Z.ones 16). rewrite Z.land_ones by lia. by apply Z.mod_small.
Qed.
Lemma refnum_side mic side : venue_index mic → refnum_to_side (make_refnum mic side) = side.
Proof.
  intros Hm. unfold refnum_to_side, make_refnum. rewrite Z.land_lor_distr_l, low_bits, Z.lor_0_l by done.
  by destruct side.
Qed.
Lemma refnum_index mic side : venue_index mic → refnum_to_index (make_refnum mic side) = mic.
Proof.
  intros Hm. unfold refnum_to_index, make_refnum. rewrite Z.land_lor_distr_l, low_mask by done.
  destruct side; cbn; apply Z.lor_0_r.
Qed.
Lemma refnum_inj mic side mic' side' : venue_index mic → venue_index mic' →
  make_refnum mic side = make_refnum mic' side' → mic = mic' /\ side = side'.
Proof.
  intros Hm Hm' E. split.
  - by rewrite <- (refnum_index mic side), E, refnum_index.
  - by rewrite <- (refnum_side mic side), E, refnum_side.
Qed.

Section Correct.
Context `{TradingStateBits} {B L : Type} `{OrderBookOk B} `{NbboListener L}.
Implicit Types (n : NBBOEquitiesStrategy B L) (mic esi : Z) (side : L3Side) (q : L2Quote).

(** What a venue shows. *)
Definition shown mic esi side n : option (Z * Z) :=
  (λ o, (lo_price o, lo_size o)) <$> ob_orders (bbo_book esi n) !! make_refnum mic side.
Definition offered side q : option (Z * Z) :=
  if q_price q =? empty_price side then None else Some (q_price q, q_size q).
Definition price_ok (p : Z) : Prop := 0 <= p < 2 ^ 64.
Definition quote_ok side q : Prop := price_ok (q_price q) /\ (q_price q = empty_price side \/ 0 < q_size q).

(** Every order of the book is the quote of an enabled venue. *)
Record order_ok esi n (r : Z) (o : L3OrderData) : Prop := mkOrderOk {
  oo_refnum : lo_refnum o = r;
  oo_made : ∃ mic, venue_index mic /\ r = make_refnum mic (lo_side o) /\ venue_enabled mic esi n = true;
  oo_price : price_ok (lo_price o) /\ lo_price o ≠ empty_price (lo_side o)
}.
Definition nbbo_ok n : Prop := ∀ esi r o, ob_orders (bbo_book esi n) !! r = Some o → order_ok esi n r o.

Lemma venue_order n mic esi side o : nbbo_ok n → venue_index mic →
  ob_orders (bbo_book esi n) !! make_refnum mic side = Some o →
  lo_refnum o = make_refnum mic side /\ lo_side o = side /\ lo_price o ≠ empty_price side.
Proof.
  intros Hok Hm Ho. destruct (Hok _ _ _ Ho) as [Hr (m & Hm' & E & _) [_ Hp]].
  apply refnum_inj in E as [_ E]; [|done..]. by rewrite <- E in Hp.
Qed.

(** What [update_book] does to the orders. *)
Lemma orders_book_with r ts side q b : quote_ok side q → refnum_to_side r = side →
  (∀ o, ob_orders b !! r = Some o → lo_refnum o = r /\ lo_side o = side /\ lo_price o ≠ empty_price side) →
  ∃ o, lo_refnum o = r /\ lo_side o = side /\ lo_price o = q_price q /\ lo_size o = q_size q
    /\ ob_orders (book_with r ts side q b)
       = if q_price q =? empty_price side then delete r (ob_orders b) else <[r := o]> (ob_orders b).
Proof.
  intros Hq Hside Hb. unfold book_with. rewrite orders_find. destruct (ob_orders b !! r) as [p|] eqn:Hp.
  - destruct (Hb p eq_refl) as (Hr & Hs & Hne). destruct (Z.eqb_spec (q_price q) (lo_price p)) as [E|E]; cbn [negb].
    + rewrite (proj2 (Z.eqb_neq _ _)) by congruence. exists (p <| lo_size := q_size q |>). cbn. split_and!; [done..|].
      rewrite <- Hr. apply orders_modify; [by rewrite Hr|]. destruct Hq as [_ []]; [congruence|done].
    + exists (make_new_order r ts q). split_and!; [done..|]. destruct (q_price q =? empty_price side).
      * rewrite <- Hr. apply orders_erase. by rewrite Hr.
      * apply orders_replace; [by rewrite Hp|done].
  - exists (make_new_order r ts q). split_and!; [done..|]. destruct (q_price q =? empty_price side); cbn [negb].
    + by rewrite delete_id.
    + by apply orders_add.
Qed.

Lemma bbo_put_book e b esi n : bbo_book esi (put_book e b n) = if decide (e = esi) then b else bbo_book esi n.
Proof.
  unfold bbo_book, put_book. cbn. case_decide as E; [subst; by rewrite lookup_insert_eq|by rewrite lookup_insert_ne].
Qed.

Lemma update_book_shown ts mic esi side q n c n' : nbbo_ok n → venue_index mic → quote_ok side q →
  venue_enabled mic esi n = true → update_book ts mic esi side q n = (c, n') →
  nbbo_ok n' /\ nb_derived n' = nb_derived n /\ nb_venue_enabled n' = nb_venue_enabled n
  /\ c = bool_decide (best_quote_of side (bbo_book esi n') ≠ best_quote_of side (bbo_book esi n))
  /\ ∀ m e s, venue_index m →
       shown m e s n' = if decide ((m, e, s) = (mic, esi, side)) then offered side q else shown m e s n.
Proof.
  intros Hok Hm Hq Hen [= <- <-].
  destruct (orders_book_with (make_refnum mic side) ts side q (bbo_book esi n)) as (o & Ho1 & Ho2 & Ho3 & Ho4 & E);
    [done|by apply refnum_side|by intros ? Ho; apply (venue_order n mic esi side _ Hok Hm Ho)|].
  split_and!; try done.
  - intros e r o'. rewrite bbo_put_book. case_decide as Ee; [subst e|by intros Ho'; destruct (Hok _ _ _ Ho')].
    rewrite E. destruct (Z.eqb_spec (q_price q) (empty_price side)).
    + intros [_ Ho']%lookup_delete_Some. by destruct (Hok _ _ _ Ho').
    + intros [[<- <-]|[_ Ho']]%lookup_insert_Some; [|by destruct (Hok _ _ _ Ho')].
      split; [done| |rewrite Ho3, Ho2; split; [apply Hq|done]]. exists mic. by rewrite Ho2.
  - intros m e s Hm'. unfold shown. rewrite bbo_put_book. destruct (decide (esi = e)) as [<-|]; last by rewrite decide_False by congruence.
    rewrite E. unfold offered. destruct (decide (make_refnum mic side = make_refnum m s)) as [Er|Er].
    + apply refnum_inj in Er as [<- <-]; [|done..]. rewrite decide_True by done.
      destruct (q_price q =? empty_price side); [by rewrite lookup_delete_eq|]. rewrite lookup_insert_eq.
      cbn. by rewrite Ho3, Ho4.
    + rewrite decide_False by congruence.
      destruct (q_price q =? empty_price side); [by rewrite lookup_delete_ne|by rewrite lookup_insert_ne].
Qed.

(** *** The best *)

(** The quote is at the best of the prices that venues show: there are as many orders
    as venues at that price, and their size in all (32 bits). *)
Definition best_among (show : Z → option (Z * Z)) side q : Prop :=
  ∃ ms, NoDup ms
    /\ (∀ m, m ∈ ms ↔ venue_index m /\ ∃ size, show m = Some (q_price q, size))
    /\ q_num_orders q = Z.of_nat (length ms)
    /\ q_size q = u32 (list_sum_Z ((λ m, default 0 (snd <$> show m)) <$> ms))
    /\ (∀ m p size, venue_index m → show m = Some (p, size) → ms ≠ [] /\ better side (q_price q) p = q_price q)
    /\ (ms = [] → q_price q = empty_price side).
Definition best_shown esi side n q : Prop := best_among (λ m, shown m esi side n) side q.
(** There is one such quote. *)
Lemma best_unique show side q q' : best_among show side q → best_among show side q' → q = q'.
Proof.
  intros (ms & Hn & Hin & Hc & Hs & Hb & He) (ms' & Hn' & Hin' & Hc' & Hs' & Hb' & He').
  assert (q_price q = q_price q') as Hp.
  { destruct ms as [|m ms].
    - destruct ms' as [|m' ms']; [by rewrite He, He'|]. exfalso.
      destruct (proj1 (Hin' m')) as [Hm [size Hsz]]; [by left|]. by destruct (Hb m' _ _ Hm Hsz).
    - destruct (proj1 (Hin m)) as [Hm [size Hsz]]; [by left|]. destruct (Hb' m _ _ Hm Hsz) as [Hne Hb1].
      destruct ms' as [|m' ms']; [done|]. destruct (proj1 (Hin' m')) as [Hm' [size' Hsz']]; [by left|].
      destruct (Hb m' _ _ Hm' Hsz') as [_ Hb2]. destruct side; cbn in *; lia. }
  assert (ms ≡ₚ ms') as Hpm by (apply NoDup_Permutation; [done..|]; intros x; by rewrite Hin, Hin', Hp).
  destruct q, q'; cbn in *. subst. f_equal; [|by rewrite Hpm].
  f_equal. clear -Hpm. induction Hpm; cbn; lia.
Qed.

Lemma best_price_spec side l :
  Forall (λ o, price_ok (lo_price o) /\ lo_price o ≠ empty_price side) l →
  (l = [] /\ best_price side l = empty_price side)
  \/ (Exists (λ o, lo_price o = best_price side l) l
      /\ Forall (λ o, better side (best_price side l) (lo_price o) = best_price side l) l).
Proof.
  induction 1 as [|o l [Hp Hne] Hl IH]; [by left|right]. unfold price_ok in Hp. cbn [best_price foldr].
  change (foldr _ _ l) with (best_price side l). set (p := best_price side l) in *.
  destruct IH as [[-> Hb]|[He Hf]].
  - rewrite Hb. assert (better side (lo_price o) (empty_price side) = lo_price o) as ->.
    { destruct side; cbn in *; unfold EmptyBid_price, EmptyAsk_price in *; lia. }
    split; [by left|]. constructor; [|done]. destruct side; cbn; lia.
  - assert (better side (lo_price o) p = lo_price o \/ better side (lo_price o) p = p) as Hor by (destruct side; cbn; lia).
    split; [destruct Hor as [->| ->]; [by left|by right]|].
    constructor; [destruct side; cbn; lia|]. eapply Forall_impl; [exact Hf|]. intros o' Ho'. cbn in *.
    destruct side; cbn in *; lia.
Qed.

Lemma book_best n esi side :
  best_quote_of side (bbo_book esi n) = quote_of_summary (best_of side (ob_orders (bbo_book esi n))).
Proof. unfold best_quote_of. destruct side; [by rewrite orders_best_bid|by rewrite orders_best_ask]. Qed.
Lemma shown_order n esi side r o : nbbo_ok n → ob_orders (bbo_book esi n) !! r = Some o → lo_side o = side →
  venue_index (refnum_to_index r) /\ r = make_refnum (refnum_to_index r) side
  /\ shown (refnum_to_index r) esi side n = Some (lo_price o, lo_size o).
Proof.
  intros Hok Ho Hs. destruct (Hok _ _ _ Ho) as [_ (m & Hm & E & _) _]. rewrite Hs in E. subst r.
  rewrite refnum_index by done. split_and!; [done..|]. unfold shown. by rewrite Ho.
Qed.
Lemma side_orders_in side m o : o ∈ side_orders side m ↔ lo_side o = side /\ ∃ r, m !! r = Some o.
Proof.
  unfold side_orders. rewrite list_elem_of_filter, list_elem_of_fmap. split.
  - intros (? & [r o'] & -> & ?%elem_of_map_to_list). eauto.
  - intros (? & r & ?). split; [done|]. exists (r, o). split; [done|by apply elem_of_map_to_list].
Qed.
Lemma filter_fmap_snd {A C} (P : C → Prop) `{!∀ x, Decision (P x)} (l : list (A * C)) :
  filter P l.*2 = (filter (λ x, P x.2) l).*2.
Proof. induction l as [|[a c] l IH]; [done|]. rewrite fmap_cons, !filter_cons. cbn [snd]. case_decide; rewrite ?fmap_cons; by rewrite IH. Qed.

Lemma best_is_shown n esi side : nbbo_ok n → best_shown esi side n (best_quote_of side (bbo_book esi n)).
Proof.
  intros Hok. rewrite book_best. unfold best_of. cbn [quote_of_summary].
  set (m := ob_orders (bbo_book esi n)). set (l := side_orders side m). set (p := best_price side l).
  set (at_best := λ ro : Z * L3OrderData, lo_side ro.2 = side /\ lo_price ro.2 = p).
  set (top := filter at_best (map_to_list m)).
  assert (filter (λ o, lo_price o = p) l = top.*2) as ->.
  { subst l top. unfold side_orders. rewrite !filter_fmap_snd, list_filter_filter. f_equal.
    apply list_filter_iff. intros [r o]. unfold at_best. cbn. tauto. }
  assert (∀ r o, (r, o) ∈ top ↔ m !! r = Some o /\ lo_side o = side /\ lo_price o = p) as Htop.
  { intros r o. subst top. rewrite list_elem_of_filter, elem_of_map_to_list. unfold at_best. cbn. tauto. }
  assert (∀ r o, (r, o) ∈ top → venue_index (refnum_to_index r) /\ r = make_refnum (refnum_to_index r) side
    /\ shown (refnum_to_index r) esi side n = Some (p, lo_size o)) as Hin.
  { intros r o (Ho & Hs & Hp)%Htop. rewrite <- Hp. by apply shown_order. }
  assert (Forall (λ o, price_ok (lo_price o) /\ lo_price o ≠ empty_price side) l) as Hl.
  { apply Forall_forall. intros o (Hs & r & Ho)%side_orders_in. destruct (Hok _ _ _ Ho) as [_ _ Hp]. by rewrite Hs in Hp. }
  assert (∀ v p' size, venue_index v → shown v esi side n = Some (p', size) →
    ∃ o, m !! make_refnum v side = Some o /\ o ∈ l /\ p' = lo_price o) as Hout.
  { intros v p' size Hv (o & Ho & [= -> ->])%fmap_Some. exists o. split; [done|]. split; [|done].
    apply side_orders_in. split; [|by eexists]. by apply (venue_order n v esi side). }
  exists (refnum_to_index ∘ fst <$> top). cbn [q_price q_size q_num_orders]. split_and!.
  - apply NoDup_fmap_2_strong; [|apply NoDup_filter, NoDup_map_to_list].
    intros [r o] [r' o'] Hx Hy E. destruct (Hin _ _ Hx) as (_ & E1 & _), (Hin _ _ Hy) as (_ & E2 & _).
    apply Htop in Hx as [Hx _], Hy as [Hy _]. cbn in E. congruence.
  - intros v. rewrite list_elem_of_fmap. split.
    + intros ([r o] & -> & Hx). destruct (Hin _ _ Hx) as (? & _ & ?). split; [done|by eexists].
    + intros [Hv [size Hs]]. destruct (Hout _ _ _ Hv Hs) as (o & Ho & Hol & Hp).
      exists (make_refnum v side, o). split; [cbn; by rewrite refnum_index|]. apply Htop. split; [done|].
      apply side_orders_in in Hol as [? _]. done.
  - by rewrite !length_fmap.
  - do 2 f_equal. rewrite <- !list_fmap_compose. apply list_fmap_ext. intros i [r o] Hi%list_elem_of_lookup_2.
    destruct (Hin _ _ Hi) as (_ & _ & Hs). cbn. by rewrite Hs.
  - intros v p' size Hv Hs. destruct (Hout _ _ _ Hv Hs) as (o & Ho & Hol & ->).
    destruct (best_price_spec side l Hl) as [[E _]|[He Hf]]; [rewrite E in Hol; by apply not_elem_of_nil in Hol|].
    split; [|rewrite Forall_forall in Hf; by apply Hf].
    apply Exists_exists in He as (o' & Ho'l & Hp'). apply side_orders_in in Ho'l as (Hs' & r & Hr).
    assert ((r, o') ∈ top) as Hx by by apply Htop. intros E. apply fmap_nil_inv in E. rewrite E in Hx.
    by apply not_elem_of_nil in Hx.
  - intros E. apply fmap_nil_inv in E. destruct (best_price_spec side l Hl) as [[_ ?]|[He _]]; [done|].
    apply Exists_exists in He as (o' & Ho'l & Hp'). apply side_orders_in in Ho'l as (Hs' & r & Hr).
    assert ((r, o') ∈ top) as Hx by by apply Htop. rewrite E in Hx. by apply not_elem_of_nil in Hx.
Qed.

(** ** Calls *)

Inductive NbboCall :=
| Quoted (ev : BboEvent)
| StatusChanged mic esi (ev : TradingStatus)
| Allowed (s : VenueState)
| Disallowed (s : VenueState).
Definition run_call n (c : NbboCall) : NBBOEquitiesStrategy B L :=
  match c with
  | Quoted ev => deliver n ev
  | StatusChanged mic esi ev => nbbo_on_trading_status_update mic esi ev n
  | Allowed s => enable_quotes_in_state s n
  | Disallowed s => disable_quotes_in_state s n
  end.
Definition bbo_event_ok (ev : BboEvent) : Prop :=
  match ev with
  | SideQuote _ mic _ side q => venue_index mic /\ quote_ok side q
  | BothQuotes _ mic _ q => venue_index mic /\ quote_ok L3_BUY (fq_bid q) /\ quote_ok L3_SELL (fq_ask q)
  end.
Definition nbbo_call_ok (c : NbboCall) : Prop :=
  match c with
  | Quoted ev => bbo_event_ok ev
  | StatusChanged mic _ _ => venue_index mic
  | _ => True
  end.

Lemma tell_shown ts mic esi n m e s : shown m e s (tell ts mic esi n) = shown m e s n. Proof. done. Qed.
Lemma tell_ok ts mic esi n : nbbo_ok n → nbbo_ok (tell ts mic esi n).
Proof. intros Hok e r o Ho. by destruct (Hok e r o Ho). Qed.

(** A call changes what one venue shows of one stock, and nothing is shown that is
    not allowed. *)
Lemma quoted_ok n ev : nbbo_ok n → bbo_event_ok ev → nbbo_ok (deliver n ev).
Proof.
  intros Hok Hev. destruct ev as [ts mic esi side q|ts mic esi q]; cbn [deliver on_bbo_update on_bbo_update_both nbbo_listens].
  - destruct Hev as [Hm Hq]. unfold nbbo_on_bbo_update. destruct (venue_enabled mic esi n) eqn:Hen; [cbn [negb]|done].
    destruct (update_book ts mic esi side q n) as [c n1] eqn:E.
    destruct (update_book_shown _ _ _ _ _ _ _ _ Hok Hm Hq Hen E) as (Hok1 & _). case_match; [by apply tell_ok|done].
  - destruct Hev as (Hm & Hb & Ha). unfold nbbo_on_bbo_update_both.
    destruct (venue_enabled mic esi n) eqn:Hen; [cbn [negb]|done].
    destruct (update_book ts mic esi L3_BUY (fq_bid q) n) as [c n1] eqn:E.
    destruct (update_book_shown _ _ _ _ _ _ _ _ Hok Hm Hb Hen E) as (Hok1 & _ & Hv & _).
    destruct c; [by apply tell_ok|]. assert (venue_enabled mic esi n1 = true) as Hen1 by (unfold venue_enabled; by rewrite Hv).
    destruct (update_book ts mic esi L3_SELL (fq_ask q) n1) as [c n2] eqn:E2.
    destruct (update_book_shown _ _ _ _ _ _ _ _ Hok1 Hm Ha Hen1 E2) as (Hok2 & _). case_match; [by apply tell_ok|done].
Qed.
Lemma enabled_set mic esi b m e n :
  venue_enabled m e (n <| nb_venue_enabled := <[(mic, esi) := b]> (nb_venue_enabled n) |>)
  = if decide ((mic, esi) = (m, e)) then b else venue_enabled m e n.
Proof.
  unfold venue_enabled. cbn. case_decide as E; [by rewrite E, lookup_insert_eq|by rewrite lookup_insert_ne].
Qed.
Lemma enable_ok mic esi n : nbbo_ok n → nbbo_ok (enable_venue mic esi n).
Proof.
  intros Hok e r o Ho. destruct (Hok e r o Ho) as [Hr (m & Hm & E & Hen) Hp]. split; [done| |done].
  exists m. split; [done|]. split; [done|]. unfold enable_venue. rewrite enabled_set. by case_decide.
Qed.
Lemma disable_orders mic esi e n : ob_orders (bbo_book e (disable_venue mic esi n)) =
  if venue_enabled mic esi n && bool_decide (esi = e)
  then delete (make_refnum mic L3_SELL) (delete (make_refnum mic L3_BUY) (ob_orders (bbo_book esi n)))
  else ob_orders (bbo_book e n).
Proof.
  unfold disable_venue. change (bbo_book e (?a <| nb_venue_enabled := _ |>)) with (bbo_book e a).
  destruct (venue_enabled mic esi n); [|done]. cbn [andb]. rewrite bbo_put_book. case_bool_decide.
  - by rewrite decide_True, !orders_remove by done.
  - by rewrite decide_False.
Qed.
Lemma disable_ok mic esi n : venue_index mic → nbbo_ok n → nbbo_ok (disable_venue mic esi n).
Proof.
  intros Hmic Hok e r o. rewrite disable_orders. intros Ho.
  assert (ob_orders (bbo_book e n) !! r = Some o
    /\ (esi = e → venue_enabled mic esi n = true → r ≠ make_refnum mic L3_BUY /\ r ≠ make_refnum mic L3_SELL)) as [Ho' Hne].
  { destruct (venue_enabled mic esi n); cbn [andb] in Ho; [|done]. case_bool_decide; [subst e|done].
    by apply lookup_delete_Some in Ho as [? [? ?]%lookup_delete_Some]. }
  destruct (Hok e r o Ho') as [Hr (m & Hm & E & Hen) Hp]. split; [done| |done].
  exists m. split; [done|]. split; [done|]. unfold disable_venue.
  assert (∀ x, venue_enabled m e (x <| nb_venue_enabled := <[(mic, esi) := false]> (nb_venue_enabled x) |>)
    = if decide ((mic, esi) = (m, e)) then false else venue_enabled m e x) as -> by (intros; apply enabled_set).
  destruct (decide ((mic, esi) = (m, e))) as [[= -> ->]|_]; [|destruct (venue_enabled mic esi n); exact Hen].
  destruct (Hne eq_refl Hen). by destruct (lo_side o).
Qed.
Lemma call_preserves n c : nbbo_call_ok c → nbbo_ok n → nbbo_ok (run_call n c).
Proof.
  intros Hc Hok. destruct c as [ev|mic esi ev|st|st]; cbn [run_call]; [by apply quoted_ok| | |].
  - destruct ev; cbn [nbbo_on_trading_status_update]; try done; unfold update_venue_from_status;
      (case_match; [by apply enable_ok|by apply disable_ok]).
  - intros e r o Ho. by destruct (Hok e r o Ho).
  - intros e r o Ho. by destruct (Hok e r o Ho).
Qed.
Lemma new_ok d : nbbo_ok (NBBO_new d).
Proof. intros e r o. change (bbo_book e (NBBO_new d)) with (ob_new (B:=B)). by rewrite orders_new, lookup_empty. Qed.
Lemma calls_ok calls n : Forall nbbo_call_ok calls → nbbo_ok n → nbbo_ok (fold_left run_call calls n).
Proof. intros Hc. revert n. induction Hc as [|c calls Hc _ IH]; intros n Hn; [done|]. by apply IH, call_preserves. Qed.

(** *** What the venues are meant to show *)

(** The last quotes of the venues whose quotes count, and the trading states in which
    they do. *)
Record Market := mkMarket {
  mk_shows : Z → Z → L3Side → option (Z * Z);
  mk_enabled : Z → Z → bool;
  mk_policy : Z
}.
Definition Market_new : Market := mkMarket (λ _ _ _, None) (λ _ _, true) (state_bits STATE_TRADING).
Implicit Types (M : Market).
Definition mk_quote mic esi side q M : Market :=
  mkMarket (λ m e s, if decide ((m, e, s) = (mic, esi, side)) then offered side q else mk_shows M m e s)
    (mk_enabled M) (mk_policy M).
Definition mk_venue mic esi (on : bool) M : Market :=
  mkMarket (λ m e s, if decide ((m, e) = (mic, esi)) then (if on then mk_shows M m e s else None) else mk_shows M m e s)
    (λ m e, if decide ((m, e) = (mic, esi)) then on else mk_enabled M m e) (mk_policy M).
Definition mk_set_policy p M : Market := mkMarket (mk_shows M) (mk_enabled M) p.
Definition best_bid M esi q : Prop := best_among (λ m, mk_shows M m esi L3_BUY) L3_BUY q.
Definition status_state (ev : TradingStatus) : option VenueState :=
  match ev with
  | ST_TRADING => Some STATE_TRADING
  | ST_HALT => Some STATE_HALTED
  | ST_QUOTE_ONLY => Some STATE_QUOTATION_ONLY
  | _ => None
  end.
(** A quote replaces what its venue shows on its side, if the quotes of the venue count.
    Of a quote of both sides the ask is lost when the bid changes the best bid.
    A venue that leaves the states in which quotes count shows nothing. *)
Inductive market_step M : NbboCall → Market → Prop :=
| ms_ignored ts mic esi side q : mk_enabled M mic esi = false →
    market_step M (Quoted (SideQuote ts mic esi side q)) M
| ms_both_ignored ts mic esi (q : FullL2Quote) : mk_enabled M mic esi = false →
    market_step M (Quoted (BothQuotes ts mic esi q)) M
| ms_side ts mic esi side q : mk_enabled M mic esi = true →
    market_step M (Quoted (SideQuote ts mic esi side q)) (mk_quote mic esi side q M)
| ms_both ts mic esi (q : FullL2Quote) b b' : mk_enabled M mic esi = true →
    best_bid M esi b → best_bid (mk_quote mic esi L3_BUY (fq_bid q) M) esi b' →
    market_step M (Quoted (BothQuotes ts mic esi q))
      (let M' := mk_quote mic esi L3_BUY (fq_bid q) M in
       if decide (b' = b) then mk_quote mic esi L3_SELL (fq_ask q) M' else M')
| ms_status mic esi ev st : status_state ev = Some st →
    market_step M (StatusChanged mic esi ev)
      (mk_venue mic esi (negb (Z.land (mk_policy M) (state_bits st) =? 0)) M)
| ms_no_status mic esi ev : status_state ev = None → market_step M (StatusChanged mic esi ev) M
| ms_allowed st : market_step M (Allowed st) (mk_set_policy (Z.lor (mk_policy M) (state_bits st)) M)
| ms_disallowed st : market_step M (Disallowed st) (mk_set_policy (Z.land (mk_policy M) (Z.lnot (state_bits st))) M).
Inductive market_run : Market → list NbboCall → Market → Prop :=
| mr_nil M : market_run M [] M
| mr_cons M1 c M2 cs M3 : market_step M1 c M2 → market_run M2 cs M3 → market_run M1 (c :: cs) M3.

(** The books hold what the market shows. *)
Record follows n M : Prop := mkFollows {
  fo_ok : nbbo_ok n;
  fo_shows m e s : venue_index m → shown m e s n = mk_shows M m e s;
  fo_enabled m e : venue_enabled m e n = mk_enabled M m e;
  fo_policy : nb_status_policy_bitfield n = mk_policy M
}.
Lemma best_among_ext show show' side q : (∀ m, venue_index m → show m = show' m) →
  best_among show side q → best_among show' side q.
Proof.
  intros E (ms & Hn & Hin & Hc & Hs & Hb & He). exists ms. split_and!; try done.
  - intros m. rewrite Hin. split; intros [Hm [size Hsz]]; (split; [done|]); exists size; [by rewrite <- E|by rewrite E].
  - rewrite Hs. do 2 f_equal. apply list_fmap_ext. intros i m Hm%list_elem_of_lookup_2%Hin. rewrite E by tauto. done.
  - intros m p size Hm. rewrite <- E by done. by apply Hb.
Qed.
Lemma follows_best n M esi : follows n M → best_bid M esi (best_quote_of L3_BUY (bbo_book esi n)).
Proof.
  intros Hf. eapply best_among_ext; [|apply best_is_shown, Hf]. intros m Hm. by apply fo_shows.
Qed.
Lemma follows_update ts mic esi side q n M : follows n M → venue_index mic → quote_ok side q → mk_enabled M mic esi = true →
  follows (update_book ts mic esi side q n).2 (mk_quote mic esi side q M)
  /\ (update_book ts mic esi side q n).1
     = bool_decide (best_quote_of side (bbo_book esi (update_book ts mic esi side q n).2) ≠ best_quote_of side (bbo_book esi n)).
Proof.
  intros [Hok Hs He Hp] Hm Hq Hen. destruct (update_book ts mic esi side q n) as [c n'] eqn:E. cbn [fst snd].
  destruct (update_book_shown ts mic esi side q n c n' Hok Hm Hq) as (Hok' & Hd & Hv & Hc & Hs'); [by rewrite He|done|].
  split; [|done]. split; [done| | |].
  - intros m e s Hm'. rewrite Hs' by done. cbn [mk_shows mk_quote mk_venue mk_enabled]. repeat case_decide; (done || by apply Hs).
  - intros m e. unfold venue_enabled. rewrite Hv. apply He.
  - unfold update_book in E. injection E as _ <-. exact Hp.
Qed.
Lemma follows_tell ts mic esi n M : follows n M → follows (tell ts mic esi n) M.
Proof. intros [Hok Hs He Hp]. split; [by apply tell_ok|done..]. Qed.
Lemma follows_venue mic esi (on : bool) n M : follows n M → venue_index mic →
  follows (if on then enable_venue mic esi n else disable_venue mic esi n) (mk_venue mic esi on M).
Proof.
  intros [Hok Hs He Hp] Hm. destruct on.
  - split; [by apply enable_ok| | |done].
    + intros m e s Hm'. change (shown m e s (enable_venue mic esi n)) with (shown m e s n). rewrite Hs by done. cbn [mk_shows mk_quote mk_venue mk_enabled]. by case_decide.
    + intros m e. unfold enable_venue. rewrite enabled_set. cbn [mk_shows mk_quote mk_venue mk_enabled]. case_decide as E1; [by rewrite decide_True|rewrite decide_False by congruence; apply He].
  - split; [by apply disable_ok| | |by unfold disable_venue; destruct (venue_enabled mic esi n)].
    + intros m e s Hm'. unfold shown. rewrite disable_orders. cbn [mk_shows mk_quote mk_venue mk_enabled]. rewrite <- (Hs m e s Hm'). unfold shown.
      assert (∀ s', venue_enabled mic esi n = false → ob_orders (bbo_book esi n) !! make_refnum mic s' = None) as Hnone.
      { intros s' Hen. destruct (ob_orders (bbo_book esi n) !! make_refnum mic s') as [o|] eqn:Ho; [|done].
        destruct (Hok _ _ _ Ho) as [_ (m' & Hm2 & E & Hen') _]. apply refnum_inj in E as [-> _]; [congruence|done..]. }
      destruct (venue_enabled mic esi n) eqn:Hen; cbn [andb].
      * case_bool_decide as Ee; [subst e|by rewrite decide_False by congruence].
        assert (∀ s', mic ≠ m → make_refnum mic s' ≠ make_refnum m s) as Hr by (intros s' Hne [? _]%refnum_inj; done).
        destruct (decide (m = mic)) as [->|Hne]; [rewrite decide_True by done|rewrite decide_False by congruence; by rewrite !lookup_delete_ne by auto].
        destruct s; [|by rewrite lookup_delete_eq]. rewrite lookup_delete_ne; [by rewrite lookup_delete_eq|]. by intros [_ ?]%refnum_inj.
      * case_decide as Ee; [|done]. injection Ee as -> ->. by rewrite Hnone.
    + intros m e. unfold disable_venue. rewrite enabled_set. cbn [mk_shows mk_quote mk_venue mk_enabled]. case_decide as E1; [by rewrite decide_True|].
      rewrite decide_False by congruence. rewrite <- He. by destruct (venue_enabled mic esi n).
Qed.
Lemma call_follows n M c : nbbo_call_ok c → follows n M → ∃ M', market_step M c M' /\ follows (run_call n c) M'.
Proof.
  intros Hc Hf. destruct c as [[ts mic esi side q|ts mic esi q]|mic esi ev|st|st]; cbn [run_call].
  - destruct Hc as [Hm Hq]. cbn [deliver on_bbo_update nbbo_listens]. unfold nbbo_on_bbo_update. rewrite (fo_enabled _ _ Hf).
    destruct (mk_enabled M mic esi) eqn:Hen; cbn [negb]; [|exists M; split; [by constructor|done]].
    exists (mk_quote mic esi side q M). split; [by constructor|].
    destruct (follows_update ts mic esi side q n M Hf Hm Hq Hen) as [Hf' _].
    destruct (update_book ts mic esi side q n) as [[] n1]; [by apply follows_tell|done].
  - destruct Hc as (Hm & Hb & Ha). cbn [deliver on_bbo_update_both nbbo_listens]. unfold nbbo_on_bbo_update_both.
    rewrite (fo_enabled _ _ Hf). destruct (mk_enabled M mic esi) eqn:Hen; cbn [negb]; [|exists M; split; [by constructor|done]].
    destruct (follows_update ts mic esi L3_BUY (fq_bid q) n M Hf Hm Hb Hen) as [Hf1 Hc1].
    eexists. split; [eapply ms_both; [done|by apply follows_best|by apply (follows_best _ _ esi) in Hf1; exact Hf1]|].
    cbn zeta. destruct (update_book ts mic esi L3_BUY (fq_bid q) n) as [c1 n1]. cbn [fst snd] in *. subst c1.
    case_bool_decide as Hch.
    + rewrite decide_False by done. by apply follows_tell.
    + rewrite decide_True by exact Hch.
      destruct (follows_update ts mic esi L3_SELL (fq_ask q) n1 _ Hf1 Hm Ha Hen) as [Hf2 _].
      destruct (update_book ts mic esi L3_SELL (fq_ask q) n1) as [[] n2]; [by apply follows_tell|done].
  - destruct (status_state ev) as [st|] eqn:Est.
    + eexists. split; [by apply ms_status|].
      assert (nbbo_on_trading_status_update mic esi ev n = update_venue_from_status mic esi st n) as ->
        by (destruct ev; cbn in *; congruence).
      unfold update_venue_from_status. rewrite (fo_policy _ _ Hf).
      pose proof (follows_venue mic esi (negb (Z.land (mk_policy M) (state_bits st) =? 0)) n M Hf Hc) as Hv.
      by destruct (negb (Z.land (mk_policy M) (state_bits st) =? 0)).
    + exists M. split; [by constructor|]. by destruct ev.
  - eexists. split; [constructor|]. destruct Hf as [Hok Hs He Hp]. split; try done; [|cbn; by rewrite Hp].
    intros e r o Ho. by destruct (Hok e r o Ho).
  - eexists. split; [constructor|]. destruct Hf as [Hok Hs He Hp]. split; try done; [|cbn; by rewrite Hp].
    intros e r o Ho. by destruct (Hok e r o Ho).
Qed.
Lemma calls_follow calls : ∀ n M, Forall nbbo_call_ok calls → follows n M →
  ∃ M', market_run M calls M' /\ follows (fold_left run_call calls n) M'.
Proof.
  induction calls as [|c calls IH]; intros n M Hc Hf; [exists M; by split; [constructor|]|].
  apply Forall_cons in Hc as [Hc Hcs]. destruct (call_follows n M c Hc Hf) as (M1 & Hs & Hf1).
  destruct (IH _ _ Hcs Hf1) as (M' & Hr & Hf'). exists M'. split; [by econstructor|done].
Qed.
Lemma new_follows d : follows (NBBO_new d) Market_new.
Proof.
  split; [apply new_ok| |done..]. intros m e s _. unfold shown.
  change (bbo_book e (NBBO_new d)) with (ob_new (B:=B)). by rewrite orders_new, lookup_empty.
Qed.

(** C14: Whatever the venues quote and however trading in them is stopped and
    resumed, the consolidated book of a stock holds for each venue and side exactly
    the last quote that counts ([market_step]: quotes of a venue whose quotes are
    enabled, an empty one taking it away, and the ask of a quote of both sides only
    when its bid leaves the best bid as it was; nothing of a venue that left the
    trading states in which quotes count).  Its best bid and best ask are at the best
    price shown on that side, with the number of venues at that price and their size
    in all (modulo 2^32); empty when none shows any.  The quotes are of markets of the
    repository's list, at prices of 64 bits, and empty or of some size
    ([nbbo_call_ok]). *)
Theorem nbbo_is_best_of_venues d calls esi : Forall nbbo_call_ok calls →
  let n := fold_left run_call calls (NBBO_new d) in
  ∃ M, market_run Market_new calls M
    /\ (∀ mic side, venue_index mic → shown mic esi side n = mk_shows M mic esi side)
    /\ (∀ mic, venue_enabled mic esi n = mk_enabled M mic esi)
    /\ best_among (λ m, mk_shows M m esi L3_BUY) L3_BUY (fq_bid (ob_best (bbo_book esi n)))
    /\ best_among (λ m, mk_shows M m esi L3_SELL) L3_SELL (fq_ask (ob_best (bbo_book esi n))).
Proof.
  intros Hc n. destruct (calls_follow calls _ _ Hc (new_follows d)) as (M & Hr & Hf). exists M. fold n in Hf.
  split_and!; [done|intros; by apply fo_shows|intros mic; apply (fo_enabled _ _ Hf)|..].
  - exact (follows_best n M esi Hf).
  - eapply best_among_ext; [|exact (best_is_shown n esi L3_SELL (fo_ok _ _ Hf))]. intros m Hm. by apply fo_shows.
Qed.

(** *** Quotes of one side *)

Lemma side_update ts mic esi side q n : nbbo_ok n → venue_index mic → quote_ok side q → venue_enabled mic esi n = true →
  let n' := nbbo_on_bbo_update ts mic esi side q n in
  nbbo_ok n' /\ nb_venue_enabled n' = nb_venue_enabled n
  /\ (∀ m e s, venue_index m →
       shown m e s n' = if decide ((m, e, s) = (mic, esi, side)) then offered side q else shown m e s n)
  /\ nb_derived n' =
       if decide (best_quote_of side (bbo_book esi n') = best_quote_of side (bbo_book esi n)) then nb_derived n
       else on_nbbo_update ts mic esi (ob_best (bbo_book esi n')) (nb_derived n).
Proof.
  intros Hok Hm Hq Hen. cbn zeta. unfold nbbo_on_bbo_update. rewrite Hen. cbn [negb].
  destruct (update_book ts mic esi side q n) as [c n1] eqn:E.
  destruct (update_book_shown _ _ _ _ _ _ _ _ Hok Hm Hq Hen E) as (Hok1 & Hd & Hv & Hc & Hs). rewrite <- Hd.
  destruct (decide (best_quote_of side (bbo_book esi n1) = best_quote_of side (bbo_book esi n))) as [Eb|Eb].
  - rewrite bool_decide_eq_false_2 in Hc by tauto. subst c. split_and!; [done..|]. by rewrite decide_True.
  - rewrite bool_decide_eq_true_2 in Hc by tauto. subst c. split_and!; [by apply tell_ok|done|exact Hs|].
    change (bbo_book esi (tell ts mic esi n1)) with (bbo_book esi n1). by rewrite decide_False.
Qed.
(** A quote of one side, of a venue whose quotes are enabled, replaces what the
    venue shows of that stock and side (an empty quote removes it) and nothing else;
    and the derived strategy is told the best bid and ask exactly when the best of
    that side became another one. *)
Theorem side_quote_consolidated d calls ts mic esi side q : Forall nbbo_call_ok calls → venue_index mic → quote_ok side q →
  let n := fold_left run_call calls (NBBO_new d) in
  let n' := nbbo_on_bbo_update ts mic esi side q n in
  venue_enabled mic esi n = true →
  (∀ m e s, venue_index m →
     shown m e s n' = if decide ((m, e, s) = (mic, esi, side)) then offered side q else shown m e s n)
  /\ nb_derived n' =
       if decide (best_quote_of side (bbo_book esi n') = best_quote_of side (bbo_book esi n)) then nb_derived n
       else on_nbbo_update ts mic esi (ob_best (bbo_book esi n')) (nb_derived n).
Proof.
  intros Hc Hm Hq n n' Hen. assert (nbbo_ok n) as Hok by (apply calls_ok; [done|apply new_ok]).
  destruct (side_update ts mic esi side q n Hok Hm Hq Hen) as (_ & _ & ? & ?). done.
Qed.

(** *** Quotes of both sides *)

(** An update of both sides loses the ask whenever its bid changes the best:
    the venue goes on showing the ask it had. *)
Theorem both_sides_lose_ask d calls ts mic esi (q : FullL2Quote) : Forall nbbo_call_ok calls → bbo_event_ok (BothQuotes ts mic esi q) →
  let n := fold_left run_call calls (NBBO_new d) in
  let n' := nbbo_on_bbo_update_both ts mic esi q n in
  venue_enabled mic esi n = true →
  best_quote_of L3_BUY (bbo_book esi (nbbo_on_bbo_update ts mic esi L3_BUY (fq_bid q) n))
    ≠ best_quote_of L3_BUY (bbo_book esi n) →
  shown mic esi L3_BUY n' = offered L3_BUY (fq_bid q)
  /\ shown mic esi L3_SELL n' = shown mic esi L3_SELL n.
Proof.
  intros Hc (Hm & Hqb & _) n n' Hen Hne. assert (nbbo_ok n) as Hok by (apply calls_ok; [done|apply new_ok]).
  destruct (side_update ts mic esi L3_BUY (fq_bid q) n Hok Hm Hqb Hen) as (_ & _ & Hs & _).
  subst n'. unfold nbbo_on_bbo_update_both. unfold nbbo_on_bbo_update in Hs, Hne. rewrite Hen in *. cbn [negb] in *.
  destruct (update_book ts mic esi L3_BUY (fq_bid q) n) as [c n1] eqn:E.
  destruct (update_book_shown _ _ _ _ _ _ _ _ Hok Hm Hqb Hen E) as (_ & _ & _ & Hcd & Hs1).
  assert (bbo_book esi (if c then tell ts mic esi n1 else n1) = bbo_book esi n1) as Eb by by destruct c.
  rewrite Eb in Hne. rewrite bool_decide_eq_true_2 in Hcd by done. subst c. cbn [fst snd].
  split; rewrite tell_shown, Hs1 by done; [by rewrite decide_True|by rewrite decide_False].
Qed.

(** *** Halts *)

(** When trading stops at a venue, its quotes leave the consolidated book
    without a word to the derived strategy, even if they were the best; and when
    it resumes, the venue shows nothing until its next quote. *)
Theorem halt_is_silent d calls mic esi : Forall nbbo_call_ok calls → venue_index mic →
  let n := fold_left run_call calls (NBBO_new d) in
  Z.land (nb_status_policy_bitfield n) (state_bits STATE_HALTED) = 0 →
  let halted := nbbo_on_trading_status_update mic esi ST_HALT n in
  let resumed := nbbo_on_trading_status_update mic esi ST_TRADING halted in
  nb_derived halted = nb_derived n /\ nb_derived resumed = nb_derived n
  /\ (∀ side, shown mic esi side halted = None /\ shown mic esi side resumed = None)
  /\ ∀ m e side, venue_index m → (m, e) ≠ (mic, esi) → shown m e side halted = shown m e side n.
Proof.
  intros Hc Hm n Hpol halted resumed. assert (nbbo_ok n) as Hok by (apply calls_ok; [done|apply new_ok]).
  assert (halted = disable_venue mic esi n) as Eh.
  { subst halted. cbn [nbbo_on_trading_status_update]. unfold update_venue_from_status. by rewrite Hpol. }
  assert (∀ side, shown mic esi side halted = None) as Hnone.
  { intros side. rewrite Eh. unfold shown. rewrite disable_orders. destruct (venue_enabled mic esi n) eqn:Hen; cbn [andb].
    - rewrite bool_decide_eq_true_2 by done. destruct side.
      + rewrite lookup_delete_ne, lookup_delete_eq; [done|]. by intros [_ ?]%refnum_inj.
      + by rewrite lookup_delete_eq.
    - destruct (ob_orders (bbo_book esi n) !! make_refnum mic side) as [o|] eqn:Ho; [|done].
      destruct (Hok _ _ _ Ho) as [_ (m & Hm' & E & Hen') _]. apply refnum_inj in E as [-> _]; [congruence|done..]. }
  assert (nb_derived halted = nb_derived n) as Hd
    by (rewrite Eh; unfold disable_venue; by destruct (venue_enabled mic esi n)).
  assert (nb_derived resumed = nb_derived halted /\ ∀ side, shown mic esi side resumed = None) as [Hd' Hnone'].
  { subst resumed. cbn [nbbo_on_trading_status_update]. unfold update_venue_from_status. case_match.
    - split; [done|exact Hnone].
    - assert (venue_enabled mic esi halted = false) as Hf.
      { rewrite Eh. unfold disable_venue. rewrite enabled_set. by rewrite decide_True. }
      unfold disable_venue. rewrite Hf. split; [done|exact Hnone]. }
  split_and!; [done|congruence|by split|]. intros m e side Hm' Hne. rewrite Eh. unfold shown. rewrite disable_orders.
  destruct (venue_enabled mic esi n); cbn [andb]; [|done]. case_bool_decide as Ee; [subst e|done].
  assert (∀ s, make_refnum mic s ≠ make_refnum m side) as Hr by (intros s [-> _]%refnum_inj; congruence || done).
  by rewrite !lookup_delete_ne.
Qed.
End Correct.

(** ** From the books of the venues to the consolidated book *)

Section Chain.
Context `{SideBitsOk} `{TradingStateBits} {B L : Type} `{OrderBookOk B} `{NbboListener L} {V : Type} `{BookQuotes V}.
Implicit Types (n : NBBOEquitiesStrategy B L) (mic esi : Z) (side : L3Side).

Lemma one_sided_shown d evs : Forall one_sided evs → Forall bbo_event_ok evs →
  let n := fold_left deliver evs (NBBO_new d) in
  nbbo_ok n /\ nb_venue_enabled n = ∅
  /\ ∀ m e s, venue_index m → shown m e s n = offered s (quote_side s (heard evs m e)).
Proof.
  induction evs as [|ev evs IH] using rev_ind; intros Hones Hev; cbn zeta.
  - split_and!; [apply new_ok|done|]. intros m e s _. unfold shown.
    change (bbo_book e _) with (ob_new (B:=B)). rewrite orders_new, lookup_empty. by destruct s.
  - apply Forall_app in Hones as [Hones Hone], Hev as [Hev Hv].
    rewrite Forall_singleton in Hone, Hv. destruct (IH Hones Hev) as (Hok & Hen & Hs). rewrite fold_left_app. cbn [fold_left].
    set (n := fold_left deliver evs (NBBO_new d)) in *. destruct ev as [ts mic esi side q|]; [|destruct Hone].
    destruct Hv as [Hm Hq]. destruct (side_update ts mic esi side q n Hok Hm Hq) as (Hok' & Hen' & Hs' & _).
    { unfold venue_enabled. by rewrite Hen, lookup_empty. }
    cbn [deliver on_bbo_update nbbo_listens]. split_and!; [done|congruence|].
    intros m e s Hm'. rewrite Hs', heard_snoc by done.
    destruct (decide ((mic, esi) = (m, e))) as [E|Hne]; last by (rewrite decide_False by congruence; apply Hs).
    injection E as -> ->. destruct (decide (s = side)) as [->|Hne].
    + rewrite decide_True by done. by destruct side.
    + rewrite decide_False by congruence. rewrite Hs by done. by destruct side, s.
Qed.
(** C15: If the decoders report every change of a best quote, and no packet tells of
    both sides of a stock, then at the end of each packet of a venue the
    consolidated book shows, for every stock and side, the best quote of that
    venue's book.  The venues are markets of the repository's list, and what their
    books quote is empty or of some size, at a price of 64 bits ([quote_ok]). *)
Theorem consolidated_follows_books (d : L) (steps : list (gmap (Z * Z) V * FeedEvent)) books ts mic :
  let all := steps ++ [(books, EndOfData ts mic)] in
  feed_ok ∅ all → one_sided_packets [] all → venue_index mic →
  (∀ s m e b, s ∈ all → s.1 !! (m, e) = Some b →
     venue_index m /\ quote_ok L3_BUY (book_best_bid_quote b) /\ quote_ok L3_SELL (book_best_ask_quote b)) →
  ∃ st, run_feed all (L1_new (NBBO_new d)) = Ok st
    /\ ∀ esi side, shown mic esi side (l1_derived st) = offered side (quote_side side (quote_of books mic esi)).
Proof.
  intros all Hf Hone Hm Hok. destruct (feed_followed true (NBBO_new d) steps books ts mic Hf (λ _, Hone))
    as (st & evs & E & Hq & Hd & Hh & _ & Hfrom & Hside).
  exists st. split; [done|]. intros esi side. rewrite Hd, <- Hq, Hh.
  apply (one_sided_shown d evs (Hside eq_refl)); [|done]. eapply Forall_impl; [exact Hfrom|].
  intros [ts' m e s q|ts' m e q]; cbn.
  - intros (f & (s0 & b & Hin & Hb & ->) & ->). destruct (Hok s0 m e b Hin Hb) as (? & ? & ?). split; [done|]. by destruct s.
  - intros (s0 & b & Hin & Hb & ->). by destruct (Hok s0 m e b Hin Hb) as (? & ? & ?).
Qed.
End Chain.

(** ** Runs *)

(** A book that is the orders it holds. *)
#[export] Instance orders_book : OrderBook (gmap Z L3OrderData) := {
  ob_new := ∅;
  ob_find r b := b !! r;
  ob_add o b := <[lo_refnum o := o]> b;
  ob_erase o b := delete (lo_refnum o) b;
  ob_replace r o b := <[lo_refnum o := o]> (delete r b);
  ob_modify o size b := <[lo_refnum o := o <| lo_size := size |>]> b;
  ob_remove r b := delete r b;
  ob_best_bid b := best_of L3_BUY b;
  ob_best_ask b := best_of L3_SELL b
}.
#[export] Instance orders_book_ok : OrderBookOk (gmap Z L3OrderData).
Proof. apply (Build_OrderBookOk _ _ (λ b, b)); try done. intros r o b _ <-. cbn. by rewrite insert_delete_eq. Defined.
#[export] Instance bit_states : TradingStateBits := λ s,
  match s with STATE_TRADING => 1 | STATE_HALTED => 2 | STATE_QUOTATION_ONLY => 4 end.
(** A listener that keeps what it hears. *)
#[export] Instance nbbo_recorder : NbboListener (list (Z * Z * FullL2Quote)) := λ _ mic esi q evs, evs ++ [(mic, esi, q)].
Definition sample_nbbo : Type := NBBOEquitiesStrategy (gmap Z L3OrderData) (list (Z * Z * FullL2Quote)).
Definition quoted_full (p_bid s_bid p_ask s_ask : Z) : FullL2Quote := mkFull (mkQuote p_bid s_bid 1) (mkQuote p_ask s_ask 1).
(** Venue 3 bids, venue 5 bids the same and offers. *)
Definition sample_calls : list NbboCall :=
  [Quoted (SideQuote (mkTs 1 0) 3 7 L3_BUY (mkQuote 100000 300 4));
   Quoted (BothQuotes (mkTs 2 0) 5 7 (quoted_full 100000 200 101000 500));
   Quoted (SideQuote (mkTs 3 0) 5 7 L3_SELL (mkQuote 101000 500 2))].
Lemma sample_calls_ok : Forall nbbo_call_ok sample_calls.
Proof. repeat constructor; cbn; unfold venue_index, quote_ok, price_ok; cbn; lia. Qed.
Lemma nbbo_is_best_of_venues_witness :
  (∃ M, market_run Market_new sample_calls M
     /\ mk_shows M 3 7 L3_BUY = Some (100000, 300) /\ mk_shows M 5 7 L3_SELL = Some (101000, 500)
     /\ best_among (λ m, mk_shows M m 7 L3_BUY) L3_BUY (mkQuote 100000 500 2)
     /\ best_among (λ m, mk_shows M m 7 L3_SELL) L3_SELL (mkQuote 101000 500 1))
  /\ nb_derived (fold_left run_call sample_calls (NBBO_new [] : sample_nbbo))
     = [(3, 7, mkFull (mkQuote 100000 300 1) (mkQuote EmptyAsk_price 0 0));
        (5, 7, mkFull (mkQuote 100000 500 2) (mkQuote EmptyAsk_price 0 0));
        (5, 7, mkFull (mkQuote 100000 500 2) (mkQuote 101000 500 1))].
Proof.
  split; [|vm_compute; reflexivity].
  destruct (nbbo_is_best_of_venues (B:=gmap Z L3OrderData) ([] : list (Z * Z * FullL2Quote)) sample_calls 7 sample_calls_ok)
    as (M & Hr & Hs & _ & Hb & Ha).
  exists M. split_and!; [exact Hr| | |exact Hb|exact Ha]; (rewrite <- Hs by done; vm_compute; reflexivity).
Defined.
Lemma side_quote_consolidated_witness :
  let n := fold_left run_call sample_calls (NBBO_new [] : sample_nbbo) in
  let n' := nbbo_on_bbo_update (mkTs 4 0) 3 7 L3_BUY (mkQuote 0 0 0) n in
  (∀ m e s, venue_index m → shown m e s n' = if decide ((m, e, s) = (3, 7, L3_BUY)) then None else shown m e s n)
  /\ nb_derived n' = nb_derived n ++ [(3, 7, mkFull (mkQuote 100000 200 1) (mkQuote 101000 500 1))].
Proof.
  intros n n'. destruct (side_quote_consolidated ([] : list (Z * Z * FullL2Quote)) sample_calls (mkTs 4 0) 3 7 L3_BUY (mkQuote 0 0 0))
    as [Hs Hd]; [exact sample_calls_ok|done|by split; [done|left]|vm_compute; reflexivity|].
  split; [exact Hs|]. etrans; [exact Hd|]. vm_compute. reflexivity.
Defined.

(** Venue 5 lowers its quotes by a cent in one packet. *)
Lemma both_sides_lose_ask_witness :
  let n := fold_left run_call sample_calls (NBBO_new [] : sample_nbbo) in
  let n' := nbbo_on_bbo_update_both (mkTs 4 0) 5 7 (quoted_full 99900 200 100900 500) n in
  shown 5 7 L3_BUY n' = Some (99900, 200) /\ shown 5 7 L3_SELL n' = Some (101000, 500).
Proof.
  intros n n'. destruct (both_sides_lose_ask ([] : list (Z * Z * FullL2Quote)) sample_calls (mkTs 4 0) 5 7 (quoted_full 99900 200 100900 500))
    as [Hb Ha]; [exact sample_calls_ok| |vm_compute; reflexivity|vm_compute; congruence|].
  - repeat split; cbn; unfold price_ok; try (right; cbn); cbn; lia.
  - split; [exact Hb|]. etrans; [exact Ha|]. vm_compute. reflexivity.
Defined.
Lemma halt_is_silent_witness :
  let n := fold_left run_call sample_calls (NBBO_new [] : sample_nbbo) in
  let halted := nbbo_on_trading_status_update 3 7 ST_HALT n in
  let resumed := nbbo_on_trading_status_update 3 7 ST_TRADING halted in
  nb_derived resumed = nb_derived n
  /\ fq_bid (ob_best (bbo_book 7 n)) = mkQuote 100000 500 2 /\ fq_bid (ob_best (bbo_book 7 resumed)) = mkQuote 100000 200 1
  /\ shown 3 7 L3_BUY resumed = None.
Proof.
  intros n halted resumed.
  destruct (halt_is_silent ([] : list (Z * Z * FullL2Quote)) sample_calls 3 7) as (_ & Hd & Hn & _);
    [exact sample_calls_ok|done|vm_compute; reflexivity|].
  split; [exact Hd|]. split; [vm_compute; reflexivity|]. split; [vm_compute; reflexivity|]. apply (Hn L3_BUY).
Defined.

(** A packet with a bid, and then one with an offer; and one with both. *)
Definition chain_steps : list (gmap (Z * Z) FullL2Quote * FeedEvent) :=
  [({[ (3, 7) := mkFull sample_bid (fq_ask FullL2Quote_new) ]}, Added 3 7 L3_BUY);
   ({[ (3, 7) := mkFull sample_bid (fq_ask FullL2Quote_new) ]}, EndOfData (mkTs 1 0) 3);
   ({[ (3, 7) := mkFull sample_bid sample_ask ]}, Added 3 7 L3_SELL)].
Definition chain_all : list (gmap (Z * Z) FullL2Quote * FeedEvent) :=
  chain_steps ++ [({[ (3, 7) := mkFull sample_bid sample_ask ]}, EndOfData (mkTs 2 0) 3)].
Lemma chain_feed_ok : feed_ok ∅ chain_all.
Proof.
  cbn [chain_all chain_steps app feed_ok]. split_and!; try apply same_books_step; try done.
  - split; [by intros k [? ?]|]. intros m e s. destruct (decide ((m, e, s) = (3, 7, L3_BUY))) as [|Hne]; [left; naive_solver|right].
    unfold quote_of. rewrite lookup_empty. destruct (decide ((3, 7) = (m, e))) as [E|].
    + simplify_eq. destruct s; [naive_solver|]. by rewrite lookup_singleton_eq.
    + by rewrite lookup_singleton_ne.
  - apply (singleton_step _ _ _ _ L3_SELL); [by intros [] ?|done].
Qed.
Lemma consolidated_follows_books_witness :
  (∃ st, run_feed chain_all (L1_new (NBBO_new [] : sample_nbbo)) = Ok st
     /\ shown 3 7 L3_SELL (l1_derived st) = Some (101000, 200))
  /\ nb_derived ∘ l1_derived <$> run_feed chain_all (L1_new (NBBO_new [] : sample_nbbo))
     = Ok [(3, 7, mkFull sample_bid (fq_ask FullL2Quote_new)); (3, 7, mkFull sample_bid sample_ask)]
  /\ (λ st, (shown 3 7 L3_SELL (l1_derived st), unsafe_best_ask_quote 3 7 st))
     <$> run_feed [({[ (3, 7) := mkFull sample_bid sample_ask ]}, Added 3 7 L3_BUY);
                   ({[ (3, 7) := mkFull sample_bid sample_ask ]}, Added 3 7 L3_SELL);
                   ({[ (3, 7) := mkFull sample_bid sample_ask ]}, EndOfData (mkTs 1 0) 3)]
         (L1_new (NBBO_new [] : sample_nbbo))
     = Ok (None, sample_ask).
Proof.
  split; [|split; vm_compute; reflexivity].
  destruct (consolidated_follows_books ([] : list (Z * Z * FullL2Quote)) chain_steps
    {[ (3, 7) := mkFull sample_bid sample_ask ]} (mkTs 2 0) 3 chain_feed_ok) as (st & E & Hs); [|done| |].
  - cbn. split_and!; [by intros ?%not_elem_of_nil|set_solver|done].
  - intros s m e b Hin Hb.
    assert (s.1 = {[ (3, 7) := mkFull sample_bid (fq_ask FullL2Quote_new) ]} \/ s.1 = {[ (3, 7) := mkFull sample_bid sample_ask ]})
      as Hs1 by (unfold chain_steps in Hin; set_unfold in Hin; naive_solver).
    destruct Hs1 as [E|E]; rewrite E in Hb; apply lookup_singleton_Some in Hb as [[= <- <-] <-];
      (repeat split; cbn; unfold price_ok; cbn; lia || (left; done) || (right; cbn; lia)).
  - exists st. split; [exact E|]. rewrite Hs. vm_compute. reflexivity.
Defined.
