(* ===== verification/AsyncTps.v ===== *)
(** * From the consolidated book to the clients (src/ts/AsyncNBBOEquitiesStrategy.cpp,
      src/ts/AsyncTPSStrategy.cpp)

    The strategy queues changes of the consolidated best and trades; a thread of
    its own takes them off the queue and hands them to the position server.  The
    queue is a list, which a run of the thread empties. *)

From stdpp Require Import gmap.
From S2P Require Import Prelude Dbl Time L2Book L1Quotes Nbbo NbboCorrect TpsWire TpsServer TpsCorrect.
Open Scope Z_scope.

(** ** The queue *)

Inductive EventType := EVENT_UNKNOWN | EVENT_QUOTE | EVENT_TRADE.
(** The union of a quote and a trade ([TradePair]). *)
Inductive EventData := DataQuote (q : FullL2Quote) | DataTrade (price size : Z).
Record AsyncEvent := mkAsyncEvent {
  ae_timestamp : Timestamp;
  ae_mic : Z;
  ae_esi : Z;
  ae_type : EventType;
  ae_data : EventData
}.
#[export] Instance async_on_nbbo_update : NbboListener (list AsyncEvent) := λ ts mic esi q queue,
  queue ++ [mkAsyncEvent ts mic esi EVENT_QUOTE (DataQuote q)].
(** The size of a trade has 64 bits, that of the queue 32. *)
Definition async_on_trade (ts : Timestamp) (mic esi price size : Z) (queue : list AsyncEvent) : list AsyncEvent :=
  queue ++ [mkAsyncEvent ts mic esi EVENT_TRADE (DataTrade price (u32 size))].

Definition AsyncNBBOEquitiesStrategy (B : Type) : Type :=
  L1EquitiesStrategy (NBBOEquitiesStrategy B (list AsyncEvent)).

(** ** The writer *)

Section Writer.
Context {D : Type} `{Dbl D} `{ToFloat D}.

Definition write_event (s : TPSServer) (e : AsyncEvent) : res TPSServer :=
  match ae_type e, ae_data e with
  | EVENT_QUOTE, DataQuote q => on_quote_update (D:=D) (ae_timestamp e) (ae_esi e) q s
  | EVENT_TRADE, DataTrade price size => on_trade_update (D:=D) (ae_timestamp e) (ae_mic e) (ae_esi e) price size s
  | EVENT_UNKNOWN, _ => Ok s
  | _, _ => Fail (UndefinedBehaviour "member of a union that is not the last one written")
  end.

Record AsyncTPSStrategy (B : Type) := mkTps {
  tps_strategy : AsyncNBBOEquitiesStrategy B;
  tps_server : TPSServer
}.
Arguments mkTps {B}.
Arguments tps_strategy {B}.
Arguments tps_server {B}.
Context {B : Type}.
Implicit Types (t : AsyncTPSStrategy B).
Definition tps_queue t : list AsyncEvent := nb_derived (l1_derived (tps_strategy t)).
Definition set_queue (queue : list AsyncEvent) t : AsyncTPSStrategy B :=
  let l1 := tps_strategy t in
  let n := l1_derived l1 in
  mkTps (mkL1 (l1_updated_stocks l1) (l1_quotes l1)
           (mkNbbo (nb_books n) (nb_venue_enabled n) (nb_status_policy_bitfield n) queue)) (tps_server t).
Definition write_pending_events t : res (AsyncTPSStrategy B) :=
  s ← foldM write_event (tps_server t) (tps_queue t);
  Ok (mkTps (tps_strategy (set_queue [] t)) s).
Definition tps_on_trade (ts : Timestamp) (mic esi price size : Z) t : AsyncTPSStrategy B :=
  set_queue (async_on_trade ts mic esi price size (tps_queue t)) t.

(** ** What the clients get *)

(** The bytes an event becomes for the clients that subscribed. *)
Definition event_writes (s : TPSServer) (e : AsyncEvent) : list (Z * list Z) :=
  match ae_data e with
  | DataQuote q => quote_for (D:=D) (ae_timestamp e) (ae_esi e) q s <$> clients_of (ae_esi e) s
  | DataTrade price size => trade_for (D:=D) (ae_timestamp e) (ae_mic e) (ae_esi e) price size s <$> clients_of (ae_esi e) s
  end.
(** An event as the strategy makes it. *)
Definition made (e : AsyncEvent) : Prop :=
  match ae_type e, ae_data e with EVENT_QUOTE, DataQuote _ | EVENT_TRADE, DataTrade _ _ => True | _, _ => False end.

Lemma wire_tps_ok s w : tps_ok s → tps_ok (s <| tps_wire := w |>).
Proof. by destruct 1. Qed.
Lemma event_written s e : tps_ok s → tps_answers s = [] → subscribers_open (ae_esi e) s → made e →
  write_event s e = Ok (s <| tps_wire := tps_wire s ++ event_writes s e |>).
Proof.
  intros Hok Ha Hop Hm. unfold write_event, event_writes, made in *. destruct e as [ts mic esi [] []]; cbn in *; try done.
  - by apply quote_written.
  - by apply trade_written.
Qed.
Lemma events_written queue : ∀ s, tps_ok s → tps_answers s = [] →
  Forall (λ e, made e /\ subscribers_open (ae_esi e) s) queue →
  foldM write_event s queue = Ok (s <| tps_wire := tps_wire s ++ mjoin (event_writes s <$> queue) |>).
Proof.
  induction queue as [|e queue IH]; intros s Hok Ha Hq; cbn [foldM].
  { cbn. rewrite app_nil_r. by destruct s. }
  apply Forall_cons in Hq as [[Hm Hop] Hq]. rewrite event_written by done. cbn [mbind res_bind].
  set (s1 := s <| tps_wire := tps_wire s ++ event_writes s e |>).
  rewrite (IH s1); [|by apply wire_tps_ok|done|exact Hq].
  change (event_writes s1) with (event_writes s). unfold s1. f_equal. destruct s. cbn. by rewrite <- app_assoc.
Qed.

(** C16: When the thread has run, the queue is empty, and what was in it, quotes and
    trades alike, has been written in the order it was queued: each event once to
    each client subscribed to the stock, and to no others, while the sockets take
    what they are given. *)
Theorem pending_events_written t : tps_ok (tps_server t) → tps_answers (tps_server t) = [] →
  Forall (λ e, made e /\ subscribers_open (ae_esi e) (tps_server t)) (tps_queue t) →
  ∃ t', write_pending_events t = Ok t' /\ tps_queue t' = []
    /\ tps_server t' = (tps_server t) <| tps_wire := tps_wire (tps_server t) ++ mjoin (event_writes (tps_server t) <$> tps_queue t) |>
    /\ ∀ cid c e, get_client cid (tps_server t) = Ok c → 0 <= cs_fd c →
         (cid ∈ clients_of (ae_esi e) (tps_server t) ↔ ae_esi e ∈ cs_subscribed_esi c).
Proof.
  intros Hok Ha Hq. unfold write_pending_events. rewrite events_written by done. cbn [mbind res_bind].
  eexists. split; [reflexivity|]. split; [done|]. split; [done|].
  intros cid c e Hc Hf. split; [|by eapply ok_open]. intros Hin.
  destruct (ok_listed _ Hok (ae_esi e) cid Hin) as (c' & Hc' & Hin'). rewrite Hc in Hc'. by injection Hc' as ->.
Qed.
End Writer.
Arguments mkTps {B}.
Arguments tps_strategy {B}.
Arguments tps_server {B}.

(** A bid, an offer and a trade of stock 1, to which a client has subscribed. *)
Definition demo_steps : list (gmap (Z * Z) FullL2Quote * FeedEvent) :=
  [({[ (3, 1) := mkFull sample_bid (fq_ask FullL2Quote_new) ]}, Added 3 1 L3_BUY);
   ({[ (3, 1) := mkFull sample_bid (fq_ask FullL2Quote_new) ]}, EndOfData (mkTs 1414780200 0) 3);
   ({[ (3, 1) := mkFull sample_bid sample_ask ]}, Added 3 1 L3_SELL);
   ({[ (3, 1) := mkFull sample_bid sample_ask ]}, EndOfData (mkTs 1414780201 0) 3)].
Definition demo_tps : AsyncTPSStrategy (gmap Z L3OrderData) :=
  match run_feed demo_steps (L1_new (NBBO_new [])) with
  | Ok st => tps_on_trade (mkTs 1414780202 0) 3 1 101000 100 (mkTps st demo_subscribed)
  | Fail _ => mkTps (L1_new (NBBO_new [])) demo_subscribed
  end.
Lemma pending_events_written_witness :
  ∃ t', write_pending_events (D:=SpecFloat.spec_float) demo_tps = Ok t' /\ tps_queue t' = []
    /\ (λ w, (w.1, length w.2)) <$> tps_wire (tps_server t') = [(5, 58%nat); (5, 58%nat); (5, 50%nat)].
Proof.
  assert (tps_server demo_tps = demo_subscribed) as Es by (vm_compute; reflexivity).
  assert (tps_queue demo_tps =
    [mkAsyncEvent (mkTs 1414780200 0) 3 1 EVENT_QUOTE (DataQuote (mkFull sample_bid (fq_ask FullL2Quote_new)));
     mkAsyncEvent (mkTs 1414780201 0) 3 1 EVENT_QUOTE (DataQuote (mkFull sample_bid sample_ask));
     mkAsyncEvent (mkTs 1414780202 0) 3 1 EVENT_TRADE (DataTrade 101000 100)]) as Eq by (vm_compute; reflexivity).
  destruct (pending_events_written (D:=SpecFloat.spec_float) demo_tps) as (t' & E & Hq & Hs & _).
  - rewrite Es. apply demo_subscribed_ok.
  - rewrite Es. vm_compute. reflexivity.
  - assert (subscribers_open 1 demo_subscribed) as Hop.
    { intros cid c Hin Hc. assert (clients_of 1 demo_subscribed = [0]) as Hcl by (vm_compute; reflexivity).
      rewrite Hcl in Hin. apply list_elem_of_singleton in Hin as ->. revert Hc. vm_compute. intros [= <-]. discriminate. }
    rewrite Eq, Es. repeat constructor; exact Hop.
  - exists t'. split; [exact E|]. split; [exact Hq|]. rewrite Hs, Es, Eq. vm_compute. reflexivity.
Defined.
