(* ===== verification/Poller.v ===== *)
(** * The event poller and its listening thread (src/net/EventPoller.cpp,
      src/net/EpollSet.cpp, src/net/TCPSocket.cpp, src/net/ConnectionListenerThread.cpp)

    Timers and sockets are watched with epoll; each has an [EventData] on the heap,
    whose address epoll hands back.  Descriptors that are open are a set.  What the
    calls of the system answer comes with the call; what the listeners do is the
    class [PollListener], on a state of their own.  A listener and its user data
    are numbers. *)

From stdpp Require Import gmap.
From S2P Require Import Prelude Time.
Open Scope Z_scope.

(** ** Events *)

Inductive PollType := POLL_UNKNOWN | POLL_SIGNAL_FD | POLL_EVENT_FD | POLL_TIMER_FD | POLL_SOCKET_FD.
#[export] Instance PollType_eq_dec : EqDecision PollType.
Proof. solve_decision. Defined.
Record PollData := mkPollData {
  pd_type : PollType;
  pd_managed : bool;
  pd_fd : Z;
  pd_listener : Z;
  pd_userdata : Z;
  pd_last_event_ts : Timestamp;
  pd_errcount : Z
}.
#[export] Instance PollData_rebuild : Rebuild PollData := λ d,
  mkPollData (pd_type d) (pd_managed d) (pd_fd d) (pd_listener d) (pd_userdata d) (pd_last_event_ts d) (pd_errcount d).

(** What [recv] answers, and the number or the struct that [read] takes from another
    descriptor (none when it fails). *)
Inductive RecvAnswer := Recvd (buf : list Z) | PeerClosed | RecvFailed.
Record PollEvent := mkPollEvent {
  pe_ptr : Z;
  pe_now : Timestamp;
  pe_epollin : bool;
  pe_recv : RecvAnswer;
  pe_read : option Z
}.

Class PollListener (L : Type) := {
  poll_on_signal : Timestamp → Z → Z → Z → L → res L;
  poll_on_event : Timestamp → Z → Z → Z → L → res L;
  poll_on_timer : Timestamp → Z → Z → Z → L → res L;
  poll_on_recv : Timestamp → Z → Z → list Z → L → res L;
  poll_on_peer_disconnect : Timestamp → Z → Z → L → res L
}.

(** [ep_set]: the descriptors epoll watches, with the pointers it hands back. *)
Record EpollEventPoller (L : Type) := mkPoller {
  ep_heap : gmap Z PollData;
  ep_set : gmap Z Z;
  ep_listeners : list (option Z);
  ep_open : gset Z;
  ep_next : Z;
  ep_errcount : Z;
  ep_rest : L
}.
Arguments mkPoller {L}.
Arguments ep_heap {L}.
Arguments ep_set {L}.
Arguments ep_listeners {L}.
Arguments ep_open {L}.
Arguments ep_next {L}.
Arguments ep_errcount {L}.
Arguments ep_rest {L}.

Section Poller.
Context {L : Type} `{PollListener L}.
#[export] Instance Poller_rebuild : Rebuild (EpollEventPoller L) := λ p,
  mkPoller (ep_heap p) (ep_set p) (ep_listeners p) (ep_open p) (ep_next p) (ep_errcount p) (ep_rest p).
Implicit Types (p : EpollEventPoller L) (fd a : Z).

Definition Poller_new (rest : L) : EpollEventPoller L := mkPoller ∅ ∅ [] ∅ 1 0 rest.
Definition poll_data a p : res PollData :=
  match ep_heap p !! a with Some d => Ok d | None => Fail (UndefinedBehaviour "pointer to no event") end.
Definition put_data a (d : PollData) p : EpollEventPoller L := p <| ep_heap := <[a := d]> (ep_heap p) |>.

(** *** EpollSet *)

(** [epoll_ctl] refuses a descriptor that is watched already, and may fail. *)
Definition eps_add fd a (sys_ok : bool) p : res (bool * EpollEventPoller L) :=
  assert "sock > 0" (0 <? fd) ;;
  match ep_set p !! fd with
  | None => Ok (if sys_ok then (true, p <| ep_set := <[fd := a]> (ep_set p) |>) else (false, p))
  | Some _ => Ok (false, p)
  end.
Definition eps_remove fd p : res (bool * EpollEventPoller L) :=
  assert "sock > 0" (0 <? fd) ;;
  match ep_set p !! fd with
  | Some _ => Ok (true, p <| ep_set := delete fd (ep_set p) |>)
  | None => Ok (false, p)
  end.

(** *** Adding and deleting *)

(** [::close]: epoll forgets a descriptor that is closed. *)
Definition close_fd fd p : EpollEventPoller L :=
  p <| ep_open := ep_open p ∖ {[fd]} |> <| ep_set := delete fd (ep_set p) |>.
Definition destruct_data (d : PollData) p : EpollEventPoller L :=
  if pd_managed d && bool_decide (pd_type d ≠ POLL_UNKNOWN) && (0 <=? pd_fd d) then close_fd (pd_fd d) p else p.
(** [delete ed]. *)
Definition delete_data a p : res (EpollEventPoller L) :=
  d ← poll_data a p;
  let p := destruct_data d p in
  Ok (p <| ep_heap := delete a (ep_heap p) |>).
Definition new_data (d : PollData) p : Z * EpollEventPoller L :=
  (ep_next p, (put_data (ep_next p) d p) <| ep_next := ep_next p + 1 |>).
Definition add_data (d : PollData) (sys_ok : bool) p : res (bool * EpollEventPoller L) :=
  let '(a, p) := new_data d p in
  if 0 <=? pd_fd d then
    '(ok, p) ← eps_add (pd_fd d) a sys_ok p;
    if ok : bool then Ok (true, p <| ep_listeners := ep_listeners p ++ [Some a] |>)
    else p ← delete_data a p; Ok (false, p)
  else p ← delete_data a p; Ok (false, p).
(** [timer_fd]: what [timerfd_create] answers, -1 when it fails. *)
Definition add_timer (listener userdata timer_fd : Z) (sys_ok : bool) p : res (bool * EpollEventPoller L) :=
  let p := if 0 <=? timer_fd then p <| ep_open := ep_open p ∪ {[timer_fd]} |> else p in
  add_data (mkPollData POLL_TIMER_FD true timer_fd listener userdata ts_zero 0) sys_ok p.
Definition add_socket (listener userdata fd : Z) (managed : bool) (sys_ok : bool) p : res (bool * EpollEventPoller L) :=
  add_data (mkPollData POLL_SOCKET_FD managed fd listener userdata ts_zero 0) sys_ok p.

(** *** Running *)

Definition poll_on_error a p : res (EpollEventPoller L) :=
  d ← poll_data a p;
  Ok ((put_data a (d <| pd_errcount := u64 (pd_errcount d + 1) |>) p) <| ep_errcount := u64 (ep_errcount p + 1) |>).
Definition call_listener (f : L → res L) p : res (EpollEventPoller L) :=
  rest ← f (ep_rest p); Ok (p <| ep_rest := rest |>).
(** The first place that holds the pointer is set to null. *)
Fixpoint null_listener a (v : list (option Z)) : list (option Z) :=
  match v with
  | [] => []
  | x :: v => if decide (x = Some a) then None :: v else x :: null_listener a v
  end.
Definition handle_poll_event p (ev : PollEvent) : res (EpollEventPoller L) :=
  let a := pe_ptr ev in
  d ← poll_data a p;
  let d := d <| pd_last_event_ts := pe_now ev |> in
  let p := put_data a d p in
  let reads := λ f : Timestamp → Z → Z → Z → L → res L,
    match pe_read ev with
    | Some val => call_listener (f (pe_now ev) (pd_listener d) (pd_userdata d) val) p
    | None => poll_on_error a p
    end in
  match pd_type d with
  | POLL_SIGNAL_FD => reads poll_on_signal
  | POLL_EVENT_FD => reads poll_on_event
  | POLL_TIMER_FD => reads poll_on_timer
  | POLL_SOCKET_FD =>
      if pe_epollin ev then
        match pe_recv ev with
        | Recvd buf => call_listener (poll_on_recv (pe_now ev) (pd_listener d) (pd_userdata d) buf) p
        | PeerClosed =>
            p ← call_listener (poll_on_peer_disconnect (pe_now ev) (pd_listener d) (pd_userdata d)) p;
            '(_, p) ← eps_remove (pd_fd d) p;
            Ok (p <| ep_listeners := null_listener a (ep_listeners p) |>)
        | RecvFailed => poll_on_error a p
        end
      else Ok p
  | POLL_UNKNOWN => Ok p
  end.
(** [waited]: what [epoll_wait] answers, none for an error. *)
Definition poller_run (waited : option (list PollEvent)) p : res (bool * EpollEventPoller L) :=
  match waited with
  | None => Ok (false, p)
  | Some evs => p ← foldM handle_poll_event p evs; Ok (true, p)
  end.
(** Whether the thread goes on. *)
Definition poller_process (waited : option (list PollEvent)) p : res (bool * EpollEventPoller L) := poller_run waited p.

(** *** The destructor *)

(** The second loop finds only null pointers. *)
Definition destroy_listener p (ed : option Z) : res (EpollEventPoller L) :=
  match ed with
  | None => Fail (UndefinedBehaviour "null pointer dereferenced")
  | Some a =>
      d ← poll_data a p;
      '(removed, p) ← eps_remove (pd_fd d) p;
      if removed : bool then delete_data a p else Ok p
  end.
Definition destroy_poller p : res (EpollEventPoller L) :=
  p ← foldM destroy_listener p (ep_listeners p);
  Ok (p <| ep_listeners := (λ _, None) <$> ep_listeners p |>).
End Poller.

(** ** Sockets that listen *)

(** What the system answers when a listening socket is made: the descriptor of
    [socket], and whether [setsockopt], [bind] and [listen] succeed. *)
Record ListenAnswers := mkListen {
  la_socket : Z;
  la_no_delay : bool;
  la_bind : bool;
  la_listen : bool
}.
(** [TCPSocket(int)]. *)
Definition TCPSocket_of (socket : Z) (no_delay : bool) : res Z :=
  assert "socket >= 0" (0 <=? socket) ;;
  if no_delay then Ok socket else Fail (Thrown "Failed set_no_delay").
(** [TCPSocket(bool)]. *)
Definition TCPSocket_new (socket : Z) (no_delay : bool) : res Z :=
  if socket <? 0 then Fail (Thrown "Failed socket call")
  else if no_delay then Ok socket else Fail (Thrown "Failed set_no_delay").
(** The socket to hand back when there is none is built from -1. *)
Definition create_listening_socket (la : ListenAnswers) : res Z :=
  socket ← TCPSocket_new (la_socket la) (la_no_delay la);
  if negb (la_bind la) then TCPSocket_of (-1) false
  else if negb (la_listen la) then TCPSocket_of (-1) false
  else Ok socket.

Record ConnectionListenerThread (L : Type) := mkListenerThread {
  cl_poller : EpollEventPoller L;
  cl_socket_listener : Z;
  cl_listen_fd : option Z;
  cl_listening : bool
}.
Arguments mkListenerThread {L}.
Arguments cl_poller {L}.
Arguments cl_socket_listener {L}.
Arguments cl_listen_fd {L}.
Arguments cl_listening {L}.

(** What the system answers in one round of the thread: to the wait for new
    connections (none: an error; whether there is one), to [accept] and to the
    watching of the new socket, and to the wait for data. *)
Record RoundAnswers := mkRound {
  ra_waited : option bool;
  ra_accepted : Z;
  ra_watched : bool;
  ra_events : option (list PollEvent)
}.

Section Listener.
Context {L : Type} `{PollListener L}.
(** [m_data_generator]: the user data of a new connection. *)
Context (data_generator : option (Z → L → res (Z * L))).
Implicit Types (t : ConnectionListenerThread L).
#[export] Instance ListenerThread_rebuild : Rebuild (ConnectionListenerThread L) := λ t,
  mkListenerThread (cl_poller t) (cl_socket_listener t) (cl_listen_fd t) (cl_listening t).

Definition add_listener_on_port (la : ListenAnswers) (sys_ok : bool) t : res (bool * ConnectionListenerThread L) :=
  fd ← create_listening_socket la;
  let t := t <| cl_listen_fd := Some fd |> in
  assert "sock > 0" (0 <? fd) ;;
  Ok (if sys_ok then (true, t <| cl_listening := true |>) else (false, t)).
Definition on_new_connection (accepted : Z) (watched : bool) t : res (ConnectionListenerThread L) :=
  if 0 <=? accepted then
    let p := (cl_poller t) <| ep_open := ep_open (cl_poller t) ∪ {[accepted]} |> in
    '(user_data, p) ← match data_generator with
                      | Some f => '(u, rest) ← f accepted (ep_rest p); Ok (u, p <| ep_rest := rest |>)
                      | None => Ok (0, p)
                      end;
    '(_, p) ← add_socket (cl_socket_listener t) user_data accepted true watched p;
    Ok (t <| cl_poller := p |>)
  else Ok t.
(** Whether the thread goes on. *)
Definition check_for_new_connections (r : RoundAnswers) t : res (bool * ConnectionListenerThread L) :=
  match ra_waited r with
  | None => Ok (false, t)
  | Some ready =>
      if ready then t ← on_new_connection (ra_accepted r) (ra_watched r) t; Ok (true, t) else Ok (true, t)
  end.
Definition listener_process (r : RoundAnswers) t : res (bool * ConnectionListenerThread L) :=
  '(go_on, t) ← check_for_new_connections r t;
  if go_on : bool then
    '(go_on, p) ← poller_process (ra_events r) (cl_poller t);
    Ok (go_on, t <| cl_poller := p |>)
  else Ok (false, t).
End Listener.
