(* ===== verification/PollerCorrect.v ===== *)
(** * What holds of the event poller

    As long as the listeners keep their promise, no round of the listening thread
    fails; but a connection that the peer closes stays open for good, and a poller
    that saw one cannot be destroyed. *)

From stdpp Require Import gmap.
From S2P Require Import Prelude Time Codec Poller.
Open Scope Z_scope.

(** What a listener promises: calls keep its invariant, [served] user data included.
    Nothing ever takes user data out of service. *)
Class PollListenerOk (L : Type) `{PollListener L} := {
  pl_ok : L → Prop;
  pl_served : L → Z → Prop;
  pl_step (s s' : L) : Prop := pl_ok s' /\ ∀ u, pl_served s u → pl_served s' u;
  pl_timer ts l u val s : pl_ok s → pl_served s u → ∃ s', poll_on_timer ts l u val s = Ok s' /\ pl_step s s';
  pl_recv ts l u buf s : pl_ok s → pl_served s u → Forall is_byte buf →
    ∃ s', poll_on_recv ts l u buf s = Ok s' /\ pl_step s s';
  pl_peer_disconnect ts l u s : pl_ok s → pl_served s u →
    ∃ s', poll_on_peer_disconnect ts l u s = Ok s' /\ pl_step s s'
}.

Section Correct.
Context {L : Type} `{PollListenerOk L}.
Implicit Types (p : EpollEventPoller L) (fd a : Z).

(** What is watched is listed, and what is listed is watched. *)
Record poller_ok p : Prop := mkPollerOk {
  pk_fresh a d : ep_heap p !! a = Some d → a < ep_next p;
  pk_type a d : ep_heap p !! a = Some d → pd_type d = POLL_TIMER_FD \/ pd_type d = POLL_SOCKET_FD;
  pk_listed a : Some a ∈ ep_listeners p → ∃ d, ep_heap p !! a = Some d /\ ep_set p !! pd_fd d = Some a;
  pk_watched fd a : ep_set p !! fd = Some a →
    0 < fd /\ Some a ∈ ep_listeners p /\ ∃ d, ep_heap p !! a = Some d /\ pd_fd d = fd /\ pl_served (ep_rest p) (pd_userdata d);
  pk_once i j a : ep_listeners p !! i = Some (Some a) → ep_listeners p !! j = Some (Some a) → i = j;
  pk_rest : pl_ok (ep_rest p)
}.
(** An event that epoll can report. *)
Definition event_possible p (ev : PollEvent) : Prop :=
  (∃ fd, ep_set p !! fd = Some (pe_ptr ev)) /\ match pe_recv ev with Recvd buf => Forall is_byte buf | _ => True end.

(** A descriptor nothing watches any more. *)
Record lost fd p : Prop := mkLost {
  lo_open : fd ∈ ep_open p;
  lo_unwatched : ep_set p !! fd = None;
  lo_null : None ∈ ep_listeners p
}.

Lemma null_sub a v i b : null_listener a v !! i = Some (Some b) → v !! i = Some (Some b).
Proof.
  revert i. induction v as [|x v IH]; intros i; cbn [null_listener]; [done|].
  case_decide; destruct i as [|i]; cbn; [done|done|done|apply IH].
Qed.
Lemma null_elem a y v : y ∈ v → y ≠ Some a → y ∈ null_listener a v.
Proof.
  intros Hy Hne. induction v as [|x v IH]; [done|]. cbn [null_listener].
  apply elem_of_cons in Hy as [->|Hy]; case_decide; try by constructor. constructor. by apply IH.
Qed.
Lemma null_makes_none a v : Some a ∈ v → None ∈ null_listener a v.
Proof.
  intros Hy. induction v as [|x v IH]; [by apply elem_of_nil in Hy|]. cbn [null_listener].
  apply elem_of_cons in Hy as [<-|Hy]; case_decide; try by constructor; try done. constructor. by apply IH.
Qed.
Lemma null_gone a v : (∀ i j, v !! i = Some (Some a) → v !! j = Some (Some a) → i = j) → Some a ∉ null_listener a v.
Proof.
  induction v as [|x v IH]; intros Honce; cbn [null_listener]; [by intros ?%elem_of_nil|].
  case_decide as E; intros [Hx|Hx]%elem_of_cons; try congruence.
  - subst x. apply list_elem_of_lookup_1 in Hx as [j Hj]. by specialize (Honce O (S j) eq_refl Hj).
  - apply IH; [|done]. intros i j Hi Hj. specialize (Honce (S i) (S j) Hi Hj). lia.
Qed.

(** *** Events *)

(** Changes of what the event and the listener keep. *)
Lemma touch_ok a d d' rest errs p : poller_ok p → ep_heap p !! a = Some d →
  pd_type d' = pd_type d → pd_fd d' = pd_fd d → pd_userdata d' = pd_userdata d →
  pl_step (ep_rest p) rest →
  poller_ok (mkPoller (<[a := d']> (ep_heap p)) (ep_set p) (ep_listeners p) (ep_open p) (ep_next p) errs rest).
Proof.
  intros [Hf Ht Hl Hw Ho Hr] Ha E1 E2 E3 [Hr' Hu]. split; cbn [ep_heap ep_set ep_listeners ep_next ep_rest]; try done.
  - intros b e [[<- _]|[_ Hb]]%lookup_insert_Some; [by eapply Hf|by eapply Hf].
  - intros b e [[<- <-]|[_ Hb]]%lookup_insert_Some; [rewrite E1; by eapply Ht|by eapply Ht].
  - intros b (e & He & Hs)%Hl. destruct (decide (b = a)) as [->|Hne].
    + exists d'. rewrite lookup_insert_eq. simplify_eq. by rewrite E2.
    + exists e. by rewrite lookup_insert_ne.
  - intros fd b (H1 & H2 & e & He & Hfd & Hud)%Hw. split; [done|]. split; [done|].
    destruct (decide (b = a)) as [->|Hne].
    + exists d'. rewrite lookup_insert_eq. simplify_eq. rewrite E2, E3. auto.
    + exists e. rewrite lookup_insert_ne by done. auto.
Qed.
(** What the listener does by itself. *)
Lemma rest_ok rest p : poller_ok p → pl_step (ep_rest p) rest → poller_ok (p <| ep_rest := rest |>).
Proof.
  intros [Hf Ht Hl Hw Ho Hr] Hst. split; cbn; try done; [|apply Hst].
  intros f b Hs. destruct (Hw f b Hs) as (? & ? & d & ? & ? & Hd). split; [done|]. split; [done|]. exists d.
  split; [done|]. split; [done|]. by apply Hst.
Qed.
Lemma unwatch_ok a d p : poller_ok p → ep_heap p !! a = Some d → ep_set p !! pd_fd d = Some a →
  poller_ok (p <| ep_set := delete (pd_fd d) (ep_set p) |> <| ep_listeners := null_listener a (ep_listeners p) |>).
Proof.
  intros [Hf Ht Hl Hw Ho Hr] Ha Hs. pose proof (null_gone a (ep_listeners p) (λ i j, Ho i j a)) as N1.
  split; cbn; try done.
  - intros b Hb. destruct (decide (b = a)) as [->|Hne]; [done|].
    apply list_elem_of_lookup_1 in Hb as [i Hi%null_sub]. destruct (Hl b (list_elem_of_lookup_2 _ _ _ Hi)) as (e & He & Hes). exists e. split; [done|]. rewrite lookup_delete_ne; [done|]. congruence.
  - intros fd b [Hne Hfb]%lookup_delete_Some. destruct (Hw fd b Hfb) as (H1 & H2 & e & He & Hfd & Hud).
    split; [done|]. split; [|by exists e]. apply null_elem; [done|]. intros [= ->]. by simplify_eq.
  - intros i j b Hi%null_sub Hj%null_sub. by eapply Ho.
Qed.

(** The event is of a connection that its peer closed. *)
Definition hangup p (ev : PollEvent) : Prop :=
  pe_recv ev = PeerClosed /\ pe_epollin ev = true
  /\ ∃ d, ep_heap p !! pe_ptr ev = Some d /\ pd_type d = POLL_SOCKET_FD.
(** Events keep what is open, and what they are of; at most its watching ends. *)
Record event_effect p (ev : PollEvent) p' : Prop := mkEffect {
  ee_ok : poller_ok p';
  ee_open : ep_open p' = ep_open p;
  ee_heap a d : ep_heap p !! a = Some d →
    ∃ d', ep_heap p' !! a = Some d' /\ pd_type d' = pd_type d /\ pd_fd d' = pd_fd d;
  ee_set fd a : ep_set p' !! fd = Some a ↔ ep_set p !! fd = Some a /\ ¬ (hangup p ev /\ a = pe_ptr ev);
  ee_null : None ∈ ep_listeners p \/ hangup p ev → None ∈ ep_listeners p';
  ee_served u : pl_served (ep_rest p) u → pl_served (ep_rest p') u
}.
(** Events that only change what they and the listener keep. *)
Lemma touch_effect a d d' rest errs ev p : poller_ok p → ep_heap p !! a = Some d → ¬ hangup p ev →
  pd_type d' = pd_type d → pd_fd d' = pd_fd d → pd_userdata d' = pd_userdata d →
  pl_step (ep_rest p) rest →
  event_effect p ev (mkPoller (<[a := d']> (ep_heap p)) (ep_set p) (ep_listeners p) (ep_open p) (ep_next p) errs rest).
Proof.
  intros Hok Ha Hno E1 E2 E3 Hst. split; cbn [ep_heap ep_set ep_listeners ep_open ep_rest].
  - by eapply touch_ok.
  - done.
  - intros b e Hb. destruct (decide (b = a)) as [->|Hne].
    + exists d'. rewrite lookup_insert_eq. by simplify_eq.
    + exists e. by rewrite lookup_insert_ne.
  - naive_solver.
  - tauto.
  - apply Hst.
Qed.
Lemma step_refl s : pl_ok s → pl_step s s. Proof. by split. Qed.
Lemma put_put_data a d d' p : put_data a d' (put_data a d p) = put_data a d' p.
Proof. unfold put_data. destruct p. cbn. by rewrite insert_insert_eq. Qed.
Lemma poll_event_ok p ev : poller_ok p → event_possible p ev → ∃ p', handle_poll_event p ev = Ok p' /\ event_effect p ev p'.
Proof.
  intros Hok [[fd Hfd] Hbytes]. pose proof (pk_rest _ Hok) as Hr.
  destruct (pk_watched _ Hok fd (pe_ptr ev) Hfd) as (Hpos & Hin & d & Hd & Hdfd & Hud).
  unfold handle_poll_event, poll_data. rewrite Hd. cbn [mbind res_bind].
  set (d1 := d <| pd_last_event_ts := pe_now ev |>). set (p1 := put_data (pe_ptr ev) d1 p).
  assert (∀ rest errs d2, ¬ hangup p ev → pd_type d2 = pd_type d → pd_fd d2 = pd_fd d → pd_userdata d2 = pd_userdata d →
    pl_step (ep_rest p) rest →
    event_effect p ev (mkPoller (<[pe_ptr ev := d2]> (ep_heap p)) (ep_set p) (ep_listeners p) (ep_open p) (ep_next p) errs rest))
    as Htouch by (intros; by eapply touch_effect).
  assert (¬ hangup p ev → ∃ p', poll_on_error (pe_ptr ev) p1 = Ok p' /\ event_effect p ev p') as Herr.
  { intros Hno. unfold poll_on_error, poll_data, p1, put_data. cbn. rewrite lookup_insert_eq. cbn [mbind res_bind].
    eexists. split; [reflexivity|]. rewrite insert_insert_eq. apply Htouch; [done..|by apply step_refl]. }
  assert (∀ f, ¬ hangup p ev → (∃ s', f (ep_rest p) = Ok s' /\ pl_step (ep_rest p) s') →
    ∃ p', call_listener f p1 = Ok p' /\ event_effect p ev p') as Hcall.
  { intros f Hno (s' & E & Hst). unfold call_listener. change (ep_rest p1) with (ep_rest p). rewrite E. cbn [mbind res_bind].
    eexists. split; [reflexivity|]. by apply Htouch. }
  change (pd_type d1) with (pd_type d). change (pd_fd d1) with (pd_fd d).
  change (pd_listener d1) with (pd_listener d). change (pd_userdata d1) with (pd_userdata d).
  destruct (pk_type _ Hok _ _ Hd) as [Ety|Ety]; rewrite Ety.
  { assert (¬ hangup p ev) as Hno by (intros (_ & _ & d' & Hd' & Ety'); congruence).
    destruct (pe_read ev) as [val|]; [apply Hcall; [done|by apply pl_timer]|by apply Herr]. }
  destruct (pe_epollin ev) eqn:Ein.
  2:{ eexists. split; [reflexivity|]. apply Htouch; [intros (_ & ? & _); congruence|done..|by apply step_refl]. }
  destruct (pe_recv ev) as [buf| |] eqn:Erecv.
  - apply Hcall; [intros (? & _); congruence|by apply pl_recv].
  - destruct (pl_peer_disconnect (pe_now ev) (pd_listener d) (pd_userdata d) (ep_rest p) Hr Hud) as (s' & E & Hst).
    unfold call_listener at 1. change (ep_rest p1) with (ep_rest p). rewrite E. cbn [mbind res_bind].
    set (p2 := p1 <| ep_rest := s' |>). unfold eps_remove. rewrite Hdfd, (proj2 (Z.ltb_lt 0 fd)) by done. cbn [assert mbind res_bind].
    change (ep_set p2) with (ep_set p). rewrite Hfd. cbn [mbind res_bind]. eexists. split; [reflexivity|].
    assert (poller_ok p2) as Hok2 by exact (touch_ok (pe_ptr ev) d d1 s' (ep_errcount p) p Hok Hd eq_refl eq_refl eq_refl Hst).
    assert (ep_heap p2 !! pe_ptr ev = Some d1) as Hd2 by (unfold p2, p1, put_data; cbn; apply lookup_insert_eq).
    pose proof (unwatch_ok (pe_ptr ev) d1 p2 Hok2 Hd2) as Hun. change (pd_fd d1) with (pd_fd d) in Hun. rewrite Hdfd in Hun.
    specialize (Hun Hfd). assert (hangup p ev) as Hhang by (split; [done|]; split; [done|]; by exists d).
    split; cbn [ep_set ep_open ep_heap ep_listeners ep_rest].
    + exact Hun.
    + done.
    + intros b e Hb. unfold p2, p1, put_data. cbn. destruct (decide (b = pe_ptr ev)) as [->|Hne].
      * exists d1. rewrite lookup_insert_eq. by simplify_eq.
      * exists e. by rewrite lookup_insert_ne.
    + intros f a. cbn. change (ep_set p2) with (ep_set p). rewrite lookup_delete_Some. split.
      * intros [Hne Hf]. split; [done|]. intros [_ ->].
        destruct (pk_watched _ Hok f _ Hf) as (_ & _ & d' & Hd' & Hf' & _). congruence.
      * intros [Hf Hn]. split; [|done]. intros <-. apply Hn. split; [done|]. congruence.
    + intros _. by apply null_makes_none.
    + apply Hst.
  - apply Herr. intros (? & _). congruence.
Qed.

(** The events of one wait: of different descriptors, so none ends the watching of
    another. *)
Definition events_possible p (evs : list PollEvent) : Prop :=
  Forall (event_possible p) evs /\ NoDup (pe_ptr <$> evs).
Record events_effect p (evs : list PollEvent) p' : Prop := mkEffects {
  es_ok : poller_ok p';
  es_open : ep_open p' = ep_open p;
  es_set fd a : ep_set p' !! fd = Some a → ep_set p !! fd = Some a;
  es_hangup ev fd : ev ∈ evs → hangup p ev → ep_set p !! fd = Some (pe_ptr ev) → ep_set p' !! fd = None;
  es_null : None ∈ ep_listeners p \/ Exists (hangup p) evs → None ∈ ep_listeners p';
  es_served u : pl_served (ep_rest p) u → pl_served (ep_rest p') u
}.
Lemma hangup_later p ev p' ev' : event_effect p ev p' → hangup p ev' → hangup p' ev'.
Proof.
  intros He (H1 & H2 & d & Hd & Ht). destruct (ee_heap _ _ _ He _ _ Hd) as (d' & Hd' & Ht' & _).
  split; [done|]. split; [done|]. exists d'. split; [done|congruence].
Qed.
Lemma poll_events_ok evs : ∀ p, poller_ok p → events_possible p evs →
  ∃ p', foldM handle_poll_event p evs = Ok p' /\ events_effect p evs p'.
Proof.
  induction evs as [|ev evs IH]; intros p Hok [Hp Hnd]; cbn [foldM].
  { exists p. split; [done|]. split; try done; [by intros ?? ?%elem_of_nil|]. intros [?|?%Exists_nil]; done. }
  apply Forall_cons in Hp as [Hev Hp]. rewrite fmap_cons in Hnd. apply NoDup_cons in Hnd as [Hnot Hnd].
  destruct (poll_event_ok p ev Hok Hev) as (p1 & -> & He). cbn [mbind res_bind].
  assert (∀ ev', ev' ∈ evs → pe_ptr ev' ≠ pe_ptr ev) as Hdiff.
  { intros ev' Hin E. apply Hnot. rewrite <- E. by apply list_elem_of_fmap_2. }
  destruct (IH p1) as (p' & -> & Hes).
  { apply (ee_ok _ _ _ He). }
  { split; [|done]. rewrite Forall_forall in Hp. apply Forall_forall. intros ev' Hin.
    destruct (Hp ev' Hin) as [[fd Hfd] Hb]. split; [|done]. exists fd. apply (ee_set _ _ _ He). split; [done|].
    intros [_ E]. by apply (Hdiff ev' Hin). }
  exists p'. split; [done|]. split.
  - apply Hes.
  - by rewrite (es_open _ _ _ Hes), (ee_open _ _ _ He).
  - intros fd a Hs%(es_set _ _ _ Hes). by apply (ee_set _ _ _ He) in Hs as [? _].
  - intros ev' fd [->|Hin]%elem_of_cons Hh Hfd.
    + destruct (ep_set p' !! fd) as [b|] eqn:E; [|done]. apply (es_set _ _ _ Hes) in E.
      apply (ee_set _ _ _ He) in E as [E Hn]. rewrite Hfd in E. injection E as <-. exfalso. by apply Hn.
    + apply (es_hangup _ _ _ Hes ev'); [done|by eapply hangup_later|]. apply (ee_set _ _ _ He). split; [done|].
      intros [_ E]. by apply (Hdiff ev' Hin).
  - intros Hn. apply (es_null _ _ _ Hes). destruct Hn as [Hn|[Hn|Hn]%Exists_cons].
    + left. apply (ee_null _ _ _ He). by left.
    + left. apply (ee_null _ _ _ He). by right.
    + right. eapply Exists_impl; [exact Hn|]. intros ev'. by apply (hangup_later p ev).
  - intros u Hu. apply (es_served _ _ _ Hes), (ee_served _ _ _ He), Hu.
Qed.

(** *** New sockets *)

Lemma put_fresh_ok d p : poller_ok p → 0 < pd_fd d → ep_set p !! pd_fd d = None →
  pd_type d = POLL_TIMER_FD \/ pd_type d = POLL_SOCKET_FD → pl_served (ep_rest p) (pd_userdata d) →
  poller_ok (((new_data d p).2 <| ep_set := <[pd_fd d := ep_next p]> (ep_set p) |>)
               <| ep_listeners := ep_listeners p ++ [Some (ep_next p)] |>).
Proof.
  intros [Hf Ht Hl Hw Ho Hr] Hpos Hfd Hty Hu.
  assert (ep_heap p !! ep_next p = None) as Hfree.
  { destruct (ep_heap p !! ep_next p) as [e|] eqn:E; [|done]. apply Hf in E. lia. }
  assert (Some (ep_next p) ∉ ep_listeners p) as Hnew.
  { intros Hin. destruct (Hl _ Hin) as (e & He & _). congruence. }
  unfold new_data, put_data. split; cbn; try done.
  - intros b e [[<- _]|[_ Hb%Hf]]%lookup_insert_Some; lia.
  - intros b e [[<- <-]|[_ Hb]]%lookup_insert_Some; [done|by eapply Ht].
  - intros b [Hb|[= ->]%list_elem_of_singleton]%elem_of_app.
    + destruct (Hl b Hb) as (e & He & Hs). exists e. rewrite !lookup_insert_ne by congruence. done.
    + exists d. by rewrite !lookup_insert_eq.
  - intros fd b [[<- <-]|[Hne Hb]]%lookup_insert_Some.
    + split; [done|]. split; [apply elem_of_app; right; by apply list_elem_of_singleton|]. exists d. by rewrite lookup_insert_eq.
    + destruct (Hw fd b Hb) as (H1 & H2 & e & He & Hefd & Heu). split; [done|]. split; [apply elem_of_app; by left|].
      exists e. rewrite lookup_insert_ne by congruence. done.
  - assert (∀ i b, (ep_listeners p ++ [Some (ep_next p)]) !! i = Some (Some b) →
      (ep_listeners p !! i = Some (Some b) /\ b ≠ ep_next p) \/ (i = length (ep_listeners p) /\ b = ep_next p)) as Hcase.
    { intros i b [Hi|[Hi Hb]]%lookup_app_Some.
      - left. split; [done|]. intros ->. by apply list_elem_of_lookup_2 in Hi.
      - right. apply list_lookup_singleton_Some in Hb as [? [= <-]]. split; [lia|done]. }
    intros i j b Hi%Hcase Hj%Hcase. destruct Hi as [[Hi ?]|[-> ->]], Hj as [[Hj ?]|[-> Hj]]; try congruence. by eapply Ho.
Qed.
Lemma add_socket_ok l u fd sys_ok p : poller_ok p → 0 < fd → ep_set p !! fd = None → pl_served (ep_rest p) u →
  ∃ ok p', add_socket l u fd true sys_ok p = Ok (ok, p') /\ poller_ok p' /\ ep_rest p' = ep_rest p
    /\ (∀ f, f ≠ fd → (f ∈ ep_open p' ↔ f ∈ ep_open p) /\ ep_set p' !! f = ep_set p !! f)
    /\ (None ∈ ep_listeners p → None ∈ ep_listeners p').
Proof.
  intros Hok Hpos Hfd Hu. unfold add_socket, add_data. set (d := mkPollData _ _ _ _ _ _ _).
  destruct (new_data d p) as [a p1] eqn:E. injection E as <- E. cbn [pd_fd d].
  rewrite (proj2 (Z.leb_le 0 fd)) by lia. unfold eps_add. rewrite (proj2 (Z.ltb_lt 0 fd)) by done. cbn [assert mbind res_bind].
  assert (ep_set p1 = ep_set p) as Es by (by subst p1). rewrite Es, Hfd.
  destruct sys_ok; cbn [mbind res_bind].
  - eexists true, _. split; [reflexivity|]. split; [|split_and!; [by subst p1| |]].
    + pose proof (put_fresh_ok d p Hok Hpos Hfd (or_intror eq_refl) Hu) as Hn. subst p1. exact Hn.
    + intros f Hne. subst p1. cbn. by rewrite lookup_insert_ne.
    + intros Hn. subst p1. cbn. apply elem_of_app. by left.
  - unfold delete_data, poll_data. assert (ep_heap p1 !! ep_next p = Some d) as Hd by (subst p1; cbn; apply lookup_insert_eq).
    rewrite Hd. cbn [mbind res_bind]. unfold destruct_data. cbn [pd_managed pd_type pd_fd d andb]. rewrite bool_decide_eq_true_2 by done.
    rewrite (proj2 (Z.leb_le 0 fd)) by lia. cbn [andb]. eexists false, _. split; [reflexivity|].
    assert (ep_heap p !! ep_next p = None) as Hfree.
    { destruct (ep_heap p !! ep_next p) as [e|] eqn:E'; [|done]. apply (pk_fresh _ Hok) in E'. lia. }
    subst p1. split; [|split_and!; [done| |done]].
    + destruct Hok as [Hf Ht Hl Hw Ho Hr].
      split; cbn; rewrite ?delete_insert_id, ?(delete_id (ep_set p)) by done; try done.
      intros b e Hb%Hf. lia.
    + intros f Hne. cbn. rewrite lookup_delete_ne by done. split; [set_solver|done].
Qed.

(** ** Rounds of the listening thread *)

Definition generator_ok (gen : option (Z → L → res (Z * L))) : Prop :=
  ∀ fd s, 0 < fd → pl_ok s →
    match gen with
    | Some f => ∃ u s', f fd s = Ok (u, s') /\ pl_step s s' /\ pl_served s' u
    | None => pl_served s 0
    end.
Context (gen : option (Z → L → res (Z * L))) (Hgen : generator_ok gen).
Implicit Types (t : ConnectionListenerThread L) (r : RoundAnswers).

(** The rounds of the thread, until it stops. *)
Fixpoint run_thread (rs : list RoundAnswers) t : res (bool * ConnectionListenerThread L) :=
  match rs with
  | [] => Ok (true, t)
  | r :: rs =>
      '(go_on, t) ← listener_process gen r t;
      if go_on : bool then run_thread rs t else Ok (false, t)
  end.
(** What the system can answer: a new connection has a descriptor that was not open,
    and only what is watched then has events. *)
Definition fresh_connection t r : Prop := ra_accepted r < 0 \/ (0 < ra_accepted r /\ (ra_accepted r ∉ ep_open (cl_poller t))
  /\ ep_set (cl_poller t) !! ra_accepted r = None).
Definition round_possible t r : Prop :=
  fresh_connection t r
  /\ ∀ evs t', check_for_new_connections gen r t = Ok (true, t') → ra_events r = Some evs → events_possible (cl_poller t') evs.
Fixpoint rounds_possible (rs : list RoundAnswers) t : Prop :=
  match rs with
  | [] => True
  | r :: rs => round_possible t r
      /\ match listener_process gen r t with Ok (true, t') => rounds_possible rs t' | _ => True end
  end.

Lemma connection_ok r t : poller_ok (cl_poller t) → fresh_connection t r →
  ∃ go_on t', check_for_new_connections gen r t = Ok (go_on, t') /\ poller_ok (cl_poller t')
    /\ ∀ fd, lost fd (cl_poller t) → lost fd (cl_poller t').
Proof.
  intros Hok Hfresh. unfold check_for_new_connections. destruct (ra_waited r) as [[]|]; [|by exists true, t|by exists false, t].
  unfold on_new_connection. destruct (Z.leb_spec 0 (ra_accepted r)) as [Hacc|]; [|by exists true, t].
  destruct Hfresh as [?|(Hpos & Hno & Hset)]; [lia|]. set (fd := ra_accepted r) in *.
  set (p := (cl_poller t) <| ep_open := ep_open (cl_poller t) ∪ {[fd]} |>).
  assert (∃ u rest, match gen with
    | Some f => '(u, rest) ← f fd (ep_rest p); Ok (u, p <| ep_rest := rest |>)
    | None => Ok (0, p)
    end = Ok (u, p <| ep_rest := rest |>) /\ pl_step (ep_rest p) rest /\ pl_served rest u) as (u & rest & -> & Hst & Hu).
  { specialize (Hgen fd (ep_rest p) Hpos (pk_rest _ Hok)). destruct gen as [f|].
    - destruct Hgen as (u & s' & -> & Hst & Hu). by exists u, s'.
    - exists 0, (ep_rest p). split; [by destruct p|]. split; [apply step_refl, Hok|done]. }
  cbn [mbind res_bind]. assert (poller_ok (p <| ep_rest := rest |>)) as Hok1.
  { apply rest_ok; [|exact Hst]. by destruct Hok. }
  destruct (add_socket_ok (cl_socket_listener t) u fd (ra_watched r) _ Hok1 Hpos Hset Hu) as (ok & p' & -> & Hok' & _ & Hkeep & Hnull).
  cbn [mbind res_bind]. eexists true, _. split; [reflexivity|]. split; [done|].
  intros f [Hopen Hun Hnl]. assert (f ≠ fd) as Hne by (intros ->; done). destruct (Hkeep f Hne) as [Ho Hs].
  split; cbn; [apply Ho; cbn; set_solver|by rewrite Hs|by apply Hnull].
Qed.
Lemma round_ok r t : poller_ok (cl_poller t) → round_possible t r →
  ∃ go_on t', listener_process gen r t = Ok (go_on, t') /\ poller_ok (cl_poller t')
    /\ ∀ fd, lost fd (cl_poller t) → lost fd (cl_poller t').
Proof.
  intros Hok [Hfresh Hev]. destruct (connection_ok r t Hok Hfresh) as (go_on & t1 & E & Hok1 & Hl1).
  unfold listener_process. rewrite E. cbn [mbind res_bind]. destruct go_on; [|by exists false, t1].
  unfold poller_process, poller_run. destruct (ra_events r) as [evs|] eqn:Er.
  - destruct (poll_events_ok evs (cl_poller t1) Hok1) as (p' & -> & Hes); [by eapply Hev|]. cbn [mbind res_bind].
    eexists true, _. split; [reflexivity|]. split; [apply Hes|]. intros fd Hlost. apply Hl1 in Hlost as [H1 H2 H3].
    split; cbn.
    + by rewrite (es_open _ _ _ Hes).
    + destruct (ep_set p' !! fd) eqn:E'; [|done]. apply (es_set _ _ _ Hes) in E'. congruence.
    + apply (es_null _ _ _ Hes). by left.
  - eexists false, _. split; [reflexivity|]. by split.
Qed.
Lemma thread_ok rs : ∀ t, poller_ok (cl_poller t) → rounds_possible rs t →
  ∃ go_on t', run_thread rs t = Ok (go_on, t') /\ poller_ok (cl_poller t')
    /\ ∀ fd, lost fd (cl_poller t) → lost fd (cl_poller t').
Proof.
  induction rs as [|r rs IH]; intros t Hok Hp; cbn [run_thread]; [by exists true, t|].
  destruct Hp as [Hr Hp]. destruct (round_ok r t Hok Hr) as (go_on & t1 & E & Hok1 & Hl1). rewrite E in *. cbn [mbind res_bind].
  destruct go_on; [|by exists false, t1]. destruct (IH t1 Hok1 Hp) as (g & t' & -> & Hok' & Hl'). exists g, t'. auto.
Qed.

Definition waits_succeed r : Prop := ra_waited r ≠ None /\ ra_events r ≠ None.
Lemma process_goes_on r t go_on t' : listener_process gen r t = Ok (go_on, t') → go_on = true ↔ waits_succeed r.
Proof.
  unfold listener_process, check_for_new_connections, poller_process, poller_run, waits_succeed.
  destruct (ra_waited r) as [[]|]; cbn [mbind res_bind].
  - destruct (on_new_connection _ _ _ _) as [t1|]; cbn [mbind res_bind]; [|done].
    destruct (ra_events r); cbn [mbind res_bind]; [destruct (foldM _ _ _)|]; cbn; intros [=]; subst; naive_solver.
  - destruct (ra_events r); cbn [mbind res_bind]; [destruct (foldM _ _ _)|]; cbn; intros [=]; subst; naive_solver.
  - intros [=]; subst; naive_solver.
Qed.
Lemma thread_goes_on rs : ∀ t go_on t', run_thread rs t = Ok (go_on, t') → go_on = true ↔ Forall waits_succeed rs.
Proof.
  induction rs as [|r rs IH]; intros t go_on t'; cbn [run_thread]; [by intros [= <- _]|].
  destruct (listener_process gen r t) as [[g t1]|] eqn:E; cbn [mbind res_bind]; [|done].
  apply process_goes_on in E. rewrite Forall_cons. destruct g.
  - intros Hr%IH. tauto.
  - intros [= <- _]. naive_solver.
Qed.

(** ** The end *)

(** Destroying a poller: up to the first null pointer. *)
Definition live (v : list (option Z)) p : Prop :=
  (∀ a, Some a ∈ v → ∃ d, ep_heap p !! a = Some d /\ 0 < pd_fd d /\ ep_set p !! pd_fd d = Some a)
  /\ ∀ i j a, v !! i = Some (Some a) → v !! j = Some (Some a) → i = j.
Lemma destroy_one a v p : live (Some a :: v) p →
  ∃ d p', ep_heap p !! a = Some d /\ destroy_listener p (Some a) = Ok p' /\ live v p'
    /\ ep_heap p' = delete a (ep_heap p) /\ ep_open p' ⊆ ep_open p
    /\ (pd_managed d = true → pd_type d ≠ POLL_UNKNOWN → pd_fd d ∉ ep_open p').
Proof.
  intros [Hl Ho]. destruct (Hl a) as (d & Hd & Hpos & Hs); [by constructor|]. exists d. cbn [destroy_listener].
  unfold poll_data. rewrite Hd. cbn [mbind res_bind]. unfold eps_remove. rewrite (proj2 (Z.ltb_lt 0 _)) by done.
  cbn [assert mbind res_bind]. rewrite Hs. cbn [mbind res_bind]. unfold delete_data, poll_data.
  change (ep_heap (p <| ep_set := delete (pd_fd d) (ep_set p) |>)) with (ep_heap p). rewrite Hd. cbn [mbind res_bind].
  set (p1 := destruct_data d (p <| ep_set := delete (pd_fd d) (ep_set p) |>)).
  assert (ep_heap p1 = ep_heap p /\ ep_open p1 ⊆ ep_open p /\ ep_set p1 = delete (pd_fd d) (ep_set p)) as (E1 & E2 & E3).
  { subst p1. unfold destruct_data. case_match; cbn; rewrite ?delete_delete_eq; (split; [done|]; split; [set_solver|done]). }
  eexists. split; [done|]. split; [reflexivity|]. split_and!.
  - split.
    + intros b Hb. assert (b ≠ a) as Hne.
      { intros ->. apply list_elem_of_lookup_1 in Hb as [j Hj]. by specialize (Ho O (S j) a eq_refl Hj). }
      destruct (Hl b) as (e & He & Hepos & Hes); [by constructor|]. exists e. cbn. rewrite E1, E3.
      rewrite lookup_delete_ne by done. split; [done|]. split; [done|]. rewrite lookup_delete_ne; [done|]. congruence.
    + intros i j b Hi Hj. specialize (Ho (S i) (S j) b Hi Hj). lia.
  - cbn. by rewrite E1.
  - exact E2.
  - intros Hm Hty. subst p1. unfold destruct_data. rewrite Hm, bool_decide_eq_true_2 by done. rewrite (proj2 (Z.leb_le 0 _)) by lia. cbn. set_solver.
Qed.
Lemma destroy_loop v : ∀ p, live v p →
  if decide (None ∈ v) then foldM destroy_listener p v = Fail (UndefinedBehaviour "null pointer dereferenced")
  else ∃ p', foldM destroy_listener p v = Ok p' /\ ep_open p' ⊆ ep_open p
    /\ ∀ a d, Some a ∈ v → ep_heap p !! a = Some d →
         pd_managed d = true → pd_type d ≠ POLL_UNKNOWN → pd_fd d ∉ ep_open p'.
Proof.
  induction v as [|[a|] v IH]; intros p Hl; cbn [foldM].
  - rewrite decide_False by (by intros ?%elem_of_nil). exists p. split; [done|]. split; [done|]. by intros ?? ?%elem_of_nil.
  - destruct (destroy_one a v p Hl) as (d & p1 & Hd & -> & Hl1 & Eh & Eo & Hc). cbn [mbind res_bind]. specialize (IH p1 Hl1).
    destruct (decide (None ∈ v)) as [Hn|Hn].
    + rewrite decide_True by (by constructor). done.
    + rewrite decide_False by (by intros [?|?]%elem_of_cons). destruct IH as (p' & -> & Eo' & Hc'). exists p'. split; [done|].
      split; [set_solver|]. intros b e [Eb|Hb]%elem_of_cons He Hm Hty.
      * injection Eb as ->. rewrite Hd in He. injection He as <-. specialize (Hc Hm Hty). set_solver.
      * apply (Hc' b); try done. rewrite Eh, lookup_delete_ne; [done|]. intros <-.
        destruct Hl as [_ Ho]. apply list_elem_of_lookup_1 in Hb as [j Hj]. by specialize (Ho O (S j) a eq_refl Hj).
  - rewrite decide_True by (by constructor). done.
Qed.
Lemma ok_live p : poller_ok p → live (ep_listeners p) p.
Proof.
  intros Hok. split; [|apply (pk_once _ Hok)]. intros a Ha. destruct (pk_listed _ Hok a Ha) as (d & Hd & Hs).
  exists d. split; [done|]. split; [|done]. by destruct (pk_watched _ Hok _ _ Hs).
Qed.
Lemma destroy_null p : poller_ok p → None ∈ ep_listeners p →
  destroy_poller p = Fail (UndefinedBehaviour "null pointer dereferenced").
Proof.
  intros Hok Hn. pose proof (destroy_loop _ p (ok_live p Hok)) as Hd. rewrite decide_True in Hd by done.
  unfold destroy_poller. by rewrite Hd.
Qed.
(** A poller no connection of which was closed by its peer can be destroyed, which
    closes all it managed. *)
Theorem destroy_closes p : poller_ok p → None ∉ ep_listeners p →
  ∃ p', destroy_poller p = Ok p' /\ ep_open p' ⊆ ep_open p
    /\ ∀ a d, Some a ∈ ep_listeners p → ep_heap p !! a = Some d → pd_managed d = true → pd_fd d ∉ ep_open p'.
Proof.
  intros Hok Hn. pose proof (destroy_loop _ p (ok_live p Hok)) as Hd. rewrite decide_False in Hd by done.
  destruct Hd as (p' & E & Ho & Hc). unfold destroy_poller. rewrite E. eexists. split; [reflexivity|]. split; [exact Ho|].
  intros a d Ha Hh Hm. apply (Hc a d Ha Hh Hm). destruct (pk_type _ Hok _ _ Hh); congruence.
Qed.
(** A connection that its peer closed is lost: whatever happens later, its
    descriptor stays open though nothing watches it any more; and destroying the
    thread's poller dereferences a null pointer. *)
Theorem closed_connection_leaks r rs t evs ev fd t1 : poller_ok (cl_poller t) →
  check_for_new_connections gen r t = Ok (true, t1) → ra_events r = Some evs → ev ∈ evs →
  hangup (cl_poller t1) ev → ep_set (cl_poller t1) !! fd = Some (pe_ptr ev) → fd ∈ ep_open (cl_poller t1) →
  rounds_possible (r :: rs) t →
  ∃ go_on t', run_thread (r :: rs) t = Ok (go_on, t')
    /\ fd ∈ ep_open (cl_poller t') /\ ep_set (cl_poller t') !! fd = None
    /\ destroy_poller (cl_poller t') = Fail (UndefinedBehaviour "null pointer dereferenced").
Proof.
  intros Hok E Er Hin Hh Hfd Hopen [Hr Hp]. destruct (connection_ok r t Hok (proj1 Hr)) as (g & t1' & E' & Hok1 & _).
  rewrite E in E'. injection E' as <- <-. destruct (poll_events_ok evs (cl_poller t1) Hok1) as (p2 & E2 & Hes); [by eapply Hr|].
  assert (listener_process gen r t = Ok (true, t1 <| cl_poller := p2 |>)) as Ep.
  { unfold listener_process, poller_process, poller_run. rewrite E. cbn [mbind res_bind]. rewrite Er, E2. done. }
  rewrite Ep in Hp. assert (lost fd p2) as Hlost.
  { split; [by rewrite (es_open _ _ _ Hes)|by apply (es_hangup _ _ _ Hes ev)|].
    apply (es_null _ _ _ Hes). right. apply Exists_exists. by exists ev. }
  destruct (thread_ok rs (t1 <| cl_poller := p2 |>)) as (go_on & t' & E3 & Hok' & Hl'); [apply Hes|exact Hp|].
  exists go_on, t'. cbn [run_thread]. rewrite Ep. cbn [mbind res_bind]. split; [done|].
  destruct (Hl' fd Hlost) as [Ho Hs Hn]. split; [done|]. split; [done|]. by apply destroy_null.
Qed.
End Correct.

(** ** A run *)

(** A listener that keeps what it is told. *)
Inductive Told := ToldRecv (u : Z) (buf : list Z) | ToldHangup (u : Z) | ToldOther (u val : Z).
#[export] Instance teller : PollListener (list Told) := {
  poll_on_signal _ _ u val s := Ok (s ++ [ToldOther u val]);
  poll_on_event _ _ u val s := Ok (s ++ [ToldOther u val]);
  poll_on_timer _ _ u val s := Ok (s ++ [ToldOther u val]);
  poll_on_recv _ _ u buf s := Ok (s ++ [ToldRecv u buf]);
  poll_on_peer_disconnect _ _ u s := Ok (s ++ [ToldHangup u])
}.
#[export] Instance teller_ok : PollListenerOk (list Told).
Proof. apply (Build_PollListenerOk _ _ (λ _, True) (λ _ _, True)); intros; eexists; (split; [reflexivity|]); by split. Defined.
Definition tell_start : ConnectionListenerThread (list Told) := mkListenerThread (Poller_new []) 0 (Some 6) true.
Definition tell_round1 : RoundAnswers := mkRound (Some true) 7 true (Some []).
Definition tell_round2 : RoundAnswers :=
  mkRound (Some false) (-1) true (Some [mkPollEvent 1 (mkTs 1414780200 0) true PeerClosed None]).
Definition tell_one : ConnectionListenerThread (list Told) :=
  mkListenerThread (mkPoller {[ 1 := mkPollData POLL_SOCKET_FD true 7 0 0 ts_zero 0 ]} {[ 7 := 1 ]} [Some 1] {[ 7 ]} 2 0 []) 0 (Some 6) true.
Lemma tell_one_ok : poller_ok (cl_poller tell_one).
Proof.
  split; cbn; try done.
  - intros a d [<- <-]%lookup_singleton_Some. done.
  - intros a d [<- <-]%lookup_singleton_Some. by right.
  - intros a [= ->]%list_elem_of_singleton. eexists. split; [apply lookup_singleton_eq|]. apply lookup_singleton_eq.
  - intros fd a [<- <-]%lookup_singleton_Some. split; [done|]. split; [by apply list_elem_of_singleton|].
    eexists. by split; [apply lookup_singleton_eq|].
  - intros i j a [-> _]%list_lookup_singleton_Some [-> _]%list_lookup_singleton_Some. done.
Qed.
Lemma closed_connection_leaks_witness :
  listener_process None tell_round1 tell_start = Ok (true, tell_one)
  /\ ∃ go_on t', run_thread None [tell_round2] tell_one = Ok (go_on, t')
    /\ 7 ∈ ep_open (cl_poller t') /\ ep_set (cl_poller t') !! 7 = None
    /\ destroy_poller (cl_poller t') = Fail (UndefinedBehaviour "null pointer dereferenced").
Proof.
  split; [vm_compute; reflexivity|].
  apply (closed_connection_leaks None) with (evs := [mkPollEvent 1 (mkTs 1414780200 0) true PeerClosed None])
    (ev := mkPollEvent 1 (mkTs 1414780200 0) true PeerClosed None) (t1 := tell_one).
  - by intros fd s _ _.
  - exact tell_one_ok.
  - reflexivity.
  - reflexivity.
  - by apply list_elem_of_singleton.
  - split; [done|]. split; [done|]. eexists. by split; [apply lookup_singleton_eq|].
  - reflexivity.
  - set_solver.
  - split; [|by destruct (listener_process _ _ _) as [[[] ?]|]]. split; [by left|]. intros evs t' [= <-] [= <-].
    split; [|apply NoDup_singleton]. apply Forall_singleton. split; [by exists 7|done].
Defined.
