(* ===== verification/TpsThread.v ===== *)
(** * The thread of the position server (src/ts/AsyncTPSStrategy.cpp)

    The server listens to the poller of its thread, which hands back the index of
    the client as user data. *)

From stdpp Require Import gmap.
From S2P Require Import Prelude Dbl Time Codec L2Book Calendar L1Quotes Nbbo NbboCorrect TpsWire TpsServer TpsCorrect AsyncTps Poller PollerCorrect.
Open Scope Z_scope.

Section Thread.
Context {D : Type} `{Dbl D} `{ToFloat D} {B : Type}.
Implicit Types (t : AsyncTPSStrategy B).

Definition with_server (f : TPSServer → res TPSServer) t : res (AsyncTPSStrategy B) :=
  s ← f (tps_server t); Ok (mkTps (tps_strategy t) s).
(** It is never added as anything but the listener of sockets. *)
#[export] Instance tps_listens : PollListener (AsyncTPSStrategy B) := {
  poll_on_signal _ _ _ _ t := Ok t;
  poll_on_event _ _ _ _ t := Ok t;
  poll_on_timer _ _ _ _ t := Ok t;
  poll_on_recv _ _ cid buf := with_server (tps_on_recv cid buf);
  poll_on_peer_disconnect _ _ cid := with_server (tps_on_peer_disconnect cid)
}.
(** [date], [tz]: today's. *)
Definition tps_new_client (date tz fd : Z) t : res (Z * AsyncTPSStrategy B) :=
  '(cid, s) ← on_new_client fd date tz (tps_server t); Ok (cid, mkTps (tps_strategy t) s).

(** [AsyncTPSStrategy::start]: the thread, if it was made. *)
Definition tps_start (la : ListenAnswers) (sys_ok : bool) t : res (option (ConnectionListenerThread (AsyncTPSStrategy B))) :=
  '(ok, th) ← add_listener_on_port la sys_ok (mkListenerThread (Poller_new t) 0 None false);
  Ok (if ok : bool then Some th else None).
(** [WorkThread::process]. *)
Definition work_process (date tz : Z) (r : RoundAnswers) (th : ConnectionListenerThread (AsyncTPSStrategy B)) :
    res (bool * ConnectionListenerThread (AsyncTPSStrategy B)) :=
  t ← write_pending_events (D:=D) (ep_rest (cl_poller th));
  listener_process (Some (tps_new_client date tz)) r (th <| cl_poller := (cl_poller th) <| ep_rest := t |> |>).

(** *** Writing to sockets that take it *)

(** The answers left when every one of these is written whole. *)
Fixpoint all_taken (bufs : list (list Z)) (an : list WriteAnswer) : option (list WriteAnswer) :=
  match bufs with
  | [] => Some an
  | b :: bufs =>
      match write_loop b true an with
      | Ok (err, written, an) =>
          if (err =? 0) && bool_decide (written = b) then all_taken bufs an else None
      | Fail _ => None
      end
  end.
Lemma all_taken_app l l' an : all_taken (l ++ l') an = all_taken l an ≫= all_taken l'.
Proof.
  revert an. induction l as [|b l IH]; intros an; cbn; [done|].
  destruct (write_loop b true an) as [[[err w] an1]|]; [|done]. case_if; [by rewrite IH|done].
Qed.
Lemma taken_drains l : ∀ an an', StaysFull ∉ an → all_taken l an = Some an' → StaysFull ∉ an'.
Proof.
  induction l as [|b l IH]; intros an an' Hno; cbn; [by intros [= <-]|].
  destruct (write_returns true an b Hno) as (err & w & an1 & -> & Hno1). case_if; [by apply IH|done].
Qed.
Definition reading_on (w : list (Z * list Z)) (an : list WriteAnswer) (s : TPSServer) : TPSServer :=
  s <| tps_lock := Reading |> <| tps_answers := an |> <| tps_wire := w |>.
Lemma taken_send cid c b s w an an' : get_client cid s = Ok c → 0 <= cs_fd c → all_taken [b] an = Some an' →
  send_or_disconnect cid b true (reading_on w an s) = Ok (true, reading_on (w ++ [(cs_fd c, b)]) an' s).
Proof.
  intros Hc Hfd. cbn [all_taken]. destruct (write_loop b true an) as [[[err w1] an1]|] eqn:E; [|done]. case_if; [|done].
  bools. intros [= <-]. unfold send_or_disconnect. change (get_client cid (reading_on w an s)) with (get_client cid s).
  rewrite Hc. cbn [mbind res_bind]. unfold write_buffer. rewrite (proj2 (Z.ltb_ge _ 0)) by done.
  change (tps_answers (reading_on w an s)) with an. rewrite E. by subst.
Qed.
Lemma share_taken (write : Z → TPSServer → res TPSServer) (msg : Z → Z * list Z) l s :
  (∀ cid w an an', cid ∈ l → all_taken [(msg cid).2] an = Some an' →
     write cid (reading_on w an s) = Ok (reading_on (w ++ [msg cid]) an' s)) →
  ∀ w an an', all_taken (msg <$> l).*2 an = Some an' →
    foldM (λ s0 cid, write cid s0) (reading_on w an s) l = Ok (reading_on (w ++ (msg <$> l)) an' s).
Proof.
  intros Hw. induction l as [|cid l IH]; intros w an an'; cbn [foldM fmap list_fmap]; [intros [= <-]; by rewrite app_nil_r|].
  change ((msg cid).2 :: (msg <$> l).*2) with ([(msg cid).2] ++ (msg <$> l).*2). rewrite all_taken_app.
  destruct (all_taken [_] an) as [an1|] eqn:E; [|done]. cbn [mbind option_bind]. intros Ha.
  rewrite (Hw cid w an an1) by (done || by left). cbn [mbind res_bind]. rewrite (IH ltac:(intros; apply Hw; [by right|done]) _ _ _ Ha).
  by rewrite <- app_assoc.
Qed.
Lemma shared_taken (write : Z → TPSServer → res TPSServer) (msg : Z → Z * list Z) esi s an' : tps_ok s →
  (∀ cid w an an', cid ∈ clients_of esi s → all_taken [(msg cid).2] an = Some an' →
     write cid (reading_on w an s) = Ok (reading_on (w ++ [msg cid]) an' s)) →
  all_taken (msg <$> clients_of esi s).*2 (tps_answers s) = Some an' →
  ('(_, s') ← locked false (λ s, s ← foldM (λ s cid, write cid s) s (clients_of esi s); Ok (tt, s)) s; Ok s')
  = Ok (s <| tps_answers := an' |> <| tps_wire := tps_wire s ++ (msg <$> clients_of esi s) |>).
Proof.
  intros Hok Hw Ha. unfold locked. rewrite (ok_lock _ Hok).
  change (clients_of esi (s <| tps_lock := Reading |>)) with (clients_of esi s).
  pose proof (share_taken write msg (clients_of esi s) s Hw (tps_wire s) _ _ Ha) as Hl.
  assert (reading_on (tps_wire s) (tps_answers s) s = s <| tps_lock := Reading |>) as E by (by destruct s).
  rewrite E in Hl. rewrite Hl.
  cbn [mbind res_bind]. pose proof (ok_lock _ Hok) as Hlock. clear -Hlock. destruct s. cbn in *. by subst.
Qed.
Lemma event_taken s e an' : tps_ok s → subscribers_open (ae_esi e) s → made e →
  all_taken (event_writes (D:=D) s e).*2 (tps_answers s) = Some an' →
  write_event (D:=D) s e = Ok (s <| tps_answers := an' |> <| tps_wire := tps_wire s ++ event_writes (D:=D) s e |>).
Proof.
  intros Hok Hop Hm. unfold write_event, event_writes, made in *. destruct e as [ts mic esi [] []]; cbn in *; try done; intros Ha.
  - apply (shared_taken (λ cid s0, write_quote (D:=D) ts cid (fdoid_of esi s0) q s0)); [done| |done].
    intros cid w an an1 Hin. destruct (open_client _ _ _ Hok Hop Hin) as (c & Hc & Hfd). unfold write_quote, quote_for.
    change (get_client cid (reading_on w an s)) with (get_client cid s). change (fdoid_of esi (reading_on w an s)) with (fdoid_of esi s).
    rewrite Hc. cbn [mbind res_bind snd]. intros Ha1.
    by rewrite (taken_send cid c _ s w an an1 Hc Hfd Ha1).
  - apply (shared_taken (λ cid s0, write_trade (D:=D) ts mic cid (fdoid_of esi s0) price size s0)); [done| |done].
    intros cid w an an1 Hin. destruct (open_client _ _ _ Hok Hop Hin) as (c & Hc & Hfd). unfold write_trade, trade_for.
    change (get_client cid (reading_on w an s)) with (get_client cid s). change (fdoid_of esi (reading_on w an s)) with (fdoid_of esi s).
    rewrite Hc. cbn [mbind res_bind snd]. intros Ha1.
    by rewrite (taken_send cid c _ s w an an1 Hc Hfd Ha1).
Qed.
(** What is queued can be written: no client that was lost is subscribed to a stock
    that it is about, and the sockets take it. *)
Definition deliverable t : Prop :=
  let s := tps_server t in
  Forall (λ e, made e /\ subscribers_open (ae_esi e) s) (tps_queue t)
  /\ is_Some (all_taken (mjoin (event_writes (D:=D) s <$> tps_queue t)).*2 (tps_answers s)).
Lemma answered_ok s w an : tps_ok s → StaysFull ∉ an → tps_ok (s <| tps_answers := an |> <| tps_wire := w |>).
Proof. destruct 1. by split. Qed.
Lemma queue_taken queue : ∀ s an', tps_ok s →
  Forall (λ e, made e /\ subscribers_open (ae_esi e) s) queue →
  all_taken (mjoin (event_writes (D:=D) s <$> queue)).*2 (tps_answers s) = Some an' →
  ∃ s', foldM (write_event (D:=D)) s queue = Ok s' /\ tps_ok s' /\ tps_clients s' = tps_clients s
    /\ tps_wire s' = tps_wire s ++ mjoin (event_writes (D:=D) s <$> queue).
Proof.
  induction queue as [|e queue IH]; intros s an' Hok Hq Ha; cbn [foldM].
  { exists s. split_and!; try done. cbn. by rewrite app_nil_r. }
  apply Forall_cons in Hq as [[Hm Hop] Hq]. cbn [fmap list_fmap mjoin list_join] in Ha. rewrite fmap_app, all_taken_app in Ha.
  destruct (all_taken (event_writes s e).*2 (tps_answers s)) as [an1|] eqn:E1; [|done]. cbn [mbind option_bind] in Ha.
  rewrite (event_taken s e an1) by done. cbn [mbind res_bind].
  set (s1 := s <| tps_answers := an1 |> <| tps_wire := tps_wire s ++ event_writes s e |>).
  destruct (IH s1 an') as (s' & -> & Hok' & Hcl & Hw); [|exact Hq|exact Ha|].
  { apply answered_ok; [done|]. by eapply taken_drains, E1; apply ok_drains. }
  exists s'. split_and!; [done|done|done|]. rewrite Hw. cbn [tps_wire s1].
  change (event_writes s1) with (event_writes (D:=D) s). cbn. by rewrite <- app_assoc.
Qed.
Lemma pending_taken t : tps_ok (tps_server t) → deliverable t →
  ∃ t', write_pending_events (D:=D) t = Ok t' /\ tps_queue t' = [] /\ tps_ok (tps_server t')
    /\ num_clients (tps_server t') = num_clients (tps_server t)
    /\ tps_wire (tps_server t') = tps_wire (tps_server t) ++ mjoin (event_writes (D:=D) (tps_server t) <$> tps_queue t).
Proof.
  intros Hok (Hq & an' & Ha). destruct (queue_taken _ _ _ Hok Hq Ha) as (s' & E & Hok' & Hcl & Hw).
  unfold write_pending_events. rewrite E. cbn [mbind res_bind]. eexists. split_and!; [reflexivity|done|done| |done].
  unfold num_clients. cbn. by rewrite Hcl.
Qed.

#[export] Instance tps_listens_ok : PollListenerOk (AsyncTPSStrategy B).
Proof.
  apply (Build_PollListenerOk _ _ (λ t, tps_ok (tps_server t)) (λ t u, 0 <= u < num_clients (tps_server t))).
  - intros ts l u val t Hok _. exists t. split; [done|]. by split.
  - intros ts l u buf t Hok Hu Hb. cbn. unfold with_server. destruct (proj2 (get_client_length u (tps_server t)) Hu) as [c Hc].
    destruct (client_read_ok u c buf _ Hok Hc Hb) as (s' & -> & Hok' & Hk). eexists. split; [reflexivity|].
    split; [done|]. intros v. cbn. unfold num_clients. by rewrite Hk.
  - intros ts l u t Hok Hu. cbn. unfold with_server. destruct (proj2 (get_client_length u (tps_server t)) Hu) as [c Hc].
    destruct (disconnect_ok u c _ Hok Hc) as (s' & E & Hok' & Hk). unfold tps_on_peer_disconnect. rewrite E.
    eexists. split; [reflexivity|]. split; [done|]. intros v. cbn. unfold num_clients. by rewrite Hk.
Defined.
Lemma new_client_ok date tz : (∃ d, date_from_yyyymmdd (u32 (date_yyyy date)) (u32 (date_mm date)) (u32 (date_dd date)) = Ok d) →
  generator_ok (Some (tps_new_client date tz)).
Proof.
  intros Hd fd t Hpos Hok. destruct (client_connect_ok fd date tz (tps_server t) Hok Hd) as (s' & E & Hok' & Hn).
  cbn [tps_input] in E. unfold tps_new_client. unfold on_new_client, locked in *. rewrite (ok_lock _ Hok) in *.
  destruct Hd as [d Hd]. unfold ClientSession_new in *. rewrite Hd in *. cbn [mbind res_bind] in *. injection E as <-.
  eexists _, _. split; [reflexivity|]. split; [split; [exact Hok'|]|].
  - intros v Hv. cbn in *. lia.
  - cbn in *. unfold num_clients in *. cbn in *. rewrite length_app in *. cbn in *. lia.
Qed.

(** *** Rounds *)

(** What happens in a round: the other threads queue events, the sockets answer what
    is written, and the listener waits for connections and events. *)
Record WorkRound := mkWorkRound {
  wr_queued : list AsyncEvent;
  wr_answers : list WriteAnswer;
  wr_round : RoundAnswers
}.
Implicit Types (th : ConnectionListenerThread (AsyncTPSStrategy B)).
Definition rest_with t th : ConnectionListenerThread (AsyncTPSStrategy B) :=
  th <| cl_poller := (cl_poller th) <| ep_rest := t |> |>.
Definition before_round w th : AsyncTPSStrategy B :=
  let t := ep_rest (cl_poller th) in
  let t := set_queue (tps_queue t ++ wr_queued w) t in
  mkTps (tps_strategy t) ((tps_server t) <| tps_answers := wr_answers w |>).
Definition work_round (date tz : Z) w th : res (bool * ConnectionListenerThread (AsyncTPSStrategy B)) :=
  work_process date tz (wr_round w) (rest_with (before_round w th) th).
(** The rounds of the thread, until it stops. *)
Fixpoint run_work (date tz : Z) (rs : list WorkRound) th :
    res (bool * ConnectionListenerThread (AsyncTPSStrategy B)) :=
  match rs with
  | [] => Ok (true, th)
  | w :: rs =>
      '(go_on, th) ← work_round date tz w th;
      if go_on : bool then run_work date tz rs th else Ok (false, th)
  end.
(** What is asked of the rounds: what is queued can be written, no socket stays full,
    and the system answers what it can. *)
Definition work_round_possible (date tz : Z) w th : Prop :=
  (StaysFull ∉ wr_answers w) /\ deliverable (before_round w th)
  /\ ∀ t, write_pending_events (D:=D) (before_round w th) = Ok t →
       round_possible (Some (tps_new_client date tz)) (rest_with t th) (wr_round w).
Fixpoint work_possible (date tz : Z) (rs : list WorkRound) th : Prop :=
  match rs with
  | [] => True
  | w :: rs => work_round_possible date tz w th
      /\ match work_round date tz w th with Ok (true, th') => work_possible date tz rs th' | _ => True end
  end.

Lemma work_round_ok date tz w th :
  (∃ d, date_from_yyyymmdd (u32 (date_yyyy date)) (u32 (date_mm date)) (u32 (date_dd date)) = Ok d) →
  poller_ok (cl_poller th) → work_round_possible date tz w th →
  ∃ go_on th', work_round date tz w th = Ok (go_on, th') /\ poller_ok (cl_poller th')
    /\ (go_on = true ↔ waits_succeed (wr_round w)).
Proof.
  intros Hd Hok (Han & Hdel & Hround). unfold work_round, work_process. set (t0 := before_round w th) in *.
  change (ep_rest (cl_poller (rest_with t0 th))) with t0.
  assert (tps_ok (tps_server t0)) as Hok0.
  { pose proof (pk_rest _ Hok) as Hr. cbn in Hr. apply (answered_ok _ (tps_wire (tps_server (ep_rest (cl_poller th)))) _ Hr Han). }
  destruct (pending_taken t0 Hok0 Hdel) as (t1 & E1 & _ & Hok1 & Hn1 & _). rewrite E1. cbn [mbind res_bind].
  change (rest_with t0 th <| cl_poller := (cl_poller (rest_with t0 th)) <| ep_rest := t1 |> |>) with (rest_with t1 th).
  assert (poller_ok (cl_poller (rest_with t1 th))) as Hp1.
  { apply rest_ok; [done|]. split; [exact Hok1|]. intros u. cbn. by rewrite Hn1. }
  destruct (round_ok _ (new_client_ok date tz Hd) (wr_round w) _ Hp1 (Hround _ E1)) as (go_on & th' & E & Hp' & _).
  exists go_on, th'. split_and!; [exact E|done|]. by eapply process_goes_on.
Qed.
Lemma run_work_ok date tz rs : ∀ th,
  (∃ d, date_from_yyyymmdd (u32 (date_yyyy date)) (u32 (date_mm date)) (u32 (date_dd date)) = Ok d) →
  poller_ok (cl_poller th) → work_possible date tz rs th →
  ∃ go_on th', run_work date tz rs th = Ok (go_on, th') /\ poller_ok (cl_poller th')
    /\ (go_on = true ↔ Forall (λ w, waits_succeed (wr_round w)) rs).
Proof.
  induction rs as [|w rs IH]; intros th Hd Hok Hp; cbn [run_work]; [by exists true, th|].
  destruct Hp as [Hw Hp]. destruct (work_round_ok date tz w th Hd Hok Hw) as (go_on & th1 & E & Hok1 & Hgo).
  rewrite E in *. cbn [mbind res_bind]. setoid_rewrite Forall_cons. destruct go_on.
  - destruct (IH th1 Hd Hok1 Hp) as (g & th' & -> & Hok' & Hg). exists g, th'. split_and!; [done..|]. tauto.
  - exists false, th1. split_and!; [done..|]. naive_solver.
Qed.

End Thread.

(** ** Runs *)

Abbreviation B64 := SpecFloat.spec_float.
(** A client connects; it subscribes to a stock, and another one connects; a quote of the
    stock is queued and written, to a socket that is full at first; the client hangs up. *)
Definition demo_work : list WorkRound :=
  [mkWorkRound [] [] (mkRound (Some true) 7 true (Some []));
   mkWorkRound [] [] (mkRound (Some true) 8 true
     (Some [mkPollEvent 1 (mkTs 1414780200 0) true (Recvd (encode demo_subscribe)) None]));
   mkWorkRound [mkAsyncEvent (mkTs 1414780201 0) 3 1 EVENT_QUOTE (DataQuote demo_quote)] [Errno EAGAIN; Wrote 20]
     (mkRound (Some false) (-1) true (Some [mkPollEvent 1 (mkTs 1414780201 0) true PeerClosed None]))].
Definition demo_listen : ListenAnswers := mkListen 6 true true true.
Definition demo_start : AsyncTPSStrategy (gmap Z L3OrderData) := mkTps (L1_new (NBBO_new [])) (TPSServer_new [(1, Some 42)]).
Definition demo_thread : ConnectionListenerThread (AsyncTPSStrategy (gmap Z L3OrderData)) :=
  mkListenerThread (Poller_new demo_start) 0 (Some 6) true.
Abbreviation demo_gen := (Some (tps_new_client 20141031 18000)).
Lemma empty_events p : events_possible (L:=AsyncTPSStrategy (gmap Z L3OrderData)) p [].
Proof. split; constructor. Qed.
Lemma one_event p ev : event_possible (L:=AsyncTPSStrategy (gmap Z L3OrderData)) p ev → events_possible p [ev].
Proof. intros Hev. split; [by apply Forall_singleton|apply NoDup_singleton]. Qed.
Lemma idle_deliverable w t : wr_queued w = [] → tps_queue (ep_rest (cl_poller t)) = [] →
  deliverable (D:=B64) (B:=gmap Z L3OrderData) (before_round w t).
Proof.
  intros E1 E2. unfold deliverable, before_round. rewrite E1, E2. split; [constructor|]. by eexists.
Qed.
Lemma demo_work_possible : work_possible (D:=B64) 20141031 18000 demo_work demo_thread.
Proof.
  cbn [demo_work work_possible]. split.
  { split; [apply not_elem_of_nil|]. split; [by apply idle_deliverable|]. intros t0 E0. vm_compute in E0. injection E0 as <-.
    split; [right; split_and!; [done|by vm_compute|by vm_compute]|]. intros evs t' _ [= <-]. apply empty_events. }
  match goal with |- match ?x with _ => _ end => destruct x as [[g1 t1]|] eqn:E1 end; [|done].
  destruct g1; [|done]. vm_compute in E1. injection E1 as <-. split.
  { split; [apply not_elem_of_nil|]. split; [by apply idle_deliverable|]. intros t0 E0. vm_compute in E0. injection E0 as <-.
    split; [right; split_and!; [done|by vm_compute|by vm_compute]|]. intros evs t' E [= <-]. vm_compute in E. injection E as <-.
    apply one_event. split; [exists 7; by vm_compute|]. apply forall_bytes. by vm_compute. }
  match goal with |- match ?x with _ => _ end => destruct x as [[g2 t2]|] eqn:E2 end; [|done].
  destruct g2; [|done]. vm_compute in E2. injection E2 as <-. split.
  { split; [set_solver|]. split.
    { split; [|eexists; vm_compute; reflexivity]. apply Forall_singleton. split; [done|].
      intros cid c Hin Hc. assert (cid = 0) as ->.
      { revert Hin. match goal with |- cid ∈ ?l → _ => assert (l = [0]) as -> by (vm_compute; reflexivity) end.
        apply list_elem_of_singleton. }
      revert Hc. vm_compute. intros [= <-]. discriminate. }
    intros t0 E0. vm_compute in E0. injection E0 as <-.
    split; [left; done|]. intros evs t' E [= <-]. vm_compute in E. injection E as <-.
    apply one_event. split; [exists 7; by vm_compute|done]. }
  by match goal with |- match ?x with _ => _ end => destruct x as [[[] ?]|] end.
Qed.
Lemma demo_start_ok : tps_ok (tps_server demo_start).
Proof. apply new_server_ok. by repeat constructor. Qed.
