(* ===== verification/Capture.v ===== *)
(** * Replaying captures (src/net/PcapFileMux.cpp, i01_net/PcapFileMux.hpp, net/Pcap.cpp)

    A reader ([UDPReader] of i01_net/Pcap.hpp) takes the frames of a file one by
    one and hands on the payloads of its UDP packets; [PcapFileMux] merges the
    readers of many files into one stream in the order of time, with the timers
    that fall due on the way.  A packet in the queue is a place in the buffer of
    its reader, as in the code: the payload is read when it is delivered.  The
    pcap library is the list of frames in a file and what ends it.  A read past
    the captured bytes is undefined behaviour.  [std::cerr] is left out. *)

From S2P Require Import Prelude Time Codec PQueue Reorder.
Open Scope Z_scope.

(** ** Frames *)

Definition ETHHDR_SIZE : nat := 14.
Definition UDPHDR_SIZE : nat := 8.
Definition ETH_P_IP : Z := 2048.
Definition ETH_P_8021Q : Z := 33024.
Definition IPPROTO_UDP : Z := 17.

(** Integers of [n] bytes at an offset, as the machine loads them and in network
    order ([ntohs], [ntohl]). *)
Definition load (n off : nat) (buf : list Z) : res Z :=
  if (off + n <=? length buf)%nat then Ok (le_val (take n (drop off buf)))
  else Fail (UndefinedBehaviour "read past the captured bytes").
Definition load_be (n off : nat) (buf : list Z) : res Z :=
  if (off + n <=? length buf)%nat then Ok (le_val (rev (take n (drop off buf))))
  else Fail (UndefinedBehaviour "read past the captured bytes").

(** What [UDPPktListener::handle] is called with, addresses and ports in network
    order; the buffer is an offset into that of the reader. *)
Record UdpCall := mkUdp {
  uc_src_addr : Z; uc_src_port : Z; uc_dst_addr : Z; uc_dst_port : Z;
  uc_off : nat; uc_len : Z; uc_ts : Timestamp
}.
#[export] Instance UdpCall_rebuild : Rebuild UdpCall := λ c,
  mkUdp (uc_src_addr c) (uc_src_port c) (uc_dst_addr c) (uc_dst_port c) (uc_off c) (uc_len c) (uc_ts c).
#[export] Instance UdpCall_eq_dec : EqDecision UdpCall.
Proof. solve_decision. Defined.

(** [ip_hdr_size_]: the low half of the first byte of the header. *)
Definition ip_hdr_size (first : Z) : nat := Z.to_nat (4 * Z.land first 15).

(** [UDPReader::handle_eth_payload_] *)
Definition handle_eth_payload (proto : Z) (buf : list Z) (off : nat) (len : Z) (ts : Timestamp)
    : res (option UdpCall) :=
  if negb (proto =? ETH_P_IP) then Ok None
  else
    first ← load 1 off buf;
    saddr ← load 4 (off + 12) buf;
    daddr ← load 4 (off + 16) buf;
    protocol ← load 1 (off + 9) buf;
    if negb (protocol =? IPPROTO_UDP) then Ok None
    else
      let udp := (off + ip_hdr_size first)%nat in
      source ← load 2 udp buf;
      dest ← load 2 (udp + 2) buf;
      Ok (Some (mkUdp saddr source daddr dest udp (u64 (len - Z.of_nat (ip_hdr_size first))) ts)).

(** [UDPPktListener::handle]: the UDP header is skipped. *)
Definition udp_handle (c : UdpCall) : UdpCall :=
  c <| uc_off := (uc_off c + UDPHDR_SIZE)%nat |>
    <| uc_len := u64 (uc_len c - Z.of_nat UDPHDR_SIZE) |>.

(** The part of [Reader::read_packets] that takes a frame apart. *)
Definition dissect (caplen : Z) (data : list Z) (ts : Timestamp) : res (option UdpCall) :=
  next_proto ← load_be 2 12 data;
  if next_proto =? ETH_P_8021Q then
    next_proto ← load_be 2 (ETHHDR_SIZE + 2) data;
    handle_eth_payload next_proto data (ETHHDR_SIZE + 4) (u32 (caplen - 18)) ts
  else handle_eth_payload next_proto data ETHHDR_SIZE (u32 (caplen - 14)) ts.

(** ** Readers *)

Record PcapReader := mkReader {
  (** the file: the frames not read yet, and what [next_ex] answers after them *)
  rd_frames : list PcapPkt;
  rd_end : Z;
  (** whether [m_pcap_p] is set *)
  rd_open : bool;
  (** the buffer of the library, with the last frame *)
  rd_buf : list Z;
  rd_ts : Timestamp;
  rd_pkt_len : Z;
  rd_bytes_read : Z;
  (** [m_last_channel] *)
  rd_channel : (Z * Z) * (Z * Z)
}.
#[export] Instance Reader_rebuild : Rebuild PcapReader := λ r,
  mkReader (rd_frames r) (rd_end r) (rd_open r) (rd_buf r) (rd_ts r) (rd_pkt_len r) (rd_bytes_read r)
    (rd_channel r).

Definition PCAP_PKTHDR_SIZE : Z := 24.
(** [Reader::Reader]: the library throws when it cannot open the file, [None]. *)
Definition Reader_new (file : option (list PcapPkt * Z)) : res PcapReader :=
  match file with
  | None => Fail (Thrown "pcap")
  | Some (frames, end_) => Ok (mkReader frames end_ true [] ts_zero 0 0 ((0, 0), (0, 0)))
  end.
(** [close_file_]: the buffer goes with the library's reader. *)
Definition close_file (r : PcapReader) : PcapReader := r <| rd_open := false |> <| rd_buf := [] |>.

Section ReadPackets.
(** What is called with the packets, [handle_payload] of what derives from
    [UDPPktListener]. *)
Context {H : Type} (handle_payload : H → UdpCall → H).

(** One frame; the left of the sum is a return. *)
Definition read_frame (p : PcapPkt) (r : PcapReader) (h : H) : res (Z + (PcapReader * H)) :=
  if negb (pk_len p =? pk_caplen p) then Ok (inl (-1))
  else if pk_len p =? 0 then Ok (inl (-1))
  else
    let ts := ts_make (pk_sec p) (pk_usec p) in
    let r := r <| rd_pkt_len := pk_len p |> <| rd_ts := ts |> in
    c ← dissect (pk_caplen p) (pk_data p) ts;
    Ok (inr (match c with
             | None => (r, h)
             | Some c => (r <| rd_channel := ((uc_src_addr c, uc_src_port c), (uc_dst_addr c, uc_dst_port c)) |>,
                          handle_payload h (udp_handle c))
             end)).

Fixpoint read_loop (limit : Z) (frames : list PcapPkt) (count : Z) (r : PcapReader) (h : H)
    : res (Z * PcapReader * H) :=
  if (limit <? 0) || (count <? u32 limit) then
    match frames with
    | [] => Ok (if rd_end r =? -2 then (0, close_file r, h) else (-1, r, h))
    | p :: frames =>
        let r := r <| rd_frames := frames |> <| rd_buf := pk_data p |>
                   <| rd_bytes_read := u32 (rd_bytes_read r + PCAP_PKTHDR_SIZE + pk_caplen p) |> in
        next ← read_frame p r h;
        match next with
        | inl ret => Ok (ret, r, h)
        | inr (r, h) => read_loop limit frames (u32 (count + 1)) r h
        end
    end
  else Ok (i32 count, r, h).

(** [Reader::read_packets] *)
Definition reader_read_packets (limit : Z) (r : PcapReader) (h : H) : res (Z * PcapReader * H) :=
  if rd_open r then read_loop limit (rd_frames r) 0 r h else Ok (0, r, h).
End ReadPackets.

(** ** The multiplexer *)

(** [PktEntry]: the reader by its position in [m_readers]. *)
Record PktEntry := mkEntry { pe_reader : nat; pe_pkt : UdpCall }.
(** [operator>] *)
Definition pe_gtb (a b : PktEntry) : bool := ts_gtb (uc_ts (pe_pkt a)) (uc_ts (pe_pkt b)).

(** What the listener is told, and the listeners of timers. *)
Inductive MuxEvent :=
| EvPayload (src_addr src_port addr port : Z) (payload : list Z) (ts : Timestamp)
| EvTimer (listener : Z) (ts : Timestamp) (iter : Z).

Record Mux := mkMux {
  mx_readers : list (PcapReader * Z);
  mx_handled : bool;
  mx_current : nat;
  mx_queue : list PktEntry;
  mx_timer_listeners : list Z;
  mx_stop_ts : Timestamp;
  mx_last_ts : Timestamp;
  mx_timer_ts : Timestamp;
  (** the static of [Timestamp::last_event] *)
  mx_last_event : Timestamp;
  mx_events : list MuxEvent
}.
#[export] Instance Mux_rebuild : Rebuild Mux := λ m,
  mkMux (mx_readers m) (mx_handled m) (mx_current m) (mx_queue m) (mx_timer_listeners m)
    (mx_stop_ts m) (mx_last_ts m) (mx_timer_ts m) (mx_last_event m) (mx_events m).

(** [FileMuxBase::register_timer] *)
Definition register_timer (listener : Z) (m : Mux) : Mux :=
  m <| mx_timer_listeners := mx_timer_listeners m ++ [listener] |>.

(** [PcapFileMux::handle_payload] *)
Definition mux_handle_payload (latency : Z) (current : nat) (h : list PktEntry * bool) (c : UdpCall)
    : list PktEntry * bool :=
  (pq_push (mkEntry current (c <| uc_ts := ts_plus (uc_ts c) (mkTs 0 latency) |>)) h.1, true).

Section Mux.
Context (top : list PktEntry → nat).

(** [packets_from_reader]; [None]: out of fuel. *)
Fixpoint reader_loop (fuel : nat) (count : Z) (m : Mux) : res (option (Z * Mux)) :=
  match fuel with
  | O => Ok None
  | S fuel =>
      if mx_handled m then Ok (Some (count, m))
      else
        match mx_readers m !! mx_current m with
        | None => Fail (UndefinedBehaviour "no such reader")
        | Some (r, latency) =>
            '(ret, r, (queue, handled)) ←
              reader_read_packets (mux_handle_payload latency (mx_current m)) 1 r (mx_queue m, false);
            let m := m <| mx_readers := <[mx_current m := (r, latency)]> (mx_readers m) |>
                       <| mx_queue := queue |> <| mx_handled := handled |> in
            if ret <=? 0 then Ok (Some (count, m)) else reader_loop fuel (i32 (count + ret)) m
        end
  end.
(** Frames of the reader and the two reads that may find nothing. *)
Definition reader_fuel (i : nat) (m : Mux) : nat :=
  match mx_readers m !! i with Some (r, _) => S (S (length (rd_frames r))) | None => 1 end.
Definition packets_from_reader (i : nat) (m : Mux) : res (option (Z * Mux)) :=
  reader_loop (reader_fuel i m) 0 (m <| mx_current := i |> <| mx_handled := false |>).

(** The loop of [update_timers]: [n] is what [diff.tv_sec] counts down from. *)
Fixpoint timer_loop (n : nat) (m : Mux) : Mux :=
  match n with
  | O => m
  | S n =>
      let timer := mkTs (i64 (tv_sec (mx_timer_ts m) + 1)) (tv_nsec (mx_timer_ts m)) in
      timer_loop n
        (m <| mx_timer_ts := timer |> <| mx_last_event := last_event (mx_last_event m) timer |>
           <| mx_events := mx_events m ++ ((λ l, EvTimer l timer 1) <$> mx_timer_listeners m) |>)
  end.
Definition update_timers (m : Mux) : Mux :=
  if tv_sec (mx_timer_ts m) =? 0 then m <| mx_timer_ts := mx_last_ts m |>
  else
    let diff := ts_minus (mx_last_ts m) (mx_timer_ts m) in
    if 1 <=? tv_sec diff then
      let m := timer_loop (Z.to_nat (tv_sec diff)) m in
      m <| mx_last_event := last_event (mx_last_event m) (mx_last_ts m) |>
    else m.

(** What a queued packet points at now. *)
Definition payload_of (m : Mux) (e : PktEntry) : res (list Z) :=
  match mx_readers m !! pe_reader e with
  | None => Fail (UndefinedBehaviour "no such reader")
  | Some (r, _) =>
      if Z.of_nat (uc_off (pe_pkt e)) + uc_len (pe_pkt e) <=? Z.of_nat (length (rd_buf r))
      then Ok (take (Z.to_nat (uc_len (pe_pkt e))) (drop (uc_off (pe_pkt e)) (rd_buf r)))
      else Fail (UndefinedBehaviour "payload past the captured bytes")
  end.

(** [read_next_packet]; [None]: out of fuel. *)
Definition read_next_packet (m : Mux) : res (option (bool * Mux)) :=
  _ ← assert "m_queue.size() <= m_readers.size()" (length (mx_queue m) <=? length (mx_readers m))%nat;
  match pq_top top (mx_queue m) with
  | None => Ok (Some (false, m))
  | Some e =>
      let c := pe_pkt e in
      let m := m <| mx_last_ts := uc_ts c |> <| mx_last_event := last_event (mx_last_event m) (uc_ts c) |> in
      let m := update_timers m in
      payload ← payload_of m e;
      let m := m <| mx_events := mx_events m ++
        [EvPayload (uc_src_addr c) (uc_src_port c) (uc_dst_addr c) (uc_dst_port c) payload (uc_ts c)] |> in
      let m := m <| mx_queue := pq_pop top (mx_queue m) |> in
      next ← packets_from_reader (pe_reader e) m;
      match next with None => Ok None | Some (_, m) => Ok (Some (true, m)) end
  end.

(** [FileMuxBase::read_packets]; [None]: out of fuel. *)
Fixpoint mux_read_loop (fuel : nat) (num count : Z) (m : Mux) : res (option (Z * Mux)) :=
  if ((tv_sec (mx_stop_ts m) =? 0) && ((num <? 0) || (count <? num)))
     || ts_ltb (mx_last_ts m) (mx_stop_ts m)
  then
    match fuel with
    | O => Ok None
    | S fuel =>
        next ← read_next_packet m;
        match next with
        | None => Ok None
        | Some (false, m) => Ok (Some (i32 (count + 1), m))
        | Some (true, m) => mux_read_loop fuel num (i32 (count + 1)) m
        end
    end
  else Ok (Some (count, m)).
(** Every frame is delivered at most once, a reader has one packet in the queue,
    and a read may find nothing. *)
Definition mux_fuel (m : Mux) : nat :=
  S (length (mx_readers m) + sum_list_with (λ rl, length (rd_frames rl.1)) (mx_readers m)).
Definition mux_read_packets (num : Z) (m : Mux) : res (option (Z * Mux)) :=
  mux_read_loop (mux_fuel m) num 0 m.
Definition read_packets_until (ts : Timestamp) (m : Mux) : res (option (Z * Mux)) :=
  mux_read_packets (-1) (m <| mx_stop_ts := ts |>).

(** [initial_reader_load], over the files in the order of their set. *)
Fixpoint initial_reader_load (fs : string → option (list PcapPkt * Z)) (files : list (string * Z)) (m : Mux)
    : res (option Mux) :=
  match files with
  | [] => Ok (Some m)
  | (name, latency) :: files =>
      r ← Reader_new (fs name);
      let m := m <| mx_readers := mx_readers m ++ [(r, latency)] |> in
      next ← packets_from_reader (length (mx_readers m) - 1) m;
      match next with None => Ok None | Some (_, m) => initial_reader_load fs files m end
  end.
(** The static starts at zero and is shared by the program. *)
Definition PcapFileMux_new (fs : string → option (list PcapPkt * Z)) (files : list (string * Z))
    (last : Timestamp) : res (option Mux) :=
  initial_reader_load fs files (mkMux [] false 0 [] [] ts_zero ts_zero ts_zero last []).
End Mux.
