(* ===== verification/CaptureCorrect.v ===== *)
(** * Replayed captures come in order

    Whatever files are replayed, each packet of each file is delivered once, with
    its bytes, the packets of a file in the order of the file; when the files are
    in the order of time, so is everything that is delivered, and a timer fires
    at every second that passes. *)

From S2P Require Import Prelude Time Codec PQueue Reorder Capture.
Open Scope Z_scope.

(** ** What a file holds *)

Definition frame_ts (p : PcapPkt) : Timestamp := ts_make (pk_sec p) (pk_usec p).
(** A frame of which only a part was captured, and an empty one, end the reading. *)
Definition truncated (p : PcapPkt) : bool := negb (pk_len p =? pk_caplen p) || (pk_len p =? 0).
Fixpoint usable (frames : list PcapPkt) : list PcapPkt :=
  match frames with
  | [] => []
  | p :: frames => if truncated p then [] else p :: usable frames
  end.
(** The delivery of a packet, read off its frame. *)
Definition event_of (data : list Z) (c : UdpCall) : MuxEvent :=
  EvPayload (uc_src_addr c) (uc_src_port c) (uc_dst_addr c) (uc_dst_port c)
    (take (Z.to_nat (uc_len c)) (drop (uc_off c) data)) (uc_ts c).
Definition delayed (latency : Z) (c : UdpCall) : UdpCall := c <| uc_ts := ts_plus (uc_ts c) (mkTs 0 latency) |>.
Definition packet_of (latency : Z) (p : PcapPkt) : option MuxEvent :=
  match dissect (pk_caplen p) (pk_data p) (frame_ts p) with
  | Ok (Some c) => Some (event_of (pk_data p) (delayed latency (udp_handle c)))
  | _ => None
  end.
Definition file_packets (latency : Z) (frames : list PcapPkt) : list MuxEvent :=
  omap (packet_of latency) (usable frames).

(** Headers that are not cut short. *)
Definition within (data : list Z) (c : UdpCall) : bool :=
  Z.of_nat (uc_off c) + uc_len c <=? Z.of_nat (length data).
Definition whole_headers (p : PcapPkt) : bool :=
  match dissect (pk_caplen p) (pk_data p) (frame_ts p) with
  | Ok (Some c) => within (pk_data p) (udp_handle c)
  | Ok None => true
  | Fail _ => false
  end.
Definition readable (frames : list PcapPkt) : Prop := Forall whole_headers (usable frames).

Definition ev_ts (e : MuxEvent) : Timestamp :=
  match e with EvPayload _ _ _ _ _ ts => ts | EvTimer _ ts _ => ts end.
Definition is_payload (e : MuxEvent) : bool := match e with EvPayload _ _ _ _ _ _ => true | EvTimer _ _ _ => false end.
Definition not_after (a b : MuxEvent) : Prop := to_ns (ev_ts a) <= to_ns (ev_ts b).
(** Times after 1970 that the arithmetic of timestamps is exact for. *)
Definition in_epoch (e : MuxEvent) : Prop := ts_wf (ev_ts e) /\ 0 < tv_sec (ev_ts e).

(** ** Interleavings *)

Section Merges.
Context {A : Type}.
(** [takes todo out rest]: the elements of [out], with the positions of their
    lists, come one by one off the fronts of the lists, and [rest] is left. *)
Inductive takes : list (list A) → list (nat * A) → list (list A) → Prop :=
| takes_none todo : takes todo [] todo
| takes_one todo i x l out rest :
    todo !! i = Some (x :: l) → takes (<[i := l]> todo) out rest → takes todo ((i, x) :: out) rest.
(** An interleaving of the lists. *)
Definition merges (todo : list (list A)) (out : list (nat * A)) : Prop :=
  ∃ rest, takes todo out rest /\ Forall (λ l, l = []) rest.

Lemma takes_length todo out rest : takes todo out rest → length rest = length todo.
Proof. induction 1 as [|todo i x l out rest _ _ IH]; [done|]. by rewrite length_insert in IH. Qed.
(** Each list is what was taken from it and what is left of it. *)
Lemma takes_from todo out rest i : takes todo out rest → (i < length todo)%nat →
  ∃ l, rest !! i = Some l /\ todo !! i = Some ((filter (λ x, x.1 = i) out).*2 ++ l).
Proof.
  induction 1 as [todo|todo j x l out rest Hj _ IH]; intros Hi.
  - apply lookup_lt_is_Some in Hi as [l Hl]. by exists l.
  - rewrite length_insert in IH. destruct (IH Hi) as (k & Hk & Ht). exists k. split; [done|].
    destruct (decide (j = i)) as [->|Hne].
    + rewrite filter_cons_True by done. cbn.
      rewrite list_lookup_insert_eq in Ht by done. congruence.
    + rewrite filter_cons_False by done. by rewrite list_lookup_insert_ne in Ht.
Qed.
Lemma takes_concat todo out rest : takes todo out rest → concat todo ≡ₚ out.*2 ++ concat rest.
Proof.
  induction 1 as [todo|todo i x l out rest Hi _ IH]; cbn; [done|].
  rewrite <- IH. pose proof (lookup_lt_Some _ _ _ Hi) as Hlt.
  rewrite <- (take_drop_middle _ _ _ Hi) at 1. rewrite insert_take_drop by done.
  rewrite !concat_app. cbn. by rewrite (Permutation_middle (concat _)).
Qed.
End Merges.

(** ** Reading one frame *)

Lemma read_one {H} (hp : H → UdpCall → H) (r : PcapReader) h :
  rd_open r = true →
  reader_read_packets hp 1 r h =
    match rd_frames r with
    | [] => Ok (if rd_end r =? -2 then (0, close_file r, h) else (-1, r, h))
    | p :: frames =>
        let r := r <| rd_frames := frames |> <| rd_buf := pk_data p |>
                   <| rd_bytes_read := u32 (rd_bytes_read r + PCAP_PKTHDR_SIZE + pk_caplen p) |> in
        next ← read_frame hp p r h;
        match next with
        | inl ret => Ok (ret, r, h)
        | inr (r, h) => Ok (1, r, h)
        end
    end.
Proof.
  intros Ho. unfold reader_read_packets. rewrite Ho. destruct (rd_frames r) as [|p frames]; [done|].
  cbn -[read_frame u32]. destruct (read_frame _ _ _ _) as [[|[r' h']]|]; cbn; try done.
  by destruct frames.
Qed.

(** Whether the frame is used, what it adds, and what is left of the reader. *)
Lemma read_one_frame {H} (hp : H → UdpCall → H) (r : PcapReader) p frames h :
  rd_open r = true → rd_frames r = p :: frames → readable (p :: frames) →
  ∃ ret r', rd_frames r' = frames /\ rd_buf r' = pk_data p /\ rd_open r' = true /\
    if truncated p then ret = -1 /\ reader_read_packets hp 1 r h = Ok (ret, r', h)
    else ret = 1 /\ readable frames /\
      match dissect (pk_caplen p) (pk_data p) (frame_ts p) with
      | Ok (Some c) => within (pk_data p) (udp_handle c) = true /\
          reader_read_packets hp 1 r h = Ok (ret, r', hp h (udp_handle c))
      | Ok None => reader_read_packets hp 1 r h = Ok (ret, r', h)
      | Fail _ => False
      end.
Proof.
  intros Ho Hf Hr. rewrite read_one, Hf by done. unfold read_frame, truncated.
  cbn [rd_open rd_frames rd_buf set_field].
  destruct (Z.eqb_spec (pk_len p) (pk_caplen p)) as [El|]; cbn [negb orb];
    [|eexists _, _; repeat split; cycle 4; [reflexivity|done..]].
  destruct (pk_len p =? 0) eqn:E0; [eexists _, _; repeat split; cycle 4; [reflexivity|done..]|].
  unfold readable in Hr. cbn [usable] in Hr. unfold truncated in Hr.
  rewrite (proj2 (Z.eqb_eq _ _) El), E0 in Hr. cbn [negb orb] in Hr.
  apply Forall_cons in Hr as [Hw Hr]. unfold whole_headers in Hw. fold (frame_ts p).
  destruct (dissect _ _ _) as [[c|]|]; cbn in Hw |- *; [..|done].
  - eexists _, _. split; [|split; [|split]]; cycle 3.
    { split; [done|]. split; [done|]. split; [by apply Is_true_true|reflexivity]. }
    all: done.
  - eexists _, _. split; [|split; [|split]]; cycle 3.
    { split; [done|]. split; [done|reflexivity]. }
    all: done.
Qed.

(** ** The queue *)

(** A packet in the queue, and the rest of its reader's file. *)
Record entry_waits (r : PcapReader) (e : PktEntry) (ev : MuxEvent) : Prop := {
  waits_open : rd_open r = true;
  waits_rest : readable (rd_frames r);
  waits_within : within (rd_buf r) (pe_pkt e) = true;
  waits_event : event_of (rd_buf r) (pe_pkt e) = ev
}.

Lemma reader_loop_ok i lat r m count :
  mx_readers m !! i = Some (r, lat) → mx_current m = i → mx_handled m = false →
  rd_open r = true → readable (rd_frames r) →
  ∃ n r' q h, reader_loop (S (S (length (rd_frames r)))) count m
      = Ok (Some (n, m <| mx_readers := <[i := (r', lat)]> (mx_readers m) |> <| mx_queue := q |> <| mx_handled := h |>)) /\
    match file_packets lat (rd_frames r) with
    | [] => q = mx_queue m
    | ev :: rest => ∃ e, q = pq_push e (mx_queue m) /\ pe_reader e = i /\ entry_waits r' e ev
        /\ rest = file_packets lat (rd_frames r')
    end.
Proof.
  remember (rd_frames r) as frames eqn:Hf. symmetry in Hf. revert r m count Hf.
  induction frames as [|p frames IH]; intros r m count Hf Hm Hi Hh Ho Hr.
  - cbn [reader_loop]. rewrite Hh, Hi, Hm, read_one, Hf by done. cbn [mbind res_bind].
    destruct (rd_end r =? -2); cbn [mbind res_bind]; eexists _, _, _, _; (split; [reflexivity|done]).
  - cbn [length]. remember (S (S (length frames))) as fuel. cbn [reader_loop]. rewrite Hh, Hi, Hm.
    destruct (read_one_frame (mux_handle_payload lat i) r p frames (mx_queue m, false) Ho Hf Hr)
      as (ret & r' & Hf' & Hb' & Ho' & Hcase).
    unfold file_packets. cbn [usable]. destruct (truncated p) eqn:Ht.
    { destruct Hcase as [-> ->]. cbn. eexists _, _, _, _. split; [reflexivity|done]. }
    destruct Hcase as (-> & Hr' & Hcase). cbn [omap list_omap]. unfold packet_of at 1.
    destruct (dissect _ _ _) as [[c|]|]; [| |done].
    + destruct Hcase as [Hw ->]. cbn [mbind res_bind Z.leb Z.compare]. subst fuel. cbn [reader_loop mx_handled set_field].
      eexists _, _, _, _. split; [reflexivity|]. eexists. split; [reflexivity|]. split; [done|].
      split; [|by rewrite Hf'].
      split; [done|by rewrite Hf'|by rewrite Hb'|by rewrite Hb'].
    + rewrite Hcase. cbn [mbind res_bind Z.leb Z.compare].
      pose proof (lookup_lt_Some _ _ _ Hm) as Hlt.
      edestruct (IH r' (m <| mx_readers := <[i := (r', lat)]> (mx_readers m) |> <| mx_queue := mx_queue m |> <| mx_handled := false |>) (i32 (count + 1))) as (n & r2 & q & h & E & Hq); [done|..].
      * cbn. by rewrite list_lookup_insert_eq.
      * done.
      * done.
      * done.
      * done.
      * rewrite E. eexists _, _, _, _. split; [|exact Hq].
        unfold set_field; cbn. by rewrite list_insert_insert_eq.
Qed.

Lemma packets_from_reader_ok i lat r m :
  mx_readers m !! i = Some (r, lat) → rd_open r = true → readable (rd_frames r) →
  ∃ n r' q h, packets_from_reader i m
      = Ok (Some (n, m <| mx_current := i |> <| mx_readers := <[i := (r', lat)]> (mx_readers m) |>
                       <| mx_queue := q |> <| mx_handled := h |>)) /\
    match file_packets lat (rd_frames r) with
    | [] => q = mx_queue m
    | ev :: rest => ∃ e, q = pq_push e (mx_queue m) /\ pe_reader e = i /\ entry_waits r' e ev
        /\ rest = file_packets lat (rd_frames r')
    end.
Proof.
  intros Hm Ho Hr. unfold packets_from_reader, reader_fuel. rewrite Hm.
  destruct (reader_loop_ok i lat r (m <| mx_current := i |> <| mx_handled := false |>) 0)
    as (n & r' & q & h & E & Hq); [done..|]. eexists _, _, _, _. split; [exact E|exact Hq].
Qed.

(** What is still to be delivered, reader by reader: the packet in the queue and
    then the rest of the file. *)
Definition waiting (todo : list (list MuxEvent)) (m : Mux) (e : PktEntry) : Prop :=
  ∃ r lat ev, mx_readers m !! pe_reader e = Some (r, lat) /\ entry_waits r e ev
    /\ todo !! pe_reader e = Some (ev :: file_packets lat (rd_frames r)).
Record mux_inv (todo : list (list MuxEvent)) (m : Mux) : Prop := {
  inv_length : length todo = length (mx_readers m);
  inv_nodup : NoDup (pe_reader <$> mx_queue m);
  inv_waiting : Forall (waiting todo m) (mx_queue m);
  inv_idle i l : todo !! i = Some l → l = [] \/ i ∈ pe_reader <$> mx_queue m
}.

(** What reading ahead leaves alone. *)
Definition same_stream (m m' : Mux) : Prop :=
  mx_timer_listeners m' = mx_timer_listeners m /\ mx_stop_ts m' = mx_stop_ts m
  /\ mx_last_ts m' = mx_last_ts m /\ mx_timer_ts m' = mx_timer_ts m /\ mx_events m' = mx_events m.

(** The invariant but for the reader [i], which has no packet in the queue. *)
Record mux_inv_but (i : nat) (r : PcapReader) (lat : Z) (todo : list (list MuxEvent)) (m : Mux) : Prop := {
  but_length : length todo = length (mx_readers m);
  but_nodup : NoDup (pe_reader <$> mx_queue m);
  but_absent : i ∉ pe_reader <$> mx_queue m;
  but_waiting : Forall (waiting todo m) (mx_queue m);
  but_idle j l : j ≠ i → todo !! j = Some l → l = [] \/ j ∈ pe_reader <$> mx_queue m;
  but_reader : mx_readers m !! i = Some (r, lat);
  but_open : rd_open r = true;
  but_readable : readable (rd_frames r);
  but_todo : todo !! i = Some (file_packets lat (rd_frames r))
}.

Lemma read_ahead_ok i r lat todo m : mux_inv_but i r lat todo m →
  ∃ n m', packets_from_reader i m = Ok (Some (n, m')) /\ mux_inv todo m' /\ same_stream m m'.
Proof.
  intros [Hlen Hnd Habs Hw Hidle Hr Ho Hrd Ht].
  destruct (packets_from_reader_ok i lat r m Hr Ho Hrd) as (n & r' & q & h & E & Hq).
  eexists _, _. split; [exact E|]. split; [|done].
  assert (∀ e, e ∈ mx_queue m → waiting todo m e →
    waiting todo (m <| mx_readers := <[i := (r', lat)]> (mx_readers m) |>) e) as Hframe.
  { intros e He (re & le & ev & Hre & Hev). exists re, le, ev. split; [|done].
    cbn. rewrite list_lookup_insert_ne; [done|]. intros ->. apply Habs. by apply list_elem_of_fmap_2. }
  assert (Forall (waiting todo (m <| mx_readers := <[i := (r', lat)]> (mx_readers m) |>)) (mx_queue m)) as Hw'.
  { rewrite Forall_forall in Hw |- *. auto. }
  destruct (file_packets lat (rd_frames r)) as [|ev rest] eqn:Ef.
  - subst q. split; cbn; rewrite ?length_insert; [done|done|exact Hw'|].
    intros j l Hj. destruct (decide (j = i)) as [->|]; [left; congruence|by apply (Hidle j)].
  - destruct Hq as (e & -> & He & Hwe & ->). split; cbn; rewrite ?length_insert; [done|..].
    + unfold pq_push. rewrite fmap_app. apply NoDup_app. split; [done|]. split; [|apply NoDup_singleton].
      intros j Hj ->%list_elem_of_singleton. by rewrite He in Hj.
    + apply Forall_app. split; [exact Hw'|]. apply Forall_singleton. exists r', lat, ev. rewrite He.
      split; [|split; [done|by rewrite Ht]]. cbn. apply list_lookup_insert_eq. by eapply lookup_lt_Some.
    + intros j l Hj. unfold pq_push. rewrite fmap_app, elem_of_app. cbn. rewrite list_elem_of_singleton, He.
      destruct (decide (j = i)) as [->|]; [tauto|]. destruct (Hidle j l); tauto.
Qed.

(** The files as they are when they are opened. *)
Definition file_todo (fs : string → option (list PcapPkt * Z)) (f : string * Z) : list MuxEvent :=
  match fs f.1 with Some (frames, _) => file_packets f.2 frames | None => [] end.
Definition file_ok (fs : string → option (list PcapPkt * Z)) (f : string * Z) : Prop :=
  match fs f.1 with Some (frames, _) => readable frames | None => False end.

Lemma same_stream_trans a b c : same_stream a b → same_stream b c → same_stream a c.
Proof. unfold same_stream. intros (?&?&?&?&?) (?&?&?&?&?). repeat split; congruence. Qed.

Lemma waiting_snoc todo m rl l e :
  waiting todo m e → waiting (todo ++ [l]) (m <| mx_readers := mx_readers m ++ [rl] |>) e.
Proof.
  intros (re & le & ev & Hre & Hev & Ht). exists re, le, ev. cbn.
  split; [by apply lookup_app_l_Some|]. split; [done|by apply lookup_app_l_Some].
Qed.

Lemma initial_reader_load_ok fs files todo m :
  mux_inv todo m → Forall (file_ok fs) files →
  ∃ m', initial_reader_load fs files m = Ok (Some m') /\ mux_inv (todo ++ (file_todo fs <$> files)) m'
    /\ same_stream m m'.
Proof.
  intros Hi Hf. revert todo m Hi. induction Hf as [|[name lat] files Hf _ IH]; intros todo m Hi.
  { exists m. cbn. rewrite app_nil_r. done. }
  cbn [initial_reader_load fmap list_fmap]. unfold file_ok in Hf. cbn in Hf. unfold file_todo at 1. cbn [fst snd].
  destruct (fs name) as [[frames end_]|]; [|done]. cbn [Reader_new mbind res_bind].
  set (r := mkReader frames end_ true [] ts_zero 0 0 ((0, 0), (0, 0))).
  destruct Hi as [Hlen Hnd Hw Hidle].
  destruct (read_ahead_ok (length (mx_readers m)) r lat (todo ++ [file_packets lat frames])
    (m <| mx_readers := mx_readers m ++ [(r, lat)] |>)) as (n & m1 & E & Hi1 & Hs1).
  { split; cbn; rewrite ?length_app; [cbn; lia|done|..|done|done|].
    - intros (e & Ei & He)%list_elem_of_fmap. rewrite Forall_forall in Hw.
      destruct (Hw e He) as (re & le & ev & Hre & _). apply lookup_lt_Some in Hre. lia.
    - eapply Forall_impl; [exact Hw|]. intros e. apply waiting_snoc.
    - intros j l Hj [Hl|[Hge Hl]]%lookup_app_Some; [by apply (Hidle j)|].
      apply lookup_lt_Some in Hl as Hlt. cbn in Hlt. lia.
    - by apply list_lookup_middle.
    - rewrite <- Hlen. by apply list_lookup_middle. }
  cbn [mx_readers set_field]. rewrite length_app. cbn [length]. rewrite Nat.add_sub. rewrite E. cbn [mbind res_bind].
  destruct (IH _ _ Hi1) as (m2 & E2 & Hi2 & Hs2). exists m2. split; [exact E2|].
  split; [by rewrite <- app_assoc in Hi2|by eapply same_stream_trans].
Qed.

Lemma length_file_packets lat frames : (length (file_packets lat frames) <= length frames)%nat.
Proof.
  unfold file_packets. induction frames as [|p frames IH]; cbn [usable]; [done|].
  destruct (truncated p); [cbn; lia|]. cbn [omap list_omap length]. destruct (packet_of lat p); cbn [length]; lia.
Qed.
Lemma length_concat_le todo m : mux_inv todo m → (length (concat todo) < mux_fuel m)%nat.
Proof.
  intros [Hlen _ Hw Hidle]. unfold mux_fuel. apply Nat.lt_succ_r.
  assert (Forall2 (λ l rl, length l <= S (length (rd_frames rl.1)))%nat todo (mx_readers m)) as Hle.
  { apply Forall2_same_length_lookup. split; [done|]. intros i l rl Hl Hrl.
    destruct (Hidle i l Hl) as [->|(e & -> & He)%list_elem_of_fmap]; [cbn; lia|].
    rewrite Forall_forall in Hw. destruct (Hw e He) as (r & lat & ev & Hr & _ & Ht).
    rewrite Hl in Ht. injection Ht as ->. rewrite Hrl in Hr. injection Hr as ->. cbn.
    apply le_n_S, length_file_packets. }
  clear -Hle. induction Hle as [|l rl todo rls Hl _ IH]; cbn; [done|]. rewrite length_app. lia.
Qed.

(** ** Delivering a packet *)

(** The timers of the seconds that pass before a packet. *)
Definition next_second (t : Timestamp) : Timestamp := mkTs (i64 (tv_sec t + 1)) (tv_nsec t).
Fixpoint seconds (n : nat) (t : Timestamp) : list Timestamp :=
  match n with O => [] | S n => next_second t :: seconds n (next_second t) end.
Definition fire (listeners : list Z) (t : Timestamp) : list MuxEvent := (λ l, EvTimer l t 1) <$> listeners.
Definition due (timer : Timestamp) (e : MuxEvent) : list Timestamp :=
  if tv_sec timer =? 0 then [] else seconds (Z.to_nat (tv_sec (ts_minus (ev_ts e) timer))) timer.
Definition timer_after (timer : Timestamp) (e : MuxEvent) : Timestamp :=
  if tv_sec timer =? 0 then ev_ts e else default timer (last (due timer e)).

Lemma timer_loop_ok n m :
  mx_timer_listeners (timer_loop n m) = mx_timer_listeners m /\ mx_stop_ts (timer_loop n m) = mx_stop_ts m
  /\ mx_last_ts (timer_loop n m) = mx_last_ts m /\ mx_readers (timer_loop n m) = mx_readers m
  /\ mx_queue (timer_loop n m) = mx_queue m
  /\ mx_timer_ts (timer_loop n m) = default (mx_timer_ts m) (last (seconds n (mx_timer_ts m)))
  /\ mx_events (timer_loop n m) = mx_events m ++ concat (fire (mx_timer_listeners m) <$> seconds n (mx_timer_ts m)).
Proof.
  revert m. induction n as [|n IH]; intros m; cbn [timer_loop seconds].
  { cbn. by rewrite app_nil_r. }
  edestruct IH as (E1 & E2 & E3 & E4 & E5 & E6 & E7). rewrite E1, E2, E3, E4, E5, E6, E7.
  cbn -[i64]. rewrite <- app_assoc. fold (next_second (mx_timer_ts m)). split_and!; try done.
  by destruct (last (seconds n (next_second (mx_timer_ts m)))) eqn:El; rewrite last_cons, El.
Qed.

Lemma update_timers_ok e m : mx_last_ts m = ev_ts e →
  let m' := update_timers m in
  mx_timer_listeners m' = mx_timer_listeners m /\ mx_stop_ts m' = mx_stop_ts m
  /\ mx_last_ts m' = mx_last_ts m /\ mx_readers m' = mx_readers m /\ mx_queue m' = mx_queue m
  /\ mx_timer_ts m' = timer_after (mx_timer_ts m) e
  /\ mx_events m' = mx_events m ++ concat (fire (mx_timer_listeners m) <$> due (mx_timer_ts m) e).
Proof.
  intros Hl. cbn zeta. unfold update_timers, timer_after, due. rewrite Hl.
  destruct (tv_sec (mx_timer_ts m) =? 0); [cbn; by rewrite app_nil_r|].
  destruct (Z.leb_spec 1 (tv_sec (ts_minus (ev_ts e) (mx_timer_ts m)))) as [H1|H1].
  - edestruct (timer_loop_ok (Z.to_nat (tv_sec (ts_minus (ev_ts e) (mx_timer_ts m)))) m)
      as (E1 & E2 & E3 & E4 & E5 & E6 & E7).
    cbn -[timer_loop]. by rewrite E1, E2, E3, E4, E5, E6, E7.
  - replace (Z.to_nat _) with 0%nat by lia. cbn. by rewrite app_nil_r.
Qed.

Lemma queue_fits todo m : mux_inv todo m → (length (mx_queue m) <= length (mx_readers m))%nat.
Proof.
  intros [_ Hnd Hw _]. rewrite <- (length_fmap pe_reader), <- (length_seq (length (mx_readers m)) 0).
  apply submseteq_length, NoDup_submseteq; [done|].
  intros i (e & -> & He)%list_elem_of_fmap. rewrite Forall_forall in Hw.
  destruct (Hw e He) as (r & lat & ev & Hr & _). apply lookup_lt_Some in Hr. apply elem_of_seq. lia.
Qed.

(** The packet at the front of the queue and its reader. *)
Lemma front_ok top todo m e : TopOk pe_gtb top → mux_inv todo m → pq_top top (mx_queue m) = Some e →
  ∃ r lat ev, mx_readers m !! pe_reader e = Some (r, lat) /\ entry_waits r e ev
    /\ todo !! pe_reader e = Some (ev :: file_packets lat (rd_frames r))
    /\ (∀ j ev' l, todo !! j = Some (ev' :: l) → ts_gtb (ev_ts ev) (ev_ts ev') = false)
    /\ mux_inv_but (pe_reader e) r lat (<[pe_reader e := file_packets lat (rd_frames r)]> todo)
         (m <| mx_queue := pq_pop top (mx_queue m) |>).
Proof.
  intros Htop [Hlen Hnd Hw Hidle] He.
  pose proof (pq_pop_perm _ _ _ He) as Hp. pose proof (pq_top_least _ _ _ _ He) as Hleast.
  rewrite Forall_forall in Hw, Hleast.
  destruct (Hw e) as (r & lat & ev & Hr & Hwe & Ht); [rewrite Hp; by apply list_elem_of_here|].
  exists r, lat, ev. do 3 (split; [done|]). rewrite Hp in Hnd. cbn in Hnd. apply NoDup_cons in Hnd as [Habs Hnd].
  split.
  - intros j ev' l Hj. destruct (Hidle j _ Hj) as [?|(e' & -> & He')%list_elem_of_fmap]; [done|].
    destruct (Hw e' He') as (r' & lat' & ev2 & _ & Hwe' & Ht'). rewrite Hj in Ht'. injection Ht' as <- _.
    rewrite <- (waits_event _ _ _ Hwe), <- (waits_event _ _ _ Hwe'). by apply Hleast.
  - split; cbn; rewrite ?length_insert; [done|done|done|..|done| |by apply Hwe|].
    + apply Forall_forall. intros e' He'. destruct (Hw e') as (r' & lat' & ev' & Hr' & Hwe' & Ht').
      { rewrite Hp. by apply list_elem_of_further. }
      exists r', lat', ev'. cbn. split; [done|]. split; [done|]. rewrite list_lookup_insert_ne; [done|].
      intros Heq. apply Habs. rewrite Heq. by apply list_elem_of_fmap_2.
    + intros j l Hj Hl. rewrite list_lookup_insert_ne in Hl by done.
      destruct (Hidle j l Hl) as [|Hin]; [by left|]. right. rewrite Hp in Hin. cbn in Hin.
      by apply elem_of_cons in Hin as [|].
    + by apply Hwe.
    + apply list_lookup_insert_eq. by eapply lookup_lt_Some.
Qed.

Record delivers (todo : list (list MuxEvent)) (i : nat) (ev : MuxEvent) (rest : list MuxEvent) (m m' : Mux) : Prop := {
  dl_front : todo !! i = Some (ev :: rest);
  dl_inv : mux_inv (<[i := rest]> todo) m';
  dl_least j ev' l : todo !! j = Some (ev' :: l) → ts_gtb (ev_ts ev) (ev_ts ev') = false;
  dl_listeners : mx_timer_listeners m' = mx_timer_listeners m;
  dl_stop : mx_stop_ts m' = mx_stop_ts m;
  dl_last : mx_last_ts m' = ev_ts ev;
  dl_timer : mx_timer_ts m' = timer_after (mx_timer_ts m) ev;
  dl_events : mx_events m' = mx_events m ++ concat (fire (mx_timer_listeners m) <$> due (mx_timer_ts m) ev) ++ [ev]
}.

Lemma read_next_packet_ok top todo m : TopOk pe_gtb top → mux_inv todo m →
  (Forall (λ l, l = []) todo /\ read_next_packet top m = Ok (Some (false, m)))
  \/ ∃ i ev rest m', read_next_packet top m = Ok (Some (true, m')) /\ delivers todo i ev rest m m'.
Proof.
  intros Htop Hi. unfold read_next_packet.
  rewrite (proj2 (Nat.leb_le _ _) (queue_fits _ _ Hi)). cbn [assert mbind res_bind].
  destruct (pq_top top (mx_queue m)) as [e|] eqn:He.
  - right. destruct (front_ok top todo m e Htop Hi He) as (r & lat & ev & Hr & Hw & Ht & Hleast & Hbut).
    assert (ev_ts ev = uc_ts (pe_pkt e)) as Hts by by rewrite <- (waits_event _ _ _ Hw).
    set (m1 := m <| mx_last_ts := uc_ts (pe_pkt e) |> <| mx_last_event := last_event (mx_last_event m) (uc_ts (pe_pkt e)) |>).
    destruct (update_timers_ok ev m1) as (E1 & E2 & E3 & E4 & E5 & E6 & E7); [done|].
    fold m1. set (m2 := update_timers m1) in *. cbn zeta in *.
    unfold payload_of. rewrite E4. change (mx_readers m1) with (mx_readers m). rewrite Hr.
    pose proof (waits_within _ _ _ Hw) as Hin. unfold within in Hin. rewrite Hin. cbn [mbind res_bind].
    edestruct (read_ahead_ok (pe_reader e) r lat) as (n & m' & E & Hi' & Hs).
    2: { rewrite E. cbn [mbind res_bind]. exists (pe_reader e), ev, (file_packets lat (rd_frames r)), m'.
         split; [done|]. destruct Hs as (S1 & S2 & S3 & S4 & S5).
         split; [done|exact Hi'|done|by rewrite S1|by rewrite S2|..].
         - rewrite S3. cbn. by rewrite E3.
         - rewrite S4. cbn. by rewrite E6.
         - rewrite S5. cbn. rewrite E7, <- app_assoc. cbn. do 3 f_equal. by rewrite <- (waits_event _ _ _ Hw). }
    destruct Hbut as [B1 B2 B3 B4 B5 B6 B7 B8 B9].
    split; cbn; rewrite ?E5, ?E4; [done|done|done|..|done|done|done].
    + eapply Forall_impl; [exact B4|]. intros e' (r' & lat' & ev' & Hr' & Hrest). exists r', lat', ev'.
      split; [|done]. cbn. by rewrite E4.
    + intros j l. apply B5.
    + exact B6.
  - left. split; [|done]. assert (mx_queue m = []) as Hq.
    { destruct (mx_queue m) as [|e q] eqn:Hq; [done|]. exfalso.
      destruct (pq_top_some pe_gtb top (e :: q)) as [x Hx]; [done|]. congruence. }
    apply Forall_lookup. intros i l Hl. destruct (inv_idle _ _ Hi i l Hl) as [|Hin]; [done|].
    rewrite Hq in Hin. by apply not_elem_of_nil in Hin.
Qed.

(** ** The stream *)

Fixpoint timeline (listeners : list Z) (timer : Timestamp) (packets : list MuxEvent) : list MuxEvent :=
  match packets with
  | [] => []
  | e :: packets => concat (fire listeners <$> due timer e) ++ e :: timeline listeners (timer_after timer e) packets
  end.
Definition goes (num count : Z) (m : Mux) : bool :=
  ((tv_sec (mx_stop_ts m) =? 0) && ((num <? 0) || (count <? num))) || ts_ltb (mx_last_ts m) (mx_stop_ts m).

Record streamed (num : Z) (todo : list (list MuxEvent)) (out : list (nat * MuxEvent)) (rest : list (list MuxEvent))
    (m : Mux) (n : Z) (m' : Mux) : Prop := {
  st_takes : takes todo out rest;
  st_inv : mux_inv rest m';
  st_stop : mx_stop_ts m' = mx_stop_ts m;
  st_events : mx_events m' = mx_events m ++ timeline (mx_timer_listeners m) (mx_timer_ts m) out.*2;
  st_end : Forall (λ l, l = []) rest \/ goes num n m' = false;
  st_sorted : Forall (StronglySorted not_after) todo → Forall (Forall in_epoch) todo →
    StronglySorted not_after out.*2 /\ Forall (λ e, Forall (not_after e) (concat rest)) out.*2
}.

Lemma concat_lookup_elem {A} (todo : list (list A)) i l x : todo !! i = Some l → x ∈ l → x ∈ concat todo.
Proof. intros Hi Hx. apply list_elem_of_In, in_concat. exists l. split; apply list_elem_of_In; [by eapply list_elem_of_lookup_2|done]. Qed.

(** What is delivered first is not after anything else. *)
Lemma least_of_all (todo : list (list MuxEvent)) i x l :
  todo !! i = Some (x :: l) → (∀ j y k, todo !! j = Some (y :: k) → ts_gtb (ev_ts x) (ev_ts y) = false) →
  Forall (StronglySorted not_after) todo → Forall (Forall in_epoch) todo →
  Forall (not_after x) (concat todo).
Proof.
  intros Hi Hleast Hs He. rewrite Forall_lookup in Hs, He. apply Forall_forall.
  intros y Hy. apply list_elem_of_In, in_concat in Hy as (k & Hk & Hy).
  apply list_elem_of_In in Hk, Hy. apply list_elem_of_lookup in Hk as [j Hj].
  destruct k as [|z k]; [by apply not_elem_of_nil in Hy|].
  specialize (Hs j _ Hj). apply StronglySorted_inv in Hs as [_ Hz].
  pose proof (He j _ Hj) as Hej. pose proof (He i _ Hi) as Hei.
  apply Forall_cons in Hej as [[Hzw _] _], Hei as [[Hxw _] _].
  assert (not_after x z) as Hxz.
  { specialize (Hleast j _ _ Hj). unfold ts_gtb in Hleast. apply negb_false_iff in Hleast.
    by apply ts_leb_ns in Hleast. }
  apply elem_of_cons in Hy as [->|Hy]; [done|]. rewrite Forall_forall in Hz. specialize (Hz y Hy).
  unfold not_after in *. lia.
Qed.

Lemma mux_read_loop_ok top fuel num count todo m : TopOk pe_gtb top → mux_inv todo m →
  (length (concat todo) < fuel)%nat →
  ∃ n m' out rest, mux_read_loop top fuel num count m = Ok (Some (n, m'))
    /\ streamed num todo out rest m n m'
    /\ (out ≠ [] → goes num count m = true)
    /\ (tv_sec (mx_stop_ts m) ≠ 0 → Forall (λ e, ts_ltb (ev_ts e) (mx_stop_ts m) = true) (removelast out.*2)).
Proof.
  intros Htop. revert count todo m. induction fuel as [|fuel IH]; intros count todo m Hi Hfuel; [lia|].
  cbn [mux_read_loop]. fold (goes num count m). destruct (goes num count m) eqn:Hg.
  2: { eexists count, m, [], todo. split; [done|]. split; [|done].
       split; [constructor|done|done|cbn; by rewrite app_nil_r|by right|].
       intros _ _. split; constructor. }
  destruct (read_next_packet_ok top todo m Htop Hi) as [[Hnil ->]|(i & ev & rest & m1 & -> & Hd)]; cbn [mbind res_bind].
  { eexists _, m, [], todo. split; [done|]. split; [|done].
    split; [constructor|done|done|cbn; by rewrite app_nil_r|by left|]. intros _ _. split; constructor. }
  pose proof (dl_front _ _ _ _ _ _ Hd) as Hf.
  assert (concat todo ≡ₚ ev :: concat (<[i := rest]> todo)) as Hp.
  { apply (takes_concat todo [(i, ev)]). econstructor; [done|constructor]. }
  destruct (IH (i32 (count + 1)) _ m1 (dl_inv _ _ _ _ _ _ Hd)) as (n & m' & out & left_ & E & Hst & Hgo & Hbefore).
  { rewrite Hp in Hfuel. cbn in Hfuel. lia. }
  exists n, m', ((i, ev) :: out), left_. split; [exact E|]. split; [|split; [done|]].
  - destruct Hst as [T1 T2 T3 T4 T5 T6]. destruct Hd as [_ _ Hleast D4 D5 D6 D7 D8].
    split; [by econstructor|done|congruence|..|done|].
    + rewrite T4, D4, D7, D8. cbn. by rewrite <- !app_assoc.
    + intros Hs He. pose proof (least_of_all todo i ev rest Hf Hleast Hs He) as Hall.
      rewrite Hp in Hall. apply Forall_cons in Hall as [_ Hall].
      rewrite (takes_concat _ _ _ T1) in Hall. apply Forall_app in Hall as [Ha1 Ha2].
      rewrite Forall_lookup in Hs, He. specialize (Hs i _ Hf) as Hsi. specialize (He i _ Hf) as Hei.
      apply StronglySorted_inv in Hsi as [Hsi _]. apply Forall_cons in Hei as [_ Hei].
      destruct T6 as [S1 S2].
      { apply Forall_insert; [|done]. by apply Forall_lookup. }
      { apply Forall_insert; [|done]. by apply Forall_lookup. }
      cbn. split; [by constructor|]. by constructor.
  - intros Hstop. rewrite (dl_stop _ _ _ _ _ _ Hd) in Hbefore. specialize (Hbefore Hstop).
    destruct out as [|y out]; [constructor|].
    change (((i, ev) :: y :: out).*2) with (ev :: (y :: out).*2).
    change (removelast (ev :: (y :: out).*2)) with (ev :: removelast (y :: out).*2).
    constructor; [|done]. specialize (Hgo ltac:(done)). unfold goes in Hgo.
    rewrite (dl_stop _ _ _ _ _ _ Hd), (dl_last _ _ _ _ _ _ Hd) in Hgo.
    apply Z.eqb_neq in Hstop. by rewrite Hstop in Hgo.
Qed.

(** ** Timers *)

Definition packets_in (evs : list MuxEvent) : list MuxEvent := filter is_payload evs.
Definition timers_in (evs : list MuxEvent) : list MuxEvent := filter (λ e, negb (is_payload e)) evs.

Lemma fires_all (P : MuxEvent → Prop) ls ts :
  Forall (λ t, ∀ l, P (EvTimer l t 1)) ts → Forall P (concat (fire ls <$> ts)).
Proof.
  intros Hp. apply Forall_concat, Forall_fmap. eapply Forall_impl; [exact Hp|]. cbn. intros t Ht.
  unfold fire. by apply Forall_fmap, Forall_true.
Qed.
Lemma fire_no_packets ls ts : packets_in (concat (fire ls <$> ts)) = [].
Proof. apply filter_none, fires_all, Forall_true. intros t l []. Qed.
Lemma fire_timers ls ts : timers_in (concat (fire ls <$> ts)) = concat (fire ls <$> ts).
Proof. apply list_filter_all, fires_all, Forall_true. by intros. Qed.
Lemma timeline_packets ls timer ps : Forall is_payload ps → packets_in (timeline ls timer ps) = ps.
Proof.
  unfold packets_in. intros Hp. revert timer. induction Hp as [|e ps He _ IH]; intros timer; [done|].
  cbn [timeline]. rewrite filter_app, filter_cons_True by done. fold (packets_in (concat (fire ls <$> due timer e))).
  by rewrite fire_no_packets, IH.
Qed.

Lemma next_second_ns t : ts_wf t → tv_sec t + 1 < 8589934592 →
  ts_wf (next_second t) /\ to_ns (next_second t) = to_ns t + NS.
Proof.
  unfold ts_wf, next_second, to_ns. cbn. intros [??] ?. rewrite i64_id by lia. lia.
Qed.
(** [n] seconds after [t], with the time reached. *)
Lemma seconds_ns n t : ts_wf t → tv_sec t + Z.of_nat n < 8589934592 →
  let t' := default t (last (seconds n t)) in
  ts_wf t' /\ to_ns t' = to_ns t + Z.of_nat n * NS
  /\ Forall (λ u, to_ns t + NS <= to_ns u <= to_ns t') (seconds n t)
  /\ StronglySorted (λ u v, to_ns u <= to_ns v) (seconds n t).
Proof.
  cbn zeta. revert t. induction n as [|n IH]; intros t Ht Hn.
  { cbn. split; [done|]. split; [lia|]. split; constructor. }
  destruct (next_second_ns t Ht) as [Hw Hns]; [lia|].
  assert (tv_sec (next_second t) = tv_sec t + 1) as Hsec.
  { destruct Ht. cbn. apply i64_id. lia. }
  destruct (IH (next_second t) Hw ltac:(lia)) as (I1 & I2 & I3 & I4).
  cbn [seconds]. rewrite last_cons.
  destruct (last (seconds n (next_second t))) as [u|] eqn:El; cbn [default] in *.
  - split; [done|]. split; [lia|]. split.
    + constructor; [unfold NS in *; lia|]. eapply Forall_impl; [exact I3|]. cbn. unfold NS in *. lia.
    + constructor; [done|]. eapply Forall_impl; [exact I3|]. cbn. unfold NS in *. lia.
  - apply last_None in El. unfold id in *. split; [done|]. split; [unfold NS in *; lia|]. rewrite El. split.
    + constructor; [unfold NS in *; lia|constructor].
    + constructor; constructor.
Qed.
Lemma seconds_app a b t : seconds (a + b) t = seconds a t ++ seconds b (default t (last (seconds a t))).
Proof.
  revert t. induction a as [|a IH]; intros t; [done|]. cbn. f_equal. rewrite IH. f_equal.
  by destruct (last (seconds a (next_second t))) eqn:El; rewrite last_cons, El.
Qed.
Lemma ts_minus_sec a b : ts_wf a → ts_wf b → tv_sec (ts_minus a b) = (to_ns a - to_ns b) / NS.
Proof.
  intros Ha Hb. destruct (ts_minus_ns a b Ha Hb) as [<- Hr]. unfold to_ns.
  rewrite Z.add_comm, Z.div_add, Z.div_small by (unfold NS in *; lia). lia.
Qed.

Lemma fire_sorted ls ts : StronglySorted (λ u v, to_ns u <= to_ns v) ts →
  StronglySorted not_after (concat (fire ls <$> ts)).
Proof.
  induction 1 as [|t ts _ IH Hall]; cbn; [constructor|].
  assert (∀ x, x ∈ fire ls t → ev_ts x = t) as Hf by by intros x (l & -> & _)%list_elem_of_fmap.
  apply StronglySorted_app. split; [|split; [|exact IH]].
  - intros x y Hx Hy. unfold not_after. rewrite (Hf x Hx). revert y Hy. apply Forall_forall, fires_all.
    eapply Forall_impl; [exact Hall|]. by cbn.
  - clear -Hf. induction (fire ls t) as [|x l IH]; constructor.
    + apply IH. intros y Hy. apply Hf. by apply list_elem_of_further.
    + apply Forall_forall. intros y Hy. unfold not_after. rewrite (Hf x), (Hf y); [done|..].
      * by apply list_elem_of_further.
      * by apply list_elem_of_here.
Qed.

(** The time of the last packet. *)
Definition last_time (t : Timestamp) (ps : list MuxEvent) : Z := to_ns (default t (ev_ts <$> last ps)).
Definition whole_seconds (t : Timestamp) (ps : list MuxEvent) : nat := Z.to_nat ((last_time t ps - to_ns t) / NS).

Lemma due_ns timer e : ts_wf timer → 0 < tv_sec timer → in_epoch e → to_ns timer <= to_ns (ev_ts e) →
  let n := Z.to_nat ((to_ns (ev_ts e) - to_ns timer) / NS) in
  due timer e = seconds n timer /\ timer_after timer e = default timer (last (seconds n timer))
  /\ tv_sec timer + Z.of_nat n < 8589934592 /\ Z.of_nat n = (to_ns (ev_ts e) - to_ns timer) / NS.
Proof.
  intros Ht Hs [He _] Hle n. unfold timer_after, due. rewrite ts_minus_sec by done. fold n.
  rewrite (proj2 (Z.eqb_neq _ _)) by lia. split; [done|]. split; [done|].
  assert (Z.of_nat n = (to_ns (ev_ts e) - to_ns timer) / NS) as Hn.
  { unfold n. rewrite Z2Nat.id; [done|]. apply Z.div_pos; unfold NS; lia. }
  split; [|done]. rewrite Hn.
  pose proof (Z.mul_div_le (to_ns (ev_ts e) - to_ns timer) NS ltac:(unfold NS; lia)).
  clearbody n. generalize dependent ((to_ns (ev_ts e) - to_ns timer) / NS). intros q Hn Hq.
  destruct He, Ht. unfold to_ns, NS in *. lia.
Qed.

(** Nothing in the timeline is before the packets, but for the timers due. *)
Lemma timeline_ok ls timer ps :
  ts_wf timer → 0 < tv_sec timer → Forall in_epoch ps → StronglySorted not_after ps →
  Forall (λ e, to_ns timer <= to_ns (ev_ts e)) ps → Forall is_payload ps →
  StronglySorted not_after (timeline ls timer ps)
  /\ (∀ b, b <= to_ns timer + NS → Forall (λ e, b <= to_ns (ev_ts e)) ps →
       Forall (λ e, b <= to_ns (ev_ts e)) (timeline ls timer ps))
  /\ timers_in (timeline ls timer ps) = concat (fire ls <$> seconds (whole_seconds timer ps) timer).
Proof.
  intros Ht Hs He Hsort Hle Hp. revert timer Ht Hs Hle. induction ps as [|p ps IH]; intros timer Ht Hs Hle.
  { unfold whole_seconds, last_time. cbn. rewrite Z.sub_diag. cbn. split_and!; [constructor|constructor|done]. }
  apply Forall_cons in He as [Hep He], Hle as [Hlep _], Hp as [Hpp Hp].
  apply StronglySorted_inv in Hsort as [Hsort Hpall].
  destruct (due_ns timer p Ht Hs Hep Hlep) as (Ed & Ea & Hbound & Hn).
  set (n := Z.to_nat _) in *. destruct (seconds_ns n timer Ht Hbound) as (W1 & W2 & W3 & W4).
  cbn [timeline]. rewrite Ed, Ea. set (t' := default timer (last (seconds n timer))) in *.
  pose proof (Z.mul_div_le (to_ns (ev_ts p) - to_ns timer) NS ltac:(unfold NS; lia)) as Hfloor.
  pose proof (Z.mul_succ_div_gt (to_ns (ev_ts p) - to_ns timer) NS ltac:(unfold NS; lia)) as Hceil.
  rewrite <- Hn in Hfloor, Hceil.
  assert (to_ns timer <= to_ns t') as Htt by (unfold NS in *; lia).
  assert (to_ns t' <= to_ns (ev_ts p) < to_ns t' + NS) as Htp by (unfold NS in *; lia).
  destruct (IH He Hsort Hp t' W1) as (I1 & I2 & I3).
  { destruct Ht, W1. unfold to_ns, NS in *. lia. }
  { eapply Forall_impl; [exact Hpall|]. unfold not_after. intros x. lia. }
  pose proof (I2 (to_ns (ev_ts p)) ltac:(lia) Hpall) as Hafter.
  split; [|split].
  - apply StronglySorted_app. split; [|split].
    + intros x y Hx Hy. unfold not_after.
      assert (to_ns (ev_ts x) <= to_ns (ev_ts p)) as Hx'.
      { revert x Hx. apply Forall_forall, fires_all. eapply Forall_impl; [exact W3|]. cbn. lia. }
      apply elem_of_cons in Hy as [->|Hy]; [lia|]. rewrite Forall_forall in Hafter. specialize (Hafter y Hy). lia.
    + by apply fire_sorted.
    + constructor; [exact I1|exact Hafter].
  - intros b Hb Hbp. apply Forall_cons in Hbp as [Hbp _]. apply Forall_app. split; [|constructor; [done|]].
    + apply fires_all. eapply Forall_impl; [exact W3|]. cbn. lia.
    + eapply Forall_impl; [exact Hafter|]. cbn. lia.
  - unfold timers_in. rewrite filter_app, filter_cons_False by (destruct p; [by intros []|done]).
    fold (timers_in (concat (fire ls <$> seconds n timer))) (timers_in (timeline ls t' ps)).
    rewrite fire_timers, I3, <- concat_app, <- fmap_app. do 2 f_equal. unfold t'.
    rewrite <- seconds_app. f_equal. unfold whole_seconds.
    fold t'. assert (last_time timer (p :: ps) = last_time (ev_ts p) ps) as ->.
    { unfold last_time. rewrite last_cons. by destruct (last ps). }
    destruct (last ps) as [q|] eqn:Eq; unfold last_time; rewrite Eq; cbn.
    + assert (to_ns (ev_ts p) <= to_ns (ev_ts q)) as Hq.
      { rewrite Forall_forall in Hpall. apply Hpall. by apply last_Some_elem_of. }
      replace (to_ns (ev_ts q) - to_ns timer) with (to_ns (ev_ts q) - to_ns t' + Z.of_nat n * NS) by lia.
      rewrite Z.div_add, Z2Nat.inj_add, Nat2Z.id by (unfold NS in *; try apply Z.div_pos; lia). lia.
    + by rewrite Z.sub_diag, <- Hn, Nat2Z.id, Nat.add_0_r.
Qed.

(** ** Replays *)

Definition in_time_order (packets : list MuxEvent) : Prop := StronglySorted not_after packets /\ Forall in_epoch packets.
Definition register_timers (listeners : list Z) (m : Mux) : Mux := foldl (λ m l, register_timer l m) m listeners.

Lemma file_packets_payload lat frames : Forall is_payload (file_packets lat frames).
Proof.
  apply Forall_forall. intros e (p & _ & Hp)%list_elem_of_omap. unfold packet_of in Hp.
  destruct (dissect _ _ _) as [[c|]|]; [|done|done]. by injection Hp as <-.
Qed.

Lemma register_timers_ok ls m :
  register_timers ls m = m <| mx_timer_listeners := mx_timer_listeners m ++ ls |>.
Proof.
  revert m. induction ls as [|l ls IH]; intros m; cbn.
  - destruct m. unfold set_field. cbn. by rewrite app_nil_r.
  - unfold register_timers in IH. rewrite IH. unfold register_timer, set_field. cbn. by rewrite <- app_assoc.
Qed.

(** The state in which the files are open and the timers registered. *)
Lemma opened_ok fs files last_ ls : Forall (file_ok fs) files →
  ∃ m, PcapFileMux_new fs files last_ = Ok (Some m)
    /\ mux_inv (file_todo fs <$> files) (register_timers ls m)
    /\ mx_timer_listeners (register_timers ls m) = ls /\ mx_stop_ts (register_timers ls m) = ts_zero
    /\ mx_last_ts (register_timers ls m) = ts_zero
    /\ mx_timer_ts (register_timers ls m) = ts_zero /\ mx_events (register_timers ls m) = [].
Proof.
  intros Hf. unfold PcapFileMux_new.
  destruct (initial_reader_load_ok fs files [] (mkMux [] false 0 [] [] ts_zero ts_zero ts_zero last_ []))
    as (m & E & Hi & S1 & S2 & S3 & S4 & S5); [|done|].
  { split; cbn; [done|constructor|constructor|by intros]. }
  exists m. rewrite register_timers_ok. cbn. rewrite S1, S2, S3, S4, S5. split; [exact E|].
  split; [|done]. destruct Hi as [H1 H2 H3 H4]. by split.
Qed.

Lemma todo_payload fs files out rest :
  takes (file_todo fs <$> files) out rest → Forall is_payload out.*2.
Proof.
  intros Ht. assert (Forall is_payload (concat (file_todo fs <$> files))) as Hall.
  { apply Forall_concat, Forall_fmap, Forall_true. intros f. cbn. unfold file_todo.
    destruct (fs f.1) as [[frames e]|]; [apply file_packets_payload|constructor]. }
  rewrite (takes_concat _ _ _ Ht) in Hall. by apply Forall_app in Hall as [? _].
Qed.

Lemma stream_of_packets ls ps : in_time_order ps → Forall is_payload ps →
  StronglySorted not_after (timeline ls ts_zero ps)
  /\ ∀ p ps', ps = p :: ps' →
      timers_in (timeline ls ts_zero ps) = concat (fire ls <$> seconds (whole_seconds (ev_ts p) ps') (ev_ts p)).
Proof.
  intros [Hs He] Hp. destruct ps as [|p ps]; [split; [constructor|done]|].
  apply Forall_cons in He as [[Hpe Hps] He], Hp as [Hpp Hp]. apply StronglySorted_inv in Hs as [Hs Hall].
  change (timeline ls ts_zero (p :: ps)) with (p :: timeline ls (ev_ts p) ps).
  destruct (timeline_ok ls (ev_ts p) ps) as (T1 & T2 & T3); [done..|].
  split.
  - constructor; [done|]. apply T2; [unfold NS; lia|exact Hall].
  - intros p' ps' [= <- <-]. rewrite <- T3. unfold timers_in. by rewrite filter_cons_False by (destruct p; [by intros []|done]).
Qed.

Lemma time_order_files fs files :
  Forall (λ f, in_time_order (file_todo fs f)) files →
  Forall (StronglySorted not_after) (file_todo fs <$> files) /\ Forall (Forall in_epoch) (file_todo fs <$> files).
Proof. intros H. split; apply Forall_fmap; (eapply Forall_impl; [exact H|]); by intros f []. Qed.

Lemma streamed_in_order num todo out rest m n m' :
  streamed num todo out rest m n m' → Forall (StronglySorted not_after) todo → Forall (Forall in_epoch) todo →
  in_time_order out.*2.
Proof.
  intros Hst Hs He. split; [by apply Hst|]. apply Forall_concat in He.
  rewrite (takes_concat _ _ _ (st_takes _ _ _ _ _ _ _ Hst)) in He. by apply Forall_app in He as [? _].
Qed.

(** C19: Replaying captures to their ends delivers an interleaving of the packets of
    the files: each once, with the bytes it was captured with (the queue holds
    places in the readers' buffers), those of a file in its order, up to a frame
    that was not captured whole.  If each file is in the order of time, so is all
    that is delivered, timers included, and every listener's timer fires at each
    whole second after the first packet until the last. *)
Theorem replay_merges_captures top fs files last_ listeners :
  TopOk pe_gtb top → Forall (file_ok fs) files →
  ∃ m n m' out,
    PcapFileMux_new fs files last_ = Ok (Some m)
    /\ mux_read_packets top (-1) (register_timers listeners m) = Ok (Some (n, m'))
    /\ merges (file_todo fs <$> files) out /\ packets_in (mx_events m') = out.*2
    /\ (Forall (λ f, in_time_order (file_todo fs f)) files →
         StronglySorted not_after (mx_events m')
         /\ ∀ p ps, out.*2 = p :: ps →
             timers_in (mx_events m') = concat (fire listeners <$> seconds (whole_seconds (ev_ts p) ps) (ev_ts p))).
Proof.
  intros Htop Hf. destruct (opened_ok fs files last_ listeners Hf) as (m & E & Hi & L1 & L2 & L3 & L4 & L5).
  exists m. unfold mux_read_packets.
  destruct (mux_read_loop_ok top (mux_fuel (register_timers listeners m)) (-1) 0 _ _ Htop Hi
    (length_concat_le _ _ Hi)) as (n & m' & out & rest & Er & Hst & _ & _).
  exists n, m', out. split; [exact E|]. split; [exact Er|].
  assert (mx_events m' = timeline listeners ts_zero out.*2) as Hev.
  { by rewrite (st_events _ _ _ _ _ _ _ Hst), L1, L4, L5. }
  pose proof (todo_payload _ _ _ _ (st_takes _ _ _ _ _ _ _ Hst)) as Hp.
  split; [|split].
  - exists rest. split; [by apply Hst|]. destruct (st_end _ _ _ _ _ _ _ Hst) as [|Hg]; [done|].
    unfold goes in Hg. rewrite (st_stop _ _ _ _ _ _ _ Hst), L2 in Hg. done.
  - by rewrite Hev, timeline_packets.
  - intros [Hs He]%time_order_files. rewrite Hev. apply stream_of_packets; [by eapply streamed_in_order|done].
Qed.

(** replaying up to a time delivers, in the same order, packets that are before
    it, and one more: the one that is not before it is noticed when it has been
    delivered.  Once the time is reached no call of [read_packets] reads on,
    whatever number it asks for: the time stays set. *)
Theorem replay_until_overshoots top fs files last_ listeners stop :
  TopOk pe_gtb top → Forall (file_ok fs) files → tv_sec stop ≠ 0 →
  ∃ m n m' out rest,
    PcapFileMux_new fs files last_ = Ok (Some m)
    /\ read_packets_until top stop (register_timers listeners m) = Ok (Some (n, m'))
    /\ takes (file_todo fs <$> files) out rest /\ packets_in (mx_events m') = out.*2
    /\ Forall (λ e, ts_ltb (ev_ts e) stop = true) (removelast out.*2)
    /\ (Forall (λ l, l = []) rest \/ ∀ num, mux_read_packets top num m' = Ok (Some (0, m'))).
Proof.
  intros Htop Hf Hstop. destruct (opened_ok fs files last_ listeners Hf) as (m & E & Hi & L1 & L2 & L3 & L4 & L5).
  exists m. unfold read_packets_until, mux_read_packets.
  set (m1 := (register_timers listeners m) <| mx_stop_ts := stop |>).
  assert (mux_inv (file_todo fs <$> files) m1) as Hi1.
  { destruct Hi as [H1 H2 H3 H4]. by split. }
  destruct (mux_read_loop_ok top (mux_fuel m1) (-1) 0 _ _ Htop Hi1
    (length_concat_le _ _ Hi1)) as (n & m' & out & rest & Er & Hst & _ & Hbefore).
  exists n, m', out, rest. split; [exact E|]. split; [exact Er|]. split; [by apply Hst|].
  pose proof (todo_payload _ _ _ _ (st_takes _ _ _ _ _ _ _ Hst)) as Hp.
  split; [|split; [exact (Hbefore Hstop)|]].
  - rewrite (st_events _ _ _ _ _ _ _ Hst). cbn. rewrite L5. by apply timeline_packets.
  - destruct (st_end _ _ _ _ _ _ _ Hst) as [Hnil|Hg]; [by left|]. right. intros num.
    assert (goes num 0 m' = false) as Hg'.
    { revert Hg. unfold goes. rewrite (st_stop _ _ _ _ _ _ _ Hst). cbn.
      by rewrite (proj2 (Z.eqb_neq _ _) Hstop). }
    unfold goes in Hg'. destruct (mux_fuel m'); cbn [mux_read_loop]; by rewrite Hg'.
Qed.

(** ** Frames *)

(** A UDP packet over IP over Ethernet, with the bytes of the two parts of the MAC
    header, a VLAN tag, options of the IP header and what pads the frame. *)
Definition ip_header (tos_to_ttl : list Z) (checksum src dst options : list Z) : list Z :=
  [64 + 5 + Z.of_nat (length options) / 4] ++ tos_to_ttl ++ [IPPROTO_UDP] ++ checksum ++ src ++ dst ++ options.
Definition ethernet (macs : list Z) (vlan : option (list Z)) (packet : list Z) : list Z :=
  macs ++ match vlan with None => [] | Some tag => [129; 0] ++ tag end ++ [8; 0] ++ packet.
Definition udp_header (sport dport len_sum : list Z) : list Z := sport ++ dport ++ len_sum.

(** Loads in a buffer by parts: what comes before is skipped. *)
Lemma drop_skip {A} k (a b : list A) : (length a <= k)%nat → drop k (a ++ b) = drop (k - length a) b.
Proof. intros. by rewrite drop_app_ge by lia. Qed.
Lemma load_skip n k a b : (length a <= k)%nat → load n k (a ++ b) = load n (k - length a) b.
Proof.
  intros Hk. unfold load. rewrite length_app, drop_skip by done.
  replace (k + n <=? _)%nat with (k - length a + n <=? length b)%nat; [done|].
  apply eq_true_iff_eq. rewrite !Nat.leb_le. lia.
Qed.
Lemma load_be_skip n k a b : (length a <= k)%nat → load_be n k (a ++ b) = load_be n (k - length a) b.
Proof.
  intros Hk. unfold load_be. rewrite length_app, drop_skip by done.
  replace (k + n <=? _)%nat with (k - length a + n <=? length b)%nat; [done|].
  apply eq_true_iff_eq. rewrite !Nat.leb_le. lia.
Qed.
Lemma load_here n k bs post : k = 0%nat → length bs = n → load n k (bs ++ post) = Ok (le_val bs).
Proof.
  intros -> <-. unfold load. rewrite length_app, (proj2 (Nat.leb_le _ _)) by lia.
  by rewrite drop_0, take_app_length.
Qed.
Lemma load_be_here n k bs post : k = 0%nat → length bs = n → load_be n k (bs ++ post) = Ok (le_val (rev bs)).
Proof.
  intros -> <-. unfold load_be. rewrite length_app, (proj2 (Nat.leb_le _ _)) by lia.
  by rewrite drop_0, take_app_length.
Qed.
Ltac load_field :=
  repeat first [rewrite load_skip by (cbn [length]; lia)|rewrite load_be_skip by (cbn [length]; lia)];
  first [rewrite load_here by (cbn [length]; lia)|rewrite load_be_here by (cbn [length]; lia)];
  cbn [mbind res_bind].

Lemma ip_hdr_size_of (options : list Z) : (length options mod 4 = 0)%nat → (length options <= 40)%nat →
  ip_hdr_size (le_val [64 + 5 + Z.of_nat (length options) / 4]) = (20 + length options)%nat.
Proof.
  intros Hm Hl. cbn [le_val]. rewrite Z.mul_0_r, Z.add_0_r.
  assert (∃ k, length options = 4 * k /\ k <= 10)%nat as (k & -> & Hk).
  { exists (length options / 4)%nat. pose proof (Nat.div_mod_eq (length options) 4). lia. }
  clear -Hk. replace (Z.of_nat (4 * k)) with (Z.of_nat k * 4) by lia. rewrite Z.div_mul by lia.
  do 11 (destruct k as [|k]; [done|]). lia.
Qed.

Section Frame.
Context (ttl checksum src dst options sport dport len_sum : list Z).
Hypothesis (Httl : length ttl = 8%nat) (Hck : length checksum = 2%nat) (Hsrc : length src = 4%nat)
  (Hdst : length dst = 4%nat) (Hmod : (length options mod 4 = 0)%nat) (Hopt : (length options <= 40)%nat)
  (Hsp : length sport = 2%nat) (Hdp : length dport = 2%nat) (Hls : length len_sum = 4%nat).

Lemma eth_payload_reads_back pre body ts :
  Z.of_nat (length body) < 4294967000 →
  let packet := ip_header ttl checksum src dst options ++ udp_header sport dport len_sum ++ body in
  handle_eth_payload ETH_P_IP (pre ++ packet) (length pre) (Z.of_nat (length packet)) ts
  = Ok (Some (mkUdp (le_val src) (le_val sport) (le_val dst) (le_val dport)
      (length pre + 20 + length options) (8 + Z.of_nat (length body)) ts)).
Proof using All.
  intros Hb packet. unfold handle_eth_payload. rewrite Z.eqb_refl. cbn [negb].
  unfold packet, ip_header, udp_header. rewrite <- !app_assoc.
  set (first := [64 + 5 + Z.of_nat (length options) / 4]).
  assert (length first = 1%nat) as H1 by done.
  load_field. load_field. load_field. load_field. cbn [le_val].
  change (IPPROTO_UDP + 256 * 0 =? IPPROTO_UDP) with true. cbn [negb].
  assert (ip_hdr_size (le_val first) = 20 + length options)%nat as -> by by apply ip_hdr_size_of. load_field. load_field.
  do 3 f_equal; [lia|]. rewrite !length_app, H1. cbn [length]. rewrite wrap_small; [lia|]. in_range.
Qed.

(** A frame is delivered with the addresses, the ports and the payload of its
    packet; what pads a short frame is delivered as payload too, since the length
    in the UDP header is not looked at. *)
Theorem frame_reads_back macs vlan payload padding ts :
  length macs = 12%nat → match vlan with None => True | Some tag => length tag = 2%nat end →
  Z.of_nat (length payload + length padding) < 4294967000 →
  let data := ethernet macs vlan
    (ip_header ttl checksum src dst options ++ udp_header sport dport len_sum ++ payload ++ padding) in
  ∃ c, dissect (Z.of_nat (length data)) data ts = Ok (Some c)
    /\ within data (udp_handle c) = true
    /\ event_of data (udp_handle c) =
         EvPayload (le_val src) (le_val sport) (le_val dst) (le_val dport) (payload ++ padding) ts.
Proof using All.
  intros Hmacs Hvlan Hlen data. unfold data, ethernet.
  set (body := payload ++ padding). assert (length body = length payload + length padding)%nat as Hbody by apply length_app.
  set (packet := ip_header ttl checksum src dst options ++ udp_header sport dport len_sum ++ body).
  assert (length packet = 28 + length options + length body)%nat as Hpacket.
  { unfold packet, ip_header, udp_header. rewrite !length_app. cbn [length]. lia. }
  set (tag := match vlan with None => [] | Some tag => [129; 0] ++ tag end).
  set (pre := macs ++ tag ++ [8; 0]).
  assert (macs ++ tag ++ [8; 0] ++ packet = pre ++ packet) as -> by (unfold pre; by rewrite <- !app_assoc).
  assert (dissect (Z.of_nat (length (pre ++ packet))) (pre ++ packet) ts
    = handle_eth_payload ETH_P_IP (pre ++ packet) (length pre) (Z.of_nat (length packet)) ts) as Hd.
  { assert (length pre = match vlan with None => 14 | Some _ => 18 end)%nat as Hpre.
    { unfold pre, tag. destruct vlan; rewrite !length_app; cbn [length]; lia. }
    rewrite length_app, Hpre. unfold dissect, pre, ETHHDR_SIZE, tag. destruct vlan as [vlan|]; rewrite <- !app_assoc.
    - rewrite (load_be_skip 2 12) by lia. rewrite (load_be_here 2 (12 - _)) by (done || lia). cbn [mbind res_bind].
      change (le_val (rev [129; 0])) with ETH_P_8021Q. rewrite Z.eqb_refl.
      load_field. change (le_val (rev [8; 0])) with ETH_P_IP.
      f_equal. rewrite wrap_small; [lia|in_range].
    - cbn [app]. change (8 :: 0 :: packet) with ([8; 0] ++ packet).
      rewrite (load_be_skip 2 12) by lia. rewrite (load_be_here 2 (12 - _)) by (done || lia). cbn [mbind res_bind].
      change (le_val (rev [8; 0])) with ETH_P_IP. change (ETH_P_IP =? ETH_P_8021Q) with false. cbv iota.
      f_equal. rewrite wrap_small; [lia|in_range]. }
  eexists. split; [rewrite Hd; apply eth_payload_reads_back; lia|].
  unfold within, event_of, udp_handle, UDPHDR_SIZE. cbn [uc_off uc_len uc_src_addr uc_src_port uc_dst_addr uc_dst_port uc_ts set_field].
  rewrite wrap_small by in_range. rewrite length_app. split; [apply Z.leb_le; lia|].
  f_equal. replace (Z.to_nat _) with (length body) by lia.
  replace (pre ++ packet) with
    ((pre ++ ip_header ttl checksum src dst options ++ udp_header sport dport len_sum) ++ body)
    by (unfold packet; by rewrite <- !app_assoc).
  rewrite drop_app_n by (unfold ip_header, udp_header; rewrite !length_app; cbn [length]; lia).
  apply firstn_all.
Qed.
End Frame.

(** ** Instances *)

Lemma ts_gtb_spec a b : ts_gtb a b = true ↔
  tv_sec b < tv_sec a \/ (tv_sec a = tv_sec b /\ tv_nsec b < tv_nsec a).
Proof.
  unfold ts_gtb, ts_leb, ts_eqb, ts_ltb.
  rewrite negb_true_iff, orb_false_iff, orb_false_iff, !andb_false_iff, !Z.ltb_ge, !Z.eqb_neq. lia.
Qed.
Lemma top_first_pe_ok : TopOk pe_gtb (top_first pe_gtb).
Proof.
  apply top_first_ok; unfold pe_gtb; intros *; rewrite <- ?not_true_iff_false, ?ts_gtb_spec; lia.
Qed.

Definition sample_frame (vlan : option (list Z)) (sport : Z) (payload : list Z) (sec nsec : Z) : PcapPkt :=
  let data := ethernet (replicate 12 0) vlan
    (ip_header (replicate 8 0) [0; 0] [10; 0; 0; 1] [224; 0; 0; 7] []
     ++ udp_header [sport; 0] [57; 48] [0; 0; 0; 0] ++ payload) in
  mkPkt sec nsec (Z.of_nat (length data)) (Z.of_nat (length data)) data.
(** Two captures, the second with a latency and cut short by its third frame. *)
Definition sample_files (name : string) : option (list PcapPkt * Z) :=
  if decide (name = "a") then
    Some ([sample_frame None 1 [1; 2; 3] 100 0; sample_frame None 2 [4] 102 500000000], -2)
  else if decide (name = "b") then
    Some ([sample_frame (Some [0; 7]) 3 [5; 6] 101 200; sample_frame None 4 [] 102 500000000;
           mkPkt 103 0 60 1500 []; sample_frame None 5 [9] 104 0], -2)
  else None.
Definition sample_run : res (option (Z * list MuxEvent)) :=
  match PcapFileMux_new sample_files [("a", 0); ("b", 500)] ts_zero with
  | Ok (Some m) =>
      match mux_read_packets (top_first pe_gtb) (-1) (register_timers [7] m) with
      | Ok (Some (n, m)) => Ok (Some (n, mx_events m))
      | Ok None => Ok None
      | Fail e => Fail e
      end
  | Ok None => Ok None
  | Fail e => Fail e
  end.
Definition sample_payload (sport : Z) (payload : list Z) (sec nsec : Z) : MuxEvent :=
  EvPayload 16777226 sport 117440736 12345 payload (mkTs sec nsec).
Example sample_run_is : sample_run = Ok (Some (5,
  [sample_payload 1 [1; 2; 3] 100 0; EvTimer 7 (mkTs 101 0) 1; sample_payload 3 [5; 6] 101 700;
   EvTimer 7 (mkTs 102 0) 1; sample_payload 2 [4] 102 500000000; sample_payload 4 [] 102 500000500])).
Proof. vm_compute. reflexivity. Qed.

Lemma replay_merges_captures_witness : ∃ m n m' out,
  PcapFileMux_new sample_files [("a", 0); ("b", 500)] ts_zero = Ok (Some m)
  /\ mux_read_packets (top_first pe_gtb) (-1) (register_timers [7] m) = Ok (Some (n, m'))
  /\ merges (file_todo sample_files <$> [("a", 0); ("b", 500)]) out /\ packets_in (mx_events m') = out.*2
  /\ StronglySorted not_after (mx_events m').
Proof.
  destruct (replay_merges_captures (top_first pe_gtb) sample_files [("a", 0); ("b", 500)] ts_zero [7] top_first_pe_ok)
    as (m & n & m' & out & H1 & H2 & H3 & H4 & H5).
  { repeat constructor. }
  exists m, n, m', out. do 4 (split; [done|]). apply H5.
  constructor; [|constructor; [|constructor]]; (split; [repeat constructor; vm_compute; discriminate|]);
    repeat constructor; z_compute.
Defined.

Lemma replay_until_overshoots_witness : ∃ m n m' out rest,
  PcapFileMux_new sample_files [("a", 0); ("b", 500)] ts_zero = Ok (Some m)
  /\ read_packets_until (top_first pe_gtb) (mkTs 101 0) m = Ok (Some (n, m'))
  /\ takes (file_todo sample_files <$> [("a", 0); ("b", 500)]) out rest
  /\ Forall (λ e, ts_ltb (ev_ts e) (mkTs 101 0) = true) (removelast out.*2).
Proof.
  destruct (replay_until_overshoots (top_first pe_gtb) sample_files [("a", 0); ("b", 500)] ts_zero [] (mkTs 101 0)
    top_first_pe_ok) as (m & n & m' & out & rest & H1 & H2 & H3 & _ & H5 & _).
  { repeat constructor. }
  { done. }
  by exists m, n, m', out, rest.
Defined.
