(* ===== verification/MappedFile.v ===== *)
(** * Mapped files (src/core/MappedRegion.cpp, core/AsyncMappedFile.cpp)

    A log is appended to through a mapping of a terabyte; how far it has been
    written is a number in a second file.  Threads append without a lock: a thread
    reserves its place by adding to that number, and copies its bytes there.  What
    the system calls answer is an argument; the bytes of a file after those listed
    are zero.  Times, locks of the maintenance timer and madvise are left out. *)

From S2P Require Import Prelude Codec.
Open Scope Z_scope.

(** ** Files *)

Record FileOnDisk := mkFile { df_bytes : list Z; df_size : Z }.
#[export] Instance FileOnDisk_rebuild : Rebuild FileOnDisk := λ f, mkFile (df_bytes f) (df_size f).

(** The first [n] bytes. *)
Definition padded (n : nat) (bytes : list Z) : list Z := take n bytes ++ replicate (n - length bytes) 0.
(** [ftruncate] *)
Definition truncate_to (size : Z) (f : FileOnDisk) : FileOnDisk :=
  mkFile (if Z.of_nat (length (df_bytes f)) <=? size then df_bytes f else take (Z.to_nat size) (df_bytes f)) size.
(** [memcpy] to an offset of a mapping. *)
Definition copy_at (off : nat) (bs bytes : list Z) : list Z :=
  padded off bytes ++ bs ++ drop (off + length bs) bytes.

(** Whether the calls that map a file succeed. *)
Record MapCalls := mkCalls { mc_open : bool; mc_stat : bool; mc_truncate : bool; mc_map : bool }.

(** ** [MappedRegion] *)

Record MappedRegion := mkRegion {
  mr_file : FileOnDisk;
  mr_size : Z;
  mr_ro : bool;
  mr_opened : bool;
  mr_mapped : bool
}.
#[export] Instance MappedRegion_rebuild : Rebuild MappedRegion := λ r,
  mkRegion (mr_file r) (mr_size r) (mr_ro r) (mr_opened r) (mr_mapped r).

Definition no_file : FileOnDisk := mkFile [] 0.
(** [MappedRegion::open]: 0 or an error.  After an error of [fstat] or
    [ftruncate] the descriptor is closed and [m_fd] keeps it. *)
Definition region_open (calls : MapCalls) (disk : option FileOnDisk) (size : Z) (ro : bool) (r : MappedRegion)
    : Z * MappedRegion :=
  if negb (mc_open calls) || (ro && negb (bool_decide (is_Some disk))) then (-1, r)
  else
    let f := default no_file disk in
    let r := r <| mr_opened := true |> <| mr_file := f |> in
    if negb (mc_stat calls) then (-1, r)
    else
      let size := if ro || (size =? 0) then df_size f else size in
      if (df_size f <? size) && negb (mc_truncate calls) then (-1, r)
      else
        let f := if df_size f <? size then truncate_to size f else f in
        (0, r <| mr_file := f |> <| mr_size := size |> <| mr_ro := ro |>).
(** [MappedRegion::mmap]: an empty mapping is refused, and one of a descriptor that
    is not open. *)
Definition region_mmap (calls : MapCalls) (opened : bool) (r : MappedRegion) : MappedRegion :=
  r <| mr_mapped := opened && mc_map calls && (0 <? mr_size r) |>.
Definition MappedRegion_new (calls : MapCalls) (disk : option FileOnDisk) (size : Z) (ro : bool) : MappedRegion :=
  let '(ret, r) := region_open calls disk size ro (mkRegion no_file size ro false false) in
  region_mmap calls (ret =? 0) r.

(** ** [AsyncMappedFile] *)

Definition MAX_LOGFILE_SIZE : Z := 1099511627776.
Definition MAPPED_EBADF : Z := 9.
Definition ENOMEM : Z := 12.

Record AsyncMappedFile := mkAsyncFile { af_filemap : MappedRegion; af_sizemap : MappedRegion; af_readonly : bool }.
#[export] Instance AsyncMappedFile_rebuild : Rebuild AsyncMappedFile := λ f,
  mkAsyncFile (af_filemap f) (af_sizemap f) (af_readonly f).

Definition AsyncMappedFile_new (calls calls' : MapCalls) (disk offset : option FileOnDisk) (ro : bool) : AsyncMappedFile :=
  mkAsyncFile (MappedRegion_new calls disk MAX_LOGFILE_SIZE ro) (MappedRegion_new calls' offset 8 ro) ro.

(** The number that the second mapping holds. *)
Definition stored_size (f : AsyncMappedFile) : Z := le_val (padded 8 (df_bytes (mr_file (af_sizemap f)))).
Definition store_size (n : Z) (f : AsyncMappedFile) : AsyncMappedFile :=
  f <| af_sizemap := (af_sizemap f) <| mr_file :=
         (mr_file (af_sizemap f)) <| df_bytes := copy_at 0 (le_bytes 8 n) (df_bytes (mr_file (af_sizemap f))) |> |> |>.
(** [size()], which does not look whether the file is mapped. *)
Definition af_size (f : AsyncMappedFile) : res Z :=
  if mr_mapped (af_sizemap f) then Ok (stored_size f) else Fail (UndefinedBehaviour "the size is not mapped").
Definition af_capacity (f : AsyncMappedFile) : Z := mr_size (af_filemap f).
Definition af_mapped (f : AsyncMappedFile) : bool := mr_mapped (af_filemap f) && mr_mapped (af_sizemap f).

(** [as_readonly_buffer]: the mapped file and how much of it is log. *)
Definition as_readonly_buffer (f : AsyncMappedFile) : option (list Z * Z) :=
  if af_mapped f && mr_opened (af_filemap f) && mr_opened (af_sizemap f)
  then Some (df_bytes (mr_file (af_filemap f)), stored_size f) else None.

(** The two steps of [write], which other threads come between: the place is
    reserved, and the bytes are copied.  Both maps of a file that is read only are
    protected. *)
Definition reserve (len : Z) (f : AsyncMappedFile) : res (Z * AsyncMappedFile) :=
  if mr_ro (af_sizemap f) then Fail (UndefinedBehaviour "write to a file mapped read only")
  else let off := stored_size f in Ok (off, store_size (u64 (off + len)) f).
Definition log_fits (off len : Z) (f : AsyncMappedFile) : bool := i64 off + len <? i64 (af_capacity f).
Definition copy_bytes (off : Z) (bs : list Z) (f : AsyncMappedFile) : AsyncMappedFile :=
  f <| af_filemap := (af_filemap f) <| mr_file :=
         (mr_file (af_filemap f)) <| df_bytes := copy_at (Z.to_nat off) bs (df_bytes (mr_file (af_filemap f))) |> |> |>.
Definition af_write (bs : list Z) (f : AsyncMappedFile) : res (Z * AsyncMappedFile) :=
  let len := Z.of_nat (length bs) in
  if negb (af_mapped f) then Ok (- MAPPED_EBADF, f)
  else if len <=? 0 then Ok (-1, f)
  else
    '(off, f) ← reserve len f;
    if log_fits off len f then Ok (len, copy_bytes off bs f) else Ok (- ENOMEM, f).
(** [writev]: stops at the first part that is not written. *)
Fixpoint af_writev (iov : list (list Z)) (n : Z) (f : AsyncMappedFile) : res (Z * AsyncMappedFile) :=
  match iov with
  | [] => Ok (n, f)
  | bs :: iov =>
      '(m, f) ← af_write bs f;
      if 0 <=? m then af_writev iov (i32 (n + m)) f else Ok (n, f)
  end.
(** The destructor, and then the two files; throwing from it ends the program. *)
Definition af_close (truncates : bool) (f : AsyncMappedFile) : res (FileOnDisk * FileOnDisk) :=
  if mr_mapped (af_sizemap f) && negb (mr_ro (af_filemap f)) then
    if negb truncates then Fail (Thrown "Truncate failed")
    else Ok (truncate_to (stored_size f) (mr_file (af_filemap f)), mr_file (af_sizemap f))
  else Ok (mr_file (af_filemap f), mr_file (af_sizemap f)).

(** ** Threads that append *)

(** [write] by threads, in its two steps. *)
Inductive WriteEvent := Reserve (thread : nat) (bs : list Z) | Copy (thread : nat).
(** A file, and the copies that threads are yet to make. *)
Record Writers := mkWriters { ws_file : AsyncMappedFile; ws_pending : gmap nat (Z * list Z) }.

(** [None]: the thread is not at that step. *)
Definition write_step (w : Writers) (e : WriteEvent) : option Writers :=
  match e with
  | Reserve t bs =>
      let len := Z.of_nat (length bs) in
      if bool_decide (is_Some (ws_pending w !! t)) || negb (af_mapped (ws_file w)) || (len <=? 0) then None
      else
        match reserve len (ws_file w) with
        | Fail _ => None
        | Ok (off, f) => Some (mkWriters f (if log_fits off len f then <[t := (off, bs)]> (ws_pending w) else ws_pending w))
        end
  | Copy t =>
      match ws_pending w !! t with
      | None => None
      | Some (off, bs) => Some (mkWriters (copy_bytes off bs (ws_file w)) (delete t (ws_pending w)))
      end
  end.
Fixpoint write_steps (w : Writers) (evs : list WriteEvent) : option Writers :=
  match evs with [] => Some w | e :: evs => match write_step w e with None => None | Some w => write_steps w evs end end.

(** One thread alone writes as [af_write] does. *)
Lemma write_alone t bs f n f' : af_mapped f = true → 0 < Z.of_nat (length bs) → af_write bs f = Ok (n, f') →
  write_steps (mkWriters f ∅) (if 0 <? n then [Reserve t bs; Copy t] else [Reserve t bs]) = Some (mkWriters f' ∅).
Proof.
  intros Hm Hlen. unfold af_write. rewrite Hm. cbn [negb]. rewrite (proj2 (Z.leb_gt _ _)) by done.
  assert (∀ k, write_steps (mkWriters f ∅) (Reserve t bs :: k) =
    match reserve (Z.of_nat (length bs)) f with
    | Fail _ => None
    | Ok (off, f) => write_steps (mkWriters f (if log_fits off (Z.of_nat (length bs)) f then {[t := (off, bs)]} else ∅)) k
    end) as E.
  { intros k. cbn [write_steps write_step ws_file ws_pending]. rewrite lookup_empty, Hm.
    rewrite bool_decide_false by by intros [? ?]. rewrite (proj2 (Z.leb_gt _ _)) by done. cbn [orb negb].
    by destruct (reserve _ _) as [[off f1]|]. }
  destruct (reserve (Z.of_nat (length bs)) f) as [[off f1]|] eqn:Er; cbn [mbind res_bind]; [|done].
  destruct (log_fits off (Z.of_nat (length bs)) f1) eqn:Ef; intros [= <- <-].
  - rewrite (proj2 (Z.ltb_lt _ _)) by done. cbv iota. rewrite E, ?Ef.
    cbn [write_steps write_step ws_file ws_pending]. rewrite lookup_singleton_eq. by rewrite delete_singleton_eq.
  - change (0 <? - ENOMEM) with false. cbv iota. by rewrite E, ?Ef.
Qed.

(** *** What is in the log *)

Inductive Slot := Copied (bs : list Z) | Holding (thread : nat) (bs : list Z) | Refused (len : nat).
Definition slot_bytes (s : Slot) : list Z :=
  match s with Copied bs => bs | Holding _ bs => replicate (length bs) 0 | Refused n => replicate n 0 end.
Definition log_bytes (log : list Slot) : list Z := concat (slot_bytes <$> log).
Definition log_size (log : list Slot) : Z := Z.of_nat (length (log_bytes log)).

Definition complete (t : nat) (s : Slot) : Slot :=
  match s with Holding t' bs => if decide (t' = t) then Copied bs else s | _ => s end.
(** The log as its writers see it: places in the order of reservation. *)
Definition log_step (capacity : Z) (log : list Slot) (e : WriteEvent) : list Slot :=
  match e with
  | Reserve t bs => log ++ [if log_size log + Z.of_nat (length bs) <? capacity then Holding t bs else Refused (length bs)]
  | Copy t => complete t <$> log
  end.
Definition log_steps (capacity : Z) : list Slot → list WriteEvent → list Slot := foldl (log_step capacity).

Fixpoint holding (off : Z) (log : list Slot) : list (nat * (Z * list Z)) :=
  match log with
  | [] => []
  | s :: log =>
      let rest := holding (off + Z.of_nat (length (slot_bytes s))) log in
      match s with Holding t bs => (t, (off, bs)) :: rest | _ => rest end
  end.

Lemma log_bytes_app a b : log_bytes (a ++ b) = log_bytes a ++ log_bytes b.
Proof. unfold log_bytes. by rewrite fmap_app, concat_app. Qed.
Lemma log_size_app a b : log_size (a ++ b) = log_size a + log_size b.
Proof. unfold log_size. rewrite log_bytes_app, length_app. lia. Qed.
Lemma log_size_nonneg a : 0 <= log_size a.
Proof. unfold log_size. lia. Qed.
Lemma log_size_one s : log_size [s] = Z.of_nat (length (slot_bytes s)).
Proof. unfold log_size, log_bytes. cbn. by rewrite app_nil_r. Qed.
Lemma holding_app off a b : holding off (a ++ b) = holding off a ++ holding (off + log_size a) b.
Proof.
  revert off. induction a as [|s a IH]; intros off; cbn [app holding].
  - f_equal. unfold log_size. cbn. lia.
  - change (s :: a) with ([s] ++ a). rewrite log_size_app, log_size_one, Z.add_assoc.
    destruct s; cbn [app]; by rewrite IH.
Qed.
Lemma holding_split off log t o bs : (t, (o, bs)) ∈ holding off log →
  ∃ a b, log = a ++ Holding t bs :: b /\ o = off + log_size a.
Proof.
  revert off. induction log as [|s log IH]; intros off; cbn [holding]; [by intros ?%not_elem_of_nil|].
  assert ((t, (o, bs)) ∈ holding (off + Z.of_nat (length (slot_bytes s))) log →
    ∃ a b, s :: log = a ++ Holding t bs :: b /\ o = off + log_size a) as Hrest.
  { intros Hin. destruct (IH _ Hin) as (a & b & -> & ->). exists (s :: a), b. split; [done|].
    change (s :: a) with ([s] ++ a). rewrite log_size_app, log_size_one. lia. }
  destruct s as [c|t' c|n]; [exact Hrest| |exact Hrest].
  intros [[= <- <- <-]|Hin]%elem_of_cons; [|by apply Hrest].
  exists [], log. split; [done|]. unfold log_size. cbn. lia.
Qed.
Lemma complete_absent t off log : t ∉ (holding off log).*1 → complete t <$> log = log.
Proof.
  revert off. induction log as [|s log IH]; intros off; cbn [holding fmap list_fmap]; [done|].
  destruct s as [c|t' c|n]; cbn [complete]; intros Ht; [f_equal; by eapply IH| |f_equal; by eapply IH].
  cbn in Ht. apply not_elem_of_cons in Ht as [Hne Ht]. rewrite decide_False by congruence. f_equal. by eapply IH.
Qed.
Lemma slot_bytes_complete t s : length (slot_bytes (complete t s)) = length (slot_bytes s).
Proof. destruct s; cbn; [done| |done]. case_decide; cbn; by rewrite ?length_replicate. Qed.

Lemma padded_short n bytes : (length bytes <= n)%nat → padded n bytes = bytes ++ replicate (n - length bytes) 0.
Proof. intros. unfold padded. by rewrite take_ge. Qed.
Lemma length_padded n bytes : length (padded n bytes) = n.
Proof. unfold padded. rewrite length_app, length_take, length_replicate. lia. Qed.
Lemma padded_grow n k bytes : (length bytes <= n)%nat → padded (n + k) bytes = padded n bytes ++ replicate k 0.
Proof.
  intros Hn. rewrite !padded_short by lia. rewrite <- app_assoc, <- replicate_add. do 2 f_equal. lia.
Qed.
Lemma padded_take off n bytes : (off <= n)%nat → padded off bytes = take off (padded n bytes).
Proof.
  intros Hn. unfold padded. rewrite take_app, take_take, Nat.min_l by done. f_equal.
  rewrite length_take, take_replicate. f_equal. lia.
Qed.
Lemma padded_copy n off bs bytes : (off + length bs <= n)%nat → (length bytes <= n)%nat →
  padded n (copy_at off bs bytes) = take off (padded n bytes) ++ bs ++ drop (off + length bs) (padded n bytes)
  /\ (length (copy_at off bs bytes) <= n)%nat.
Proof.
  intros Ho Hn. assert (length (copy_at off bs bytes) <= n)%nat as Hl.
  { unfold copy_at. rewrite !length_app, length_padded, length_drop. lia. }
  split; [|done]. rewrite (padded_short n (copy_at _ _ _)) by done. unfold copy_at.
  rewrite !length_app, length_padded, length_drop, (padded_take off n) by lia.
  rewrite <- !app_assoc. do 2 f_equal. rewrite padded_short, drop_app by done.
  f_equal. rewrite drop_replicate. f_equal. lia.
Qed.
Lemma stored_store n f : 0 <= n < 18446744073709551616 → stored_size (store_size n f) = n.
Proof.
  intros Hn. unfold stored_size. change (df_bytes (mr_file (af_sizemap (store_size n f))))
    with (copy_at 0 (le_bytes 8 n) (df_bytes (mr_file (af_sizemap f)))).
  set (old := df_bytes _). unfold copy_at. change (padded 0 old) with (@nil Z). cbn [app].
  unfold padded. rewrite length_app, length_le_bytes. rewrite take_app_n by apply length_le_bytes.
  replace (8 - _)%nat with 0%nat by lia. rewrite app_nil_r. by apply le_val_bytes.
Qed.

(** The state of the writers is this log. *)
Record log_of (capacity : Z) (log : list Slot) (w : Writers) : Prop := {
  lo_mapped : af_mapped (ws_file w) = true;
  lo_opened : mr_opened (af_filemap (ws_file w)) && mr_opened (af_sizemap (ws_file w)) = true;
  lo_rw : mr_ro (af_sizemap (ws_file w)) = false;
  lo_rw' : mr_ro (af_filemap (ws_file w)) = false /\ 0 < df_size (mr_file (af_sizemap (ws_file w)))
    /\ df_size (mr_file (af_filemap (ws_file w))) = capacity;
  lo_capacity : af_capacity (ws_file w) = capacity;
  lo_size : stored_size (ws_file w) = log_size log;
  lo_short : (length (df_bytes (mr_file (af_filemap (ws_file w)))) <= length (log_bytes log))%nat;
  lo_bytes : padded (length (log_bytes log)) (df_bytes (mr_file (af_filemap (ws_file w)))) = log_bytes log;
  lo_pending : ws_pending w = list_to_map (holding 0 log);
  lo_nodup : NoDup (holding 0 log).*1
}.

Lemma reserve_step capacity log w t bs w' :
  log_of capacity log w → 0 <= capacity < 9223372036854775808 →
  log_size (log_step capacity log (Reserve t bs)) < 9223372036854775808 →
  write_step w (Reserve t bs) = Some w' → log_of capacity (log_step capacity log (Reserve t bs)) w'.
Proof.
  intros [L1 L1' L2 L2' L3 L4 L5 L6 L7 L8] Hcap Hsize. cbn [write_step log_step] in *.
  destruct (bool_decide _) eqn:Hp; [done|]. apply bool_decide_eq_false in Hp. rewrite L1. cbn [orb negb].
  destruct (Z.leb_spec (Z.of_nat (length bs)) 0); [done|]. unfold reserve. rewrite L2, L4.
  set (n := log_size log) in *. set (len := Z.of_nat (length bs)) in *.
  set (s := if n + len <? capacity then Holding t bs else Refused (length bs)) in *.
  assert (length (slot_bytes s) = length bs) as Hs.
  { unfold s. case_if; cbn; by rewrite length_replicate. }
  assert (slot_bytes s = replicate (length bs) 0) as Hz by (unfold s; by case_if).
  assert (0 <= n) by apply log_size_nonneg.
  rewrite log_size_app, log_size_one, Hs in Hsize. fold n len in Hsize.
  assert (u64 (n + len) = n + len) as Hu by (apply wrap_small; in_range).
  rewrite Hu.
  assert (log_fits n len (store_size (n + len) (ws_file w)) = (n + len <? capacity)) as ->.
  { unfold log_fits. change (af_capacity (store_size (n + len) (ws_file w))) with (af_capacity (ws_file w)).
    rewrite L3. rewrite !swrap_small by in_range. done. }
  assert (length (log_bytes (log ++ [s])) = length (log_bytes log) + length bs)%nat as Hlen.
  { rewrite log_bytes_app, length_app. unfold log_bytes at 2. cbn. by rewrite app_nil_r, Hs. }
  assert (holding 0 (log ++ [s]) = holding 0 log ++ if n + len <? capacity then [(t, (n, bs))] else []) as Hhold.
  { rewrite holding_app. f_equal. fold n. rewrite Z.add_0_l. unfold s. by case_if. }
  assert (t ∉ (holding 0 log).*1) as Habs.
  { intros ((t' & x) & -> & Hin)%list_elem_of_fmap. apply Hp. rewrite L7. cbn. exists x.
    by apply elem_of_list_to_map_1. }
  intros [= <-]. split; cbn [ws_file ws_pending].
  - exact L1.
  - exact L1'.
  - exact L2.
  - exact L2'.
  - exact L3.
  - rewrite stored_store by lia. rewrite log_size_app, log_size_one, Hs. done.
  - rewrite Hlen. change (length (df_bytes (mr_file (af_filemap (ws_file w)))) <= length (log_bytes log) + length bs)%nat. lia.
  - rewrite Hlen, padded_grow by exact L5.
    change (padded (length (log_bytes log)) (df_bytes (mr_file (af_filemap (ws_file w)))) ++ replicate (length bs) 0
      = log_bytes (log ++ [s])).
    rewrite L6, log_bytes_app. f_equal. unfold log_bytes. cbn. by rewrite app_nil_r, Hz.
  - rewrite Hhold, L7. case_if; [|by rewrite app_nil_r].
    rewrite list_to_map_app. cbn. rewrite map_union_comm; [by rewrite insert_union_singleton_l|].
    apply map_disjoint_insert_r. split; [by apply not_elem_of_list_to_map_1|apply map_disjoint_empty_r].
  - rewrite Hhold, fmap_app. case_if; cbn; [|by rewrite app_nil_r].
    apply NoDup_app. split; [done|]. split; [|apply NoDup_singleton].
    by intros x Hx ->%list_elem_of_singleton.
Qed.

Lemma copy_step capacity log w t w' :
  log_of capacity log w → write_step w (Copy t) = Some w' → log_of capacity (complete t <$> log) w'.
Proof.
  intros [L1 L1' L2 L2' L3 L4 L5 L6 L7 L8]. cbn [write_step].
  destruct (ws_pending w !! t) as [[off bs]|] eqn:Hp; [|done]. intros [= <-].
  rewrite L7 in Hp. apply elem_of_list_to_map_2, holding_split in Hp as (a & b & -> & ->).
  rewrite Z.add_0_l in *. set (A := log_bytes a) in *.
  assert (∀ s, length (slot_bytes s) = length bs → log_bytes (a ++ s :: b) = A ++ slot_bytes s ++ log_bytes b) as Hb.
  { intros s _. rewrite log_bytes_app. done. }
  assert (∀ s, length (slot_bytes s) = length bs →
    holding 0 (a ++ s :: b) = holding 0 a ++ holding (log_size a) [s] ++ holding (log_size a + Z.of_nat (length bs)) b) as Hh.
  { intros s Hs. rewrite holding_app, Z.add_0_l. f_equal. cbn [holding]. rewrite Hs. by destruct s. }
  rewrite Hh in L7, L8 by apply length_replicate. cbn [holding app] in L7, L8.
  rewrite fmap_app in L8. cbn in L8. apply NoDup_app in L8 as (N1 & N2 & N3). apply NoDup_cons in N3 as [N3 N4].
  assert (t ∉ (holding 0 a).*1) as Na.
  { intros Hin. apply (N2 t Hin). by apply list_elem_of_here. }
  rewrite fmap_app. cbn [fmap list_fmap]. rewrite (complete_absent t 0 a) by done.
  rewrite (complete_absent t _ b) by exact N3. cbn [complete]. rewrite decide_True by done.
  rewrite (Hb (Holding t bs)) in L5, L6 by apply length_replicate. cbn [slot_bytes] in L5, L6.
  assert (log_size (a ++ Copied bs :: b) = log_size (a ++ Holding t bs :: b)) as Hsize.
  { unfold log_size. rewrite (Hb (Copied bs)), (Hb (Holding t bs)) by (cbn; by rewrite ?length_replicate).
    cbn [slot_bytes]. by rewrite !length_app, length_replicate. }
  assert (Z.to_nat (log_size a) = length A) as HA by (unfold log_size; by rewrite Nat2Z.id).
  destruct (padded_copy (length (A ++ replicate (length bs) 0 ++ log_bytes b)) (length A) bs
    (df_bytes (mr_file (af_filemap (ws_file w))))) as [Hc Hl]; [rewrite !length_app, length_replicate; lia|exact L5|].
  rewrite L6 in Hc.
  split; cbn [ws_file ws_pending].
  - exact L1.
  - exact L1'.
  - exact L2.
  - exact L2'.
  - exact L3.
  - rewrite Hsize. exact L4.
  - rewrite (Hb (Copied bs)) by done. unfold copy_bytes. cbn [af_filemap mr_file df_bytes set_field]. rewrite HA.
    cbn [slot_bytes]. rewrite !length_app, length_replicate in Hl. rewrite !length_app. exact Hl.
  - rewrite (Hb (Copied bs)) by done. unfold copy_bytes. cbn [af_filemap mr_file df_bytes set_field slot_bytes]. rewrite HA.
    replace (length (A ++ bs ++ log_bytes b)) with (length (A ++ replicate (length bs) 0 ++ log_bytes b))
      by (by rewrite !length_app, length_replicate).
    rewrite Hc, take_app_length. f_equal. f_equal.
    rewrite app_assoc. apply drop_app_n. by rewrite length_app, length_replicate.
  - rewrite (Hh (Copied bs)), L7 by done. cbn [holding app]. rewrite !list_to_map_app. cbn [list_to_map foldr fst snd].
    rewrite delete_union, delete_insert_eq.
    rewrite !delete_id; [done|by apply not_elem_of_list_to_map_1|by apply not_elem_of_list_to_map_1].
  - rewrite (Hh (Copied bs)) by done. cbn [holding app]. rewrite fmap_app. apply NoDup_app.
    split; [done|]. split; [|done]. intros x Hx Hx'. apply (N2 x Hx). by apply list_elem_of_further.
Qed.

Lemma log_step_grows capacity log e : log_size log <= log_size (log_step capacity log e).
Proof.
  destruct e as [t bs|t]; cbn [log_step].
  - rewrite log_size_app. match goal with |- _ <= _ + log_size ?x => pose proof (log_size_nonneg x); lia end.
  - enough (length (log_bytes (complete t <$> log)) = length (log_bytes log)) as E by (unfold log_size; lia).
    unfold log_bytes. induction log as [|s log IH]; cbn; [done|].
    by rewrite !length_app, slot_bytes_complete, IH.
Qed.
Lemma log_steps_grow capacity log evs : log_size log <= log_size (log_steps capacity log evs).
Proof.
  revert log. induction evs as [|e evs IH]; intros log; [done|].
  etrans; [apply (log_step_grows capacity log e)|apply IH].
Qed.
Lemma write_steps_ok capacity evs log w w' :
  log_of capacity log w → 0 <= capacity < 9223372036854775808 →
  log_size (log_steps capacity log evs) < 9223372036854775808 →
  write_steps w evs = Some w' → log_of capacity (log_steps capacity log evs) w'.
Proof.
  intros Hl Hcap. revert log w Hl. induction evs as [|e evs IH]; intros log w Hl Hsize; cbn [write_steps].
  { by intros [= <-]. }
  cbn [log_steps foldl] in *. destruct (write_step w e) as [w1|] eqn:E; [|done].
  assert (log_size (log_step capacity log e) < 9223372036854775808) as Hg.
  { eapply Z.le_lt_trans; [apply (log_steps_grow capacity _ evs)|exact Hsize]. }
  apply IH; [|exact Hsize]. destruct e as [t bs|t]; [by eapply reserve_step|by eapply copy_step].
Qed.

(** ** Opening *)

Definition calls_succeed : MapCalls := mkCalls true true true true.
(** A log as a closed file is: its bytes, and their number in the second file. *)
Definition closed_log (bytes : list Z) : option FileOnDisk * option FileOnDisk :=
  (Some (mkFile bytes (Z.of_nat (length bytes))), Some (mkFile (le_bytes 8 (Z.of_nat (length bytes))) 8)).
Definition open_log (disk : option FileOnDisk * option FileOnDisk) : AsyncMappedFile :=
  AsyncMappedFile_new calls_succeed calls_succeed disk.1 disk.2 false.
Definition new_log : AsyncMappedFile := open_log (None, None).

Lemma log_bytes_copied bytes : log_bytes [Copied bytes] = bytes.
Proof. unfold log_bytes. cbn. apply app_nil_r. Qed.
Lemma padded_all bytes : padded (length bytes) bytes = bytes.
Proof. unfold padded. rewrite Nat.sub_diag, firstn_all. apply app_nil_r. Qed.
Lemma le_val_padded n z : 0 <= z < 256 ^ Z.of_nat n → le_val (padded n (le_bytes n z)) = z.
Proof. intros Hz. rewrite <- (length_le_bytes n z) at 1. rewrite padded_all. by apply le_val_bytes. Qed.

Lemma new_log_of : log_of MAX_LOGFILE_SIZE [] (mkWriters new_log ∅).
Proof. split; [done|done|done|done|done|done|done|done|done|constructor]. Qed.
Lemma region_opened bytes n size : 0 < size → n <= size → Z.of_nat (length bytes) <= size →
  MappedRegion_new calls_succeed (Some (mkFile bytes n)) size false
  = mkRegion (mkFile bytes size) size false true true.
Proof.
  intros Hs Hn Hb. unfold MappedRegion_new, region_open, region_mmap, truncate_to, set_field, id.
  cbn [default mc_open mc_stat mc_truncate mc_map calls_succeed negb orb andb df_size df_bytes].
  unfold id. cbn [df_size df_bytes]. rewrite (proj2 (Z.eqb_neq size 0)) by lia. rewrite andb_false_r.
  rewrite (proj2 (Z.leb_le (Z.of_nat (length bytes)) size)) by done. unfold FieldOf, set_field. cbn [mr_file mr_size mr_ro mr_opened mr_mapped andb Z.eqb].
  rewrite (proj2 (Z.ltb_lt 0 size)) by done.
  destruct (Z.ltb_spec n size); [done|]. by replace n with size by lia.
Qed.
Lemma reopened_log_of bytes : Z.of_nat (length bytes) < MAX_LOGFILE_SIZE →
  log_of MAX_LOGFILE_SIZE [Copied bytes] (mkWriters (open_log (closed_log bytes)) ∅).
Proof.
  intros Hlen. unfold open_log, closed_log, AsyncMappedFile_new. cbn [fst snd].
  rewrite !region_opened by (rewrite ?length_le_bytes; try lia; done).
  split; cbn [ws_file ws_pending af_filemap af_sizemap mr_file df_bytes mr_ro]; [done|done|done|done|done|..].
  - unfold stored_size, log_size. cbn [af_sizemap mr_file df_bytes]. rewrite log_bytes_copied.
    apply le_val_padded. unfold MAX_LOGFILE_SIZE in Hlen. change (256 ^ Z.of_nat 8) with 18446744073709551616. lia.
  - by rewrite log_bytes_copied.
  - rewrite log_bytes_copied. apply padded_all.
  - done.
  - constructor.
Qed.

(** ** What the threads wrote *)

Definition reserved (evs : list WriteEvent) : list (list Z) :=
  omap (λ e, match e with Reserve _ bs => Some bs | Copy _ => None end) evs.
Definition slot_data (s : Slot) : list Z := match s with Copied bs | Holding _ bs => bs | Refused n => replicate n 0 end.

Lemma data_complete t (log : list Slot) : slot_data <$> (complete t <$> log) = slot_data <$> log.
Proof.
  rewrite <- list_fmap_compose. apply list_fmap_ext. intros _ s _. cbn. destruct s; cbn; [done| |done].
  by case_decide.
Qed.
Lemma data_of_steps capacity evs (log : list Slot) : log_size (log_steps capacity log evs) < capacity →
  concat (slot_data <$> log_steps capacity log evs) = concat (slot_data <$> log) ++ concat (reserved evs).
Proof.
  revert log. induction evs as [|e evs IH]; intros log Hsize; [cbn; by rewrite app_nil_r|].
  change (log_steps capacity log (e :: evs)) with (log_steps capacity (log_step capacity log e) evs) in *.
  pose proof (log_steps_grow capacity (log_step capacity log e) evs) as Hg. rewrite IH by done.
  destruct e as [t bs|t]; cbn [log_step reserved omap list_omap] in *.
  - rewrite log_size_app in Hg. rewrite fmap_app, concat_app, <- app_assoc. f_equal. cbn [fmap list_fmap concat].
    destruct (Z.ltb_spec (log_size log + Z.of_nat (length bs)) capacity) as [|Hge]; [cbn; by rewrite app_nil_r|].
    rewrite log_size_one in Hg. cbn in Hg. rewrite length_replicate in Hg. lia.
  - by rewrite data_complete.
Qed.
Lemma nothing_held (log : list Slot) : holding 0 log = [] → log_bytes log = concat (slot_data <$> log).
Proof.
  generalize 0. unfold log_bytes. induction log as [|s log IH]; intros off; cbn; [done|].
  destruct s; [|done|]; intros Hh; f_equal; by eapply IH.
Qed.

(** C23: Whatever way threads' appends to a log come between one another, the log
    holds what was there and then the appended parts in the order in which their
    places were reserved, no byte of one over another: a part whose bytes are not
    copied yet reads as zeros of its length, and once nobody is copying the log is
    the concatenation of all that was written. *)
Theorem concurrent_appends_keep_log bytes evs w :
  Z.of_nat (length bytes) < MAX_LOGFILE_SIZE →
  write_steps (mkWriters (open_log (closed_log bytes)) ∅) evs = Some w →
  let log := log_steps MAX_LOGFILE_SIZE [Copied bytes] evs in
  log_size log < MAX_LOGFILE_SIZE →
  ∃ buf, as_readonly_buffer (ws_file w) = Some (buf, log_size log)
    /\ padded (Z.to_nat (log_size log)) buf = log_bytes log
    /\ (ws_pending w = ∅ → log_bytes log = bytes ++ concat (reserved evs)).
Proof.
  intros Hlen Hrun log Hsize.
  destruct (write_steps_ok MAX_LOGFILE_SIZE evs [Copied bytes] _ w (reopened_log_of bytes Hlen))
    as [L1 L1' L2 L2' L3 L4 L5 L6 L7 L8]; [by unfold MAX_LOGFILE_SIZE|unfold MAX_LOGFILE_SIZE in *; fold log; lia|done|].
  fold log in L4, L5, L6, L7, L8. exists (df_bytes (mr_file (af_filemap (ws_file w)))).
  split; [|split].
  - unfold as_readonly_buffer. rewrite L1. cbn [andb]. by rewrite L1', L4.
  - unfold log_size. by rewrite Nat2Z.id.
  - intros Hp. rewrite nothing_held; cycle 1.
    { destruct (holding 0 log) as [|[t x] l]; [done|]. rewrite L7 in Hp. cbn in Hp. by apply insert_non_empty in Hp. }
    unfold log. rewrite data_of_steps by done. cbn. by rewrite app_nil_r.
Qed.

Lemma concurrent_appends_keep_log_witness : ∃ w buf,
  write_steps (mkWriters (open_log (closed_log [9])) ∅) [Reserve 1 [1; 2]; Reserve 2 [3]; Copy 2; Copy 1] = Some w
  /\ as_readonly_buffer (ws_file w) = Some (buf, 4) /\ padded 4 buf = [9; 1; 2; 3].
Proof.
  set (evs := [Reserve 1 [1; 2]; Reserve 2 [3]; Copy 2; Copy 1]).
  destruct (write_steps (mkWriters (open_log (closed_log [9])) ∅) evs) as [w|] eqn:E; [|vm_compute in E; discriminate E].
  destruct (concurrent_appends_keep_log [9] evs w) as (buf & H1 & H2 & _); [done|done|done|].
  by exists w, buf.
Defined.

(** An append that does not fit is refused, and so is every append after it, even
    one that would have fitted: the size stays where the reservation put it. *)
Theorem refused_append_ends_log f bs n f' bs' :
  mr_ro (af_sizemap f) = false → af_mapped f = true → 0 <= af_capacity f < 9223372036854775808 →
  0 <= stored_size f → 0 < Z.of_nat (length bs) → 0 < Z.of_nat (length bs') →
  stored_size f + Z.of_nat (length bs) + Z.of_nat (length bs') < 9223372036854775808 →
  af_write bs f = Ok (n, f') → n < 0 →
  af_capacity f' <= stored_size f' /\ (∃ f'', af_write bs' f' = Ok (- ENOMEM, f'')).
Proof.
  intros Hro Hm Hcap Hs Hb Hb' Hmax. unfold af_write. rewrite Hm. cbn [negb].
  rewrite !(proj2 (Z.leb_gt _ _)) by done. unfold reserve at 1. rewrite Hro. cbn [mbind res_bind].
  rewrite wrap_small by in_range. set (size := stored_size f + Z.of_nat (length bs)) in *.
  set (f1 := store_size size f).
  assert (log_fits (stored_size f) (Z.of_nat (length bs)) f1 = (size <? af_capacity f)) as ->.
  { unfold log_fits. change (af_capacity f1) with (af_capacity f). by rewrite !swrap_small by in_range. }
  destruct (Z.ltb_spec size (af_capacity f)); [intros [= <- _]; lia|]. intros [= _ <-] _.
  assert (stored_size f1 = size) as Hs1 by (unfold f1; apply stored_store; lia).
  rewrite Hs1. split; [exact H|]. change (af_mapped f1) with (af_mapped f). rewrite Hm. cbn [negb].
  unfold reserve. change (mr_ro (af_sizemap f1)) with (mr_ro (af_sizemap f)). rewrite Hro, Hs1. cbn [mbind res_bind].
  rewrite wrap_small by in_range. unfold log_fits.
  change (af_capacity (store_size (size + Z.of_nat (length bs')) f1)) with (af_capacity f).
  rewrite !swrap_small by in_range. rewrite (proj2 (Z.ltb_ge _ _)) by lia. by eexists.
Qed.

(** ** One writer, and a reader afterwards *)

Definition is_log (bytes : list Z) (f : AsyncMappedFile) : Prop :=
  log_of MAX_LOGFILE_SIZE [Copied bytes] (mkWriters f ∅).
Definition open_readonly (disk offset : FileOnDisk) : AsyncMappedFile :=
  AsyncMappedFile_new calls_succeed calls_succeed (Some disk) (Some offset) true.

Lemma log_of_same capacity log log' w : log_bytes log = log_bytes log' → holding 0 log = holding 0 log' →
  log_of capacity log w → log_of capacity log' w.
Proof.
  intros Hb Hh [L1 L1' L2 L2' L3 L4 L5 L6 L7 L8].
  assert (log_size log = log_size log') as Hs by (unfold log_size; by rewrite Hb).
  split; rewrite <- ?Hb, <- ?Hh, <- ?Hs; done.
Qed.

Lemma af_write_log bytes bs f : is_log bytes f → bs ≠ [] →
  Z.of_nat (length bytes) + Z.of_nat (length bs) < MAX_LOGFILE_SIZE →
  ∃ f', af_write bs f = Ok (Z.of_nat (length bs), f') /\ is_log (bytes ++ bs) f'.
Proof.
  intros Hl Hbs Hmax. pose proof Hl as [L1 L1' L2 L2' L3 L4 L5 L6 L7 L8]. cbn [ws_file ws_pending] in *.
  assert (log_size [Copied bytes] = Z.of_nat (length bytes)) as Hs by (unfold log_size; by rewrite log_bytes_copied).
  rewrite Hs in L4. assert (0 < Z.of_nat (length bs)) as Hpos by (destruct bs; [done|cbn; lia]).
  assert (∃ f', af_write bs f = Ok (Z.of_nat (length bs), f')) as [f' E].
  { unfold af_write. rewrite L1, (proj2 (Z.leb_gt _ _)) by done. cbn [negb]. unfold reserve. rewrite L2, L4.
    cbn [mbind res_bind]. unfold MAX_LOGFILE_SIZE in Hmax. rewrite wrap_small by in_range.
    set (n := Z.of_nat (length bytes) + Z.of_nat (length bs)) in *.
    assert (log_fits (Z.of_nat (length bytes)) (Z.of_nat (length bs)) (store_size n f) = true) as ->; [|by eexists].
    unfold log_fits. change (af_capacity (store_size n f)) with (af_capacity f). rewrite L3.
    unfold MAX_LOGFILE_SIZE. rewrite !swrap_small by in_range. apply Z.ltb_lt. lia. }
  exists f'. split; [done|]. pose proof (write_alone 0 bs f _ f' L1 Hpos E) as Hsteps.
  rewrite (proj2 (Z.ltb_lt _ _)) in Hsteps by done.
  assert (log_steps MAX_LOGFILE_SIZE [Copied bytes] [Reserve 0 bs; Copy 0] = [Copied bytes; Copied bs]) as Hlog.
  { cbn -[Z.of_nat MAX_LOGFILE_SIZE]. rewrite Hs, (proj2 (Z.ltb_lt _ _)) by done. done. }
  apply (write_steps_ok MAX_LOGFILE_SIZE _ [Copied bytes]) in Hsteps; [|done|by unfold MAX_LOGFILE_SIZE|].
  - rewrite Hlog in Hsteps. eapply log_of_same; [..|exact Hsteps]; [|done].
    rewrite log_bytes_copied. unfold log_bytes. cbn. by rewrite app_nil_r.
  - rewrite Hlog. unfold log_size, log_bytes, MAX_LOGFILE_SIZE in *. cbn. rewrite app_nil_r, length_app. lia.
Qed.

Lemma new_is_log : is_log [] new_log.
Proof. eapply log_of_same; [..|exact new_log_of]; done. Qed.

Lemma region_readonly d n : 0 < df_size d →
  MappedRegion_new calls_succeed (Some d) n true = mkRegion d (df_size d) true true true.
Proof.
  intros Hd. unfold MappedRegion_new, region_open, region_mmap, set_field, id.
  cbn [default mc_open mc_stat mc_truncate mc_map calls_succeed negb orb andb].
  rewrite bool_decide_true by done. cbn [negb]. unfold id. rewrite Z.ltb_irrefl. cbn [andb].
  cbn [mr_file mr_size mr_ro mr_opened mr_mapped Z.eqb andb]. by rewrite (proj2 (Z.ltb_lt _ _)).
Qed.
(** The files that a process leaves that was killed, mapped to be read. *)
Lemma killed_log_reads capacity log w : log_of capacity log w → 0 < capacity →
  let f := open_readonly (mr_file (af_filemap (ws_file w))) (mr_file (af_sizemap (ws_file w))) in
  ∃ raw, as_readonly_buffer f = Some (raw, log_size log) /\ mr_size (af_filemap f) = capacity
    /\ df_bytes (mr_file (af_filemap f)) = raw /\ padded (length (log_bytes log)) raw = log_bytes log.
Proof.
  intros [L1 L1' L2 (L2a & L2b & L2c) L3 L4 L5 L6 L7 L8] Hc. cbn zeta. eexists.
  unfold open_readonly, AsyncMappedFile_new. rewrite !region_readonly by (rewrite ?L2c; done).
  split; [|split; [exact L2c|split; [reflexivity|exact L6]]].
  unfold as_readonly_buffer, af_mapped. cbn [af_filemap af_sizemap mr_mapped mr_opened andb mr_file df_bytes].
  rewrite <- L4. reflexivity.
Qed.
(** A writer killed between reserving a place and copying its bytes leaves zeros. *)
Lemma killed_in_write_reads bytes bs t f w : is_log bytes f → Z.of_nat (length bytes + length bs) < MAX_LOGFILE_SIZE →
  write_steps (mkWriters f ∅) [Reserve t bs] = Some w →
  let r := open_readonly (mr_file (af_filemap (ws_file w))) (mr_file (af_sizemap (ws_file w))) in
  ∃ raw, as_readonly_buffer r = Some (raw, Z.of_nat (length bytes + length bs))
    /\ mr_size (af_filemap r) = MAX_LOGFILE_SIZE
    /\ padded (length bytes + length bs) raw = bytes ++ replicate (length bs) 0.
Proof.
  intros Hl Hmax Hrun. set (log := [Copied bytes; Holding t bs]).
  assert (log_bytes log = bytes ++ replicate (length bs) 0) as Hb.
  { unfold log, log_bytes. cbn. by rewrite app_nil_r. }
  assert (log_size log = Z.of_nat (length bytes + length bs)) as Hs.
  { unfold log_size. by rewrite Hb, length_app, length_replicate. }
  assert (log_steps MAX_LOGFILE_SIZE [Copied bytes] [Reserve t bs] = log) as Hlog.
  { unfold log_steps. cbn [foldl log_step]. unfold log_size. rewrite log_bytes_copied.
    by rewrite (proj2 (Z.ltb_lt _ _)) by lia. }
  apply (write_steps_ok MAX_LOGFILE_SIZE _ _ _ _ Hl) in Hrun; [|by unfold MAX_LOGFILE_SIZE|].
  2:{ rewrite Hlog, Hs. unfold MAX_LOGFILE_SIZE in Hmax. lia. }
  rewrite Hlog in Hrun. destruct (killed_log_reads _ _ _ Hrun) as (raw & Hr & Hsz & _ & Hp); [done|].
  rewrite Hs in Hr. exists raw. split; [exact Hr|]. split; [exact Hsz|].
  rewrite Hb, length_app, length_replicate in Hp. exact Hp.
Qed.
(** A log whose files are opened again to be written, however they were left. *)
Lemma region_writable d size : 0 < size →
  MappedRegion_new calls_succeed (Some d) size false
  = mkRegion (if df_size d <? size then truncate_to size d else d) size false true true.
Proof.
  intros Hs. unfold MappedRegion_new, region_open, region_mmap, set_field, id.
  cbn [default mc_open mc_stat mc_truncate mc_map calls_succeed negb orb andb]. unfold id.
  rewrite (proj2 (Z.eqb_neq size 0)) by lia. rewrite andb_false_r.
  unfold FieldOf. cbn [mr_file mr_size mr_ro mr_opened mr_mapped andb Z.eqb].
  by rewrite (proj2 (Z.ltb_lt 0 size)).
Qed.
Lemma padded_truncate n d : padded n (df_bytes (truncate_to (Z.of_nat n) d)) = padded n (df_bytes d).
Proof.
  unfold truncate_to. cbn [df_bytes]. destruct (Z.leb_spec (Z.of_nat (length (df_bytes d))) (Z.of_nat n)); [done|].
  rewrite Nat2Z.id. unfold padded. rewrite take_take, Nat.min_id, length_take, Nat.min_l by lia.
  do 2 f_equal. lia.
Qed.
Lemma reopened_is_log bytes disk offset :
  (length (df_bytes disk) <= length bytes)%nat → padded (length bytes) (df_bytes disk) = bytes →
  df_size disk <= MAX_LOGFILE_SIZE → Z.of_nat (length bytes) <= MAX_LOGFILE_SIZE →
  le_val (padded 8 (df_bytes offset)) = Z.of_nat (length bytes) →
  is_log bytes (open_log (Some disk, Some offset)).
Proof.
  intros Hl Hp Hd Hm Ho. unfold is_log, open_log, AsyncMappedFile_new. cbn [fst snd].
  rewrite !region_writable by done.
  set (d := if df_size disk <? MAX_LOGFILE_SIZE then truncate_to MAX_LOGFILE_SIZE disk else disk).
  assert (df_bytes d = df_bytes disk /\ df_size d = MAX_LOGFILE_SIZE) as [Hdb Hds].
  { unfold d. destruct (Z.ltb_spec (df_size disk) MAX_LOGFILE_SIZE); [|split; [done|lia]].
    unfold truncate_to. cbn [df_bytes df_size]. by rewrite (proj2 (Z.leb_le _ _)) by lia. }
  split; cbn [ws_file ws_pending af_filemap af_sizemap mr_file mr_ro]; rewrite ?log_bytes_copied, ?Hdb, ?Hds; try done.
  - split; [done|split; [|done]]. destruct (Z.ltb_spec (df_size offset) 8); [done|lia].
  - unfold stored_size, log_size. cbn [af_sizemap mr_file]. rewrite log_bytes_copied, <- Ho. f_equal.
    case_match; [apply (padded_truncate 8)|done].
  - constructor.
Qed.
(** How a writer may leave its files: closed, or killed between two writes. *)
Inductive left_by (f : AsyncMappedFile) : FileOnDisk → FileOnDisk → Prop :=
| left_closed disk offset : af_close true f = Ok (disk, offset) → left_by f disk offset
| left_killed : left_by f (mr_file (af_filemap f)) (mr_file (af_sizemap f)).
Lemma left_reopens bytes f disk offset : is_log bytes f → Z.of_nat (length bytes) < MAX_LOGFILE_SIZE →
  left_by f disk offset → is_log bytes (open_log (Some disk, Some offset)).
Proof.
  intros [L1 L1' L2 L2' L3 L4 L5 L6 L7 L8] Hmax Hleft. cbn [ws_file ws_pending] in *.
  assert (log_size [Copied bytes] = Z.of_nat (length bytes)) as Hs by (unfold log_size; by rewrite log_bytes_copied).
  rewrite Hs in L4. rewrite log_bytes_copied in L5, L6. destruct L2' as (Hrw & Hof & Hsz).
  destruct Hleft as [disk offset Hclose|]; [|by apply reopened_is_log; [..|lia|lia|]].
  revert Hclose. unfold af_close. unfold af_mapped in L1. apply andb_true_iff in L1 as [_ ->]. rewrite Hrw, L4.
  cbn [andb negb]. unfold truncate_to. rewrite (proj2 (Z.leb_le _ _)) by lia. intros [= <- <-].
  by apply reopened_is_log; cbn [df_bytes df_size]; [..|lia|lia|].
Qed.
(** The files of a log that was closed, mapped to be read. *)
Lemma closed_log_reads bytes f : is_log bytes f → bytes ≠ [] → Z.of_nat (length bytes) < MAX_LOGFILE_SIZE →
  ∃ disk offset raw, af_close true f = Ok (disk, offset)
    /\ as_readonly_buffer (open_readonly disk offset) = Some (raw, Z.of_nat (length bytes))
    /\ mr_size (af_filemap (open_readonly disk offset)) = Z.of_nat (length bytes)
    /\ df_bytes (mr_file (af_filemap (open_readonly disk offset))) = raw
    /\ padded (length bytes) raw = bytes.
Proof.
  intros [L1 L1' L2 L2' L3 L4 L5 L6 L7 L8] Hne Hmax. cbn [ws_file ws_pending] in *. destruct L2' as (Hrw & Hof & _).
  assert (log_size [Copied bytes] = Z.of_nat (length bytes)) as Hs by (unfold log_size; by rewrite log_bytes_copied).
  rewrite Hs in L4. rewrite log_bytes_copied in L5, L6.
  unfold af_close. unfold af_mapped in L1. apply andb_true_iff in L1 as [_ ->]. rewrite Hrw, L4. cbn [andb negb].
  unfold truncate_to. rewrite (proj2 (Z.leb_le _ _)) by lia.
  eexists _, _, _. split; [reflexivity|].
  assert (0 < Z.of_nat (length bytes)) as Hpos by (destruct bytes; [done|cbn; lia]).
  set (raw := df_bytes (mr_file (af_filemap f))) in *. set (off := mr_file (af_sizemap f)) in *.
  unfold open_readonly, AsyncMappedFile_new.
  rewrite !region_readonly by done. split; [|done].
  unfold as_readonly_buffer, af_mapped, stored_size. cbn [af_filemap af_sizemap mr_mapped mr_opened andb mr_file df_bytes].
  fold (stored_size f). change (le_val (padded 8 (df_bytes off))) with (stored_size f). by rewrite L4.
Qed.
