(* ===== verification/SeqnumCap.v ===== *)
(** * Captures of sequence numbers (src/apps/seqnumcap/, i01_md/SeqnumListener.hpp)

    A listener of a market data feed appends what it is told of the feed's sequence
    numbers to a log: the numbers seen, the gaps and the time outs.  A reader goes
    through the log by the lengths in the headers of its events.  Printing is left
    out: what is read is the list of events that would be printed. *)

From S2P Require Import Prelude Time Codec MappedFile.
Open Scope Z_scope.

(** ** Layouts *)

Definition EventType_UNKNOWN : Z := 0.
Definition EventType_SEQNUM : Z := 1.
Definition EventType_GAP : Z := 2.
Definition EventType_TIMEOUT : Z := 3.

Record CapFileHeader := mkFH { fh_magic_number : Z; fh_version : Z; fh_mic : Z; fh_feed_name : list Z }.
Record EventHeader := mkEH { eh_type : Z; eh_time_s : Z; eh_time_ns : Z; eh_length : Z }.
Record SeqnumEvent := mkSE { se_header : EventHeader; se_unit : Z; se_seqnum : Z }.
Record GapEvent := mkGE {
  ge_header : EventHeader; ge_addr : Z; ge_port : Z; ge_unit : Z; ge_expected : Z; ge_received : Z;
  ge_last_time_s : Z; ge_last_time_ns : Z
}.
Record TimeoutEvent := mkTE {
  te_header : EventHeader; te_unit : Z; te_started : Z; te_last_time_s : Z; te_last_time_ns : Z
}.

Definition c_CapFileHeader : Codec CapFileHeader :=
  c_record (λ '(a, b, c, d), mkFH a b c d) (λ h, (fh_magic_number h, fh_version h, fh_mic h, fh_feed_name h))
    (c_uint 4 *c c_uint 4 *c c_uint 1 *c c_array 15).
#[export] Instance c_CapFileHeader_ok : CodecOk c_CapFileHeader.
Proof. solve_codec. Qed.
Definition c_EventHeader : Codec EventHeader :=
  c_record (λ '(a, b, c, d), mkEH a b c d) (λ h, (eh_type h, eh_time_s h, eh_time_ns h, eh_length h))
    (c_uint 1 *c c_uint 8 *c c_uint 8 *c c_uint 4).
#[export] Instance c_EventHeader_ok : CodecOk c_EventHeader.
Proof. solve_codec. Qed.
Definition c_SeqnumEvent : Codec SeqnumEvent :=
  c_record (λ '(a, b, c), mkSE a b c) (λ e, (se_header e, se_unit e, se_seqnum e))
    (c_EventHeader *c c_uint 4 *c c_uint 8).
#[export] Instance c_SeqnumEvent_ok : CodecOk c_SeqnumEvent.
Proof. solve_codec. Qed.
Definition c_GapEvent : Codec GapEvent :=
  c_record (λ '(a, b, c, d, e, f, g, h), mkGE a b c d e f g h)
    (λ e, (ge_header e, ge_addr e, ge_port e, ge_unit e, ge_expected e, ge_received e, ge_last_time_s e, ge_last_time_ns e))
    (c_EventHeader *c c_uint 4 *c c_uint 2 *c c_uint 1 *c c_uint 8 *c c_uint 8 *c c_uint 8 *c c_uint 8).
#[export] Instance c_GapEvent_ok : CodecOk c_GapEvent.
Proof. solve_codec. Qed.
Definition c_TimeoutEvent : Codec TimeoutEvent :=
  c_record (λ '(a, b, c, d, e), mkTE a b c d e)
    (λ e, (te_header e, te_unit e, te_started e, te_last_time_s e, te_last_time_ns e))
    (c_EventHeader *c c_uint 1 *c c_uint 1 *c c_uint 8 *c c_uint 8).
#[export] Instance c_TimeoutEvent_ok : CodecOk c_TimeoutEvent.
Proof. solve_codec. Qed.

(** [Event], by the type in its header. *)
Inductive CapEvent :=
| CapSeqnum (e : SeqnumEvent)
| CapGap (e : GapEvent)
| CapTimeout (e : TimeoutEvent)
| CapOther (h : EventHeader).

(** ** The writer *)

Definition CAP_MAGIC_NUMBER : Z := 4004318192.
Definition VERSION_NUMBER : Z := 1.
Definition FEED_NAME_SIZE : nat := 15.
Definition FILE_HEADER_SIZE : Z := 24.

Definition conforming_name (str : list Z) : list Z := take FEED_NAME_SIZE str.
(** [write_header]: the name is filled up with spaces. *)
Definition header_for (mic : Z) (name : list Z) : CapFileHeader :=
  let cn := conforming_name name in
  mkFH CAP_MAGIC_NUMBER VERSION_NUMBER (u8 mic) (cn ++ replicate (FEED_NAME_SIZE - length cn) 32).
Definition cap_write_header (mic : Z) (name : list Z) (f : AsyncMappedFile) : res (Z * AsyncMappedFile) :=
  af_write (c_enc c_CapFileHeader (header_for mic name)) f.
(** [read_header] *)
Definition cap_read_header (f : AsyncMappedFile) : CapFileHeader :=
  match as_readonly_buffer f with
  | None => mkFH 0 0 0 (replicate FEED_NAME_SIZE 0)
  | Some (buf, _) => c_dec c_CapFileHeader (padded 24 buf)
  end.
(** The constructor, which throws. *)
Definition SeqnumWriter_new (mic : Z) (name : list Z) (f : AsyncMappedFile) : res AsyncMappedFile :=
  size ← af_size f;
  if size =? 0 then
    if u64 (af_capacity f) <? FILE_HEADER_SIZE then Fail (Thrown "SeqnumWriter: no space in file to write header")
    else
      '(ret, f) ← cap_write_header mic name f;
      if ret <? 0 then Fail (Thrown "SeqnumWriter: could not write header to file") else Ok f
  else if size <? FILE_HEADER_SIZE then Fail (Thrown "SeqnumWriter: existing file too small to contain header")
  else
    let fh := cap_read_header f in
    let fn := filter (λ c, c ≠ 0) (fh_feed_name fh) in
    if negb (fh_mic fh =? mic) || negb (bool_decide (conforming_name name = fn))
    then Fail (Thrown "SeqnumWriter: existing file does not match MIC or feed name")
    else Ok f.

Definition cap_header_of (type : Z) (ts : Timestamp) (length : Z) : EventHeader :=
  mkEH type (u64 (tv_sec ts)) (u64 (tv_nsec ts)) length.
Definition seqnum_event (ts : Timestamp) (seqnum index : Z) : SeqnumEvent :=
  mkSE (cap_header_of EventType_SEQNUM ts 33) index seqnum.
Definition gap_event (ts : Timestamp) (addr port unit_ expected received : Z) (last_ts : Timestamp) : GapEvent :=
  mkGE (cap_header_of EventType_GAP ts 60) addr port unit_ expected received (u64 (tv_sec last_ts)) (u64 (tv_nsec last_ts)).
Definition timeout_event (ts : Timestamp) (started : bool) (unit_ : Z) (last_ts : Timestamp) : TimeoutEvent :=
  mkTE (cap_header_of EventType_TIMEOUT ts 39) unit_ (Z.b2z started) (u64 (tv_sec last_ts)) (u64 (tv_nsec last_ts)).

(** What is told to the listener and the events to be written: [do_on_seqnum_event],
    [do_on_gap_event], [do_on_timeout_event].  A write that fails is only printed. *)
Definition cap_bytes (e : CapEvent) : list Z :=
  match e with
  | CapSeqnum e => c_enc c_SeqnumEvent e
  | CapGap e => c_enc c_GapEvent e
  | CapTimeout e => c_enc c_TimeoutEvent e
  | CapOther h => c_enc c_EventHeader h
  end.
Definition write_cap_event (f : AsyncMappedFile) (e : CapEvent) : res AsyncMappedFile :=
  '(_, f) ← af_write (cap_bytes e) f; Ok f.
Definition do_on_seqnum_event (ts : Timestamp) (seqnum index : Z) (f : AsyncMappedFile) : res AsyncMappedFile :=
  write_cap_event f (CapSeqnum (seqnum_event ts seqnum index)).
Definition do_on_gap_event (ts : Timestamp) (addr port unit_ expected received : Z) (last_ts : Timestamp)
    (f : AsyncMappedFile) : res AsyncMappedFile :=
  write_cap_event f (CapGap (gap_event ts addr port unit_ expected received last_ts)).
Definition do_on_timeout_event (ts : Timestamp) (started : bool) (unit_ : Z) (last_ts : Timestamp)
    (f : AsyncMappedFile) : res AsyncMappedFile :=
  write_cap_event f (CapTimeout (timeout_event ts started unit_ last_ts)).

(** ** The listener *)

(** [SeqnumListener]; [m_seqnum] has no value until a packet starts. *)
Record SeqnumListener := mkSL { sl_seqnum : option Z; sl_file : AsyncMappedFile }.
#[export] Instance SeqnumListener_rebuild : Rebuild SeqnumListener := λ l, mkSL (sl_seqnum l) (sl_file l).

Inductive FeedMsg :=
| StartOfPktMsg (seqnum index : Z)
| EndOfPktMsg (seqnum index : Z)
| GapMsg (addr port unit_ expected received : Z) (last_ts : Timestamp)
| TimeoutMsg (started : bool) (unit_index : Z) (last_ts : Timestamp)
| OtherMsg.

(** The loop at the end of a packet, [n] times. *)
Fixpoint write_seqnums (ts : Timestamp) (index : Z) (n : nat) (seqnum : Z) (f : AsyncMappedFile) : res AsyncMappedFile :=
  match n with
  | O => Ok f
  | S n => f ← do_on_seqnum_event ts seqnum index f; write_seqnums ts index n (u64 (seqnum + 1)) f
  end.
(** [on_raw_msg].  Up to the largest number the loop never ends. *)
Definition on_raw_msg (ts : Timestamp) (m : FeedMsg) (l : SeqnumListener) : res SeqnumListener :=
  match m with
  | StartOfPktMsg seqnum _ => Ok (l <| sl_seqnum := Some seqnum |>)
  | EndOfPktMsg seqnum index =>
      match sl_seqnum l with
      | None => Fail (UndefinedBehaviour "m_seqnum is read before a packet starts")
      | Some m =>
          if (m <=? seqnum) && (seqnum =? 18446744073709551615) then Fail (Deadlock "the loop has no end")
          else
            f ← write_seqnums ts index (Z.to_nat (seqnum + 1 - m)) m (sl_file l);
            Ok (mkSL (Some (Z.max m (seqnum + 1))) f)
      end
  | GapMsg addr port unit_ expected received last_ts =>
      f ← do_on_gap_event ts addr port unit_ expected received last_ts (sl_file l); Ok (l <| sl_file := f |>)
  | TimeoutMsg started unit_index last_ts =>
      f ← do_on_timeout_event ts started (u8 unit_index) last_ts (sl_file l); Ok (l <| sl_file := f |>)
  | OtherMsg => Ok l
  end.

(** ** The reader *)

(** The mapping; a place in it is an offset. *)
Record SeqnumReader := mkSR { sr_mem : FileOnDisk; sr_buf : option Z; sr_len : Z; sr_header : CapFileHeader }.

(** [n] bytes at a place. *)
Definition read_mem (mem : FileOnDisk) (off : Z) (n : nat) : res (list Z) :=
  if off + Z.of_nat n <=? df_size mem then Ok (drop (Z.to_nat off) (padded (Z.to_nat off + n) (df_bytes mem)))
  else Fail (UndefinedBehaviour "read past the mapped file").

Definition SeqnumReader_new (f : AsyncMappedFile) : res SeqnumReader :=
  match as_readonly_buffer f with
  | None => Fail (Thrown "SeqnumReader: could not read file")
  | Some (_, len) =>
      let mem := mkFile (df_bytes (mr_file (af_filemap f))) (mr_size (af_filemap f)) in
      if FILE_HEADER_SIZE <=? len then
        h ← read_mem mem 0 24;
        Ok (mkSR mem (Some FILE_HEADER_SIZE) (len - FILE_HEADER_SIZE) (c_dec c_CapFileHeader h))
      else Ok (mkSR mem None 0 (mkFH 0 0 0 (replicate FEED_NAME_SIZE 0)))
  end.

(** [const_iterator]; [None] is the null pointer. *)
Record Iter := mkIter { it_buf : option Z; it_end : option Z; it_len : Z }.
Definition Iter_new (buf : option Z) (len : Z) : Iter :=
  mkIter buf (if len =? 0 then None else (λ b, b + len) <$> buf) len.
Definition sr_begin (r : SeqnumReader) : Iter := Iter_new (sr_buf r) (sr_len r).
Definition sr_end (r : SeqnumReader) : Iter :=
  if 0 <? sr_len r then Iter_new ((λ b, b + sr_len r) <$> sr_buf r) 0 else Iter_new None 0.
(** [operator!=] *)
Definition iter_neq (a b : Iter) : bool := negb (bool_decide (it_buf a = it_buf b)).
(** [operator++] *)
Definition iter_next (mem : FileOnDisk) (it : Iter) : res Iter :=
  match it_buf it with
  | None => Fail (UndefinedBehaviour "null event")
  | Some buf =>
      h ← read_mem mem buf 21;
      let length := eh_length (c_dec c_EventHeader h) in
      Ok (match it_end it with
          | Some e => if buf + length <=? e then mkIter (Some (buf + length)) (it_end it) (it_len it)
                      else mkIter (it_end it) (it_end it) (it_len it)
          | None => mkIter None None (it_len it)
          end)
  end.
(** [operator*] and reading what it points at. *)
Definition read_cap_event (mem : FileOnDisk) (buf : Z) : res CapEvent :=
  h ← read_mem mem buf 21;
  let header := c_dec c_EventHeader h in
  if eh_type header =? EventType_SEQNUM then bs ← read_mem mem buf 33; Ok (CapSeqnum (c_dec c_SeqnumEvent bs))
  else if eh_type header =? EventType_GAP then bs ← read_mem mem buf 60; Ok (CapGap (c_dec c_GapEvent bs))
  else if eh_type header =? EventType_TIMEOUT then bs ← read_mem mem buf 39; Ok (CapTimeout (c_dec c_TimeoutEvent bs))
  else Ok (CapOther header).

(** The loop of [playback_seqnum_files] over one file.  [None]: out of fuel. *)
Fixpoint playback_loop (mem : FileOnDisk) (fuel : nat) (it stop : Iter) : res (option (list CapEvent)) :=
  if iter_neq it stop then
    match fuel with
    | O => Ok None
    | S fuel =>
        es ← match it_buf it with None => Ok [] | Some buf => e ← read_cap_event mem buf; Ok [e] end;
        it ← iter_next mem it;
        rest ← playback_loop mem fuel it stop;
        Ok (match rest with None => None | Some rest => Some (es ++ rest) end)
    end
  else Ok (Some []).
Definition playback (fuel : nat) (f : AsyncMappedFile) : res (option (CapFileHeader * list CapEvent)) :=
  r ← SeqnumReader_new f;
  es ← playback_loop (sr_mem r) fuel (sr_begin r) (sr_end r);
  Ok (match es with None => None | Some es => Some (sr_header r, es) end).

(** ** Events in the log *)

Definition event_header (e : CapEvent) : EventHeader :=
  match e with CapSeqnum e => se_header e | CapGap e => ge_header e | CapTimeout e => te_header e | CapOther h => h end.
(** An event as it is written: its length and its type are those of its layout. *)
Definition cap_ok (e : CapEvent) : Prop :=
  eh_length (event_header e) = Z.of_nat (length (cap_bytes e)) /\
  match e with
  | CapSeqnum e => c_valid c_SeqnumEvent e /\ eh_type (se_header e) = EventType_SEQNUM
  | CapGap e => c_valid c_GapEvent e /\ eh_type (ge_header e) = EventType_GAP
  | CapTimeout e => c_valid c_TimeoutEvent e /\ eh_type (te_header e) = EventType_TIMEOUT
  | CapOther _ => False
  end.
Definition log_bytes_of (es : list CapEvent) : list Z := concat (cap_bytes <$> es).

Lemma cap_bytes_nonempty e : cap_ok e → (21 <= length (cap_bytes e))%nat.
Proof.
  destruct e; intros [_ He]; [destruct He as [He _]..|done]; cbn [cap_bytes];
    rewrite codec_length by exact He; cbn; lia.
Qed.

(** Reading at a place in a mapping that holds these bytes. *)
Lemma read_mem_at mem pre bs post n : Z.of_nat (length (pre ++ bs ++ post)) <= df_size mem →
  padded (length (pre ++ bs ++ post)) (df_bytes mem) = pre ++ bs ++ post →
  (n <= length (bs ++ post))%nat → read_mem mem (Z.of_nat (length pre)) n = Ok (take n (bs ++ post)).
Proof.
  intros Hs Hp Hn. unfold read_mem. rewrite (length_app pre) in Hs.
  rewrite (proj2 (Z.leb_le _ _)) by lia.
  rewrite Nat2Z.id, (padded_take _ (length (pre ++ bs ++ post))) by (rewrite (length_app pre); lia).
  by rewrite Hp, <- take_drop_commute, drop_app_length.
Qed.

Lemma dec_prefix {A} (c : Codec A) `{!CodecOk c} a n rest : c_valid c a → (c_size c <= n)%nat →
  c_dec c (take n (c_enc c a ++ rest)) = a.
Proof.
  intros Ha Hn. rewrite take_app_ge by (by rewrite codec_length). by apply codec_dec_enc.
Qed.
Lemma take_layout {A} (c : Codec A) `{!CodecOk c} a rest : c_valid c a →
  take (c_size c) (c_enc c a ++ rest) = c_enc c a.
Proof. intros Ha. by rewrite take_app_n by by apply codec_length. Qed.

Lemma event_reads_back mem pre e post :
  Z.of_nat (length (pre ++ cap_bytes e ++ post)) <= df_size mem →
  padded (length (pre ++ cap_bytes e ++ post)) (df_bytes mem) = pre ++ cap_bytes e ++ post → cap_ok e →
  read_cap_event mem (Z.of_nat (length pre)) = Ok e
  /\ ∃ h, read_mem mem (Z.of_nat (length pre)) 21 = Ok h
       /\ eh_length (c_dec c_EventHeader h) = Z.of_nat (length (cap_bytes e)).
Proof.
  intros Hs Hp He. pose proof (cap_bytes_nonempty e He) as H21.
  assert (∀ n, (n <= length (cap_bytes e))%nat →
    read_mem mem (Z.of_nat (length pre)) n = Ok (take n (cap_bytes e ++ post))) as Hread.
  { intros n Hn. apply read_mem_at; [done..|]. rewrite length_app. lia. }
  assert (c_dec c_EventHeader (take 21 (cap_bytes e ++ post)) = event_header e) as Hh.
  { destruct e as [[h u s]|[h a b c d e' f g]|[h a b c d]|h]; destruct He as [_ He]; [..|done];
      destruct He as [He _]; cbn [cap_bytes event_header se_header ge_header te_header];
      unfold c_SeqnumEvent, c_GapEvent, c_TimeoutEvent, c_record, c_pair; cbn [c_enc fst snd]; rewrite <- ?app_assoc;
      apply (dec_prefix c_EventHeader); try (cbn; lia); cbn in He |- *; tauto. }
  split; [|exists (take 21 (cap_bytes e ++ post)); rewrite Hread by done; split; [done|]; rewrite Hh; apply He].
  unfold read_cap_event. rewrite (Hread 21%nat) by done. cbn [mbind res_bind]. rewrite Hh.
  destruct e as [e|e|e|h]; destruct He as [_ He]; [..|done]; destruct He as [He Ht]; cbn [event_header] in *; rewrite Ht;
    cbn [Z.eqb EventType_SEQNUM EventType_GAP EventType_TIMEOUT Pos.eqb];
    cbn [cap_bytes] in *;
    (rewrite Hread by (rewrite codec_length by exact He; cbn; lia)); cbn [mbind res_bind]; do 2 f_equal;
    (apply dec_prefix; [apply _|exact He|cbn; lia]).
Qed.

(** ** Going through a log *)

Lemma iter_neq_same b e e' n n' : iter_neq (mkIter b e n) (mkIter b e' n') = false.
Proof. unfold iter_neq. cbn [it_buf]. by rewrite bool_decide_true. Qed.

(** Past one event. *)
Lemma playback_event mem n e pre post fuel : cap_ok e →
  Z.of_nat (length (pre ++ cap_bytes e ++ post)) <= df_size mem →
  padded (length (pre ++ cap_bytes e ++ post)) (df_bytes mem) = pre ++ cap_bytes e ++ post →
  let stop := Some (Z.of_nat (length (pre ++ cap_bytes e ++ post))) in
  playback_loop mem (S fuel) (mkIter (Some (Z.of_nat (length pre))) stop n) (mkIter stop None 0)
  = (rest ← playback_loop mem fuel (mkIter (Some (Z.of_nat (length (pre ++ cap_bytes e)))) stop n) (mkIter stop None 0);
     Ok (match rest with None => None | Some rest => Some (e :: rest) end)).
Proof.
  intros He Hs Hp. cbn zeta. set (stop := Z.of_nat (length (pre ++ cap_bytes e ++ post))) in *.
  destruct (event_reads_back mem pre e post Hs Hp He) as (Hread & h & Hh & Hlen).
  pose proof (cap_bytes_nonempty e He) as H21.
  assert (stop = Z.of_nat (length pre) + Z.of_nat (length (cap_bytes e)) + Z.of_nat (length post)) as Hstop.
  { unfold stop. rewrite !length_app. lia. }
  cbn [playback_loop]. unfold iter_neq at 1. cbn [it_buf].
  rewrite bool_decide_false by (intros [= ?]; lia). cbn [negb]. rewrite Hread. cbn [mbind res_bind].
  unfold iter_next. cbn [it_buf it_end it_len]. rewrite Hh. cbn [mbind res_bind]. rewrite Hlen.
  rewrite (proj2 (Z.leb_le _ _)) by lia. by rewrite (length_app pre), Nat2Z.inj_add.
Qed.

Lemma playback_ok mem n es pre fuel :
  Forall cap_ok es → (length es <= fuel)%nat →
  Z.of_nat (length (pre ++ log_bytes_of es)) <= df_size mem →
  padded (length (pre ++ log_bytes_of es)) (df_bytes mem) = pre ++ log_bytes_of es →
  let e := Some (Z.of_nat (length (pre ++ log_bytes_of es))) in
  playback_loop mem fuel (mkIter (Some (Z.of_nat (length pre))) e n) (mkIter e None 0) = Ok (Some es).
Proof.
  intros He. revert pre fuel. induction He as [|e es He _ IH]; intros pre fuel Hf Hs Hp.
  - unfold log_bytes_of. cbn [fmap list_fmap concat]. rewrite app_nil_r. cbn zeta.
    destruct fuel; cbn [playback_loop]; by rewrite iter_neq_same.
  - cbn [length] in Hf. destruct fuel as [|fuel]; [lia|].
    unfold log_bytes_of in *. cbn [fmap list_fmap concat] in *. fold (log_bytes_of es) in *. cbn zeta.
    rewrite playback_event by done.
    specialize (IH (pre ++ cap_bytes e) fuel ltac:(lia)). rewrite <- !app_assoc in IH. by rewrite (IH Hs Hp).
Qed.

(** Nor does the loop end when it does not end after some events. *)
Lemma playback_past mem n es pre post : Forall cap_ok es →
  Z.of_nat (length (pre ++ log_bytes_of es ++ post)) <= df_size mem →
  padded (length (pre ++ log_bytes_of es ++ post)) (df_bytes mem) = pre ++ log_bytes_of es ++ post →
  let stop := Some (Z.of_nat (length (pre ++ log_bytes_of es ++ post))) in
  (∀ fuel, playback_loop mem fuel (mkIter (Some (Z.of_nat (length (pre ++ log_bytes_of es)))) stop n) (mkIter stop None 0) = Ok None) →
  ∀ fuel, playback_loop mem fuel (mkIter (Some (Z.of_nat (length pre))) stop n) (mkIter stop None 0) = Ok None.
Proof.
  intros He. revert pre. induction He as [|e es He _ IH]; intros pre Hs Hp; cbn zeta.
  - unfold log_bytes_of. cbn [fmap list_fmap concat app]. by rewrite app_nil_r.
  - unfold log_bytes_of in *. cbn [fmap list_fmap concat] in *. fold (log_bytes_of es) in *.
    rewrite <- !app_assoc in *. intros Hend fuel. destruct fuel as [|fuel].
    + cbn [playback_loop]. unfold iter_neq. cbn [it_buf]. rewrite bool_decide_false; [done|].
      intros [= Heq]. pose proof (cap_bytes_nonempty e He). rewrite !length_app in Heq. lia.
    + rewrite playback_event by done. specialize (IH (pre ++ cap_bytes e)). rewrite <- !app_assoc in IH.
      by rewrite (IH Hs Hp Hend).
Qed.

(** At zeros the loop stays where it is. *)
Lemma playback_stuck mem n pre k post : (21 <= k)%nat →
  Z.of_nat (length (pre ++ replicate k 0 ++ post)) <= df_size mem →
  padded (length (pre ++ replicate k 0 ++ post)) (df_bytes mem) = pre ++ replicate k 0 ++ post →
  let stop := Some (Z.of_nat (length (pre ++ replicate k 0 ++ post))) in
  ∀ fuel, playback_loop mem fuel (mkIter (Some (Z.of_nat (length pre))) stop n) (mkIter stop None 0) = Ok None.
Proof.
  intros Hk Hs Hp stop.
  assert (read_mem mem (Z.of_nat (length pre)) 21 = Ok (replicate 21 0)) as Hread.
  { rewrite (read_mem_at _ _ _ _ 21 Hs Hp) by (rewrite length_app, length_replicate; lia).
    rewrite take_app_le by (rewrite length_replicate; lia). by rewrite take_replicate, Nat.min_l. }
  assert (iter_neq (mkIter (Some (Z.of_nat (length pre))) stop n) (mkIter stop None 0) = true) as Hneq.
  { unfold iter_neq, stop. cbn [it_buf]. rewrite bool_decide_false; [done|].
    intros [= Heq]. rewrite !length_app, length_replicate in Heq. lia. }
  induction fuel as [|fuel IH]; cbn [playback_loop]; rewrite Hneq; [done|].
  cbn [it_buf]. unfold read_cap_event, iter_next. cbn [it_buf it_end it_len]. rewrite Hread. cbn [mbind res_bind].
  change (eh_type (c_dec c_EventHeader (replicate 21 0))) with 0.
  change (eh_length (c_dec c_EventHeader (replicate 21 0))) with 0.
  cbn [Z.eqb EventType_SEQNUM EventType_GAP EventType_TIMEOUT mbind res_bind]. rewrite Z.add_0_r.
  unfold stop at 1. cbv iota. rewrite (proj2 (Z.leb_le _ _)) by (rewrite (length_app pre); lia).
  fold stop. by rewrite IH.
Qed.

(** ** What the listener is told *)

(** The events of a feed's messages; [None]: a packet ends that did not start, or
    with the largest number. *)
Definition seqnums (ts : Timestamp) (index m seqnum : Z) : list CapEvent :=
  (λ k, CapSeqnum (seqnum_event ts k index)) <$> seqZ m (seqnum + 1 - m).
Fixpoint feed_events (m : option Z) (msgs : list (Timestamp * FeedMsg)) : option (list CapEvent) :=
  match msgs with
  | [] => Some []
  | (ts, msg) :: msgs =>
      match msg with
      | StartOfPktMsg seqnum _ => feed_events (Some seqnum) msgs
      | EndOfPktMsg seqnum index =>
          match m with
          | None => None
          | Some m =>
              if (m <=? seqnum) && (seqnum =? 18446744073709551615) then None
              else app (seqnums ts index m seqnum) <$> feed_events (Some (Z.max m (seqnum + 1))) msgs
          end
      | GapMsg addr port unit_ expected received last_ts =>
          cons (CapGap (gap_event ts addr port unit_ expected received last_ts)) <$> feed_events m msgs
      | TimeoutMsg started unit_index last_ts =>
          cons (CapTimeout (timeout_event ts started (u8 unit_index) last_ts)) <$> feed_events m msgs
      | OtherMsg => feed_events m msgs
      end
  end.
(** Values that fit their types. *)
Definition msg_ok (m : FeedMsg) : Prop :=
  match m with
  | StartOfPktMsg seqnum index | EndOfPktMsg seqnum index => in_u 64 seqnum /\ in_u 32 index
  | GapMsg addr port unit_ expected received _ =>
      in_u 32 addr /\ in_u 16 port /\ in_u 8 unit_ /\ in_u 64 expected /\ in_u 64 received
  | _ => True
  end.

Lemma u64_range z : 0 <= u64 z < 18446744073709551616.
Proof. apply (wrap_range 64 z). lia. Qed.
Lemma u8_range z : 0 <= u8 z < 256.
Proof. apply (wrap_range 8 z). lia. Qed.
Ltac cap_ok :=
  split; [reflexivity|split; [|reflexivity]]; unfold in_u in *;
  cbn -[u64 u8 Z.pow]; unfold EventType_SEQNUM, EventType_GAP, EventType_TIMEOUT; change (256 ^ Z.of_nat 1) with 256; change (256 ^ Z.of_nat 2) with 65536;
  change (256 ^ Z.of_nat 4) with 4294967296; change (256 ^ Z.of_nat 8) with 18446744073709551616;
  change (2 ^ 64) with 18446744073709551616 in *; change (2 ^ 32) with 4294967296 in *;
  change (2 ^ 16) with 65536 in *; change (2 ^ 8) with 256 in *;
  repeat split; try apply u64_range; try apply u8_range; try lia.
Lemma seqnum_event_ok ts k index : in_u 64 k → in_u 32 index → cap_ok (CapSeqnum (seqnum_event ts k index)).
Proof. intros. cap_ok. Qed.
Lemma gap_event_ok ts addr port unit_ expected received last_ts :
  msg_ok (GapMsg addr port unit_ expected received last_ts) →
  cap_ok (CapGap (gap_event ts addr port unit_ expected received last_ts)).
Proof. intros (?&?&?&?&?). cap_ok. Qed.
Lemma timeout_event_ok ts started unit_ last_ts : cap_ok (CapTimeout (timeout_event ts started (u8 unit_) last_ts)).
Proof. destruct started; cap_ok. Qed.

Lemma feed_events_ok m msgs es : (∀ s, m = Some s → in_u 64 s \/ s = 18446744073709551616) →
  Forall (λ tm, msg_ok tm.2) msgs → feed_events m msgs = Some es → Forall cap_ok es.
Proof.
  intros Hm Hmsgs. revert m es Hm. induction Hmsgs as [|[ts msg] msgs Hmsg _ IH]; intros m es Hm; cbn [feed_events].
  { by intros [= <-]. }
  cbn in Hmsg. destruct msg as [s i|s i|a p u e r l|st u l|].
  - apply IH. intros ? [= <-]. left. apply Hmsg.
  - destruct m as [m|]; [|done]. case_if; [done|].
    destruct (feed_events _ msgs) as [rest|] eqn:Er; [|done]. intros [= <-]. destruct Hmsg as [Hs Hi].
    assert (m <= s → in_u 64 m) as Hmr.
    { intros Hle. destruct (Hm m eq_refl) as [| ->]; [done|]. unfold in_u in Hs. change (2 ^ 64) with 18446744073709551616 in Hs. lia. }
    apply Forall_app. split.
    + unfold seqnums. apply Forall_fmap, Forall_forall. intros k Hk%elem_of_seqZ. cbn.
      apply seqnum_event_ok; [|done]. specialize (Hmr ltac:(lia)). unfold in_u in *. lia.
    + eapply IH; [|exact Er]. intros ? [= <-]. specialize (Hm m eq_refl). unfold in_u in *.
      change (2 ^ 64) with 18446744073709551616 in *. lia.
  - destruct (feed_events m msgs) eqn:Er; [|done]. intros [= <-]. constructor; [by apply gap_event_ok|by eapply IH].
  - destruct (feed_events m msgs) eqn:Er; [|done]. intros [= <-]. constructor; [by apply timeout_event_ok|by eapply IH].
  - by apply IH.
Qed.

Lemma write_cap_event_log bytes e f : is_log bytes f → cap_ok e →
  Z.of_nat (length bytes) + Z.of_nat (length (cap_bytes e)) < MAX_LOGFILE_SIZE →
  ∃ f', write_cap_event f e = Ok f' /\ is_log (bytes ++ cap_bytes e) f'.
Proof.
  intros Hl He Hmax. pose proof (cap_bytes_nonempty e He).
  destruct (af_write_log bytes (cap_bytes e) f Hl) as (f' & E & Hl'); [by intros Hn; rewrite Hn in *; cbn in *; lia|done|].
  exists f'. unfold write_cap_event. by rewrite E.
Qed.
Lemma write_cap_events_log es bytes f : is_log bytes f → Forall cap_ok es →
  Z.of_nat (length bytes) + Z.of_nat (length (log_bytes_of es)) < MAX_LOGFILE_SIZE →
  ∃ f', foldM write_cap_event f es = Ok f' /\ is_log (bytes ++ log_bytes_of es) f'.
Proof.
  intros Hl He. revert bytes f Hl. induction He as [|e es He _ IH]; intros bytes f Hl Hmax.
  { exists f. unfold log_bytes_of. cbn. by rewrite app_nil_r. }
  unfold log_bytes_of in *. cbn [fmap list_fmap concat foldM] in *. rewrite length_app in Hmax.
  destruct (write_cap_event_log bytes e f Hl He) as (f1 & -> & Hl1); [lia|]. cbn [mbind res_bind].
  rewrite app_assoc. apply IH; [done|]. rewrite length_app. lia.
Qed.

(** The loop writes the numbers from [m] on. *)
Lemma write_seqnums_spec ts index n m f : 0 <= m → m + Z.of_nat n < 18446744073709551616 →
  write_seqnums ts index n m f = foldM write_cap_event f ((λ k, CapSeqnum (seqnum_event ts k index)) <$> seqZ m (Z.of_nat n)).
Proof.
  revert m f. induction n as [|n IH]; intros m f Hm Hmax; [done|].
  rewrite (seqZ_cons m) by lia. cbn [write_seqnums fmap list_fmap foldM]. unfold do_on_seqnum_event.
  destruct (write_cap_event f _) as [f'|]; cbn [mbind res_bind]; [|done].
  rewrite wrap_small by in_range. rewrite IH by lia. do 2 f_equal. f_equal; lia.
Qed.

(** Listening is writing the events of the messages. *)
Lemma listen_spec m f msgs es : (∀ s, m = Some s → in_u 64 s \/ s = 18446744073709551616) →
  Forall (λ tm, msg_ok tm.2) msgs → feed_events m msgs = Some es →
  sl_file <$> foldM (λ l tm, on_raw_msg tm.1 tm.2 l) (mkSL m f) msgs = foldM write_cap_event f es.
Proof.
  intros Hm Hmsgs. revert m f es Hm. induction Hmsgs as [|[ts msg] msgs Hmsg _ IH]; intros m f es Hm; cbn [feed_events foldM].
  { by intros [= <-]. }
  cbn in Hmsg. cbn [fst snd]. destruct msg as [s i|s i|a p u e r l|st u l|]; cbn [on_raw_msg mbind res_bind sl_seqnum sl_file].
  - intros He. apply IH; [|done]. intros ? [= <-]. left. apply Hmsg.
  - destruct m as [m|]; [|done]. destruct ((m <=? s) && (s =? 18446744073709551615)) eqn:Hif; [done|].
    destruct (feed_events _ msgs) as [rest|] eqn:Er; [|done]. intros [= <-]. destruct Hmsg as [Hs Hi].
    destruct (Hm m eq_refl) as [Hmr|Hmr].
    + unfold in_u in Hmr, Hs. change (2 ^ 64) with 18446744073709551616 in *.
      assert (m <= s → s < 18446744073709551615) as Hlt.
      { intros Hle. apply andb_false_iff in Hif as [Hif|Hif]; bools; lia. }
      rewrite write_seqnums_spec by lia. rewrite foldM_app. unfold seqnums.
      assert (seqZ m (Z.of_nat (Z.to_nat (s + 1 - m))) = seqZ m (s + 1 - m)) as ->.
      { destruct (Z.le_gt_cases 0 (s + 1 - m)); [by rewrite Z2Nat.id|]. rewrite !seqZ_nil by lia. done. }
      destruct (foldM write_cap_event f _) as [f'|]; cbn [mbind res_bind]; [|done].
      apply IH; [|done]. intros ? [= <-]. unfold in_u. change (2 ^ 64) with 18446744073709551616. lia.
    + unfold in_u in Hs. change (2 ^ 64) with 18446744073709551616 in *.
      unfold seqnums. rewrite seqZ_nil by lia. replace (Z.to_nat (s + 1 - m)) with 0%nat by lia.
      cbn [write_seqnums fmap list_fmap app mbind res_bind]. apply IH; [|done].
      intros ? [= <-]. right. lia.
  - destruct (feed_events m msgs) as [rest|] eqn:Er; [|done]. intros [= <-]. unfold do_on_gap_event. cbn [foldM].
    destruct (write_cap_event f _) as [f'|]; cbn [mbind res_bind]; [|done]. by apply IH.
  - destruct (feed_events m msgs) as [rest|] eqn:Er; [|done]. intros [= <-]. unfold do_on_timeout_event. cbn [foldM].
    destruct (write_cap_event f _) as [f'|]; cbn [mbind res_bind]; [|done]. by apply IH.
  - intros He. by apply IH.
Qed.

(** ** Captures *)

Lemma cap_header_valid mic name : Forall is_byte name → c_valid c_CapFileHeader (header_for mic name).
Proof.
  intros Hn. cbn -[u8 Z.pow take replicate]. change (256 ^ Z.of_nat 1) with 256. change (256 ^ Z.of_nat 4) with 4294967296.
  unfold CAP_MAGIC_NUMBER, VERSION_NUMBER. pose proof (u8_range mic). repeat split; try lia.
  - unfold conforming_name, FEED_NAME_SIZE. rewrite length_app, length_replicate, length_take. lia.
  - apply Forall_app. split; [by apply Forall_take|]. apply Forall_replicate. unfold is_byte. lia.
Qed.
Lemma length_header mic name : Forall is_byte name → length (c_enc c_CapFileHeader (header_for mic name)) = 24%nat.
Proof. intros Hn. by rewrite codec_length by by apply cap_header_valid. Qed.

Lemma new_log_empty : af_size new_log = Ok 0.
Proof. vm_compute. reflexivity. Qed.
Lemma new_log_roomy : (u64 (af_capacity new_log) <? FILE_HEADER_SIZE) = false.
Proof. vm_compute. reflexivity. Qed.
(** A new capture is its header. *)
Lemma new_capture mic name : Forall is_byte name →
  ∃ f, SeqnumWriter_new mic name new_log = Ok f /\ is_log (c_enc c_CapFileHeader (header_for mic name)) f.
Proof.
  intros Hn. pose proof (length_header mic name Hn) as H24.
  destruct (af_write_log [] (c_enc c_CapFileHeader (header_for mic name)) new_log new_is_log) as (f & E & Hl).
  { intros E. by rewrite E in H24. }
  { by rewrite H24. }
  exists f. split; [|exact Hl]. unfold SeqnumWriter_new.
  rewrite new_log_empty. cbn [mbind res_bind Z.eqb]. rewrite new_log_roomy.
  unfold cap_write_header. rewrite E. cbn [mbind res_bind]. rewrite (proj2 (Z.ltb_ge _ _)) by lia. done.
Qed.

(** The reader of a capture that was closed. *)
Lemma closed_capture_reads mic name rest f : Forall is_byte name →
  is_log (c_enc c_CapFileHeader (header_for mic name) ++ rest) f →
  FILE_HEADER_SIZE + Z.of_nat (length rest) < MAX_LOGFILE_SIZE →
  ∃ disk offset raw, af_close true f = Ok (disk, offset) /\
    let bytes := c_enc c_CapFileHeader (header_for mic name) ++ rest in
    let mem := mkFile raw (Z.of_nat (length bytes)) in
    padded (length bytes) raw = bytes /\
    SeqnumReader_new (open_readonly disk offset)
    = Ok (mkSR mem (Some 24) (Z.of_nat (length rest)) (header_for mic name)).
Proof.
  intros Hn Hl Hmax. set (hdr := c_enc c_CapFileHeader (header_for mic name)) in *.
  assert (length hdr = 24%nat) as H24 by by apply length_header.
  unfold FILE_HEADER_SIZE in Hmax.
  destruct (closed_log_reads (hdr ++ rest) f Hl) as (disk & offset & raw & E & Hb & Hs & Hr & Hp).
  { intros E. apply (f_equal length) in E. rewrite length_app in E. cbn in E. lia. }
  { rewrite length_app. lia. }
  exists disk, offset, raw. split; [exact E|]. cbn zeta. split; [exact Hp|].
  unfold SeqnumReader_new. rewrite Hb, Hs, Hr. unfold FILE_HEADER_SIZE.
  rewrite (proj2 (Z.leb_le _ _)) by (rewrite length_app; lia).
  rewrite (read_mem_at _ [] hdr rest 24) by (try done; rewrite length_app; lia). cbn [mbind res_bind].
  unfold hdr at 3. rewrite (dec_prefix c_CapFileHeader) by (try (by apply cap_header_valid); cbn; lia).
  do 2 f_equal. rewrite length_app. lia.
Qed.

Lemma seqnum_capture_log mic name msgs es :
  Forall is_byte name → Forall (λ tm, msg_ok tm.2) msgs → feed_events None msgs = Some es → es ≠ [] →
  FILE_HEADER_SIZE + Z.of_nat (length (log_bytes_of es)) < MAX_LOGFILE_SIZE →
  ∃ f l disk offset,
    SeqnumWriter_new mic name new_log = Ok f
    /\ foldM (λ l tm, on_raw_msg tm.1 tm.2 l) (mkSL None f) msgs = Ok l
    /\ af_close true (sl_file l) = Ok (disk, offset)
    /\ ∀ fuel, (length es <= fuel)%nat → playback fuel (open_readonly disk offset) = Ok (Some (header_for mic name, es)).
Proof.
  intros Hn Hmsgs Hes Hne Hmax. destruct (new_capture mic name Hn) as (f & E & Hl).
  set (hdr := c_enc c_CapFileHeader (header_for mic name)) in *.
  assert (length hdr = 24%nat) as H24 by by apply length_header.
  assert (Forall cap_ok es) as Hok by (by eapply feed_events_ok; [..|exact Hes]).
  destruct (write_cap_events_log es hdr f Hl Hok) as (f2 & E2 & Hl2).
  { unfold FILE_HEADER_SIZE in Hmax. lia. }
  destruct (closed_capture_reads mic name (log_bytes_of es) f2 Hn Hl2 Hmax) as (disk & offset & raw & Ec & Hp & Er).
  fold hdr in Hp, Er.
  assert (sl_file <$> foldM (λ l tm, on_raw_msg tm.1 tm.2 l) (mkSL None f) msgs = Ok f2) as Hlisten.
  { by rewrite (listen_spec None f msgs es). }
  destruct (foldM _ (mkSL None f) msgs) as [l|] eqn:El; [|done]. injection Hlisten as <-.
  exists f, l, disk, offset. split; [done|]. split; [done|]. split; [done|]. intros fuel Hf.
  unfold playback. rewrite Er. cbn [mbind res_bind sr_mem sr_header].
  assert (0 < Z.of_nat (length (log_bytes_of es))) as Hpos.
  { destruct es as [|e es]; [done|]. apply Forall_cons in Hok as [Hok _]. pose proof (cap_bytes_nonempty e Hok).
    unfold log_bytes_of. cbn. rewrite length_app. lia. }
  unfold sr_begin, sr_end, Iter_new. cbn [sr_buf sr_len]. rewrite (proj2 (Z.ltb_lt _ _)), (proj2 (Z.eqb_neq _ _)) by lia.
  cbn [Z.eqb fmap option_fmap option_map].
  pose proof (playback_ok (mkFile raw (Z.of_nat (length (hdr ++ log_bytes_of es)))) (Z.of_nat (length (log_bytes_of es)))
    es hdr fuel Hok Hf (Z.le_refl _) Hp) as Hplay. cbn zeta in Hplay. rewrite length_app, H24, Nat2Z.inj_add in Hplay.
  change (Z.of_nat 24) with 24 in Hplay. rewrite length_app, H24, Nat2Z.inj_add. change (Z.of_nat 24) with 24.
  by rewrite Hplay.
Qed.

(** C24: What a listener is told of a feed, as decoders tell it and so that there is
    something to record, reads back from the capture, if it fits the largest file:
    after the file is closed, the reader goes through exactly the events of the
    messages (the numbers of each packet from its start to its end, the gaps, the
    time outs), in order, and ends.  (A capture of no event is read past its end,
    [empty_capture_reads_past_end].) *)
Theorem seqnum_capture_reads_back mic name msgs es :
  Forall is_byte name → Forall (λ tm, msg_ok tm.2) msgs → feed_events None msgs = Some es → es ≠ [] →
  FILE_HEADER_SIZE + Z.of_nat (length (log_bytes_of es)) < MAX_LOGFILE_SIZE →
  ∃ f l disk offset,
    SeqnumWriter_new mic name new_log = Ok f
    /\ foldM (λ l tm, on_raw_msg tm.1 tm.2 l) (mkSL None f) msgs = Ok l
    /\ af_close true (sl_file l) = Ok (disk, offset)
    /\ ∀ fuel, (length es <= fuel)%nat → playback fuel (open_readonly disk offset) = Ok (Some (header_for mic name, es)).
Proof. apply seqnum_capture_log. Qed.

(** A capture in which nothing was recorded is read past its end: the iterators of
    its beginning and end differ. *)
Theorem empty_capture_reads_past_end mic name fuel : Forall is_byte name →
  ∃ f disk offset, SeqnumWriter_new mic name new_log = Ok f /\ af_close true f = Ok (disk, offset)
    /\ playback (S fuel) (open_readonly disk offset) = Fail (UndefinedBehaviour "read past the mapped file").
Proof.
  intros Hn. destruct (new_capture mic name Hn) as (f & E & Hl).
  pose proof (length_header mic name Hn) as H24.
  destruct (closed_capture_reads mic name [] f Hn) as (disk & offset & raw & Ec & _ & Er); [by rewrite app_nil_r|done|].
  exists f, disk, offset. split; [done|]. split; [done|]. unfold playback. rewrite Er. cbn zeta.
  rewrite app_nil_r, H24. reflexivity.
Qed.

Lemma reopening_throws mic name rest f : Forall is_byte name → Forall (λ c, c ≠ 0) name →
  (length name < 15)%nat → 0 <= mic < 256 →
  is_log (c_enc c_CapFileHeader (header_for mic name) ++ rest) f →
  SeqnumWriter_new mic name f = Fail (Thrown "SeqnumWriter: existing file does not match MIC or feed name").
Proof.
  intros Hn Hnz Hlen Hmic. set (hdr := c_enc c_CapFileHeader (header_for mic name)).
  assert (length hdr = 24%nat) as H24 by by apply length_header.
  intros [L1 L1' L2 L2' L3 L4 L5 L6 L7 L8]. cbn [ws_file ws_pending] in *.
  unfold log_size in L4. rewrite log_bytes_copied in L4, L5, L6.
  unfold SeqnumWriter_new, af_size. pose proof L1 as Hm. unfold af_mapped in Hm. apply andb_true_iff in Hm as [_ ->].
  cbn [mbind res_bind]. rewrite L4. rewrite (proj2 (Z.eqb_neq _ _)), (proj2 (Z.ltb_ge _ _)) by (unfold FILE_HEADER_SIZE; rewrite length_app; lia).
  assert (cap_read_header f = header_for mic name) as ->.
  { unfold cap_read_header, as_readonly_buffer. rewrite L1. cbn [andb]. rewrite L1'.
    rewrite (padded_take 24 (length (hdr ++ rest))) by (rewrite length_app; lia). rewrite L6.
    unfold hdr. by rewrite (dec_prefix c_CapFileHeader) by (try (by apply cap_header_valid); cbn; lia). }
  cbn [header_for fh_mic fh_feed_name].
  assert (conforming_name name = name) as -> by (unfold conforming_name, FEED_NAME_SIZE; rewrite take_ge; [done|lia]).
  rewrite bool_decide_false; [by rewrite orb_true_r|]. intros Heq. apply (f_equal length) in Heq.
  rewrite filter_app, length_app in Heq.
  rewrite (list_filter_all _ name) in Heq by done.
  rewrite list_filter_all in Heq by (apply Forall_replicate; done).
  rewrite length_replicate in Heq. unfold FEED_NAME_SIZE in Heq. lia.
Qed.

(** A capture cannot be opened again to append to it, unless the name of the feed
    has 15 characters: the name in the header is compared with its spaces. *)
Theorem capture_cannot_be_reopened mic name rest : Forall is_byte name → Forall (λ c, c ≠ 0) name →
  (length name < 15)%nat → 0 <= mic < 256 → FILE_HEADER_SIZE + Z.of_nat (length rest) < MAX_LOGFILE_SIZE →
  SeqnumWriter_new mic name (open_log (closed_log (c_enc c_CapFileHeader (header_for mic name) ++ rest)))
  = Fail (Thrown "SeqnumWriter: existing file does not match MIC or feed name").
Proof.
  intros Hn Hnz Hlen Hmic Hmax. apply (reopening_throws mic name rest); [done..|].
  apply reopened_log_of. pose proof (length_header mic name Hn). unfold FILE_HEADER_SIZE in Hmax. rewrite length_app. lia.
Qed.

(** C40: When a process is killed between reserving the place of an event and copying
    its bytes, going through its capture never ends: the length in the header of
    the missing event is zero. *)
Theorem killed_writer_hangs_playback mic name es t e f w :
  Forall is_byte name → Forall cap_ok es → cap_ok e →
  is_log (c_enc c_CapFileHeader (header_for mic name) ++ log_bytes_of es) f →
  FILE_HEADER_SIZE + Z.of_nat (length (log_bytes_of es)) + Z.of_nat (length (cap_bytes e)) < MAX_LOGFILE_SIZE →
  write_steps (mkWriters f ∅) [Reserve t (cap_bytes e)] = Some w →
  ∀ fuel, playback fuel (open_readonly (mr_file (af_filemap (ws_file w))) (mr_file (af_sizemap (ws_file w)))) = Ok None.
Proof.
  intros Hn Hes He Hl Hmax Hrun fuel. set (hdr := c_enc c_CapFileHeader (header_for mic name)) in *.
  assert (length hdr = 24%nat) as H24 by by apply length_header.
  pose proof (cap_bytes_nonempty e He) as H21. unfold FILE_HEADER_SIZE in Hmax.
  set (log := [Copied (hdr ++ log_bytes_of es); Holding t (cap_bytes e)]).
  assert (log_size [Copied (hdr ++ log_bytes_of es)] = 24 + Z.of_nat (length (log_bytes_of es))) as Hs0.
  { unfold log_size. rewrite log_bytes_copied, length_app. lia. }
  assert (log_steps MAX_LOGFILE_SIZE [Copied (hdr ++ log_bytes_of es)] [Reserve t (cap_bytes e)] = log) as Hlog.
  { unfold log_steps. cbn [foldl log_step]. rewrite Hs0, (proj2 (Z.ltb_lt _ _)) by lia. done. }
  assert (log_bytes log = hdr ++ log_bytes_of es ++ replicate (length (cap_bytes e)) 0) as Hbytes.
  { unfold log, log_bytes. cbn -[cap_bytes]. by rewrite app_nil_r, <- app_assoc. }
  assert (log_size log = 24 + Z.of_nat (length (log_bytes_of es)) + Z.of_nat (length (cap_bytes e))) as Hs.
  { unfold log_size. rewrite Hbytes, !length_app, length_replicate. lia. }
  apply (write_steps_ok MAX_LOGFILE_SIZE _ _ _ _ Hl) in Hrun;
    [|by unfold MAX_LOGFILE_SIZE|rewrite Hlog, Hs; unfold MAX_LOGFILE_SIZE in Hmax; lia].
  rewrite Hlog in Hrun. destruct (killed_log_reads _ _ _ Hrun) as (raw & Hb & Hsize & Hr & Hp); [done|].
  rewrite Hbytes in Hp. set (file := open_readonly _ _) in *.
  unfold playback, SeqnumReader_new. rewrite Hb, Hsize, Hr, Hs. unfold FILE_HEADER_SIZE.
  rewrite (proj2 (Z.leb_le _ _)) by lia. set (mem := mkFile raw MAX_LOGFILE_SIZE).
  assert (Z.of_nat (length (hdr ++ log_bytes_of es ++ replicate (length (cap_bytes e)) 0)) <= df_size mem) as Hfit.
  { cbn [df_size mem]. rewrite !length_app, length_replicate. lia. }
  assert (read_mem mem 0 24 = Ok (take 24 (hdr ++ log_bytes_of es ++ replicate (length (cap_bytes e)) 0))) as ->.
  { apply (read_mem_at mem [] hdr (log_bytes_of es ++ replicate (length (cap_bytes e)) 0) 24 Hfit Hp).
    rewrite length_app. lia. }
  cbn [mbind res_bind sr_mem sr_buf sr_len sr_header]. unfold sr_begin, sr_end, Iter_new. cbn [sr_buf sr_len].
  rewrite (proj2 (Z.ltb_lt _ _)), (proj2 (Z.eqb_neq _ _)) by lia. cbn [Z.eqb fmap option_fmap option_map].
  assert (24 + (24 + Z.of_nat (length (log_bytes_of es)) + Z.of_nat (length (cap_bytes e)) - 24)
    = Z.of_nat (length (hdr ++ log_bytes_of es ++ replicate (length (cap_bytes e)) 0))) as ->.
  { rewrite !length_app, length_replicate. lia. }
  change 24 with (Z.of_nat 24) at 1. rewrite <- H24.
  rewrite (playback_past mem _ es hdr (replicate (length (cap_bytes e)) 0) Hes Hfit Hp); [done|].
  intros fuel'. rewrite app_assoc in Hfit, Hp |- *. rewrite <- (app_nil_r (replicate _ _)) in Hfit, Hp |- *.
  by apply playback_stuck.
Qed.

(** ** Instances *)

Definition sample_msgs : list (Timestamp * FeedMsg) :=
  [(mkTs 100 5, StartOfPktMsg 7 1); (mkTs 100 5, OtherMsg); (mkTs 100 6, EndOfPktMsg 8 1);
   (mkTs 101 0, GapMsg 0 0 1 9 12 (mkTs 100 6)); (mkTs 130 0, TimeoutMsg true 1 (mkTs 101 0))].
Definition cap_sample_events : list CapEvent :=
  [CapSeqnum (mkSE (mkEH 1 100 6 33) 1 7); CapSeqnum (mkSE (mkEH 1 100 6 33) 1 8);
   CapGap (mkGE (mkEH 2 101 0 60) 0 0 1 9 12 100 6); CapTimeout (mkTE (mkEH 3 130 0 39) 1 1 101 0)].

Lemma seqnum_capture_reads_back_witness : ∃ f l disk offset,
  SeqnumWriter_new 4 [79; 66] new_log = Ok f
  /\ foldM (λ l tm, on_raw_msg tm.1 tm.2 l) (mkSL None f) sample_msgs = Ok l
  /\ af_close true (sl_file l) = Ok (disk, offset)
  /\ playback 4 (open_readonly disk offset) = Ok (Some (header_for 4 [79; 66], cap_sample_events)).
Proof.
  destruct (seqnum_capture_reads_back 4 [79; 66] sample_msgs cap_sample_events) as (f & l & d & o & H1 & H2 & H3 & H4).
  - repeat constructor; done.
  - repeat constructor; done.
  - vm_compute. reflexivity.
  - done.
  - vm_compute. reflexivity.
  - exists f, l, d, o. split; [done|]. split; [done|]. split; [done|]. apply H4. cbn. lia.
Defined.

Lemma killed_writer_hangs_playback_witness : ∃ w,
  write_steps (mkWriters (open_log (closed_log (c_enc c_CapFileHeader (header_for 4 [79; 66])))) ∅)
    [Reserve 1 (cap_bytes (CapSeqnum (seqnum_event (mkTs 100 0) 7 1)))] = Some w
  /\ playback 1000 (open_readonly (mr_file (af_filemap (ws_file w))) (mr_file (af_sizemap (ws_file w)))) = Ok None.
Proof.
  set (e := CapSeqnum (seqnum_event (mkTs 100 0) 7 1)).
  set (f := open_log (closed_log (c_enc c_CapFileHeader (header_for 4 [79; 66])))).
  destruct (write_steps (mkWriters f ∅) [Reserve 1 (cap_bytes e)]) as [w|] eqn:E; [|vm_compute in E; discriminate E].
  exists w. split; [done|].
  apply (killed_writer_hangs_playback 4 [79; 66] [] 1 e f w); [repeat constructor; done|done|..|done|exact E].
  - by apply seqnum_event_ok.
  - change (log_bytes_of []) with (@nil Z). rewrite app_nil_r. apply reopened_log_of. by vm_compute.
Defined.
