(* ===== verification/Pdp.v ===== *)
(** * The NYSE decoder (src/md/i01_md/NYSE/PDP/Decoder.hpp, Messages.hpp, Types.hpp)

    A packet is a header and messages of one type.  The decoder turns the integers
    of the packet, which are big endian, around in the buffer itself, follows the
    sequence numbers of the stream, and tells a listener of gaps, of the beginning
    and the end of each packet and of its messages.  The stream's state (MsgStream)
    and what it is told through (MultiStreamDecoder) are not in the repository: the
    classes [MsgStream] and [RawListener].  A read past the packet is undefined
    behaviour.  Debugging output and the configuration are left out. *)

From S2P Require Import Prelude Time Codec Capture.
Open Scope Z_scope.

(** ** Types *)

Definition SEQUENCE_NUMBER_RESET : Z := 1.
Definition HEARTBEAT : Z := 2.
Definition MESSAGE_UNAVAILABLE : Z := 5.
Definition RETRANSMISSION_RESPONSE : Z := 10.
Definition RETRANSMISSION_REQUEST : Z := 20.
Definition REFRESH_REQUEST : Z := 22.
Definition HEARTBEAT_RESPONSE : Z := 24.
Definition OPENBOOK_FULL_UPDATE : Z := 230.
Definition OPENBOOK_DELTA_UPDATE : Z := 231.
Definition NYSE_OPENING_IMBALANCE : Z := 240.
Definition NYSE_CLOSING_IMBALANCE : Z := 241.

Definition SYMBOL_LENGTH : nat := 11.

(** ** Messages, in the byte order of the machine *)

Record MessageHeader := mkHdr {
  h_msg_size : Z; h_msg_type : Z; h_msg_seq_num : Z; h_send_time : Z;
  h_product_id : Z; h_retrans_flag : Z; h_num_body_entries : Z; h_link_flag : Z
}.
Definition c_PdpHeader : Codec MessageHeader :=
  c_record (λ '(a, b, c, d, e, f, g, h), mkHdr a b c d e f g h)
    (λ m, (h_msg_size m, h_msg_type m, h_msg_seq_num m, h_send_time m, h_product_id m, h_retrans_flag m,
           h_num_body_entries m, h_link_flag m))
    (c_uint 2 *c c_uint 2 *c c_uint 4 *c c_uint 4 *c c_uint 1 *c c_uint 1 *c c_uint 1 *c c_uint 1).
#[export] Instance c_PdpHeader_ok : CodecOk c_PdpHeader.
Proof. solve_codec. Qed.

Record FullUpdate := mkFU {
  fu_msg_size : Z; fu_security_index : Z; fu_source_time : Z; fu_source_time_microseconds : Z;
  fu_symbol_seqnum : Z; fu_source_session_id : Z; fu_symbol : list Z; fu_price_scale_code : Z;
  fu_quote_condition : Z; fu_trading_status : Z; fu_filler : Z; fu_mpv : Z
}.
Definition c_FullUpdate : Codec FullUpdate :=
  c_record (λ '(a, b, c, d, e, f, g, h, i, j, k, l), mkFU a b c d e f g h i j k l)
    (λ m, (fu_msg_size m, fu_security_index m, fu_source_time m, fu_source_time_microseconds m, fu_symbol_seqnum m,
           fu_source_session_id m, fu_symbol m, fu_price_scale_code m, fu_quote_condition m, fu_trading_status m,
           fu_filler m, fu_mpv m))
    (c_uint 2 *c c_uint 2 *c c_uint 4 *c c_uint 2 *c c_uint 4 *c c_uint 1 *c c_array SYMBOL_LENGTH *c c_uint 1
     *c c_uint 1 *c c_uint 1 *c c_uint 1 *c c_uint 2).
#[export] Instance c_FullUpdate_ok : CodecOk c_FullUpdate.
Proof. solve_codec. Qed.

Record FullUpdatePricePoint := mkFP {
  fp_price_numerator : Z; fp_volume : Z; fp_num_orders : Z; fp_side : Z; fp_filler : Z
}.
Definition c_FullUpdatePricePoint : Codec FullUpdatePricePoint :=
  c_record (λ '(a, b, c, d, e), mkFP a b c d e)
    (λ m, (fp_price_numerator m, fp_volume m, fp_num_orders m, fp_side m, fp_filler m))
    (c_uint 4 *c c_uint 4 *c c_uint 2 *c c_uint 1 *c c_uint 1).
#[export] Instance c_FullUpdatePricePoint_ok : CodecOk c_FullUpdatePricePoint.
Proof. solve_codec. Qed.

Record DeltaUpdate := mkDU {
  du_msg_size : Z; du_security_index : Z; du_source_time : Z; du_source_time_microseconds : Z;
  du_symbol_seqnum : Z; du_source_session_id : Z; du_quote_condition : Z; du_trading_status : Z;
  du_price_scale_code : Z
}.
Definition c_DeltaUpdate : Codec DeltaUpdate :=
  c_record (λ '(a, b, c, d, e, f, g, h, i), mkDU a b c d e f g h i)
    (λ m, (du_msg_size m, du_security_index m, du_source_time m, du_source_time_microseconds m, du_symbol_seqnum m,
           du_source_session_id m, du_quote_condition m, du_trading_status m, du_price_scale_code m))
    (c_uint 2 *c c_uint 2 *c c_uint 4 *c c_uint 2 *c c_uint 4 *c c_uint 1 *c c_uint 1 *c c_uint 1 *c c_uint 1).
#[export] Instance c_DeltaUpdate_ok : CodecOk c_DeltaUpdate.
Proof. solve_codec. Qed.

Record DeltaUpdatePricePoint := mkDP {
  dp_price_numerator : Z; dp_volume : Z; dp_chg_qty : Z; dp_num_orders : Z; dp_side : Z; dp_reason_code : Z;
  dp_link_id1 : Z; dp_link_id2 : Z; dp_link_id3 : Z
}.
Definition c_DeltaUpdatePricePoint : Codec DeltaUpdatePricePoint :=
  c_record (λ '(a, b, c, d, e, f, g, h, i), mkDP a b c d e f g h i)
    (λ m, (dp_price_numerator m, dp_volume m, dp_chg_qty m, dp_num_orders m, dp_side m, dp_reason_code m,
           dp_link_id1 m, dp_link_id2 m, dp_link_id3 m))
    (c_uint 4 *c c_uint 4 *c c_uint 4 *c c_uint 2 *c c_uint 1 *c c_uint 1 *c c_uint 4 *c c_uint 4 *c c_uint 4).
#[export] Instance c_DeltaUpdatePricePoint_ok : CodecOk c_DeltaUpdatePricePoint.
Proof. solve_codec. Qed.

Record OpeningImbalance := mkOI {
  oi_symbol : list Z; oi_stock_open_indicator : Z; oi_imbalance_side : Z; oi_price_scale_code : Z;
  oi_reference_price_numerator : Z; oi_imbalance_quantity : Z; oi_paired_quantity : Z;
  oi_clearing_price_numerator : Z; oi_source_time : Z; oi_ssr_filing_price_numerator : Z
}.
Definition c_OpeningImbalance : Codec OpeningImbalance :=
  c_record (λ '(a, b, c, d, e, f, g, h, i, j), mkOI a b c d e f g h i j)
    (λ m, (oi_symbol m, oi_stock_open_indicator m, oi_imbalance_side m, oi_price_scale_code m,
           oi_reference_price_numerator m, oi_imbalance_quantity m, oi_paired_quantity m,
           oi_clearing_price_numerator m, oi_source_time m, oi_ssr_filing_price_numerator m))
    (c_array SYMBOL_LENGTH *c c_uint 1 *c c_uint 1 *c c_uint 1 *c c_uint 4 *c c_uint 4 *c c_uint 4 *c c_uint 4
     *c c_uint 4 *c c_uint 4).
#[export] Instance c_OpeningImbalance_ok : CodecOk c_OpeningImbalance.
Proof. solve_codec. Qed.

Record ClosingImbalance := mkCI {
  ci_symbol : list Z; ci_regulatory_imbalance_indicator : Z; ci_imbalance_side : Z; ci_price_scale_code : Z;
  ci_reference_price_numerator : Z; ci_imbalance_quantity : Z; ci_paired_quantity : Z;
  ci_continuous_book_clearing_price_numerator : Z; ci_closing_only_clearing_price_numerator : Z; ci_source_time : Z
}.
Definition c_ClosingImbalance : Codec ClosingImbalance :=
  c_record (λ '(a, b, c, d, e, f, g, h, i, j), mkCI a b c d e f g h i j)
    (λ m, (ci_symbol m, ci_regulatory_imbalance_indicator m, ci_imbalance_side m, ci_price_scale_code m,
           ci_reference_price_numerator m, ci_imbalance_quantity m, ci_paired_quantity m,
           ci_continuous_book_clearing_price_numerator m, ci_closing_only_clearing_price_numerator m, ci_source_time m))
    (c_array SYMBOL_LENGTH *c c_uint 1 *c c_uint 1 *c c_uint 1 *c c_uint 4 *c c_uint 4 *c c_uint 4 *c c_uint 4
     *c c_uint 4 *c c_uint 4).
#[export] Instance c_ClosingImbalance_ok : CodecOk c_ClosingImbalance.
Proof. solve_codec. Qed.

Record SequenceNumberReset := mkSNR { snr_next_seqnum : Z }.
Definition c_SequenceNumberReset : Codec SequenceNumberReset := c_record mkSNR snr_next_seqnum (c_uint 4).
#[export] Instance c_SequenceNumberReset_ok : CodecOk c_SequenceNumberReset.
Proof. solve_codec. Qed.
Record MessageUnavailable := mkMU { mu_begin_seqnum : Z; mu_end_seqnum : Z }.
Definition c_MessageUnavailable : Codec MessageUnavailable :=
  c_record (λ '(a, b), mkMU a b) (λ m, (mu_begin_seqnum m, mu_end_seqnum m)) (c_uint 4 *c c_uint 4).
#[export] Instance c_MessageUnavailable_ok : CodecOk c_MessageUnavailable.
Proof. solve_codec. Qed.
Record RetransmissionResponse := mkRR {
  rr_source_seqnum : Z; rr_source_id : list Z; rr_status : Z; rr_reject_reason : Z; rr_filler : list Z
}.
Definition c_RetransmissionResponse : Codec RetransmissionResponse :=
  c_record (λ '(a, b, c, d, e), mkRR a b c d e)
    (λ m, (rr_source_seqnum m, rr_source_id m, rr_status m, rr_reject_reason m, rr_filler m))
    (c_uint 4 *c c_array 20 *c c_uint 1 *c c_uint 1 *c c_array 2).
#[export] Instance c_RetransmissionResponse_ok : CodecOk c_RetransmissionResponse.
Proof. solve_codec. Qed.
Record RetransmissionRequest := mkRQ { rq_begin_seqnum : Z; rq_end_seqnum : Z; rq_source_id : list Z }.
Definition c_RetransmissionRequest : Codec RetransmissionRequest :=
  c_record (λ '(a, b, c), mkRQ a b c) (λ m, (rq_begin_seqnum m, rq_end_seqnum m, rq_source_id m))
    (c_uint 4 *c c_uint 4 *c c_array 20).
#[export] Instance c_RetransmissionRequest_ok : CodecOk c_RetransmissionRequest.
Proof. solve_codec. Qed.
Record BookRefreshRequest := mkBR { br_symbol : list Z; br_source_id : list Z }.
Definition c_BookRefreshRequest : Codec BookRefreshRequest :=
  c_record (λ '(a, b), mkBR a b) (λ m, (br_symbol m, br_source_id m)) (c_array 16 *c c_array 20).
#[export] Instance c_BookRefreshRequest_ok : CodecOk c_BookRefreshRequest.
Proof. solve_codec. Qed.
Record HeartbeatResponse := mkHR { hr_source_id : list Z }.
Definition c_HeartbeatResponse : Codec HeartbeatResponse := c_record mkHR hr_source_id (c_array 20).
#[export] Instance c_HeartbeatResponse_ok : CodecOk c_HeartbeatResponse.
Proof. solve_codec. Qed.

(** ** What the decoder uses *)

Class MsgStream (St : Type) := {
  ms_expect_seqnum : St → Z;
  ms_set_expect_seqnum : Z → St → St;
  ms_increment_seqnum : St → St;
  ms_timestamp : St → Timestamp;
  ms_set_timestamp : Timestamp → St → St;
  ms_increment_pkt_count : St → St;
  ms_increment_msg_count : St → St;
  ms_index : St → Z;
  ms_data_timeout : St → Timestamp;
  ms_in_data_timeout : St → bool;
  ms_set_in_data_timeout : bool → St → St
}.
(** The sequence number, the time and the rest are apart. *)
Class MsgStreamOk (St : Type) `{MsgStream St} := {
  expect_set n s : ms_expect_seqnum (ms_set_expect_seqnum n s) = n;
  expect_increment s : ms_expect_seqnum (ms_increment_seqnum s) = u32 (ms_expect_seqnum s + 1);
  expect_timestamp t s : ms_expect_seqnum (ms_set_timestamp t s) = ms_expect_seqnum s;
  expect_pkt s : ms_expect_seqnum (ms_increment_pkt_count s) = ms_expect_seqnum s;
  expect_msg s : ms_expect_seqnum (ms_increment_msg_count s) = ms_expect_seqnum s;
  index_set n s : ms_index (ms_set_expect_seqnum n s) = ms_index s;
  index_increment s : ms_index (ms_increment_seqnum s) = ms_index s;
  index_timestamp t s : ms_index (ms_set_timestamp t s) = ms_index s;
  index_pkt s : ms_index (ms_increment_pkt_count s) = ms_index s;
  index_msg s : ms_index (ms_increment_msg_count s) = ms_index s;
  timestamp_pkt s : ms_timestamp (ms_increment_pkt_count s) = ms_timestamp s
}.

Inductive PdpMsg :=
| MsgFull (m : FullUpdate) (points : list FullUpdatePricePoint)
| MsgDelta (m : DeltaUpdate) (points : list DeltaUpdatePricePoint)
| MsgOpening (m : OpeningImbalance)
| MsgClosing (m : ClosingImbalance)
| MsgReset (m : SequenceNumberReset)
| MsgUnavailable (m : MessageUnavailable)
| MsgResponse (m : RetransmissionResponse)
| MsgRequest (m : RetransmissionRequest)
| MsgRefresh (m : BookRefreshRequest)
| MsgHeartbeatResponse (m : HeartbeatResponse).
(** What a listener is told. *)
Inductive PdpEvent :=
| PdpStart (seqnum index : Z)
| PdpEnd (seqnum index : Z)
| PdpGap (addr port unit_ expected received : Z) (last_ts : Timestamp)
| PdpTimeout (started : bool) (index : Z) (last_ts : Timestamp)
| PdpHeartbeat (addr port unit_ seqnum : Z)
| PdpMessage (m : PdpMsg) (addr port seqnum : Z).
Class RawListener (L : Type) := notify : Timestamp → PdpEvent → L → res L.

(** ** The buffer *)

(** [ntohs] or [ntohl] of a field, in place. *)
Definition swap_at (n off : nat) (buf : list Z) : res (list Z) :=
  if (off + n <=? length buf)%nat
  then Ok (take off buf ++ rev (take n (drop off buf)) ++ drop (off + n) buf)
  else Fail (UndefinedBehaviour "message past the packet").
Definition swap_fields (base : nat) (fields : list (nat * nat)) (buf : list Z) : res (list Z) :=
  foldM (λ buf f, swap_at f.2 (base + f.1) buf) buf fields.
Definition struct_at {A} (c : Codec A) (off : nat) (buf : list Z) : res A := reading c (drop off buf).

(** The fields that are turned around: offsets and sizes. *)
Definition full_update_fields : list (nat * nat) := [(0, 2); (2, 2); (4, 4); (8, 2); (10, 4); (30, 2)]%nat.
Definition full_point_fields : list (nat * nat) := [(0, 4); (4, 4); (8, 2)]%nat.
Definition delta_update_fields : list (nat * nat) := [(0, 2); (2, 2); (4, 4); (8, 2); (10, 4)]%nat.
Definition delta_point_fields : list (nat * nat) := [(0, 4); (4, 4); (8, 4); (12, 2)]%nat.
Definition opening_fields : list (nat * nat) := [(14, 4); (18, 4); (22, 4); (26, 4); (30, 4); (34, 4)]%nat.
Definition closing_fields : list (nat * nat) := [(14, 4); (18, 4); (22, 4); (26, 4); (34, 4); (30, 4)]%nat.

(** The loop over price points: [i] counts in 32 bits up to [npp].  It leaves the
    buffer before it takes as many steps as there are bytes. *)
Fixpoint points_loop {A} (c : Codec A) (fields : list (nat * nat)) (fuel : nat) (i npp : Z) (off : nat) (buf : list Z)
    : res (list A * list Z) :=
  if i <? npp then
    match fuel with
    | O => Fail (UndefinedBehaviour "message past the packet")
    | S fuel =>
        buf ← swap_fields off fields buf;
        p ← struct_at c off buf;
        '(ps, buf) ← points_loop c fields fuel (u32 (i + 1)) npp (off + c_size c) buf;
        Ok (p :: ps, buf)
    end
  else Ok ([], buf).
(** [(msg->msg_size - sizeof(Update)) / sizeof(PricePoint)], in [size_t]. *)
Definition num_points (msg_size update point : Z) : Z := u64 (msg_size - update) / point.

Section Decoder.
Context {St L : Type} `{!MsgStream St} `{!RawListener L}.

(** What changes: the buffer, the stream and the listener. *)
Definition pdp_state : Type := list Z * St * L.

(** A message of a fixed layout: the fields turned around, the message told. *)
Definition plain_message {A} (c : Codec A) (fields : list (nat * nat)) (mk : A → PdpMsg) (ts : Timestamp) (seqnum : Z)
    (off : nat) (st : pdp_state) : res (Z * pdp_state) :=
  let '(buf, s, l) := st in
  buf ← swap_fields off fields buf;
  m ← struct_at c off buf;
  l ← notify ts (PdpMessage (mk m) 0 0 seqnum) l;
  Ok (Z.of_nat (c_size c), (buf, s, l)).

(** [handle_message_]: how far it got. *)
Definition handle_message (type : Z) (ts : Timestamp) (seqnum : Z) (off : nat) (st : pdp_state) : res (Z * pdp_state) :=
  let '(buf, s, l) := st in
  if type =? NYSE_OPENING_IMBALANCE then plain_message c_OpeningImbalance opening_fields MsgOpening ts seqnum off st
  else if type =? NYSE_CLOSING_IMBALANCE then plain_message c_ClosingImbalance closing_fields MsgClosing ts seqnum off st
  else if type =? OPENBOOK_FULL_UPDATE then
    buf ← swap_fields off full_update_fields buf;
    m ← struct_at c_FullUpdate off buf;
    '(ps, buf) ← points_loop c_FullUpdatePricePoint full_point_fields (length buf) 0 (num_points (fu_msg_size m) 32 12)
      (off + 32) buf;
    l ← notify ts (PdpMessage (MsgFull m ps) 0 0 seqnum) l;
    Ok (fu_msg_size m, (buf, s, l))
  else if type =? OPENBOOK_DELTA_UPDATE then
    buf ← swap_fields off delta_update_fields buf;
    m ← struct_at c_DeltaUpdate off buf;
    '(ps, buf) ← points_loop c_DeltaUpdatePricePoint delta_point_fields (length buf) 0 (num_points (du_msg_size m) 18 28)
      (off + 18) buf;
    l ← notify ts (PdpMessage (MsgDelta m ps) 0 0 seqnum) l;
    Ok (du_msg_size m, (buf, s, l))
  else if type =? HEARTBEAT then
    l ← notify ts (PdpHeartbeat 0 0 1 seqnum) l; Ok (0, (buf, s, l))
  else if type =? SEQUENCE_NUMBER_RESET then
    buf ← swap_fields off [(0, 4)]%nat buf;
    m ← struct_at c_SequenceNumberReset off buf;
    let s := ms_set_expect_seqnum (snr_next_seqnum m) s in
    l ← notify ts (PdpMessage (MsgReset m) 0 0 seqnum) l;
    Ok (4, (buf, s, l))
  else if type =? MESSAGE_UNAVAILABLE then
    plain_message c_MessageUnavailable [(0, 4); (4, 4)]%nat MsgUnavailable ts seqnum off st
  else if type =? RETRANSMISSION_RESPONSE then
    plain_message c_RetransmissionResponse [(0, 4)]%nat MsgResponse ts seqnum off st
  else if type =? RETRANSMISSION_REQUEST then
    plain_message c_RetransmissionRequest [(0, 4); (4, 4)]%nat MsgRequest ts seqnum off st
  else if type =? REFRESH_REQUEST then plain_message c_BookRefreshRequest [] MsgRefresh ts seqnum off st
  else if type =? HEARTBEAT_RESPONSE then plain_message c_HeartbeatResponse [] MsgHeartbeatResponse ts seqnum off st
  else Ok (0, st).

(** The loop over the messages of a packet. [None]: out of fuel. *)
Fixpoint messages_loop (fuel : nat) (type : Z) (ts : Timestamp) (seqnum len : Z) (off : Z) (st : pdp_state)
    : res (option pdp_state) :=
  if off <? len then
    match fuel with
    | O => Ok None
    | S fuel =>
        let '(buf, s, l) := st in
        '(n, st) ← handle_message type ts seqnum (Z.to_nat off) (buf, ms_increment_msg_count s, l);
        if n =? 0 then Ok (Some st) else messages_loop fuel type ts seqnum len (off + n) st
    end
  else Ok (Some st).

(** [on_recv]; the length of the packet is that of the buffer.  [None]: out of
    fuel. *)
Definition pdp_on_recv (ts : Timestamp) (st : pdp_state) : res (option pdp_state) :=
  let '(buf, s, l) := st in
  let len := Z.of_nat (length buf) in
  buf ← swap_fields 0 [(0, 2)]%nat buf;
  size ← load 2 0 buf;
  if len - 2 <? size then Ok (Some (buf, s, l))
  else
    buf ← swap_fields 0 [(8, 4); (4, 4)]%nat buf;
    seq ← load 4 4 buf;
    let s := ms_increment_pkt_count s in
    let expect := ms_expect_seqnum s in
    if seq <? expect then Ok (Some (buf, s, l))
    else
      '(s, l) ← (if expect <? seq
                 then l ← notify ts (PdpGap 0 0 (u8 (ms_index s)) expect seq (ms_timestamp s)) l;
                      Ok (ms_set_expect_seqnum seq s, l)
                 else Ok (s, l));
      buf ← swap_fields 0 [(2, 2)]%nat buf;
      type ← load 2 2 buf;
      let s := ms_set_timestamp ts s in
      let seqnum := ms_expect_seqnum s in
      l ← notify ts (PdpStart seqnum (ms_index s)) l;
      let s := ms_increment_seqnum s in
      done ← messages_loop (S (length buf)) type ts seqnum len 16 (buf, s, l);
      match done with
      | None => Ok None
      | Some (buf, s, l) => l ← notify ts (PdpEnd seqnum (ms_index s)) l; Ok (Some (buf, s, l))
      end.

(** [on_timer] of a stream. *)
Definition pdp_on_timer (ts : Timestamp) (s : St) (l : L) : res (St * L) :=
  let stream_ts := ms_timestamp s in
  let diff := ts_minus ts stream_ts in
  if ts_geb diff (ms_data_timeout s) then
    if negb (ms_in_data_timeout s) then
      l ← notify ts (PdpTimeout true (ms_index s) stream_ts) l;
      Ok (ms_set_in_data_timeout true s, l)
    else Ok (s, l)
  else if ms_in_data_timeout s then
    let s := ms_set_in_data_timeout false s in
    l ← notify ts (PdpTimeout false (ms_index s) stream_ts) l;
    Ok (s, l)
  else Ok (s, l).
End Decoder.
