(* ===== verification/PdpCorrect.v ===== *)
(** * What the NYSE decoder tells

    A packet as the exchange writes it, its integers big endian, is told as its
    messages; and whatever packets of a feed are lost, repeated or late, each
    sequence number is told once, as the beginning of its packet or in a gap. *)

From S2P Require Import Prelude Time Codec Capture Pdp.
Open Scope Z_scope.

(** ** The wire *)

(** Big endian integers. *)
Definition w_be (n : nat) : Codec Z :=
  mkCodec n (λ z, rev (le_bytes n z)) (λ l, le_val (rev (take n l))) (λ z, 0 <= z < 256 ^ Z.of_nat n).
#[export] Instance w_be_ok n : CodecOk (w_be n).
Proof.
  split; cbn.
  - intros. by rewrite length_rev, length_le_bytes.
  - intros. apply Forall_rev, le_bytes_are_bytes.
  - intros a rest Ha. rewrite take_app_n by by rewrite length_rev, length_le_bytes.
    rewrite rev_involutive. by apply le_val_bytes.
Qed.

Definition w_MessageHeader : Codec MessageHeader :=
  c_record (λ '(a, b, c, d, e, f, g, h), mkHdr a b c d e f g h)
    (λ m, (h_msg_size m, h_msg_type m, h_msg_seq_num m, h_send_time m, h_product_id m, h_retrans_flag m,
           h_num_body_entries m, h_link_flag m))
    (w_be 2 *c w_be 2 *c w_be 4 *c w_be 4 *c w_be 1 *c w_be 1 *c w_be 1 *c w_be 1).
Definition w_FullUpdate : Codec FullUpdate :=
  c_record (λ '(a, b, c, d, e, f, g, h, i, j, k, l), mkFU a b c d e f g h i j k l)
    (λ m, (fu_msg_size m, fu_security_index m, fu_source_time m, fu_source_time_microseconds m, fu_symbol_seqnum m,
           fu_source_session_id m, fu_symbol m, fu_price_scale_code m, fu_quote_condition m, fu_trading_status m,
           fu_filler m, fu_mpv m))
    (w_be 2 *c w_be 2 *c w_be 4 *c w_be 2 *c w_be 4 *c w_be 1 *c c_array SYMBOL_LENGTH *c w_be 1
     *c w_be 1 *c w_be 1 *c w_be 1 *c w_be 2).
Definition w_FullUpdatePricePoint : Codec FullUpdatePricePoint :=
  c_record (λ '(a, b, c, d, e), mkFP a b c d e)
    (λ m, (fp_price_numerator m, fp_volume m, fp_num_orders m, fp_side m, fp_filler m))
    (w_be 4 *c w_be 4 *c w_be 2 *c w_be 1 *c w_be 1).
Definition w_DeltaUpdate : Codec DeltaUpdate :=
  c_record (λ '(a, b, c, d, e, f, g, h, i), mkDU a b c d e f g h i)
    (λ m, (du_msg_size m, du_security_index m, du_source_time m, du_source_time_microseconds m, du_symbol_seqnum m,
           du_source_session_id m, du_quote_condition m, du_trading_status m, du_price_scale_code m))
    (w_be 2 *c w_be 2 *c w_be 4 *c w_be 2 *c w_be 4 *c w_be 1 *c w_be 1 *c w_be 1 *c w_be 1).
(** The link ids stay as they come. *)
Definition w_DeltaUpdatePricePoint : Codec DeltaUpdatePricePoint :=
  c_record (λ '(a, b, c, d, e, f, g, h, i), mkDP a b c d e f g h i)
    (λ m, (dp_price_numerator m, dp_volume m, dp_chg_qty m, dp_num_orders m, dp_side m, dp_reason_code m,
           dp_link_id1 m, dp_link_id2 m, dp_link_id3 m))
    (w_be 4 *c w_be 4 *c w_be 4 *c w_be 2 *c w_be 1 *c w_be 1 *c c_uint 4 *c c_uint 4 *c c_uint 4).
Definition w_OpeningImbalance : Codec OpeningImbalance :=
  c_record (λ '(a, b, c, d, e, f, g, h, i, j), mkOI a b c d e f g h i j)
    (λ m, (oi_symbol m, oi_stock_open_indicator m, oi_imbalance_side m, oi_price_scale_code m,
           oi_reference_price_numerator m, oi_imbalance_quantity m, oi_paired_quantity m,
           oi_clearing_price_numerator m, oi_source_time m, oi_ssr_filing_price_numerator m))
    (c_array SYMBOL_LENGTH *c w_be 1 *c w_be 1 *c w_be 1 *c w_be 4 *c w_be 4 *c w_be 4 *c w_be 4 *c w_be 4 *c w_be 4).
Definition w_ClosingImbalance : Codec ClosingImbalance :=
  c_record (λ '(a, b, c, d, e, f, g, h, i, j), mkCI a b c d e f g h i j)
    (λ m, (ci_symbol m, ci_regulatory_imbalance_indicator m, ci_imbalance_side m, ci_price_scale_code m,
           ci_reference_price_numerator m, ci_imbalance_quantity m, ci_paired_quantity m,
           ci_continuous_book_clearing_price_numerator m, ci_closing_only_clearing_price_numerator m, ci_source_time m))
    (c_array SYMBOL_LENGTH *c w_be 1 *c w_be 1 *c w_be 1 *c w_be 4 *c w_be 4 *c w_be 4 *c w_be 4 *c w_be 4 *c w_be 4).
Definition w_SequenceNumberReset : Codec SequenceNumberReset := c_record mkSNR snr_next_seqnum (w_be 4).
Definition w_MessageUnavailable : Codec MessageUnavailable :=
  c_record (λ '(a, b), mkMU a b) (λ m, (mu_begin_seqnum m, mu_end_seqnum m)) (w_be 4 *c w_be 4).
Definition w_RetransmissionResponse : Codec RetransmissionResponse :=
  c_record (λ '(a, b, c, d, e), mkRR a b c d e)
    (λ m, (rr_source_seqnum m, rr_source_id m, rr_status m, rr_reject_reason m, rr_filler m))
    (w_be 4 *c c_array 20 *c w_be 1 *c w_be 1 *c c_array 2).
Definition w_RetransmissionRequest : Codec RetransmissionRequest :=
  c_record (λ '(a, b, c), mkRQ a b c) (λ m, (rq_begin_seqnum m, rq_end_seqnum m, rq_source_id m))
    (w_be 4 *c w_be 4 *c c_array 20).

(** The fields that the decoder turns around make the one layout of the other. *)
Class Turns {A} (wire host : Codec A) (fields : list (nat * nat)) : Prop :=
  turns m : c_valid host m → swap_fields 0 fields (c_enc wire m) = Ok (c_enc host m).

(** A list of a known length to its elements. *)
Ltac list_elements l H :=
  repeat (destruct l as [|? l]; [discriminate H|]); destruct l as [|? l]; [clear H|discriminate H].
Ltac solve_turns :=
  intros []; cbn -[Z.pow]; intros Hv;
  repeat match goal with
  | H : _ /\ _ |- _ => destruct H
  | H : length ?l = _ |- _ => is_var l; list_elements l H
  end;
  reflexivity.
#[export] Instance turns_reset : Turns w_SequenceNumberReset c_SequenceNumberReset [(0, 4)]%nat.
Proof. solve_turns. Qed.
#[export] Instance turns_full_point : Turns w_FullUpdatePricePoint c_FullUpdatePricePoint full_point_fields.
Proof. solve_turns. Qed.
#[export] Instance turns_opening : Turns w_OpeningImbalance c_OpeningImbalance opening_fields.
Proof. solve_turns. Qed.
#[export] Instance turns_full : Turns w_FullUpdate c_FullUpdate full_update_fields.
Proof. solve_turns. Qed.
#[export] Instance turns_delta : Turns w_DeltaUpdate c_DeltaUpdate delta_update_fields.
Proof. solve_turns. Qed.
#[export] Instance turns_delta_point : Turns w_DeltaUpdatePricePoint c_DeltaUpdatePricePoint delta_point_fields.
Proof. solve_turns. Qed.
#[export] Instance turns_closing : Turns w_ClosingImbalance c_ClosingImbalance closing_fields.
Proof. solve_turns. Qed.
#[export] Instance turns_unavailable : Turns w_MessageUnavailable c_MessageUnavailable [(0, 4); (4, 4)]%nat.
Proof. solve_turns. Qed.
#[export] Instance turns_response : Turns w_RetransmissionResponse c_RetransmissionResponse [(0, 4)]%nat.
Proof. solve_turns. Qed.
#[export] Instance turns_request : Turns w_RetransmissionRequest c_RetransmissionRequest [(0, 4); (4, 4)]%nat.
Proof. solve_turns. Qed.
#[export] Instance turns_nothing {A} (c : Codec A) : Turns c c [].
Proof. done. Qed.

(** ** One message *)

Lemma swap_at_length n off buf buf' : swap_at n off buf = Ok buf' → length buf' = length buf.
Proof.
  unfold swap_at. destruct (Nat.leb_spec (off + n) (length buf)); [|done]. intros [= <-].
  rewrite !length_app, length_rev, !length_take, !length_drop. lia.
Qed.
Lemma swap_at_middle n k pre mid mid' post : swap_at n k mid = Ok mid' →
  swap_at n (length pre + k) (pre ++ mid ++ post) = Ok (pre ++ mid' ++ post).
Proof.
  unfold swap_at. destruct (Nat.leb_spec (k + n) (length mid)) as [Hk|]; [|done]. intros [= <-].
  rewrite (proj2 (Nat.leb_le _ _)) by (rewrite !length_app; lia).
  rewrite <- Nat.add_assoc, !drop_app_add, take_app_add. rewrite !drop_app_le, !take_app_le by (rewrite ?length_drop; lia).
  by rewrite <- !app_assoc.
Qed.
Lemma swap_fields_length base fields buf buf' : swap_fields base fields buf = Ok buf' → length buf' = length buf.
Proof.
  unfold swap_fields. revert buf. induction fields as [|f fields IH]; intros buf; cbn; [by intros [= ->]|].
  destruct (swap_at _ _ buf) as [b|] eqn:E; [|done]. cbn. intros H. apply IH in H. rewrite H. by eapply swap_at_length.
Qed.
Lemma swap_fields_middle fields pre mid mid' post : swap_fields 0 fields mid = Ok mid' →
  swap_fields (length pre) fields (pre ++ mid ++ post) = Ok (pre ++ mid' ++ post).
Proof.
  unfold swap_fields. revert mid. induction fields as [|f fields IH]; intros mid; cbn; [by intros [= ->]|].
  destruct (swap_at _ _ mid) as [b|] eqn:E; [|done]. cbn. rewrite (swap_at_middle _ _ pre mid b post E). cbn. apply IH.
Qed.

Section Turned.
Context {A} (w h : Codec A) (fields : list (nat * nat)) `{!Turns w h fields, !CodecOk h}.
Lemma turned m pre post : c_valid h m →
  swap_fields (length pre) fields (pre ++ c_enc w m ++ post) = Ok (pre ++ c_enc h m ++ post)
  /\ struct_at h (length pre) (pre ++ c_enc h m ++ post) = Ok m.
Proof using All.
  intros Hv. split; [by apply swap_fields_middle, turns|].
  unfold struct_at. rewrite drop_app_length. by apply reading_enc.
Qed.
Lemma turned_length m : c_valid h m → length (c_enc w m) = c_size h.
Proof using All.
  intros Hv. rewrite <- (codec_length m Hv). symmetry. eapply swap_fields_length. by apply turns.
Qed.

Lemma points_loop_ok ps pre post fuel i :
  Forall (c_valid h) ps → (length ps <= fuel)%nat → 0 <= i → i + Z.of_nat (length ps) < 4294967296 →
  points_loop h fields fuel i (i + Z.of_nat (length ps)) (length pre) (pre ++ concat (c_enc w <$> ps) ++ post)
  = Ok (ps, pre ++ concat (c_enc h <$> ps) ++ post).
Proof using All.
  intros Hv. revert pre fuel i. induction Hv as [|p ps Hp _ IH]; intros pre fuel i Hf Hi Hmax.
  - cbn [length]. rewrite Z.add_0_r. destruct fuel; cbn [points_loop]; by rewrite Z.ltb_irrefl.
  - cbn [length] in *. destruct fuel as [|fuel]; [lia|]. cbn [points_loop].
    rewrite (proj2 (Z.ltb_lt _ _)) by lia. cbn [fmap list_fmap concat]. rewrite <- app_assoc.
    destruct (turned p pre (concat (c_enc w <$> ps) ++ post) Hp) as [Hs Hr]. rewrite Hs. cbn [mbind res_bind].
    rewrite Hr. cbn [mbind res_bind]. rewrite wrap_small by in_range.
    specialize (IH (pre ++ c_enc h p) fuel (i + 1) ltac:(lia) ltac:(lia) ltac:(lia)).
    rewrite length_app, (codec_length p Hp), <- app_assoc in IH.
    replace (i + Z.of_nat (S (length ps))) with (i + 1 + Z.of_nat (length ps)) by lia.
    rewrite IH. cbn [mbind res_bind]. by rewrite <- !app_assoc.
Qed.
End Turned.

Definition type_of (m : PdpMsg) : Z :=
  match m with
  | MsgFull _ _ => OPENBOOK_FULL_UPDATE | MsgDelta _ _ => OPENBOOK_DELTA_UPDATE
  | MsgOpening _ => NYSE_OPENING_IMBALANCE | MsgClosing _ => NYSE_CLOSING_IMBALANCE
  | MsgReset _ => SEQUENCE_NUMBER_RESET | MsgUnavailable _ => MESSAGE_UNAVAILABLE
  | MsgResponse _ => RETRANSMISSION_RESPONSE | MsgRequest _ => RETRANSMISSION_REQUEST
  | MsgRefresh _ => REFRESH_REQUEST | MsgHeartbeatResponse _ => HEARTBEAT_RESPONSE
  end.
(** As it is sent, and as the decoder leaves it. *)
Definition wire_bytes (m : PdpMsg) : list Z :=
  match m with
  | MsgFull m ps => c_enc w_FullUpdate m ++ concat (c_enc w_FullUpdatePricePoint <$> ps)
  | MsgDelta m ps => c_enc w_DeltaUpdate m ++ concat (c_enc w_DeltaUpdatePricePoint <$> ps)
  | MsgOpening m => c_enc w_OpeningImbalance m | MsgClosing m => c_enc w_ClosingImbalance m
  | MsgReset m => c_enc w_SequenceNumberReset m | MsgUnavailable m => c_enc w_MessageUnavailable m
  | MsgResponse m => c_enc w_RetransmissionResponse m | MsgRequest m => c_enc w_RetransmissionRequest m
  | MsgRefresh m => c_enc c_BookRefreshRequest m | MsgHeartbeatResponse m => c_enc c_HeartbeatResponse m
  end.
Definition host_bytes (m : PdpMsg) : list Z :=
  match m with
  | MsgFull m ps => c_enc c_FullUpdate m ++ concat (c_enc c_FullUpdatePricePoint <$> ps)
  | MsgDelta m ps => c_enc c_DeltaUpdate m ++ concat (c_enc c_DeltaUpdatePricePoint <$> ps)
  | MsgOpening m => c_enc c_OpeningImbalance m | MsgClosing m => c_enc c_ClosingImbalance m
  | MsgReset m => c_enc c_SequenceNumberReset m | MsgUnavailable m => c_enc c_MessageUnavailable m
  | MsgResponse m => c_enc c_RetransmissionResponse m | MsgRequest m => c_enc c_RetransmissionRequest m
  | MsgRefresh m => c_enc c_BookRefreshRequest m | MsgHeartbeatResponse m => c_enc c_HeartbeatResponse m
  end.
(** Fields in range, and the sizes of updates those of their price points. *)
Definition pdp_message_ok (m : PdpMsg) : Prop :=
  match m with
  | MsgFull m ps => c_valid c_FullUpdate m /\ Forall (c_valid c_FullUpdatePricePoint) ps
      /\ fu_msg_size m = 32 + 12 * Z.of_nat (length ps)
  | MsgDelta m ps => c_valid c_DeltaUpdate m /\ Forall (c_valid c_DeltaUpdatePricePoint) ps
      /\ du_msg_size m = 18 + 28 * Z.of_nat (length ps)
  | MsgOpening m => c_valid c_OpeningImbalance m | MsgClosing m => c_valid c_ClosingImbalance m
  | MsgReset m => c_valid c_SequenceNumberReset m | MsgUnavailable m => c_valid c_MessageUnavailable m
  | MsgResponse m => c_valid c_RetransmissionResponse m | MsgRequest m => c_valid c_RetransmissionRequest m
  | MsgRefresh m => c_valid c_BookRefreshRequest m | MsgHeartbeatResponse m => c_valid c_HeartbeatResponse m
  end.

Lemma length_concat_enc {A} (w : Codec A) n ps :
  Forall (λ p, length (c_enc w p) = n) ps → length (concat (c_enc w <$> ps)) = (n * length ps)%nat.
Proof. induction 1 as [|p ps Hp _ IH]; cbn; [lia|]. rewrite length_app, Hp, IH. lia. Qed.

Section Messages.
Context {St L : Type} `{!MsgStream St, !RawListener L}.
Implicit Types (s : St) (l : L).

(** What a message does to the stream. *)
Definition after_message (m : PdpMsg) (s : St) : St :=
  match m with MsgReset m => ms_set_expect_seqnum (snr_next_seqnum m) s | _ => s end.

Lemma plain_message_ok {A} (w h : Codec A) fields `{!Turns w h fields, !CodecOk h} (mk : A → PdpMsg) ts seqnum m pre post s l :
  c_valid h m →
  plain_message h fields mk ts seqnum (length pre) (pre ++ c_enc w m ++ post, s, l)
  = (l' ← notify ts (PdpMessage (mk m) 0 0 seqnum) l;
     Ok (Z.of_nat (length (c_enc w m)), (pre ++ c_enc h m ++ post, s, l'))).
Proof.
  intros Hv. unfold plain_message. destruct (turned w h fields m pre post Hv) as [-> E]. cbn [mbind res_bind].
  rewrite E. cbn [mbind res_bind]. by rewrite (turned_length w h fields m Hv).
Qed.

Lemma num_points_ok n u p : 0 <= n → 0 < p → u + p * n < 65536 → 0 <= u → num_points (u + p * n) u p = n.
Proof.
  intros. unfold num_points. replace (u + p * n - u) with (n * p) by lia.
  rewrite wrap_small by (unfold in_u; change (2 ^ 64) with 18446744073709551616; nia). by apply Z.div_mul; lia.
Qed.

Lemma wire_length m : pdp_message_ok m → length (wire_bytes m) = length (host_bytes m) /\ (0 < length (wire_bytes m))%nat.
Proof.
  destruct m as [m ps|m ps|m|m|m|m|m|m|m|m]; cbn [pdp_message_ok wire_bytes host_bytes]; intros Hv.
  - destruct Hv as (Hv & Hps & _). rewrite !length_app, (turned_length w_FullUpdate c_FullUpdate _ m Hv), (codec_length m Hv).
    rewrite (length_concat_enc w_FullUpdatePricePoint 12), (length_concat_enc c_FullUpdatePricePoint 12).
    + cbn. lia.
    + eapply Forall_impl; [exact Hps|]. intros p Hp. by rewrite codec_length.
    + eapply Forall_impl; [exact Hps|]. intros p Hp. by rewrite (turned_length w_FullUpdatePricePoint c_FullUpdatePricePoint full_point_fields).
  - destruct Hv as (Hv & Hps & _). rewrite !length_app, (turned_length w_DeltaUpdate c_DeltaUpdate _ m Hv), (codec_length m Hv).
    rewrite (length_concat_enc w_DeltaUpdatePricePoint 28), (length_concat_enc c_DeltaUpdatePricePoint 28).
    + cbn. lia.
    + eapply Forall_impl; [exact Hps|]. intros p Hp. by rewrite codec_length.
    + eapply Forall_impl; [exact Hps|]. intros p Hp. by rewrite (turned_length w_DeltaUpdatePricePoint c_DeltaUpdatePricePoint delta_point_fields).
  - rewrite (turned_length w_OpeningImbalance c_OpeningImbalance _ m Hv), (codec_length m Hv). cbn. lia.
  - rewrite (turned_length w_ClosingImbalance c_ClosingImbalance _ m Hv), (codec_length m Hv). cbn. lia.
  - rewrite (turned_length w_SequenceNumberReset c_SequenceNumberReset _ m Hv), (codec_length m Hv). cbn. lia.
  - rewrite (turned_length w_MessageUnavailable c_MessageUnavailable _ m Hv), (codec_length m Hv). cbn. lia.
  - rewrite (turned_length w_RetransmissionResponse c_RetransmissionResponse _ m Hv), (codec_length m Hv). cbn. lia.
  - rewrite (turned_length w_RetransmissionRequest c_RetransmissionRequest _ m Hv), (codec_length m Hv). cbn. lia.
  - rewrite (codec_length m Hv). cbn. lia.
  - rewrite (codec_length m Hv). cbn. lia.
Qed.

Lemma update_sizes m : c_valid c_FullUpdate m → fu_msg_size m < 65536.
Proof. cbn -[Z.pow]. intros Hv. apply Hv. Qed.
Lemma delta_sizes m : c_valid c_DeltaUpdate m → du_msg_size m < 65536.
Proof. cbn -[Z.pow]. intros Hv. apply Hv. Qed.
(** An update with price points. *)
Lemma update_ok {A B} (w h : Codec A) (wp hp : Codec B) fields pfields `{!Turns w h fields, !CodecOk h, !Turns wp hp pfields, !CodecOk hp}
    m (ps : list B) pre post size :
  c_valid h m → Forall (c_valid hp) ps → size = Z.of_nat (c_size h) + Z.of_nat (c_size hp) * Z.of_nat (length ps) →
  size < 65536 → (0 < c_size hp)%nat →
  swap_fields (length pre) fields (pre ++ (c_enc w m ++ concat (c_enc wp <$> ps)) ++ post)
  = Ok (pre ++ c_enc h m ++ concat (c_enc wp <$> ps) ++ post)
  /\ struct_at h (length pre) (pre ++ c_enc h m ++ concat (c_enc wp <$> ps) ++ post) = Ok m
  /\ points_loop hp pfields (length (pre ++ c_enc h m ++ concat (c_enc wp <$> ps) ++ post)) 0 (num_points size (Z.of_nat (c_size h)) (Z.of_nat (c_size hp))) (length pre + c_size h)
       (pre ++ c_enc h m ++ concat (c_enc wp <$> ps) ++ post)
     = Ok (ps, pre ++ (c_enc h m ++ concat (c_enc hp <$> ps)) ++ post).
Proof.
  intros Hv Hps -> Hsize Hpos. rewrite <- !app_assoc.
  assert (length ps <= length (pre ++ c_enc h m ++ concat (c_enc wp <$> ps) ++ post))%nat as Hf.
  { rewrite !length_app, (length_concat_enc wp (c_size hp)); [nia|].
    eapply Forall_impl; [exact Hps|]. intros p Hp. by apply (turned_length wp hp pfields). }
  generalize dependent (length (pre ++ c_enc h m ++ concat (c_enc wp <$> ps) ++ post)). intros fuel Hf.
  destruct (turned w h fields m pre (concat (c_enc wp <$> ps) ++ post) Hv) as [E1 E2].
  split; [exact E1|]. split; [exact E2|]. rewrite num_points_ok by lia.
  pose proof (points_loop_ok wp hp pfields ps (pre ++ c_enc h m) post fuel 0 Hps Hf ltac:(lia)) as E.
  rewrite length_app, (codec_length m Hv), <- !app_assoc in E. rewrite Z.add_0_l in E. apply E. nia.
Qed.

Lemma handle_message_ok ts seqnum m pre post s l : pdp_message_ok m →
  handle_message (type_of m) ts seqnum (length pre) (pre ++ wire_bytes m ++ post, s, l)
  = (l' ← notify ts (PdpMessage m 0 0 seqnum) l;
     Ok (Z.of_nat (length (wire_bytes m)), (pre ++ host_bytes m ++ post, after_message m s, l'))).
Proof.
  intros Hv. pose proof (wire_length m Hv) as [Hlen _].
  destruct m as [m ps|m ps|m|m|m|m|m|m|m|m]; cbn [pdp_message_ok wire_bytes host_bytes type_of after_message] in *;
    unfold handle_message; cbn [Z.eqb Pos.eqb OPENBOOK_FULL_UPDATE OPENBOOK_DELTA_UPDATE NYSE_OPENING_IMBALANCE
      NYSE_CLOSING_IMBALANCE SEQUENCE_NUMBER_RESET HEARTBEAT MESSAGE_UNAVAILABLE RETRANSMISSION_RESPONSE
      RETRANSMISSION_REQUEST REFRESH_REQUEST HEARTBEAT_RESPONSE].
  - destruct Hv as (Hv & Hps & Hsize). pose proof (update_sizes m Hv) as Hmax.
    destruct (update_ok w_FullUpdate c_FullUpdate w_FullUpdatePricePoint c_FullUpdatePricePoint full_update_fields
      full_point_fields m ps pre post _ Hv Hps Hsize Hmax) as (E1 & E2 & E3); [cbn; lia|].
    rewrite E1. cbn [mbind res_bind]. rewrite E2. cbn [mbind res_bind].
    change (num_points _ 32 12) with (num_points (fu_msg_size m) (Z.of_nat (c_size c_FullUpdate)) (Z.of_nat (c_size c_FullUpdatePricePoint))).
    change 32%nat with (c_size c_FullUpdate). rewrite E3. cbn [mbind res_bind].
    replace (Z.of_nat (length _)) with (fu_msg_size m); [done|]. rewrite Hlen, length_app, (codec_length m Hv).
    rewrite (length_concat_enc c_FullUpdatePricePoint 12), Hsize; [cbn; lia|].
    eapply Forall_impl; [exact Hps|]. intros p Hp. by rewrite codec_length.
  - destruct Hv as (Hv & Hps & Hsize). pose proof (delta_sizes m Hv) as Hmax.
    destruct (update_ok w_DeltaUpdate c_DeltaUpdate w_DeltaUpdatePricePoint c_DeltaUpdatePricePoint delta_update_fields
      delta_point_fields m ps pre post _ Hv Hps Hsize Hmax) as (E1 & E2 & E3); [cbn; lia|].
    rewrite E1. cbn [mbind res_bind]. rewrite E2. cbn [mbind res_bind].
    change (num_points _ 18 28) with (num_points (du_msg_size m) (Z.of_nat (c_size c_DeltaUpdate)) (Z.of_nat (c_size c_DeltaUpdatePricePoint))).
    change 18%nat with (c_size c_DeltaUpdate). rewrite E3. cbn [mbind res_bind].
    replace (Z.of_nat (length _)) with (du_msg_size m); [done|]. rewrite Hlen, length_app, (codec_length m Hv).
    rewrite (length_concat_enc c_DeltaUpdatePricePoint 28), Hsize; [cbn; lia|].
    eapply Forall_impl; [exact Hps|]. intros p Hp. by rewrite codec_length.
  - apply (plain_message_ok w_OpeningImbalance c_OpeningImbalance); [apply _|apply _|exact Hv].
  - apply (plain_message_ok w_ClosingImbalance c_ClosingImbalance); [apply _|apply _|exact Hv].
  - destruct (turned w_SequenceNumberReset c_SequenceNumberReset [(0, 4)]%nat m pre post Hv) as [-> E]. cbn [mbind res_bind].
    rewrite E. cbn [mbind res_bind]. rewrite Hlen, (codec_length m Hv). done.
  - apply (plain_message_ok w_MessageUnavailable c_MessageUnavailable); [apply _|apply _|exact Hv].
  - apply (plain_message_ok w_RetransmissionResponse c_RetransmissionResponse); [apply _|apply _|exact Hv].
  - apply (plain_message_ok w_RetransmissionRequest c_RetransmissionRequest); [apply _|apply _|exact Hv].
  - apply (plain_message_ok c_BookRefreshRequest c_BookRefreshRequest); [apply _|apply _|exact Hv].
  - apply (plain_message_ok c_HeartbeatResponse c_HeartbeatResponse); [apply _|apply _|exact Hv].
Qed.

(** Telling a listener some events, one after the other. *)
Definition tell_all (l : L) (told : list (Timestamp * PdpEvent)) : res L := foldM (λ l te, notify te.1 te.2 l) l told.
Definition message_events (ts : Timestamp) (seqnum : Z) (ms : list PdpMsg) : list (Timestamp * PdpEvent) :=
  (λ m, (ts, PdpMessage m 0 0 seqnum)) <$> ms.
Definition after_messages (ms : list PdpMsg) (s : St) : St :=
  foldl (λ s m, after_message m (ms_increment_msg_count s)) s ms.

Lemma messages_loop_ok fuel t ts seqnum ms pre s l :
  Forall (λ m, pdp_message_ok m /\ type_of m = t) ms → (length ms < fuel)%nat →
  messages_loop fuel t ts seqnum (Z.of_nat (length (pre ++ concat (wire_bytes <$> ms)))) (Z.of_nat (length pre))
    (pre ++ concat (wire_bytes <$> ms), s, l)
  = (l' ← tell_all l (message_events ts seqnum ms);
     Ok (Some (pre ++ concat (host_bytes <$> ms), after_messages ms s, l'))).
Proof.
  intros Hms. revert fuel pre s l. induction Hms as [|m ms [Hm <-] _ IH]; intros fuel pre s l Hf.
  - cbn. rewrite app_nil_r. destruct fuel; cbn [messages_loop]; by rewrite Z.ltb_irrefl.
  - cbn [length] in Hf. destruct fuel as [|fuel]; [lia|]. cbn [fmap list_fmap concat messages_loop].
    destruct (wire_length m Hm) as [Hlen Hpos].
    rewrite (proj2 (Z.ltb_lt _ _)) by (rewrite !length_app; lia).
    rewrite Nat2Z.id, handle_message_ok by done. cbn [message_events fmap list_fmap tell_all foldM fst snd].
    destruct (notify ts _ l) as [l1|]; cbn [mbind res_bind]; [|done].
    rewrite (proj2 (Z.eqb_neq _ _)) by lia.
    specialize (IH fuel (pre ++ host_bytes m) (after_message m (ms_increment_msg_count s)) l1 ltac:(lia)).
    rewrite <- !app_assoc in IH. rewrite (length_app pre (host_bytes m)), <- Hlen, Nat2Z.inj_add in IH.
    replace (length (pre ++ wire_bytes m ++ concat (wire_bytes <$> ms)))
      with (length (pre ++ host_bytes m ++ concat (wire_bytes <$> ms))) by (rewrite !length_app; lia).
    by rewrite IH.
Qed.
End Messages.

(** ** One packet *)

Record PdpPacket := mkPdpPacket { p_header : MessageHeader; p_messages : list PdpMsg }.
Definition packet_bytes (p : PdpPacket) : list Z :=
  c_enc w_MessageHeader (p_header p) ++ concat (wire_bytes <$> p_messages p).
Definition p_seqnum (p : PdpPacket) : Z := h_msg_seq_num (p_header p).
Definition pdp_packet_ok (p : PdpPacket) : Prop :=
  c_valid c_PdpHeader (p_header p)
  /\ h_msg_size (p_header p) + 2 <= Z.of_nat (length (packet_bytes p))
  /\ Forall (λ m, pdp_message_ok m /\ type_of m = h_msg_type (p_header p)) (p_messages p).

Lemma load_bytes n off buf z : take n (drop off buf) = le_bytes n z → (off + n <= length buf)%nat →
  0 <= z < 256 ^ Z.of_nat n → load n off buf = Ok z.
Proof. intros Ht Hl Hz. unfold load. rewrite (proj2 (Nat.leb_le _ _)) by done. by rewrite Ht, le_val_bytes. Qed.

Lemma header_reads_back h rest : c_valid c_PdpHeader h →
  ∃ b1 b2,
    swap_fields 0 [(0, 2)]%nat (c_enc w_MessageHeader h ++ rest) = Ok b1 /\ load 2 0 b1 = Ok (h_msg_size h)
    /\ swap_fields 0 [(8, 4); (4, 4)]%nat b1 = Ok b2 /\ load 4 4 b2 = Ok (h_msg_seq_num h)
    /\ swap_fields 0 [(2, 2)]%nat b2 = Ok (c_enc c_PdpHeader h ++ rest)
    /\ load 2 2 (c_enc c_PdpHeader h ++ rest) = Ok (h_msg_type h).
Proof.
  intros Hv. cbn -[Z.pow] in Hv. decompose [and] Hv.
  eexists _, _. split; [reflexivity|]. split.
  { apply load_bytes; [reflexivity|cbn; lia|done]. }
  split; [reflexivity|]. split.
  { apply load_bytes; [reflexivity|cbn; lia|done]. }
  split; [reflexivity|]. apply load_bytes; [reflexivity|cbn; lia|done].
Qed.

Section Feeds.
Context {St L : Type} `{!MsgStream St, !MsgStreamOk St, !RawListener L}.
Implicit Types (s : St) (l : L) (p : PdpPacket).

(** What is told of a packet: nothing when its number has gone by; otherwise the
    gap before it, its beginning, its messages and its end. *)
Definition packet_told (ts : Timestamp) (p : PdpPacket) (s : St) : list (Timestamp * PdpEvent) :=
  let e := ms_expect_seqnum s in
  let q := p_seqnum p in
  if q <? e then []
  else (if e <? q then [(ts, PdpGap 0 0 (u8 (ms_index s)) e q (ms_timestamp s))] else [])
    ++ [(ts, PdpStart q (ms_index s))] ++ message_events ts q (p_messages p) ++ [(ts, PdpEnd q (ms_index s))].
Definition packet_state (ts : Timestamp) (p : PdpPacket) (s : St) : St :=
  let e := ms_expect_seqnum s in
  let q := p_seqnum p in
  let s := ms_increment_pkt_count s in
  if q <? e then s
  else after_messages (p_messages p)
    (ms_increment_seqnum (ms_set_timestamp ts (if e <? q then ms_set_expect_seqnum q s else s))).

Lemma tell_app l a b : tell_all l (a ++ b) = (l' ← tell_all l a; tell_all l' b).
Proof. apply foldM_app. Qed.

Lemma after_messages_index ms s : ms_index (after_messages ms s) = ms_index s.
Proof using MsgStreamOk0.
  revert s. induction ms as [|m ms IH]; intros s; [done|].
  change (after_messages (m :: ms) s) with (after_messages ms (after_message m (ms_increment_msg_count s))). rewrite IH.
  destruct m; cbn [after_message]; by rewrite ?index_set, ?index_msg.
Qed.

Lemma messages_fit ms : Forall pdp_message_ok ms → (length ms <= length (concat (wire_bytes <$> ms)))%nat.
Proof.
  induction 1 as [|m ms Hm _ IH]; cbn; [lia|]. rewrite length_app. destruct (wire_length m Hm). lia.
Qed.
Lemma pdp_packet_length p : pdp_packet_ok p → (length (packet_bytes p) = 16 + length (concat (wire_bytes <$> p_messages p)))%nat.
Proof. intros _. unfold packet_bytes. by rewrite length_app. Qed.

Theorem packet_is_told ts p s l : pdp_packet_ok p →
  ∃ buf, pdp_on_recv ts (packet_bytes p, s, l)
    = (l' ← tell_all l (packet_told ts p s); Ok (Some (buf, packet_state ts p s, l'))).
Proof using MsgStreamOk0.
  intros Hp. pose proof (pdp_packet_length p Hp) as Hlen. destruct Hp as (Hh & Hsize & Hms).
  unfold pdp_on_recv, packet_told, packet_state, p_seqnum. set (h := p_header p) in *.
  destruct (header_reads_back h (concat (wire_bytes <$> p_messages p)) Hh) as (b1 & b2 & E1 & E2 & E3 & E4 & E5 & E6).
  change (packet_bytes p) with (c_enc w_MessageHeader h ++ concat (wire_bytes <$> p_messages p)) in *.
  rewrite E1. cbn [mbind res_bind]. rewrite E2. cbn [mbind res_bind].
  rewrite (proj2 (Z.ltb_ge _ _)) by lia. rewrite E3. cbn [mbind res_bind]. rewrite E4. cbn [mbind res_bind].
  rewrite expect_pkt. destruct (Z.ltb_spec (h_msg_seq_num h) (ms_expect_seqnum s)) as [|Hge].
  { exists b2. done. }
  set (hosts := concat (host_bytes <$> p_messages p)).
  exists (c_enc c_PdpHeader h ++ hosts).
  rewrite index_pkt, timestamp_pkt.
  set (s0 := if ms_expect_seqnum s <? h_msg_seq_num h
    then ms_set_expect_seqnum (h_msg_seq_num h) (ms_increment_pkt_count s) else ms_increment_pkt_count s).
  assert (∀ {X} (k : St → L → res X) (g : list (Timestamp * PdpEvent)),
    g = (if ms_expect_seqnum s <? h_msg_seq_num h
         then [(ts, PdpGap 0 0 (u8 (ms_index s)) (ms_expect_seqnum s) (h_msg_seq_num h) (ms_timestamp s))] else []) →
    ('(s, l) ← (if ms_expect_seqnum s <? h_msg_seq_num h
       then l ← notify ts (PdpGap 0 0 (u8 (ms_index s)) (ms_expect_seqnum s) (h_msg_seq_num h) (ms_timestamp s)) l;
            Ok (ms_set_expect_seqnum (h_msg_seq_num h) (ms_increment_pkt_count s), l)
       else Ok (ms_increment_pkt_count s, l)); k s l) = (l ← tell_all l g; k s0 l)) as Hgap.
  { intros X k g ->. unfold s0. destruct (_ <? _); [|done]. cbn. by destruct (notify _ _ l). }
  erewrite Hgap by reflexivity. rewrite tell_app.
  destruct (tell_all l _) as [l1|]; cbn [mbind res_bind]; [|done].
  rewrite E5. cbn [mbind res_bind]. rewrite E6. cbn [mbind res_bind].
  assert (ms_expect_seqnum (ms_set_timestamp ts s0) = h_msg_seq_num h) as Hexp.
  { rewrite expect_timestamp. unfold s0. destruct (Z.ltb_spec (ms_expect_seqnum s) (h_msg_seq_num h)) as [|Hle].
    - by rewrite expect_set.
    - rewrite expect_pkt. lia. }
  assert (ms_index (ms_set_timestamp ts s0) = ms_index s) as Hidx.
  { rewrite index_timestamp. unfold s0. destruct (_ <? _); by rewrite ?index_set, index_pkt. }
  rewrite Hexp, Hidx. rewrite tell_app. cbn [tell_all foldM fst snd].
  destruct (notify ts (PdpStart _ _) l1) as [l2|]; cbn [mbind res_bind]; [|done].
  pose proof (messages_loop_ok (S (length (c_enc c_PdpHeader h ++ concat (wire_bytes <$> p_messages p))))
    (h_msg_type h) ts (h_msg_seq_num h) (p_messages p) (c_enc c_PdpHeader h)
    (ms_increment_seqnum (ms_set_timestamp ts s0)) l2 Hms) as Hloop.
  assert (length (c_enc c_PdpHeader h) = 16)%nat as H16 by by rewrite codec_length.
  assert (length (c_enc w_MessageHeader h) = 16)%nat as W16 by done.
  rewrite H16 in Hloop. change (Z.of_nat 16) with 16 in Hloop.
  rewrite tell_app. rewrite !(length_app (c_enc _ h)), W16, H16 in *. rewrite Hloop.
  2: { pose proof (messages_fit (p_messages p)
         ltac:(eapply Forall_impl; [exact Hms|]; by intros m [? _])). lia. }
  destruct (tell_all l2 _) as [l3|]; cbn [mbind res_bind tell_all foldM fst snd]; [|done].
  rewrite after_messages_index, index_increment, Hidx. by destruct (notify ts (PdpEnd _ _) l3).
Qed.

(** ** A feed *)

(** Packets as they are received, each in a buffer of its own.  [None]: out of
    fuel. *)
Fixpoint feed_run (ps : list (Timestamp * PdpPacket)) (s : St) (l : L) : res (option (St * L)) :=
  match ps with
  | [] => Ok (Some (s, l))
  | (ts, p) :: ps =>
      r ← pdp_on_recv ts (packet_bytes p, s, l);
      match r with None => Ok None | Some (_, s, l) => feed_run ps s l end
  end.
Fixpoint feed_told (ps : list (Timestamp * PdpPacket)) (s : St) : list (Timestamp * PdpEvent) :=
  match ps with [] => [] | (ts, p) :: ps => packet_told ts p s ++ feed_told ps (packet_state ts p s) end.
Fixpoint feed_state (ps : list (Timestamp * PdpPacket)) (s : St) : St :=
  match ps with [] => s | (ts, p) :: ps => feed_state ps (packet_state ts p s) end.

Lemma feed_run_ok ps s l : Forall (λ tp, pdp_packet_ok tp.2) ps →
  feed_run ps s l = (l' ← tell_all l (feed_told ps s); Ok (Some (feed_state ps s, l'))).
Proof using MsgStreamOk0.
  intros Hps. revert s l. induction Hps as [|[ts p] ps Hp _ IH]; intros s l; [done|].
  cbn [feed_run feed_told feed_state]. destruct (packet_is_told ts p s l Hp) as [buf E]. rewrite E, tell_app.
  destruct (tell_all l (packet_told ts p s)) as [l1|]; cbn [mbind res_bind]; [|done]. apply IH.
Qed.
End Feeds.

(** The sequence numbers that an event accounts for. *)
Definition numbers_told (e : PdpEvent) : list Z :=
  match e with
  | PdpStart q _ => [q]
  | PdpGap _ _ _ expected received _ => seqZ expected (received - expected)
  | _ => []
  end.
Definition numbers (told : list (Timestamp * PdpEvent)) : list Z := concat (numbers_told <$> told.*2).
(** A packet that does not number the stream anew, and whose number has a next. *)
Definition regular_packet (p : PdpPacket) : Prop :=
  p_seqnum p < 4294967295 /\ Forall (λ m, match m with MsgReset _ => False | _ => True end) (p_messages p).

Section Accounting.
Context {St : Type} `{!MsgStream St, !MsgStreamOk St}.
Implicit Types (s : St).

Lemma numbers_app a b : numbers (a ++ b) = numbers a ++ numbers b.
Proof. unfold numbers. by rewrite fmap_app, fmap_app, concat_app. Qed.
Lemma messages_no_numbers ts q ms : numbers (message_events ts q ms) = [].
Proof. unfold numbers, message_events. induction ms; [done|exact IHms]. Qed.
Lemma after_messages_expect ms s : Forall (λ m, match m with MsgReset _ => False | _ => True end) ms →
  ms_expect_seqnum (after_messages ms s) = ms_expect_seqnum s.
Proof using MsgStreamOk0.
  intros Hms. revert s. induction Hms as [|m ms Hm _ IH]; intros s; [done|].
  change (after_messages (m :: ms) s) with (after_messages ms (after_message m (ms_increment_msg_count s))). rewrite IH.
  destruct m; cbn [after_message]; by rewrite ?expect_msg.
Qed.

Lemma packet_expect ts p s : regular_packet p → 0 <= p_seqnum p →
  ms_expect_seqnum (packet_state ts p s)
  = if p_seqnum p <? ms_expect_seqnum s then ms_expect_seqnum s else p_seqnum p + 1.
Proof using MsgStreamOk0.
  intros [Hq Hms] Hpos. unfold packet_state. destruct (Z.ltb_spec (p_seqnum p) (ms_expect_seqnum s)) as [|Hge].
  { by rewrite expect_pkt. }
  rewrite after_messages_expect, expect_increment, expect_timestamp by done.
  assert (ms_expect_seqnum (if ms_expect_seqnum s <? p_seqnum p
    then ms_set_expect_seqnum (p_seqnum p) (ms_increment_pkt_count s) else ms_increment_pkt_count s) = p_seqnum p) as ->.
  { destruct (Z.ltb_spec (ms_expect_seqnum s) (p_seqnum p)); [by rewrite expect_set|]. rewrite expect_pkt. lia. }
  apply wrap_small. in_range.
Qed.

Lemma packet_numbers ts p s : regular_packet p → 0 <= p_seqnum p →
  numbers (packet_told ts p s)
  = seqZ (ms_expect_seqnum s) (ms_expect_seqnum (packet_state ts p s) - ms_expect_seqnum s)
  /\ ms_expect_seqnum s <= ms_expect_seqnum (packet_state ts p s).
Proof using MsgStreamOk0.
  intros Hr Hpos. rewrite packet_expect by done. unfold packet_told. set (e := ms_expect_seqnum s). set (q := p_seqnum p) in *.
  destruct (Z.ltb_spec q e) as [Hlt|Hge]; [by rewrite Z.sub_diag|]. split; [|lia].
  rewrite !numbers_app, messages_no_numbers.
  change (numbers [(ts, PdpStart q (ms_index s))]) with [q].
  change (numbers [(ts, PdpEnd q (ms_index s))]) with (@nil Z). rewrite !app_nil_r.
  replace (q + 1 - e) with ((q - e) + 1) by lia. rewrite seqZ_app by lia. f_equal.
  - destruct (Z.ltb_spec e q); [by cbn; rewrite app_nil_r|]. by replace (q - e) with 0 by lia.
  - replace (e + (q - e)) with q by lia. done.
Qed.

Lemma feed_numbers ps s : Forall (λ tp, regular_packet tp.2 /\ 0 <= p_seqnum tp.2) ps →
  numbers (feed_told ps s) = seqZ (ms_expect_seqnum s) (ms_expect_seqnum (feed_state ps s) - ms_expect_seqnum s)
  /\ ms_expect_seqnum s <= ms_expect_seqnum (feed_state ps s).
Proof using MsgStreamOk0.
  intros Hps. revert s. induction Hps as [|[ts p] ps [Hr Hq] _ IH]; intros s; cbn [feed_told feed_state].
  { by rewrite Z.sub_diag. }
  cbn in Hr, Hq. destruct (packet_numbers ts p s Hr Hq) as [E1 H1]. destruct (IH (packet_state ts p s)) as [E2 H2].
  rewrite numbers_app, E1, E2. split; [|lia].
  set (e := ms_expect_seqnum s) in *. set (e1 := ms_expect_seqnum (packet_state ts p s)) in *.
  set (e2 := ms_expect_seqnum (feed_state ps _)) in *.
  replace (e2 - e) with ((e1 - e) + (e2 - e1)) by lia. rewrite seqZ_app by lia. do 2 f_equal. lia.
Qed.
End Accounting.

(** C21: Of a feed that does not number its packets anew (no packet has a message
    SEQUENCE_NUMBER_RESET, after which the decoder expects the number that it gives,
    and none has the last number of 32 bits), whatever well-formed packets are lost,
    repeated or out of order, the decoder tells its listener of the sequence numbers
    in order and of each of them once, from the one it expected to the one it expects
    in the end: as the beginning of its packet, which is followed by the messages of
    that packet read off their bytes, or in a gap; nothing is told of a packet that
    comes after its number has gone by. *)
Theorem feed_accounts_for_every_number {St L} `{!MsgStream St, !MsgStreamOk St, !RawListener L}
    (ps : list (Timestamp * PdpPacket)) (s : St) (l : L) :
  Forall (λ tp, pdp_packet_ok tp.2 /\ regular_packet tp.2) ps →
  feed_run ps s l = (l' ← tell_all l (feed_told ps s); Ok (Some (feed_state ps s, l')))
  /\ numbers (feed_told ps s) = seqZ (ms_expect_seqnum s) (ms_expect_seqnum (feed_state ps s) - ms_expect_seqnum s)
  /\ ∀ ts p s, packet_told ts p s = [] \/ ∃ gap, packet_told ts p s
       = gap ++ (ts, PdpStart (p_seqnum p) (ms_index s)) :: message_events ts (p_seqnum p) (p_messages p)
           ++ [(ts, PdpEnd (p_seqnum p) (ms_index s))].
Proof.
  intros Hps. split; [|split].
  - apply feed_run_ok. eapply Forall_impl; [exact Hps|]. by intros tp [? _].
  - apply feed_numbers. eapply Forall_impl; [exact Hps|]. intros [ts p] [(Hh & _) Hr]. split; [exact Hr|].
    cbn -[Z.pow] in Hh |- *. unfold p_seqnum. tauto.
  - intros ts p s'. unfold packet_told. destruct (p_seqnum p <? ms_expect_seqnum s'); [by left|]. right. by eexists.
Qed.

(** ** Instances *)

Record SampleStream := mkSample { ss_expect : Z; ss_ts : Timestamp; ss_in_timeout : bool }.
#[export] Instance SampleStream_stream : MsgStream SampleStream := {|
  ms_expect_seqnum := ss_expect;
  ms_set_expect_seqnum n s := mkSample n (ss_ts s) (ss_in_timeout s);
  ms_increment_seqnum s := mkSample (u32 (ss_expect s + 1)) (ss_ts s) (ss_in_timeout s);
  ms_timestamp := ss_ts;
  ms_set_timestamp t s := mkSample (ss_expect s) t (ss_in_timeout s);
  ms_increment_pkt_count s := s;
  ms_increment_msg_count s := s;
  ms_index s := 3;
  ms_data_timeout s := mkTs 30 0;
  ms_in_data_timeout := ss_in_timeout;
  ms_set_in_data_timeout b s := mkSample (ss_expect s) (ss_ts s) b
|}.
#[export] Instance SampleStream_ok : MsgStreamOk SampleStream.
Proof. by split. Qed.
(** A listener that keeps what it is told. *)
#[export] Instance recorder : RawListener (list (Timestamp * PdpEvent)) := λ ts e l, Ok (l ++ [(ts, e)]).

Definition sample_opening (symbol reference : Z) : OpeningImbalance :=
  mkOI (replicate SYMBOL_LENGTH symbol) 0 66 4 reference 1000 500 reference 34200000 0.
Definition sample_delta : DeltaUpdate := mkDU 46 17 34200000 12 9 1 32 79 4.
Definition sample_point : DeltaUpdatePricePoint := mkDP 250000 100 100 1 66 79 0 0 0.
Definition sample_packets : list (Timestamp * PdpPacket) :=
  [(mkTs 100 0, mkPdpPacket (mkHdr 90 NYSE_OPENING_IMBALANCE 1 34200000 116 1 2 0)
      [MsgOpening (sample_opening 65 250000); MsgOpening (sample_opening 66 99)]);
   (mkTs 101 0, mkPdpPacket (mkHdr 60 OPENBOOK_DELTA_UPDATE 4 34201000 115 1 1 0) [MsgDelta sample_delta [sample_point]]);
   (mkTs 102 0, mkPdpPacket (mkHdr 14 HEARTBEAT 3 34202000 115 1 0 0) [])].
Lemma sample_packets_ok : Forall (λ tp, pdp_packet_ok tp.2 /\ regular_packet tp.2) sample_packets.
Proof.
  repeat constructor; try (vm_compute; discriminate); cbn -[Z.pow]; unfold is_byte; try (vm_compute; split; congruence).
Qed.
Example sample_told : tell_all [] (feed_told sample_packets (mkSample 0 ts_zero false)) = Ok
  [(mkTs 100 0, PdpGap 0 0 3 0 1 ts_zero); (mkTs 100 0, PdpStart 1 3);
   (mkTs 100 0, PdpMessage (MsgOpening (sample_opening 65 250000)) 0 0 1);
   (mkTs 100 0, PdpMessage (MsgOpening (sample_opening 66 99)) 0 0 1); (mkTs 100 0, PdpEnd 1 3);
   (mkTs 101 0, PdpGap 0 0 3 2 4 (mkTs 100 0)); (mkTs 101 0, PdpStart 4 3);
   (mkTs 101 0, PdpMessage (MsgDelta sample_delta [sample_point]) 0 0 4); (mkTs 101 0, PdpEnd 4 3)].
Proof. vm_compute. reflexivity. Qed.

Lemma feed_accounts_for_every_number_witness :
  feed_run sample_packets (mkSample 0 ts_zero false) ([] : list (Timestamp * PdpEvent))
  = Ok (Some (mkSample 5 (mkTs 101 0) false, feed_told sample_packets (mkSample 0 ts_zero false)))
  /\ numbers (feed_told sample_packets (mkSample 0 ts_zero false)) = [0; 1; 2; 3; 4].
Proof.
  destruct (feed_accounts_for_every_number sample_packets (mkSample 0 ts_zero false) ([] : list (Timestamp * PdpEvent))
    sample_packets_ok) as (E1 & E2 & _).
  split; [rewrite E1; vm_compute; reflexivity|rewrite E2; vm_compute; reflexivity].
Defined.

(** A heartbeat is its header: the loop over messages does not see it, and nothing
    but the beginning and the end of its packet is told. *)
Theorem heartbeat_is_not_told {St L} `{!MsgStream St, !MsgStreamOk St, !RawListener L} ts h (s : St) (l : L) :
  pdp_packet_ok (mkPdpPacket h []) → ms_expect_seqnum s = h_msg_seq_num h →
  ∃ buf s', pdp_on_recv ts (packet_bytes (mkPdpPacket h []), s, l)
    = (l' ← tell_all l [(ts, PdpStart (h_msg_seq_num h) (ms_index s)); (ts, PdpEnd (h_msg_seq_num h) (ms_index s))];
       Ok (Some (buf, s', l'))).
Proof.
  intros Hp He. destruct (packet_is_told ts (mkPdpPacket h []) s l Hp) as [buf E]. rewrite E.
  exists buf, (packet_state ts (mkPdpPacket h []) s). unfold packet_told, p_seqnum. cbn [p_header p_messages].
  by rewrite He, Z.ltb_irrefl.
Qed.
