(* ===== verification/PdpCapture.v ===== *)
(** * A feed in a capture

    The decoder's listener is the writer of captures ([SeqnumCap]): what is read
    back from the capture of a feed accounts for the sequence numbers of the feed. *)

From S2P Require Import Prelude Time Codec Capture MappedFile SeqnumCap Pdp PdpCorrect.
Open Scope Z_scope.

(** [SeqnumListener]'s overloads of [on_raw_msg]. *)
Definition feed_msg (e : PdpEvent) : FeedMsg :=
  match e with
  | PdpStart seqnum index => StartOfPktMsg seqnum index
  | PdpEnd seqnum index => EndOfPktMsg seqnum index
  | PdpGap addr port unit_ expected received last_ts => GapMsg addr port unit_ expected received last_ts
  | PdpTimeout started index last_ts => TimeoutMsg started index last_ts
  | PdpHeartbeat _ _ _ _ | PdpMessage _ _ _ _ => OtherMsg
  end.
#[export] Instance seqnum_listens : RawListener SeqnumListener := λ ts e l, on_raw_msg ts (feed_msg e) l.

Definition feed_msgs (told : list (Timestamp * PdpEvent)) : list (Timestamp * FeedMsg) :=
  (λ te, (te.1, feed_msg te.2)) <$> told.
Lemma tell_listener (told : list (Timestamp * PdpEvent)) (l : SeqnumListener) :
  tell_all l told = foldM (λ l tm, on_raw_msg tm.1 tm.2 l) l (feed_msgs told).
Proof.
  revert l. induction told as [|te told IH]; intros l; [done|].
  change (tell_all l (te :: told)) with (l' ← on_raw_msg te.1 (feed_msg te.2) l; tell_all l' told).
  change (feed_msgs (te :: told)) with ((te.1, feed_msg te.2) :: feed_msgs told). cbn [foldM fst snd].
  destruct (on_raw_msg _ _ l); cbn [mbind res_bind]; [apply IH|done].
Qed.

(** The numbers that an event of a capture accounts for. *)
Definition numbers_captured (e : CapEvent) : list Z :=
  match e with
  | CapSeqnum e => [se_seqnum e]
  | CapGap e => seqZ (ge_expected e) (ge_received e - ge_expected e)
  | _ => []
  end.

Section Feed.
Context {St : Type} `{!MsgStream St, !MsgStreamOk St}.
Implicit Types (s : St).

Lemma feed_msgs_app a b : feed_msgs (a ++ b) = feed_msgs a ++ feed_msgs b.
Proof. apply fmap_app. Qed.
Lemma feed_messages m ts q ms rest : feed_events m (feed_msgs (message_events ts q ms) ++ rest) = feed_events m rest.
Proof. induction ms as [|x ms IH]; [done|exact IH]. Qed.

(** What is written for a packet. *)
Definition packet_captured (ts : Timestamp) (p : PdpPacket) (s : St) : list CapEvent :=
  let e := ms_expect_seqnum s in
  let q := p_seqnum p in
  if q <? e then []
  else (if e <? q then [CapGap (gap_event ts 0 0 (u8 (ms_index s)) e q (ms_timestamp s))] else [])
    ++ [CapSeqnum (seqnum_event ts q (ms_index s))].

Lemma packet_events_captured m ts p s rest : 0 <= p_seqnum p < 4294967295 →
  ∃ m', feed_events m (feed_msgs (packet_told ts p s) ++ rest) = app (packet_captured ts p s) <$> feed_events m' rest.
Proof.
  intros Hq. unfold packet_told, packet_captured. set (e := ms_expect_seqnum s). set (q := p_seqnum p) in *.
  destruct (q <? e).
  { exists m. change (feed_msgs [] ++ rest) with rest. by destruct (feed_events m rest). }
  exists (Some (q + 1)). rewrite !feed_msgs_app, <- !app_assoc.
  assert (feed_events m (feed_msgs [(ts, PdpStart q (ms_index s))] ++ feed_msgs (message_events ts q (p_messages p))
    ++ feed_msgs [(ts, PdpEnd q (ms_index s))] ++ rest)
    = cons (CapSeqnum (seqnum_event ts q (ms_index s))) <$> feed_events (Some (q + 1)) rest) as E.
  { cbn [feed_msgs fmap list_fmap app fst snd feed_msg feed_events]. rewrite feed_messages.
    cbn [feed_msgs fmap list_fmap app fst snd feed_msg feed_events].
    rewrite (proj2 (Z.eqb_neq q 18446744073709551615)) by lia. rewrite andb_false_r.
    unfold seqnums. replace (q + 1 - q) with 1 by lia. replace (Z.max q (q + 1)) with (q + 1) by lia.
    by destruct (feed_events _ rest). }
  generalize dependent (feed_msgs [(ts, PdpStart q (ms_index s))] ++ feed_msgs (message_events ts q (p_messages p))
    ++ feed_msgs [(ts, PdpEnd q (ms_index s))] ++ rest). intros tail E.
  destruct (e <? q).
  - change (feed_events m (feed_msgs [(ts, PdpGap 0 0 (u8 (ms_index s)) e q (ms_timestamp s))] ++ tail))
      with (cons (CapGap (gap_event ts 0 0 (u8 (ms_index s)) e q (ms_timestamp s))) <$> feed_events m tail).
    rewrite E. by destruct (feed_events _ rest).
  - change (feed_msgs [] ++ tail) with tail. rewrite E. by destruct (feed_events _ rest).
Qed.

Fixpoint feed_captured (ps : list (Timestamp * PdpPacket)) (s : St) : list CapEvent :=
  match ps with [] => [] | (ts, p) :: ps => packet_captured ts p s ++ feed_captured ps (packet_state ts p s) end.

Lemma feed_events_captured m ps s : Forall (λ tp, 0 <= p_seqnum tp.2 < 4294967295) ps →
  feed_events m (feed_msgs (feed_told ps s)) = Some (feed_captured ps s).
Proof.
  intros Hps. revert m s. induction Hps as [|[ts p] ps Hp _ IH]; intros m s; [done|].
  cbn [feed_told feed_captured]. rewrite feed_msgs_app.
  destruct (packet_events_captured m ts p s (feed_msgs (feed_told ps (packet_state ts p s))) Hp) as [m' ->].
  by rewrite IH.
Qed.

Lemma packet_captured_numbers ts p s :
  concat (numbers_captured <$> packet_captured ts p s) = numbers (packet_told ts p s).
Proof.
  unfold packet_captured, packet_told. destruct (p_seqnum p <? ms_expect_seqnum s); [done|].
  rewrite !numbers_app, messages_no_numbers. destruct (ms_expect_seqnum s <? p_seqnum p); cbn; by rewrite ?app_nil_r.
Qed.
Lemma feed_captured_numbers ps s : concat (numbers_captured <$> feed_captured ps s) = numbers (feed_told ps s).
Proof.
  revert s. induction ps as [|[ts p] ps IH]; intros s; [done|]. cbn [feed_captured feed_told].
  by rewrite fmap_app, concat_app, numbers_app, packet_captured_numbers, IH.
Qed.

(** A packet adds at most a gap and a number. *)
Lemma packet_captured_size ts p s : (length (log_bytes_of (packet_captured ts p s)) <= 93)%nat.
Proof.
  unfold packet_captured, log_bytes_of. destruct (p_seqnum p <? ms_expect_seqnum s); [cbn; lia|].
  destruct (ms_expect_seqnum s <? p_seqnum p); cbn -[le_bytes u64 u8]; rewrite ?length_app, !length_le_bytes; cbn; lia.
Qed.
Lemma feed_captured_size ps s : (length (log_bytes_of (feed_captured ps s)) <= 93 * length ps)%nat.
Proof.
  revert s. induction ps as [|[ts p] ps IH]; intros s; [cbn; lia|]. cbn [feed_captured length].
  unfold log_bytes_of in *. rewrite fmap_app, concat_app, length_app.
  pose proof (packet_captured_size ts p s) as H1. unfold log_bytes_of in H1. specialize (IH (packet_state ts p s)). lia.
Qed.
Lemma packet_msgs_ok ts p s : 0 <= p_seqnum p < 4294967295 → 0 <= ms_expect_seqnum s → in_u 32 (ms_index s) →
  Forall (λ tm, msg_ok tm.2) (feed_msgs (packet_told ts p s)).
Proof.
  intros Hq He Hi. unfold packet_told. destruct (Z.ltb_spec (p_seqnum p) (ms_expect_seqnum s)); [constructor|].
  assert (in_u 64 (p_seqnum p)) as Hq64 by in_range.
  rewrite !feed_msgs_app. apply Forall_app. split; [|apply Forall_app; split; [|apply Forall_app; split]].
  - destruct (Z.ltb_spec (ms_expect_seqnum s) (p_seqnum p)); constructor; [|constructor]. cbn.
    split_and!; [done|done|apply wrap_range; lia|in_range|done].
  - constructor; [by split|constructor].
  - unfold feed_msgs, message_events. apply Forall_fmap, Forall_fmap, Forall_true. done.
  - constructor; [by split|constructor].
Qed.
Lemma packet_index ts p s : ms_index (packet_state ts p s) = ms_index s.
Proof using MsgStreamOk0.
  unfold packet_state. destruct (_ <? _); [apply index_pkt|].
  rewrite after_messages_index, index_increment, index_timestamp. destruct (_ <? _); by rewrite ?index_set, index_pkt.
Qed.
Lemma feed_msgs_ok ps s : Forall (λ tp, regular_packet tp.2 /\ 0 <= p_seqnum tp.2) ps → 0 <= ms_expect_seqnum s → in_u 32 (ms_index s) →
  Forall (λ tm, msg_ok tm.2) (feed_msgs (feed_told ps s)).
Proof using MsgStreamOk0.
  intros Hps. revert s. induction Hps as [|[ts p] ps [Hr Hq] _ IH]; intros s He Hi; [constructor|].
  cbn in Hr, Hq. cbn [feed_told]. rewrite feed_msgs_app. apply Forall_app. split.
  - apply packet_msgs_ok; [|done..]. destruct Hr. lia.
  - apply IH; [|by rewrite packet_index]. destruct (packet_numbers ts p s Hr Hq). lia.
Qed.
End Feed.

Lemma p_seqnum_nonneg p : pdp_packet_ok p → 0 <= p_seqnum p.
Proof. intros (Hh & _). cbn -[Z.pow] in Hh. unfold p_seqnum. tauto. Qed.

(** C22: The capture of a feed accounts for the feed's sequence numbers: whatever
    well-formed packets are lost, repeated or out of order, decoding them, writing
    what is told to a new capture, closing it and playing it back gives events
    (numbers seen and gaps) that cover, in order and once each, the numbers from the
    one expected at the beginning to the one expected in the end.  Asked are that
    there is such a number, since a capture of nothing is read past its end
    ([empty_capture_reads_past_end]); that no packet numbers the stream anew or has
    the last number of 32 bits ([regular_packet]); and that the capture, of at most
    93 bytes for each packet, fits the largest file. *)
Theorem captured_feed_accounts_for_numbers {St} `{!MsgStream St, !MsgStreamOk St}
    mic name (ps : list (Timestamp * PdpPacket)) (s : St) :
  Forall is_byte name → Forall (λ tp, pdp_packet_ok tp.2 /\ regular_packet tp.2) ps →
  0 <= ms_expect_seqnum s → in_u 32 (ms_index s) →
  ms_expect_seqnum s < ms_expect_seqnum (feed_state ps s) →
  FILE_HEADER_SIZE + 93 * Z.of_nat (length ps) < MAX_LOGFILE_SIZE →
  ∃ f l disk offset es,
    SeqnumWriter_new mic name new_log = Ok f
    /\ feed_run ps s (mkSL None f) = Ok (Some (feed_state ps s, l))
    /\ af_close true (sl_file l) = Ok (disk, offset)
    /\ playback (length es) (open_readonly disk offset) = Ok (Some (header_for mic name, es))
    /\ concat (numbers_captured <$> es)
       = seqZ (ms_expect_seqnum s) (ms_expect_seqnum (feed_state ps s) - ms_expect_seqnum s).
Proof.
  intros Hn Hps He Hi Hlt Hmax.
  assert (Forall (λ tp : Timestamp * PdpPacket, regular_packet tp.2 /\ 0 <= p_seqnum tp.2) ps) as Hreg.
  { eapply Forall_impl; [exact Hps|]. intros [ts p] [Hp Hr]. split; [exact Hr|by apply p_seqnum_nonneg]. }
  assert (Forall (λ tp : Timestamp * PdpPacket, 0 <= p_seqnum tp.2 < 4294967295) ps) as Hq.
  { eapply Forall_impl; [exact Hreg|]. intros [ts p] [[Hr _] Hp]. cbn in *. lia. }
  pose proof (feed_events_captured None ps s Hq) as Hes. set (es := feed_captured ps s) in *.
  destruct (feed_numbers ps s Hreg) as [Hnum _]. pose proof (feed_captured_numbers ps s) as Hcap. fold es in Hcap.
  destruct (seqnum_capture_log mic name (feed_msgs (feed_told ps s)) es Hn) as (f & l & disk & offset & E1 & E2 & E3 & E4).
  - by apply feed_msgs_ok.
  - exact Hes.
  - intros Hnil. rewrite Hnil, Hnum in Hcap. rewrite seqZ_cons in Hcap by lia. done.
  - pose proof (feed_captured_size ps s) as Hsize. fold es in Hsize. lia.
  - exists f, l, disk, offset, es. split; [exact E1|]. split; [|split; [exact E3|split; [by apply E4|by rewrite Hcap]]].
    rewrite feed_run_ok by (eapply Forall_impl; [exact Hps|]; by intros ? [? _]).
    rewrite tell_listener, E2. done.
Qed.


Lemma captured_feed_accounts_for_numbers_witness : ∃ f l disk offset es,
  SeqnumWriter_new 1 [79; 66] new_log = Ok f
  /\ feed_run sample_packets (mkSample 0 ts_zero false) (mkSL None f)
     = Ok (Some (feed_state sample_packets (mkSample 0 ts_zero false), l))
  /\ af_close true (sl_file l) = Ok (disk, offset)
  /\ playback (length es) (open_readonly disk offset) = Ok (Some (header_for 1 [79; 66], es))
  /\ concat (numbers_captured <$> es) = [0; 1; 2; 3; 4].
Proof.
  destruct (captured_feed_accounts_for_numbers 1 [79; 66] sample_packets (mkSample 0 ts_zero false))
    as (f & l & d & o & es & H1 & H2 & H3 & H4 & H5).
  - repeat constructor; done.
  - exact sample_packets_ok.
  - done.
  - done.
  - vm_compute. reflexivity.
  - done.
  - exists f, l, d, o, es. do 4 (split; [done|]). rewrite H5. vm_compute. reflexivity.
Defined.
