(* ===== verification/Boe20Wire.v ===== *)
(** * BATS BOE 2.0 on the wire (src/oe/BATS/BOE20/Types.hpp, Messages.hpp)

    The packed, little-endian messages of the protocol.  A message has a fixed
    part, which is a record with a codec, and optional fields, which bitfields
    select; the session overlays them with a struct [OptionalFields], modelled
    as the list of the struct's members.  Enumerations are their bytes. *)

From S2P Require Import Prelude Dbl Types Alphanum Codec.

(** ** The header *)

Definition START_OF_MESSAGE_SENTINEL : Z := 47802.             (* 0xBABA *)

Inductive BoeMessageType :=
| LOGIN_REQUEST_V2 | LOGOUT_REQUEST | CLIENT_HEARTBEAT | NEW_ORDER_V2 | CANCEL_ORDER_V2
| MODIFY_ORDER_V2 | LOGIN_RESPONSE_V2 | LOGOUT | SERVER_HEARTBEAT | REPLAY_COMPLETE
| ORDER_ACKNOWLEDGMENT_V2 | ORDER_REJECTED_V2 | ORDER_MODIFIED_V2 | ORDER_RESTATED_V2
| USER_MODIFY_REJECTED_V2 | ORDER_CANCELLED_V2 | CANCEL_REJECTED_V2 | ORDER_EXECUTION_V2
| TRADE_CANCEL_OR_CORRECT_V2.
#[export] Instance BoeMessageType_eq_dec : EqDecision BoeMessageType.
Proof. solve_decision. Defined.
Definition BoeMessageType_to_Z (t : BoeMessageType) : Z :=
  match t with
  | LOGIN_REQUEST_V2 => 55 | LOGOUT_REQUEST => 2 | CLIENT_HEARTBEAT => 3 | NEW_ORDER_V2 => 56
  | CANCEL_ORDER_V2 => 57 | MODIFY_ORDER_V2 => 58 | LOGIN_RESPONSE_V2 => 36 | LOGOUT => 8
  | SERVER_HEARTBEAT => 9 | REPLAY_COMPLETE => 19 | ORDER_ACKNOWLEDGMENT_V2 => 37
  | ORDER_REJECTED_V2 => 38 | ORDER_MODIFIED_V2 => 39 | ORDER_RESTATED_V2 => 40
  | USER_MODIFY_REJECTED_V2 => 41 | ORDER_CANCELLED_V2 => 42 | CANCEL_REJECTED_V2 => 43
  | ORDER_EXECUTION_V2 => 44 | TRADE_CANCEL_OR_CORRECT_V2 => 45
  end.
Definition BoeMessageTypes : list BoeMessageType :=
  [LOGIN_REQUEST_V2; LOGOUT_REQUEST; CLIENT_HEARTBEAT; NEW_ORDER_V2; CANCEL_ORDER_V2;
   MODIFY_ORDER_V2; LOGIN_RESPONSE_V2; LOGOUT; SERVER_HEARTBEAT; REPLAY_COMPLETE;
   ORDER_ACKNOWLEDGMENT_V2; ORDER_REJECTED_V2; ORDER_MODIFIED_V2; ORDER_RESTATED_V2;
   USER_MODIFY_REJECTED_V2; ORDER_CANCELLED_V2; CANCEL_REJECTED_V2; ORDER_EXECUTION_V2;
   TRADE_CANCEL_OR_CORRECT_V2].
Definition BoeMessageType_of_Z (z : Z) : option BoeMessageType :=
  snd <$> list_find (λ t, BoeMessageType_to_Z t = z) BoeMessageTypes.
Lemma BoeMessageType_of_to_Z t : BoeMessageType_of_Z (BoeMessageType_to_Z t) = Some t.
Proof. by destruct t. Qed.

Record BoeHeader := mkHdr {
  h_start_of_message : Z; h_message_length : Z; h_message_type : Z; h_matching_unit : Z;
  h_sequence_number : Z
}.
#[export] Instance BoeHeader_rebuild : Rebuild BoeHeader := λ r,
  mkHdr (h_start_of_message r) (h_message_length r) (h_message_type r) (h_matching_unit r)
    (h_sequence_number r).
Definition c_BoeHeader : Codec BoeHeader :=
  c_record (λ '(so, len, ty, mu, sq), mkHdr so len ty mu sq)
    (λ m, (h_start_of_message m, h_message_length m, h_message_type m, h_matching_unit m,
           h_sequence_number m))
    (c_uint 2 *c c_uint 2 *c c_uint 1 *c c_uint 1 *c c_uint 4).
#[export] Instance c_BoeHeader_ok : CodecOk c_BoeHeader.
Proof. solve_codec. Qed.

(** [MessageHeader::create], and [fill_msg_header] of the session. *)
Definition BoeHeader_create (mt : BoeMessageType) (sn : Z) : BoeHeader :=
  mkHdr START_OF_MESSAGE_SENTINEL (Z.of_nat (c_size c_BoeHeader) - 2) (BoeMessageType_to_Z mt) 0 sn.
Definition LogoutRequest_create : BoeHeader := BoeHeader_create LOGOUT_REQUEST 0.
Definition ClientHeartbeat_create : BoeHeader := BoeHeader_create CLIENT_HEARTBEAT 0.

Definition NUMBER_OF_MATCHING_UNITS : nat := 32.
Definition MAX_NUMBER_OF_MATCHING_UNITS : nat := 256.
Definition MAX_ORDER_QTY : Z := 999999.

(** ** Client order ids: twenty characters, which [HPRFields] divides *)

Definition HPR_REJECT_BROKER_LOC : Z := 90.
Definition HPR_REJECT_ORDER_SIZE : Z := 1.
Definition HPR_REJECT_SYMBOL : list Z := [90; 86; 90; 90; 84; 0; 0; 0].

Definition our_ord_id_format : AlnumFormat := mkAlnum 13 true true 48.
(** [LocalClOrdID::create] *)
Definition LocalClOrdID_create (acct id : Z) : Z := Z.lor (Z.shiftl acct 32) id.
Definition ClOrdID_set (loc acct id : Z) (sym : list Z) : list Z :=
  loc :: sym ++ (alnum_set our_ord_id_format (LocalClOrdID_create acct id)).1.
Definition broker_loc (cl_ord_id : list Z) : Z := default 0 (head cl_ord_id).
(** [get_local_id<std::uint64_t>()], cast to a [LocalID]. *)
Definition get_local_id (cl_ord_id : list Z) : Z :=
  u32 (alnum_get our_ord_id_format 64 (take 13 (drop 7 cl_ord_id))).

(** ** Optional fields *)

Inductive OptField :=
| F_SIDE | F_PEG_DIFFERENCE | F_PRICE | F_EXEC_INST | F_ORD_TYPE | F_TIME_IN_FORCE | F_MIN_QTY
| F_MAX_REMOVE_PCT | F_SYMBOL | F_SYMBOL_SFX | F_CAPACITY | F_ACCOUNT | F_CLEARING_FIRM
| F_CLEARING_ACCOUNT | F_DISPLAY_INDICATOR | F_MAX_FLOOR | F_DISCRETION_AMOUNT | F_ORDER_QTY
| F_PREVENT_MEMBER_MATCH | F_ORIG_CL_ORD_ID | F_LEAVES_QTY | F_LAST_SHARES | F_LAST_PRICE
| F_DISPLAY_PRICE | F_WORKING_PRICE | F_BASE_LIQUID_INDIC | F_EXPIRE_TIME | F_SECONDARY_ORDER_ID
| F_ATTRIBUTED_QUOTE | F_EXT_EXEC_INST | F_SUB_LIQUID_INDIC | F_ECHO_TEXT | F_STOP_PX
| F_ROUTING_INST | F_ROUT_STRATEGY | F_ROUTE_DELIV_METHOD | F_EX_DESTINATION | F_FEE_CODE
| F_CANCEL_ORIG_ON_REJECT | F_LOCATE_REQD | F_DISPLAY_RANGE.
#[export] Instance OptField_eq_dec : EqDecision OptField.
Proof. solve_decision. Defined.

(** The sizes of their types. *)
Definition width (f : OptField) : nat :=
  match f with
  | F_SIDE | F_EXEC_INST | F_ORD_TYPE | F_TIME_IN_FORCE | F_MAX_REMOVE_PCT | F_CAPACITY
  | F_DISPLAY_INDICATOR | F_BASE_LIQUID_INDIC | F_ATTRIBUTED_QUOTE | F_EXT_EXEC_INST
  | F_SUB_LIQUID_INDIC | F_EX_DESTINATION | F_CANCEL_ORIG_ON_REJECT | F_LOCATE_REQD => 1
  | F_DISCRETION_AMOUNT | F_FEE_CODE => 2
  | F_PREVENT_MEMBER_MATCH | F_ROUTE_DELIV_METHOD => 3
  | F_MIN_QTY | F_CLEARING_FIRM | F_CLEARING_ACCOUNT | F_MAX_FLOOR | F_ORDER_QTY | F_LEAVES_QTY
  | F_LAST_SHARES | F_ROUTING_INST | F_DISPLAY_RANGE => 4
  | F_ROUT_STRATEGY => 6
  | F_PEG_DIFFERENCE | F_PRICE | F_SYMBOL | F_SYMBOL_SFX | F_LAST_PRICE | F_DISPLAY_PRICE
  | F_WORKING_PRICE | F_EXPIRE_TIME | F_SECONDARY_ORDER_ID | F_STOP_PX => 8
  | F_ACCOUNT => 16
  | F_ORIG_CL_ORD_ID => 20
  | F_ECHO_TEXT => 64
  end.

(** What a struct holds, and its bytes.  [f] is at the sum of the sizes of the
    members before it. *)
Definition Fields : Type := OptField → list Z.
Definition set_opt (f : OptField) (bytes : list Z) (v : Fields) : Fields :=
  λ g, if decide (g = f) then bytes else v g.
Definition opt_bytes (layout : list OptField) (v : Fields) : list Z := concat (map v layout).
Definition opt_size (layout : list OptField) : nat := sum_list_with width layout.
Fixpoint opt_offset (layout : list OptField) (f : OptField) : nat :=
  match layout with
  | [] => 0
  | g :: layout' => if decide (g = f) then 0 else width g + opt_offset layout' f
  end.
Definition opt_read (layout : list OptField) (f : OptField) (buf : list Z) : list Z :=
  take (width f) (drop (opt_offset layout f) buf).
(** Reading a member of a struct that lies over received bytes. *)
Definition reading_opt (layout : list OptField) (f : OptField) (buf : list Z) : res Z :=
  if (length buf <? opt_offset layout f + width f)%nat
  then Fail (UndefinedBehaviour "field read past the received bytes")
  else Ok (le_val (opt_read layout f buf)).

(** Every field of the layout holds as many bytes as it is wide. *)
Definition opt_valid (layout : list OptField) (v : Fields) : Prop :=
  Forall (λ f, length (v f) = width f) layout.

Lemma length_opt_bytes layout v : opt_valid layout v → length (opt_bytes layout v) = opt_size layout.
Proof.
  unfold opt_bytes, opt_size. induction 1 as [|f layout Hf _ IH]; cbn; [done|].
  by rewrite length_app, Hf, IH.
Qed.
Lemma opt_read_bytes layout v f rest : opt_valid layout v → f ∈ layout →
  opt_read layout f (opt_bytes layout v ++ rest) = v f.
Proof.
  unfold opt_read, opt_bytes. induction 1 as [|g layout Hg _ IH]; [by intros ?%elem_of_nil|].
  intros Hf. cbn [opt_offset map concat]. rewrite <- app_assoc.
  destruct (decide (g = f)) as [->|Hne]; [by rewrite drop_0, take_app_n|].
  rewrite <- drop_drop, drop_app_n by done. apply IH. by apply elem_of_cons in Hf as [->|].
Qed.
Lemma reading_opt_bytes layout v f rest : opt_valid layout v → f ∈ layout →
  reading_opt layout f (opt_bytes layout v ++ rest) = Ok (le_val (v f)).
Proof.
  intros Hv Hf. unfold reading_opt. rewrite opt_read_bytes by done.
  assert (opt_offset layout f + width f <= opt_size layout)%nat as Hle.
  { clear Hv. induction layout as [|g layout IH]; [by apply elem_of_nil in Hf|].
    unfold opt_size in *. cbn. destruct (decide (g = f)) as [->|Hne]; [lia|].
    apply elem_of_cons in Hf as [->|Hf]; [done|]. specialize (IH Hf). lia. }
  rewrite (proj2 (Nat.ltb_ge _ _)); [done|]. rewrite length_app, length_opt_bytes by done. lia.
Qed.

(** ** Bitfields *)

(** One byte's enumeration: the bits and the fields they select. *)
Definition Bitfield : Type := list (Z * OptField).

Definition NewOrderBitfield1 : Bitfield :=
  [(1, F_CLEARING_FIRM); (2, F_CLEARING_ACCOUNT); (4, F_PRICE); (8, F_EXEC_INST);
   (16, F_ORD_TYPE); (32, F_TIME_IN_FORCE); (64, F_MIN_QTY); (128, F_MAX_FLOOR)].
Definition NewOrderBitfield2 : Bitfield :=
  [(1, F_SYMBOL); (2, F_SYMBOL_SFX); (64, F_CAPACITY); (128, F_ROUTING_INST)].
Definition NewOrderBitfield3 : Bitfield :=
  [(1, F_ACCOUNT); (2, F_DISPLAY_INDICATOR); (4, F_MAX_REMOVE_PCT); (8, F_DISCRETION_AMOUNT);
   (16, F_PEG_DIFFERENCE); (32, F_PREVENT_MEMBER_MATCH); (64, F_LOCATE_REQD);
   (128, F_EXPIRE_TIME)].
Definition NewOrderBitfield4 : Bitfield := [].
Definition NewOrderBitfield5 : Bitfield := [(2, F_ATTRIBUTED_QUOTE); (8, F_EXT_EXEC_INST)].
Definition NewOrderBitfield6 : Bitfield :=
  [(1, F_DISPLAY_RANGE); (2, F_STOP_PX); (4, F_ROUT_STRATEGY); (8, F_ROUTE_DELIV_METHOD);
   (16, F_EX_DESTINATION); (32, F_ECHO_TEXT)].
Definition CancelOrderBitfield1 : Bitfield := [(1, F_CLEARING_FIRM)].
Definition ModifyOrderBitfield1 : Bitfield :=
  [(1, F_CLEARING_FIRM); (4, F_ORDER_QTY); (8, F_PRICE); (16, F_ORD_TYPE);
   (32, F_CANCEL_ORIG_ON_REJECT); (64, F_EXEC_INST); (128, F_SIDE)].
Definition ModifyOrderBitfield2 : Bitfield := [(1, F_MAX_FLOOR); (2, F_STOP_PX)].

Definition OrderAcknowledgmentBitfield1 : Bitfield :=
  [(1, F_SIDE); (2, F_PEG_DIFFERENCE); (4, F_PRICE); (8, F_EXEC_INST); (16, F_ORD_TYPE);
   (32, F_TIME_IN_FORCE); (64, F_MIN_QTY); (128, F_MAX_REMOVE_PCT)].
Definition OrderAcknowledgmentBitfield2 : Bitfield :=
  [(1, F_SYMBOL); (2, F_SYMBOL_SFX); (64, F_CAPACITY)].
Definition OrderAcknowledgmentBitfield3 : Bitfield :=
  [(1, F_ACCOUNT); (2, F_CLEARING_FIRM); (4, F_CLEARING_ACCOUNT); (8, F_DISPLAY_INDICATOR);
   (16, F_MAX_FLOOR); (32, F_DISCRETION_AMOUNT); (64, F_ORDER_QTY);
   (128, F_PREVENT_MEMBER_MATCH)].
Definition OrderAcknowledgmentBitfield4 : Bitfield := [].
Definition OrderAcknowledgmentBitfield5 : Bitfield :=
  [(1, F_ORIG_CL_ORD_ID); (2, F_LEAVES_QTY); (4, F_LAST_SHARES); (8, F_LAST_PRICE);
   (16, F_DISPLAY_PRICE); (32, F_WORKING_PRICE); (64, F_BASE_LIQUID_INDIC); (128, F_EXPIRE_TIME)].
Definition OrderAcknowledgmentBitfield6 : Bitfield :=
  [(1, F_SECONDARY_ORDER_ID); (8, F_ATTRIBUTED_QUOTE); (16, F_EXT_EXEC_INST)].
Definition OrderAcknowledgmentBitfield7 : Bitfield := [(1, F_SUB_LIQUID_INDIC)].
Definition OrderAcknowledgmentBitfield8 : Bitfield :=
  [(2, F_ECHO_TEXT); (4, F_STOP_PX); (8, F_ROUTING_INST); (16, F_ROUT_STRATEGY);
   (32, F_ROUTE_DELIV_METHOD); (64, F_EX_DESTINATION)].
Definition CancelRejectedBitfield8 : Bitfield := [(2, F_ECHO_TEXT); (4, F_STOP_PX)].
Definition OrderExecutionBitfield6 : Bitfield := [(8, F_ATTRIBUTED_QUOTE); (16, F_EXT_EXEC_INST)].
Definition OrderExecutionBitfield8 : Bitfield :=
  [(1, F_FEE_CODE); (2, F_ECHO_TEXT); (4, F_STOP_PX); (8, F_ROUTING_INST); (16, F_ROUT_STRATEGY);
   (32, F_ROUTE_DELIV_METHOD); (64, F_EX_DESTINATION)].

(** The bytes that a type of message can select with: the enumerations of a new
    order, and those that the typedefs give the exchange's messages. *)
Definition bitfields_of (t : BoeMessageType) : list Bitfield :=
  match t with
  | NEW_ORDER_V2 => [NewOrderBitfield1; NewOrderBitfield2; NewOrderBitfield3; NewOrderBitfield4;
                     NewOrderBitfield5; NewOrderBitfield6]
  | CANCEL_ORDER_V2 => [CancelOrderBitfield1]
  | MODIFY_ORDER_V2 => [ModifyOrderBitfield1; ModifyOrderBitfield2]
  | ORDER_ACKNOWLEDGMENT_V2 =>
      [OrderAcknowledgmentBitfield1; OrderAcknowledgmentBitfield2; OrderAcknowledgmentBitfield3;
       OrderAcknowledgmentBitfield4; OrderAcknowledgmentBitfield5; OrderAcknowledgmentBitfield6;
       OrderAcknowledgmentBitfield7; OrderAcknowledgmentBitfield8]
  | ORDER_REJECTED_V2 =>
      [OrderAcknowledgmentBitfield1; OrderAcknowledgmentBitfield2; OrderAcknowledgmentBitfield3;
       OrderAcknowledgmentBitfield4; OrderAcknowledgmentBitfield5; OrderAcknowledgmentBitfield6;
       []; OrderAcknowledgmentBitfield8]
  | ORDER_MODIFIED_V2 =>
      [OrderAcknowledgmentBitfield1; []; OrderAcknowledgmentBitfield3;
       OrderAcknowledgmentBitfield4; OrderAcknowledgmentBitfield5; OrderAcknowledgmentBitfield6;
       []; OrderAcknowledgmentBitfield8]
  | ORDER_RESTATED_V2 | ORDER_CANCELLED_V2 =>
      [OrderAcknowledgmentBitfield1; OrderAcknowledgmentBitfield2; OrderAcknowledgmentBitfield3;
       OrderAcknowledgmentBitfield4; OrderAcknowledgmentBitfield5; OrderAcknowledgmentBitfield6;
       []; OrderAcknowledgmentBitfield8]
  | CANCEL_REJECTED_V2 =>
      [OrderAcknowledgmentBitfield1; OrderAcknowledgmentBitfield2; []; []; []; []; [];
       CancelRejectedBitfield8]
  | ORDER_EXECUTION_V2 =>
      [OrderAcknowledgmentBitfield1; OrderAcknowledgmentBitfield2; OrderAcknowledgmentBitfield3;
       []; []; OrderExecutionBitfield6; []; OrderExecutionBitfield8]
  | TRADE_CANCEL_OR_CORRECT_V2 => [[]; OrderAcknowledgmentBitfield2]
  | _ => []
  end.

(** The bits of some fields, as the code ors them together. *)
Definition bits (b : Bitfield) (fs : list OptField) : Z :=
  foldr (λ '(mask, f) acc, if decide (f ∈ fs) then Z.lor mask acc else acc) 0 b.
(** The fields that bytes of bits select, in the order they are appended. *)
Definition selected (table : list Bitfield) (bytes : list Z) : list OptField :=
  concat (zip_with (λ b byte, map snd (filter (λ mf, Z.land mf.1 byte ≠ 0) b)) table bytes).

(** ** The structs of optional fields *)

Definition NewOrder_opt : list OptField :=
  [F_CLEARING_FIRM; F_CLEARING_ACCOUNT; F_PRICE; F_EXEC_INST; F_ORD_TYPE; F_TIME_IN_FORCE;
   F_MIN_QTY; F_MAX_FLOOR; F_SYMBOL; F_CAPACITY; F_ROUTING_INST; F_ACCOUNT; F_DISPLAY_INDICATOR;
   F_MAX_REMOVE_PCT; F_DISCRETION_AMOUNT; F_PEG_DIFFERENCE; F_ATTRIBUTED_QUOTE; F_EXT_EXEC_INST].
Definition CancelOrder_opt : list OptField := [F_CLEARING_FIRM].
Definition ModifyOrder_opt : list OptField :=
  [F_CLEARING_FIRM; F_ORDER_QTY; F_PRICE; F_ORD_TYPE; F_CANCEL_ORIG_ON_REJECT; F_EXEC_INST;
   F_SIDE; F_MAX_FLOOR].
Definition OrderAcknowledgment_opt : list OptField :=
  [F_SIDE; F_PEG_DIFFERENCE; F_PRICE; F_EXEC_INST; F_ORD_TYPE; F_TIME_IN_FORCE; F_MIN_QTY;
   F_MAX_REMOVE_PCT; F_SYMBOL; F_CAPACITY; F_ACCOUNT; F_CLEARING_FIRM; F_CLEARING_ACCOUNT;
   F_DISPLAY_INDICATOR; F_MAX_FLOOR; F_DISCRETION_AMOUNT; F_ORDER_QTY; F_LEAVES_QTY;
   F_DISPLAY_PRICE; F_WORKING_PRICE; F_ATTRIBUTED_QUOTE; F_EXT_EXEC_INST; F_ROUTING_INST].
Definition OrderRejected_opt : list OptField :=
  [F_SIDE; F_PEG_DIFFERENCE; F_PRICE; F_EXEC_INST; F_ORD_TYPE; F_TIME_IN_FORCE; F_MIN_QTY;
   F_MAX_REMOVE_PCT; F_SYMBOL; F_CAPACITY; F_ACCOUNT; F_CLEARING_FIRM; F_CLEARING_ACCOUNT;
   F_DISPLAY_INDICATOR; F_MAX_FLOOR; F_DISCRETION_AMOUNT; F_ORDER_QTY; F_ATTRIBUTED_QUOTE;
   F_EXT_EXEC_INST; F_ROUTING_INST].
Definition OrderModified_opt : list OptField :=
  [F_SIDE; F_PEG_DIFFERENCE; F_PRICE; F_EXEC_INST; F_ORD_TYPE; F_TIME_IN_FORCE; F_MIN_QTY;
   F_MAX_REMOVE_PCT; F_ACCOUNT; F_CLEARING_FIRM; F_CLEARING_ACCOUNT; F_DISPLAY_INDICATOR;
   F_MAX_FLOOR; F_DISCRETION_AMOUNT; F_ORDER_QTY; F_ORIG_CL_ORD_ID; F_LEAVES_QTY;
   F_DISPLAY_PRICE; F_WORKING_PRICE; F_ATTRIBUTED_QUOTE; F_EXT_EXEC_INST; F_ROUTING_INST].
Definition OrderRestated_opt : list OptField :=
  [F_SIDE; F_PEG_DIFFERENCE; F_PRICE; F_EXEC_INST; F_ORD_TYPE; F_TIME_IN_FORCE; F_MIN_QTY;
   F_MAX_REMOVE_PCT; F_SYMBOL; F_CAPACITY; F_ACCOUNT; F_CLEARING_FIRM; F_CLEARING_ACCOUNT;
   F_DISPLAY_INDICATOR; F_MAX_FLOOR; F_DISCRETION_AMOUNT; F_ORDER_QTY; F_ORIG_CL_ORD_ID;
   F_LEAVES_QTY; F_DISPLAY_PRICE; F_WORKING_PRICE; F_ATTRIBUTED_QUOTE; F_EXT_EXEC_INST;
   F_ROUTING_INST].
Definition OrderCancelled_opt : list OptField :=
  [F_SIDE; F_PEG_DIFFERENCE; F_PRICE; F_EXEC_INST; F_ORD_TYPE; F_TIME_IN_FORCE; F_MIN_QTY;
   F_MAX_REMOVE_PCT; F_SYMBOL; F_CAPACITY; F_ACCOUNT; F_CLEARING_FIRM; F_CLEARING_ACCOUNT;
   F_DISPLAY_INDICATOR; F_MAX_FLOOR; F_DISCRETION_AMOUNT; F_ORDER_QTY; F_LEAVES_QTY;
   F_ATTRIBUTED_QUOTE; F_EXT_EXEC_INST; F_ROUTING_INST].
Definition CancelRejected_opt : list OptField :=
  [F_SIDE; F_PEG_DIFFERENCE; F_PRICE; F_EXEC_INST; F_ORD_TYPE; F_TIME_IN_FORCE; F_MIN_QTY;
   F_MAX_REMOVE_PCT; F_SYMBOL; F_CAPACITY].
Definition OrderExecution_opt : list OptField :=
  [F_SIDE; F_PEG_DIFFERENCE; F_PRICE; F_EXEC_INST; F_ORD_TYPE; F_TIME_IN_FORCE; F_MIN_QTY;
   F_MAX_REMOVE_PCT; F_SYMBOL; F_CAPACITY; F_ACCOUNT; F_CLEARING_FIRM; F_CLEARING_ACCOUNT;
   F_DISPLAY_INDICATOR; F_MAX_FLOOR; F_DISCRETION_AMOUNT; F_ORDER_QTY; F_ATTRIBUTED_QUOTE;
   F_EXT_EXEC_INST; F_FEE_CODE; F_ROUTING_INST].
Definition TradeCancelOrCorrect_opt : list OptField := [F_SYMBOL; F_CAPACITY].

(** The struct that the code lays over the optional fields of a message. *)
Definition opt_struct (t : BoeMessageType) : list OptField :=
  match t with
  | NEW_ORDER_V2 => NewOrder_opt | CANCEL_ORDER_V2 => CancelOrder_opt
  | MODIFY_ORDER_V2 => ModifyOrder_opt | ORDER_ACKNOWLEDGMENT_V2 => OrderAcknowledgment_opt
  | ORDER_REJECTED_V2 => OrderRejected_opt | ORDER_MODIFIED_V2 => OrderModified_opt
  | ORDER_RESTATED_V2 => OrderRestated_opt | ORDER_CANCELLED_V2 => OrderCancelled_opt
  | CANCEL_REJECTED_V2 => CancelRejected_opt | ORDER_EXECUTION_V2 => OrderExecution_opt
  | TRADE_CANCEL_OR_CORRECT_V2 => TradeCancelOrCorrect_opt
  | _ => []
  end.

(** ** Messages *)

Record NewOrder := mkBoeNewOrder {
  nw_message_header : BoeHeader; nw_cl_ord_id : list Z; nw_side : Z; nw_order_qty : Z;
  nw_num_bitfields : Z
}.
#[export] Instance NewOrder_rebuild : Rebuild NewOrder := λ r,
  mkBoeNewOrder (nw_message_header r) (nw_cl_ord_id r) (nw_side r) (nw_order_qty r)
    (nw_num_bitfields r).
Record BoeCancelOrder := mkBoeCancel {
  bc_message_header : BoeHeader; bc_orig_cl_ord_id : list Z; bc_num_bitfields : Z
}.
#[export] Instance BoeCancelOrder_rebuild : Rebuild BoeCancelOrder := λ r,
  mkBoeCancel (bc_message_header r) (bc_orig_cl_ord_id r) (bc_num_bitfields r).
Record BoeModifyOrder := mkBoeModify {
  bm_message_header : BoeHeader; bm_new_cl_ord_id : list Z; bm_orig_cl_ord_id : list Z;
  bm_num_bitfields : Z
}.
#[export] Instance BoeModifyOrder_rebuild : Rebuild BoeModifyOrder := λ r,
  mkBoeModify (bm_message_header r) (bm_new_cl_ord_id r) (bm_orig_cl_ord_id r)
    (bm_num_bitfields r).
Record LoginRequest := mkLoginRequest {
  lr_header : BoeHeader; lr_credentials : list Z; lr_num_param_groups : Z
}.
Record LoginResponse := mkLoginResponse {
  ls_message_header : BoeHeader; ls_login_response_status : Z;
  ls_login_response_text : list Z; ls_no_unspecified_unit_replay : Z;
  ls_last_received_sequence_number : Z; ls_number_of_units : Z
}.
Record Logout := mkLogout {
  lo_message_header : BoeHeader; lo_logout_reason : Z; lo_logout_reason_text : list Z;
  lo_last_received_sequence_number : Z; lo_number_of_units : Z
}.

(** What the exchange's messages about an order start with. *)
Record OrderMessage := mkOrderMessage {
  oh_message_header : BoeHeader; oh_transaction_time : Z; oh_cl_ord_id : list Z
}.
(** [OrderAcknowledgment] and [OrderModified], which have the same members. *)
Record OrderAcknowledgment := mkOrderAck {
  oa_message : OrderMessage; oa_order_id : Z; oa_reserved : Z; oa_number_of_return_bitfields : Z
}.
Record OrderRestated := mkOrderRestated {
  rs_message : OrderMessage; rs_order_id : Z; rs_restatement_reason : Z; rs_reserved : Z;
  rs_number_of_return_bitfields : Z
}.
(** [OrderRejected], [UserModifyRejected] and [CancelRejected]. *)
Record OrderRejected := mkOrderRejected {
  or_message : OrderMessage; or_reject_reason : Z; or_text : list Z; or_reserved : Z;
  or_number_of_return_bitfields : Z
}.
Record OrderCancelled := mkOrderCancelled {
  oc_message : OrderMessage; oc_cancel_reason : Z; oc_reserved : Z;
  oc_number_of_return_bitfields : Z
}.
Record OrderExecution := mkOrderExecution {
  oe_message : OrderMessage; oe_exec_id : Z; oe_last_shares : Z; oe_last_px : Z;
  oe_leaves_qty : Z; oe_base_liquidity_indicator : Z; oe_sub_liquidity_indicator : Z;
  oe_contra_broker : Z; oe_reserved : Z; oe_number_of_return_bitfields : Z
}.
Record TradeCancelOrCorrect := mkTradeCancel {
  tc_message : OrderMessage; tc_order_id : Z; tc_exec_ref_id : Z; tc_side : Z;
  tc_base_liquidity_indicator : Z; tc_clearing_firm : list Z; tc_clearing_account : list Z;
  tc_last_shares : Z; tc_last_px : Z; tc_corrected_price : Z; tc_orig_time : Z;
  tc_reserved : Z; tc_number_of_return_bitfields : Z
}.

(** ** Layout *)

Definition c_ClOrdID : Codec (list Z) := c_array 20.
Definition c_ResponseText : Codec (list Z) := c_array 60.
Definition c_NewOrder : Codec NewOrder :=
  c_record (λ '(h, id, sd, qty, nb), mkBoeNewOrder h id sd qty nb)
    (λ m, (nw_message_header m, nw_cl_ord_id m, nw_side m, nw_order_qty m, nw_num_bitfields m))
    (c_BoeHeader *c c_ClOrdID *c c_uint 1 *c c_uint 4 *c c_uint 1).
Definition c_BoeCancelOrder : Codec BoeCancelOrder :=
  c_record (λ p, mkBoeCancel p.1.1 p.1.2 p.2)
    (λ m, (bc_message_header m, bc_orig_cl_ord_id m, bc_num_bitfields m))
    (c_BoeHeader *c c_ClOrdID *c c_uint 1).
Definition c_BoeModifyOrder : Codec BoeModifyOrder :=
  c_record (λ p, mkBoeModify p.1.1.1 p.1.1.2 p.1.2 p.2)
    (λ m, (bm_message_header m, bm_new_cl_ord_id m, bm_orig_cl_ord_id m, bm_num_bitfields m))
    (c_BoeHeader *c c_ClOrdID *c c_ClOrdID *c c_uint 1).
(** The three credentials are 18 characters. *)
Definition CREDENTIALS_WIDTH : nat := 18.
Definition c_LoginRequest : Codec LoginRequest :=
  c_record (λ p, mkLoginRequest p.1.1 p.1.2 p.2)
    (λ m, (lr_header m, lr_credentials m, lr_num_param_groups m))
    (c_BoeHeader *c c_array CREDENTIALS_WIDTH *c c_uint 1).
(** [UnitNumberSequencePair] *)
Definition c_UnitNumberSequencePair : Codec (Z * Z) := c_uint 1 *c c_uint 4.
Definition c_LoginResponse : Codec LoginResponse :=
  c_record (λ '(h, st, text, nu, last, n), mkLoginResponse h st text nu last n)
    (λ m, (ls_message_header m, ls_login_response_status m, ls_login_response_text m,
           ls_no_unspecified_unit_replay m, ls_last_received_sequence_number m,
           ls_number_of_units m))
    (c_BoeHeader *c c_uint 1 *c c_ResponseText *c c_uint 1 *c c_uint 4 *c c_uint 1).
Definition c_Logout : Codec Logout :=
  c_record (λ '(h, re, text, last, n), mkLogout h re text last n)
    (λ m, (lo_message_header m, lo_logout_reason m, lo_logout_reason_text m,
           lo_last_received_sequence_number m, lo_number_of_units m))
    (c_BoeHeader *c c_uint 1 *c c_ResponseText *c c_uint 4 *c c_uint 1).
Definition c_OrderMessage : Codec OrderMessage :=
  c_record (λ p, mkOrderMessage p.1.1 p.1.2 p.2)
    (λ m, (oh_message_header m, oh_transaction_time m, oh_cl_ord_id m))
    (c_BoeHeader *c c_uint 8 *c c_ClOrdID).
Definition c_OrderAcknowledgment : Codec OrderAcknowledgment :=
  c_record (λ p, mkOrderAck p.1.1.1 p.1.1.2 p.1.2 p.2)
    (λ m, (oa_message m, oa_order_id m, oa_reserved m, oa_number_of_return_bitfields m))
    (c_OrderMessage *c c_uint 8 *c c_uint 1 *c c_uint 1).
Definition c_OrderRestated : Codec OrderRestated :=
  c_record (λ '(h, id, re, rv, nb), mkOrderRestated h id re rv nb)
    (λ m, (rs_message m, rs_order_id m, rs_restatement_reason m, rs_reserved m,
           rs_number_of_return_bitfields m))
    (c_OrderMessage *c c_uint 8 *c c_uint 1 *c c_uint 1 *c c_uint 1).
Definition c_OrderRejected : Codec OrderRejected :=
  c_record (λ '(h, re, text, rv, nb), mkOrderRejected h re text rv nb)
    (λ m, (or_message m, or_reject_reason m, or_text m, or_reserved m,
           or_number_of_return_bitfields m))
    (c_OrderMessage *c c_uint 1 *c c_ResponseText *c c_uint 1 *c c_uint 1).
Definition c_OrderCancelled : Codec OrderCancelled :=
  c_record (λ p, mkOrderCancelled p.1.1.1 p.1.1.2 p.1.2 p.2)
    (λ m, (oc_message m, oc_cancel_reason m, oc_reserved m, oc_number_of_return_bitfields m))
    (c_OrderMessage *c c_uint 1 *c c_uint 1 *c c_uint 1).
(** [ExecID] takes eight bytes, as the size of the message says. *)
Definition c_OrderExecution : Codec OrderExecution :=
  c_record
    (λ '(h, id, sh, px, lv, bl, sl, cb, rv, nb), mkOrderExecution h id sh px lv bl sl cb rv nb)
    (λ m, (oe_message m, oe_exec_id m, oe_last_shares m, oe_last_px m, oe_leaves_qty m,
           oe_base_liquidity_indicator m, oe_sub_liquidity_indicator m, oe_contra_broker m,
           oe_reserved m, oe_number_of_return_bitfields m))
    (c_OrderMessage *c c_uint 8 *c c_uint 4 *c c_uint 8 *c c_uint 4 *c c_uint 1 *c c_uint 1
     *c c_uint 4 *c c_uint 1 *c c_uint 1).
Definition c_TradeCancelOrCorrect : Codec TradeCancelOrCorrect :=
  c_record
    (λ '(h, id, ex, sd, bl, cf, ca, sh, px, cp, ot, rv, nb),
       mkTradeCancel h id ex sd bl cf ca sh px cp ot rv nb)
    (λ m, (tc_message m, tc_order_id m, tc_exec_ref_id m, tc_side m,
           tc_base_liquidity_indicator m, tc_clearing_firm m, tc_clearing_account m,
           tc_last_shares m, tc_last_px m, tc_corrected_price m, tc_orig_time m, tc_reserved m,
           tc_number_of_return_bitfields m))
    (c_OrderMessage *c c_uint 8 *c c_uint 8 *c c_uint 1 *c c_uint 1 *c c_array 4 *c c_array 4
     *c c_uint 4 *c c_uint 8 *c c_uint 8 *c c_uint 8 *c c_uint 1 *c c_uint 1).

#[export] Instance c_NewOrder_ok : CodecOk c_NewOrder.
Proof. solve_codec. Qed.
#[export] Instance c_BoeCancelOrder_ok : CodecOk c_BoeCancelOrder.
Proof. solve_codec. Qed.
#[export] Instance c_BoeModifyOrder_ok : CodecOk c_BoeModifyOrder.
Proof. solve_codec. Qed.
#[export] Instance c_LoginRequest_ok : CodecOk c_LoginRequest.
Proof. solve_codec. Qed.
#[export] Instance c_LoginResponse_ok : CodecOk c_LoginResponse.
Proof. solve_codec. Qed.
#[export] Instance c_Logout_ok : CodecOk c_Logout.
Proof. solve_codec. Qed.
#[export] Instance c_OrderMessage_ok : CodecOk c_OrderMessage.
Proof. solve_codec. Qed.
#[export] Instance c_OrderAcknowledgment_ok : CodecOk c_OrderAcknowledgment.
Proof. solve_codec. Qed.
#[export] Instance c_OrderRestated_ok : CodecOk c_OrderRestated.
Proof. solve_codec. Qed.
#[export] Instance c_OrderRejected_ok : CodecOk c_OrderRejected.
Proof. solve_codec. Qed.
#[export] Instance c_OrderCancelled_ok : CodecOk c_OrderCancelled.
Proof. solve_codec. Qed.
#[export] Instance c_OrderExecution_ok : CodecOk c_OrderExecution.
Proof. solve_codec. Qed.
#[export] Instance c_TradeCancelOrCorrect_ok : CodecOk c_TradeCancelOrCorrect.
Proof. solve_codec. Qed.

(** The sizes that the code asserts. *)
Lemma message_sizes :
  c_size c_BoeHeader = 10%nat /\ c_size c_LoginRequest = 29%nat
  /\ c_size c_LoginResponse = 77%nat /\ c_size c_Logout = 76%nat /\ c_size c_NewOrder = 36%nat
  /\ c_size c_BoeCancelOrder = 31%nat /\ c_size c_BoeModifyOrder = 51%nat
  /\ c_size c_OrderAcknowledgment = 48%nat /\ c_size c_OrderRejected = 101%nat
  /\ c_size c_OrderRestated = 49%nat /\ c_size c_OrderCancelled = 41%nat
  /\ c_size c_OrderExecution = 70%nat /\ c_size c_TradeCancelOrCorrect = 94%nat
  /\ c_size c_UnitNumberSequencePair = 5%nat.
Proof. by split_and!. Qed.

(** ** Values: prices, sides, types and times in force *)

Definition BSIDE_BUY : Z := 49.
Definition BSIDE_SELL : Z := 50.
Definition BSIDE_SELL_SHORT : Z := 53.
Definition BSIDE_SELL_SHORT_EXEMPT : Z := 54.
Definition ORD_MARKET : Z := 49.
Definition ORD_LIMIT : Z := 50.
Definition ORD_STOP : Z := 51.
Definition ORD_STOP_LIMIT : Z := 52.
Definition ORD_PEGGED : Z := 80.
Definition BTIF_DAY : Z := 48.
Definition BTIF_GTC : Z := 49.
Definition BTIF_AT_THE_OPEN : Z := 50.
Definition BTIF_IOC : Z := 51.
Definition BTIF_FOK : Z := 52.
Definition BTIF_GTX : Z := 53.
Definition BTIF_GTD : Z := 54.
Definition BTIF_AT_THE_CLOSE : Z := 55.
Definition BTIF_REG_HOURS_ONLY : Z := 82.
Definition CAPACITY_BOE_AGENCY : Z := 65.

(** None where the code returns false. *)
Definition side_from_order (s : Side) : option Z :=
  match s with
  | BUY => Some BSIDE_BUY | SELL => Some BSIDE_SELL | SHORT => Some BSIDE_SELL_SHORT
  | SHORT_EXEMPT => Some BSIDE_SELL_SHORT_EXEMPT | SIDE_UNKNOWN => None
  end.
Definition to_side (s : Z) : Side :=
  if s =? BSIDE_BUY then BUY
  else if s =? BSIDE_SELL then SELL
  else if s =? BSIDE_SELL_SHORT then SHORT
  else if s =? BSIDE_SELL_SHORT_EXEMPT then SHORT_EXEMPT else SIDE_UNKNOWN.

Definition ord_type_from_order (t : OrderType) : option Z :=
  match t with
  | MARKET => Some ORD_MARKET | STOP => Some ORD_STOP_LIMIT | MIDPOINT_PEG => Some ORD_PEGGED
  | LIMIT => Some ORD_LIMIT | OT_UNKNOWN => None
  end.
Definition to_ord_type (t : Z) : OrderType :=
  if t =? ORD_MARKET then MARKET
  else if t =? ORD_LIMIT then LIMIT
  else if (t =? ORD_STOP) || (t =? ORD_STOP_LIMIT) then STOP
  else if t =? ORD_PEGGED then MIDPOINT_PEG else OT_UNKNOWN.

Definition tif_from_order (t : TimeInForce) : option Z :=
  match t with
  | DAY => Some BTIF_DAY | GTC => Some BTIF_GTC | EXT => Some BTIF_GTX
  | AUCTION_OPEN => Some BTIF_AT_THE_OPEN | AUCTION_CLOSE => Some BTIF_AT_THE_CLOSE
  | IMMEDIATE_OR_CANCEL => Some BTIF_IOC | FILL_OR_KILL => Some BTIF_FOK
  | TIMED | AUCTION_HALT | TIF_UNKNOWN => None
  end.
Definition to_tif (t : Z) : TimeInForce :=
  if t =? BTIF_DAY then DAY
  else if (t =? BTIF_GTC) || (t =? BTIF_GTD) then GTC
  else if t =? BTIF_AT_THE_OPEN then AUCTION_OPEN
  else if t =? BTIF_IOC then IMMEDIATE_OR_CANCEL
  else if t =? BTIF_FOK then FILL_OR_KILL
  else if t =? BTIF_GTX then EXT
  else if t =? BTIF_AT_THE_CLOSE then AUCTION_CLOSE
  else if t =? BTIF_REG_HOURS_ONLY then DAY else TIF_UNKNOWN.

(** What an order says reads back as itself. *)
Lemma to_side_from s z : side_from_order s = Some z → to_side z = s.
Proof. by destruct s; intros [= <-]. Qed.
Lemma to_ord_type_from t z : ord_type_from_order t = Some z → to_ord_type z = t.
Proof. by destruct t; intros [= <-]. Qed.
Lemma to_tif_from t z : tif_from_order t = Some z → to_tif z = t.
Proof. by destruct t; intros [= <-]. Qed.

Section Price.
Context {D : Type} `{Dbl D}.
(** [BOE_PRICE_DIVISOR] and [BOE_PRICE_DIVISOR_INV] *)
Definition BOE_PRICE_DIVISOR : D := d_of_Z 10000.
Definition BOE_PRICE_DIVISOR_INV : D := d_lit 1 10000.
(** The cast to an unsigned 64-bit integer, of a value below 2^63. *)
Definition price_to_fixed (p : D) : Z := u64 (d_to_i64 (p * BOE_PRICE_DIVISOR + d_lit 1 2)%dbl).
Definition price_to_double (p : Z) : D := (d_of_Z p * BOE_PRICE_DIVISOR_INV)%dbl.
End Price.

(** ** A client order id names its order *)

Lemma LocalClOrdID_create_sum acct id : 0 <= acct → in_u 32 id →
  LocalClOrdID_create acct id = acct * 2 ^ 32 + id.
Proof.
  intros Ha [Hid1 Hid2]. unfold LocalClOrdID_create.
  assert (Z.land (Z.shiftl acct 32) id = 0) as Hz.
  { apply Z.bits_inj'. intros n Hn. rewrite Z.land_spec, Z.bits_0.
    destruct (Z.ltb_spec n 32).
    - by rewrite Z.shiftl_spec_low.
    - rewrite (Z.bits_above_log2 id n); [by rewrite andb_false_r|done|].
      destruct (decide (id = 0)) as [->|]; [cbn; lia|].
      apply Z.lt_le_trans with 32; [|done]. apply Z.log2_lt_pow2; lia. }
  pose proof (Z.add_lor_land (Z.shiftl acct 32) id) as Hs. rewrite Hz in Hs.
  rewrite Z.shiftl_mul_pow2 in Hs by lia. rewrite Z.shiftl_mul_pow2 by lia. lia.
Qed.

Lemma length_ClOrdID loc acct id sym : length sym = 6%nat →
  length (ClOrdID_set loc acct id sym) = 20%nat.
Proof.
  intros Hs. unfold ClOrdID_set. cbn [length]. rewrite length_app, Hs.
  unfold alnum_set. pose proof (set_loop_length our_ord_id_format 13 true (LocalClOrdID_create acct id)) as Hl.
  change (OUT_WIDTH our_ord_id_format) with 13%nat. destruct (set_loop _ _ _ _) as [l r].
  cbn in *. unfold in_loop_order. cbn. rewrite length_reverse. lia.
Qed.

Lemma local_id_of_ClOrdID loc acct id sym : length sym = 6%nat → in_u 16 acct → in_u 32 id →
  get_local_id (ClOrdID_set loc acct id sym) = id.
Proof.
  intros Hs [Ha1 Ha2] Hid. unfold get_local_id, ClOrdID_set.
  pose proof (LocalClOrdID_create_sum acct id Ha1 Hid) as Hsum. destruct Hid as [Hid1 Hid2].
  set (n := LocalClOrdID_create acct id) in *.
  assert (0 <= n < 281474976710656) as Hn
    by (rewrite Hsum; change (2 ^ 32) with 4294967296 in *; change (2 ^ 16) with 65536 in *; lia).
  pose proof (alphanumeric_roundtrip our_ord_id_format 64 n ltac:(lia) eq_refl ltac:(lia)) as Hr.
  cbv zeta in Hr. destruct (alnum_set our_ord_id_format n) as [raw fits].
  destruct Hr as (Hl & _ & _ & Hr). cbn [fst]. rewrite skipn_cons, drop_app_n by done.
  rewrite take_ge by (rewrite Hl; done). rewrite Hr.
  - rewrite Hsum. unfold wrap. rewrite Z.add_comm, Z.mod_add by lia. apply Z.mod_small. lia.
  - change (BASE our_ord_id_format ^ Z.of_nat (OUT_WIDTH our_ord_id_format))
      with 200028539268669788905472. lia.
  - change (2 ^ 64) with 18446744073709551616. lia.
Qed.

Lemma ClOrdID_bytes loc acct id sym : is_byte loc → Forall is_byte sym → 0 <= acct → in_u 32 id →
  Forall is_byte (ClOrdID_set loc acct id sym).
Proof.
  intros Hl Hs Ha Hid. unfold ClOrdID_set. constructor; [done|]. apply Forall_app. split; [done|].
  apply alnum_set_bytes; [cbn; lia|]. rewrite LocalClOrdID_create_sum by done.
  destruct Hid. nia.
Qed.
