(* ===== verification/Boe20Framing.v ===== *)
(** * BOE 2.0 framing ([handle_raw_bytes] of src/oe/BATS/BOE20Session.cpp)

    The stream of a TCP connection is cut into messages, which start with a
    sentinel and their length.  Bytes of a message that a read did not complete
    are kept in [m_dangly_bytes].  Here a read becomes what it makes the session
    do; the session does it in [Boe20Handler]. *)

From S2P Require Import Prelude Dbl Codec Boe20Wire.

(** A message to handle, from its start to the end of the bytes that can be read
    there, and its length; or a sentinel that does not match, which disconnects. *)
Inductive RawEvent :=
| RawMsg (buf : list Z) (len : nat)
| SentinelMismatch.

(** [sizeof(StartOfMessage) + sizeof(MessageLength)] *)
Definition FRAME_START : nat := 4.
Definition start_of_message (buf : list Z) : Z := le_val (take 2 buf).
(** The length of the whole message. *)
Definition frame_length (buf : list Z) : nat := 2 + Z.to_nat (le_val (take 2 (drop 2 buf))).

(** The part of a call that comes before it calls itself: what dangles, what is
    to be done, and the bytes that remain.  [idx] counts the bytes of [buf] that
    went to complete the start of the message. *)
Definition raw_dangly (dangly : list Z) (idx : nat) (buf : list Z)
    : res (list Z * list RawEvent * list Z) :=
  let dbs := length dangly in
  let len := length buf in
  if negb (start_of_message dangly =? START_OF_MESSAGE_SENTINEL) then Ok ([], [SentinelMismatch], [])
  else
    let mlen := frame_length dangly in
    _ ← assert "mlen > dbs" (dbs <? mlen)%nat;
    let remains := (mlen - dbs)%nat in
    let n := Nat.min remains len in
    if (len <? idx + n)%nat then Fail (UndefinedBehaviour "buf[idx] past the received bytes")
    else
      let dangly := dangly ++ take n (drop idx buf) in
      if (remains <=? len)%nat then Ok ([], [RawMsg dangly mlen], drop (idx + n) buf)
      else Ok (dangly, [], []).
Definition raw_step (dangly buf : list Z) : res (list Z * list RawEvent * list Z) :=
  let dbs := length dangly in
  let len := length buf in
  if (0 <? dbs)%nat then
    if (dbs <? FRAME_START)%nat then
      let remains := (FRAME_START - dbs)%nat in
      let dangly := dangly ++ take remains buf in
      if (len <? remains)%nat then Ok (dangly, [], []) else raw_dangly dangly remains buf
    else raw_dangly dangly 0 buf
  else if (len <? FRAME_START)%nat then Ok (buf, [], [])
  else if negb (start_of_message buf =? START_OF_MESSAGE_SENTINEL)
  then Ok ([], [SentinelMismatch], [])
  else
    let mlen := frame_length buf in
    if (mlen <=? len)%nat then Ok ([], [RawMsg buf mlen], drop mlen buf)
    else Ok (buf, [], []).

(** [handle_raw_bytes], with fuel for its calls of itself. *)
Fixpoint raw_loop (fuel : nat) (dangly buf : list Z) : option (res (list Z * list RawEvent)) :=
  match raw_step dangly buf with
  | Fail e => Some (Fail e)
  | Ok (dangly, evs, []) => Some (Ok (dangly, evs))
  | Ok (dangly, evs, rest) =>
      match fuel with
      | O => None
      | S fuel' =>
          option_map (λ r, '(d, evs') ← r; Ok (d, evs ++ evs')) (raw_loop fuel' dangly rest)
      end
  end.
Definition handle_raw_bytes (dangly buf : list Z) : res (list Z * list RawEvent) :=
  default (Ok (dangly, [])) (raw_loop (length buf) dangly buf).

(** Reads one after the other. *)
Fixpoint raw_reads (dangly : list Z) (reads : list (list Z)) : res (list Z * list RawEvent) :=
  match reads with
  | [] => Ok (dangly, [])
  | buf :: reads' =>
      '(dangly, evs) ← handle_raw_bytes dangly buf;
      '(dangly, evs') ← raw_reads dangly reads';
      Ok (dangly, evs ++ evs')
  end.

(** ** Termination *)

Lemma raw_dangly_shrinks d idx buf d' evs rest : raw_dangly d idx buf = Ok (d', evs, rest) →
  rest ≠ [] → (length rest < length buf)%nat.
Proof.
  unfold raw_dangly. case_match; [by intros [= _ _ <-]|].
  intros (u & Hu%assert_Ok & Hr)%res_bind_Ok. apply Nat.ltb_lt in Hu.
  case_match; [done|]. case_match; [|by injection Hr as _ _ <-]. injection Hr as _ _ <-.
  intros Hne. assert (0 < length (drop (idx + Nat.min (frame_length d - length d) (length buf)) buf))%nat
    by (by destruct (drop _ _); [|cbn; lia]).
  rewrite length_drop in *. lia.
Qed.
Lemma raw_step_shrinks d buf d' evs rest : raw_step d buf = Ok (d', evs, rest) →
  rest ≠ [] → (length rest < length buf)%nat.
Proof.
  unfold raw_step. case_match.
  - case_match; [case_match; [by intros [= _ _ <-]|]|]; apply raw_dangly_shrinks.
  - do 2 (case_match; [by intros [= _ _ <-]|]). case_match; [|by intros [= _ _ <-]].
    intros [= _ _ <-] Hne. rewrite length_drop. unfold frame_length in *.
    destruct (length buf) eqn:Hl; [|lia]. by destruct buf.
Qed.

(** The calls of [handle_raw_bytes] end: as much fuel as there are bytes is enough. *)
Lemma raw_loop_total fuel d buf : (length buf <= fuel)%nat → is_Some (raw_loop fuel d buf).
Proof.
  revert d buf. induction fuel as [|fuel IH]; intros d buf Hf; cbn [raw_loop];
    destruct (raw_step d buf) as [[[d' evs] [|b rest]]|] eqn:Hs; try by eexists.
  - apply raw_step_shrinks in Hs; [|done]. cbn in Hs. lia.
  - apply raw_step_shrinks in Hs; [|done]. destruct (IH d' (b :: rest)) as [r ->]; [cbn in *; lia|].
    by eexists.
Qed.

(** ** Whole messages, and messages in pieces *)

(** A message as the exchange writes it. *)
Record is_frame (m : list Z) : Prop := {
  frame_start : start_of_message m = START_OF_MESSAGE_SENTINEL;
  frame_len : frame_length m = length m;
  frame_long : (FRAME_START < length m)%nat
}.

(** The start of a message says what it is. *)
Lemma start_app d e : (FRAME_START <= length d)%nat →
  start_of_message (d ++ e) = start_of_message d /\ frame_length (d ++ e) = frame_length d.
Proof.
  unfold FRAME_START, start_of_message, frame_length. intros Hd.
  rewrite skipn_app, !take_app_le; [done|rewrite length_drop; lia|lia].
Qed.

(** The bytes of a message that went to be handled. *)
Definition delivered (ev : RawEvent) (m : list Z) : Prop :=
  ∃ rest, ev = RawMsg (m ++ rest) (length m).

Lemma step_whole m rest : is_frame m →
  raw_step [] (m ++ rest) = Ok ([], [RawMsg (m ++ rest) (length m)], rest).
Proof.
  intros [Hs Hl Hm]. unfold raw_step. cbn [length]. change (0 <? 0)%nat with false. cbv iota.
  destruct (start_app m rest ltac:(lia)) as [-> ->]. rewrite Hs, Hl, length_app.
  rewrite (proj2 (Nat.ltb_ge _ FRAME_START)) by lia. cbn [negb Z.eqb]. rewrite Z.eqb_refl.
  rewrite (proj2 (Nat.leb_le _ _)) by lia. cbn [negb]. by rewrite drop_app_n.
Qed.

(** A message whose first bytes dangle. *)
Lemma dangly_started d e idx buf : is_frame (d ++ e) → (FRAME_START <= length d)%nat → e ≠ [] →
  raw_dangly d idx buf =
    let n := Nat.min (length e) (length buf) in
    if (length buf <? idx + n)%nat then Fail (UndefinedBehaviour "buf[idx] past the received bytes")
    else if (length e <=? length buf)%nat
    then Ok ([], [RawMsg (d ++ take n (drop idx buf)) (length (d ++ e))], drop (idx + n) buf)
    else Ok (d ++ take n (drop idx buf), [], []).
Proof.
  intros [Hs Hl Hm] Hd He. unfold raw_dangly. destruct (start_app d e Hd) as [Hs' Hl'].
  rewrite <- Hs', <- Hl', Hs, Hl, Z.eqb_refl, length_app.
  assert (0 < length e)%nat by (destruct e; [done|cbn; lia]).
  replace (length d + length e - length d)%nat with (length e) by lia.
  by rewrite (proj2 (Nat.ltb_lt (length d) _)) by lia.
Qed.

Lemma step_completes d e rest : is_frame (d ++ e) → d ≠ [] → e ≠ [] →
  raw_step d (e ++ rest) = Ok ([], [RawMsg (d ++ e) (length (d ++ e))], rest).
Proof.
  intros Hf Hd He. pose proof (frame_long _ Hf) as Hlong. rewrite length_app in Hlong.
  unfold raw_step. assert (0 < length d)%nat by (destruct d; [done|cbn; lia]).
  rewrite (proj2 (Nat.ltb_lt 0 _)) by lia.
  destruct (Nat.ltb_spec (length d) FRAME_START) as [Hlt|Hge].
  - set (r := (FRAME_START - length d)%nat). assert (r < length e)%nat as Hr by (subst r; lia).
    rewrite (proj2 (Nat.ltb_ge _ r)) by (rewrite length_app; lia).
    rewrite take_app_le by lia.
    assert (d ++ e = (d ++ take r e) ++ drop r e) as Hde by (by rewrite <- app_assoc, take_drop).
    rewrite (dangly_started _ (drop r e)).
    + cbv zeta. rewrite length_app, length_drop.
      replace (Nat.min (length e - r) (length e + length rest)) with (length e - r)%nat by lia.
      replace (r + (length e - r))%nat with (length e) by lia.
      rewrite (proj2 (Nat.ltb_ge _ _)), (proj2 (Nat.leb_le _ _)) by lia.
      rewrite skipn_app, take_app_n by (by rewrite length_drop). rewrite drop_app_n by done.
      by rewrite <- Hde.
    + by rewrite <- Hde.
    + rewrite length_app, length_take. subst r. lia.
    + intros Hn. apply (f_equal length) in Hn. rewrite length_drop in Hn. change (length (@nil Z)) with 0%nat in Hn. lia.
  - rewrite (dangly_started d e) by done. cbv zeta. rewrite length_app.
    replace (Nat.min (length e) (length e + length rest)) with (length e) by lia.
    rewrite (proj2 (Nat.ltb_ge _ _)), (proj2 (Nat.leb_le _ _)) by lia.
    by rewrite drop_0, take_app_n, drop_app_n.
Qed.

(** The first bytes of a message, or none. *)
Definition partial (d m : list Z) : Prop := ∃ e, m = d ++ e /\ e ≠ [].

Lemma step_stashes d buf m : is_frame m → partial (d ++ buf) m →
  d = [] ∨ (FRAME_START <= length d)%nat ∨ (length (d ++ buf) < FRAME_START)%nat →
  raw_step d buf = Ok (d ++ buf, [], []).
Proof.
  intros Hf (e & -> & He) Hcase. unfold raw_step.
  assert (0 < length e)%nat by (destruct e; [done|cbn; lia]).
  destruct d as [|x d]; [|set (d0 := x :: d) in *].
  - cbn [length app] in *. change (0 <? 0)%nat with false. cbv iota.
    destruct (Nat.ltb_spec (length buf) FRAME_START) as [|Hge]; [done|].
    destruct (start_app buf e Hge) as [Hs Hl]. destruct Hf as [Hs1 Hl1 _].
    rewrite <- Hs, <- Hl, Hs1, Hl1, Z.eqb_refl, length_app. cbn [negb].
    by rewrite (proj2 (Nat.leb_gt _ _)) by lia.
  - rewrite (proj2 (Nat.ltb_lt 0 _)) by (cbn; lia). rewrite length_app in Hcase.
    destruct (Nat.ltb_spec (length d0) FRAME_START) as [Hlt|Hge].
    + destruct Hcase as [|[|Hc]]; [done|lia|]. rewrite take_ge by lia.
      by rewrite (proj2 (Nat.ltb_lt _ _)) by lia.
    + rewrite <- app_assoc in Hf. rewrite (dangly_started d0 (buf ++ e)); [|done|done|].
      * cbv zeta. rewrite length_app.
        replace (Nat.min (length buf + length e) (length buf)) with (length buf) by lia.
        rewrite (proj2 (Nat.ltb_ge _ _)), (proj2 (Nat.leb_gt _ _)) by lia.
        by rewrite drop_0, take_ge by lia.
      * by destruct buf.
Qed.

(** ** A read *)

Lemma raw_loop_more fuel fuel' d buf r : raw_loop fuel d buf = Some r → (fuel <= fuel')%nat →
  raw_loop fuel' d buf = Some r.
Proof.
  revert fuel' d buf r. induction fuel as [|fuel IH]; intros fuel' d buf r Hr Hf;
    destruct fuel' as [|fuel']; try lia; [done| |]; cbn [raw_loop] in *;
    destruct (raw_step d buf) as [[[d1 evs] [|b rest]]|]; try done.
  destruct (raw_loop fuel d1 (b :: rest)) as [r1|] eqn:Hr1; [|done].
  by rewrite (IH fuel' _ _ _ Hr1) by lia.
Qed.

(** One call, once what it does first is known. *)
Lemma handle_unfold d buf d' evs rest : raw_step d buf = Ok (d', evs, rest) →
  handle_raw_bytes d buf =
    match rest with
    | [] => Ok (d', evs)
    | _ => '(d2, evs') ← handle_raw_bytes d' rest; Ok (d2, evs ++ evs')
    end.
Proof.
  intros Hs. unfold handle_raw_bytes at 1. destruct rest as [|b rest].
  - destruct (length buf); cbn [raw_loop]; by rewrite Hs.
  - pose proof (raw_step_shrinks _ _ _ _ _ Hs ltac:(done)) as Hsh.
    destruct (length buf) as [|n]; [lia|]. cbn [raw_loop]. rewrite Hs.
    unfold handle_raw_bytes.
    destruct (raw_loop_total (length (b :: rest)) d' (b :: rest) ltac:(done)) as [r Hr].
    by rewrite (raw_loop_more _ n _ _ _ Hr) by lia; rewrite Hr.
Qed.

(** A read that ends with the first bytes [d'] of a message, or between messages. *)
Definition started (d : list Z) (post : list (list Z)) : Prop :=
  d = [] ∨ ∃ m post', post = m :: post' /\ partial d m.

Lemma read_whole ms d' post : Forall is_frame ms → Forall is_frame post → started d' post →
  ∃ evs, handle_raw_bytes [] (concat ms ++ d') = Ok (d', evs) /\ Forall2 delivered evs ms.
Proof.
  intros Hms Hpost Hd. induction Hms as [|m ms Hm Hms IH].
  - exists []. split; [|done]. cbn [concat app]. destruct Hd as [->|(m & post' & -> & Hp)]; [done|].
    apply Forall_cons in Hpost as [Hm _].
    by rewrite (handle_unfold _ _ _ _ _ (step_stashes [] d' m Hm Hp (or_introl eq_refl))).
  - destruct IH as (evs & Hrest & Hevs). cbn [concat]. rewrite <- app_assoc.
    rewrite (handle_unfold _ _ _ _ _ (step_whole m _ Hm)).
    exists (RawMsg (m ++ concat ms ++ d') (length m) :: evs). split.
    + destruct (concat ms ++ d') eqn:Hr; [|by rewrite Hrest]. cbn in Hrest. by injection Hrest as <- <-.
    + constructor; [by eexists|done].
Qed.

(** The read after [d] dangled: whole messages [pre], and then [d'].  A message
    whose first four bytes the reads cut must end with the second read. *)
Definition read_ok (d buf : list Z) (pre : list (list Z)) (d' : list Z) : Prop :=
  d ++ buf = concat pre ++ d'
  /\ (pre = [] → d = [] ∨ (FRAME_START <= length d)%nat ∨ (length d' < FRAME_START)%nat).

Lemma read_delivers d buf pre post d' : Forall is_frame (pre ++ post) → started d (pre ++ post) →
  started d' post → read_ok d buf pre d' →
  ∃ evs, handle_raw_bytes d buf = Ok (d', evs) /\ Forall2 delivered evs pre.
Proof.
  intros [Hpre Hpost]%Forall_app Hd Hd' [Heq Hcut].
  destruct Hd as [->|(m & ms' & Hms & e & -> & He)].
  { cbn [app] in Heq. subst buf. by apply (read_whole pre d' post). }
  destruct (decide (d = [])) as [->|Hne].
  { cbn [app] in Heq. subst buf. by apply (read_whole pre d' post). }
  destruct pre as [|m0 pre]; cbn [app concat] in *.
  - subst post. exists []. split; [|done]. specialize (Hcut eq_refl).
    apply Forall_cons in Hpost as [Hm _].
    destruct Hd' as [->|(m & post' & [= <- <-] & Hp)]; [by apply app_nil in Heq as [-> _]|].
    subst d'. by rewrite (handle_unfold _ _ _ _ _ (step_stashes d buf _ Hm Hp Hcut)).
  - injection Hms as -> _. apply Forall_cons in Hpre as [Hm Hpre].
    rewrite <- app_assoc in Heq. rewrite <- app_assoc in Heq. apply app_inv_head in Heq. subst buf.
    rewrite (handle_unfold _ _ _ _ _ (step_completes d e _ Hm Hne He)).
    destruct (read_whole pre d' post Hpre Hpost Hd') as (evs & Hrest & Hevs).
    exists (RawMsg (d ++ e) (length (d ++ e)) :: evs). split.
    + destruct (concat pre ++ d') eqn:Hr; [|by rewrite Hrest]. cbn in Hrest. by injection Hrest as <- <-.
    + constructor; [exists []; by rewrite app_nil_r|done].
Qed.

(** ** A stream *)

(** Reads that cut a stream of messages, given what dangles from before. *)
Inductive cut_well : list Z → list (list Z) → list (list Z) → Prop :=
| cut_end : cut_well [] [] []
| cut_read d buf reads pre post d' :
    read_ok d buf pre d' → started d' post → cut_well d' post reads →
    cut_well d (pre ++ post) (buf :: reads).

Lemma cut_well_delivers d ms reads : cut_well d ms reads → Forall is_frame ms → started d ms →
  ∃ evs, raw_reads d reads = Ok ([], evs) /\ Forall2 delivered evs ms.
Proof.
  induction 1 as [|d buf reads pre post d' Hr Hd' _ IH]; intros Hf Hd; [by exists []|].
  destruct (read_delivers d buf pre post d' Hf Hd Hd' Hr) as (evs & Hh & Hevs).
  apply Forall_app in Hf as [_ Hpost]. destruct (IH Hpost Hd') as (evs' & Hrest & Hevs').
  exists (evs ++ evs'). cbn [raw_reads]. rewrite Hh. cbn [mbind res_bind]. rewrite Hrest.
  split; [done|]. by apply Forall2_app.
Qed.

(** C9: A stream of messages is handed on message by message, in order and whole,
    and nothing dangles at its end, however the connection cuts it into reads; but
    a message of which a read brought one to three bytes must be brought up to its
    end by the next read (or still not to its fourth byte). *)
Theorem cut_stream_delivered (ms reads : list (list Z)) (Hf : Forall is_frame ms)
    (Hcut : cut_well [] ms reads) :
  ∃ evs, raw_reads [] reads = Ok ([], evs) /\ Forall2 delivered evs ms.
Proof. apply (cut_well_delivers [] ms reads); [done|done|by left]. Qed.

(** Otherwise the session reads past the bytes it received: the loop that
    collects the rest of a message starts where the one that completed its first
    four bytes stopped, but bounds itself by the whole length of the read. *)
Theorem split_start_reads_past_end (d buf e : list Z)
    (Hf : is_frame (d ++ buf ++ e)) (Hd : d ≠ []) (Hshort : (length d < FRAME_START)%nat)
    (Hstart : (FRAME_START <= length (d ++ buf))%nat) (He : e ≠ []) :
  raw_reads [] [d; buf] = Fail (UndefinedBehaviour "buf[idx] past the received bytes").
Proof.
  assert (handle_raw_bytes [] d = Ok (d, [])) as H1.
  { pose proof (step_stashes [] d (d ++ buf ++ e) Hf) as Hs. cbn [app] in Hs.
    rewrite (handle_unfold _ _ _ _ _ (Hs ltac:(exists (buf ++ e); split; [done|by destruct buf])
      (or_introl eq_refl))). done. }
  cbn [raw_reads]. rewrite H1. cbn [mbind res_bind].
  enough (raw_step d buf = Fail (UndefinedBehaviour "buf[idx] past the received bytes")) as Hs.
  { unfold handle_raw_bytes. destruct (length buf); cbn [raw_loop]; by rewrite Hs. }
  rewrite length_app in Hstart. unfold raw_step.
  assert (0 < length d)%nat by (destruct d; [done|cbn; lia]).
  assert (0 < length e)%nat by (destruct e; [done|cbn; lia]).
  rewrite (proj2 (Nat.ltb_lt 0 _)), (proj2 (Nat.ltb_lt _ FRAME_START)) by lia.
  set (r := (FRAME_START - length d)%nat).
  rewrite (proj2 (Nat.ltb_ge _ r)) by (subst r; lia).
  rewrite (dangly_started _ (drop r buf ++ e)).
  - cbv zeta. rewrite length_app, length_drop.
    by rewrite (proj2 (Nat.ltb_lt _ _)) by (subst r; lia).
  - by rewrite <- app_assoc, (app_assoc (take r buf)), take_drop.
  - rewrite length_app, length_take. subst r. lia.
  - by destruct (drop r buf), e.
Qed.

(** A server heartbeat, whole, in halves, and with its start cut. *)
Definition heartbeat_frame : list Z :=
  c_enc c_BoeHeader (BoeHeader_create SERVER_HEARTBEAT 0).
Lemma heartbeat_is_frame : is_frame heartbeat_frame.
Proof. split; [reflexivity|reflexivity|]. cbn. unfold FRAME_START. lia. Qed.

Lemma cut_stream_delivered_witness :
  ∃ evs, raw_reads [] [heartbeat_frame ++ take 6 heartbeat_frame; drop 6 heartbeat_frame] = Ok ([], evs)
    /\ Forall2 delivered evs [heartbeat_frame; heartbeat_frame].
Proof.
  apply cut_stream_delivered.
  - repeat (apply Forall_cons; split; [apply heartbeat_is_frame|]). by apply Forall_nil.
  - apply (cut_read [] _ _ [heartbeat_frame] [heartbeat_frame] (take 6 heartbeat_frame)).
    + split; [reflexivity|]. by left.
    + right. do 2 eexists. split; [reflexivity|]. eexists. split; [symmetry; apply (take_drop 6)|done].
    + apply (cut_read (take 6 heartbeat_frame) _ _ [heartbeat_frame] [] []).
      * split; [reflexivity|done].
      * by left.
      * apply cut_end.
Defined.

Lemma split_start_reads_past_end_witness :
  raw_reads [] [take 2 heartbeat_frame; take 5 (drop 2 heartbeat_frame)]
  = Fail (UndefinedBehaviour "buf[idx] past the received bytes").
Proof.
  apply (split_start_reads_past_end (take 2 heartbeat_frame) (take 5 (drop 2 heartbeat_frame))
    (drop 7 heartbeat_frame)); [exact heartbeat_is_frame|done|cbn; unfold FRAME_START; lia|
    cbn; unfold FRAME_START; lia|done].
Defined.
