(* ===== verification/SoupBin.v ===== *)
(** * SoupBinTCP framing (src/oe/NASDAQ/SoupBinTCP30/, and [defer_bytes],
      [dispatch_packet], [on_recv] of src/oe/NASDAQ/OUCH42Session.cpp)

    The stream of a TCP connection is cut into packets: a big-endian length, a
    type, and data.  Bytes of a packet that a read did not complete are kept in
    [m_dangly_bytes].  Here the reads become the packets to handle; what the
    session does with them is in [Ouch42]. *)

From S2P Require Import Prelude Dbl Codec.

(** ** Big-endian fields *)

Definition be_bytes (n : nat) (z : Z) : list Z := reverse (le_bytes n z).
Definition be_val (l : list Z) : Z := le_val (reverse l).

Lemma length_be_bytes n z : length (be_bytes n z) = n.
Proof. unfold be_bytes. by rewrite length_reverse, length_le_bytes. Qed.
Lemma be_val_bytes n z : 0 <= z < 256 ^ Z.of_nat n → be_val (be_bytes n z) = z.
Proof. intros. unfold be_val, be_bytes. rewrite reverse_involutive. by apply le_val_bytes. Qed.

(** An unsigned integer of [n] bytes in network order. *)
Definition c_be (n : nat) : Codec Z :=
  mkCodec n (be_bytes n) (λ l, be_val (take n l)) (λ z, 0 <= z < 256 ^ Z.of_nat n).
#[export] Instance c_be_ok n : CodecOk (c_be n).
Proof.
  split; cbn.
  - intros. apply length_be_bytes.
  - intros. unfold be_bytes. rewrite Forall_reverse. apply le_bytes_are_bytes.
  - intros a rest Ha. rewrite take_app_n by apply length_be_bytes. by apply be_val_bytes.
Qed.

(** ** Packets *)

Inductive DownstreamPacketType :=
| PT_DEBUG | LOGIN_ACCEPT | LOGIN_REJECT | SEQUENCED_DATA | SERVER_HEARTBEAT | END_OF_SESSION.
Definition DownstreamPacketType_of_Z (z : Z) : option DownstreamPacketType :=
  if z =? 43 then Some PT_DEBUG
  else if z =? 65 then Some LOGIN_ACCEPT
  else if z =? 74 then Some LOGIN_REJECT
  else if z =? 83 then Some SEQUENCED_DATA
  else if z =? 72 then Some SERVER_HEARTBEAT
  else if z =? 90 then Some END_OF_SESSION else None.

(** [sizeof(PacketHeader)] *)
Definition PACKET_HEADER_SIZE : nat := 3.
(** [ntohs(hdr->packet_length)] *)
Definition packet_length (buf : list Z) : Z := be_val (take 2 buf).

(** What [dispatch_packet] hands on: the buffer from the packet's start to the
    end of what was read, and the length consumed. *)
Record Packet := mkPacket { pk_buf : list Z; pk_len : nat }.

(** [dispatch_packet]: the packet at the front, and [consumed_len]. *)
Definition dispatch_packet (buf : list Z) : option Packet :=
  if (length buf <? PACKET_HEADER_SIZE)%nat then None
  else
    let consumed_len := (2 + Z.to_nat (packet_length buf))%nat in
    if (length buf <? consumed_len)%nat then None else Some (mkPacket buf consumed_len).

(** The loop that dispatches as many packets as there are; and what is left.
    [None] is out of fuel. *)
Fixpoint dispatch_all (fuel : nat) (buf : list Z) : option (list Packet * list Z) :=
  match dispatch_packet buf with
  | None => Some ([], buf)
  | Some p =>
      match fuel with
      | O => None
      | S fuel' =>
          option_map (λ r, (p :: r.1, r.2)) (dispatch_all fuel' (drop (pk_len p) buf))
      end
  end.

(** ** Receiving *)

(** [sizeof(m_dangly_bytes)] *)
Definition DANGLY_SIZE : nat := 4096.

(** The first [m_dangly_length] bytes of [m_dangly_bytes]. *)
Definition defer_bytes (dangly buf : list Z) : res (list Z) :=
  if (length buf =? 0)%nat then Ok dangly
  else if (DANGLY_SIZE <? length dangly + length buf)%nat
  then Fail (UndefinedBehaviour "memcpy past the end of m_dangly_bytes")
  else Ok (dangly ++ buf).

(** The common end of [on_recv]. *)
Definition recv_rest (dangly cur : list Z) : res (list Z * list Packet) :=
  match dispatch_all (length cur) cur with
  | None => Ok (dangly, [])
  | Some (ps, rest) => dangly ← defer_bytes dangly rest; Ok (dangly, ps)
  end.

(** [on_recv]: what dangles afterwards, and the packets to handle.  A packet put
    together from dangling bytes goes to [dispatch_packet] with a length of 0. *)
Definition on_recv (dangly buf : list Z) : res (list Z * list Packet) :=
  if (length dangly + length buf <? PACKET_HEADER_SIZE)%nat then
    dangly ← defer_bytes dangly buf; Ok (dangly, [])
  else if (0 <? length dangly)%nat then
    let buf_off := (PACKET_HEADER_SIZE - length dangly)%nat in
    '(dangly, cur) ←
      (if (length dangly <? PACKET_HEADER_SIZE)%nat
       then dangly ← defer_bytes dangly (take buf_off buf); Ok (dangly, drop buf_off buf)
       else Ok (dangly, buf));
    let premlen := u64 (packet_length dangly + 2 - Z.of_nat PACKET_HEADER_SIZE) in
    if Z.of_nat (length cur) <? premlen then
      dangly ← defer_bytes dangly cur; Ok (dangly, [])
    else
      dangly ← defer_bytes dangly (take (Z.to_nat premlen) cur);
      let pieced := match dispatch_packet (take 0 dangly) with Some p => [p] | None => [] end in
      '(dangly, ps) ← recv_rest dangly (drop (Z.to_nat premlen) cur);
      Ok (dangly, pieced ++ ps)
  else recv_rest dangly buf.

(** Reads one after the other. *)
Fixpoint recv_all (dangly : list Z) (reads : list (list Z)) : res (list Z * list Packet) :=
  match reads with
  | [] => Ok (dangly, [])
  | buf :: reads' =>
      '(dangly, ps) ← on_recv dangly buf;
      '(dangly, ps') ← recv_all dangly reads';
      Ok (dangly, ps ++ ps')
  end.

(** ** What the stream means *)

(** A packet on the wire: its length counts the type and the data. *)
Definition packet_ok (p : list Z) : Prop := 0 < Z.of_nat (length p) < 65536.
Definition encode_packet (p : list Z) : list Z := be_bytes 2 (Z.of_nat (length p)) ++ p.
Definition encode_stream (ps : list (list Z)) : list Z := concat (map encode_packet ps).

(** The bytes of a packet that was dispatched. *)
Definition packet_body (p : Packet) : list Z := drop 2 (take (pk_len p) (pk_buf p)).

Lemma packet_length_encode p rest : packet_ok p →
  packet_length (encode_packet p ++ rest) = Z.of_nat (length p).
Proof.
  intros Hp. unfold packet_length, encode_packet. rewrite <- app_assoc.
  rewrite take_app_n by apply length_be_bytes. apply be_val_bytes. unfold packet_ok in Hp.
  change (256 ^ Z.of_nat 2) with 65536. lia.
Qed.

Lemma length_encode p : length (encode_packet p) = (2 + length p)%nat.
Proof. unfold encode_packet. rewrite length_app, length_be_bytes. lia. Qed.

Lemma dispatch_encoded p rest : packet_ok p →
  dispatch_packet (encode_packet p ++ rest)
  = Some (mkPacket (encode_packet p ++ rest) (2 + length p)).
Proof.
  intros Hp. unfold dispatch_packet. rewrite packet_length_encode, Nat2Z.id by done.
  unfold packet_ok in Hp. rewrite length_app, length_encode.
  rewrite !(proj2 (Nat.ltb_ge _ _)) by (unfold PACKET_HEADER_SIZE; lia). done.
Qed.

(** The packets that a stream is dispatched as. *)
Fixpoint packets_of (ps : list (list Z)) (rest : list Z) : list Packet :=
  match ps with
  | [] => []
  | p :: ps' => mkPacket (encode_stream ps ++ rest) (2 + length p) :: packets_of ps' rest
  end.
Lemma packets_bodies ps rest : map packet_body (packets_of ps rest) = ps.
Proof.
  induction ps as [|p ps IH]; [done|]. cbn [packets_of map]. f_equal; [|done].
  unfold packet_body. cbn [pk_buf pk_len].
  change (encode_stream (p :: ps)) with (encode_packet p ++ encode_stream ps).
  rewrite <- app_assoc, take_app_n by (rewrite length_encode; lia). unfold encode_packet.
  by rewrite drop_app_n by apply length_be_bytes.
Qed.

Lemma dispatch_stream ps rest fuel : Forall packet_ok ps → dispatch_packet rest = None →
  (length ps <= fuel)%nat →
  dispatch_all fuel (encode_stream ps ++ rest) = Some (packets_of ps rest, rest).
Proof.
  intros Hok Hrest. revert fuel. induction Hok as [|p ps Hp _ IH]; intros fuel Hf.
  - cbn [encode_stream map concat app]. destruct fuel; cbn [dispatch_all]; by rewrite Hrest.
  - destruct fuel as [|fuel]; [cbn in Hf; lia|]. cbn [dispatch_all packets_of].
    change (encode_stream (p :: ps) ++ rest) with ((encode_packet p ++ encode_stream ps) ++ rest).
    rewrite <- app_assoc, dispatch_encoded by done. cbn [pk_len].
    rewrite drop_app_n by (rewrite length_encode; lia).
    by rewrite IH by (cbn in Hf; lia).
Qed.

Lemma length_stream ps : Forall packet_ok ps → (length ps <= length (encode_stream ps))%nat.
Proof.
  induction 1 as [|p ps Hp _ IH]; [done|].
  change (encode_stream (p :: ps)) with (encode_packet p ++ encode_stream ps).
  rewrite length_app, length_encode. cbn [length]. lia.
Qed.

Lemma dispatch_none_short buf : (length buf < PACKET_HEADER_SIZE)%nat → dispatch_packet buf = None.
Proof. intros Hl. unfold dispatch_packet. by rewrite (proj2 (Nat.ltb_lt _ _)). Qed.

(** A proper prefix of a packet is not dispatched. *)
Lemma dispatch_none_prefix p a b : packet_ok p → a ++ b = encode_packet p → b ≠ [] →
  dispatch_packet a = None.
Proof.
  intros Hp Hab Hb. unfold dispatch_packet. destruct (Nat.ltb_spec (length a) PACKET_HEADER_SIZE); [done|].
  assert (take 2 a = take 2 (encode_packet p)) as Ht.
  { rewrite <- Hab, take_app_le; [done|]. unfold PACKET_HEADER_SIZE in *. lia. }
  pose proof (packet_length_encode p [] Hp) as Hl. rewrite app_nil_r in Hl.
  unfold packet_length in *. rewrite Ht, Hl, Nat2Z.id.
  pose proof (length_encode p) as Hlen. rewrite <- Hab, length_app in Hlen.
  assert (0 < length b)%nat by (destruct b; [done|cbn; lia]).
  by rewrite (proj2 (Nat.ltb_lt _ _)) by lia.
Qed.

(** The fuel of [recv_rest] is enough. *)
Lemma dispatch_all_total buf fuel : (length buf <= fuel)%nat → is_Some (dispatch_all fuel buf).
Proof.
  revert buf. induction fuel as [|fuel IH]; intros buf Hf; cbn [dispatch_all].
  - destruct buf; [by eexists|cbn in Hf; lia].
  - destruct (dispatch_packet buf) as [p|] eqn:Hd; [|by eexists].
    destruct (IH (drop (pk_len p) buf)) as [r ->]; [|by eexists].
    unfold dispatch_packet in Hd. destruct (Nat.ltb_spec (length buf) PACKET_HEADER_SIZE); [done|].
    case_match; [done|]. injection Hd as <-. rewrite length_drop.
    unfold PACKET_HEADER_SIZE in *. cbn [pk_len]. lia.
Qed.

(** A read of whole packets after nothing dangled. *)
Lemma recv_whole ps : Forall packet_ok ps → on_recv [] (encode_stream ps) = Ok ([], packets_of ps []).
Proof.
  intros Hps. unfold on_recv. cbn [length].
  destruct (Nat.ltb_spec (0 + length (encode_stream ps)) PACKET_HEADER_SIZE) as [Hl|Hl].
  - destruct Hps as [|p ps Hp _]; [done|].
    change (encode_stream (p :: ps)) with (encode_packet p ++ encode_stream ps) in Hl.
    rewrite length_app, length_encode in Hl. unfold packet_ok, PACKET_HEADER_SIZE in *. lia.
  - change (0 <? 0)%nat with false. cbv iota. unfold recv_rest.
    pose proof (dispatch_stream ps [] (length (encode_stream ps)) Hps eq_refl (length_stream ps Hps))
      as Hd. rewrite app_nil_r in Hd. by rewrite Hd.
Qed.

(** Framing is right when reads end between packets: a read of any number of
    whole packets, after nothing dangled, hands exactly these packets on, in
    order, and leaves nothing behind. *)
Theorem whole_packets_dispatched (pss : list (list (list Z)))
    (Hok : Forall (Forall packet_ok) pss) :
  ∃ qs, recv_all [] (map encode_stream pss) = Ok ([], qs) /\ map packet_body qs = concat pss.
Proof.
  induction Hok as [|ps pss Hps _ (qs & Hrec & Hqs)]; [by exists []|].
  cbn [map recv_all]. rewrite recv_whole by done. cbn [mbind res_bind]. rewrite Hrec.
  exists (packets_of ps [] ++ qs). split; [done|]. by rewrite map_app, packets_bodies, Hqs.
Qed.

Lemma whole_packets_dispatched_witness :
  ∃ qs, recv_all [] (map encode_stream [[[72]; [90]]; [[83; 1; 2]]]) = Ok ([], qs)
    /\ map packet_body qs = [[72]; [90]; [83; 1; 2]].
Proof.
  apply (whole_packets_dispatched [[[72]; [90]]; [[83; 1; 2]]]).
  repeat constructor; cbn; lia.
Defined.

Lemma defer_ok dangly buf : (length dangly + length buf <= DANGLY_SIZE)%nat →
  defer_bytes dangly buf = Ok (dangly ++ buf).
Proof.
  intros Hl. unfold defer_bytes. destruct buf as [|b buf]; [by rewrite app_nil_r|].
  cbn [length Nat.eqb] in *. by rewrite (proj2 (Nat.ltb_ge _ _)) by lia.
Qed.

(** The session is jammed: the bytes of a packet, and whatever was read since,
    dangle. *)
Definition jammed (p dangly : list Z) : Prop := ∃ rest, dangly = encode_packet p ++ rest.

(** A jammed session swallows every read shorter than the packet. *)
Lemma jammed_swallows p dangly buf : packet_ok p → jammed p dangly →
  (S (length buf) < length p)%nat →
  on_recv dangly buf = dangly ← defer_bytes dangly buf; Ok (dangly, []).
Proof.
  intros Hp (rest & ->) Hb. pose proof (length_encode p) as Hl. unfold packet_ok in Hp.
  unfold on_recv. rewrite !length_app, Hl.
  rewrite (proj2 (Nat.ltb_ge _ _)) by (unfold PACKET_HEADER_SIZE; lia).
  rewrite (proj2 (Nat.ltb_lt 0 _)) by lia.
  rewrite (proj2 (Nat.ltb_ge _ PACKET_HEADER_SIZE)) by (unfold PACKET_HEADER_SIZE; lia).
  cbn [mbind res_bind]. rewrite packet_length_encode by done.
  rewrite (wrap_small 64) by (unfold in_u, PACKET_HEADER_SIZE; lia).
  by rewrite (proj2 (Z.ltb_lt _ _)) by (unfold PACKET_HEADER_SIZE; lia).
Qed.

Lemma split_packet_jams p a b : packet_ok p → (length (encode_packet p) <= DANGLY_SIZE)%nat →
  a ++ b = encode_packet p → a ≠ [] → b ≠ [] →
  recv_all [] [a; b] = Ok (encode_packet p, []).
Proof.
  intros Hp Hsize Hab Ha Hb. pose proof Hp as Hp'. unfold packet_ok in Hp'.
  pose proof (length_encode p) as Hlen. pose proof Hlen as Hlen'. rewrite <- Hab, length_app in Hlen'.
  assert (0 < length a)%nat by (destruct a; [done|cbn; lia]).
  assert (0 < length b)%nat by (destruct b; [done|cbn; lia]).
  assert (∀ (c : list Z) (k : list Packet), recv_rest c [] = Ok (c, [])) as Hnil by done.
  assert (on_recv [] a = Ok (a, [])) as H1.
  { unfold on_recv, recv_rest. cbn [length Nat.add]. change (0 <? 0)%nat with false. cbv iota.
    rewrite (defer_ok [] a) by (cbn; lia). case_match; [done|].
    replace (dispatch_all (length a) a) with (Some (@nil Packet, a)); [by rewrite (defer_ok [] a) by (cbn; lia)|].
    destruct a; [done|]. cbn [length dispatch_all]. by rewrite (dispatch_none_prefix p _ b Hp Hab). }
  cbn [recv_all]. rewrite H1. cbn [mbind res_bind].
  enough (on_recv a b = Ok (encode_packet p, [])) as -> by done.
  unfold on_recv. rewrite (proj2 (Nat.ltb_ge _ _)) by (unfold PACKET_HEADER_SIZE; lia).
  rewrite (proj2 (Nat.ltb_lt 0 _)) by lia.
  set (off := (PACKET_HEADER_SIZE - length a)%nat).
  assert ((if (length a <? PACKET_HEADER_SIZE)%nat
    then dangly ← defer_bytes a (take off b); Ok (dangly, drop off b) else Ok (a, b))
    = Ok (a ++ take off b, drop off b)) as ->.
  { destruct (Nat.ltb_spec (length a) PACKET_HEADER_SIZE).
    - rewrite defer_ok; [done|]. rewrite length_take. lia.
    - subst off. replace (PACKET_HEADER_SIZE - length a)%nat with 0%nat by lia.
      by rewrite take_0, drop_0, app_nil_r. }
  cbn [mbind res_bind].
  assert (packet_length (a ++ take off b) = Z.of_nat (length p)) as ->.
  { pose proof (packet_length_encode p [] Hp) as Hl. rewrite app_nil_r in Hl. rewrite <- Hl.
    unfold packet_length. f_equal. rewrite <- Hab.
    replace (a ++ b) with ((a ++ take off b) ++ drop off b) by (by rewrite <- app_assoc, take_drop).
    rewrite (take_app_le (a ++ take off b) (drop off b)); [done|]. rewrite length_app, length_take. subst off.
    unfold PACKET_HEADER_SIZE. lia. }
  rewrite (wrap_small 64) by (unfold in_u, PACKET_HEADER_SIZE; lia).
  assert ((a ++ take off b) ++ drop off b = encode_packet p) as Hall
    by (by rewrite <- app_assoc, take_drop).
  assert (length (a ++ take off b) + length (drop off b) = 2 + length p)%nat as Hsum
    by (rewrite <- length_app, Hall; done).
  assert (3 <= length (a ++ take off b))%nat as H3.
  { rewrite length_app, length_take. subst off. unfold PACKET_HEADER_SIZE. lia. }
  destruct (Z.ltb_spec (Z.of_nat (length (drop off b)))
    (Z.of_nat (length p) + 2 - Z.of_nat PACKET_HEADER_SIZE)) as [Hlt|Hge].
  - rewrite defer_ok by lia. cbn [mbind res_bind]. by rewrite Hall.
  - unfold PACKET_HEADER_SIZE in Hge.
    rewrite (take_ge (drop off b)), (drop_ge (drop off b)) by (unfold PACKET_HEADER_SIZE; lia).
    rewrite defer_ok by lia. cbn [mbind res_bind]. rewrite Hall. by rewrite Hnil by exact [].
Qed.

(** A packet that arrives in two reads is lost, and the session with it: it
    is put together in the buffer and never dispatched, since [dispatch_packet]
    is called with a length of 0; and because [m_dangly_length] is never reset,
    any number of later reads shorter than that packet are swallowed as well,
    until they overflow the buffer. *)
Theorem split_packet_jams_session (p a b : list Z) (reads : list (list Z))
    (Hp : packet_ok p) (Hsize : (length (encode_packet p) <= DANGLY_SIZE)%nat)
    (Hab : a ++ b = encode_packet p) (Ha : a ≠ []) (Hb : b ≠ [])
    (Hshort : Forall (λ r, S (length r) < length p)%nat reads) :
  (∃ dangly, recv_all [] (a :: b :: reads) = Ok (dangly, []) /\ jammed p dangly
     /\ length dangly = (length (encode_packet p) + length (concat reads))%nat)
  \/ (∃ what, recv_all [] (a :: b :: reads) = Fail what)
     /\ (DANGLY_SIZE < length (encode_packet p) + length (concat reads))%nat.
Proof.
  assert (∀ dangly, jammed p dangly → (length dangly <= DANGLY_SIZE)%nat →
    (∃ dangly', recv_all dangly reads = Ok (dangly', []) /\ jammed p dangly'
      /\ length dangly' = (length dangly + length (concat reads))%nat)
    \/ (∃ what, recv_all dangly reads = Fail what)
       /\ (DANGLY_SIZE < length dangly + length (concat reads))%nat) as Hreads.
  { induction Hshort as [|r reads Hr _ IH]; intros dangly Hj Hl.
    - left. exists dangly. split; [done|]. split; [done|]. cbn. lia.
    - cbn [recv_all concat]. rewrite (jammed_swallows p) by done. rewrite length_app.
      destruct (Nat.le_gt_cases (length dangly + length r) DANGLY_SIZE) as [Hfit|Hover].
      + rewrite defer_ok by done. cbn [mbind res_bind].
        destruct (IH (dangly ++ r)) as [(d & Hd & Hjd & Hld)|[[what Hw] Hov]].
        * destruct Hj as (rest & ->). exists (rest ++ r). by rewrite <- app_assoc.
        * by rewrite length_app.
        * left. exists d. rewrite Hd. cbn [mbind res_bind]. rewrite length_app in Hld.
          split; [done|]. split; [done|]. lia.
        * right. rewrite Hw. cbn [mbind res_bind]. rewrite length_app in Hov.
          split; [by eexists|lia].
      + right. unfold defer_bytes. destruct r as [|x r]; [cbn in Hover; lia|].
        cbn [length Nat.eqb] in *. rewrite (proj2 (Nat.ltb_lt _ _)) by lia.
        cbn [mbind res_bind]. split; [by eexists|lia]. }
  pose proof (split_packet_jams p a b Hp Hsize Hab Ha Hb) as Hjam. cbn [recv_all] in *.
  destruct (on_recv [] a) as [[d1 q1]|]; [|done]. cbn [mbind res_bind] in *.
  destruct (on_recv d1 b) as [[d2 q2]|]; [|done]. cbn [mbind res_bind] in *.
  injection Hjam as -> Hq. apply app_nil in Hq as [-> Hq]. apply app_nil in Hq as [-> _].
  destruct (Hreads (encode_packet p)) as [(d & Hd & Hjd & Hld)|[[what Hw] Hov]];
    [by exists []; rewrite app_nil_r|done|left|right].
  - exists d. by rewrite Hd.
  - rewrite Hw. split; [by eexists|done].
Qed.

Lemma split_packet_jams_session_witness :
  (∃ dangly, recv_all [] [[0]; [3; 72; 1; 1]; [0]] = Ok (dangly, []) /\ jammed [72; 1; 1] dangly
     /\ length dangly = 6%nat)
  \/ (∃ what, recv_all [] [[0]; [3; 72; 1; 1]; [0]] = Fail what) /\ (DANGLY_SIZE < 6)%nat.
Proof.
  refine (split_packet_jams_session [72; 1; 1] [0] [3; 72; 1; 1] [[0]] _ _ _ _ _ _);
    [unfold packet_ok; cbn; lia|apply Nat.leb_le; reflexivity|reflexivity|discriminate|discriminate|].
  constructor; [cbn; lia|constructor].
Defined.
