(* ===== verification/Ouch42Wire.v ===== *)
(** * OUCH 4.2 on the wire (src/oe/NASDAQ/OUCH42/Types.hpp, Types.cpp, Messages.hpp)

    The packed messages of the protocol, with their codecs.  A field that the
    session always converts with [htonl] or [be64toh] holds its value here; the
    unions [Price] and [TimeInForce] are used both ways by the code, and hold
    the integer as it lies in memory.  Enumerations are their bytes. *)

From S2P Require Import Prelude Dbl Types Alphanum Codec SoupBin.

(** [htonl], which is [be32toh]. *)
Definition htonl (z : Z) : Z := le_val (be_bytes 4 z).

Lemma le_val_range l : Forall is_byte l → 0 <= le_val l < 256 ^ Z.of_nat (length l).
Proof.
  induction 1 as [|b l Hb _ IH]; cbn [le_val length]; [cbn; lia|].
  rewrite Nat2Z.inj_succ, Z.pow_succ_r by lia. unfold is_byte in Hb. nia.
Qed.
Lemma le_bytes_val l : Forall is_byte l → le_bytes (length l) (le_val l) = l.
Proof.
  induction 1 as [|b l Hb _ IH]; cbn [length le_bytes le_val]; [done|]. unfold is_byte in Hb.
  pose proof (Z.mod_unique (b + 256 * le_val l) 256 (le_val l) b) as Hm.
  pose proof (Z.div_unique (b + 256 * le_val l) 256 (le_val l) b) as Hd.
  rewrite <- Hm, <- Hd by lia. by rewrite IH.
Qed.
Lemma be_bytes_are_bytes n z : Forall is_byte (be_bytes n z).
Proof. unfold be_bytes. rewrite Forall_reverse. apply le_bytes_are_bytes. Qed.

Lemma htonl_range z : in_u 32 (htonl z).
Proof.
  pose proof (le_val_range (be_bytes 4 z) (be_bytes_are_bytes 4 z)) as H.
  by rewrite length_be_bytes in H.
Qed.
Lemma htonl_twice z : in_u 32 z → htonl (htonl z) = z.
Proof.
  intros Hz. unfold htonl at 1. unfold be_bytes at 1.
  pose proof (le_bytes_val (be_bytes 4 z) (be_bytes_are_bytes 4 z)) as H.
  rewrite length_be_bytes in H. unfold htonl. rewrite H. unfold be_bytes.
  rewrite reverse_involutive. by apply le_val_bytes.
Qed.
#[export] Hint Resolve htonl_range : i01.

(** Values that fit their fields. *)
Lemma valid_byte x : is_byte x → c_valid (c_uint 1) x.
Proof. unfold is_byte. cbn. lia. Qed.
Lemma valid_u32 x : in_u 32 x → c_valid (c_uint 4) x.
Proof. unfold in_u. cbn. lia. Qed.
Lemma valid_be32 x : in_u 32 x → c_valid (c_be 4) x.
Proof. unfold in_u. cbn. lia. Qed.
Lemma valid_be64 x : in_u 64 x → c_valid (c_be 8) x.
Proof. unfold in_u. cbn. lia. Qed.
Create HintDb codec.
#[export] Hint Resolve valid_byte valid_u32 valid_be32 valid_be64 : codec.

(** Opens the validity of a record codec that has been unfolded. *)
Ltac valid_fields :=
  cbn [c_valid c_record c_pair fst snd];
  repeat match goal with |- c_valid (c_pair _ _) _ /\ _ => split | |- _ /\ c_valid _ _ => split end;
  auto with codec.

(** ** Price *)

Definition MAXIMUM_PRICE : Z := 2000000000 - 100.              (* 0x7735939C *)
Definition MARKET_CROSS_SPECIAL_PRICE : Z := 2147483647.       (* 0x7FFFFFFF *)

Section Price.
Context {D : Type} `{Dbl D}.
(** The cast to [PriceRaw] keeps the low 32 bits of a 64-bit truncation. *)
Definition set_limit (new_price : D) : Z :=
  htonl (u32 (d_to_i64 (new_price * d_of_Z 10000 + d_lit 1 2)%dbl)).
Definition set_market : Z := htonl MARKET_CROSS_SPECIAL_PRICE.
Definition price_is_market (raw : Z) : bool := raw =? MARKET_CROSS_SPECIAL_PRICE.
Definition get_limit (raw : Z) : D :=
  (d_of_Z (Z.min MAXIMUM_PRICE (htonl raw)) / d_of_Z 10000)%dbl.
End Price.

(** ** Time in force *)

Definition TIFS_IMMEDIATE_OR_CANCEL : Z := 0.
Definition TIFS_MARKET_HOURS : Z := 99998.
Definition TIFS_SYSTEM_HOURS : Z := 99999.
Definition BIG_ENDIAN_MARKET_HOURS : Z := 2659582208.          (* 0x9E860100 *)
Definition BIG_ENDIAN_SYSTEM_HOURS : Z := 2676359424.          (* 0x9F860100 *)

Definition set_ioc : Z := TIFS_IMMEDIATE_OR_CANCEL.
Definition set_market_hours : Z := BIG_ENDIAN_MARKET_HOURS.
Definition set_system_hours : Z := BIG_ENDIAN_SYSTEM_HOURS.
Definition to_i01_tif (raw : Z) : TimeInForce :=
  if raw =? TIFS_IMMEDIATE_OR_CANCEL then IMMEDIATE_OR_CANCEL
  else if (raw =? BIG_ENDIAN_MARKET_HOURS) || (raw =? TIFS_MARKET_HOURS) then DAY
  else if (raw =? BIG_ENDIAN_SYSTEM_HOURS) || (raw =? TIFS_SYSTEM_HOURS) then EXT
  else TIMED.

(** ** Enumerations *)

Definition MSG_ENTER_ORDER : Z := 79.
Definition MSG_REPLACE_ORDER : Z := 85.
Definition MSG_CANCEL_ORDER : Z := 88.
Definition MSG_MODIFY_ORDER : Z := 77.

Inductive OutboundMessageType :=
| SYSTEM_EVENT | ACCEPTED | REPLACED | CANCELED | AIQ_CANCELLED | EXECUTED | BROKEN_TRADE
| REJECTED | CANCEL_PENDING | CANCEL_REJECT | ORDER_PRIORITY_UPDATE | ORDER_MODIFIED.
#[export] Instance OutboundMessageType_eq_dec : EqDecision OutboundMessageType.
Proof. solve_decision. Defined.
Definition OutboundMessageType_to_Z (t : OutboundMessageType) : Z :=
  match t with
  | SYSTEM_EVENT => 83 | ACCEPTED => 65 | REPLACED => 85 | CANCELED => 67 | AIQ_CANCELLED => 68
  | EXECUTED => 69 | BROKEN_TRADE => 66 | REJECTED => 74 | CANCEL_PENDING => 80
  | CANCEL_REJECT => 73 | ORDER_PRIORITY_UPDATE => 84 | ORDER_MODIFIED => 77
  end.
Definition OutboundMessageTypes : list OutboundMessageType :=
  [SYSTEM_EVENT; ACCEPTED; REPLACED; CANCELED; AIQ_CANCELLED; EXECUTED; BROKEN_TRADE; REJECTED;
   CANCEL_PENDING; CANCEL_REJECT; ORDER_PRIORITY_UPDATE; ORDER_MODIFIED].
Definition OutboundMessageType_of_Z (z : Z) : option OutboundMessageType :=
  snd <$> list_find (λ t, OutboundMessageType_to_Z t = z) OutboundMessageTypes.
Lemma OutboundMessageType_of_to_Z t : OutboundMessageType_of_Z (OutboundMessageType_to_Z t) = Some t.
Proof. by destruct t. Qed.

Definition BSI_BUY : Z := 66.
Definition BSI_SELL : Z := 83.
Definition BSI_SHORT : Z := 84.
Definition BSI_SHORT_EXEMPT : Z := 69.
Definition to_i01_side (bs : Z) : Side :=
  if bs =? BSI_BUY then BUY
  else if bs =? BSI_SELL then SELL
  else if bs =? BSI_SHORT then SHORT
  else if bs =? BSI_SHORT_EXEMPT then SHORT_EXEMPT else SIDE_UNKNOWN.

Definition ISO_ELIGIBLE : Z := 89.
Definition ISO_NOT_ELIGIBLE : Z := 78.
Definition NO_CROSS : Z := 78.
Definition OPENING_CROSS : Z := 79.
Definition CLOSING_CROSS : Z := 67.
Definition HALT_OR_IPO_CROSS : Z := 72.
Definition CUSTOMER_USE_DEFAULT : Z := 32.
Definition STATE_LIVE : Z := 76.
Definition STATE_DEAD : Z := 68.

(** ** Order tokens: fourteen characters, which [HPRData] divides *)

Definition hpr_marking (token : list Z) : Z := default 0 (head token).
Definition hpr_symbol (token : list Z) : list Z := take 5 (drop 1 token).
Definition hpr_id (token : list Z) : list Z := take 8 (drop 6 token).
Definition token_id (token : list Z) : Z := alnum_get order_id_format 32 (hpr_id token).
Definition mk_token (marking : Z) (symbol : list Z) (id : Z) : list Z :=
  marking :: symbol ++ (alnum_set order_id_format id).1.

(** ** Messages to the exchange *)

Record EnterOrder := mkEnterOrder {
  eo_message_type : Z; eo_order_token : list Z; eo_buy_sell_indicator : Z; eo_shares : Z;
  eo_stock : list Z; eo_price : Z; eo_time_in_force : Z; eo_firm : list Z; eo_display : Z;
  eo_capacity : Z; eo_iso_eligibility : Z; eo_minimum_quantity : Z; eo_cross_type : Z;
  eo_customer_type : Z
}.
Record ReplaceOrder := mkReplaceOrder {
  ro_message_type : Z; ro_existing_order_token : list Z; ro_replacement_order_token : list Z;
  ro_shares : Z; ro_price : Z; ro_time_in_force : Z; ro_display : Z; ro_iso_eligibility : Z;
  ro_minimum_quantity : Z
}.
Record CancelOrder := mkCancelOrder {
  co_message_type : Z; co_order_token : list Z; co_shares : Z
}.
Record ModifyOrder := mkModifyOrder {
  mo_message_type : Z; mo_order_token : list Z; mo_buy_sell_indicator : Z; mo_shares : Z
}.

(** ** Messages from the exchange *)

Record OutboundMessageHeader := mkMH { mh_message_type : Z; mh_exch_time : Z }.
Record OutboundOrderMessageHeader := mkOMH {
  omh_message_type : Z; omh_exch_time : Z; omh_order_token : list Z
}.
Record SystemEvent := mkSystemEvent { sy_hdr : OutboundMessageHeader; sy_event_code : Z }.
Record Accepted := mkAccepted {
  ac_hdr : OutboundOrderMessageHeader; ac_buy_sell_indicator : Z; ac_shares : Z;
  ac_stock : list Z; ac_price : Z; ac_time_in_force : Z; ac_firm : list Z; ac_display : Z;
  ac_order_reference_number : Z; ac_capacity : Z; ac_iso_eligibility : Z;
  ac_minimum_quantity : Z; ac_cross_type : Z; ac_order_state : Z; ac_bbo_weight_indicator : Z
}.
Record Replaced := mkReplaced {
  re_hdr : OutboundOrderMessageHeader; re_buy_sell_indicator : Z; re_shares : Z;
  re_stock : list Z; re_price : Z; re_time_in_force : Z; re_firm : list Z; re_display : Z;
  re_order_reference_number : Z; re_capacity : Z; re_iso_eligibility : Z;
  re_minimum_quantity : Z; re_cross_type : Z; re_order_state : Z;
  re_previous_order_token : list Z; re_bbo_weight_indicator : Z
}.
Record Canceled := mkCanceled {
  ca_hdr : OutboundOrderMessageHeader; ca_decremented_shares : Z; ca_reason : Z
}.
Record AIQCanceled := mkAIQCanceled {
  aq_hdr : OutboundOrderMessageHeader; aq_decremented_shares : Z; aq_reason : Z;
  aq_quantity_prevented_from_trading : Z; aq_execution_price : Z; aq_liquidity_flag : Z
}.
Record Executed := mkExecuted {
  ex_hdr : OutboundOrderMessageHeader; ex_executed_shares : Z; ex_execution_price : Z;
  ex_liquidity_flag : Z; ex_match_number : Z
}.
Record BrokenTrade := mkBrokenTrade {
  bt_hdr : OutboundOrderMessageHeader; bt_match_number : Z; bt_reason : Z
}.
Record Rejected := mkRejected { rj_hdr : OutboundOrderMessageHeader; rj_reason : Z }.
Record CancelPending := mkCancelPending { cp_hdr : OutboundOrderMessageHeader }.
Record CancelReject := mkCancelReject { cj_hdr : OutboundOrderMessageHeader }.
Record OrderPriorityUpdate := mkPriorityUpdate {
  pu_hdr : OutboundOrderMessageHeader; pu_execution_price : Z; pu_display : Z;
  pu_order_reference_number : Z
}.
Record Modified := mkModified {
  md_hdr : OutboundOrderMessageHeader; md_buy_sell_indicator : Z; md_shares : Z
}.

(** ** Layout *)

Definition c_OrderToken : Codec (list Z) := c_array 14.
Definition c_Stock : Codec (list Z) := c_array 8.
Definition c_Firm : Codec (list Z) := c_array 4.
Definition c_EnterOrder : Codec EnterOrder :=
  c_record
    (λ '(ty, tok, bs, sh, st, px, tif, fi, di, cap, iso, mq, cr, cu),
       mkEnterOrder ty tok bs sh st px tif fi di cap iso mq cr cu)
    (λ m, (eo_message_type m, eo_order_token m, eo_buy_sell_indicator m, eo_shares m, eo_stock m,
           eo_price m, eo_time_in_force m, eo_firm m, eo_display m, eo_capacity m,
           eo_iso_eligibility m, eo_minimum_quantity m, eo_cross_type m, eo_customer_type m))
    (c_uint 1 *c c_OrderToken *c c_uint 1 *c c_be 4 *c c_Stock *c c_uint 4 *c c_uint 4
     *c c_Firm *c c_uint 1 *c c_uint 1 *c c_uint 1 *c c_be 4 *c c_uint 1 *c c_uint 1).
Definition c_CancelOrder : Codec CancelOrder :=
  c_record (λ p, mkCancelOrder p.1.1 p.1.2 p.2)
    (λ m, (co_message_type m, co_order_token m, co_shares m))
    (c_uint 1 *c c_OrderToken *c c_be 4).
Definition c_ReplaceOrder : Codec ReplaceOrder :=
  c_record (λ '(ty, t1, t2, sh, px, tif, di, iso, mq), mkReplaceOrder ty t1 t2 sh px tif di iso mq)
    (λ m, (ro_message_type m, ro_existing_order_token m, ro_replacement_order_token m,
           ro_shares m, ro_price m, ro_time_in_force m, ro_display m, ro_iso_eligibility m,
           ro_minimum_quantity m))
    (c_uint 1 *c c_OrderToken *c c_OrderToken *c c_be 4 *c c_uint 4 *c c_uint 4 *c c_uint 1
     *c c_uint 1 *c c_be 4).
Definition c_ModifyOrder : Codec ModifyOrder :=
  c_record (λ p, mkModifyOrder p.1.1.1 p.1.1.2 p.1.2 p.2)
    (λ m, (mo_message_type m, mo_order_token m, mo_buy_sell_indicator m, mo_shares m))
    (c_uint 1 *c c_OrderToken *c c_uint 1 *c c_be 4).

Definition c_MH : Codec OutboundMessageHeader :=
  c_record (λ p, mkMH p.1 p.2) (λ m, (mh_message_type m, mh_exch_time m)) (c_uint 1 *c c_be 8).
Definition c_OMH : Codec OutboundOrderMessageHeader :=
  c_record (λ p, mkOMH p.1.1 p.1.2 p.2)
    (λ m, (omh_message_type m, omh_exch_time m, omh_order_token m))
    (c_uint 1 *c c_be 8 *c c_OrderToken).
Definition c_SystemEvent : Codec SystemEvent :=
  c_record (λ p, mkSystemEvent p.1 p.2) (λ m, (sy_hdr m, sy_event_code m)) (c_MH *c c_uint 1).
Definition c_Accepted : Codec Accepted :=
  c_record
    (λ '(h, bs, sh, st, px, tif, fi, di, ref, cap, iso, mq, cr, state, bbo),
       mkAccepted h bs sh st px tif fi di ref cap iso mq cr state bbo)
    (λ m, (ac_hdr m, ac_buy_sell_indicator m, ac_shares m, ac_stock m, ac_price m,
           ac_time_in_force m, ac_firm m, ac_display m, ac_order_reference_number m,
           ac_capacity m, ac_iso_eligibility m, ac_minimum_quantity m, ac_cross_type m,
           ac_order_state m, ac_bbo_weight_indicator m))
    (c_OMH *c c_uint 1 *c c_be 4 *c c_Stock *c c_uint 4 *c c_uint 4 *c c_Firm *c c_uint 1
     *c c_be 8 *c c_uint 1 *c c_uint 1 *c c_be 4 *c c_uint 1 *c c_uint 1 *c c_uint 1).
Definition c_Replaced : Codec Replaced :=
  c_record
    (λ '(h, bs, sh, st, px, tif, fi, di, ref, cap, iso, mq, cr, state, prev, bbo),
       mkReplaced h bs sh st px tif fi di ref cap iso mq cr state prev bbo)
    (λ m, (re_hdr m, re_buy_sell_indicator m, re_shares m, re_stock m, re_price m,
           re_time_in_force m, re_firm m, re_display m, re_order_reference_number m,
           re_capacity m, re_iso_eligibility m, re_minimum_quantity m, re_cross_type m,
           re_order_state m, re_previous_order_token m, re_bbo_weight_indicator m))
    (c_OMH *c c_uint 1 *c c_be 4 *c c_Stock *c c_uint 4 *c c_uint 4 *c c_Firm *c c_uint 1
     *c c_be 8 *c c_uint 1 *c c_uint 1 *c c_be 4 *c c_uint 1 *c c_uint 1 *c c_OrderToken
     *c c_uint 1).
Definition c_Canceled : Codec Canceled :=
  c_record (λ p, mkCanceled p.1.1 p.1.2 p.2)
    (λ m, (ca_hdr m, ca_decremented_shares m, ca_reason m)) (c_OMH *c c_be 4 *c c_uint 1).
Definition c_AIQCanceled : Codec AIQCanceled :=
  c_record (λ '(h, sh, re, q, px, lf), mkAIQCanceled h sh re q px lf)
    (λ m, (aq_hdr m, aq_decremented_shares m, aq_reason m,
           aq_quantity_prevented_from_trading m, aq_execution_price m, aq_liquidity_flag m))
    (c_OMH *c c_be 4 *c c_uint 1 *c c_be 4 *c c_uint 4 *c c_uint 1).
Definition c_Executed : Codec Executed :=
  c_record (λ '(h, sh, px, lf, mn), mkExecuted h sh px lf mn)
    (λ m, (ex_hdr m, ex_executed_shares m, ex_execution_price m, ex_liquidity_flag m,
           ex_match_number m))
    (c_OMH *c c_be 4 *c c_uint 4 *c c_uint 1 *c c_be 8).
Definition c_BrokenTrade : Codec BrokenTrade :=
  c_record (λ p, mkBrokenTrade p.1.1 p.1.2 p.2) (λ m, (bt_hdr m, bt_match_number m, bt_reason m))
    (c_OMH *c c_be 8 *c c_uint 1).
Definition c_Rejected : Codec Rejected :=
  c_record (λ p, mkRejected p.1 p.2) (λ m, (rj_hdr m, rj_reason m)) (c_OMH *c c_uint 1).
Definition c_CancelPending : Codec CancelPending := c_record mkCancelPending cp_hdr c_OMH.
Definition c_CancelReject : Codec CancelReject := c_record mkCancelReject cj_hdr c_OMH.
Definition c_OrderPriorityUpdate : Codec OrderPriorityUpdate :=
  c_record (λ p, mkPriorityUpdate p.1.1.1 p.1.1.2 p.1.2 p.2)
    (λ m, (pu_hdr m, pu_execution_price m, pu_display m, pu_order_reference_number m))
    (c_OMH *c c_uint 4 *c c_uint 1 *c c_be 8).
Definition c_Modified : Codec Modified :=
  c_record (λ p, mkModified p.1.1 p.1.2 p.2)
    (λ m, (md_hdr m, md_buy_sell_indicator m, md_shares m)) (c_OMH *c c_uint 1 *c c_be 4).

#[export] Instance c_EnterOrder_ok : CodecOk c_EnterOrder.
Proof. solve_codec. Qed.
#[export] Instance c_CancelOrder_ok : CodecOk c_CancelOrder.
Proof. solve_codec. Qed.
#[export] Instance c_ReplaceOrder_ok : CodecOk c_ReplaceOrder.
Proof. solve_codec. Qed.
#[export] Instance c_ModifyOrder_ok : CodecOk c_ModifyOrder.
Proof. solve_codec. Qed.
#[export] Instance c_OMH_ok : CodecOk c_OMH.
Proof. solve_codec. Qed.
#[export] Instance c_MH_ok : CodecOk c_MH.
Proof. solve_codec. Qed.
#[export] Instance c_SystemEvent_ok : CodecOk c_SystemEvent.
Proof. solve_codec. Qed.
#[export] Instance c_Accepted_ok : CodecOk c_Accepted.
Proof. solve_codec. Qed.
#[export] Instance c_Replaced_ok : CodecOk c_Replaced.
Proof. solve_codec. Qed.
#[export] Instance c_Canceled_ok : CodecOk c_Canceled.
Proof. solve_codec. Qed.
#[export] Instance c_AIQCanceled_ok : CodecOk c_AIQCanceled.
Proof. solve_codec. Qed.
#[export] Instance c_Executed_ok : CodecOk c_Executed.
Proof. solve_codec. Qed.
#[export] Instance c_BrokenTrade_ok : CodecOk c_BrokenTrade.
Proof. solve_codec. Qed.
#[export] Instance c_Rejected_ok : CodecOk c_Rejected.
Proof. solve_codec. Qed.
#[export] Instance c_CancelPending_ok : CodecOk c_CancelPending.
Proof. apply c_record_ok; [by intros [[]]|apply _]. Qed.
#[export] Instance c_CancelReject_ok : CodecOk c_CancelReject.
Proof. apply c_record_ok; [by intros [[]]|apply _]. Qed.
#[export] Instance c_OrderPriorityUpdate_ok : CodecOk c_OrderPriorityUpdate.
Proof. solve_codec. Qed.
#[export] Instance c_Modified_ok : CodecOk c_Modified.
Proof. solve_codec. Qed.
