(* ===== verification/OrderLog.v ===== *)
(** * The order log format (src/oe/i01_oe/OrderLogFormat.hpp, src/oe/OrderLogFormat.cpp)

    The packed structs of version 1 of the format, each with its codec, the
    message header, and the text of a session name.  Enumerations are stored as
    their 32-bit values.  [MD::EphemeralSymbolIndex] is defined outside the
    repository: its width in bytes, [esi_bytes], is a parameter. *)

From S2P Require Import Prelude Dbl Time Types Codec.

Definition MAGIC_NUMBER : Z := 1330398793.  (* 0x4F4C4649 *)
Definition FILE_TERMINATOR : Z := 3735928559. (* 0xDEADBEEF *)
Definition MESSAGE_HEADER_SIZE : Z := 20.

(** ** Text *)

Fixpoint string_bytes (s : string) : list Z :=
  match s with
  | EmptyString => []
  | String c s' => Z.of_nat (Ascii.nat_of_ascii c) :: string_bytes s'
  end.
Fixpoint bytes_string (l : list Z) : string :=
  match l with
  | [] => EmptyString
  | b :: l' => String (Ascii.ascii_of_nat (Z.to_nat b)) (bytes_string l')
  end.

(** [strncpy] into a field of [n] bytes: up to the first NUL, zero filled. *)
Fixpoint until_nul (l : list Z) : list Z :=
  match l with
  | [] => []
  | b :: l' => if b =? 0 then [] else b :: until_nul l'
  end.
Definition strncpy (n : nat) (s : string) : list Z :=
  let t := take n (until_nul (string_bytes s)) in t ++ replicate (n - length t) 0.

Definition isprint (c : Z) : bool := (32 <=? c) && (c <=? 126).

(** [array_render_helper]: printable bytes up to the first NUL; the padding
    stands for everything else, when it is printable itself. *)
Fixpoint array_render_helper (padding : Z) (ended : bool) (arr : list Z) : list Z :=
  match arr with
  | [] => []
  | c :: arr' =>
      let ended := ended || (c =? 0) in
      let pad := if isprint padding then [padding] else [] in
      (if negb ended && isprint c then [c] else pad)
        ++ array_render_helper padding ended arr'
  end.

(** [SessionName], the eight bytes of the union. *)
Definition SessionName := list Z.
Definition string_to_session_name (s : string) : SessionName := strncpy 8 s.
Definition session_name_to_string (n : SessionName) : string :=
  bytes_string (array_render_helper 0 false n).

(** ** Bodies *)

Record FileHeader := mkFileHeader {
  fh_magic_number : Z; fh_version : Z; fh_git_commit_sha1 : list Z
}.
(** [reset()]; [version] and [commit] are generated at build time, and the hash
    field keeps its [old] bytes unless the commit has exactly 40 characters. *)
Definition FileHeader_reset (version : Z) (commit : string) (old : list Z) : FileHeader :=
  let c := until_nul (string_bytes commit) in
  mkFileHeader MAGIC_NUMBER version (if (length c =? 40)%nat then c else old).

Record OrderIdentifier := mkOid {
  oid_local_account : Z; oid_local_id : Z; oid_session_name : SessionName
}.
Record NewInstrumentBody := mkNewInst {
  ni_esi : Z; ni_listing_market : Z; ni_symbol : list Z; ni_bloomberg : list Z
}.
Record ManualPositionAdjBody := mkAdj {
  ma_esi : Z; ma_delta_trading_qty : Z; ma_delta_start_qty : Z
}.
Record NewSessionBody := mkNewSession { ns_name : SessionName; ns_market_mic : Z }.
Record OrderAckBody := mkAck { ak_oid : OrderIdentifier; ak_open_size : Z; ak_exchange_ts : Z }.
Record OrderCxlReqBody := mkCxlReq { cr_oid : OrderIdentifier; cr_new_qty : Z }.
Record OrderCxlBody := mkCxl { cx_oid : OrderIdentifier; cx_cxled_qty : Z; cx_exchange_ts : Z }.
Record OrderRejectBody := mkReject { rj_oid : OrderIdentifier; rj_exchange_ts : Z }.
Record NewAccountBody := mkAccount { na_la : Z; na_name : list Z }.

Record NewOrderBody (D : Type) := mkNewOrder {
  no_instrument_esi : Z;
  no_market_mic : Z;
  no_oid : OrderIdentifier;
  no_client_order_id : list Z;
  no_orig_price : D;
  no_size : Z;
  no_side : Z;
  no_tif : Z;
  no_type : Z;
  no_user_data : Z
}.
Arguments mkNewOrder {D}.
Arguments no_instrument_esi {D} _.
Arguments no_market_mic {D} _.
Arguments no_oid {D} _.
Arguments no_client_order_id {D} _.
Arguments no_orig_price {D} _.
Arguments no_size {D} _.
Arguments no_side {D} _.
Arguments no_tif {D} _.
Arguments no_type {D} _.
Arguments no_user_data {D} _.

Record OrderFillBody (D : Type) := mkFill {
  fl_oid : OrderIdentifier; fl_filled_qty : Z; fl_filled_price : D;
  fl_filled_fee_code : Z; fl_exchange_ts : Z
}.
Arguments mkFill {D}.
Arguments fl_oid {D} _.
Arguments fl_filled_qty {D} _.
Arguments fl_filled_price {D} _.
Arguments fl_filled_fee_code {D} _.
Arguments fl_exchange_ts {D} _.

Record PositionBody (D : Type) := mkPositionBody {
  po_source : Z; po_instrument : NewInstrumentBody; po_qty : Z; po_avg_price : D; po_mark_price : D
}.
Arguments mkPositionBody {D}.
Arguments po_source {D} _.
Arguments po_instrument {D} _.
Arguments po_qty {D} _.
Arguments po_avg_price {D} _.
Arguments po_mark_price {D} _.

Record CxlReplaceBody (D : Type) := mkCxlReplace {
  cp_old_oid : OrderIdentifier; cp_new_order : NewOrderBody D
}.
Arguments mkCxlReplace {D}.
Arguments cp_old_oid {D} _.
Arguments cp_new_order {D} _.

(** A message body, by [MessageType]. *)
Inductive LogBody (D : Type) :=
| LB_TIMESTAMP (ts : Timestamp)
| LB_START_OF_LOG (h : FileHeader)
| LB_END_OF_LOG (terminator : Z)
| LB_NEW_INSTRUMENT (b : NewInstrumentBody)
| LB_NEW_ORDER (b : NewOrderBody D)
| LB_ORDER_LOCAL_REJECT (order : NewOrderBody D)
| LB_ORDER_SENT (order : NewOrderBody D)
| LB_ORDER_ACKNOWLEDGEMENT (b : OrderAckBody)
| LB_ORDER_PARTIAL_FILL (b : OrderFillBody D)
| LB_ORDER_FILL (b : OrderFillBody D)
| LB_ORDER_CANCEL_REQUEST (b : OrderCxlReqBody)
| LB_ORDER_PARTIAL_CANCEL (b : OrderCxlBody)
| LB_ORDER_CANCEL (b : OrderCxlBody)
| LB_ORDER_CXLREPL_REQUEST (b : CxlReplaceBody D)
| LB_ORDER_CANCEL_REPLACE (b : CxlReplaceBody D)
| LB_ORDER_REMOTE_REJECT (b : OrderRejectBody)
| LB_ORDER_CANCEL_REJECT (b : OrderRejectBody)
| LB_ORDER_DESTROY (oid : OrderIdentifier)
| LB_POSITION (b : PositionBody D)
| LB_MANUAL_POSITION_ADJ (b : ManualPositionAdjBody)
| LB_NEW_SESSION (b : NewSessionBody)
| LB_ORDER_SESSION_DATA (oid : OrderIdentifier)
| LB_NEW_ACCOUNT (b : NewAccountBody).
Arguments LB_TIMESTAMP {D}.
Arguments LB_START_OF_LOG {D}.
Arguments LB_END_OF_LOG {D}.
Arguments LB_NEW_INSTRUMENT {D}.
Arguments LB_NEW_ORDER {D}.
Arguments LB_ORDER_LOCAL_REJECT {D}.
Arguments LB_ORDER_SENT {D}.
Arguments LB_ORDER_ACKNOWLEDGEMENT {D}.
Arguments LB_ORDER_PARTIAL_FILL {D}.
Arguments LB_ORDER_FILL {D}.
Arguments LB_ORDER_CANCEL_REQUEST {D}.
Arguments LB_ORDER_PARTIAL_CANCEL {D}.
Arguments LB_ORDER_CANCEL {D}.
Arguments LB_ORDER_CXLREPL_REQUEST {D}.
Arguments LB_ORDER_CANCEL_REPLACE {D}.
Arguments LB_ORDER_REMOTE_REJECT {D}.
Arguments LB_ORDER_CANCEL_REJECT {D}.
Arguments LB_ORDER_DESTROY {D}.
Arguments LB_POSITION {D}.
Arguments LB_MANUAL_POSITION_ADJ {D}.
Arguments LB_NEW_SESSION {D}.
Arguments LB_ORDER_SESSION_DATA {D}.
Arguments LB_NEW_ACCOUNT {D}.

Definition MessageType_to_Z {D} (b : LogBody D) : Z :=
  match b with
  | LB_TIMESTAMP _ => 1
  | LB_START_OF_LOG _ => 2
  | LB_END_OF_LOG _ => 3
  | LB_NEW_INSTRUMENT _ => 4
  | LB_NEW_ORDER _ => 5
  | LB_ORDER_LOCAL_REJECT _ => 6
  | LB_ORDER_SENT _ => 7
  | LB_ORDER_ACKNOWLEDGEMENT _ => 8
  | LB_ORDER_PARTIAL_FILL _ => 9
  | LB_ORDER_FILL _ => 10
  | LB_ORDER_CANCEL_REQUEST _ => 11
  | LB_ORDER_PARTIAL_CANCEL _ => 12
  | LB_ORDER_CANCEL _ => 13
  | LB_ORDER_CXLREPL_REQUEST _ => 14
  | LB_ORDER_CANCEL_REPLACE _ => 15
  | LB_ORDER_REMOTE_REJECT _ => 16
  | LB_ORDER_CANCEL_REJECT _ => 17
  | LB_ORDER_DESTROY _ => 18
  | LB_POSITION _ => 19
  | LB_MANUAL_POSITION_ADJ _ => 20
  | LB_NEW_SESSION _ => 21
  | LB_ORDER_SESSION_DATA _ => 22
  | LB_NEW_ACCOUNT _ => 23
  end.

Record Message (D : Type) := mkMsg { m_timestamp : Timestamp; m_body : LogBody D }.
Arguments mkMsg {D}.
Arguments m_timestamp {D} _.
Arguments m_body {D} _.

(** ** Layout *)

Definition c_timespec : Codec Timestamp :=
  c_record (λ p, mkTs p.1 p.2) (λ t, (tv_sec t, tv_nsec t)) (c_int 8 *c c_int 8).
Definition c_FileHeader : Codec FileHeader :=
  c_record (λ p, mkFileHeader p.1.1 p.1.2 p.2)
    (λ h, (fh_magic_number h, fh_version h, fh_git_commit_sha1 h))
    (c_uint 4 *c c_uint 8 *c c_array 40).
Definition c_OrderIdentifier : Codec OrderIdentifier :=
  c_record (λ p, mkOid p.1.1 p.1.2 p.2)
    (λ o, (oid_local_account o, oid_local_id o, oid_session_name o))
    (c_uint 2 *c c_uint 4 *c c_array 8).
Definition c_NewSessionBody : Codec NewSessionBody :=
  c_record (λ p, mkNewSession p.1 p.2) (λ b, (ns_name b, ns_market_mic b))
    (c_array 8 *c c_int 4).
Definition c_OrderAckBody : Codec OrderAckBody :=
  c_record (λ p, mkAck p.1.1 p.1.2 p.2) (λ b, (ak_oid b, ak_open_size b, ak_exchange_ts b))
    (c_OrderIdentifier *c c_uint 4 *c c_uint 8).
Definition c_OrderCxlReqBody : Codec OrderCxlReqBody :=
  c_record (λ p, mkCxlReq p.1 p.2) (λ b, (cr_oid b, cr_new_qty b))
    (c_OrderIdentifier *c c_uint 4).
Definition c_OrderCxlBody : Codec OrderCxlBody :=
  c_record (λ p, mkCxl p.1.1 p.1.2 p.2) (λ b, (cx_oid b, cx_cxled_qty b, cx_exchange_ts b))
    (c_OrderIdentifier *c c_uint 4 *c c_uint 8).
Definition c_OrderRejectBody : Codec OrderRejectBody :=
  c_record (λ p, mkReject p.1 p.2) (λ b, (rj_oid b, rj_exchange_ts b))
    (c_OrderIdentifier *c c_uint 8).
Definition c_NewAccountBody : Codec NewAccountBody :=
  c_record (λ p, mkAccount p.1 p.2) (λ b, (na_la b, na_name b)) (c_uint 2 *c c_array 256).

#[export] Instance c_timespec_ok : CodecOk c_timespec.
Proof. solve_codec. Qed.
#[export] Instance c_FileHeader_ok : CodecOk c_FileHeader.
Proof. solve_codec. Qed.
#[export] Instance c_OrderIdentifier_ok : CodecOk c_OrderIdentifier.
Proof. solve_codec. Qed.
#[export] Instance c_NewSessionBody_ok : CodecOk c_NewSessionBody.
Proof. solve_codec. Qed.
#[export] Instance c_OrderAckBody_ok : CodecOk c_OrderAckBody.
Proof. solve_codec. Qed.
#[export] Instance c_OrderCxlReqBody_ok : CodecOk c_OrderCxlReqBody.
Proof. solve_codec. Qed.
#[export] Instance c_OrderCxlBody_ok : CodecOk c_OrderCxlBody.
Proof. solve_codec. Qed.
#[export] Instance c_OrderRejectBody_ok : CodecOk c_OrderRejectBody.
Proof. solve_codec. Qed.
#[export] Instance c_NewAccountBody_ok : CodecOk c_NewAccountBody.
Proof. solve_codec. Qed.

Section Layout.
Context {D : Type} `{DblBits D} (esi_bytes : nat).

Definition c_NewInstrumentBody : Codec NewInstrumentBody :=
  c_record (λ p, mkNewInst p.1.1.1 p.1.1.2 p.1.2 p.2)
    (λ b, (ni_esi b, ni_listing_market b, ni_symbol b, ni_bloomberg b))
    (c_uint esi_bytes *c c_int 4 *c c_array 10 *c c_array 12).
Definition c_ManualPositionAdjBody : Codec ManualPositionAdjBody :=
  c_record (λ p, mkAdj p.1.1 p.1.2 p.2)
    (λ b, (ma_esi b, ma_delta_trading_qty b, ma_delta_start_qty b))
    (c_uint esi_bytes *c c_int 4 *c c_int 4).
Definition c_NewOrderBody : Codec (NewOrderBody D) :=
  c_record
    (λ '(esi, mic, oid, clid, px, size, side, tif, type, ud),
       mkNewOrder esi mic oid clid px size side tif type ud)
    (λ b, (no_instrument_esi b, no_market_mic b, no_oid b, no_client_order_id b,
           no_orig_price b, no_size b, no_side b, no_tif b, no_type b, no_user_data b))
    (c_uint esi_bytes *c c_int 4 *c c_OrderIdentifier *c c_array 20 *c c_double
     *c c_uint 4 *c c_int 4 *c c_int 4 *c c_int 4 *c c_uint 8).
Definition c_OrderFillBody : Codec (OrderFillBody D) :=
  c_record (λ '(oid, q, px, fee, ts), mkFill oid q px fee ts)
    (λ b, (fl_oid b, fl_filled_qty b, fl_filled_price b, fl_filled_fee_code b, fl_exchange_ts b))
    (c_OrderIdentifier *c c_uint 4 *c c_double *c c_uint 4 *c c_uint 8).
Definition c_PositionBody : Codec (PositionBody D) :=
  c_record (λ '(src, inst, q, avg, mark), mkPositionBody src inst q avg mark)
    (λ b, (po_source b, po_instrument b, po_qty b, po_avg_price b, po_mark_price b))
    (c_uint 1 *c c_NewInstrumentBody *c c_int 8 *c c_double *c c_double).
Definition c_CxlReplaceBody : Codec (CxlReplaceBody D) :=
  c_record (λ p, mkCxlReplace p.1 p.2) (λ b, (cp_old_oid b, cp_new_order b))
    (c_OrderIdentifier *c c_NewOrderBody).

#[export] Instance c_NewInstrumentBody_ok : CodecOk c_NewInstrumentBody.
Proof. solve_codec. Qed.
#[export] Instance c_ManualPositionAdjBody_ok : CodecOk c_ManualPositionAdjBody.
Proof. solve_codec. Qed.
#[export] Instance c_NewOrderBody_ok : CodecOk c_NewOrderBody.
Proof. solve_codec. Qed.
#[export] Instance c_OrderFillBody_ok : CodecOk c_OrderFillBody.
Proof. solve_codec. Qed.
#[export] Instance c_PositionBody_ok : CodecOk c_PositionBody.
Proof. solve_codec. Qed.
#[export] Instance c_CxlReplaceBody_ok : CodecOk c_CxlReplaceBody.
Proof. solve_codec. Qed.

(** A type of body: its codec, its constructor and its content. *)
Inductive BodyFormat : Type :=
| bodyFormat (A : Type) (c : Codec A) (ok : CodecOk c) (mk : A → LogBody D).

(** The struct that each message type carries, by number; none for the numbers
    that [decode] lets pass. *)
Definition body_format (type : Z) : option BodyFormat :=
  match type with
  | 1 => Some (bodyFormat _ c_timespec _ LB_TIMESTAMP)
  | 2 => Some (bodyFormat _ c_FileHeader _ LB_START_OF_LOG)
  | 3 => Some (bodyFormat _ (c_uint 4) _ LB_END_OF_LOG)
  | 4 => Some (bodyFormat _ c_NewInstrumentBody _ LB_NEW_INSTRUMENT)
  | 5 => Some (bodyFormat _ c_NewOrderBody _ LB_NEW_ORDER)
  | 6 => Some (bodyFormat _ c_NewOrderBody _ LB_ORDER_LOCAL_REJECT)
  | 7 => Some (bodyFormat _ c_NewOrderBody _ LB_ORDER_SENT)
  | 8 => Some (bodyFormat _ c_OrderAckBody _ LB_ORDER_ACKNOWLEDGEMENT)
  | 9 => Some (bodyFormat _ c_OrderFillBody _ LB_ORDER_PARTIAL_FILL)
  | 10 => Some (bodyFormat _ c_OrderFillBody _ LB_ORDER_FILL)
  | 11 => Some (bodyFormat _ c_OrderCxlReqBody _ LB_ORDER_CANCEL_REQUEST)
  | 12 => Some (bodyFormat _ c_OrderCxlBody _ LB_ORDER_PARTIAL_CANCEL)
  | 13 => Some (bodyFormat _ c_OrderCxlBody _ LB_ORDER_CANCEL)
  | 14 => Some (bodyFormat _ c_CxlReplaceBody _ LB_ORDER_CXLREPL_REQUEST)
  | 15 => Some (bodyFormat _ c_CxlReplaceBody _ LB_ORDER_CANCEL_REPLACE)
  | 16 => Some (bodyFormat _ c_OrderRejectBody _ LB_ORDER_REMOTE_REJECT)
  | 17 => Some (bodyFormat _ c_OrderRejectBody _ LB_ORDER_CANCEL_REJECT)
  | 18 => Some (bodyFormat _ c_OrderIdentifier _ LB_ORDER_DESTROY)
  | 19 => Some (bodyFormat _ c_PositionBody _ LB_POSITION)
  | 20 => Some (bodyFormat _ c_ManualPositionAdjBody _ LB_MANUAL_POSITION_ADJ)
  | 21 => Some (bodyFormat _ c_NewSessionBody _ LB_NEW_SESSION)
  | 22 => Some (bodyFormat _ c_OrderIdentifier _ LB_ORDER_SESSION_DATA)
  | 23 => Some (bodyFormat _ c_NewAccountBody _ LB_NEW_ACCOUNT)
  | _ => None
  end.

(** Encoding and validity of a body, by cases on its constructor. *)
Definition with_body {R} (b : LogBody D) (k : ∀ A, Codec A → A → R) : R :=
  match b with
  | LB_TIMESTAMP x => k _ c_timespec x
  | LB_START_OF_LOG x => k _ c_FileHeader x
  | LB_END_OF_LOG x => k _ (c_uint 4) x
  | LB_NEW_INSTRUMENT x => k _ c_NewInstrumentBody x
  | LB_NEW_ORDER x => k _ c_NewOrderBody x
  | LB_ORDER_LOCAL_REJECT x => k _ c_NewOrderBody x
  | LB_ORDER_SENT x => k _ c_NewOrderBody x
  | LB_ORDER_ACKNOWLEDGEMENT x => k _ c_OrderAckBody x
  | LB_ORDER_PARTIAL_FILL x => k _ c_OrderFillBody x
  | LB_ORDER_FILL x => k _ c_OrderFillBody x
  | LB_ORDER_CANCEL_REQUEST x => k _ c_OrderCxlReqBody x
  | LB_ORDER_PARTIAL_CANCEL x => k _ c_OrderCxlBody x
  | LB_ORDER_CANCEL x => k _ c_OrderCxlBody x
  | LB_ORDER_CXLREPL_REQUEST x => k _ c_CxlReplaceBody x
  | LB_ORDER_CANCEL_REPLACE x => k _ c_CxlReplaceBody x
  | LB_ORDER_REMOTE_REJECT x => k _ c_OrderRejectBody x
  | LB_ORDER_CANCEL_REJECT x => k _ c_OrderRejectBody x
  | LB_ORDER_DESTROY x => k _ c_OrderIdentifier x
  | LB_POSITION x => k _ c_PositionBody x
  | LB_MANUAL_POSITION_ADJ x => k _ c_ManualPositionAdjBody x
  | LB_NEW_SESSION x => k _ c_NewSessionBody x
  | LB_ORDER_SESSION_DATA x => k _ c_OrderIdentifier x
  | LB_NEW_ACCOUNT x => k _ c_NewAccountBody x
  end.
Definition body_size (b : LogBody D) : nat := with_body b (λ _ c _, c_size c).
Definition body_enc (b : LogBody D) : list Z := with_body b (λ _ c, c_enc c).
Definition body_valid (b : LogBody D) : Prop := with_body b (λ _ c, c_valid c).

(** [Message<T>]: the header, with the size of the body, and the body. *)
Definition c_MessageHeader : Codec (Z * Z * Z * Timestamp) :=
  c_uint 2 *c c_uint 1 *c c_uint 1 *c c_timespec.
Definition encode_message (m : Message D) : list Z :=
  c_enc c_MessageHeader
    (u16 (Z.of_nat (body_size (m_body m))), MessageType_to_Z (m_body m), 0, m_timestamp m)
  ++ body_enc (m_body m).
Definition message_valid (m : Message D) : Prop :=
  c_valid c_timespec (m_timestamp m) /\ body_valid (m_body m).
End Layout.

Arguments BodyFormat D : clear implicits.
