(* ===== verification/Blotter.v ===== *)
(** * Writing and reading the order log (src/oe/FileBlotter.cpp, src/oe/BlotterReader.cpp,
      src/oe/FileBlotterReader.cpp)

    The blotter turns engine events into messages appended to a file; the reader
    decodes messages one after the other and notifies its listeners.  The
    memory-mapped file is the list of its bytes. *)

From S2P Require Import Prelude Dbl Time Types Order Codec OrderLog.

(** ** FileBlotter *)

Section FileBlotter.
Context {D : Type} `{Dbl D}.
Implicit Types o : Order D.

(** The identifier of an order, with the name of its session or zero. *)
Definition oid_of o : OrderIdentifier :=
  mkOid (o_local_account o) (o_localID o)
    (match o_session o with
     | Some name => string_to_session_name name
     | None => replicate 8 0
     end).
(** The handlers that read [order_p->session()->name()] without a test. *)
Definition oid_of_sent o : res OrderIdentifier :=
  match o_session o with
  | Some name => Ok (mkOid (o_local_account o) (o_localID o) (string_to_session_name name))
  | None => Fail (UndefinedBehaviour "null session")
  end.

Definition new_order_body o : NewOrderBody D := {|
  no_instrument_esi := o_instrument o;
  no_market_mic := MIC_index (o_market o);
  no_oid := oid_of o;
  no_client_order_id := o_client_order_id o;
  no_orig_price := o_original_price o;
  no_size := o_size o;
  no_side := Side_to_Z (o_side o);
  no_tif := TimeInForce_to_Z (o_tif o);
  no_type := OrderType_to_Z (o_type o);
  no_user_data := o_userdata o
|}.

Definition log_start (now : Timestamp) (h : FileHeader) : Message D :=
  mkMsg now (LB_START_OF_LOG h).
Definition log_end (now : Timestamp) : Message D := mkMsg now (LB_END_OF_LOG FILE_TERMINATOR).

(** [log_new_order] writes nothing. *)
Definition log_new_order (_ : Order D) : list (Message D) := [].
Definition log_order_sent o : Message D :=
  mkMsg (o_sent_time o) (LB_ORDER_SENT (new_order_body o)).
Definition log_local_reject o : Message D :=
  mkMsg (o_creation_time o) (LB_ORDER_LOCAL_REJECT (new_order_body o)).
Definition log_pending_cancel o (new_qty : Z) : res (Message D) :=
  oid ← oid_of_sent o;
  Ok (mkMsg (o_last_request_time o) (LB_ORDER_CANCEL_REQUEST (mkCxlReq oid new_qty))).
Definition log_destroy o : Message D :=
  mkMsg (o_last_request_time o) (LB_ORDER_DESTROY (oid_of o)).
Definition log_acknowledged o : res (Message D) :=
  oid ← oid_of_sent o;
  Ok (mkMsg (o_last_response_time o)
        (LB_ORDER_ACKNOWLEDGEMENT (mkAck oid (o_open_size o) (o_last_exchange_time o)))).
Definition log_rejected o : res (Message D) :=
  oid ← oid_of_sent o;
  Ok (mkMsg (o_last_response_time o)
        (LB_ORDER_REMOTE_REJECT (mkReject oid (o_last_exchange_time o)))).
Definition log_filled o (fillSize : Z) (fillPrice : D) (fee_code : Z) : res (Message D) :=
  oid ← oid_of_sent o;
  let body := mkFill oid fillSize fillPrice fee_code (o_last_exchange_time o) in
  Ok (mkMsg (o_last_response_time o)
        (if bool_decide (o_state o = FILLED) then LB_ORDER_FILL body
         else LB_ORDER_PARTIAL_FILL body)).
Definition log_cancel_rejected o : res (Message D) :=
  oid ← oid_of_sent o;
  Ok (mkMsg (o_last_response_time o)
        (LB_ORDER_CANCEL_REJECT (mkReject oid (o_last_exchange_time o)))).
Definition log_cancelled o (cxled_qty : Z) : res (Message D) :=
  oid ← oid_of_sent o;
  Ok (mkMsg (o_last_response_time o)
        (LB_ORDER_CANCEL (mkCxl oid cxled_qty (o_last_exchange_time o)))).
Definition log_add_session (now : Timestamp) (name : string) (mic : MIC) : Message D :=
  mkMsg now (LB_NEW_SESSION (mkNewSession (string_to_session_name name) (MIC_index mic))).
Definition log_position (now : Timestamp) (src esi : Z) (listing : MIC) (symbol : string)
    (qty : Z) (avgpx markpx : D) : Message D :=
  mkMsg now (LB_POSITION (mkPositionBody src
    (mkNewInst esi (MIC_index listing) (strncpy 10 symbol) (replicate 12 0)) qty avgpx markpx)).
(** A strategy without an account is not logged. *)
Definition log_add_strategy (now : Timestamp) (name : string) (la : Z) : list (Message D) :=
  if la =? 0 then []
  else [mkMsg now (LB_NEW_ACCOUNT (mkAccount la (strncpy 256 name)))].
End FileBlotter.

(** The bytes of the file after a list of messages. *)
Definition encode_log {D} `{DblBits D} (esi_bytes : nat) (ms : list (Message D)) : list Z :=
  concat (encode_message esi_bytes <$> ms).

(** ** BlotterReader *)

Inductive ReadErrors := NO_ERROR | NO_HEADER_SIZE | NO_MSG_SIZE.
Definition ReadErrors_to_Z (e : ReadErrors) : Z :=
  match e with NO_ERROR => 0 | NO_HEADER_SIZE => 1 | NO_MSG_SIZE => 2 end.

Section Reader.
Context {D : Type} `{DblBits D} (esi_bytes : nat).

(** What [decode] hands its listeners: the timestamp and the body.  A
    TIMESTAMP message is read and not passed on. *)
Definition notified (b : LogBody D) : bool :=
  match b with LB_TIMESTAMP _ => false | _ => true end.

(** [decode(buf, len)]: a negative error, or the bytes consumed and the
    notification.  The body is read as its struct whatever [header->length] says;
    a struct that reaches past the buffer is undefined behaviour. *)
Definition decode (buf : list Z) : res (Z * option (Message D)) :=
  if Z.of_nat (length buf) <? MESSAGE_HEADER_SIZE
  then Ok (- ReadErrors_to_Z NO_HEADER_SIZE, None)
  else
    let '(len, type, _, ts) := c_dec c_MessageHeader buf in
    let timestamp := ts_make (tv_sec ts) (tv_nsec ts) in
    let rest := drop (Z.to_nat MESSAGE_HEADER_SIZE) buf in
    if Z.of_nat (length rest) <? len then Ok (- ReadErrors_to_Z NO_MSG_SIZE, None)
    else
      n ← match body_format esi_bytes type with
          | None => Ok None
          | Some (bodyFormat A c _ mk) =>
              let b := mk (c_dec c rest) in
              if negb (notified b) then Ok None
              else if (length rest <? c_size c)%nat
                   then Fail (UndefinedBehaviour "message body past the end of the buffer")
                   else Ok (Some (mkMsg timestamp b))
          end;
      Ok (MESSAGE_HEADER_SIZE + len, n).

(** *** FileBlotterReader

    [r_pos] is [m_buf - m_buf_start], none for a null [m_buf]; the file does not
    change while it is read. *)
Record Reader := mkReader { r_file : list Z; r_pos : option nat }.

Definition do_rewind (file : list Z) : Reader := mkReader file (Some O).
Definition at_end (r : Reader) : bool :=
  match r_pos r with
  | None => true
  | Some p => (length (r_file r) <=? p)%nat
  end.

(** [do_next]: a decoding error stops the reader. *)
Definition do_next (r : Reader) : res (Reader * option (Message D)) :=
  match r_pos r with
  | Some p =>
      if at_end r then Ok (r, None)
      else
        '(ret, n) ← decode (drop p (r_file r));
        Ok (mkReader (r_file r)
              (if ret <=? 0 then None else Some (p + Z.to_nat ret)%nat), n)
  | None => Ok (r, None)
  end.

(** [replay]: [while (!at_end()) next();] with the notifications in order. *)
Fixpoint replay (fuel : nat) (r : Reader) : res (option (list (Message D))) :=
  if at_end r then Ok (Some [])
  else match fuel with
  | O => Ok None
  | S fuel' =>
      '(r', n) ← do_next r;
      ms ← replay fuel' r';
      Ok (option_map (λ l, match n with Some m => m :: l | None => l end) ms)
  end.
End Reader.

(** ** Round trip *)

Lemma ts_make_id s n : in_i 64 s → 0 <= n < NS → ts_make s n = mkTs s n.
Proof.
  intros Hs Hn. unfold ts_make, NS in *.
  rewrite (wrap_small 64 n) by in_range. rewrite Z.mod_small by lia.
  rewrite (i64_id n) by lia. rewrite Z.sub_diag. change (u64 (i64 0) / 1000000000) with 0.
  rewrite Z.add_0_r, wrap_wrap. f_equal. unfold wrap, swrap.
  rewrite Zplus_mod_idemp_l. apply (swrap_small 64); [lia|done].
Qed.

Section RoundTrip.
Context {D : Type} `{DblBits D} (esi_bytes : nat) (Hesi : (esi_bytes <= 8)%nat).
Implicit Types m : Message D.

(** Messages as the engine writes them: a normalised timestamp, and fields that
    fit their types. *)
Definition message_ok m : Prop :=
  in_i 64 (tv_sec (m_timestamp m)) /\ 0 <= tv_nsec (m_timestamp m) < NS
  /\ body_valid esi_bytes (m_body m).

Lemma body_size_small (b : LogBody D) : Z.of_nat (body_size esi_bytes b) < 65536.
Proof using Hesi.
  destruct b; lazymatch goal with
  | |- context [LB_NEW_ACCOUNT] => vm_compute; reflexivity
  | _ => cbn; lia
  end.
Qed.

Lemma body_format_cases (b : LogBody D) :
  match body_format esi_bytes (MessageType_to_Z b) with
  | Some (bodyFormat A c ok mk) => ∃ a, b = mk a /\ body_size esi_bytes b = c_size c
      /\ body_enc esi_bytes b = c_enc c a /\ body_valid esi_bytes b = c_valid c a
  | None => False
  end.
Proof. destruct b; cbn [MessageType_to_Z body_format]; eexists; by repeat split. Qed.

Lemma body_format_of (b : LogBody D) :
  ∃ A (c : Codec A) (ok : CodecOk c) mk a,
    body_format esi_bytes (MessageType_to_Z b) = Some (bodyFormat A c ok mk)
    /\ b = mk a /\ body_size esi_bytes b = c_size c /\ body_enc esi_bytes b = c_enc c a
    /\ (body_valid esi_bytes b ↔ c_valid c a).
Proof.
  pose proof (body_format_cases b) as Hb.
  destruct (body_format _ _) as [[A c ok mk]|]; [|done].
  destruct Hb as (a & ? & ? & ? & E). exists A, c, ok, mk, a. by rewrite E.
Qed.

Lemma header_valid m : message_ok m →
  c_valid c_MessageHeader
    (u16 (Z.of_nat (body_size esi_bytes (m_body m))), MessageType_to_Z (m_body m), 0, m_timestamp m).
Proof using Hesi.
  intros (Hs & Hn & _). pose proof (body_size_small (m_body m)). unfold NS in *.
  cbn -[Z.pow]. change (256 ^ Z.of_nat 2) with 65536. change (256 ^ Z.of_nat 1) with 256.
  rewrite wrap_small by in_range.
  assert (0 <= MessageType_to_Z (m_body m) < 256) by (destruct (m_body m); cbn; lia).
  repeat split; try done; try lia; unfold in_i in *; cbn -[Z.pow] in *; try lia.
  all: change (2 ^ (8 * Z.of_nat 8 - 1)) with 9223372036854775808; lia.
Qed.

Lemma body_enc_length m : message_ok m →
  length (body_enc esi_bytes (m_body m)) = body_size esi_bytes (m_body m).
Proof using.
  intros (_ & _ & Hv). destruct (body_format_of (m_body m)) as (A & c & ok & mk & a & _ & _ & -> & -> & Hb).
  apply codec_length. tauto.
Qed.

Definition header_bytes m : list Z :=
  c_enc c_MessageHeader
    (u16 (Z.of_nat (body_size esi_bytes (m_body m))), MessageType_to_Z (m_body m), 0, m_timestamp m).

Lemma header_bytes_length m : message_ok m → length (header_bytes m) = 20%nat.
Proof using Hesi. intros Hm. unfold header_bytes. by rewrite codec_length by by apply header_valid. Qed.

Lemma encode_length m : message_ok m →
  length (encode_message esi_bytes m) = (20 + body_size esi_bytes (m_body m))%nat.
Proof using Hesi.
  intros Hm. unfold encode_message. fold (header_bytes m).
  by rewrite length_app, header_bytes_length, body_enc_length.
Qed.

(** A header followed by anything: the fields come back. *)
Lemma decode_header m rest : message_ok m →
  c_dec c_MessageHeader (header_bytes m ++ rest)
  = (Z.of_nat (body_size esi_bytes (m_body m)), MessageType_to_Z (m_body m), 0, m_timestamp m)
  /\ drop 20 (header_bytes m ++ rest) = rest.
Proof using Hesi.
  intros Hm. split.
  - unfold header_bytes. rewrite codec_dec_enc by by apply header_valid.
    pose proof (body_size_small (m_body m)). rewrite wrap_small by in_range. done.
  - apply drop_app_n. by apply header_bytes_length.
Qed.

Lemma decode_encode m rest : message_ok m →
  decode esi_bytes (encode_message esi_bytes m ++ rest)
  = Ok (Z.of_nat (length (encode_message esi_bytes m)),
        if notified (m_body m) then Some m else None).
Proof using Hesi.
  intros Hm. rewrite encode_length by done. unfold decode, encode_message.
  fold (header_bytes m). rewrite <- app_assoc. set (buf := header_bytes m ++ _).
  replace (_ <? MESSAGE_HEADER_SIZE) with false.
  2:{ symmetry. apply Z.ltb_ge. subst buf. rewrite length_app, header_bytes_length by done.
      unfold MESSAGE_HEADER_SIZE. lia. }
  destruct (decode_header m (body_enc esi_bytes (m_body m) ++ rest) Hm) as [Hh Hd].
  fold buf in Hh, Hd. rewrite Hh. change (Z.to_nat MESSAGE_HEADER_SIZE) with 20%nat. rewrite Hd.
  rewrite (proj2 (Z.ltb_ge _ _)).
  2:{ rewrite length_app, body_enc_length by done. lia. }
  destruct Hm as (Hs & Hn & Hv). rewrite ts_make_id by done.
  destruct (body_format_of (m_body m)) as (A & c & ok & mk & a & -> & Hb & Hsz & He & Hva).
  rewrite He, codec_dec_enc by tauto. rewrite <- Hb.
  destruct (notified (m_body m)); cbn [negb].
  - replace (_ <? c_size c)%nat with false.
    + cbn. f_equal. f_equal; [unfold MESSAGE_HEADER_SIZE; lia|]. destruct m as [[] ?]; done.
    + symmetry. apply Nat.ltb_ge. rewrite length_app, codec_length by tauto. lia.
  - cbn. f_equal. f_equal. unfold MESSAGE_HEADER_SIZE. lia.
Qed.

(** What is left of a message that was cut short. *)
Lemma decode_truncated m n : message_ok m → (n < length (encode_message esi_bytes m))%nat →
  ∃ e, decode esi_bytes (take n (encode_message esi_bytes m)) = Ok (- ReadErrors_to_Z e, None)
       /\ e ≠ NO_ERROR.
Proof using Hesi.
  intros Hm Hn. rewrite encode_length in Hn by done. unfold decode.
  assert (length (take n (encode_message esi_bytes m)) = n) as Hl.
  { rewrite length_take, encode_length by done. lia. }
  rewrite Hl. destruct (Z.of_nat n <? MESSAGE_HEADER_SIZE) eqn:Hh; [by exists NO_HEADER_SIZE|].
  apply Z.ltb_ge in Hh. unfold MESSAGE_HEADER_SIZE in Hh. exists NO_MSG_SIZE. split; [|done].
  unfold encode_message. fold (header_bytes m). rewrite take_app, header_bytes_length by done.
  rewrite take_ge by (rewrite header_bytes_length by done; lia).
  destruct (decode_header m (take (n - 20) (body_enc esi_bytes (m_body m))) Hm) as [-> Hd].
  change (Z.to_nat MESSAGE_HEADER_SIZE) with 20%nat. rewrite Hd.
  rewrite length_take, body_enc_length by done.
  by rewrite (proj2 (Z.ltb_lt _ _)) by lia.
Qed.
End RoundTrip.

Section Replay.
Context {D : Type} `{DblBits D} (esi_bytes : nat).
Implicit Types m : Message D.

(** Every message consumes its header at least. *)
Lemma decode_progress buf ret n : Forall is_byte buf →
  decode (D := D) esi_bytes buf = Ok (ret, n) → 0 < ret → 20 <= ret.
Proof using.
  intros Hbytes. unfold decode. case_if; [by intros [= <- _]|].
  destruct (c_dec c_MessageHeader buf) as [[[len type] sub] ts] eqn:Hh.
  assert (0 <= len) as Hlen.
  { unfold c_MessageHeader in Hh. cbn in Hh. injection Hh as <- _ _ _.
    apply le_val_nonneg. by apply Forall_take. }
  case_if; [by intros [= <- _]|]. intros Hd. res_inv. unfold MESSAGE_HEADER_SIZE. lia.
Qed.

(** The reader's position only moves forward, by at least a header. *)
Lemma do_next_progress (r r' : Reader) (n : option (Message D)) :
  Forall is_byte (r_file r) → at_end r = false → do_next esi_bytes r = Ok (r', n) →
  r_file r' = r_file r
  /\ match r_pos r', r_pos r with
     | Some p', Some p => (p + 20 <= p')%nat
     | None, _ => True
     | Some _, None => False
     end.
Proof using.
  intros Hb He Hn. unfold do_next in Hn. destruct r as [file [p|]]; cbn in *; [|by injection Hn as <- _].
  rewrite He in Hn. res_inv. destruct x as [ret n']. cbn in Hn. injection Hn as <- _. split; [done|].
  cbn. destruct (ret <=? 0) eqn:Hr; [done|]. bools.
  apply decode_progress in Hx; [|by apply Forall_drop|done]. lia.
Qed.

(** The rest of the file is the measure of the replay loop. *)
Definition remaining (r : Reader) : nat :=
  match r_pos r with None => 0 | Some p => length (r_file r) - p end.

Lemma replay_enough_fuel fuel : ∀ r, Forall is_byte (r_file r) → (remaining r <= fuel)%nat →
  replay (D := D) esi_bytes fuel r ≠ Ok None.
Proof using.
  induction fuel as [|fuel IH]; intros r Hb Hf; cbn.
  - destruct (at_end r) eqn:He; [done|]. unfold at_end, remaining in *.
    destruct (r_pos r); [|done]. apply Nat.leb_gt in He. lia.
  - destruct (at_end r) eqn:He; [done|].
    destruct (do_next esi_bytes r) as [[r' n]|] eqn:Hn; cbn; [|done].
    destruct (do_next_progress _ _ _ Hb He Hn) as [Hfile Hpos].
    assert (replay (D := D) esi_bytes fuel r' ≠ Ok None) as Hr.
    { apply IH; [by rewrite Hfile|]. unfold remaining, at_end in *. rewrite Hfile.
      destruct (r_pos r') as [p'|], (r_pos r) as [p|]; try done; [|lia].
      apply Nat.leb_gt in He. lia. }
    destruct (replay esi_bytes fuel r') as [[l|]|]; cbn; [by destruct n|by destruct Hr|done].
Qed.

Lemma at_end_app pre l : at_end (mkReader (pre ++ l) (Some (length pre))) = bool_decide (l = []).
Proof using.
  unfold at_end; cbn. rewrite length_app. apply eq_true_iff_eq.
  rewrite Nat.leb_le, bool_decide_eq_true. destruct l; cbn; split; (done || lia).
Qed.

Lemma replay_at_end fuel (r : Reader) : at_end r = true → replay (D := D) esi_bytes fuel r = Ok (Some []).
Proof using. intros Hr. destruct fuel; cbn; by rewrite Hr. Qed.

Context (Hesi : (esi_bytes <= 8)%nat).

Lemma encode_nonempty m : message_ok esi_bytes m → encode_message esi_bytes m ≠ [].
Proof using Hesi. intros Hm Hl. apply (f_equal length) in Hl. by rewrite encode_length in Hl. Qed.

Lemma encode_log_cons m ms :
  encode_log esi_bytes (m :: ms) = encode_message esi_bytes m ++ encode_log esi_bytes ms.
Proof. reflexivity. Qed.

Lemma app_not_nil {A} (l k : list A) : (0 < length l)%nat → l ++ k ≠ [].
Proof. destruct l; cbn; [lia|done]. Qed.

(** Replaying from a position where [n] bytes of a log of whole messages are left. *)
Lemma replay_prefix ms : ∀ pre n fuel,
  Forall (message_ok esi_bytes) ms → (n <= length (encode_log esi_bytes ms))%nat →
  (n <= fuel)%nat →
  ∃ k, (k <= length ms)%nat
    /\ (length (encode_log esi_bytes (take k ms)) <= n)%nat
    /\ (k = length ms \/ n < length (encode_log esi_bytes (take (S k) ms)))%nat
    /\ replay esi_bytes fuel
         (mkReader (pre ++ take n (encode_log esi_bytes ms)) (Some (length pre)))
       = Ok (Some (filter (λ m, notified (m_body m) = true) (take k ms))).
Proof using Hesi.
  induction ms as [|m ms IH]; intros pre n fuel Hok Hn Hf.
  - cbn in Hn. exists O. assert (n = O) as -> by lia. split_and!; [done..|by left|].
    apply replay_at_end. rewrite at_end_app. by apply bool_decide_true.
  - apply Forall_cons in Hok as [Hm Hok]. rewrite encode_log_cons, length_app in *.
    pose proof (encode_length esi_bytes Hesi m Hm) as He20.
    destruct (decide (n < length (encode_message esi_bytes m))%nat) as [Hlt|Hge].
    + exists O. split_and!; [lia|cbn; lia| |].
      { right. change (take 1 (m :: ms)) with [m]. rewrite encode_log_cons, length_app. lia. }
      change (filter _ (take 0 (m :: ms))) with (@nil (Message D)).
      rewrite take_app_le by lia. destruct fuel as [|fuel].
      { assert (n = O) as -> by lia. apply replay_at_end. rewrite take_0, at_end_app.
        by apply bool_decide_true. }
      cbn [replay]. rewrite at_end_app. case_bool_decide as Hne; [done|].
      cbn [do_next r_pos r_file]. rewrite at_end_app, bool_decide_false, drop_app_length by done.
      destruct (decode_truncated esi_bytes Hesi m n Hm Hlt) as (err & -> & Herr).
      cbn [mbind res_bind]. replace (_ <=? 0) with true by (by destruct err).
      by rewrite replay_at_end.
    + destruct fuel as [|fuel]; [lia|]. rewrite take_app_ge by lia.
      set (n' := (n - length (encode_message esi_bytes m))%nat).
      cbn [replay do_next r_pos r_file]. rewrite at_end_app, drop_app_length.
      rewrite bool_decide_false by (apply app_not_nil; lia).
      rewrite (decode_encode esi_bytes Hesi) by done.
      cbn [mbind res_bind]. rewrite (proj2 (Z.leb_gt _ _)) by lia. rewrite Nat2Z.id.
      destruct (IH (pre ++ encode_message esi_bytes m) n' fuel Hok)
        as (k & Hk & Hlen & Hmax & Hrep); [unfold n'; lia..|].
      rewrite <- app_assoc, length_app in Hrep. rewrite Hrep.
      exists (S k). rewrite !firstn_cons, !encode_log_cons, !length_app.
      split_and!; [cbn; lia|unfold n' in *; lia| |].
      * destruct Hmax as [->|Hmax]; [by left|right; unfold n' in *; lia].
      * rewrite filter_cons. destruct (notified (m_body m)); cbn; done.
Qed.
End Replay.

(** ** Properties *)

(** C29: Message round trip.  Whatever follows it in the file, a message that the
    engine writes is decoded to itself, consuming exactly its bytes (and a
    TIMESTAMP message is consumed silently). *)
Theorem log_message_roundtrip `{DblBits D} (esi_bytes : nat) (m : Message D) (rest : list Z)
    (Hesi : (esi_bytes <= 8)%nat) (Hm : message_ok esi_bytes m) :
  decode esi_bytes (encode_message esi_bytes m ++ rest)
  = Ok (Z.of_nat (length (encode_message esi_bytes m)),
        if notified (m_body m) then Some m else None).
Proof. by apply decode_encode. Qed.

(** Concrete messages in the program's arithmetic. *)
Definition sample_oid : OrderIdentifier := mkOid 7 42 (string_to_session_name "NASDAQ1").
Definition sample_log : list (Message SpecFloat.spec_float) :=
  [mkMsg (mkTs 1430000000 5) (LB_ORDER_SENT (mkNewOrder 3 2 sample_oid (replicate 20 32)
     (d_lit 1001 100) 300 1 1 2 0));
   mkMsg (mkTs 1430000000 900) (LB_ORDER_ACKNOWLEDGEMENT (mkAck sample_oid 300 12345));
   mkMsg (mkTs 1430000001 0) (LB_ORDER_PARTIAL_FILL (mkFill sample_oid 100 (d_lit 10005 1000) 65 999))].

Lemma sample_log_ok : Forall (message_ok 2) sample_log.
Proof.
  assert (∀ l, forallb (λ b, (0 <=? b) && (b <? 256)) l = true → Forall is_byte l) as Hb.
  { intros l. induction l as [|b l IH]; cbn; [constructor|]. intros Hl. bools.
    constructor; [unfold is_byte; lia|by apply IH]. }
  repeat constructor; vm_compute; try congruence; try (by left; split; congruence);
    try (left; repeat split; congruence).
Qed.

Lemma log_message_roundtrip_witness :
  match sample_log with
  | m :: _ => decode 2 (encode_message 2 m ++ [1; 2; 3])
              = Ok (Z.of_nat (length (encode_message 2 m)), Some m)
  | [] => False
  end.
Proof.
  cbn [sample_log]. refine (log_message_roundtrip 2 _ [1; 2; 3] _ _).
  - lia.
  - exact (Forall_inv sample_log_ok).
Defined.

(** C28: Crash safety of the log.  A log cut off at any byte (the engine died, or
    is still writing) replays exactly its whole messages, in order, and then
    stops: no message is lost, invented or read from past the end. *)
Theorem truncated_log_replays_whole_messages `{DblBits D} (esi_bytes : nat)
    (ms : list (Message D)) (n : nat)
    (Hesi : (esi_bytes <= 8)%nat) (Hok : Forall (message_ok esi_bytes) ms)
    (Hn : (n <= length (encode_log esi_bytes ms))%nat) :
  ∃ k, (length (encode_log esi_bytes (take k ms)) <= n)%nat
    /\ (k = length ms \/ n < length (encode_log esi_bytes (take (S k) ms)))%nat
    /\ replay esi_bytes n (do_rewind (take n (encode_log esi_bytes ms)))
       = Ok (Some (filter (λ m, notified (m_body m) = true) (take k ms))).
Proof.
  destruct (replay_prefix esi_bytes Hesi ms [] n n Hok Hn) as (k & _ & H1 & H2 & H3); [done|].
  by exists k.
Qed.

Lemma truncated_log_replays_whole_messages_witness :
  replay 2 150 (do_rewind (take 150 (encode_log 2 sample_log))) = Ok (Some (take 2 sample_log)).
Proof.
  destruct (truncated_log_replays_whole_messages 2 sample_log 150
    ltac:(lia) sample_log_ok) as (k & H1 & H2 & H3).
  - apply Nat.leb_le. vm_compute. reflexivity.
  - vm_compute. reflexivity.
Defined.

(** Replay terminates on any file, well formed or not: as many iterations as
    the file has bytes always end the loop (by its end, an error or a crash). *)
Theorem log_replay_terminates `{DblBits D} (esi_bytes : nat) (file : list Z)
    (Hbytes : Forall is_byte file) :
  replay (D := D) esi_bytes (length file) (do_rewind file) ≠ Ok None.
Proof. apply replay_enough_fuel; [done|]. cbn. lia. Qed.

Lemma log_replay_terminates_witness :
  replay (D := SpecFloat.spec_float) 2 30 (do_rewind (replicate 30 0)) ≠ Ok None.
Proof.
  refine (log_replay_terminates 2 (replicate 30 0) _).
  apply Forall_replicate. unfold is_byte. lia.
Defined.

(** A message whose length field is too small for its type passes the length
    test; at the end of the file the reader then reads its body from past the
    end of the mapping. *)
Theorem short_message_reads_past_buffer `{DblBits D} (esi_bytes : nat) (m : Message D)
    (Hesi : (esi_bytes <= 8)%nat) (Hm : message_ok esi_bytes m) (Hn : notified (m_body m) = true) :
  decode (D := D) esi_bytes (c_enc c_MessageHeader (0, MessageType_to_Z (m_body m), 0, m_timestamp m))
  = Fail (UndefinedBehaviour "message body past the end of the buffer").
Proof.
  pose proof (header_valid esi_bytes Hesi m Hm) as Hv.
  destruct m as [ts b]. cbn [m_body m_timestamp] in *.
  assert (c_valid c_MessageHeader (0, MessageType_to_Z b, 0, ts)) as Hv'.
  { cbn [c_MessageHeader c_pair c_valid c_uint fst snd] in *. intuition lia. }
  pose proof (codec_length _ Hv') as Hl. pose proof (codec_dec_enc _ [] Hv') as Hd.
  rewrite app_nil_r in Hd. unfold decode. rewrite Hl, Hd.
  change (Z.of_nat (c_size c_MessageHeader) <? MESSAGE_HEADER_SIZE) with false. cbn iota beta.
  rewrite drop_ge by (rewrite Hl; apply Nat.leb_le; reflexivity).
  clear Hv Hv' Hl Hd. destruct b; try discriminate; cbn [MessageType_to_Z body_format notified negb];
    rewrite (proj2 (Nat.ltb_lt _ _)); try done; apply Nat.ltb_lt;
    first [reflexivity|apply Nat.ltb_lt; cbn; lia].
Qed.

Lemma short_message_reads_past_buffer_witness :
  match sample_log with
  | m :: _ => decode (D := SpecFloat.spec_float) 2
      (c_enc c_MessageHeader (0, 7, 0, m_timestamp m))
      = Fail (UndefinedBehaviour "message body past the end of the buffer")
  | [] => False
  end.
Proof.
  cbn [sample_log]. refine (short_message_reads_past_buffer 2 _ _ (Forall_inv sample_log_ok) _).
  - lia.
  - reflexivity.
Defined.

(** ** Session names *)

(** A printable name without blanks at risk: every character prints. *)
Definition printable (s : string) : Prop := Forall (λ c, isprint c = true) (string_bytes s).

Lemma until_nul_printable l : Forall (λ c, isprint c = true) l → until_nul l = l.
Proof.
  induction 1 as [|c l Hc _ IH]; cbn; [done|].
  destruct (c =? 0) eqn:E; [|by rewrite IH]. bools. subst. discriminate.
Qed.

Lemma render_printable l k : Forall (λ c, isprint c = true) l →
  array_render_helper 0 false (l ++ replicate k 0) = l.
Proof.
  induction 1 as [|c l Hc _ IH]; cbn [app array_render_helper].
  - assert (∀ b, array_render_helper 0 b (replicate k 0) = []) as Hz; [|apply Hz].
    induction k as [|k IH]; intros b; [done|]. cbn. rewrite orb_true_r. apply IH.
  - destruct (c =? 0) eqn:E; [bools; subst; discriminate|].
    cbn [orb negb andb]. rewrite Hc. cbn. by rewrite IH.
Qed.

Lemma bytes_string_bytes s : bytes_string (string_bytes s) = s.
Proof.
  induction s as [|c s IH]; cbn; [done|].
  rewrite Nat2Z.id, Ascii.ascii_nat_embedding. by rewrite IH.
Qed.

Lemma session_name_kept s : (length (string_bytes s) <= 8)%nat → printable s →
  session_name_to_string (string_to_session_name s) = s.
Proof.
  intros Hlen Hprint. unfold session_name_to_string, string_to_session_name, strncpy.
  by rewrite until_nul_printable, take_ge, render_printable, bytes_string_bytes.
Qed.

(** Session names round-trip.  A printable name of at most eight characters
    (what [add_session] admits) is stored in the log's eight bytes and read back
    as itself, so replay finds the session by the name it was logged under. *)
Theorem session_name_roundtrip (s : string)
    (Hlen : (length (string_bytes s) <= 8)%nat) (Hprint : printable s) :
  session_name_to_string (string_to_session_name s) = s
  /\ length (string_to_session_name s) = 8%nat.
Proof.
  split; [by apply session_name_kept|].
  unfold string_to_session_name, strncpy.
  rewrite until_nul_printable, take_ge by done.
  rewrite length_app, length_replicate. lia.
Qed.

Lemma session_name_roundtrip_witness :
  session_name_to_string (string_to_session_name "NASDAQ1") = "NASDAQ1".
Proof.
  apply (session_name_roundtrip "NASDAQ1"); [vm_compute; lia|].
  repeat constructor.
Defined.
