(* ===== verification/Session.v ===== *)
(** * Order sessions (src/oe/i01_oe/OrderSession.hpp)

    What the order manager asks of a session, as an interface, and the laws it
    relies on.  A session is its state [S]; it is given the order by pointer: the
    address and the object there, returned as the session left it. *)

From S2P Require Import Prelude Dbl Time Types Order.

Class OrderSession (D S : Type) := {
  (** [market()] *)
  ss_market : S → MIC;
  ss_active : S → bool;
  (** [connect(replay)] and [disconnect(force)] *)
  ss_connect : bool → S → bool * S;
  ss_disconnect : bool → S → S;
  ss_send : Z → Order D → S → bool * S * Order D;
  ss_cancel : Z → Order D → Z → S → bool * S * Order D;
  ss_destroy : Z → Order D → S → bool * S;
  (** Less than zero: not supported. *)
  ss_cancel_all : S → Z * S;
  (** [on_create_replay_order(ts, inst, mic, account, id, price, size, side, tif, type, ud)] *)
  ss_create_replay_order : Timestamp → Z → MIC → Z → Z → D → Z → Side → TimeInForce →
    OrderType → Z → S → option (Order D) * S
}.

Section Laws.
Context {D : Type}.
Implicit Types o : Order D.

(** A session writes these fields of an order and no others; among the fields
    of a derived class it may fill some in, which does not change the class. *)
Definition session_fields_only o o' : Prop :=
  kind_market (o_kind o') = kind_market (o_kind o)
  /\ o' = o <| o_kind := o_kind o' |>
            <| o_sent_time := o_sent_time o' |>
            <| o_last_request_time := o_last_request_time o' |>
            <| o_client_order_id := o_client_order_id o' |>.

#[export] Instance session_fields_only_refl : Reflexive session_fields_only.
Proof. by intros []. Qed.
#[export] Instance session_fields_only_trans : Transitive session_fields_only.
Proof. intros [] [] [] [E1 ->] [E2 ->]. split; [by etransitivity|done]. Qed.

(** What a session that recreates an order fills in. *)
Definition replay_order_for (name : string) (inst : Z) (price : D) (size : Z) (side : Side) o : Prop :=
  o_instrument o = inst /\ o_price o = price /\ o_size o = size /\ o_side o = side
  /\ o_session o = Some name /\ o_state o = NEW_AND_UNSENT
  /\ o_filled_size o = 0 /\ o_open_size o = 0 /\ o_cancelled_size o = 0.
End Laws.

Class OrderSessionLaws (D S : Type) `{OrderSession D S} : Prop := {
  send_fields a o s b s' o' : ss_send a o s = (b, s', o') →
    session_fields_only o o' /\ ss_market s' = ss_market s;
  cancel_fields a o q s b s' o' : ss_cancel a o q s = (b, s', o') →
    session_fields_only o o' /\ ss_market s' = ss_market s;
  destroy_market a o s b s' : ss_destroy a o s = (b, s') → ss_market s' = ss_market s;
  connect_market r s b s' : ss_connect r s = (b, s') → ss_market s' = ss_market s;
  disconnect_market f s : ss_market (ss_disconnect f s) = ss_market s;
  cancel_all_market s n s' : ss_cancel_all s = (n, s') → ss_market s' = ss_market s
}.

(** ** What the operator asks of a session *)

Section Manual.
Context {D S : Type} `{OrderSession D S}.
Definition manual_connect (s : S) : bool * S :=
  if negb (ss_active s) then ss_connect false s else (true, s).
Definition manual_disconnect (s : S) : bool * S :=
  if ss_active s then (true, ss_disconnect true s) else (false, s).
Lemma manual_connect_market `{!OrderSessionLaws D S} s b s' :
  manual_connect s = (b, s') → ss_market s' = ss_market s.
Proof. unfold manual_connect. destruct (ss_active s); [by intros [= _ <-]|apply connect_market]. Qed.
Lemma manual_disconnect_market `{!OrderSessionLaws D S} s b s' :
  manual_disconnect s = (b, s') → ss_market s' = ss_market s.
Proof.
  unfold manual_disconnect. destruct (ss_active s); intros [= _ <-]; [apply disconnect_market|done].
Qed.
End Manual.

(** The fields a session leaves alone, one by one. *)
Lemma session_fields {D} (o o' : Order D) : session_fields_only o o' →
  o_instrument o' = o_instrument o /\ o_price o' = o_price o /\ o_size o' = o_size o
  /\ o_side o' = o_side o /\ o_state o' = o_state o /\ o_localID o' = o_localID o
  /\ o_session o' = o_session o /\ o_filled_size o' = o_filled_size o
  /\ o_open_size o' = o_open_size o /\ o_cancelled_size o' = o_cancelled_size o
  /\ o_pendingcancel_newqty o' = o_pendingcancel_newqty o.
Proof. intros [_ ->]. by split_and!. Qed.
