(* ===== verification/SessionKit.v ===== *)
(** * What the sessions of exchanges share

    The network connection and the clock as an interface, [Connection]; the
    constructor of the base class [OrderSession] (src/oe/OrderSession.cpp); and
    the symbols of the consolidated tape, which the sessions rewrite by the same
    rules. *)

From S2P Require Import Prelude Dbl Time Types Config Codec OrderLog.

(** [net::HeartBeatConnThread] and [Timestamp::now]: [E] is the world outside. *)
Class Connection (E : Type) := {
  (** The number of bytes sent, or less than zero. *)
  conn_send : list Z → E → Z * E;
  (** Whether the thread is active once it has started. *)
  conn_connect : string → Z → E → bool * E;
  conn_disconnect : E → E;
  conn_shutdown : E → E;
  conn_now : E → Timestamp * E
}.

(** The packets sent, in order. *)
Definition Wire : Type := list (list Z).
#[export] Instance wire_connection : Connection Wire := {|
  conn_send p e := (Z.of_nat (length p), e ++ [p]);
  conn_connect _ _ e := (true, e);
  conn_disconnect e := e;
  conn_shutdown e := e;
  conn_now e := (mkTs 34200 0, e)
|}.

(** [OrderSession::OrderSession]: the market the session is configured for. *)
Definition OrderSession_init (type_name : string) (simulated : bool) (cs : ConfigState) : res MIC :=
  match cs_get Some cs "type" with
  | None => Fail (Thrown "not configured")
  | Some type =>
      if negb (bool_decide (type_name = type)) && negb simulated
      then Fail (Thrown "does not match configured type")
      else
        let mic := match cs_get Some cs "mic" with
                   | Some mic_name => MIC_of_name mic_name
                   | None => MIC_UNKNOWN
                   end in
        if bool_decide (mic = MIC_UNKNOWN) then Fail (Thrown "has unknown MIC") else Ok mic
  end.

(** A read that must succeed. *)
Definition require {A} (what : string) (x : option A) : res A :=
  match x with Some a => Ok a | None => Fail (Thrown what) end.
Lemma require_Ok {A} what (x : option A) a : require what x = Ok a → x = Some a.
Proof. destruct x; [by intros [= ->]|done]. Qed.

(** ** Text *)

(** [std::string::resize(n, c)] *)
Definition resize (n : nat) (c : Z) (l : list Z) : list Z := take n l ++ replicate (n - length l) c.

Lemma length_resize n c l : length (resize n c l) = n.
Proof. unfold resize. rewrite length_app, length_take, length_replicate. lia. Qed.
Lemma Forall_resize n c l : is_byte c → Forall is_byte l → Forall is_byte (resize n c l).
Proof.
  intros Hc Hl. unfold resize. apply Forall_app. split; [by apply Forall_take|].
  by apply Forall_replicate.
Qed.
Lemma string_bytes_are_bytes str : Forall is_byte (string_bytes str).
Proof.
  induction str as [|c str IH]; cbn; constructor; [|done].
  unfold is_byte. pose proof (Ascii.nat_ascii_bounded c). lia.
Qed.

(** ** Symbols *)

(** CTA symbols, which have no line ends, become the markets' by regular
    expressions that end in [$] and begin with a [.+]. *)
Definition rule_units (s : list Z) : option (list Z) :=
  match reverse s with
  | c :: d :: ((_ :: _) as p) => if (c =? 85) && (d =? 47) then Some (reverse p ++ [61]) else None
  | _ => None
  end.
Definition rule_classes (s : list Z) : option (list Z) :=
  match reverse s with
  | c :: d :: ((_ :: _) as p) =>
      if (65 <=? c) && (c <=? 90) && (d =? 47) then Some (reverse p ++ [46; c]) else None
  | _ => None
  end.
Definition rule_rights (s : list Z) : option (list Z) :=
  match reverse s with
  | c :: ((_ :: _) as p) => if c =? 114 then Some (reverse p ++ [94]) else None
  | _ => None
  end.
Definition cta_symbology (cta_symbol : list Z) : list Z :=
  match rule_units cta_symbol with
  | Some r => r
  | None => match rule_classes cta_symbol with
            | Some r => r
            | None => default cta_symbol (rule_rights cta_symbol)
            end
  end.

Lemma cta_symbology_bytes sym : Forall is_byte sym → Forall is_byte (cta_symbology sym).
Proof.
  intros Hs. assert (Forall is_byte (reverse sym)) as Hr by (by apply Forall_reverse).
  assert (∀ l t, Forall is_byte l → Forall is_byte t → Forall is_byte (reverse l ++ t)) as Ht.
  { intros l t Hl Hlt. apply Forall_app. split; [|done]. by apply Forall_reverse. }
  unfold cta_symbology, rule_units, rule_classes, rule_rights.
  destruct (reverse sym) as [|c [|d [|e l]]] eqn:Hrev; try done;
    repeat match goal with |- context [if ?b then _ else _] => destruct b eqn:? end;
    cbn [default]; try done; apply Ht;
    repeat match goal with
    | Hf : Forall is_byte (_ :: _) |- _ => apply Forall_cons in Hf as [? Hf]
    end; repeat constructor; unfold is_byte in *; try done; lia.
Qed.
