(* ===== verification/Boe20.v ===== *)
(** * The BATS BOE 2.0 session (src/oe/BATS/BOE20Session.cpp, BOE20Session.hpp):
      state, configuration, connection, login, and what it sends

    The session turns the order manager's calls into messages for BATS, which it
    fills into buffers prepared beforehand.  Messages that come in are handled in
    [Boe20Handler]; what goes out is proved right in [Boe20Sent]. *)

From S2P Require Import Prelude Dbl Time Types Order Config Alphanum Codec Boe20Wire.
From S2P Require Import OrderLog Session SessionKit.
From stdpp Require Import sorting.
Open Scope Z_scope.

(** ** Buffers *)

(** [OutboundMsgBuffer]: the message, the bytes of bits behind it, and the
    optional fields behind those, which are what the union's bytes start with. *)
Record OutboundMsgBuffer (M : Type) := mkOutbound {
  b_msg : M;
  b_bitfields : list Z;
  b_opt : Fields;
  b_msglen : nat;
  b_index : nat
}.
Arguments mkOutbound {M}.
Arguments b_msg {M} _.
Arguments b_bitfields {M} _.
Arguments b_opt {M} _.
Arguments b_msglen {M} _.
Arguments b_index {M} _.
#[export] Instance OutboundMsgBuffer_rebuild {M} : Rebuild (OutboundMsgBuffer M) := λ r,
  mkOutbound (b_msg r) (b_bitfields r) (b_opt r) (b_msglen r) (b_index r).

(** [data.bytes], up to [msglen]. *)
Definition buffer_bytes {M} (c : Codec M) (layout : list OptField) (b : OutboundMsgBuffer M) : list Z :=
  take (b_msglen b) (c_enc c (b_msg b) ++ b_bitfields b ++ opt_bytes layout (b_opt b)).

Definition NUM_MSG_BUFFERS : nat := 128.
Record BufferStore (M : Type) := mkStore {
  bs_array : list (OutboundMsgBuffer M);
  bs_free_list : list nat
}.
Arguments mkStore {M}.
Arguments bs_array {M} _.
Arguments bs_free_list {M} _.

Section Buffers.
Context {M : Type}.
Implicit Types (st : BufferStore M) (b : OutboundMsgBuffer M).

Definition bs_init (f : OutboundMsgBuffer M → OutboundMsgBuffer M) st : BufferStore M :=
  foldl (λ st i, mkStore (alter (λ b, (f b) <| b_index := i |>) i (bs_array st))
                   (bs_free_list st ++ [i])) st (seq 0 NUM_MSG_BUFFERS).
(** A buffer is its place in the array. *)
Definition bs_get st : option (nat * OutboundMsgBuffer M * BufferStore M) :=
  match bs_free_list st with
  | [] => None
  | i :: free => b ← bs_array st !! i; Some (i, b, mkStore (bs_array st) free)
  end.
Definition bs_release (i : nat) st : BufferStore M :=
  match bs_array st !! i with
  | Some b => mkStore (bs_array st) (b_index b :: bs_free_list st)
  | None => st
  end.
(** What was written into the buffer. *)
Definition bs_put (i : nat) b st : BufferStore M := mkStore (<[i := b]> (bs_array st)) (bs_free_list st).
End Buffers.

(** ** State *)

Inductive BoeState :=
| UNINITIALIZED | UNCONNECTED | WAITING_FOR_LOGIN | REPLAY | ACTIVE | BS_LOGOUT_SENT
| USER_LOGOUT_REQUEST | ERROR_DISCONNECT | BS_DISCONNECT.
#[export] Instance BoeState_eq_dec : EqDecision BoeState.
Proof. solve_decision. Defined.

(** [bo_outbound_seqnum] and [bo_inbound_seqnum] are the memory-mapped
    [PersistentState]; text is its bytes, except names. *)
Record BOE20Session (E : Type) := mkBoe {
  bo_name : string;
  bo_mic : MIC;
  bo_active : bool;
  bo_state : BoeState;
  bo_host : string;
  bo_port : Z;
  bo_dangly : list Z;
  bo_last_message_recv_ts : Timestamp;
  bo_last_message_sent_ts : Timestamp;
  bo_credentials : list Z;
  bo_hpr_broker_loc : Z;
  bo_id_map : gmap Z (list Z);
  bo_auto_reconnect : bool;
  bo_last_reconnect_attempt_ts : Timestamp;
  bo_reconnect_interval_ms : Z;
  bo_no_bufs : BufferStore NewOrder;
  bo_cxl_bufs : BufferStore BoeCancelOrder;
  bo_mod_bufs : BufferStore BoeModifyOrder;
  bo_symbol_inst_cache : gmap (list Z) Z;
  bo_symbol_array : gmap Z (list Z);
  bo_outbound_seqnum : Z;
  bo_inbound_seqnum : list Z;
  bo_net : E
}.
Arguments mkBoe {E}.
Arguments bo_name {E} _.
Arguments bo_mic {E} _.
Arguments bo_active {E} _.
Arguments bo_state {E} _.
Arguments bo_host {E} _.
Arguments bo_port {E} _.
Arguments bo_dangly {E} _.
Arguments bo_last_message_recv_ts {E} _.
Arguments bo_last_message_sent_ts {E} _.
Arguments bo_credentials {E} _.
Arguments bo_hpr_broker_loc {E} _.
Arguments bo_id_map {E} _.
Arguments bo_auto_reconnect {E} _.
Arguments bo_last_reconnect_attempt_ts {E} _.
Arguments bo_reconnect_interval_ms {E} _.
Arguments bo_no_bufs {E} _.
Arguments bo_cxl_bufs {E} _.
Arguments bo_mod_bufs {E} _.
Arguments bo_symbol_inst_cache {E} _.
Arguments bo_symbol_array {E} _.
Arguments bo_outbound_seqnum {E} _.
Arguments bo_inbound_seqnum {E} _.
Arguments bo_net {E} _.
#[export] Instance BOE20Session_rebuild {E} : Rebuild (BOE20Session E) := λ r,
  mkBoe (bo_name r) (bo_mic r) (bo_active r) (bo_state r) (bo_host r) (bo_port r) (bo_dangly r)
    (bo_last_message_recv_ts r) (bo_last_message_sent_ts r) (bo_credentials r)
    (bo_hpr_broker_loc r) (bo_id_map r) (bo_auto_reconnect r) (bo_last_reconnect_attempt_ts r)
    (bo_reconnect_interval_ms r) (bo_no_bufs r) (bo_cxl_bufs r) (bo_mod_bufs r)
    (bo_symbol_inst_cache r) (bo_symbol_array r) (bo_outbound_seqnum r) (bo_inbound_seqnum r)
    (bo_net r).

(** [m_heartbeat_ms] and [m_missed_hb_before_logout], which are never changed. *)
Definition HEARTBEAT_MS : Z := 1000.
Definition MISSED_HB_BEFORE_LOGOUT : Z := 5.
Definition DEFAULT_RECONNECT_INTERVAL_MS : Z := 5000.

(** [copy_to_array]: filled on the right. *)
Definition boe_copy_to_array (n : nat) (str : list Z) (padding : Z) : list Z :=
  take n str ++ replicate (n - length str) padding.

(** ** Preparing the buffers *)

Definition new_order_bitfields : list Z :=
  [bits NewOrderBitfield1 [F_CLEARING_FIRM; F_CLEARING_ACCOUNT; F_PRICE; F_EXEC_INST; F_ORD_TYPE;
     F_TIME_IN_FORCE; F_MIN_QTY; F_MAX_FLOOR];
   bits NewOrderBitfield2 [F_SYMBOL; F_CAPACITY; F_ROUTING_INST];
   bits NewOrderBitfield3 [F_ACCOUNT; F_DISPLAY_INDICATOR; F_MAX_REMOVE_PCT; F_DISCRETION_AMOUNT;
     F_PEG_DIFFERENCE];
   0;
   bits NewOrderBitfield5 [F_ATTRIBUTED_QUOTE; F_EXT_EXEC_INST];
   0].
Definition cancel_order_bitfields : list Z := [bits CancelOrderBitfield1 [F_CLEARING_FIRM]].
Definition modify_order_bitfields : list Z :=
  [bits ModifyOrderBitfield1 [F_CLEARING_FIRM; F_ORDER_QTY; F_PRICE; F_ORD_TYPE;
     F_CANCEL_ORIG_ON_REJECT; F_EXEC_INST; F_SIDE];
   0].

(** A header for a message of [msglen] bytes, of which the first two do not count. *)
Definition prepared_header (mt : BoeMessageType) (msglen : nat) : BoeHeader :=
  (BoeHeader_create mt 0) <| h_message_length := u16 (Z.of_nat msglen - 2) |>.

Definition set_int (f : OptField) (z : Z) (v : Fields) : Fields := set_opt f (le_bytes (width f) z) v.

(** [process_new_order_bitfields1] to [6]. *)
Definition process_new_order_bitfields (clearing_firm clearing_account : string) (v : Fields) : Fields :=
  let v := set_opt F_CLEARING_FIRM (boe_copy_to_array 4 (string_bytes clearing_firm) 0) v in
  let v := set_opt F_CLEARING_ACCOUNT (boe_copy_to_array 4 (string_bytes clearing_account) 0) v in
  let v := set_int F_MAX_FLOOR 0 (set_int F_MIN_QTY 0 v) in
  let v := set_int F_CAPACITY CAPACITY_BOE_AGENCY v in
  let v := set_opt F_ACCOUNT (boe_copy_to_array 16 (string_bytes "DEFG") 0) v in
  let v := set_int F_PEG_DIFFERENCE 0 (set_int F_DISCRETION_AMOUNT 0 (set_int F_MAX_REMOVE_PCT 0 v)) in
  set_int F_EXT_EXEC_INST 78 (set_int F_ATTRIBUTED_QUOTE 78 v).
Definition prepare_new_order_buffer (clearing_firm clearing_account : string)
    (b : OutboundMsgBuffer NewOrder) : OutboundMsgBuffer NewOrder :=
  let msglen := (c_size c_NewOrder + 6 + opt_size NewOrder_opt)%nat in
  let m := b_msg b in
  let m := m <| nw_message_header := prepared_header NEW_ORDER_V2 msglen |> <| nw_num_bitfields := 6 |> in
  b <| b_msg := m |>
    <| b_bitfields := new_order_bitfields |>
    <| b_opt := process_new_order_bitfields clearing_firm clearing_account (b_opt b) |>
    <| b_msglen := msglen |>.
Definition prepare_cancel_order_buffer (clearing_firm : string)
    (b : OutboundMsgBuffer BoeCancelOrder) : OutboundMsgBuffer BoeCancelOrder :=
  let msglen := (c_size c_BoeCancelOrder + 1 + opt_size CancelOrder_opt)%nat in
  let m := b_msg b in
  let m := m <| bc_message_header := prepared_header CANCEL_ORDER_V2 msglen |> <| bc_num_bitfields := 1 |> in
  b <| b_msg := m |>
    <| b_bitfields := cancel_order_bitfields |>
    <| b_opt := set_opt F_CLEARING_FIRM (boe_copy_to_array 4 (string_bytes clearing_firm) 0) (b_opt b) |>
    <| b_msglen := msglen |>.
Definition prepare_modify_order_buffer (clearing_firm : string) (cancel_orig_on_reject : bool)
    (b : OutboundMsgBuffer BoeModifyOrder) : OutboundMsgBuffer BoeModifyOrder :=
  let msglen := (c_size c_BoeModifyOrder + 2 + opt_size ModifyOrder_opt)%nat in
  let m := b_msg b in
  let m := m <| bm_message_header := prepared_header MODIFY_ORDER_V2 msglen |> <| bm_num_bitfields := 2 |> in
  b <| b_msg := m |>
    <| b_bitfields := modify_order_bitfields |>
    <| b_opt := set_int F_MAX_FLOOR 0 (set_int F_CANCEL_ORIG_ON_REJECT
                  (if cancel_orig_on_reject then 89 else 78)
                  (set_opt F_CLEARING_FIRM (boe_copy_to_array 4 (string_bytes clearing_firm) 0)
                     (b_opt b))) |>
    <| b_msglen := msglen |>.

(** ** Construction *)

(** [cta_to_bats_symbology] *)
Definition cta_to_bats_symbology (cta : list Z) : list Z := cta_symbology cta.

Definition PERSISTENT : Type := Z * list Z.
(** [init_seqnum_overrides], less than zero for none: keys are walked in order. *)
Definition key_leb (a b : string) : Prop := String.leb a b = true.
#[export] Instance key_leb_dec : RelDecision key_leb.
Proof. unfold RelDecision, key_leb. intros. apply _. Defined.

Section Overrides.
Context (lex_int lex_i64 : string → option Z).

Definition outbound_seqnum_override (cfg : ConfigState) : Z :=
  cs_get_or_default lex_int cfg "outbound_seqnum_override" (-1).
Definition override_one (ibseq : ConfigState) (l : list Z) (k : string) : list Z :=
  match lex_int k with
  | None => l
  | Some index =>
      if (index <? 1) || (Z.of_nat NUMBER_OF_MATCHING_UNITS <? index) then l
      else <[Z.to_nat index := cs_get_or_default lex_i64 ibseq k (-1)]> l
  end.
Definition inbound_seqnum_override (cfg : ConfigState) : list Z :=
  match cs_get lex_i64 cfg "inbound_seqnum_override" with
  | Some all => replicate MAX_NUMBER_OF_MATCHING_UNITS all
  | None =>
      let ibseq := copy_prefix_domain cfg "inbound_seqnum_override." in
      foldl (override_one ibseq) (replicate MAX_NUMBER_OF_MATCHING_UNITS (-1))
        (merge_sort key_leb (elements (get_key_prefix_set ibseq dot)))
  end.
End Overrides.

(** [recover_state]: [persisted] is what the mapped file holds. *)
Definition boe_recover_state (state_path : string) (persisted : option PERSISTENT)
    (outbound_override : Z) (inbound_override : list Z) : res PERSISTENT :=
  if bool_decide (state_path = "") then Fail (Thrown "requires a state_path")
  else match persisted with
  | None => Fail (Thrown "could not open persistent state")
  | Some (outbound, inbound) =>
      let outbound := if negb (outbound =? 0) then u32 (outbound - 1) else outbound in
      let outbound := if 0 <=? outbound_override then u32 outbound_override else outbound in
      Ok (outbound, zip_with (λ seq over, if 0 <=? over then u32 over else seq) inbound inbound_override)
  end.

(** What the memory of the session's buffers held before. *)
Record RawBuffers := mkRaw {
  raw_no : list (OutboundMsgBuffer NewOrder);
  raw_cxl : list (OutboundMsgBuffer BoeCancelOrder);
  raw_mod : list (OutboundMsgBuffer BoeModifyOrder)
}.

Section Session.
Context {E : Type} `{Connection E}.
Implicit Types s : BOE20Session E.

(** [symbology_init] *)
Definition boe_symbology_add (esi : Z) (cta_symbol : list Z) s : BOE20Session E :=
  let arr := boe_copy_to_array 8 (cta_to_bats_symbology cta_symbol) 0 in
  s <| bo_symbol_array := <[esi := arr]> (bo_symbol_array s) |>
    <| bo_symbol_inst_cache := <[arr := esi]> (bo_symbol_inst_cache s) |>.
Definition boe_symbology_init (symbols : list (Z * list Z)) s : BOE20Session E :=
  foldl (λ s es, boe_symbology_add es.1 es.2 s) s symbols.

(** The constructor: [cs] is the domain "oe.sessions.<name>.", and the widths are
    those of the types of the credentials. *)
Definition BOE20Session_new (sub_id_width username_width password_width : nat)
    (lex_int lex_u32 lex_i64 : string → option Z) (lex_bool : string → option bool)
    (name : string) (cs : ConfigState) (symbols : list (Z * list Z)) (raw : RawBuffers)
    (persisted : option PERSISTENT) (e : E) : res (BOE20Session E) :=
  let missing key := ("could not find " +:+ key +:+ " in config")%string in
  let required key := require (missing key) (cs_get Some cs key) in
  mic ← OrderSession_init "BOE20Session" false cs;
  host ← required "remote.addr";
  port ← require (missing "remote.port") (cs_get lex_int cs "remote.port");
  sub_id ← required "session_sub_id";
  username ← required "username";
  password ← required "password";
  let auto_reconnect := negb (cs_get_or_default lex_int cs "auto_reconnect" 1 =? 0) in
  let interval :=
    cs_get_or_default lex_u32 cs "reconnect_interval_ms" DEFAULT_RECONNECT_INTERVAL_MS in
  clearing_firm ← required "clearing_firm";
  clearing_account ← required "clearing_account";
  loc ← required "hpr_broker_loc";
  let cancel_orig_on_reject := cs_get_or_default lex_bool cs "cancel_orig_on_reject" false in
  '(outbound, inbound) ← boe_recover_state
    (cs_get_or_default Some cs "state_path" ("boe20." +:+ name +:+ ".state")) persisted
    (outbound_seqnum_override lex_int cs) (inbound_seqnum_override lex_int lex_i64 cs);
  let credentials := boe_copy_to_array sub_id_width (string_bytes sub_id) 0
    ++ boe_copy_to_array username_width (string_bytes username) 0
    ++ boe_copy_to_array password_width (string_bytes password) 0 in
  Ok (boe_symbology_init symbols
    (mkBoe name mic false UNCONNECTED host port [] ts_zero ts_zero credentials
       (default 0 (head (string_bytes loc))) ∅ auto_reconnect ts_zero interval
       (bs_init (prepare_new_order_buffer clearing_firm clearing_account) (mkStore (raw_no raw) []))
       (bs_init (prepare_cancel_order_buffer clearing_firm) (mkStore (raw_cxl raw) []))
       (bs_init (prepare_modify_order_buffer clearing_firm cancel_orig_on_reject)
          (mkStore (raw_mod raw) []))
       ∅ ∅ outbound inbound e)).

(** ** Sending *)

(** [send_helper]: the time is kept whatever became of the bytes. *)
Definition send_helper (buf : list Z) s : BOE20Session E :=
  let '(_, e) := conn_send buf (bo_net s) in
  let '(t, e) := conn_now e in
  s <| bo_net := e |> <| bo_last_message_sent_ts := t |>.
(** [send_helper_nolock] *)
Definition send_helper_nolock (buf : list Z) s : BOE20Session E :=
  let '(n, e) := conn_send buf (bo_net s) in
  if n <? 0 then s <| bo_net := e |>
  else
    let '(t, e) := conn_now e in
    s <| bo_net := e |> <| bo_last_message_sent_ts := t |>.

(** ** Login *)

Definition UNIT_SEQUENCES : Z := 128.
Definition RETURN_BITFIELDS : Z := 129.

(** The return bitfields that the session asks for. *)
Definition return_bitfields : list (BoeMessageType * list Z) :=
  let third := [F_ACCOUNT; F_CLEARING_FIRM; F_CLEARING_ACCOUNT; F_DISPLAY_INDICATOR; F_MAX_FLOOR;
                F_DISCRETION_AMOUNT; F_ORDER_QTY] in
  let sym := bits OrderAcknowledgmentBitfield2 [F_SYMBOL; F_CAPACITY] in
  let acct := bits OrderAcknowledgmentBitfield3 third in
  let quote := bits OrderAcknowledgmentBitfield6 [F_ATTRIBUTED_QUOTE; F_EXT_EXEC_INST] in
  let rout := bits OrderAcknowledgmentBitfield8 [F_ROUTING_INST] in
  [(ORDER_ACKNOWLEDGMENT_V2, [255; sym; acct; 0;
      bits OrderAcknowledgmentBitfield5 [F_LEAVES_QTY; F_DISPLAY_PRICE; F_WORKING_PRICE];
      quote; 0; rout]);
   (ORDER_REJECTED_V2, [255; sym; acct; 0; 0; quote; 0; rout]);
   (ORDER_MODIFIED_V2, [255; 0; acct; 0;
      bits OrderAcknowledgmentBitfield5
        [F_ORIG_CL_ORD_ID; F_LEAVES_QTY; F_DISPLAY_PRICE; F_WORKING_PRICE];
      quote; 0; rout]);
   (ORDER_RESTATED_V2, [255; sym; acct; 0;
      bits OrderAcknowledgmentBitfield5
        [F_ORIG_CL_ORD_ID; F_LEAVES_QTY; F_DISPLAY_PRICE; F_WORKING_PRICE];
      quote; 0; rout]);
   (USER_MODIFY_REJECTED_V2, replicate 8 0);
   (ORDER_CANCELLED_V2, [255; sym; acct; 0;
      bits OrderAcknowledgmentBitfield5 [F_LEAVES_QTY]; quote; 0; rout]);
   (CANCEL_REJECTED_V2, [255; sym; 0; 0; 0; 0; 0; 0]);
   (ORDER_EXECUTION_V2, [255; sym; acct; 0; 0;
      bits OrderExecutionBitfield6 [F_ATTRIBUTED_QUOTE; F_EXT_EXEC_INST]; 0;
      bits OrderExecutionBitfield8 [F_FEE_CODE; F_ROUTING_INST]]);
   (TRADE_CANCEL_OR_CORRECT_V2, [0; sym; 0; 0; 0; 0; 0; 0])].

(** [ReturnBitfieldsParamGroup] and [UnitSequencesParamGroup]: their length, their
    type, and what they hold. *)
Definition return_bitfields_group (r : BoeMessageType * list Z) : list Z :=
  le_bytes 2 13 ++ [RETURN_BITFIELDS; BoeMessageType_to_Z r.1; 8] ++ r.2.
Definition get_sizeof_unit_sequences_group (num : nat) : nat :=
  if (0 <? num)%nat then 5 + num * c_size c_UnitNumberSequencePair else 0.
Definition get_sizeof_return_bitfields_group : nat := 13 * 9.
Definition unit_sequences_group (units : list (Z * Z)) : list Z :=
  match units with
  | [] => []
  | _ => le_bytes 2 (Z.of_nat (get_sizeof_unit_sequences_group (length units)))
         ++ [UNIT_SEQUENCES; 1; Z.of_nat (length units)]
         ++ concat (map (c_enc c_UnitNumberSequencePair) units)
  end.

(** The units that something was received from, and its number. *)
Definition unit_sequences (inbound : list Z) : list (Z * Z) :=
  omap (λ i, match inbound !! i with
             | Some seq => if seq =? 0 then None else Some (Z.of_nat i, seq)
             | None => None
             end) (seq 1 NUMBER_OF_MATCHING_UNITS).

Definition boe_login_request s : list Z :=
  let units := unit_sequences (bo_inbound_seqnum s) in
  let msglen := (c_size c_LoginRequest + get_sizeof_unit_sequences_group (length units)
                 + get_sizeof_return_bitfields_group)%nat in
  let groups := (if (0 <? length units)%nat then 1 else 0) + Z.of_nat (length return_bitfields) in
  c_enc c_LoginRequest
    (mkLoginRequest (prepared_header LOGIN_REQUEST_V2 msglen) (bo_credentials s) groups)
  ++ unit_sequences_group units ++ concat (map return_bitfields_group return_bitfields).
Definition send_login_request s : BOE20Session E := send_helper_nolock (boe_login_request s) s.
Definition send_heartbeat s : BOE20Session E :=
  send_helper (c_enc c_BoeHeader ClientHeartbeat_create) s.
Definition send_logout_request s : BOE20Session E :=
  send_helper (c_enc c_BoeHeader LogoutRequest_create)
    (s <| bo_state := BS_LOGOUT_SENT |> <| bo_active := false |>).

(** ** The state machine of the connection *)

Definition boe_disconnected s : bool :=
  bool_decide (bo_state s = UNCONNECTED) || bool_decide (bo_state s = BS_DISCONNECT)
  || bool_decide (bo_state s = ERROR_DISCONNECT).

Definition disconnect_connection (requested : bool) s : BOE20Session E :=
  s <| bo_active := false |>
    <| bo_state := if requested then BS_DISCONNECT else ERROR_DISCONNECT |>
    <| bo_net := conn_disconnect (bo_net s) |>.
Definition do_logout (requested : bool) s : BOE20Session E :=
  disconnect_connection requested (send_logout_request s).

Definition boe_connect (replay : bool) s : bool * BOE20Session E :=
  if bool_decide (bo_host s = "") || (bo_port s =? 0) || negb (boe_disconnected s) then (false, s)
  else
    let '(ok, e) := conn_connect (bo_host s) (bo_port s) (bo_net s) in
    (ok, s <| bo_net := e |>).

(** [disconnect], after the base class's. *)
Definition boe_disconnect (force : bool) s : BOE20Session E :=
  let s := s <| bo_active := false |> in
  if force then do_logout true s else s <| bo_state := USER_LOGOUT_REQUEST |>.
Definition disconnect_and_quit s : BOE20Session E :=
  let s := boe_disconnect true s in s <| bo_net := conn_shutdown (bo_net s) |>.

Definition boe_on_connected s : BOE20Session E :=
  if boe_disconnected s then (send_login_request s) <| bo_state := WAITING_FOR_LOGIN |> else s.
Definition boe_on_peer_disconnect (ts : Timestamp) s : BOE20Session E :=
  disconnect_connection false (s <| bo_last_reconnect_attempt_ts := ts |>).
Definition boe_on_local_disconnect (ts : Timestamp) s : BOE20Session E :=
  disconnect_connection false (s <| bo_last_reconnect_attempt_ts := ts |>).

Definition elapsed_ms (now since : Timestamp) : Z :=
  u64 (milliseconds_since_midnight now - milliseconds_since_midnight since).
Definition in_session s : bool :=
  bool_decide (bo_state s = ACTIVE) || bool_decide (bo_state s = REPLAY).
Definition boe_on_timer (ts : Timestamp) s : BOE20Session E :=
  if (in_session s
      && (MISSED_HB_BEFORE_LOGOUT * HEARTBEAT_MS <=? elapsed_ms ts (bo_last_message_recv_ts s)))
     || bool_decide (bo_state s = USER_LOGOUT_REQUEST)
  then do_logout false s
  else
    let s := if in_session s && (HEARTBEAT_MS <=? elapsed_ms ts (bo_last_message_sent_ts s))
             then send_heartbeat s else s in
    if bool_decide (bo_state s = ERROR_DISCONNECT) && bo_auto_reconnect s
       && (bo_reconnect_interval_ms s <=? elapsed_ms ts (bo_last_reconnect_attempt_ts s))
    then (boe_connect false (s <| bo_last_reconnect_attempt_ts := ts |>)).2
    else s.

(** ** Orders *)

Definition symbol_array_of (esi : Z) s : list Z := default (replicate 8 0) (bo_symbol_array s !! esi).

(** [create_cl_ord_id]: the symbol's first six characters, filled with zeros. *)
Definition hpr_symbol_of (sym : list Z) : list Z :=
  map (λ c, if c =? 0 then 48 else c) (take 6 (sym ++ replicate 6 0)).
Definition create_cl_ord_id {D} (o : Order D) s : list Z :=
  ClOrdID_set (bo_hpr_broker_loc s) (o_local_account o) (o_localID o)
    (hpr_symbol_of (symbol_array_of (o_instrument o) s)).

Definition EI_DEFAULT : Z := 32.
Definition EI_MIDPOINT_PEG_TO_NBBO_MID : Z := 77.
Definition EI_LISTING_MARKET_OPENING : Z := 111.
Definition EI_LISTING_MARKET_CLOSING : Z := 99.
Definition EI_BOTH_LISTING_MARKET_OPEN_N_CLOSE : Z := 97.
Definition EI_MIDPOINT_DISCRETIONARY : Z := 100.
Definition EI_LATE : Z := 114.
Definition DI_DEFAULT : Z := 86.
Definition RI_UNKNOWN : Z := 0.
Definition RI_BOOK_ONLY : Z := 66.

(** Assignments to members of a [BOE20Order]. *)
Definition set_boe {D} (g : BOEFields → BOEFields) (o : Order D) : Order D :=
  match o_kind o with
  | BATSOrder be => o <| o_kind := BATSOrder (g be) |>
  | _ => o
  end.

(** [exec_inst_from_order]: none where it returns false; a default is written to
    the order. *)
Definition exec_inst_allowed (mic : MIC) (ei : Z) : bool :=
  if (ei =? EI_LISTING_MARKET_OPENING) || (ei =? EI_LISTING_MARKET_CLOSING)
     || (ei =? EI_BOTH_LISTING_MARKET_OPEN_N_CLOSE)
  then bool_decide (mic = BATS) || bool_decide (mic = EDGX)
  else if ei =? EI_MIDPOINT_DISCRETIONARY then bool_decide (mic = BATY)
  else if ei =? EI_LATE then bool_decide (mic = BATS) else true.
Definition exec_inst_from_order {D} (mic : MIC) (be : BOEFields) (o : Order D) : option Z * Order D :=
  if negb (be_exec_inst be =? EI_UNKNOWN) then
    (if exec_inst_allowed mic (be_exec_inst be) then Some (be_exec_inst be) else None, o)
  else
    let ei := if bool_decide (o_type o = MIDPOINT_PEG) then EI_MIDPOINT_PEG_TO_NBBO_MID
              else EI_DEFAULT in
    (Some ei, set_boe (λ be, be <| be_exec_inst := ei |>) o).
Definition display_indicator_from_order {D} (be : BOEFields) (o : Order D) : Z * Order D :=
  if be_display_indicator be =? DI_UNKNOWN
  then (DI_DEFAULT, set_boe (λ be, be <| be_display_indicator := DI_DEFAULT |>) o)
  else (be_display_indicator be, o).
(** [RoutingInst::set] *)
Definition RoutingInst_set (first second : Z) : list Z := [first; second; 0; 0].
Definition routing_inst_from_order {D} (be : BOEFields) (o : Order D) : list Z * Order D :=
  if default 0 (head (be_routing_inst be)) =? RI_UNKNOWN then
    let ri := RoutingInst_set RI_BOOK_ONLY 0 in
    (ri, set_boe (λ be, be <| be_routing_inst := ri |>) o)
  else (be_routing_inst be, o).

(** [m_id_map.insert]: an entry that is there stays. *)
Definition emplace_id (local_id : Z) (id : list Z) (m : gmap Z (list Z)) : gmap Z (list Z) :=
  match m !! local_id with Some _ => m | None => <[local_id := id]> m end.

Section Orders.
Context {D : Type} `{Dbl D}.
Implicit Types o : Order D.

(** Each step that can fail returns the buffer and the order as they are then. *)
Definition fill_new_order_opt (mic : MIC) (be : BOEFields) o (v : Fields) : bool * Fields * Order D :=
  let v := set_int F_PRICE (price_to_fixed (o_price o)) v in
  let '(ei, o) := exec_inst_from_order mic be o in
  match ei with
  | None => (false, v, o)
  | Some ei =>
      let v := set_int F_EXEC_INST ei v in
      match ord_type_from_order (o_type o) with
      | None => (false, v, o)
      | Some ot =>
          let v := set_int F_ORD_TYPE ot v in
          match tif_from_order (o_tif o) with
          | None => (false, v, o)
          | Some tif =>
              let v := set_int F_TIME_IN_FORCE tif v in
              let '(di, o) := display_indicator_from_order be o in
              let v := set_int F_DISPLAY_INDICATOR di v in
              let '(ri, o) := routing_inst_from_order be o in
              (true, set_opt F_ROUTING_INST ri v, o)
          end
      end
  end.
Definition fill_new_order (mic : MIC) (be : BOEFields) o (b : OutboundMsgBuffer NewOrder)
    : bool * OutboundMsgBuffer NewOrder * Order D :=
  match side_from_order (o_side o) with
  | None => (false, b, o)
  | Some side =>
      let b := b <| b_msg := (b_msg b) <| nw_side := side |> |> in
      if MAX_ORDER_QTY <? o_size o then (false, b, o)
      else
        let b := b <| b_msg := (b_msg b) <| nw_order_qty := o_size o |> |> in
        let '(ok, v, o) := fill_new_order_opt mic be o (b_opt b) in
        (ok, b <| b_opt := v |>, o)
  end.

(** [m_persist_state->data()->outbound_seqnum++] *)
Definition take_seqnum s : Z * BOE20Session E :=
  (bo_outbound_seqnum s, s <| bo_outbound_seqnum := u32 (bo_outbound_seqnum s + 1) |>).

(** [send_new_order]; the order is a [BOE20Order], which the code casts to without
    looking: the order manager has compared the markets. *)
Definition send_new_order o s : bool * BOE20Session E * Order D :=
  match o_kind o with
  | BATSOrder be =>
      match bs_get (bo_no_bufs s) with
      | None => (false, s, o)
      | Some (i, b, store) =>
          let id := create_cl_ord_id o s in
          let b := b <| b_msg := (b_msg b) <| nw_cl_ord_id := id |> |> in
          let o := set_client_order_id o id in
          let s := s <| bo_id_map := emplace_id (o_localID o) id (bo_id_map s) |> in
          let '(ok, b, o) := fill_new_order (bo_mic s) be o b in
          if ok : bool then
            let b := b <| b_opt := set_opt F_SYMBOL (symbol_array_of (o_instrument o) s) (b_opt b) |> in
            let '(n, s) := take_seqnum s in
            let h := (nw_message_header (b_msg b)) <| h_sequence_number := n |> in
            let b := b <| b_msg := (b_msg b) <| nw_message_header := h |> |> in
            let '(t, e) := conn_now (bo_net s) in
            let o := o <| o_sent_time := t |> in
            let s := send_helper_nolock (buffer_bytes c_NewOrder NewOrder_opt b)
                       (s <| bo_net := e |>) in
            (true, s <| bo_no_bufs := bs_release i (bs_put i b store) |>, o)
          else (false, s <| bo_no_bufs := bs_release i (bs_put i b store) |>, o)
      end
  | _ => (false, s, o)
  end.

(** The order's entry in [m_id_map], made again when it is missing. *)
Definition cancel_id o s : list Z * BOE20Session E :=
  match bo_id_map s !! o_localID o with
  | Some id => (id, s)
  | None =>
      let id := create_cl_ord_id o s in
      (id, s <| bo_id_map := <[o_localID o := id]> (bo_id_map s) |>)
  end.
Definition send_cancel o s : bool * BOE20Session E * Order D :=
  let '(id, s) := cancel_id o s in
  match bs_get (bo_cxl_bufs s) with
  | None => (false, s, o)
  | Some (i, b, store) =>
      let b := b <| b_msg := (b_msg b) <| bc_orig_cl_ord_id := id |> |> in
      let '(n, s) := take_seqnum s in
      let h := (bc_message_header (b_msg b)) <| h_sequence_number := n |> in
      let b := b <| b_msg := (b_msg b) <| bc_message_header := h |> |> in
      let '(t, e) := conn_now (bo_net s) in
      let o := o <| o_last_request_time := t |> in
      let s := send_helper_nolock (buffer_bytes c_BoeCancelOrder CancelOrder_opt b)
                 (s <| bo_net := e |>) in
      (true, s <| bo_cxl_bufs := bs_release i (bs_put i b store) |>, o)
  end.

(** The quantity that a modification asks for. *)
Definition modify_qty o (newqty : Z) : Z :=
  u32 (u32 (newqty + u32 (o_size o - o_cancelled_size o)) - o_open_size o).
Definition fill_modify_order (mic : MIC) (be : BOEFields) o (newqty : Z) (v : Fields)
    : bool * Fields * Order D :=
  let v := set_int F_ORDER_QTY (modify_qty o newqty) v in
  let v := set_int F_PRICE (price_to_fixed (o_price o)) v in
  match ord_type_from_order (o_type o) with
  | None => (false, v, o)
  | Some ot =>
      let v := set_int F_ORD_TYPE ot v in
      let '(ei, o) := exec_inst_from_order mic be o in
      match ei with
      | None => (false, v, o)
      | Some ei =>
          let v := set_int F_EXEC_INST ei v in
          match side_from_order (o_side o) with
          | None => (false, v, o)
          | Some side => (true, set_int F_SIDE side v, o)
          end
      end
  end.
Definition send_modify o (newqty : Z) s : bool * BOE20Session E * Order D :=
  match o_kind o, bo_id_map s !! o_localID o with
  | BATSOrder be, Some id =>
      match bs_get (bo_mod_bufs s) with
      | None => (false, s, o)
      | Some (i, b, store) =>
          let b := b <| b_msg := (b_msg b) <| bm_new_cl_ord_id := id |> <| bm_orig_cl_ord_id := id |> |> in
          let '(ok, v, o) := fill_modify_order (bo_mic s) be o newqty (b_opt b) in
          let b := b <| b_opt := v |> in
          if ok : bool then
            let '(n, s) := take_seqnum s in
            let h := (bm_message_header (b_msg b)) <| h_sequence_number := n |> in
            let b := b <| b_msg := (b_msg b) <| bm_message_header := h |> |> in
            let '(t, e) := conn_now (bo_net s) in
            let o := o <| o_last_request_time := t |> in
            let s := send_helper_nolock (buffer_bytes c_BoeModifyOrder ModifyOrder_opt b)
                       (s <| bo_net := e |>) in
            (true, s <| bo_mod_bufs := bs_release i (bs_put i b store) |>, o)
          else (false, s <| bo_mod_bufs := bs_release i (bs_put i b store) |>, o)
      end
  | _, _ => (false, s, o)
  end.

Definition boe_send (a : Z) o s : bool * BOE20Session E * Order D :=
  if negb (bool_decide (bo_state s = ACTIVE)) then (false, s, o) else send_new_order o s.
Definition boe_cancel (a : Z) o (newqty : Z) s : bool * BOE20Session E * Order D :=
  if negb (bool_decide (bo_state s = ACTIVE)) then (false, s, o)
  else if newqty =? 0 then send_cancel o s
  else if o_size o <=? newqty then (false, s, o) else send_modify o newqty s.
Definition boe_destroy (a : Z) o s : bool * BOE20Session E := (false, s).

(** [on_create_replay_order]: the account and the user data are not kept. *)
Definition boe_create_replay_order (ts : Timestamp) (inst : Z) (mic : MIC)
    (local_account local_id : Z) (price : D) (size : Z) (side : Side) (tif : TimeInForce)
    (type : OrderType) (ud : Z) s : option (Order D) * BOE20Session E :=
  if negb (bool_decide (mic = BATS)) then (None, s)
  else
    let '(now, e) := conn_now (bo_net s) in
    let o := Order_new now (BATSOrder BOE20Order_default) inst price size side tif type None 0 in
    let o := o <| o_session := Some (bo_name s) |> <| o_sent_time := ts |>
               <| o_localID := local_id |> in
    (Some (set_client_order_id o (create_cl_ord_id o s)), s <| bo_net := e |>).
End Orders.
End Session.

#[export] Instance BOE20Session_session {D E} `{Dbl D} `{Connection E} :
  OrderSession D (BOE20Session E) := {|
  ss_market := bo_mic;
  ss_active := bo_active;
  ss_connect := boe_connect;
  ss_disconnect := boe_disconnect;
  ss_send := boe_send;
  ss_cancel := boe_cancel;
  ss_destroy := boe_destroy;
  ss_cancel_all := λ s, (-1, s);
  ss_create_replay_order := boe_create_replay_order
|}.

(** ** Laws of the interface *)

Section Laws.
Context {D E : Type} `{Dbl D} `{Connection E}.
Implicit Types (o : Order D) (s : BOE20Session E).

Lemma set_boe_only g o : session_fields_only o (set_boe g o).
Proof. unfold set_boe. destruct o as [[| | |]]; by split. Qed.
Lemma set_client_order_id_session o id : session_fields_only o (set_client_order_id o id).
Proof. by destruct o. Qed.
Lemma exec_inst_only mic be o ei o' : exec_inst_from_order mic be o = (ei, o') → session_fields_only o o'.
Proof. unfold exec_inst_from_order. case_match; intros [= _ <-]; [done|apply set_boe_only]. Qed.
Lemma fill_new_order_only mic be o b ok b' o' : fill_new_order mic be o b = (ok, b', o') →
  session_fields_only o o'.
Proof.
  unfold fill_new_order, fill_new_order_opt. destruct (side_from_order (o_side o)); [|by intros [= _ _ <-]].
  case_match; [by intros [= _ _ <-]|]. destruct (exec_inst_from_order mic be o) as [[ei|] o1] eqn:He;
    apply exec_inst_only in He; [|by intros [= _ _ <-]].
  destruct (ord_type_from_order (o_type o1)); [|by intros [= _ _ <-]].
  destruct (tif_from_order (o_tif o1)); [|by intros [= _ _ <-]].
  unfold display_indicator_from_order, routing_inst_from_order.
  repeat case_match; intros; simplify_eq; repeat (etransitivity; [|apply set_boe_only]); done.
Qed.
Lemma fill_modify_order_only mic be o q v ok v' o' : fill_modify_order mic be o q v = (ok, v', o') →
  session_fields_only o o'.
Proof.
  unfold fill_modify_order. destruct (ord_type_from_order (o_type o)); [|by intros [= _ _ <-]].
  destruct (exec_inst_from_order mic be o) as [[ei|] o1] eqn:He; apply exec_inst_only in He;
    [|by intros [= _ _ <-]]. by destruct (side_from_order (o_side o1)); intros [= _ _ <-].
Qed.

Lemma send_helper_nolock_mic buf s : bo_mic (send_helper_nolock buf s) = bo_mic s.
Proof.
  unfold send_helper_nolock. destruct (conn_send buf (bo_net s)) as [n e].
  case_match; [done|]. by destruct (conn_now e).
Qed.

(** Writes the times of a sent order. *)
Lemma times_only o t : session_fields_only o (o <| o_sent_time := t |>)
  /\ session_fields_only o (o <| o_last_request_time := t |>).
Proof. by destruct o. Qed.

Lemma cancel_id_mic o s : bo_mic (cancel_id o s).2 = bo_mic s.
Proof. unfold cancel_id. by case_match. Qed.

Lemma send_new_order_law o s b s' o' : send_new_order o s = (b, s', o') →
  session_fields_only o o' /\ bo_mic s' = bo_mic s.
Proof.
  unfold send_new_order. destruct (o_kind o) as [| | |be]; try by intros [= _ <- <-].
  destruct (bs_get (bo_no_bufs s)) as [[[i buf] store]|]; [|by intros [= _ <- <-]].
  cbv zeta. destruct (fill_new_order _ _ _ _) as [[ok b1] o1] eqn:Hf. apply fill_new_order_only in Hf.
  assert (session_fields_only o o1) as Ho by (etransitivity; [apply set_client_order_id_session|exact Hf]).
  destruct ok; [|by intros [= _ <- <-]]. unfold take_seqnum.
  destruct (conn_now _) as [t e]. intros [= _ <- <-]. split.
  - etransitivity; [exact Ho|]. apply times_only.
  - cbn. by rewrite send_helper_nolock_mic.
Qed.
Lemma send_cancel_law o s b s' o' : send_cancel o s = (b, s', o') →
  session_fields_only o o' /\ bo_mic s' = bo_mic s.
Proof.
  unfold send_cancel. pose proof (cancel_id_mic o s) as Hm. destruct (cancel_id o s) as [id s1].
  cbn [snd] in Hm. destruct (bs_get (bo_cxl_bufs s1)) as [[[i buf] store]|]; [|by intros [= _ <- <-]].
  unfold take_seqnum. destruct (conn_now _) as [t e]. intros [= _ <- <-].
  split; [apply times_only|]. cbn. by rewrite send_helper_nolock_mic.
Qed.
Lemma send_modify_law o q s b s' o' : send_modify o q s = (b, s', o') →
  session_fields_only o o' /\ bo_mic s' = bo_mic s.
Proof.
  unfold send_modify. destruct (o_kind o) as [| | |be]; try by intros [= _ <- <-].
  destruct (bo_id_map s !! o_localID o) as [id|]; [|by intros [= _ <- <-]].
  destruct (bs_get (bo_mod_bufs s)) as [[[i buf] store]|]; [|by intros [= _ <- <-]].
  cbv zeta. destruct (fill_modify_order _ _ _ _ _) as [[ok v] o1] eqn:Hf.
  apply fill_modify_order_only in Hf. destruct ok; [|by intros [= _ <- <-]]. unfold take_seqnum.
  destruct (conn_now _) as [t e]. intros [= _ <- <-]. split.
  - etransitivity; [exact Hf|]. apply times_only.
  - cbn. by rewrite send_helper_nolock_mic.
Qed.

#[export] Instance BOE20Session_laws : OrderSessionLaws D (BOE20Session E).
Proof.
  split; cbn [ss_market ss_send ss_cancel ss_destroy ss_connect ss_disconnect ss_cancel_all BOE20Session_session].
  - intros a o s b s' o'. unfold boe_send. case_match; [by intros [= _ <- <-]|].
    apply send_new_order_law.
  - intros a o q s b s' o'. unfold boe_cancel. case_match; [by intros [= _ <- <-]|].
    case_match; [apply send_cancel_law|]. case_match; [by intros [= _ <- <-]|apply send_modify_law].
  - by intros a o s b s' [= _ <-].
  - intros r s b s'. unfold boe_connect. case_match; [by intros [= _ <-]|].
    destruct (conn_connect _ _ _). by intros [= _ <-].
  - intros f s. unfold boe_disconnect, do_logout, disconnect_connection, send_logout_request.
    destruct f; [|done]. unfold send_helper. destruct (conn_send _ _), (conn_now _). done.
  - by intros s n s' [= _ <-].
Qed.
End Laws.
