(* ===== verification/Boe20Sent.v ===== *)
(** * What a BOE 2.0 session sends

    The prepared buffers are never lost and never spoilt, so that a message is
    determined by the order and the session's configuration; every message reads
    back, by its bitfields, as what the order says; messages are numbered without
    a gap; and where the session falls short of this. *)

From S2P Require Import Prelude Dbl Time Types Order Config Alphanum Codec Boe20Wire.
From S2P Require Import OrderLog Session SessionKit Boe20.
From Stdlib Require Import Qcanon QArith.
Open Scope Z_scope.

(** Membership in a list that can be computed. *)
Ltac in_layout := apply (bool_decide_unpack _); vm_compute; exact I.

(** ** Bitfields and structs *)

(** The session reads and writes optional fields through fixed structs, and
    the bits it asks the exchange for in its login, and those of the new orders
    and cancels it sends, select exactly the members of these structs, in their
    order.  A modification is the exception: its struct has one member more than
    its bits select. *)
Theorem bitfields_match_structs :
  Forall (λ r, selected (bitfields_of r.1) r.2 = opt_struct r.1) return_bitfields
  /\ selected (bitfields_of NEW_ORDER_V2) new_order_bitfields = NewOrder_opt
  /\ selected (bitfields_of CANCEL_ORDER_V2) cancel_order_bitfields = CancelOrder_opt
  /\ selected (bitfields_of MODIFY_ORDER_V2) modify_order_bitfields ++ [F_MAX_FLOOR]
     = ModifyOrder_opt.
Proof.
  split; [|by split_and!]. unfold return_bitfields.
  repeat (apply Forall_cons; split; [reflexivity|]). by apply Forall_nil.
Qed.

(** ** The exchange's reading of a message *)

Section Reading.
Context {M : Type} (c : Codec M) `{!CodecOk c} (hdr : M → BoeHeader) (num_bitfields : M → Z).

(** The fixed part, as many bytes of bits as it says, and the fields that these
    select, which must be all there is. *)
Definition boe_exchange_reads (t : BoeMessageType) (packet : list Z) : option (M * Fields) :=
  let m := c_dec c packet in
  let nb := Z.to_nat (num_bitfields m) in
  let layout := selected (bitfields_of t) (take nb (drop (c_size c) packet)) in
  let rest := drop (c_size c + nb) packet in
  if (h_start_of_message (hdr m) =? START_OF_MESSAGE_SENTINEL)
     && (h_message_type (hdr m) =? BoeMessageType_to_Z t)
     && (h_message_length (hdr m) + 2 =? Z.of_nat (length packet))
     && (length rest =? opt_size layout)%nat
  then Some (m, λ f, opt_read layout f rest) else None.

(** A header as it was prepared, with a number. *)
Definition header_of (t : BoeMessageType) (len : nat) (n : Z) : BoeHeader :=
  (prepared_header t len) <| h_sequence_number := n |>.

Lemma header_of_valid t len n : in_u 32 n → c_valid c_BoeHeader (header_of t len n).
Proof.
  intros [Hn1 Hn2]. unfold header_of, prepared_header, BoeHeader_create. cbn.
  pose proof (wrap_range 16 (Z.of_nat len - 2) ltac:(lia)) as [H1 H2].
  assert (0 <= BoeMessageType_to_Z t < 256) by (destruct t; cbn; lia).
  repeat split; try done; try lia.
Qed.

Lemma exchange_reads_layout t m bitfields layout v layout' n :
  c_valid c m → hdr m = header_of t (c_size c + length bitfields + opt_size layout) n →
  num_bitfields m = Z.of_nat (length bitfields) → selected (bitfields_of t) bitfields = layout' →
  opt_valid layout v → 2 <= Z.of_nat (c_size c + length bitfields + opt_size layout) < 65538 →
  let packet := c_enc c m ++ bitfields ++ opt_bytes layout v in
  length packet = (c_size c + length bitfields + opt_size layout)%nat
  /\ boe_exchange_reads t packet
     = if (opt_size layout =? opt_size layout')%nat
       then Some (m, λ f, opt_read layout' f (opt_bytes layout v)) else None.
Proof.
  intros Hm Hh Hnb Hsel Hv Hlen packet. pose proof (codec_length m Hm) as Hcl.
  assert (length packet = (c_size c + length bitfields + opt_size layout)%nat) as Hpl.
  { subst packet. rewrite !length_app, (length_opt_bytes _ _ Hv), Hcl. lia. }
  split; [done|]. unfold boe_exchange_reads. rewrite Hpl. subst packet. rewrite codec_dec_enc by done.
  rewrite Hnb, Nat2Z.id, <- drop_drop, !drop_app_n, take_app_n, Hsel by done.
  rewrite Hh. unfold header_of, prepared_header, BoeHeader_create.
  cbn [h_start_of_message h_message_type h_message_length set_field].
  rewrite (length_opt_bytes _ _ Hv), (wrap_small 16) by (unfold in_u; lia).
  rewrite !Z.eqb_refl. rewrite (proj2 (Z.eqb_eq (_ + 2) _)) by lia. done.
Qed.
End Reading.

(** ** The pools of buffers *)

Section Pool.
Context {M : Type} (good : OutboundMsgBuffer M → Prop).
Implicit Types (st : BufferStore M) (b : OutboundMsgBuffer M).

(** All buffers are free, and fit to be used. *)
Definition pool_ok st : Prop :=
  length (bs_array st) = NUM_MSG_BUFFERS
  /\ bs_free_list st = seq 0 NUM_MSG_BUFFERS
  /\ ∀ i b, bs_array st !! i = Some b → b_index b = i /\ good b.

(** A buffer that is taken, written and released. *)
Lemma pool_get st : pool_ok st →
  ∃ i b st', bs_get st = Some (i, b, st') /\ good b
    /\ ∀ b', b_index b' = b_index b → good b' → pool_ok (bs_release i (bs_put i b' st')).
Proof.
  intros (Hlen & Hfree & Hgood). unfold bs_get. rewrite Hfree. cbn [NUM_MSG_BUFFERS seq].
  destruct (lookup_lt_is_Some_2 (bs_array st) 0) as [b Hb]; [rewrite Hlen; unfold NUM_MSG_BUFFERS; lia|].
  destruct (Hgood 0%nat b Hb) as [Hidx Hb'].
  rewrite Hb. cbn [mbind option_bind]. eexists _, b, _. split; [reflexivity|]. split; [done|].
  intros b' Hidx' Hg'. assert (0 < length (bs_array st))%nat as Hpos by (by eapply lookup_lt_Some).
  unfold bs_release, bs_put. cbn [bs_array bs_free_list].
  rewrite list_lookup_insert_eq by done. unfold pool_ok. cbn [bs_array bs_free_list].
  split; [by rewrite length_insert|]. split; [by rewrite Hidx', Hidx|].
  intros i b0. destruct (decide (i = 0%nat)) as [->|Hne].
  - rewrite list_lookup_insert_eq by done. intros [= <-]. split; [congruence|done].
  - rewrite list_lookup_insert_ne by done. apply Hgood.
Qed.

Lemma bs_init_step f st k : 
  let st' := foldl (λ st i, mkStore (alter (λ b, (f b) <| b_index := i |>) i (bs_array st))
                              (bs_free_list st ++ [i])) st (seq 0 k) in
  length (bs_array st') = length (bs_array st) /\ bs_free_list st' = bs_free_list st ++ seq 0 k
  /\ (∀ i, (i < k)%nat → bs_array st' !! i = (λ b, (f b) <| b_index := i |>) <$> bs_array st !! i)
  /\ ∀ i, (k <= i)%nat → bs_array st' !! i = bs_array st !! i.
Proof.
  induction k as [|k IH]; [cbn; rewrite app_nil_r; split_and!; try done; lia|]. rewrite seq_S, foldl_app. cbn [foldl].
  destruct IH as (H1 & H2 & H3 & H4). set (st1 := foldl _ _ _) in *. cbn [bs_array bs_free_list].
  rewrite length_alter, H2, Nat.add_0_l. split_and!; [done|by rewrite app_assoc|..]; intros i Hi.
  - destruct (decide (i = k)) as [->|Hne].
    + rewrite list_lookup_alter_eq. by rewrite H4.
    + rewrite list_lookup_alter_ne by done. apply H3. lia.
  - rewrite list_lookup_alter_ne by lia. apply H4. lia.
Qed.

Lemma bs_init_ok f raw : length raw = NUM_MSG_BUFFERS → (∀ b i, good ((f b) <| b_index := i |>)) →
  pool_ok (bs_init f (mkStore raw [])).
Proof.
  intros Hlen Hf. unfold bs_init.
  destruct (bs_init_step f (mkStore raw []) NUM_MSG_BUFFERS) as (H1 & H2 & H3 & H4).
  cbn [bs_array bs_free_list] in *. split; [by rewrite H1|]. split; [done|]. intros i b Hb.
  assert (i < NUM_MSG_BUFFERS)%nat as Hi
    by (rewrite <- Hlen, <- H1; by eapply lookup_lt_Some). rewrite H3 in Hb by done.
  apply fmap_Some in Hb as (b0 & _ & ->). split; [done|apply Hf].
Qed.
End Pool.

(** What preparation leaves in a buffer, and sending does not touch: all but the
    dynamic fields. *)
Section Ready.
Context {M : Type} (c : Codec M) `{!CodecOk c} (hdr : M → BoeHeader) (num_bitfields : M → Z).
Context (t : BoeMessageType) (bitfields : list Z) (layout dynamic : list OptField) (template : Fields).
Implicit Types b : OutboundMsgBuffer M.

Definition ready_length : nat := c_size c + length bitfields + opt_size layout.
Definition buffer_ready b : Prop :=
  (∃ n, hdr (b_msg b) = header_of t ready_length n)
  /\ num_bitfields (b_msg b) = Z.of_nat (length bitfields)
  /\ b_bitfields b = bitfields /\ b_msglen b = ready_length
  /\ Forall (λ f, f ∈ dynamic ∨ b_opt b f = template f) layout.

Lemma ready_bytes b : buffer_ready b → c_valid c (b_msg b) → opt_valid layout (b_opt b) →
  buffer_bytes c layout b = c_enc c (b_msg b) ++ bitfields ++ opt_bytes layout (b_opt b).
Proof.
  intros (_ & _ & Hb & Hl & _) Hm Hv. unfold buffer_bytes. rewrite Hb, Hl. apply take_ge.
  rewrite !length_app, (length_opt_bytes _ _ Hv), (codec_length _ Hm). unfold ready_length. lia.
Qed.

(** Writing dynamic fields, and members of the message that are not prepared. *)
Lemma ready_written b m n v : buffer_ready b →
  hdr m = header_of t ready_length n → num_bitfields m = num_bitfields (b_msg b) →
  Forall (λ f, f ∈ dynamic ∨ v f = b_opt b f) layout →
  buffer_ready (b <| b_msg := m |> <| b_opt := v |>).
Proof.
  intros (_ & Hnb & Hb & Hl & Hst) Hh Hnb' Hv. split_and!; [by exists n|by rewrite <- Hnb|done|done|].
  apply Forall_forall. intros f Hf. rewrite Forall_forall in Hst, Hv.
  destruct (Hst f Hf) as [|Ht]; [by left|]. destruct (Hv f Hf) as [|Hw]; [by left|].
  right. cbn. by rewrite Hw.
Qed.
End Ready.

(** ** The three kinds of buffer *)

Section Kinds.
Context (clearing_firm clearing_account : string) (cancel_orig_on_reject : bool).

Definition new_order_dynamic : list OptField :=
  [F_PRICE; F_EXEC_INST; F_ORD_TYPE; F_TIME_IN_FORCE; F_DISPLAY_INDICATOR; F_ROUTING_INST; F_SYMBOL].
Definition new_order_template : Fields :=
  process_new_order_bitfields clearing_firm clearing_account (λ _, []).
Definition new_order_ready : OutboundMsgBuffer NewOrder → Prop :=
  buffer_ready c_NewOrder nw_message_header nw_num_bitfields NEW_ORDER_V2 new_order_bitfields
    NewOrder_opt new_order_dynamic new_order_template.

Definition cancel_template : Fields :=
  set_opt F_CLEARING_FIRM (boe_copy_to_array 4 (string_bytes clearing_firm) 0) (λ _, []).
Definition cancel_ready : OutboundMsgBuffer BoeCancelOrder → Prop :=
  buffer_ready c_BoeCancelOrder bc_message_header bc_num_bitfields CANCEL_ORDER_V2
    cancel_order_bitfields CancelOrder_opt [] cancel_template.

Definition modify_dynamic : list OptField := [F_ORDER_QTY; F_PRICE; F_ORD_TYPE; F_EXEC_INST; F_SIDE].
Definition modify_template : Fields :=
  set_int F_MAX_FLOOR 0 (set_int F_CANCEL_ORIG_ON_REJECT (if cancel_orig_on_reject then 89 else 78)
    cancel_template).
Definition modify_ready : OutboundMsgBuffer BoeModifyOrder → Prop :=
  buffer_ready c_BoeModifyOrder bm_message_header bm_num_bitfields MODIFY_ORDER_V2
    modify_order_bitfields ModifyOrder_opt modify_dynamic modify_template.

Ltac solve_ready := intros b i; split_and!; try (by eexists 0); try reflexivity;
  repeat (apply Forall_cons; split; [first [right; reflexivity|left; in_layout]|]); apply Forall_nil; exact I.
Lemma prepare_new_order_ready b i :
  new_order_ready ((prepare_new_order_buffer clearing_firm clearing_account b) <| b_index := i |>).
Proof. revert b i. solve_ready. Qed.
Lemma prepare_cancel_ready b i :
  cancel_ready ((prepare_cancel_order_buffer clearing_firm b) <| b_index := i |>).
Proof. revert b i. solve_ready. Qed.
Lemma prepare_modify_ready b i :
  modify_ready ((prepare_modify_order_buffer clearing_firm cancel_orig_on_reject b) <| b_index := i |>).
Proof. revert b i. solve_ready. Qed.

Lemma length_boe_copy n l c : length (boe_copy_to_array n l c) = n.
Proof. unfold boe_copy_to_array. rewrite length_app, length_take, length_replicate. lia. Qed.
Lemma boe_copy_bytes n l c : Forall is_byte l → is_byte c → Forall is_byte (boe_copy_to_array n l c).
Proof.
  intros Hl Hc. apply Forall_app. split; [by apply Forall_take|by apply Forall_replicate].
Qed.

(** The prepared fields are as wide as they should be. *)
Lemma templates_valid :
  Forall (λ f, f ∈ new_order_dynamic ∨ length (new_order_template f) = width f) NewOrder_opt
  /\ opt_valid CancelOrder_opt cancel_template
  /\ Forall (λ f, f ∈ modify_dynamic ∨ length (modify_template f) = width f) ModifyOrder_opt.
Proof.
  split_and!; unfold opt_valid;
    repeat (apply Forall_cons; split;
      [first [apply length_boe_copy|right; apply length_boe_copy|right; reflexivity|left; in_layout]|]);
    by apply Forall_nil.
Qed.

(** ** A session fit to send *)

Record session_ready {E} (s : BOE20Session E) : Prop := {
  rd_new : pool_ok new_order_ready (bo_no_bufs s);
  rd_cxl : pool_ok cancel_ready (bo_cxl_bufs s);
  rd_mod : pool_ok modify_ready (bo_mod_bufs s);
  rd_loc : is_byte (bo_hpr_broker_loc s);
  rd_symbols esi sym : bo_symbol_array s !! esi = Some sym → length sym = 8%nat /\ Forall is_byte sym;
  rd_ids id token : bo_id_map s !! id = Some token →
    c_valid c_ClOrdID token /\ get_local_id token = id;
  rd_seqnum : in_u 32 (bo_outbound_seqnum s)
}.
End Kinds.

(** An order whose numbers fit the fields of the messages. *)
Definition boe_order_fits {D} (o : Order D) : Prop :=
  in_u 32 (o_localID o) /\ in_u 16 (o_local_account o) /\ 0 <= o_size o
  /\ ∀ be, o_kind o = BATSOrder be →
       is_byte (be_display_indicator be) /\ is_byte (be_exec_inst be)
       /\ length (be_routing_inst be) = 4%nat.

Section Ids.
Context {D E : Type} (cf ca : string) (rej : bool).
Implicit Types (o : Order D) (s : BOE20Session E).

Lemma symbol_array_valid s esi : session_ready cf ca rej s →
  length (symbol_array_of esi s) = 8%nat /\ Forall is_byte (symbol_array_of esi s).
Proof.
  intros Hr. unfold symbol_array_of. destruct (bo_symbol_array s !! esi) eqn:Hs; cbn [default].
  - by eapply rd_symbols.
  - split; [done|]. apply Forall_replicate. unfold is_byte. lia.
Qed.

Lemma created_id o s : session_ready cf ca rej s → in_u 32 (o_localID o) → in_u 16 (o_local_account o) →
  c_valid c_ClOrdID (create_cl_ord_id o s) /\ get_local_id (create_cl_ord_id o s) = o_localID o.
Proof.
  intros Hr Hid Hacct. destruct (symbol_array_valid s (o_instrument o) Hr) as [Hl Hb].
  unfold create_cl_ord_id. set (sym := hpr_symbol_of _).
  assert (length sym = 6%nat) as Hsym
    by (subst sym; unfold hpr_symbol_of; rewrite length_map, length_take, length_app, length_replicate; lia).
  split; [split|]; [by apply length_ClOrdID| |by apply local_id_of_ClOrdID].
  apply ClOrdID_bytes; [by eapply rd_loc| |by destruct Hacct|done].
  subst sym. unfold hpr_symbol_of. apply Forall_map, Forall_take, Forall_app. split.
  - eapply Forall_impl; [exact Hb|]. unfold is_byte. cbn. intros c Hc. case_match; lia.
  - by repeat constructor.
Qed.
End Ids.

(** ** What filling a buffer writes *)

Section Filling.
Context {D : Type} `{Dbl D}.
Implicit Types (o : Order D) (b : OutboundMsgBuffer NewOrder).

Lemma set_boe_fields g o : o_type (set_boe g o) = o_type o /\ o_tif (set_boe g o) = o_tif o
  /\ o_side (set_boe g o) = o_side o /\ o_localID (set_boe g o) = o_localID o
  /\ o_instrument (set_boe g o) = o_instrument o /\ o_price (set_boe g o) = o_price o
  /\ o_client_order_id (set_boe g o) = o_client_order_id o /\ o_size (set_boe g o) = o_size o.
Proof. destruct o as [[| | |]]; by split_and!. Qed.

Lemma exec_inst_spec mic be o ei o' : is_byte (be_exec_inst be) →
  exec_inst_from_order mic be o = (Some ei, o') →
  is_byte ei /\ (o' = o ∨ ∃ g, o' = set_boe g o).
Proof.
  unfold exec_inst_from_order. intros Hb. case_match.
  - case_match; [|done]. intros [= <- <-]. auto.
  - intros [= <- <-]. split; [case_match; z_compute|]. right. by eexists.
Qed.

(** The optional fields of a new order. *)
Definition new_order_fields (price ei ot tif di : Z) (ri : list Z) (v : Fields) : Fields :=
  set_opt F_ROUTING_INST ri (set_int F_DISPLAY_INDICATOR di (set_int F_TIME_IN_FORCE tif
    (set_int F_ORD_TYPE ot (set_int F_EXEC_INST ei (set_int F_PRICE price v))))).

Lemma fill_new_order_spec mic be o b b' o' : length (be_routing_inst be) = 4%nat →
  fill_new_order mic be o b = (true, b', o') →
  ∃ side ei ot tif di ri, side_from_order (o_side o) = Some side
    /\ ord_type_from_order (o_type o) = Some ot /\ tif_from_order (o_tif o) = Some tif
    /\ length ri = 4%nat /\ o_size o <= MAX_ORDER_QTY
    /\ b' = b <| b_msg := (b_msg b) <| nw_side := side |> <| nw_order_qty := o_size o |> |>
              <| b_opt := new_order_fields (price_to_fixed (o_price o)) ei ot tif di ri (b_opt b) |>
    /\ o_client_order_id o' = o_client_order_id o /\ o_instrument o' = o_instrument o.
Proof.
  intros Hri. unfold fill_new_order, fill_new_order_opt.
  destruct (side_from_order (o_side o)) as [side|] eqn:Hside; [|done].
  case_match eqn:Hmax; [done|]. bools.
  destruct (exec_inst_from_order mic be o) as [[ei|] o1] eqn:He; [|done].
  assert (o1 = o ∨ ∃ g, o1 = set_boe g o) as Ho1.
  { unfold exec_inst_from_order in He. case_match; [|injection He as _ <-; right; by eexists].
    injection He as _ <-. by left. }
  assert (o_type o1 = o_type o /\ o_tif o1 = o_tif o /\ o_client_order_id o1 = o_client_order_id o
    /\ o_instrument o1 = o_instrument o) as (-> & -> & Ec & Ei).
  { destruct Ho1 as [->|[g ->]]; [done|]. destruct (set_boe_fields g o) as (->&->&_&_&->&_&->&_). done. }
  destruct (ord_type_from_order (o_type o)) as [ot|] eqn:Hot; [|done].
  destruct (tif_from_order (o_tif o)) as [tif|] eqn:Htif; [|done].
  destruct (display_indicator_from_order be o1) as [di o2] eqn:Hdi.
  destruct (routing_inst_from_order be o2) as [ri o3] eqn:Hr. intros [= <- <-].
  exists side, ei, ot, tif, di, ri.
  assert (o_client_order_id o2 = o_client_order_id o1 /\ o_instrument o2 = o_instrument o1) as [E1 E2].
  { unfold display_indicator_from_order in Hdi. case_match; injection Hdi as _ <-; [|done].
    by destruct (set_boe_fields (λ be, be <| be_display_indicator := DI_DEFAULT |>) o1) as (_&_&_&_&->&_&->&_). }
  assert (length ri = 4%nat /\ o_client_order_id o3 = o_client_order_id o2
    /\ o_instrument o3 = o_instrument o2) as (E3 & E4 & E5).
  { unfold routing_inst_from_order in Hr. case_match; injection Hr as <- <-; [|done].
    by destruct (set_boe_fields (λ be, be <| be_routing_inst := RoutingInst_set RI_BOOK_ONLY 0 |>) o2)
      as (_&_&_&_&->&_&->&_). }
  split_and!; try done; congruence.
Qed.
End Filling.

(** ** What an order is sent as *)

Section Sent.
Context {D E : Type} `{Dbl D} `{Connection E} (cf ca : string) (rej : bool).
Implicit Types (o : Order D) (s : BOE20Session E).
Abbreviation ready := (session_ready cf ca rej).

(** The connection was given a packet: whether it took it is not looked at, apart
    from the time. *)
Definition passed (packet : list Z) (e : E) : E :=
  let '(n, e1) := conn_send packet e in if n <? 0 then e1 else (conn_now e1).2.
Lemma send_helper_nolock_spec buf s : ∃ t,
  send_helper_nolock buf s = s <| bo_net := passed buf (bo_net s) |> <| bo_last_message_sent_ts := t |>.
Proof.
  unfold send_helper_nolock, passed. destruct (conn_send buf (bo_net s)) as [n e]. case_match.
  - exists (bo_last_message_sent_ts s). by destruct s.
  - destruct (conn_now e) as [t e']. by exists t.
Qed.

(** What a session that sent one message looks like. *)
Definition sent_one (packet : list Z) s s' : Prop :=
  bo_net s' = passed packet (conn_now (bo_net s)).2
  /\ bo_outbound_seqnum s' = u32 (bo_outbound_seqnum s + 1)
  /\ bo_state s' = bo_state s /\ bo_active s' = bo_active s
  /\ bo_inbound_seqnum s' = bo_inbound_seqnum s /\ bo_name s' = bo_name s.

Lemma opt_read_fields layout v f : opt_valid layout v → f ∈ layout →
  opt_read layout f (opt_bytes layout v) = v f.
Proof. intros Hv Hf. by rewrite <- (opt_read_bytes layout v f [] Hv Hf), app_nil_r. Qed.
Lemma le_val_int n z : 0 <= z < 256 ^ Z.of_nat n → le_val (le_bytes n z) = z.
Proof. apply le_val_bytes. Qed.

Lemma new_order_fields_valid price ei ot tif di ri sym v : length ri = 4%nat → length sym = 8%nat →
  Forall (λ f, f ∈ new_order_dynamic ∨ v f = new_order_template cf ca f) NewOrder_opt →
  opt_valid NewOrder_opt (set_opt F_SYMBOL sym (new_order_fields price ei ot tif di ri v)).
Proof.
  intros Hri Hsym Hst. apply Forall_forall. intros f Hf.
  destruct (templates_valid cf ca rej) as [Ht _]. rewrite Forall_forall in Hst, Ht.
  assert (f ∈ new_order_dynamic ∨ length (v f) = width f) as Hlen.
  { destruct (Hst f Hf) as [Hd|Heq]; [by left|rewrite Heq; apply (Ht f Hf)]. }
  unfold new_order_fields, set_int, set_opt.
  repeat (case_decide; [subst f; first [done|apply length_le_bytes]|]).
  destruct Hlen as [Hd|Hd]; [|done]. unfold new_order_dynamic in Hd. exfalso. set_solver.
Qed.

(** The session's own orders keep their ids. *)
Lemma emplace_id_ok s o : ready s → boe_order_fits o →
  ∀ id token, emplace_id (o_localID o) (create_cl_ord_id o s) (bo_id_map s) !! id = Some token →
    c_valid c_ClOrdID token /\ get_local_id token = id.
Proof.
  intros Hr (Hid & Hacct & _) id token. unfold emplace_id.
  destruct (bo_id_map s !! o_localID o); [by eapply rd_ids|].
  rewrite lookup_insert_Some. intros [[<- <-]|[_ Hl]]; [by eapply created_id|by eapply rd_ids].
Qed.

(** A message that was sent, as the exchange reads it. *)
Definition reads_new_order o s o' s' (packet : list Z) : Prop :=
  ∃ m v, boe_exchange_reads c_NewOrder nw_message_header nw_num_bitfields NEW_ORDER_V2 packet = Some (m, v)
    /\ h_sequence_number (nw_message_header m) = bo_outbound_seqnum s
    /\ nw_cl_ord_id m = create_cl_ord_id o s /\ get_local_id (nw_cl_ord_id m) = o_localID o
    /\ take 20 (o_client_order_id o') = nw_cl_ord_id m
    /\ to_side (nw_side m) = o_side o /\ nw_order_qty m = o_size o
    /\ to_ord_type (le_val (v F_ORD_TYPE)) = o_type o
    /\ to_tif (le_val (v F_TIME_IN_FORCE)) = o_tif o
    /\ le_val (v F_PRICE) = price_to_fixed (o_price o)
    /\ v F_SYMBOL = symbol_array_of (o_instrument o) s
    /\ v F_CLEARING_FIRM = boe_copy_to_array 4 (string_bytes cf) 0
    /\ v F_CLEARING_ACCOUNT = boe_copy_to_array 4 (string_bytes ca) 0
    /\ bo_id_map s' = emplace_id (o_localID o) (nw_cl_ord_id m) (bo_id_map s).

Lemma enum_ranges side t tif a b c : side_from_order side = Some a → ord_type_from_order t = Some b →
  tif_from_order tif = Some c → is_byte a /\ 0 <= b < 256 ^ Z.of_nat 1 /\ 0 <= c < 256 ^ Z.of_nat 1.
Proof.
  intros Ha Hb Hc. split; [|split].
  - destruct side; try discriminate Ha; injection Ha as <-; z_compute.
  - destruct t; try discriminate Hb; injection Hb as <-; z_compute.
  - destruct tif; try discriminate Hc; injection Hc as <-; z_compute.
Qed.
Lemma fixed_range (p : D) : 0 <= price_to_fixed p < 256 ^ Z.of_nat 8.
Proof. apply (wrap_range 64). lia. Qed.

(** A buffer filled for an order is what the exchange reads. *)
Lemma filled_new_order b id side qty price ei ot tif di ri sym n :
  new_order_ready cf ca b → c_valid c_ClOrdID id → is_byte side → in_u 32 qty → in_u 32 n →
  length ri = 4%nat → length sym = 8%nat →
  let m := mkBoeNewOrder (header_of NEW_ORDER_V2 (ready_length c_NewOrder new_order_bitfields NewOrder_opt) n)
             id side qty 6 in
  let v := set_opt F_SYMBOL sym (new_order_fields price ei ot tif di ri (b_opt b)) in
  let b2 := b <| b_msg := m |> <| b_opt := v |> in
  new_order_ready cf ca b2
  /\ boe_exchange_reads c_NewOrder nw_message_header nw_num_bitfields NEW_ORDER_V2
       (buffer_bytes c_NewOrder NewOrder_opt b2)
     = Some (m, λ f, opt_read NewOrder_opt f (opt_bytes NewOrder_opt v))
  /\ opt_valid NewOrder_opt v
  /\ v F_CLEARING_FIRM = boe_copy_to_array 4 (string_bytes cf) 0
  /\ v F_CLEARING_ACCOUNT = boe_copy_to_array 4 (string_bytes ca) 0.
Proof.
  intros Hb Hid Hside Hqty Hn Hri Hsym m v b2.
  assert (new_order_ready cf ca b2) as Hb2.
  { apply (ready_written _ _ _ _ _ _ _ _ b m n v); [exact Hb|done|by destruct Hb as (_ & -> & _)|].
    subst v. unfold new_order_fields, set_int, set_opt.
    repeat (apply Forall_cons; split; [first [right; reflexivity|left; in_layout]|]). by apply Forall_nil. }
  pose proof Hb as (_ & _ & _ & _ & Hst).
  assert (opt_valid NewOrder_opt v) as Hv by (by apply new_order_fields_valid).
  assert (c_valid c_NewOrder m) as Hm.
  { subst m. unfold c_NewOrder. cbn [c_valid c_record c_pair fst snd nw_message_header nw_cl_ord_id
      nw_side nw_order_qty nw_num_bitfields].
    split; [split; [split; [split|]|]|]; [by apply header_of_valid|done|exact Hside|exact Hqty|z_compute]. }
  split; [done|]. rewrite (ready_bytes _ _ _ _ _ _ _ _ b2 Hb2) by done.
  change (b_msg b2) with m. change (b_opt b2) with v.
  destruct (exchange_reads_layout c_NewOrder nw_message_header nw_num_bitfields NEW_ORDER_V2 m
    new_order_bitfields NewOrder_opt v NewOrder_opt n) as [_ ->]; try done.
  split; [done|]. split; [done|]. rewrite Forall_forall in Hst. subst v.
  split.
  - destruct (Hst F_CLEARING_FIRM) as [Hd|Hd]; [set_solver|exfalso; set_solver|exact Hd].
  - destruct (Hst F_CLEARING_ACCOUNT) as [Hd|Hd]; [set_solver|exfalso; set_solver|exact Hd].
Qed.

Lemma send_new_order_sent o s s' o' : ready s → boe_order_fits o →
  send_new_order o s = (true, s', o') →
  ready s' /\ ∃ packet, sent_one packet s s' /\ reads_new_order o s o' s' packet.
Proof.
  intros Hr Hfits. unfold send_new_order. destruct (o_kind o) as [| | |be] eqn:Hk; try done.
  destruct (pool_get _ _ (rd_new _ _ _ _ Hr)) as (i & b & store & -> & Hb & Hput). cbv zeta.
  destruct (fill_new_order _ _ _ _) as [[ok b1] o1] eqn:Hf. destruct ok; [|done].
  pose proof Hfits as (Hid & Hacct & Hsz & Hbe). destruct (Hbe be Hk) as (_ & _ & Hri).
  apply fill_new_order_spec in Hf as (side & ei & ot & tif & di & ri & Hside & Hot & Htif & Hlri
    & Hmax & -> & Hc & Hi); [|done].
  rewrite Hi. set (id := create_cl_ord_id o s) in *. unfold take_seqnum.
  match goal with |- context [bs_put i ?x store] => set (b2 := x) end.
  destruct (created_id cf ca rej o s Hr Hid Hacct) as [Hidv Hidn]. fold id in Hidv, Hidn.
  destruct (symbol_array_valid cf ca rej s (o_instrument o) Hr) as [Hsyml _].
  destruct (enum_ranges _ _ _ _ _ _ Hside Hot Htif) as (Hside' & Hot' & Htif').
  assert (in_u 32 (o_size o)) as Hsz32 by (unfold MAX_ORDER_QTY in Hmax; cbn in Hmax; in_range).
  set (px := price_to_fixed (o_price o)).
  destruct (filled_new_order b id side (o_size o) px ei ot tif di ri
    (symbol_array_of (o_instrument o) s) (bo_outbound_seqnum s) Hb Hidv Hside' Hsz32
    (rd_seqnum _ _ _ _ Hr) Hlri Hsyml) as (Hb2 & Hread & Hval & Hcf & Hca).
  assert (b2 = b <| b_msg := mkBoeNewOrder (header_of NEW_ORDER_V2
      (ready_length c_NewOrder new_order_bitfields NewOrder_opt) (bo_outbound_seqnum s)) id side (o_size o) 6 |>
    <| b_opt := set_opt F_SYMBOL (symbol_array_of (o_instrument o) s)
         (new_order_fields px ei ot tif di ri (b_opt b)) |>) as Eb2.
  { destruct Hb as ((n0 & Hh) & Hnb & _).
    transitivity (mkOutbound (mkBoeNewOrder ((nw_message_header (b_msg b)) <| h_sequence_number := bo_outbound_seqnum s |>)
      id side (o_size o) (nw_num_bitfields (b_msg b))) (b_bitfields b) (set_opt F_SYMBOL (symbol_array_of (o_instrument o) s)
         (new_order_fields px ei ot tif di ri (b_opt b))) (b_msglen b) (b_index b)); [reflexivity|].
    by rewrite Hh, Hnb. }
  rewrite <- Eb2 in Hb2, Hread. cbv zeta in *.
  specialize (Hput b2 ltac:(by rewrite Eb2) Hb2). clearbody b2.
  match goal with |- context [conn_now ?x] => change x with (bo_net s) end.
  destruct (conn_now (bo_net s)) as [t e] eqn:Hnow.
  match goal with |- context [send_helper_nolock ?p ?x] =>
    destruct (send_helper_nolock_spec p x) as [t' Hsent]; rewrite Hsent end.
  intros [= <- <-]. split.
  - destruct Hr. split; cbn; try done.
    + by apply (emplace_id_ok s o).
    + apply (wrap_range 32). lia.
  - exists (buffer_bytes c_NewOrder NewOrder_opt b2). split.
    + split_and!; try done. by rewrite Hnow.
    + eexists _, _. split; [exact Hread|]. cbn beta.
      rewrite !(opt_read_fields _ _ _ Hval) by in_layout.
      split_and!; try done; cbn [nw_side nw_cl_ord_id].
      * change (o_client_order_id (o1 <| o_sent_time := t |>)) with (o_client_order_id o1).
        rewrite Hc. apply take_client_order_id; [by destruct Hidv|done].
      * by apply to_side_from.
      * etransitivity; [|by apply to_ord_type_from]. f_equal. exact (le_val_int 1 _ Hot').
      * etransitivity; [|by apply to_tif_from]. f_equal. exact (le_val_int 1 _ Htif').
      * exact (le_val_int 8 _ (fixed_range (o_price o))).
Qed.

(** A cancel, as the exchange reads it. *)
Definition reads_cancel o s s' (packet : list Z) : Prop :=
  ∃ m v, boe_exchange_reads c_BoeCancelOrder bc_message_header bc_num_bitfields CANCEL_ORDER_V2 packet
      = Some (m, v)
    /\ h_sequence_number (bc_message_header m) = bo_outbound_seqnum s
    /\ get_local_id (bc_orig_cl_ord_id m) = o_localID o
    /\ bo_id_map s' !! o_localID o = Some (bc_orig_cl_ord_id m)
    /\ (∀ id, bo_id_map s !! o_localID o = Some id → bc_orig_cl_ord_id m = id)
    /\ v F_CLEARING_FIRM = boe_copy_to_array 4 (string_bytes cf) 0.

Lemma cancel_id_spec o s : ready s → boe_order_fits o →
  ∃ id ids, cancel_id o s = (id, s <| bo_id_map := ids |>) /\ ids !! o_localID o = Some id
    /\ (∀ id', bo_id_map s !! o_localID o = Some id' → id = id')
    /\ ∀ k token, ids !! k = Some token → c_valid c_ClOrdID token /\ get_local_id token = k.
Proof.
  intros Hr (Hid & Hacct & _). unfold cancel_id.
  destruct (bo_id_map s !! o_localID o) as [id|] eqn:Hm.
  - exists id, (bo_id_map s). split; [by destruct s|]. split_and!; [done|congruence|by eapply rd_ids].
  - eexists _, _. split; [reflexivity|]. rewrite lookup_insert_eq. split_and!; [done..|].
    intros k token. rewrite lookup_insert_Some.
    intros [[<- <-]|[_ Hl]]; [by eapply created_id|by eapply rd_ids].
Qed.

Lemma filled_cancel b id n : cancel_ready cf b → c_valid c_ClOrdID id → in_u 32 n →
  let m := mkBoeCancel (header_of CANCEL_ORDER_V2
             (ready_length c_BoeCancelOrder cancel_order_bitfields CancelOrder_opt) n) id 1 in
  let b2 := b <| b_msg := m |> <| b_opt := b_opt b |> in
  cancel_ready cf b2
  /\ boe_exchange_reads c_BoeCancelOrder bc_message_header bc_num_bitfields CANCEL_ORDER_V2
       (buffer_bytes c_BoeCancelOrder CancelOrder_opt b2)
     = Some (m, λ f, opt_read CancelOrder_opt f (opt_bytes CancelOrder_opt (b_opt b)))
  /\ opt_valid CancelOrder_opt (b_opt b)
  /\ b_opt b F_CLEARING_FIRM = boe_copy_to_array 4 (string_bytes cf) 0.
Proof.
  intros Hb Hid Hn m b2.
  assert (cancel_ready cf b2) as Hb2.
  { apply (ready_written _ _ _ _ _ _ _ _ b m n); [exact Hb|done|by destruct Hb as (_ & -> & _)|].
    apply Forall_forall. by right. }
  pose proof Hb as (_ & _ & _ & _ & Hst). apply Forall_cons in Hst as [Hst _].
  assert (b_opt b F_CLEARING_FIRM = boe_copy_to_array 4 (string_bytes cf) 0) as Hcf
    by (destruct Hst as [Hd|Hd]; [set_solver|exact Hd]).
  assert (opt_valid CancelOrder_opt (b_opt b)) as Hv
    by (repeat constructor; rewrite Hcf; apply length_boe_copy).
  assert (c_valid c_BoeCancelOrder m) as Hm
    by (subst m; split; [split|]; [by apply header_of_valid|done|z_compute]).
  split; [done|]. rewrite (ready_bytes _ _ _ _ _ _ _ _ b2 Hb2) by done.
  destruct (exchange_reads_layout c_BoeCancelOrder bc_message_header bc_num_bitfields CANCEL_ORDER_V2
    m cancel_order_bitfields CancelOrder_opt (b_opt b) CancelOrder_opt n) as [_ Hx]; try done.
Qed.

Lemma send_cancel_sent o s : ready s → boe_order_fits o →
  ∃ s' o', send_cancel o s = (true, s', o') /\ ready s'
    /\ ∃ packet, sent_one packet s s' /\ reads_cancel o s s' packet.
Proof.
  intros Hr Hfits. unfold send_cancel.
  destruct (cancel_id_spec o s Hr Hfits) as (id & ids & -> & Hlook & Hsame & Hids).
  change (bo_cxl_bufs (s <| bo_id_map := ids |>)) with (bo_cxl_bufs s).
  destruct (pool_get _ _ (rd_cxl _ _ _ _ Hr)) as (i & b & store & -> & Hb & Hput). unfold take_seqnum.
  destruct (Hids _ _ Hlook) as [Hidv Hidn]. pose proof (rd_seqnum _ _ _ _ Hr) as Hseq.
  destruct (filled_cancel b id (bo_outbound_seqnum s) Hb Hidv Hseq) as (Hb2 & Hread & Hv & Hcf).
  match goal with |- context [bs_put i ?x store] => set (b2 := x) end.
  assert (b2 = b <| b_msg := mkBoeCancel (header_of CANCEL_ORDER_V2
      (ready_length c_BoeCancelOrder cancel_order_bitfields CancelOrder_opt) (bo_outbound_seqnum s)) id 1 |>
      <| b_opt := b_opt b |>) as Eb2.
  { destruct Hb as ((n0 & Hh) & Hnb & _).
    transitivity (mkOutbound (mkBoeCancel ((bc_message_header (b_msg b)) <| h_sequence_number :=
      bo_outbound_seqnum s |>) id (bc_num_bitfields (b_msg b))) (b_bitfields b) (b_opt b)
      (b_msglen b) (b_index b)); [reflexivity|]. by rewrite Hh, Hnb. }
  cbv zeta in *. rewrite <- Eb2 in Hb2, Hread. specialize (Hput b2 ltac:(by rewrite Eb2) Hb2).
  clearbody b2. match goal with |- context [conn_now ?x] => change x with (bo_net s) end.
  destruct (conn_now (bo_net s)) as [t e] eqn:Hnow.
  match goal with |- context [send_helper_nolock ?p ?x] =>
    destruct (send_helper_nolock_spec p x) as [t' Hsent]; rewrite Hsent end.
  eexists _, _. split; [reflexivity|]. split.
  - destruct Hr. split; cbn; try done. apply (wrap_range 32). lia.
  - exists (buffer_bytes c_BoeCancelOrder CancelOrder_opt b2). split.
    + split_and!; try done. by rewrite Hnow.
    + eexists _, _. split; [exact Hread|]. cbn beta.
      rewrite (opt_read_fields _ _ _ Hv) by in_layout. by split_and!.
Qed.

(** A modification: what its bits select reads as the order says, with four bytes
    left over, so that it is not a message by the exchange's reading. *)
Definition reads_modify o (newqty : Z) s (packet : list Z) : Prop :=
  let m := c_dec c_BoeModifyOrder packet in
  let rest := drop (c_size c_BoeModifyOrder + 2) packet in
  let layout := selected (bitfields_of MODIFY_ORDER_V2) (take 2 (drop (c_size c_BoeModifyOrder) packet)) in
  let v f := opt_read layout f rest in
  boe_exchange_reads c_BoeModifyOrder bm_message_header bm_num_bitfields MODIFY_ORDER_V2 packet = None
  /\ length rest = (opt_size layout + 4)%nat
  /\ h_sequence_number (bm_message_header m) = bo_outbound_seqnum s
  /\ bo_id_map s !! o_localID o = Some (bm_orig_cl_ord_id m)
  /\ bm_new_cl_ord_id m = bm_orig_cl_ord_id m /\ get_local_id (bm_orig_cl_ord_id m) = o_localID o
  /\ le_val (v F_ORDER_QTY) = modify_qty o newqty
  /\ le_val (v F_PRICE) = price_to_fixed (o_price o)
  /\ to_ord_type (le_val (v F_ORD_TYPE)) = o_type o /\ to_side (le_val (v F_SIDE)) = o_side o.

Definition modify_fields (qty price ot ei side : Z) (v : Fields) : Fields :=
  set_int F_SIDE side (set_int F_EXEC_INST ei (set_int F_ORD_TYPE ot (set_int F_PRICE price
    (set_int F_ORDER_QTY qty v)))).
Lemma fill_modify_order_spec mic be o newqty v v' o' :
  fill_modify_order mic be o newqty v = (true, v', o') →
  ∃ ot ei side, ord_type_from_order (o_type o) = Some ot /\ side_from_order (o_side o) = Some side
    /\ v' = modify_fields (modify_qty o newqty) (price_to_fixed (o_price o)) ot ei side v.
Proof.
  unfold fill_modify_order. destruct (ord_type_from_order (o_type o)) as [ot|] eqn:Hot; [|done].
  destruct (exec_inst_from_order mic be o) as [[ei|] o1] eqn:He; [|done].
  assert (o_side o1 = o_side o) as ->.
  { unfold exec_inst_from_order in He. case_match; injection He as _ <-; [done|].
    by destruct (set_boe_fields (λ be, be <| be_exec_inst := if bool_decide (o_type o = MIDPOINT_PEG)
      then EI_MIDPOINT_PEG_TO_NBBO_MID else EI_DEFAULT |>) o) as (_ & _ & -> & _). }
  destruct (side_from_order (o_side o)) as [side|] eqn:Hs; [|done].
  intros [= <- _]. by exists ot, ei, side.
Qed.
Lemma opt_bytes_app l1 l2 v : opt_bytes (l1 ++ l2) v = opt_bytes l1 v ++ opt_bytes l2 v.
Proof. unfold opt_bytes. by rewrite map_app, concat_app. Qed.

Lemma filled_modify b id n qty price ot ei side : modify_ready cf rej b → c_valid c_ClOrdID id →
  in_u 32 n →
  let m := mkBoeModify (header_of MODIFY_ORDER_V2
             (ready_length c_BoeModifyOrder modify_order_bitfields ModifyOrder_opt) n) id id 2 in
  let v := modify_fields qty price ot ei side (b_opt b) in
  let b2 := b <| b_msg := m |> <| b_opt := v |> in
  let packet := buffer_bytes c_BoeModifyOrder ModifyOrder_opt b2 in
  let bitted := selected (bitfields_of MODIFY_ORDER_V2) modify_order_bitfields in
  modify_ready cf rej b2
  /\ packet = c_enc c_BoeModifyOrder m ++ modify_order_bitfields ++ opt_bytes bitted v
              ++ opt_bytes [F_MAX_FLOOR] v
  /\ c_valid c_BoeModifyOrder m /\ opt_valid ModifyOrder_opt v
  /\ boe_exchange_reads c_BoeModifyOrder bm_message_header bm_num_bitfields MODIFY_ORDER_V2 packet = None.
Proof.
  intros Hb Hid Hn m v b2 packet bitted.
  assert (modify_ready cf rej b2) as Hb2.
  { apply (ready_written _ _ _ _ _ _ _ _ b m n v); [exact Hb|done|by destruct Hb as (_ & -> & _)|].
    subst v. unfold modify_fields, set_int, set_opt.
    repeat (apply Forall_cons; split; [first [right; reflexivity|left; in_layout]|]). by apply Forall_nil. }
  pose proof Hb as (_ & _ & _ & _ & Hst).
  assert (opt_valid ModifyOrder_opt v) as Hv.
  { destruct (templates_valid cf ca rej) as (_ & _ & Ht). apply Forall_forall. intros f Hf.
    rewrite Forall_forall in Hst, Ht.
    assert (f ∈ modify_dynamic ∨ length (b_opt b f) = width f) as Hlen.
    { destruct (Hst f Hf) as [Hd|Heq]; [by left|rewrite Heq; apply (Ht f Hf)]. }
    subst v. unfold modify_fields, set_int, set_opt.
    repeat (case_decide; [subst f; apply length_le_bytes|]).
    destruct Hlen as [Hd|Hd]; [|done]. unfold modify_dynamic in Hd. exfalso. set_solver. }
  assert (c_valid c_BoeModifyOrder m) as Hm
    by (subst m; split; [split; [split|]|]; [by apply header_of_valid|done|done|z_compute]).
  assert (packet = c_enc c_BoeModifyOrder m ++ modify_order_bitfields ++ opt_bytes ModifyOrder_opt v) as Hp
    by (subst packet; by rewrite (ready_bytes _ _ _ _ _ _ _ _ b2 Hb2)).
  split_and!; try done.
  - rewrite Hp. by rewrite <- (opt_bytes_app bitted [F_MAX_FLOOR] v).
  - rewrite Hp. destruct (exchange_reads_layout c_BoeModifyOrder bm_message_header bm_num_bitfields
      MODIFY_ORDER_V2 m modify_order_bitfields ModifyOrder_opt v bitted n) as [_ Hx]; done.
Qed.

Lemma modify_read_back m qty price ot ei side v : c_valid c_BoeModifyOrder m →
  let w := modify_fields qty price ot ei side v in
  let bitted := selected (bitfields_of MODIFY_ORDER_V2) modify_order_bitfields in
  opt_valid ModifyOrder_opt w →
  let packet := c_enc c_BoeModifyOrder m ++ modify_order_bitfields ++ opt_bytes bitted w
                ++ opt_bytes [F_MAX_FLOOR] w in
  let rest := drop (c_size c_BoeModifyOrder + 2) packet in
  let layout := selected (bitfields_of MODIFY_ORDER_V2) (take 2 (drop (c_size c_BoeModifyOrder) packet)) in
  c_dec c_BoeModifyOrder packet = m /\ length rest = (opt_size layout + 4)%nat
  /\ ∀ f, f ∈ modify_dynamic → opt_read layout f rest = w f.
Proof.
  intros Hm w bitted Hv packet rest layout.
  assert (opt_valid bitted w /\ length (w F_MAX_FLOOR) = 4%nat) as [Hv1 Hv2].
  { unfold opt_valid in Hv. change ModifyOrder_opt with (bitted ++ [F_MAX_FLOOR]) in Hv.
    apply Forall_app in Hv as [Hv1 Hv2]. apply Forall_cons in Hv2 as [Hv2 _]. by split. }
  pose proof (codec_length _ Hm) as Hl.
  assert (layout = bitted) as -> by (subst layout packet; by rewrite drop_app_n, take_app_n).
  assert (rest = opt_bytes bitted w ++ opt_bytes [F_MAX_FLOOR] w) as ->
    by (subst rest packet; by rewrite <- drop_drop, !drop_app_n).
  split; [subst packet; by apply codec_dec_enc|]. split.
  - rewrite length_app, (length_opt_bytes _ _ Hv1). unfold opt_bytes. cbn [map concat].
    rewrite app_nil_r. by rewrite Hv2.
  - assert (Forall (λ f, f ∈ bitted) modify_dynamic) as Hin
      by (apply (bool_decide_unpack _); vm_compute; exact I).
    rewrite Forall_forall in Hin. intros f Hf. by apply opt_read_bytes, Hin.
Qed.

Lemma send_modify_sent o newqty s s' o' : ready s → boe_order_fits o →
  send_modify o newqty s = (true, s', o') →
  ready s' /\ bo_id_map s' = bo_id_map s
  /\ ∃ packet, sent_one packet s s' /\ reads_modify o newqty s packet.
Proof.
  intros Hr Hfits. unfold send_modify. destruct (o_kind o) as [| | |be] eqn:Hk; try done.
  destruct (bo_id_map s !! o_localID o) as [id|] eqn:Hid; [|done].
  destruct (rd_ids _ _ _ _ Hr _ _ Hid) as [Hidv Hidn].
  destruct (pool_get _ _ (rd_mod _ _ _ _ Hr)) as (i & b & store & -> & Hb & Hput). cbv zeta.
  destruct (fill_modify_order _ _ _ _ _) as [[ok v] o1] eqn:Hf. destruct ok; [|done].
  apply fill_modify_order_spec in Hf as (ot & ei & side & Hot & Hside & ->).
  cbn [b_opt set_field]. unfold take_seqnum. set (q := modify_qty o newqty). set (px := price_to_fixed _).
  match goal with |- context [bs_put i ?x store] => set (b2 := x) end.
  destruct (filled_modify b id (bo_outbound_seqnum s) q px ot ei side Hb Hidv
    (rd_seqnum _ _ _ _ Hr)) as (Hb2 & Hpkt & Hmv & Hval & Hread).
  set (m := mkBoeModify _ id id 2) in *.
  assert (b2 = b <| b_msg := m |> <| b_opt := modify_fields q px ot ei side (b_opt b) |>) as Eb2.
  { destruct Hb as ((n0 & Hh) & Hnb & _).
    transitivity (mkOutbound (mkBoeModify ((bm_message_header (b_msg b)) <| h_sequence_number :=
      bo_outbound_seqnum s |>) id id (bm_num_bitfields (b_msg b))) (b_bitfields b)
      (modify_fields q px ot ei side (b_opt b)) (b_msglen b) (b_index b)); [reflexivity|].
    by rewrite Hh, Hnb. }
  cbv zeta in *. rewrite <- Eb2 in Hb2, Hread, Hpkt. specialize (Hput b2 ltac:(by rewrite Eb2) Hb2).
  clearbody b2. match goal with |- context [conn_now ?x] => change x with (bo_net s) end.
  destruct (conn_now (bo_net s)) as [t e] eqn:Hnow.
  match goal with |- context [send_helper_nolock ?p ?x] =>
    destruct (send_helper_nolock_spec p x) as [t' Hsent]; rewrite Hsent end.
  intros [= <- <-]. split; [|split; [done|]].
  - destruct Hr. split; cbn; try done. apply (wrap_range 32). lia.
  - exists (buffer_bytes c_BoeModifyOrder ModifyOrder_opt b2). split; [split_and!; try done; by rewrite Hnow|].
    unfold reads_modify. split; [exact Hread|]. rewrite Hpkt.
    destruct (modify_read_back m q px ot ei side (b_opt b) Hmv Hval) as (-> & Hrest & Hget).
    destruct (enum_ranges _ _ DAY _ _ _ Hside Hot eq_refl) as (Hside' & Hot' & _).
    split_and!; try done.
    + etransitivity; [apply f_equal, (Hget F_ORDER_QTY); in_layout|].
      exact (le_val_int 4 q (wrap_range 32 _ ltac:(lia))).
    + etransitivity; [apply f_equal, (Hget F_PRICE); in_layout|].
      exact (le_val_int 8 px (fixed_range (o_price o))).
    + etransitivity; [apply f_equal, f_equal, (Hget F_ORD_TYPE); in_layout|].
      etransitivity; [|by apply to_ord_type_from]. f_equal. exact (le_val_int 1 ot Hot').
    + etransitivity; [apply f_equal, f_equal, (Hget F_SIDE); in_layout|].
      etransitivity; [|by apply to_side_from]. f_equal. exact (le_val_int 1 side Hside').
Qed.

(** *** When nothing is sent *)

(** Nothing left the session, and no number was used up. *)
Definition silent s s' : Prop :=
  bo_net s' = bo_net s /\ bo_outbound_seqnum s' = bo_outbound_seqnum s
  /\ bo_state s' = bo_state s /\ bo_active s' = bo_active s
  /\ bo_inbound_seqnum s' = bo_inbound_seqnum s /\ bo_name s' = bo_name s.

(** Only fields that every message writes anew are touched. *)
Definition writes (dynamic : list OptField) (v v' : Fields) : Prop :=
  ∀ f, f ∈ dynamic ∨ v' f = v f.
Lemma writes_refl dynamic v : writes dynamic v v.
Proof. by right. Qed.
Lemma writes_set dynamic f x v v' : f ∈ dynamic → writes dynamic v v' →
  writes dynamic v (set_opt f x v').
Proof.
  intros Hf Hw g. unfold set_opt. destruct (decide (g = f)) as [->|]; [by left|apply Hw].
Qed.

Ltac solve_writes :=
  repeat (apply writes_set; [in_layout|]); apply writes_refl.

Lemma ready_rewritten {M} c (hdr : M → BoeHeader) nb t bitfields layout dynamic template b m v :
  buffer_ready c hdr nb t bitfields layout dynamic template b → hdr m = hdr (b_msg b) →
  nb m = nb (b_msg b) → writes dynamic (b_opt b) v →
  buffer_ready c hdr nb t bitfields layout dynamic template (b <| b_msg := m |> <| b_opt := v |>).
Proof.
  intros ((n & Hn) & Hnb & Hb & Hl & Hst) Hh Hm Hw.
  apply (ready_written c hdr nb t bitfields layout dynamic template b m n v); [|congruence|done|].
  - split; [by exists n|done].
  - apply Forall_forall. intros f _. apply Hw.
Qed.

Lemma fill_new_order_keeps mic be o b ok b' o' : new_order_ready cf ca b →
  fill_new_order mic be o b = (ok, b', o') → new_order_ready cf ca b' /\ b_index b' = b_index b.
Proof.
  intros Hb. unfold fill_new_order. destruct (side_from_order (o_side o)) as [side|]; [|by intros [= _ <- _]].
  set (b1 := b <| b_msg := _ |>). assert (new_order_ready cf ca b1) as Hb1.
  { replace b1 with (b1 <| b_opt := b_opt b |>) by (by subst b1; destruct b).
    by apply ready_rewritten; [..|apply writes_refl]. }
  case_match; [by intros [= _ <- _]|]. destruct (fill_new_order_opt mic be o _) as [[ok' v] o1] eqn:Hv.
  intros [= _ <- _]. split; [|done]. apply (ready_rewritten _ _ _ _ _ _ _ _ b1); [done..|].
  revert Hv. unfold fill_new_order_opt.
  repeat case_match; intros [= _ <- _]; solve_writes.
Qed.
Lemma fill_modify_order_keeps mic be o newqty v ok v' o' :
  fill_modify_order mic be o newqty v = (ok, v', o') → writes modify_dynamic v v'.
Proof. unfold fill_modify_order. repeat case_match; intros [= _ <- _]; solve_writes. Qed.

Lemma silent_ready s s' : ready s → silent s s' → bo_hpr_broker_loc s' = bo_hpr_broker_loc s →
  bo_symbol_array s' = bo_symbol_array s →
  (∀ id token, bo_id_map s' !! id = Some token → c_valid c_ClOrdID token /\ get_local_id token = id) →
  pool_ok (new_order_ready cf ca) (bo_no_bufs s') → pool_ok (cancel_ready cf) (bo_cxl_bufs s') →
  pool_ok (modify_ready cf rej) (bo_mod_bufs s') → ready s'.
Proof.
  intros [] (_ & Hseq & _) Hloc Hsym Hids Hn Hc Hm. split; try done; by rewrite ?Hseq, ?Hloc, ?Hsym.
Qed.

Lemma send_new_order_refused o s s' o' : ready s → boe_order_fits o →
  send_new_order o s = (false, s', o') → ready s' /\ silent s s'.
Proof.
  intros Hr Hfits. unfold send_new_order. destruct (o_kind o) as [| | |be] eqn:Hk; try by intros [= <- _].
  destruct (pool_get _ _ (rd_new _ _ _ _ Hr)) as (i & b & store & -> & Hb & Hput). cbv zeta.
  destruct (fill_new_order _ _ _ _) as [[ok b1] o1] eqn:Hf. destruct ok; [unfold take_seqnum; by destruct (conn_now _)|].
  intros [= <- _]. split; [|done]. apply (silent_ready s); [done..| | |by apply Hr|by apply Hr]; cbn.
  - by apply emplace_id_ok.
  - set (b0 := b <| b_msg := _ |>) in Hf. assert (new_order_ready cf ca b0) as Hb0.
    { replace b0 with (b0 <| b_opt := b_opt b |>) by (by subst b0; destruct b).
      by apply (ready_rewritten _ _ _ _ _ _ _ _ b); [..|apply writes_refl]. }
    destruct (fill_new_order_keeps _ _ _ _ _ _ _ Hb0 Hf) as [Hk1 Hk2]. apply Hput; [by rewrite Hk2|done].
Qed.
Lemma send_modify_refused o newqty s s' o' : ready s → send_modify o newqty s = (false, s', o') →
  ready s' /\ silent s s'.
Proof.
  intros Hr. unfold send_modify. destruct (o_kind o) as [| | |be] eqn:Hk; try by intros [= <- _].
  destruct (bo_id_map s !! o_localID o) as [id|] eqn:Hid; [|by intros [= <- _]].
  destruct (pool_get _ _ (rd_mod _ _ _ _ Hr)) as (i & b & store & -> & Hb & Hput). cbv zeta.
  destruct (fill_modify_order _ _ _ _ _) as [[ok v] o1] eqn:Hf. destruct ok; [unfold take_seqnum; by destruct (conn_now _)|].
  intros [= <- _]. split; [|done]. apply fill_modify_order_keeps in Hf.
  apply (silent_ready s); [done..|by apply Hr|by apply Hr|by apply Hr|]; cbn.
  apply Hput; [done|]. by apply (ready_rewritten _ _ _ _ _ _ _ _ b).
Qed.

(** *** The interface *)

(** C8: When [send] says that an order was sent, the session was active and handed
    its connection one message (what the socket made of it is not looked at, so
    that it may not have gone out).  An exchange that gets that message accounts
    for every byte of it when it reads the optional fields by its bits; it reads
    the order's side, size, type, time in force, price in the wire's fixed point
    and symbol, the firm and the account of the configuration, and the session's
    next sequence number, whatever orders the session's buffers were used for
    before.  The id it reads is kept as the order's and names its local id. *)
Theorem boe_sent_order_reads_back (a : Z) o s s' o' (Hr : ready s) (Hfits : boe_order_fits o)
    (Hsend : boe_send a o s = (true, s', o')) :
  bo_state s = ACTIVE /\ ready s'
  /\ ∃ packet, sent_one packet s s' /\ reads_new_order o s o' s' packet.
Proof.
  revert Hsend. unfold boe_send. destruct (bool_decide (bo_state s = ACTIVE)) eqn:Hst; [|done].
  apply bool_decide_eq_true in Hst. split; [done|]. by apply send_new_order_sent.
Qed.

(** A cancel that the session accepts goes out as one message, which cancels
    the whole of the order that its id names and reads back in full, and a partial
    one goes out as a modification, with the order's price, type and side and the
    quantity that leaves the new open size; but the exchange, which reads by the
    message's bits, is left with four bytes that no bit of a modification selects. *)
Theorem boe_sent_cancel_reads_back (a : Z) o (newqty : Z) s s' o' (Hr : ready s)
    (Hfits : boe_order_fits o) (Hcancel : boe_cancel a o newqty s = (true, s', o')) :
  bo_state s = ACTIVE /\ ready s'
  /\ ∃ packet, sent_one packet s s'
     /\ ((newqty = 0 /\ reads_cancel o s s' packet)
         ∨ (newqty ≠ 0 /\ newqty < o_size o /\ reads_modify o newqty s packet)).
Proof.
  revert Hcancel. unfold boe_cancel. destruct (bool_decide (bo_state s = ACTIVE)) eqn:Hst; [|done].
  apply bool_decide_eq_true in Hst. cbn [negb]. destruct (newqty =? 0) eqn:Hz; [|case_match; [done|]]; bools.
  - destruct (send_cancel_sent o s Hr Hfits) as (s1 & o1 & -> & Hr1 & packet & Hp & Hx).
    intros [= -> ->]. split_and!; [done..|]. exists packet. auto.
  - intros Hm. destruct (send_modify_sent _ _ _ _ _ Hr Hfits Hm) as (Hr1 & _ & packet & Hp & Hx).
    split_and!; [done..|]. exists packet. split; [done|]. right. split_and!; [done|lia|done].
Qed.

(** An order that the session can put into a message. *)
Definition boe_sendable (mic : MIC) (be : BOEFields) o : Prop :=
  o_kind o = BATSOrder be /\ o_size o <= MAX_ORDER_QTY
  /\ o_side o ≠ SIDE_UNKNOWN /\ is_Some (ord_type_from_order (o_type o))
  /\ is_Some (tif_from_order (o_tif o))
  /\ (be_exec_inst be = EI_UNKNOWN ∨ exec_inst_allowed mic (be_exec_inst be) = true).
Lemma fill_new_order_total mic be o b : boe_sendable mic be o →
  ∃ b' o', fill_new_order mic be o b = (true, b', o').
Proof.
  intros (_ & Hsize & Hside & [ot Hot] & [tif Htif] & Hei). unfold fill_new_order, fill_new_order_opt.
  destruct (side_from_order (o_side o)) as [side|] eqn:Es; [|by destruct (o_side o)].
  rewrite (proj2 (Z.ltb_ge _ _)) by done.
  assert (∃ ei o1, exec_inst_from_order mic be o = (Some ei, o1) /\ o_type o1 = o_type o
    /\ o_tif o1 = o_tif o) as (ei & o1 & -> & -> & ->).
  { unfold exec_inst_from_order. destruct (be_exec_inst be =? EI_UNKNOWN) eqn:Hunk; cbn [negb]; bools.
    - eexists _, _. split; [reflexivity|]. by destruct (set_boe_fields (λ be, be <| be_exec_inst :=
        if bool_decide (o_type o = MIDPOINT_PEG) then EI_MIDPOINT_PEG_TO_NBBO_MID else EI_DEFAULT |>) o)
        as (-> & -> & _).
    - destruct Hei as [|Hal]; [done|]. rewrite Hal. by exists (be_exec_inst be), o. }
  rewrite Hot, Htif. destruct (display_indicator_from_order be o1) as [di o2].
  destruct (routing_inst_from_order be o2) as [ri o3]. by eexists _, _.
Qed.

(** Whether the bytes of an order were taken by the socket is not looked at: an
    order that can be put into a message is reported as sent, its sequence number
    is used up, and the session stays active, also on a connection that refuses
    everything; only the time of the last message shows it. *)
Theorem boe_send_ignores_the_socket (a : Z) be o s (Hr : ready s) (Hst : bo_state s = ACTIVE)
    (Ho : boe_sendable (bo_mic s) be o) (Hdead : ∀ packet (e : E), (conn_send packet e).1 < 0) :
  ∃ s' o', boe_send a o s = (true, s', o') /\ bo_state s' = ACTIVE
    /\ bo_outbound_seqnum s' = u32 (bo_outbound_seqnum s + 1)
    /\ bo_last_message_sent_ts s' = bo_last_message_sent_ts s
    /\ ∃ packet, bo_net s' = (conn_send packet (conn_now (bo_net s)).2).2.
Proof.
  unfold boe_send, send_new_order. rewrite bool_decide_true by done. cbn [negb].
  rewrite (proj1 Ho). destruct (pool_get _ _ (rd_new _ _ _ _ Hr)) as (i & b & store & -> & _). cbv zeta.
  destruct (fill_new_order_total (bo_mic s) be (set_client_order_id o (create_cl_ord_id o s))
    (b <| b_msg := (b_msg b) <| nw_cl_ord_id := create_cl_ord_id o s |> |>)) as (b' & o' & Hf).
  { exact Ho. }
  change (bo_mic (s <| bo_id_map := _ |>)) with (bo_mic s). rewrite Hf. unfold take_seqnum.
  match goal with |- context [conn_now ?x] => change x with (bo_net s) end.
  destruct (conn_now (bo_net s)) as [t e] eqn:Hnow. unfold send_helper_nolock.
  match goal with |- context [conn_send ?p ?x] =>
    specialize (Hdead p e); change x with e; set (packet := p) in * end.
  destruct (conn_send packet e) as [n e'] eqn:Hp. cbn [fst] in Hdead. rewrite (proj2 (Z.ltb_lt _ _)) by done.
  eexists _, _. split; [reflexivity|]. split_and!; try done. exists packet. cbn [snd]. by rewrite Hp.
Qed.

(** What the order manager asks of a session. *)
Inductive BoeRequest := AskSend (o : Order D) | AskCancel (o : Order D) (newqty : Z).
Definition boe_ask (r : BoeRequest) s : bool * BOE20Session E :=
  match r with
  | AskSend o => (boe_send 0 o s).1
  | AskCancel o newqty => (boe_cancel 0 o newqty s).1
  end.
Fixpoint boe_asks (rs : list BoeRequest) s : nat * BOE20Session E :=
  match rs with
  | [] => (0%nat, s)
  | r :: rs =>
      let '(b, s1) := boe_ask r s in
      let '(n, s2) := boe_asks rs s1 in
      ((if b : bool then S n else n), s2)
  end.
Definition asked_order (r : BoeRequest) : Order D :=
  match r with AskSend o => o | AskCancel o _ => o end.
Definition packet_number (packet : list Z) : Z := h_sequence_number (c_dec c_BoeHeader packet).

Lemma exchange_reads_number {M} (c : Codec M) hdr nb t packet m v :
  boe_exchange_reads c hdr nb t packet = Some (m, v) → c_dec c packet = m.
Proof. unfold boe_exchange_reads. case_match; [|done]. by intros [= <- _]. Qed.

Lemma boe_ask_spec r s : ready s → boe_order_fits (asked_order r) →
  let '(b, s') := boe_ask r s in ready s'
  /\ if b : bool then ∃ packet, sent_one packet s s' /\ packet_number packet = bo_outbound_seqnum s
     else silent s s'.
Proof.
  intros Hr Hfits. destruct r as [o|o newqty]; cbn [boe_ask asked_order] in *.
  - unfold boe_send. destruct (negb _); [done|].
    destruct (send_new_order o s) as [[[] s'] o'] eqn:Hsend; cbn [fst].
    + destruct (send_new_order_sent _ _ _ _ Hr Hfits Hsend) as (Hr' & packet & Hp & m & v & Hx & Hn & _).
      split; [done|]. exists packet. split; [done|]. apply exchange_reads_number in Hx. by rewrite <- Hx in Hn.
    + by eapply send_new_order_refused.
  - unfold boe_cancel. destruct (negb _); [done|].
    destruct (newqty =? 0); [|destruct (o_size o <=? newqty); [done|]].
    + destruct (send_cancel_sent o s Hr Hfits) as (s1 & o1 & -> & Hr' & packet & Hp & m & v & Hx & Hn & _).
      split; [done|]. exists packet. split; [done|]. apply exchange_reads_number in Hx. by rewrite <- Hx in Hn.
    + destruct (send_modify o newqty s) as [[[] s'] o'] eqn:Hsend; cbn [fst].
      * destruct (send_modify_sent _ _ _ _ _ Hr Hfits Hsend) as (Hr' & _ & packet & Hp & _ & _ & Hn & _).
        split; [done|]. by exists packet.
      * by eapply send_modify_refused.
Qed.
End Sent.

Lemma passed_wire packet (e : Wire) : passed packet (conn_now e).2 = e ++ [packet].
Proof. unfold passed. cbn. by case_match. Qed.

(** Whatever is asked of a session, sent or refused, every message that goes
    out has the number after the one before, from the session's next number on,
    so that the exchange sees no gap; refused requests use up no number, and the
    session is left as fit to send as it was. *)
Theorem boe_messages_numbered {D} `{Dbl D} (cf ca : string) (rej : bool) (rs : list (@BoeRequest D))
    (s : BOE20Session Wire) (Hr : session_ready cf ca rej s)
    (Hfits : Forall (λ r, boe_order_fits (asked_order r)) rs) :
  let '(n, s') := boe_asks rs s in
  session_ready cf ca rej s'
  /\ bo_outbound_seqnum s' = u32 (bo_outbound_seqnum s + Z.of_nat n)
  /\ ∃ packets, bo_net s' = bo_net s ++ packets /\ length packets = n
     /\ ∀ i packet, packets !! i = Some packet →
          packet_number packet = u32 (bo_outbound_seqnum s + Z.of_nat i).
Proof.
  revert s Hr. induction Hfits as [|r rs Hr0 _ IH]; intros s Hr; cbn [boe_asks].
  - split; [done|]. destruct (rd_seqnum _ _ _ _ Hr). split; [rewrite Z.add_0_r; symmetry; by apply wrap_small|].
    exists []. by rewrite app_nil_r.
  - pose proof (boe_ask_spec cf ca rej r s Hr Hr0) as Hask.
    destruct (boe_ask r s) as [b s1]. destruct Hask as [Hr1 Hask]. specialize (IH s1 Hr1).
    destruct (boe_asks rs s1) as [n s2]. destruct IH as (Hr2 & Hseq & packets & Hnet & Hlen & Hnum).
    destruct b.
    + destruct Hask as (packet & (Hn1 & Hs1 & _) & Hp). rewrite Hs1, wrap_add_l in Hseq.
      split; [done|]. split; [rewrite Hseq; f_equal; lia|].
      exists (packet :: packets). rewrite Hnet, Hn1.
      split; [rewrite passed_wire; by rewrite <- app_assoc|].
      split; [cbn; by rewrite Hlen|]. intros [|i] p; cbn [lookup list_lookup].
      * intros [= <-]. rewrite Hp, Z.add_0_r. symmetry. apply wrap_small, Hr.
      * intros Hi. rewrite (Hnum i p Hi), Hs1, wrap_add_l. f_equal. lia.
    + destruct Hask as (Hn1 & Hs1 & _). rewrite Hs1, ?Hn1 in *. split; [done|]. split; [done|].
      exists packets. by rewrite Hnet.
Qed.

(** ** A constructed session is fit to send *)

Section Constructed.
Context {E : Type} `{Connection E}.
Implicit Types s : BOE20Session E.

(** A session before it was told of any order, or of any symbol. *)
Record session_new (cf ca : string) (rej : bool) s : Prop := {
  sn_ready : session_ready cf ca rej s;
  sn_state : bo_state s = UNCONNECTED;
  sn_active : bo_active s = false;
  sn_ids : bo_id_map s = ∅
}.

Lemma boe_symbology_init_new cf ca rej symbols s : Forall (λ es, Forall is_byte es.2) symbols →
  session_new cf ca rej s → session_new cf ca rej (boe_symbology_init symbols s).
Proof.
  intros Hs. unfold boe_symbology_init. revert s.
  induction Hs as [|[esi sym] symbols Hsym _ IH]; intros s Hw; cbn [foldl]; [done|].
  apply IH. destruct Hw as [[] ? ? ?]. split; [split|..]; try done.
  intros k t. cbn. rewrite lookup_insert_Some. intros [[_ <-]|[_ Hk]]; [|by eauto].
  split; [apply length_boe_copy|]. apply boe_copy_bytes; [|unfold is_byte; lia].
  by apply cta_symbology_bytes.
Qed.

Lemma boe_recover_state_range path persisted over1 over2 outbound inbound :
  (∀ n l, persisted = Some (n, l) → in_u 32 n) →
  boe_recover_state path persisted over1 over2 = Ok (outbound, inbound) → in_u 32 outbound.
Proof.
  unfold boe_recover_state. case_match; [done|]. destruct persisted as [[n l]|]; [|done].
  intros Hn [= <- _]. specialize (Hn n l eq_refl).
  repeat case_match; try apply (wrap_range 32); done || lia.
Qed.

(** What the constructor copies and prepares is what the messages rely on, for
    any contents of the buffers' memory. *)
Lemma BOE20Session_new_ready w1 w2 w3 lex_int lex_u32 lex_i64 lex_bool name cs symbols raw persisted
    (e : E) s : Forall (λ es, Forall is_byte es.2) symbols →
  length (raw_no raw) = NUM_MSG_BUFFERS → length (raw_cxl raw) = NUM_MSG_BUFFERS →
  length (raw_mod raw) = NUM_MSG_BUFFERS → (∀ n l, persisted = Some (n, l) → in_u 32 n) →
  BOE20Session_new w1 w2 w3 lex_int lex_u32 lex_i64 lex_bool name cs symbols raw persisted e = Ok s →
  ∃ cf ca rej, cs_get Some cs "clearing_firm" = Some cf /\ cs_get Some cs "clearing_account" = Some ca
    /\ session_new cf ca rej s.
Proof.
  intros Hsym Hraw1 Hraw2 Hraw3 Hper. unfold BOE20Session_new.
  intros (mic & _ & Hnew)%res_bind_Ok.
  do 5 (apply res_bind_Ok in Hnew as (? & _ & Hnew)). cbv zeta in Hnew.
  apply res_bind_Ok in Hnew as (cf & Hcf & Hnew). apply res_bind_Ok in Hnew as (ca & Hca & Hnew).
  apply res_bind_Ok in Hnew as (loc & _ & Hnew).
  apply res_bind_Ok in Hnew as ([outbound inbound] & Hrec & Hnew).
  apply boe_recover_state_range in Hrec; [|done]. injection Hnew as <-.
  exists cf, ca, (cs_get_or_default lex_bool cs "cancel_orig_on_reject" false).
  apply require_Ok in Hcf, Hca. split; [exact Hcf|]. split; [exact Hca|].
  apply boe_symbology_init_new; [done|]. split; [|done..].
  split; cbn [bo_no_bufs bo_cxl_bufs bo_mod_bufs bo_hpr_broker_loc bo_symbol_array bo_id_map
    bo_outbound_seqnum].
  - apply bs_init_ok; [done|]. apply prepare_new_order_ready.
  - apply bs_init_ok; [done|]. apply prepare_cancel_ready.
  - apply bs_init_ok; [done|]. apply prepare_modify_ready.
  - pose proof (string_bytes_are_bytes loc) as Hb. destruct (string_bytes loc); cbn; [unfold is_byte; lia|].
    by apply Forall_cons in Hb as [Hb _].
  - intros esi sym. by rewrite lookup_empty.
  - intros id token. by rewrite lookup_empty.
  - done.
Qed.
End Constructed.

(** ** A session on a connection that sends everything *)

Definition boe_sample_settings : ConfigState := cs_create (list_to_map
  [("type", "BOE20Session"); ("mic", "BATS"); ("remote.addr", "10.0.0.2"); ("remote.port", "9000");
   ("session_sub_id", "0001"); ("username", "user"); ("password", "pass"); ("clearing_firm", "I01X");
   ("clearing_account", "A1"); ("hpr_broker_loc", "H")]) "".
Definition boe_sample_lex (t : string) : option Z := if bool_decide (t = "9000") then Some 9000 else None.

(** Memory full of zeros. *)
Definition blank_header : BoeHeader := mkHdr 0 0 0 0 0.
Definition blank_buffers : RawBuffers := mkRaw
  (replicate NUM_MSG_BUFFERS
     (mkOutbound (mkBoeNewOrder blank_header (replicate 20 0) 0 0 0) [] (λ f, replicate (width f) 0) 0 0))
  (replicate NUM_MSG_BUFFERS
     (mkOutbound (mkBoeCancel blank_header (replicate 20 0) 0) [] (λ f, replicate (width f) 0) 0 0))
  (replicate NUM_MSG_BUFFERS
     (mkOutbound (mkBoeModify blank_header (replicate 20 0) (replicate 20 0) 0) []
        (λ f, replicate (width f) 0) 0 0)).
Definition boe_sample_new : res (BOE20Session Wire) :=
  BOE20Session_new 4 4 10 boe_sample_lex boe_sample_lex boe_sample_lex (λ _, None) "BATS1"
    boe_sample_settings [(1, string_bytes "MSFT")] blank_buffers
    (Some (41, replicate MAX_NUMBER_OF_MATCHING_UNITS 0)) [].

(** As it is once it has logged in and the exchange has replayed. *)
Definition boe_activated (s : BOE20Session Wire) : BOE20Session Wire :=
  s <| bo_state := ACTIVE |> <| bo_active := true |>.
Definition boe_sample : BOE20Session Wire :=
  match boe_sample_new with
  | Ok s => boe_activated s
  | Fail _ => mkBoe "" MIC_UNKNOWN false UNINITIALIZED "" 0 [] ts_zero ts_zero [] 0 ∅ false ts_zero 0
                (mkStore [] []) (mkStore [] []) (mkStore [] []) ∅ ∅ 0 [] []
  end.
Lemma boe_sample_ready : ∃ rej, session_ready "I01X" "A1" rej boe_sample.
Proof.
  unfold boe_sample. destruct boe_sample_new as [s|] eqn:Hnew.
  - apply BOE20Session_new_ready in Hnew as (cf & ca & rej & Hcf & Hca & [Hr _ _ _]);
      try apply length_replicate.
    + vm_compute in Hcf, Hca. injection Hcf as <-. injection Hca as <-. exists rej. by destruct Hr.
    + constructor; [apply string_bytes_are_bytes|constructor].
    + intros n l [= <- _]. z_compute.
  - exfalso. assert (match boe_sample_new with Ok _ => true | Fail _ => false end = true) as Hok
      by (vm_compute; reflexivity). by rewrite Hnew in Hok.
Qed.

#[local] Abbreviation B := SpecFloat.spec_float.

Definition boe_sample_order : Order B :=
  (Order_new (mkTs 34200 0) (BATSOrder BOE20Order_default) 1 (d_lit 10025 100) 300 BUY DAY LIMIT
    None 0) <| o_localID := 7 |>.
Lemma boe_sample_order_fits : boe_order_fits boe_sample_order.
Proof. split_and!; try z_compute. intros be [= <-]. split_and!; z_compute. Qed.

Lemma boe_sent_order_reads_back_witness :
  ∃ s' o' packet m v, boe_send 1 boe_sample_order boe_sample = (true, s', o')
    /\ bo_net s' = [packet]
    /\ boe_exchange_reads c_NewOrder nw_message_header nw_num_bitfields NEW_ORDER_V2 packet = Some (m, v)
    /\ get_local_id (nw_cl_ord_id m) = 7 /\ nw_order_qty m = 300
    /\ v F_SYMBOL = [77; 83; 70; 84; 0; 0; 0; 0] /\ h_sequence_number (nw_message_header m) = 40.
Proof.
  assert ((boe_send 1 boe_sample_order boe_sample).1.1 = true) as Hb by (vm_compute; reflexivity).
  destruct (boe_send 1 boe_sample_order boe_sample) as [[b s'] o'] eqn:Hs. cbn [fst] in Hb. subst b.
  destruct boe_sample_ready as [rej Hready].
  destruct (boe_sent_order_reads_back "I01X" "A1" rej 1 boe_sample_order boe_sample s' o' Hready
    boe_sample_order_fits Hs) as (_ & _ & packet & (Hnet & _) & m & v & Hx & Hnum & _ & Hid & _ & _
    & Hqty & _ & _ & _ & Hsym & _).
  exists s', o', packet, m, v. split; [done|]. split.
  - rewrite Hnet. apply passed_wire.
  - by split_and!.
Defined.

Definition boe_sample_sent : BOE20Session Wire := (boe_send 1 boe_sample_order boe_sample).1.2.
Lemma boe_sample_sent_ready : ∃ rej, session_ready "I01X" "A1" rej boe_sample_sent.
Proof.
  unfold boe_sample_sent. destruct boe_sample_ready as [rej Hready]. exists rej.
  pose proof (boe_ask_spec "I01X" "A1" rej (AskSend boe_sample_order) boe_sample Hready
    boe_sample_order_fits) as Hask.
  cbn [boe_ask] in Hask. unfold boe_send in *. change (bool_decide (bo_state boe_sample = ACTIVE)) with true in *.
  cbn [negb] in *. destruct (send_new_order boe_sample_order boe_sample) as [[b s'] o']. apply Hask.
Qed.

Lemma boe_sent_cancel_reads_back_witness :
  ∃ s' o' packet m v, boe_cancel 1 boe_sample_order 0 boe_sample_sent = (true, s', o')
    /\ bo_net s' = bo_net boe_sample_sent ++ [packet]
    /\ boe_exchange_reads c_BoeCancelOrder bc_message_header bc_num_bitfields CANCEL_ORDER_V2 packet = Some (m, v)
    /\ get_local_id (bc_orig_cl_ord_id m) = 7 /\ h_sequence_number (bc_message_header m) = 41.
Proof.
  assert ((boe_cancel 1 boe_sample_order 0 boe_sample_sent).1.1 = true) as Hb by (vm_compute; reflexivity).
  destruct (boe_cancel 1 boe_sample_order 0 boe_sample_sent) as [[b s'] o'] eqn:Hs.
  cbn [fst] in Hb. subst b. destruct boe_sample_sent_ready as [rej Hready].
  destruct (boe_sent_cancel_reads_back "I01X" "A1" rej 1 boe_sample_order 0 boe_sample_sent s' o' Hready
    boe_sample_order_fits Hs) as (_ & _ & packet & (Hnet & _) & [(_ & m & v & Hx & Hnum & Hid & _)|(Hz & _)]);
    [|destruct (Hz eq_refl)].
  exists s', o', packet, m, v. split; [done|]. split.
  - rewrite Hnet. apply passed_wire.
  - by split_and!.
Defined.

Lemma boe_messages_numbered_witness :
  let rs := [AskSend boe_sample_order; AskSend (boe_sample_order <| o_type := OT_UNKNOWN |>);
             AskCancel boe_sample_order 100; AskCancel boe_sample_order 0] in
  (boe_asks rs boe_sample).1 = 3%nat
  /\ ∃ packets, bo_net (boe_asks rs boe_sample).2 = packets
     /\ map packet_number packets = [40; 41; 42].
Proof.
  intros rs. assert ((boe_asks rs boe_sample).1 = 3%nat) as Hn by (vm_compute; reflexivity).
  split; [done|]. destruct boe_sample_ready as [rej Hready].
  pose proof (boe_messages_numbered "I01X" "A1" rej rs boe_sample Hready) as Hnum.
  destruct (boe_asks rs boe_sample) as [n s']. cbn [fst snd] in *. subst n.
  destruct Hnum as (_ & _ & packets & Hnet & Hlen & Hnum).
  { assert (boe_order_fits (boe_sample_order <| o_type := OT_UNKNOWN |>)) as Hf
      by exact boe_sample_order_fits.
    apply Forall_forall. intros r Hin. repeat (apply elem_of_cons in Hin as [->|Hin]);
      [exact boe_sample_order_fits|exact Hf|exact boe_sample_order_fits|exact boe_sample_order_fits|].
    by apply elem_of_nil in Hin. }
  change (bo_net boe_sample) with ([] : Wire) in Hnet. exists packets. split; [done|].
  destruct packets as [|p1 [|p2 [|p3 [|? ?]]]]; try discriminate Hlen. cbn [map].
  rewrite (Hnum 0%nat p1 eq_refl), (Hnum 1%nat p2 eq_refl), (Hnum 2%nat p3 eq_refl).
  reflexivity.
Defined.

(** A connection whose every send fails. *)
Definition dead_wire : Connection Wire := {|
  conn_send _ e := (-1, e);
  conn_connect _ _ e := (true, e);
  conn_disconnect e := e;
  conn_shutdown e := e;
  conn_now e := (mkTs 34200 0, e)
|}.
Lemma boe_send_ignores_the_socket_witness :
  (∀ packet (e : Wire), (conn_send (Connection := dead_wire) packet e).1 < 0)
  /\ ∃ s' o', @boe_send Wire dead_wire B _ 1 boe_sample_order boe_sample = (true, s', o')
     /\ bo_state s' = ACTIVE /\ bo_outbound_seqnum s' = 41 /\ bo_net s' = [].
Proof.
  split; [intros packet e; cbn; lia|]. destruct boe_sample_ready as [rej Hready].
  destruct (boe_send_ignores_the_socket (H0 := dead_wire) "I01X" "A1" rej 1 BOE20Order_default
    boe_sample_order boe_sample Hready) as (s' & o' & Hs & Hst & Hn & _ & packet & Hnet);
    [reflexivity| |intros packet e; cbn; lia|].
  - split_and!; [reflexivity|z_compute|discriminate|by eexists|by eexists|by left].
  - exists s', o'. by split_and!.
Defined.
