(* ===== verification/Boe20Login.v ===== *)
(** * The login of a BOE 2.0 session, and its end

    The login request that a session sends reads back, group by group, as what the
    session has received of every matching unit and what it asks to be told of
    every kind of message; and a session that was asked to disconnect connects
    again. *)

From S2P Require Import Prelude Dbl Time Types Config Codec Boe20Wire.
From S2P Require Import SessionKit Boe20 Boe20Sent.
Open Scope Z_scope.

(** ** The exchange's reading of a login request *)

(** [n] groups, each as long as it says, and nothing after them: their types and
    contents. *)
Fixpoint read_groups (n : nat) (buf : list Z) : option (list (Z * list Z)) :=
  match n with
  | O => match buf with [] => Some [] | _ => None end
  | S n =>
      let len := Z.to_nat (le_val (take 2 buf)) in
      if (3 <=? len)%nat && (len <=? length buf)%nat then
        rest ← read_groups n (drop len buf);
        Some ((default 0 (buf !! 2%nat), drop 3 (take len buf)) :: rest)
      else None
  end.
Definition exchange_reads_login (packet : list Z) : option (LoginRequest * list (Z * list Z)) :=
  let m := c_dec c_LoginRequest packet in
  if (h_start_of_message (lr_header m) =? START_OF_MESSAGE_SENTINEL)
     && (h_message_type (lr_header m) =? BoeMessageType_to_Z LOGIN_REQUEST_V2)
     && (h_message_length (lr_header m) + 2 =? Z.of_nat (length packet))
  then groups ← read_groups (Z.to_nat (lr_num_param_groups m)) (drop (c_size c_LoginRequest) packet);
       Some (m, groups)
  else None.

(** A group: its length, its type, its contents. *)
Definition group (type : Z) (body : list Z) : list Z :=
  le_bytes 2 (3 + Z.of_nat (length body)) ++ [type] ++ body.
Lemma read_group n type body rest : Z.of_nat (length body) < 65000 →
  read_groups (S n) (group type body ++ rest)
  = (λ gs, (type, body) :: gs) <$> read_groups n rest.
Proof.
  intros Hlen. unfold group. cbn [read_groups].
  rewrite <- !app_assoc. rewrite take_app_n by apply length_le_bytes.
  rewrite le_val_bytes by (change (256 ^ Z.of_nat 2) with 65536; lia).
  replace (Z.to_nat (3 + Z.of_nat (length body))) with (3 + length body)%nat by lia.
  rewrite (proj2 (Nat.leb_le _ _)) by lia.
  rewrite (proj2 (Nat.leb_le _ _)) by (rewrite !length_app, length_le_bytes; cbn; lia). cbn [andb].
  assert (∀ k, le_bytes 2 k ++ [type] ++ body ++ rest = (le_bytes 2 k ++ [type] ++ body) ++ rest) as Ha
    by (intros k; by rewrite <- !app_assoc).
  rewrite Ha, drop_app_n, take_app_n by (rewrite !length_app, length_le_bytes; cbn; lia).
  rewrite <- Ha. rewrite lookup_app_r by (by rewrite length_le_bytes). rewrite length_le_bytes.
  cbn [Nat.sub lookup list_lookup app default]. 
  replace (drop 3 (le_bytes 2 (3 + Z.of_nat (length body)) ++ type :: body)) with body.
  - by destruct (read_groups n rest).
  - change (type :: body) with ([type] ++ body). rewrite app_assoc, drop_app_n; [done|].
    by rewrite length_app, length_le_bytes.
Qed.
Lemma read_groups_all gs : Forall (λ g, Z.of_nat (length g.2) < 65000) gs →
  read_groups (length gs) (concat (map (λ g, group g.1 g.2) gs)) = Some gs.
Proof.
  induction 1 as [|[t body] gs Hg _ IH]; [done|]. cbn [length map concat fst snd].
  rewrite read_group by done. by rewrite IH.
Qed.

(** ** What the session says that it has received *)

Definition units_body (units : list (Z * Z)) : list Z :=
  1 :: Z.of_nat (length units) :: concat (map (c_enc c_UnitNumberSequencePair) units).
Fixpoint read_units (n : nat) (buf : list Z) : list (Z * Z) :=
  match n with
  | O => []
  | S n => c_dec c_UnitNumberSequencePair buf
           :: read_units n (drop (c_size c_UnitNumberSequencePair) buf)
  end.
Definition unit_valid : Z * Z → Prop := c_valid c_UnitNumberSequencePair.
Lemma read_units_all units : Forall unit_valid units →
  read_units (length units) (concat (map (c_enc c_UnitNumberSequencePair) units)) = units.
Proof.
  induction 1 as [|u units Hu _ IH]; [done|]. cbn [length map concat read_units].
  rewrite codec_dec_enc, drop_app_n by (done || by apply codec_length). by rewrite IH.
Qed.
Lemma length_units_bytes units :
  length (concat (map (c_enc c_UnitNumberSequencePair) units)) = (5 * length units)%nat.
Proof.
  induction units as [|u units IH]; [done|]. cbn [map concat length].
  rewrite length_app, IH. cbn [c_UnitNumberSequencePair c_enc c_pair c_uint].
  rewrite length_app, !length_le_bytes. lia.
Qed.

Lemma elem_of_unit_sequences inbound (i : nat) seq : (Z.of_nat i, seq) ∈ unit_sequences inbound ↔
  (1 <= i <= NUMBER_OF_MATCHING_UNITS)%nat /\ inbound !! i = Some seq /\ seq ≠ 0.
Proof.
  unfold unit_sequences. rewrite list_elem_of_omap. split.
  - intros (k & Hk & Hsome). apply elem_of_seq in Hk.
    destruct (inbound !! k) as [z|] eqn:Hi; [|done]. destruct (z =? 0) eqn:Hz; [done|]. bools.
    injection Hsome as Hik <-. apply Nat2Z.inj in Hik. subst k. split_and!; try done; lia.
  - intros (Hi & Hl & Hz). exists i. rewrite elem_of_seq, Hl, (proj2 (Z.eqb_neq seq 0)) by done.
    split; [lia|done].
Qed.
Lemma unit_sequences_valid inbound : Forall (in_u 32) inbound →
  Forall unit_valid (unit_sequences inbound) /\ (length (unit_sequences inbound) <= 32)%nat.
Proof.
  intros Hin. unfold unit_sequences. split.
  - apply Forall_forall. intros [i seq] Hel. apply list_elem_of_omap in Hel as (k & Hk & Hsome).
    apply elem_of_seq in Hk. destruct (inbound !! k) as [z|] eqn:Hi; [|done].
    rewrite Forall_lookup in Hin. specialize (Hin _ _ Hi). destruct (z =? 0); [done|].
    injection Hsome as <- <-. unfold unit_valid. cbn. unfold NUMBER_OF_MATCHING_UNITS in *.
    split; [|exact Hin]. change (256 ^ 1) with 256. lia.
  - change 32%nat with (length (seq 1 NUMBER_OF_MATCHING_UNITS)) at 1.
    generalize (seq 1 NUMBER_OF_MATCHING_UNITS). induction l as [|k l IH]; [done|]. cbn [omap list_omap].
    case_match; cbn [length]; lia.
Qed.

(** The units and their numbers that the groups tell of. *)
Definition units_of_groups (gs : list (Z * list Z)) : list (Z * Z) :=
  match gs with
  | (type, _ :: n :: body) :: _ => if type =? UNIT_SEQUENCES then read_units (Z.to_nat n) body else []
  | _ => []
  end.
Definition login_groups (inbound : list Z) : list (Z * list Z) :=
  (match unit_sequences inbound with [] => [] | us => [(UNIT_SEQUENCES, units_body us)] end)
  ++ map (λ r, (RETURN_BITFIELDS, BoeMessageType_to_Z r.1 :: 8 :: r.2)) return_bitfields.

Lemma units_of_login_groups inbound : Forall (in_u 32) inbound →
  units_of_groups (login_groups inbound) = unit_sequences inbound.
Proof.
  intros Hin. destruct (unit_sequences_valid inbound Hin) as [Hv _]. unfold login_groups.
  destruct (unit_sequences inbound) as [|u us] eqn:Hus; [reflexivity|].
  unfold units_body. cbn [app units_of_groups]. change (UNIT_SEQUENCES =? UNIT_SEQUENCES) with true. cbv iota.
  rewrite Nat2Z.id. by apply read_units_all.
Qed.
Lemma login_groups_bytes inbound :
  let bytes := concat (map (λ g, group g.1 g.2) (login_groups inbound)) in
  unit_sequences_group (unit_sequences inbound)
    ++ concat (map return_bitfields_group return_bitfields) = bytes
  /\ length bytes = (get_sizeof_unit_sequences_group (length (unit_sequences inbound))
                     + get_sizeof_return_bitfields_group)%nat.
Proof.
  assert (unit_sequences_group (unit_sequences inbound) = concat (map (λ g, group g.1 g.2)
    (match unit_sequences inbound with [] => [] | us => [(UNIT_SEQUENCES, units_body us)] end))) as Hu.
  { unfold unit_sequences_group. destruct (unit_sequences inbound) as [|u us]; [done|].
    set (units := u :: us). cbn [map concat fst snd]. unfold group, units_body. rewrite app_nil_r.
    f_equal. f_equal. unfold get_sizeof_unit_sequences_group.
    rewrite (proj2 (Nat.ltb_lt _ _)) by (subst units; cbn; lia).
    cbn [length]. rewrite length_units_bytes. change (c_size c_UnitNumberSequencePair) with 5%nat. lia. }
  intros bytes. assert (unit_sequences_group (unit_sequences inbound)
    ++ concat (map return_bitfields_group return_bitfields) = bytes) as Hb
    by (rewrite Hu; subst bytes; unfold login_groups; by rewrite map_app, concat_app).
  split; [done|]. rewrite <- Hb, length_app. f_equal. unfold unit_sequences_group.
  destruct (unit_sequences inbound) as [|u us] eqn:Hus; [done|]. rewrite <- Hus.
  rewrite !length_app, length_le_bytes, length_units_bytes. rewrite Hus. cbn. lia.
Qed.
Lemma return_bitfields_width : Forall (λ r, length r.2 = 8%nat) return_bitfields.
Proof. repeat constructor. Qed.
Lemma units_body_fits us : (length us <= 32)%nat → Z.of_nat (length (units_body us)) < 65000.
Proof. intros Hlen. unfold units_body. cbn [length]. rewrite length_units_bytes. lia. Qed.
Lemma login_groups_fit inbound : Forall (in_u 32) inbound →
  Forall (λ g, Z.of_nat (length g.2) < 65000) (login_groups inbound).
Proof.
  intros Hin. destruct (unit_sequences_valid _ Hin) as [_ Hlen]. unfold login_groups.
  apply Forall_app. split.
  - destruct (unit_sequences inbound) as [|u us]; [by apply Forall_nil|].
    apply Forall_cons. split; [by apply units_body_fits|by apply Forall_nil].
  - apply Forall_map. eapply Forall_impl; [exact return_bitfields_width|].
    intros r Hr. cbn [snd length]. rewrite Hr. lia.
Qed.

Lemma prepared_header_valid t len : c_valid c_BoeHeader (prepared_header t len).
Proof. change (prepared_header t len) with (header_of t len 0). by apply header_of_valid. Qed.
Lemma login_request_valid len credentials n : length credentials = CREDENTIALS_WIDTH →
  Forall is_byte credentials → 0 <= n < 256 →
  c_valid c_LoginRequest (mkLoginRequest (prepared_header LOGIN_REQUEST_V2 len) credentials n).
Proof. intros Hl Hb Hn. split; [split|]; [apply prepared_header_valid|by split|exact Hn]. Qed.

Lemma exchange_reads_groups m gs len : c_valid c_LoginRequest m →
  let bytes := concat (map (λ g, group g.1 g.2) gs) in
  lr_header m = prepared_header LOGIN_REQUEST_V2 len → Z.to_nat (lr_num_param_groups m) = length gs →
  Forall (λ g, Z.of_nat (length g.2) < 65000) gs → len = (c_size c_LoginRequest + length bytes)%nat →
  2 <= Z.of_nat len < 65538 →
  exchange_reads_login (c_enc c_LoginRequest m ++ bytes) = Some (m, gs).
Proof.
  intros Hm bytes Hh Hn Hfit Hlen Hr. unfold exchange_reads_login. rewrite codec_dec_enc by done.
  rewrite drop_app_n by (by apply codec_length). rewrite Hn, Hh. subst bytes.
  rewrite read_groups_all by done. rewrite length_app, (codec_length _ Hm), <- Hlen.
  unfold prepared_header, BoeHeader_create.
  cbn [h_start_of_message h_message_type h_message_length set_field].
  rewrite !Z.eqb_refl, (wrap_small 16), (proj2 (Z.eqb_eq (_ + 2) _)) by (unfold in_u; lia). done.
Qed.
Lemma length_login_groups inbound : Z.of_nat (length (login_groups inbound))
  = (if (0 <? length (unit_sequences inbound))%nat then 1 else 0) + Z.of_nat (length return_bitfields).
Proof.
  unfold login_groups. rewrite length_app, length_map. generalize (length return_bitfields). intros n.
  destruct (unit_sequences inbound); cbn; lia.
Qed.

(** The login request reads back, and to its last byte: the credentials, then
    the last number received from each matching unit that anything was received
    from, and from no other, then what to return for every kind of message; so
    that the exchange replays exactly what is missing. *)
Theorem boe_login_request_reads_back {E} (s : BOE20Session E)
    (Hcred : length (bo_credentials s) = CREDENTIALS_WIDTH /\ Forall is_byte (bo_credentials s))
    (Hin : Forall (in_u 32) (bo_inbound_seqnum s)) :
  ∃ m gs, exchange_reads_login (boe_login_request s) = Some (m, gs)
    /\ lr_credentials m = bo_credentials s
    /\ (∀ (i : nat) seq, (Z.of_nat i, seq) ∈ units_of_groups gs ↔
         (1 <= i <= NUMBER_OF_MATCHING_UNITS)%nat /\ bo_inbound_seqnum s !! i = Some seq /\ seq ≠ 0)
    /\ ∀ t bitfields, (t, bitfields) ∈ return_bitfields →
         (RETURN_BITFIELDS, BoeMessageType_to_Z t :: 8 :: bitfields) ∈ gs.
Proof.
  unfold boe_login_request. destruct (unit_sequences_valid _ Hin) as [_ Hlen].
  destruct (login_groups_bytes (bo_inbound_seqnum s)) as [Hbytes Hbody]. rewrite Hbytes.
  rewrite <- (length_login_groups (bo_inbound_seqnum s)), <- Nat.add_assoc, <- Hbody.
  set (gs := login_groups (bo_inbound_seqnum s)) in *.
  set (bytes := concat (map (λ g, group g.1 g.2) gs)) in *.
  assert (length gs <= 10)%nat as Hgs.
  { subst gs. pose proof (length_login_groups (bo_inbound_seqnum s)) as Hl.
    change (length return_bitfields) with 9%nat in Hl. case_match; lia. }
  assert (length bytes <= 300)%nat as Hshort.
  { rewrite Hbody. unfold get_sizeof_unit_sequences_group, get_sizeof_return_bitfields_group.
    change (c_size c_UnitNumberSequencePair) with 5%nat. case_match; lia. }
  set (len := (c_size c_LoginRequest + length bytes)%nat).
  eexists _, gs. split; [apply (exchange_reads_groups _ gs len)|].
  - apply login_request_valid; [apply Hcred..|lia].
  - done.
  - apply Nat2Z.id.
  - by apply login_groups_fit.
  - done.
  - subst len. change (c_size c_LoginRequest) with 29%nat. lia.
  - split; [done|]. split.
    + subst gs. rewrite units_of_login_groups by done. apply elem_of_unit_sequences.
    + intros t bitfields Hel. subst gs. unfold login_groups. apply elem_of_app. right.
      apply (list_elem_of_fmap_2 (λ r, (RETURN_BITFIELDS, BoeMessageType_to_Z r.1 :: 8 :: r.2)) _ _ Hel).
Qed.

(** ** Disconnecting *)

Section Disconnect.
Context {E : Type} `{Connection E}.
Implicit Types s : BOE20Session E.

Lemma in_session_states s : bo_state s ≠ ACTIVE → bo_state s ≠ REPLAY → in_session s = false.
Proof. unfold in_session. intros. by rewrite !bool_decide_false. Qed.
(** The timer of a session that is not logged in. *)
Lemma boe_on_timer_idle (ts : Timestamp) s : bo_state s = ERROR_DISCONNECT ∨ bo_state s = BS_DISCONNECT →
  boe_on_timer ts s =
  if bool_decide (bo_state s = ERROR_DISCONNECT) && bo_auto_reconnect s
     && (bo_reconnect_interval_ms s <=? elapsed_ms ts (bo_last_reconnect_attempt_ts s))
  then (boe_connect false (s <| bo_last_reconnect_attempt_ts := ts |>)).2 else s.
Proof.
  intros Hst. unfold boe_on_timer. rewrite in_session_states by (destruct Hst as [-> | ->]; done).
  rewrite (bool_decide_false (bo_state s = USER_LOGOUT_REQUEST)) by (destruct Hst as [-> | ->]; done).
  reflexivity.
Qed.

Lemma timer_reconnects (later : Timestamp) s : bo_state s = ERROR_DISCONNECT →
  bo_auto_reconnect s = true → bo_host s ≠ "" → bo_port s ≠ 0 →
  bo_reconnect_interval_ms s <= elapsed_ms later (bo_last_reconnect_attempt_ts s) →
  bo_net (boe_on_timer later s) = (conn_connect (bo_host s) (bo_port s) (bo_net s)).2.
Proof.
  intros Hst Hauto Hhost Hport Hlong. rewrite boe_on_timer_idle by (by left).
  rewrite Hauto, (proj2 (Z.leb_le _ _) Hlong), bool_decide_true by done. cbn [andb].
  unfold boe_connect, boe_disconnected. cbn [bo_host bo_port bo_state bo_net set_field].
  rewrite Hst, (bool_decide_false (bo_host s = "")), (proj2 (Z.eqb_neq _ _) Hport) by done.
  cbn [orb negb]. rewrite (bool_decide_true (ERROR_DISCONNECT = ERROR_DISCONNECT)) by done.
  rewrite orb_true_r. cbn [negb]. by destruct (conn_connect _ _ _).
Qed.

(** What the reconnection looks at. *)
Definition same_target s s' : Prop :=
  bo_host s' = bo_host s /\ bo_port s' = bo_port s /\ bo_auto_reconnect s' = bo_auto_reconnect s
  /\ bo_reconnect_interval_ms s' = bo_reconnect_interval_ms s
  /\ bo_last_reconnect_attempt_ts s' = bo_last_reconnect_attempt_ts s.
Lemma do_logout_spec requested s : same_target s (do_logout requested s)
  /\ bo_state (do_logout requested s) = (if requested then BS_DISCONNECT else ERROR_DISCONNECT)
  /\ bo_active (do_logout requested s) = false.
Proof.
  unfold do_logout, send_logout_request, send_helper. destruct (conn_send _ _) as [n e].
  destruct (conn_now e) as [t e']. by split_and!.
Qed.
Lemma requested_timer (ts : Timestamp) s : bo_state s = USER_LOGOUT_REQUEST →
  boe_on_timer ts s = do_logout false s.
Proof. intros Hst. unfold boe_on_timer. by rewrite Hst, orb_true_r. Qed.

(** A session that was asked to disconnect without force logs out when its timer
    next runs, but into the state of an error, so that, unless it is configured
    not to, it connects again once the interval is over; one that was forced to
    disconnect stays so, and its timer does nothing more. *)
Theorem boe_requested_disconnect_reconnects s (ts later : Timestamp)
    (Hauto : bo_auto_reconnect s = true) (Hhost : bo_host s ≠ "") (Hport : bo_port s ≠ 0)
    (Hlong : bo_reconnect_interval_ms s <= elapsed_ms later (bo_last_reconnect_attempt_ts s)) :
  let polite := boe_on_timer ts (boe_disconnect false s) in
  let forced := boe_disconnect true s in
  bo_state polite = ERROR_DISCONNECT /\ bo_active polite = false
  /\ bo_net (boe_on_timer later polite)
     = (conn_connect (bo_host s) (bo_port s) (bo_net polite)).2
  /\ bo_state forced = BS_DISCONNECT /\ boe_on_timer later forced = forced.
Proof.
  assert (∃ q, boe_disconnect false s = q /\ bo_state q = USER_LOGOUT_REQUEST /\ same_target s q)
    as (q & Hq & Hst & Ht) by (by eexists).
  cbv zeta. rewrite Hq, requested_timer by done.
  destruct (do_logout_spec false q) as (Ht' & Hst' & Hact). set (polite := do_logout false q) in *.
  clearbody polite. destruct Ht as (T1 & T2 & T3 & T4 & T5), Ht' as (U1 & U2 & U3 & U4 & U5).
  rewrite T1 in U1. rewrite T2 in U2. rewrite T3 in U3. rewrite T4 in U4. rewrite T5 in U5.
  split; [done|]. split; [done|]. split.
  - rewrite <- U1, <- U2. apply timer_reconnects; congruence.
  - change (boe_disconnect true s) with (do_logout true (s <| bo_active := false |>)).
    destruct (do_logout_spec true (s <| bo_active := false |>)) as (_ & Hforced & _).
    set (forced := do_logout true _) in *. clearbody forced. split; [done|].
    rewrite boe_on_timer_idle by (by right). by rewrite Hforced.
Qed.
End Disconnect.

Lemma boe_login_request_reads_back_witness :
  let s := boe_sample <| bo_inbound_seqnum := [0; 17; 0; 4000000000] |> in
  ∃ m gs, exchange_reads_login (boe_login_request s) = Some (m, gs)
    /\ length gs = 10%nat /\ (1, 17) ∈ units_of_groups gs /\ (3, 4000000000) ∈ units_of_groups gs.
Proof.
  intros s. destruct (boe_login_request_reads_back s) as (m & gs & Hread & _ & Hunits & _).
  - vm_compute. split; [reflexivity|]. repeat constructor; discriminate.
  - repeat constructor; discriminate.
  - exists m, gs. split; [done|].
    assert (option_map (λ r, length r.2) (exchange_reads_login (boe_login_request s)) = Some 10%nat) as Hlen
      by (vm_compute; reflexivity).
    rewrite Hread in Hlen. cbn [option_map snd] in Hlen. injection Hlen as Hlen.
    assert (bo_inbound_seqnum s = [0; 17; 0; 4000000000]) as Hi by reflexivity. rewrite Hi in Hunits.
    clearbody s. unfold NUMBER_OF_MATCHING_UNITS in Hunits. split; [done|].
    split; [apply (Hunits 1%nat 17)|apply (Hunits 3%nat 4000000000)]; (split; [lia|split; [reflexivity|lia]]).
Defined.

Lemma boe_requested_disconnect_reconnects_witness :
  let polite := boe_on_timer (mkTs 34200 0) (boe_disconnect false boe_sample) in
  bo_state polite = ERROR_DISCONNECT /\ bo_state (boe_disconnect true boe_sample) = BS_DISCONNECT.
Proof.
  destruct (boe_requested_disconnect_reconnects boe_sample (mkTs 34200 0) (mkTs 34210 0))
    as (H1 & _ & _ & H4 & _); [vm_compute; reflexivity|vm_compute; discriminate|vm_compute; discriminate|
      vm_compute; discriminate|]. by split.
Defined.
