(* ===== verification/Ouch42.v ===== *)
(** * The OUCH 4.2 session (src/oe/NASDAQ/OUCH42Session.cpp, OUCH42Session.hpp):
      state, connection, login, and what it sends

    The session turns the order manager's calls into packets for NASDAQ.  Packets
    that come in are handled in [Ouch42Handler]. *)

From S2P Require Import Prelude Dbl Time Types Order Config Alphanum Codec SoupBin.
From S2P Require Import Ouch42Wire OrderLog Session SessionKit.
From stdpp Require Import pretty.
From Stdlib Require Import Qcanon QArith.
Open Scope Z_scope.

Inductive State :=
| TIMED_OUT | LOGIN_REJECTED | DISCONNECTED | ERROR | ST_UNKNOWN | INITIALIZED | CONNECTING
| CONNECTED | LOGGED_IN.
#[export] Instance State_eq_dec : EqDecision State.
Proof. solve_decision. Defined.
Definition State_to_Z (s : State) : Z :=
  match s with
  | TIMED_OUT => -4 | LOGIN_REJECTED => -3 | DISCONNECTED => -2 | ERROR => -1 | ST_UNKNOWN => 0
  | INITIALIZED => 1 | CONNECTING => 2 | CONNECTED => 3 | LOGGED_IN => 4
  end.
Definition State_to_string (s : State) : string :=
  match s with
  | TIMED_OUT => "TIMED_OUT" | LOGIN_REJECTED => "LOGIN_REJECTED"
  | DISCONNECTED => "DISCONNECTED" | ERROR => "ERROR" | ST_UNKNOWN => "UNKNOWN"
  | INITIALIZED => "INITIALIZED" | CONNECTING => "CONNECTING" | CONNECTED => "CONNECTED"
  | LOGGED_IN => "LOGGED_IN"
  end.

(** [ou_last_seqnum_received] and [ou_persist_session] are the memory-mapped
    [PersistentState]; text is its bytes, except the session's name. *)
Record OUCH42Session (E : Type) := mkOuch {
  ou_name : string;
  ou_mic : MIC;
  ou_active : bool;
  ou_host : string;
  ou_port : Z;
  ou_username : list Z;
  ou_password : list Z;
  ou_req_session : list Z;
  ou_firm_identifier : list Z;
  ou_heartbeat_grace_sec : Z;
  ou_default_broker_locate : Z;
  ou_state : State;
  ou_last_message_received_ts : Timestamp;
  ou_last_message_sent_ts : Timestamp;
  ou_dangly : list Z;
  ou_last_seqnum_received : Z;
  ou_persist_session : list Z;
  ou_symbol_inst_cache : gmap (list Z) Z;
  ou_symbol_cache : gmap Z (list Z);
  ou_net : E
}.
Arguments mkOuch {E}.
Arguments ou_name {E} _.
Arguments ou_mic {E} _.
Arguments ou_active {E} _.
Arguments ou_host {E} _.
Arguments ou_port {E} _.
Arguments ou_username {E} _.
Arguments ou_password {E} _.
Arguments ou_req_session {E} _.
Arguments ou_firm_identifier {E} _.
Arguments ou_heartbeat_grace_sec {E} _.
Arguments ou_default_broker_locate {E} _.
Arguments ou_state {E} _.
Arguments ou_last_message_received_ts {E} _.
Arguments ou_last_message_sent_ts {E} _.
Arguments ou_dangly {E} _.
Arguments ou_last_seqnum_received {E} _.
Arguments ou_persist_session {E} _.
Arguments ou_symbol_inst_cache {E} _.
Arguments ou_symbol_cache {E} _.
Arguments ou_net {E} _.
#[export] Instance OUCH42Session_rebuild {E} : Rebuild (OUCH42Session E) := λ r,
  mkOuch (ou_name r) (ou_mic r) (ou_active r) (ou_host r) (ou_port r) (ou_username r)
    (ou_password r) (ou_req_session r) (ou_firm_identifier r) (ou_heartbeat_grace_sec r)
    (ou_default_broker_locate r) (ou_state r) (ou_last_message_received_ts r)
    (ou_last_message_sent_ts r) (ou_dangly r) (ou_last_seqnum_received r)
    (ou_persist_session r) (ou_symbol_inst_cache r) (ou_symbol_cache r) (ou_net r).

(** ** Text *)

(** [copy_to_array] *)
Definition copy_to_array (width : nat) (right_pad : bool) (str : list Z) (padding : Z) : list Z :=
  if right_pad then take width str ++ replicate (width - length str) padding
  else replicate (width - length str) padding ++ drop (length str - width) str.
(** [strncpy] from bytes. *)
Definition strncpy_bytes (n : nat) (l : list Z) : list Z :=
  let t := take n (until_nul l) in t ++ replicate (n - length t) 0.

Lemma length_copy_to_array n b l c : length (copy_to_array n b l c) = n.
Proof.
  unfold copy_to_array. case_match;
    rewrite length_app, ?length_take, ?length_drop, length_replicate; lia.
Qed.
Lemma length_strncpy_bytes n l : length (strncpy_bytes n l) = n.
Proof. unfold strncpy_bytes. rewrite length_app, length_replicate, length_take. lia. Qed.

(** [symbology_init]: CTA symbols become NASDAQ's. *)
Definition nasdaq_symbol (cta_symbol : list Z) : list Z := cta_symbology cta_symbol.

Section Session.
Context {E : Type} `{Connection E}.
Implicit Types s : OUCH42Session E.

Definition symbology_add (esi : Z) (cta_symbol : list Z) s : OUCH42Session E :=
  let sym := nasdaq_symbol cta_symbol in
  s <| ou_symbol_inst_cache :=
         <[copy_to_array 8 true sym 32 := esi]> (ou_symbol_inst_cache s) |>
    <| ou_symbol_cache := <[esi := sym]> (ou_symbol_cache s) |>.
(** [symbols] are the instruments of the universe with their CTA symbols. *)
Definition symbology_init (symbols : list (Z * list Z)) s : OUCH42Session E :=
  foldl (λ s es, symbology_add es.1 es.2 s) s symbols.

(** [recover_state]: [persisted] is what the mapped file holds. *)
Definition recover_state (state_path : string) (persisted : option (Z * list Z)) s
    : res (OUCH42Session E) :=
  if bool_decide (state_path = "") then Fail (Thrown "requires a state_path")
  else match persisted with
  | None => Fail (Thrown "could not open persistent state")
  | Some (seqnum, session) =>
      let s := s <| ou_last_seqnum_received := seqnum |> <| ou_persist_session := session |> in
      if negb (default 0 (head session) =? 0) && (default 0 (head (ou_req_session s)) =? 32)
      then Ok (s <| ou_req_session := resize 10 32 session |>) else Ok s
  end.

(** The constructor: [cs] is the domain "oe.sessions.<name>.". *)
Definition OUCH42Session_new (lex_int lex_u64 : string → option Z) (name : string)
    (cs : ConfigState) (symbols : list (Z * list Z)) (persisted : option (Z * list Z)) (e : E)
    : res (OUCH42Session E) :=
  mic ← OrderSession_init "OUCH42Session" false cs;
  protocol ← require "missing protocol" (cs_get Some cs "protocol");
  _ ← (if bool_decide (protocol = "SoupBinTCP") then Ok ()
       else Fail (Thrown "only supports the SoupBinTCP protocol"));
  host ← require "missing remote.addr or remote.port" (cs_get Some cs "remote.addr");
  port ← require "missing remote.addr or remote.port" (cs_get lex_int cs "remote.port");
  username ← require "missing username" (cs_get Some cs "username");
  password ← require "missing password" (cs_get Some cs "password");
  let req_session := cs_get_or_default Some cs "session" "" in
  let grace := cs_get_or_default lex_u64 cs "heartbeat_grace_period" 5 in
  let locate := swrap 8 (cs_get_or_default lex_int cs "default_broker_locate" (-1)) in
  _ ← (if (locate <? 0) || (3 <? locate)
       then Fail (Thrown "missing or invalid default_broker_locate") else Ok ());
  let firm := match cs_get Some cs "firm_identifier" with
              | Some f => resize 4 32 (string_bytes f)
              | None => replicate 4 32
              end in
  let s := mkOuch name mic false host port (resize 6 32 (string_bytes username))
    (resize 10 32 (string_bytes password)) (resize 10 32 (string_bytes req_session))
    firm grace locate ST_UNKNOWN ts_zero ts_zero [] 0 [] ∅ ∅ e in
  recover_state (cs_get_or_default Some cs "state_path" ("ouch42." +:+ name +:+ ".state"))
    persisted (symbology_init symbols s).

(** ** The state machine of the connection *)

Definition connected s : bool :=
  bool_decide (ou_state s = CONNECTED) || bool_decide (ou_state s = LOGGED_IN).
Definition logged_in s : bool := bool_decide (ou_state s = LOGGED_IN).
Definition timed_out (ts : Timestamp) s : bool :=
  bool_decide (ou_state s = TIMED_OUT)
  || (u64 (milliseconds_since_midnight ts - u64 (ou_heartbeat_grace_sec s * 1000))
      <? milliseconds_since_midnight (ou_last_message_received_ts s)).

(** [__sync_val_compare_and_swap] returns the value that was there, which the
    code stores in a [bool]. *)
Definition compare_and_swap (oldval newval : State) s : bool * OUCH42Session E :=
  (negb (State_to_Z (ou_state s) =? 0),
   if bool_decide (ou_state s = oldval) then s <| ou_state := newval |> else s).

(** [send_order_data]: the time of sending, when everything was sent. *)
Definition send_order_data (buf : list Z) s : option Timestamp * OUCH42Session E :=
  let '(slen, e) := conn_send buf (ou_net s) in
  if Z.of_nat (length buf) =? slen then
    let '(t, e) := conn_now e in
    (Some t, s <| ou_net := e |> <| ou_last_message_sent_ts := t |>)
  else (None, s <| ou_net := e |>).

Definition LOGIN_REQUEST : Z := 76.
Definition UNSEQUENCED_MESSAGE : Z := 85.
Definition HEARTBEAT_MESSAGE : Z := 82.
Definition LOGOFF_REQUEST : Z := 79.

Definition connect (replay : bool) s : bool * OUCH42Session E :=
  let '(ok, e) := conn_connect (ou_host s) (ou_port s) (ou_net s) in
  (ok, s <| ou_state := CONNECTING |> <| ou_net := e |>).

Definition disconnect (force : bool) s : OUCH42Session E :=
  let '(was_logged_in, s) := compare_and_swap LOGGED_IN DISCONNECTED (s <| ou_active := false |>) in
  let e := if negb force && was_logged_in
           then (conn_send (encode_packet [LOGOFF_REQUEST]) (ou_net s)).2 else ou_net s in
  s <| ou_state := DISCONNECTED |> <| ou_net := conn_disconnect e |>.

(** The packet of a login request, for the next sequence number. *)
Definition login_request s : list Z :=
  let seqnum := string_bytes (pretty (Z.to_N (u64 (ou_last_seqnum_received s + 1)))) in
  encode_packet (LOGIN_REQUEST :: copy_to_array 6 true (ou_username s) 32
    ++ copy_to_array 10 true (ou_password s) 32
    ++ copy_to_array 10 true (ou_req_session s) 32
    ++ copy_to_array 20 false seqnum 32).

Definition on_connected s : OUCH42Session E :=
  let '(was_connecting, s) := compare_and_swap CONNECTING CONNECTED s in
  if was_connecting : bool then (send_order_data (login_request s) s).2 else s.

(** [on_peer_disconnect] and [on_local_disconnect] do the same. *)
Definition on_peer_disconnect s : OUCH42Session E :=
  s <| ou_active := false |> <| ou_state := DISCONNECTED |> <| ou_net := conn_shutdown (ou_net s) |>.
Definition on_local_disconnect s : OUCH42Session E := on_peer_disconnect s.

Definition heartbeat s : OUCH42Session E :=
  let '(sent, s) := send_order_data (encode_packet [HEARTBEAT_MESSAGE]) s in
  match sent with
  | Some _ => s
  | None => disconnect true (s <| ou_active := false |> <| ou_state := ERROR |>)
  end.

(** Nothing was received for too long. *)
Definition reconnect s : OUCH42Session E :=
  let s := s <| ou_state := TIMED_OUT |> in
  if ou_active s then (connect true (disconnect true (s <| ou_active := false |>))).2 else s.

Definition ouch_on_timer (ts : Timestamp) s : OUCH42Session E :=
  if negb (logged_in s) then s
  else
    let s := if milliseconds_since_midnight (ou_last_message_received_ts s)
                <? u64 (milliseconds_since_midnight ts - u64 (ou_heartbeat_grace_sec s * 1000))
             then reconnect s else s in
    if logged_in s
       && (250 <=? u64 (milliseconds_since_midnight ts
                        - milliseconds_since_midnight (ou_last_message_sent_ts s)))
    then heartbeat s else s.

(** ** Session packets from the exchange *)

(** The loop over the characters of the sequence number, from an accumulator. *)
Fixpoint parse_seqnum (seqnum : Z) (l : list Z) : option Z :=
  match l with
  | [] => Some seqnum
  | c :: l' =>
      if c =? 32 then parse_seqnum seqnum l'
      else if (48 <=? c) && (c <=? 57) then parse_seqnum (u64 (u64 (seqnum * 10) + (c - 48))) l'
      else None
  end.

(** [handle_packet(LoginAccept)]: [msg] is read from after the header. *)
Definition c_LoginAccept : Codec (list Z * list Z) := c_array 10 *c c_array 20.
Definition handle_login_accept (msg : list Z * list Z) s : OUCH42Session E :=
  let '(was_connected, s) := compare_and_swap CONNECTED LOGGED_IN s in
  if negb was_connected then s
  else
    let s := s <| ou_persist_session := msg.1 |> in
    match parse_seqnum 0 msg.2 with
    | None => disconnect true (s <| ou_active := false |> <| ou_state := ERROR |>)
    | Some seqnum => s <| ou_last_seqnum_received := u64 (seqnum - 1) |> <| ou_active := true |>
    end.
Definition handle_login_reject s : OUCH42Session E :=
  s <| ou_active := false |> <| ou_state := LOGIN_REJECTED |>.
Definition handle_server_heartbeat s : OUCH42Session E := s.
Definition handle_end_of_session s : OUCH42Session E :=
  disconnect false (s <| ou_active := false |> <| ou_state := DISCONNECTED |>).

(** ** Orders *)

(** [create_order_token_hpr]. An order's own broker locate is always -1, so the
    session's default is used. *)
Definition hpr_char (c : Z) : Z :=
  if c =? 46 then 99 else if c =? 45 then 112 else if c =? 43 then 119 else c.
Definition hpr_marker (side : Side) (tif : TimeInForce) (locate : Z) : option Z :=
  let at_auction m :=
    if bool_decide (tif = AUCTION_OPEN) || bool_decide (tif = AUCTION_CLOSE) then m + 9 else m in
  match side with
  | SIDE_UNKNOWN => None
  | SHORT | SHORT_EXEMPT => Some (at_auction (65 + locate))
  | SELL => Some (at_auction (69 + locate))
  | BUY => Some (at_auction 73)
  end.
Definition symbol_of (esi : Z) s : list Z := default [] (ou_symbol_cache s !! esi).
Definition create_order_token_hpr {D} (o : Order D) s : option (list Z) :=
  marker ← hpr_marker (o_side o) (o_tif o) (ou_default_broker_locate s);
  Some (mk_token marker (map hpr_char (resize 5 48 (symbol_of (o_instrument o) s))) (o_localID o)).

Definition buy_sell_indicator (side : Side) : option Z :=
  match side with
  | BUY => Some BSI_BUY | SELL => Some BSI_SELL | SHORT => Some BSI_SHORT
  | SHORT_EXEMPT => Some BSI_SHORT_EXEMPT | SIDE_UNKNOWN => None
  end.

Section Orders.
Context {D : Type} `{Dbl D}.
Implicit Types o : Order D.

(** The display and price of an order type; the time in force, the cross and
    the display that a time in force sets. *)
Definition type_fields o : option (Z * Z) :=
  match o_type o with
  | MARKET => Some (DISPLAY_NON_DISPLAY, set_market)
  | LIMIT => Some (DISPLAY_ANONYMOUS_PRICE_TO_COMPLY, set_limit (o_price o))
  | MIDPOINT_PEG => Some (DISPLAY_MIDPOINT_PEG, set_limit (o_price o))
  | STOP | OT_UNKNOWN => None
  end.
Definition tif_fields (tif : TimeInForce) (display : Z) : option (Z * Z * Z) :=
  match tif with
  | FILL_OR_KILL | IMMEDIATE_OR_CANCEL => Some (set_ioc, NO_CROSS, DISPLAY_NON_DISPLAY)
  | DAY => Some (set_market_hours, NO_CROSS, display)
  | EXT => Some (set_system_hours, NO_CROSS, display)
  | AUCTION_CLOSE => Some (set_ioc, CLOSING_CROSS, display)
  | AUCTION_OPEN => Some (set_ioc, OPENING_CROSS, display)
  | AUCTION_HALT => Some (set_ioc, HALT_OR_IPO_CROSS, display)
  | GTC | TIMED | TIF_UNKNOWN => None
  end.
Definition enter_order (token : list Z) (nq : NASDAQFields) o s : option EnterOrder :=
  bs ← buy_sell_indicator (o_side o);
  '(display, price) ← type_fields o;
  '(time_in_force, cross_type, display) ← tif_fields (o_tif o) display;
  let display := if nq_display nq =? DISPLAY_UNKNOWN then display else nq_display nq in
  let minimum_quantity :=
    if bool_decide (o_tif o = FILL_OR_KILL) then o_size o else nq_min_size nq in
  Some (mkEnterOrder MSG_ENTER_ORDER token bs (o_size o)
    (strncpy_bytes 8 (resize 8 32 (symbol_of (o_instrument o) s)))
    price time_in_force (ou_firm_identifier s) display (nq_capacity nq) ISO_NOT_ELIGIBLE
    minimum_quantity cross_type CUSTOMER_USE_DEFAULT).

(** An unsequenced data packet around an OUCH message. *)
Definition unsequenced (message : list Z) : list Z := encode_packet (UNSEQUENCED_MESSAGE :: message).

(** [send]; the order is a [NASDAQOrder], as the code asserts: the order manager
    has compared the markets. *)
Definition ouch_send (a : Z) o s : bool * OUCH42Session E * Order D :=
  match o_kind o with
  | NASDAQOrder nq =>
      if negb (ou_active s) || negb (logged_in s) then (false, s, o)
      else match create_order_token_hpr o s with
      | None => (false, s, o)
      | Some token =>
          let o := set_client_order_id o token in
          match enter_order token nq o s with
          | None => (false, s, o)
          | Some msg =>
              let '(t, e) := conn_now (ou_net s) in
              let o := o <| o_sent_time := t |> in
              match send_order_data (unsequenced (c_enc c_EnterOrder msg)) (s <| ou_net := e |>) with
              | (Some t, s) => (true, s, o <| o_last_request_time := t |>)
              | (None, s) => (false, s, o)
              end
          end
      end
  | _ => (false, s, o)
  end.

Definition ouch_cancel (a : Z) o (newqty : Z) s : bool * OUCH42Session E * Order D :=
  match o_kind o with
  | NASDAQOrder _ =>
      if negb (ou_active s) || negb (logged_in s) then (false, s, o)
      else match create_order_token_hpr o s with
      | None => (false, s, o)
      | Some token =>
          let msg := mkCancelOrder MSG_CANCEL_ORDER token newqty in
          match send_order_data (unsequenced (c_enc c_CancelOrder msg)) s with
          | (Some t, s) => (true, s, o <| o_last_request_time := t |>)
          | (None, s) => (false, s, o)
          end
      end
  | _ => (false, s, o)
  end.

Definition ouch_destroy (a : Z) o s : bool * OUCH42Session E := (is_terminal o, s).

(** [on_create_replay_order]: the account and the user data are not kept. *)
Definition on_create_replay_order (ts : Timestamp) (inst : Z) (mic : MIC)
    (local_account local_id : Z) (price : D) (size : Z) (side : Side) (tif : TimeInForce)
    (type : OrderType) (ud : Z) s : option (Order D) * OUCH42Session E :=
  if negb (bool_decide (mic = XNAS)) then (None, s)
  else
    let '(now, e) := conn_now (ou_net s) in
    let o := Order_new now (NASDAQOrder NASDAQOrder_default) inst price size side tif type None 0 in
    let o := o <| o_session := Some (ou_name s) |> <| o_sent_time := ts |>
               <| o_localID := local_id |> in
    let o := match create_order_token_hpr o s with
             | Some token => set_client_order_id o token
             | None => o
             end in
    (Some o, s <| ou_net := e |>).
End Orders.
End Session.

#[export] Instance OUCH42Session_session {D E} `{Dbl D} `{Connection E} :
  OrderSession D (OUCH42Session E) := {|
  ss_market := ou_mic;
  ss_active := ou_active;
  ss_connect := connect;
  ss_disconnect := disconnect;
  ss_send := ouch_send;
  ss_cancel := ouch_cancel;
  ss_destroy := ouch_destroy;
  ss_cancel_all := λ s, (-1, s);
  ss_create_replay_order := on_create_replay_order
|}.

(** ** Laws of the interface *)

Section Laws.
Context {D E : Type} `{Dbl D} `{Connection E}.
Implicit Types (o : Order D) (s : OUCH42Session E).

Lemma send_order_data_mic buf s t s' : send_order_data buf s = (t, s') → ou_mic s' = ou_mic s.
Proof. unfold send_order_data. repeat case_match; by intros [= _ <-]. Qed.
Lemma set_client_order_id_only o token : session_fields_only o (set_client_order_id o token).
Proof. by destruct o. Qed.

#[export] Instance OUCH42Session_laws : OrderSessionLaws D (OUCH42Session E).
Proof.
  split; cbn; unfold ouch_send, ouch_cancel; [intros a o s b s' o'|intros a o q s b s' o'|..].
  - destruct (o_kind o); try (intros [= _ <- <-]; by destruct o).
    repeat case_match; intros [= _ <- <-]; (split; [by destruct o|]); try done;
      match goal with Hd : send_order_data _ _ = _ |- _ => by apply send_order_data_mic in Hd end.
  - destruct (o_kind o); try (intros [= _ <- <-]; by destruct o).
    repeat case_match; intros [= _ <- <-]; (split; [by destruct o|]); try done;
      match goal with Hd : send_order_data _ _ = _ |- _ => by apply send_order_data_mic in Hd end.
  - by intros a o s b s' [= _ <-].
  - unfold connect. intros r s b s'. destruct (conn_connect _ _ _). by intros [= _ <-].
  - intros f s. unfold disconnect, compare_and_swap. by case_match.
  - by intros s n s' [= _ <-].
Qed.
End Laws.

(** ** What is sent *)

Section Sent.
Context {D E : Type} `{Dbl D} `{Connection E}.
Implicit Types (o : Order D) (s : OUCH42Session E).

(** A session as the constructor makes it. *)
Record session_wf s : Prop := {
  wf_locate : 0 <= ou_default_broker_locate s <= 3;
  wf_firm : length (ou_firm_identifier s) = 4%nat /\ Forall is_byte (ou_firm_identifier s);
  wf_symbols : ∀ esi sym, ou_symbol_cache s !! esi = Some sym → Forall is_byte sym
}.

Lemma Forall_until_nul l : Forall is_byte l → Forall is_byte (until_nul l).
Proof. induction 1; cbn; [done|]. case_match; by constructor. Qed.
Lemma Forall_strncpy n l : Forall is_byte l → Forall is_byte (strncpy_bytes n l).
Proof.
  intros Hl. unfold strncpy_bytes. apply Forall_app. split.
  - by apply Forall_take, Forall_until_nul.
  - apply Forall_replicate. unfold is_byte. lia.
Qed.
Lemma wf_symbol_of s esi : session_wf s → Forall is_byte (symbol_of esi s).
Proof.
  intros Hw. unfold symbol_of. destruct (ou_symbol_cache s !! esi) eqn:Hs; cbn; [|constructor].
  by eapply wf_symbols.
Qed.

(** The assertion on the marker holds. *)
Lemma marker_in_range side tif locate m : 0 <= locate <= 3 →
  hpr_marker side tif locate = Some m → 65 <= m <= 82.
Proof. unfold hpr_marker. intros Hl. destruct side; cbv zeta; repeat case_match; intros Hm; simplify_eq; lia. Qed.

Lemma length_alnum_id id : length (alnum_set order_id_format id).1 = 8%nat.
Proof.
  unfold alnum_set. pose proof (set_loop_length order_id_format 8 true id) as Hl.
  change (OUT_WIDTH order_id_format) with 8%nat. destruct (set_loop _ _ _ _) as [l r]. cbn in *.
  unfold in_loop_order. cbn. by rewrite length_reverse.
Qed.

Lemma mk_token_parts marking symbol id : length symbol = 5%nat →
  hpr_marking (mk_token marking symbol id) = marking
  /\ hpr_symbol (mk_token marking symbol id) = symbol
  /\ hpr_id (mk_token marking symbol id) = (alnum_set order_id_format id).1
  /\ length (mk_token marking symbol id) = 14%nat.
Proof.
  intros Hs. unfold hpr_marking, hpr_symbol, hpr_id, mk_token.
  pose proof (length_alnum_id id) as Hl. set (raw := (alnum_set order_id_format id).1) in *.
  clearbody raw. split_and!; [done|..].
  - rewrite skipn_cons, drop_0. by apply take_app_n.
  - rewrite skipn_cons, drop_app_n by done. apply take_ge. lia.
  - cbn [length]. rewrite length_app. lia.
Qed.

(** A token names the local id of its order. *)
Lemma token_names_order marking symbol id : length symbol = 5%nat → in_u 32 id →
  token_id (mk_token marking symbol id) = id.
Proof.
  intros Hs [Hid Hid2]. unfold token_id.
  destruct (mk_token_parts marking symbol id Hs) as (_ & _ & -> & _).
  pose proof (alphanumeric_roundtrip order_id_format 32 id ltac:(lia) eq_refl Hid) as Hr.
  cbv zeta in Hr. destruct (alnum_set order_id_format id) as [raw fits]. destruct Hr as (_ & _ & _ & Hr).
  apply Hr; [|done]. change (BASE order_id_format ^ Z.of_nat (OUT_WIDTH order_id_format))
    with 218340105584896. lia.
Qed.

Lemma mk_token_valid marking symbol id : is_byte marking → length symbol = 5%nat →
  Forall is_byte symbol → 0 <= id → c_valid c_OrderToken (mk_token marking symbol id).
Proof.
  intros Hm Hs Hb Hid. split; [by apply mk_token_parts|]. unfold mk_token.
  constructor; [done|]. apply Forall_app. split; [done|].
  apply alnum_set_bytes; [cbn; lia|done].
Qed.

Lemma created_token o s token : session_wf s → in_u 32 (o_localID o) →
  create_order_token_hpr o s = Some token →
  c_valid c_OrderToken token /\ token_id token = o_localID o /\ hpr_marking token ≠ 90.
Proof.
  intros Hw Hid. unfold create_order_token_hpr.
  destruct (hpr_marker (o_side o) (o_tif o) (ou_default_broker_locate s)) as [m|] eqn:Hm; [|done].
  intros [= <-]. apply marker_in_range in Hm; [|by apply wf_locate].
  assert (length (map hpr_char (resize 5 48 (symbol_of (o_instrument o) s))) = 5%nat) as Hl
    by (by rewrite length_map, length_resize).
  split_and!.
  - apply mk_token_valid; [unfold is_byte; lia|done| |unfold in_u in Hid; lia].
    apply Forall_map. eapply Forall_impl; [apply Forall_resize; [|by apply wf_symbol_of]|].
    + unfold is_byte. lia.
    + intros c Hc. unfold hpr_char, is_byte in *. repeat case_if; lia.
  - by apply token_names_order.
  - destruct (mk_token_parts m _ (o_localID o) Hl) as [-> _]. lia.
Qed.

Lemma buy_sell_roundtrip side bs : buy_sell_indicator side = Some bs → to_i01_side bs = side.
Proof. by destruct side; intros [= <-]. Qed.

(** How an exchange reads the time in force of an order: seconds, or a number that
    stands for market or system hours; an immediate order may be for a cross, or
    for all of its shares. *)
Definition entered_tif (msg : EnterOrder) : TimeInForce :=
  let seconds := htonl (eo_time_in_force msg) in
  if seconds =? 0 then
    if eo_cross_type msg =? CLOSING_CROSS then AUCTION_CLOSE
    else if eo_cross_type msg =? OPENING_CROSS then AUCTION_OPEN
    else if eo_cross_type msg =? HALT_OR_IPO_CROSS then AUCTION_HALT
    else if eo_minimum_quantity msg =? eo_shares msg then FILL_OR_KILL else IMMEDIATE_OR_CANCEL
  else if seconds =? 99998 then DAY
  else if seconds =? 99999 then EXT
  else TIMED.
(** What it is to read: an immediate order for at least all of its shares is one
    that is filled or killed. *)
Definition sent_tif (nq : NASDAQFields) o : TimeInForce :=
  if bool_decide (o_tif o = IMMEDIATE_OR_CANCEL) && (nq_min_size nq =? o_size o)
  then FILL_OR_KILL else o_tif o.
Lemma enter_order_tif token nq o s msg : enter_order token nq o s = Some msg →
  entered_tif msg = sent_tif nq o.
Proof.
  unfold enter_order. destruct (buy_sell_indicator (o_side o)) as [bs|]; [|done]. cbn [mbind option_bind].
  destruct (type_fields o) as [[display price]|]; [|done]. cbn [mbind option_bind].
  unfold entered_tif, sent_tif. destruct (o_tif o); cbn [tif_fields mbind option_bind];
    try done; intros [= <-]; cbn; by rewrite ?Z.eqb_refl.
Qed.

Lemma set_limit_range (px : D) : in_u 32 (set_limit px).
Proof. apply htonl_range. Qed.

(** An order whose numbers fit the fields of the message. *)
Definition order_fits o : Prop :=
  in_u 32 (o_localID o) /\ in_u 32 (o_size o)
  /\ ∀ nq, o_kind o = NASDAQOrder nq →
       in_u 32 (nq_min_size nq) /\ is_byte (nq_display nq) /\ is_byte (nq_capacity nq).

Lemma type_fields_range o d px : type_fields o = Some (d, px) → is_byte d /\ in_u 32 px.
Proof.
  unfold type_fields. destruct (o_type o); intros [= <- <-]; (split; [z_compute|]);
    try apply htonl_range; apply set_limit_range.
Qed.
Lemma tif_fields_range tif d raw cross d' : is_byte d → tif_fields tif d = Some (raw, cross, d') →
  in_u 32 raw /\ is_byte cross /\ is_byte d'.
Proof.
  intros Hd. destruct tif; intros [= <- <- <-]; split_and!; try done;
    unfold in_u, is_byte; cbv; lia.
Qed.

Lemma enter_order_spec token nq o s msg : session_wf s → order_fits o →
  o_kind o = NASDAQOrder nq → c_valid c_OrderToken token →
  enter_order token nq o s = Some msg →
  c_valid c_EnterOrder msg /\ eo_order_token msg = token /\ eo_shares msg = o_size o
  /\ to_i01_side (eo_buy_sell_indicator msg) = o_side o
  /\ eo_price msg = (if bool_decide (o_type o = MARKET) then set_market else set_limit (o_price o))
  /\ entered_tif msg = sent_tif nq o
  /\ eo_stock msg = strncpy_bytes 8 (resize 8 32 (symbol_of (o_instrument o) s))
  /\ eo_minimum_quantity msg = (if bool_decide (o_tif o = FILL_OR_KILL) then o_size o else nq_min_size nq)
  /\ eo_firm msg = ou_firm_identifier s /\ eo_capacity msg = nq_capacity nq.
Proof.
  intros Hw (Hid & Hsz & Hnq) Hk Htok. destruct (Hnq nq Hk) as (Hmin & Hdis & Hcap).
  intros Hm. pose proof (enter_order_tif _ _ _ _ _ Hm) as Htif'. revert Hm. unfold enter_order.
  destruct (buy_sell_indicator (o_side o)) as [bs|] eqn:Hbs; [|done]. cbn [mbind option_bind].
  destruct (type_fields o) as [[display price]|] eqn:Hty; [|done]. cbn [mbind option_bind].
  destruct (tif_fields (o_tif o) display) as [[[raw cross] d']|] eqn:Htif; [|done].
  intros Hm. injection Hm as <-. cbn [eo_order_token eo_shares eo_buy_sell_indicator eo_price eo_time_in_force
    eo_stock eo_minimum_quantity].
  destruct (type_fields_range _ _ _ Hty) as [Hd Hpx].
  destruct (tif_fields_range _ _ _ _ _ Hd Htif) as (Hraw & Hcross & Hd').
  destruct (wf_firm s Hw) as [Hf1 Hf2].
  assert (is_byte bs) as Hbs'
    by (destruct (o_side o); first [discriminate Hbs|injection Hbs as <-; z_compute]).
  split_and!; try done.
  - unfold c_EnterOrder, c_Stock, c_Firm. valid_fields; try (apply valid_byte; z_compute).
    + split; [apply length_strncpy_bytes|].
      apply Forall_strncpy, Forall_resize; [unfold is_byte; lia|by apply wf_symbol_of].
    + by split.
    + apply valid_byte. by case_match.
    + apply valid_be32. cbn [eo_minimum_quantity]. by case_bool_decide.
  - by apply buy_sell_roundtrip.
  - unfold type_fields in Hty. destruct (o_type o); try done; by injection Hty as _ <-.
Qed.
End Sent.

Section OnTheWire.
Context {D E : Type} `{Dbl D} `{Connection E}.
Implicit Types (o : Order D) (s : OUCH42Session E).

(** A packet went out in full, as the last thing the session did. *)
Definition handed (packet : list Z) (e : E) s' : Prop :=
  ∃ e', conn_send packet e = (Z.of_nat (length packet), e') /\ ou_net s' = (conn_now e').2.

Lemma send_order_data_sent buf s t s' : send_order_data buf s = (Some t, s') → handed buf (ou_net s) s'.
Proof.
  unfold send_order_data, handed. destruct (conn_send buf (ou_net s)) as [slen e] eqn:Hs.
  destruct (Z.eqb_spec (Z.of_nat (length buf)) slen) as [<-|]; [|done].
  destruct (conn_now e) as [t' e1] eqn:Hn. intros [= -> <-]. exists e. by rewrite Hn.
Qed.

(** What an exchange reads from an unsequenced packet. *)
Definition exchange_reads {A} (c : Codec A) (packet : list Z) : option A :=
  match dispatch_packet packet with
  | Some p =>
      match packet_body p with
      | ty :: body => if ty =? UNSEQUENCED_MESSAGE then Some (c_dec c body) else None
      | [] => None
      end
  | None => None
  end.

Lemma exchange_reads_unsequenced {A} (c : Codec A) `{!CodecOk c} m : c_valid c m →
  Z.of_nat (c_size c) < 65000 → exchange_reads c (unsequenced (c_enc c m)) = Some m.
Proof.
  intros Hv Hsz. unfold exchange_reads, unsequenced.
  assert (packet_ok (UNSEQUENCED_MESSAGE :: c_enc c m)) as Hp.
  { unfold packet_ok. cbn [length]. rewrite (codec_length m Hv). lia. }
  pose proof (dispatch_encoded _ [] Hp) as Hd. rewrite app_nil_r in Hd. rewrite Hd.
  unfold packet_body. cbn [pk_buf pk_len]. rewrite take_ge by (rewrite length_encode; lia).
  unfold encode_packet. rewrite drop_app_n by apply length_be_bytes.
  pose proof (codec_dec_enc m [] Hv) as He. rewrite app_nil_r in He. by rewrite He.
Qed.

(** C7: An order that [send] says was sent was taken by the connection as one
    packet, in full, on an active logged-in session, and that packet reads back as
    an EnterOrder with the order's side, size, price (or the mark of a market
    order), minimum quantity and capacity, the symbol of its instrument and the
    firm of the session, with a token that is kept as the order's client order id
    and names its local id, and with the order's time in force, by the seconds,
    the cross and the minimum quantity together ([entered_tif]: an immediate order
    whose minimum is its size is one to be filled or killed).  The numbers of the
    order fit the message's fields. *)
Theorem sent_order_reads_back (a : Z) o s s' o'
    (Hw : session_wf s) (Hfits : order_fits o) (Hsend : ouch_send a o s = (true, s', o')) :
  ou_active s = true /\ logged_in s = true
  /\ ∃ packet msg, handed packet (conn_now (ou_net s)).2 s'
     /\ exchange_reads c_EnterOrder packet = Some msg
     /\ token_id (eo_order_token msg) = o_localID o
     /\ take 14 (o_client_order_id o') = eo_order_token msg
     /\ eo_shares msg = o_size o
     /\ to_i01_side (eo_buy_sell_indicator msg) = o_side o
     /\ eo_price msg = (if bool_decide (o_type o = MARKET) then set_market else set_limit (o_price o))
     /\ eo_stock msg = strncpy_bytes 8 (resize 8 32 (symbol_of (o_instrument o) s))
     /\ eo_firm msg = ou_firm_identifier s
     /\ ∀ nq, o_kind o = NASDAQOrder nq →
          entered_tif msg = sent_tif nq o /\ eo_capacity msg = nq_capacity nq
          /\ eo_minimum_quantity msg
             = (if bool_decide (o_tif o = FILL_OR_KILL) then o_size o else nq_min_size nq).
Proof.
  unfold ouch_send in Hsend. destruct (o_kind o) as [|nq| |] eqn:Hk; try done.
  destruct (ou_active s); [|done]. destruct (logged_in s); [|done]. cbn [negb orb] in Hsend.
  split_and!; [done|done|].
  destruct (create_order_token_hpr o s) as [token|] eqn:Htok; [|done].
  destruct (created_token o s token Hw (proj1 Hfits) Htok) as (Hv & Hname & _).
  destruct (enter_order token nq (set_client_order_id o token) s) as [msg|] eqn:Hm; [|done].
  destruct (enter_order_spec token nq (set_client_order_id o token) s msg)
    as (Hmv & <- & Hrest); try done.
  destruct (conn_now (ou_net s)) as [t0 e0] eqn:Hnow.
  destruct (send_order_data _ _) as [[t|] s1] eqn:Hsd; [|done]. injection Hsend as <- <-.
  exists (unsequenced (c_enc c_EnterOrder msg)), msg.
  destruct Hrest as (R1 & R2 & R3 & R4 & R5 & R6 & R7 & R8).
  split_and!; try done; [..|by intros nq' [= <-]].
  - by apply send_order_data_sent in Hsd.
  - apply (exchange_reads_unsequenced c_EnterOrder); [done|vm_compute; reflexivity].
  - rewrite <- (take_client_order_id o (eo_order_token msg) 14) at 2; [done|by destruct Hv|].
    unfold CLIENT_ORDER_ID_LENGTH. lia.
Qed.

Lemma sent_cancel_reads_back (a : Z) o (newqty : Z) s s' o' : session_wf s →
  in_u 32 (o_localID o) → in_u 32 newqty → ouch_cancel a o newqty s = (true, s', o') →
  ∃ packet token, handed packet (ou_net s) s' /\ create_order_token_hpr o s = Some token
    /\ exchange_reads c_CancelOrder packet = Some (mkCancelOrder MSG_CANCEL_ORDER token newqty)
    /\ token_id token = o_localID o.
Proof.
  intros Hw Hid Hq. unfold ouch_cancel. destruct (o_kind o) as [|nq| |]; try done.
  case_match; [done|]. destruct (create_order_token_hpr o s) as [token|] eqn:Htok; [|done].
  destruct (created_token o s token Hw Hid Htok) as (Hv & Hname & _).
  destruct (send_order_data _ _) as [[t|] s1] eqn:Hsd; [|done]. intros [= <- <-].
  eexists _, token. split_and!; [by eapply send_order_data_sent|done| |done].
  apply (exchange_reads_unsequenced c_CancelOrder); [|vm_compute; reflexivity].
  unfold c_CancelOrder. valid_fields. apply valid_byte. z_compute.
Qed.
End OnTheWire.

(** ** Login *)

Section Login.
Context {E : Type} `{Connection E}.
Implicit Types s : OUCH42Session E.

Lemma compare_and_swap_spec oldval newval s :
  (compare_and_swap oldval newval s).1 = negb (bool_decide (ou_state s = ST_UNKNOWN))
  /\ (ou_state s ≠ oldval → (compare_and_swap oldval newval s).2 = s).
Proof.
  unfold compare_and_swap. cbn [fst snd]. split; [by destruct (ou_state s)|].
  intros Hne. by rewrite bool_decide_false.
Qed.

(** The guard on a login acceptance lets every state but [UNKNOWN] through,
    since the swap returns the state that was there and not whether it swapped:
    an acceptance that arrives in any other state than [CONNECTED] (after a
    rejection, an error or a disconnection) makes the session active while its
    state stays what it was. *)
Theorem late_login_accept_activates (msg : list Z * list Z) (n : Z) s
    (Hstate : ou_state s ≠ CONNECTED) (Hknown : ou_state s ≠ ST_UNKNOWN)
    (Hseq : parse_seqnum 0 msg.2 = Some n) :
  let s' := handle_login_accept msg s in
  ou_active s' = true /\ ou_state s' = ou_state s /\ ou_last_seqnum_received s' = u64 (n - 1).
Proof.
  unfold handle_login_accept. destruct (compare_and_swap_spec CONNECTED LOGGED_IN s) as [H1 H2].
  destruct (compare_and_swap CONNECTED LOGGED_IN s) as [b s1]. cbn [fst snd] in *.
  rewrite bool_decide_false in H1 by done. rewrite H1, (H2 Hstate). cbn [negb]. by rewrite Hseq.
Qed.

(** What a login does in the state it is meant for. *)
Lemma login_accept_logs_in (msg : list Z * list Z) (n : Z) s : ou_state s = CONNECTED →
  parse_seqnum 0 msg.2 = Some n →
  let s' := handle_login_accept msg s in
  ou_active s' = true /\ logged_in s' = true /\ ou_last_seqnum_received s' = u64 (n - 1).
Proof.
  intros Hc Hseq. unfold handle_login_accept, compare_and_swap. rewrite Hc. cbn.
  by rewrite Hseq.
Qed.
End Login.

(** ** Prices *)

(** A rational number truncates to an integer between it and zero. *)
Lemma qc_trunc_half (k : Z) : 0 <= k →
  qc_trunc (qc_of_Z k + qc_of_Z 1 / qc_of_Z 2)%Qc = k.
Proof.
  intros Hk. assert ((qc_of_Z k + qc_of_Z 1 / qc_of_Z 2)%Qc = Q2Qc (2 * k + 1 # 2)) as ->.
  { apply Qc_is_canon. unfold Qcdiv, Qcmult, Qcinv, Qcplus, qc_of_Z, Q2Qc. cbn [this].
    rewrite !Qred_correct. unfold Qeq. cbn. lia. }
  unfold qc_trunc, Q2Qc. cbn [this].
  assert (Z.ggcd (2 * k + 1) 2 = (1, (2 * k + 1, 2))) as Hg.
  { pose proof (Z.ggcd_gcd (2 * k + 1) 2) as G1. pose proof (Z.ggcd_correct_divisors (2 * k + 1) 2) as G2.
    assert (Z.gcd (2 * k + 1) 2 = 1) as G3.
    { rewrite Z.add_comm, Z.mul_comm, Z.gcd_comm, Z.gcd_add_mult_diag_r. reflexivity. }
    destruct (Z.ggcd (2 * k + 1) 2) as [g [x y]]. cbn in G1. subst g. rewrite G3 in *.
    destruct G2 as [G2 G4]. f_equal. f_equal; lia. }
  unfold Qred. rewrite Hg. cbn [snd Qnum Qden]. change (Z.pos (Z.to_pos 2)) with 2.
  rewrite Z.quot_div_nonneg by lia. symmetry. apply (Z.div_unique _ 2 k 1); lia.
Qed.

(** Limit prices survive the wire: in exact arithmetic, a price of a whole
    number of hundredths of a cent, up to the protocol's largest, is read back
    from the field it was written to.  A price above the largest reads back as
    the largest.  But the code's test for a market order never recognises the
    field that a market order is sent with. *)
Theorem price_field_roundtrip (k : Z) (Hk : 0 <= k < 2 ^ 32) :
  let price := (qc_of_Z k / qc_of_Z 10000)%Qc in
  get_limit (set_limit price) = (qc_of_Z (Z.min MAXIMUM_PRICE k) / qc_of_Z 10000)%Qc
  /\ (k <= MAXIMUM_PRICE → get_limit (set_limit price) = price)
  /\ price_is_market set_market = false.
Proof.
  cbv zeta. assert (set_limit (qc_of_Z k / qc_of_Z 10000)%Qc = htonl k) as ->.
  { unfold set_limit. f_equal. cbn [d_mul d_add d_of_Z d_to_i64 d_lit ideal]. unfold d_lit. cbn.
    rewrite Qcmult_comm, Qcmult_div_r by (by apply qc_of_Z_nonzero).
    rewrite qc_trunc_half by lia. by apply wrap_small. }
  assert (get_limit (htonl k) = (qc_of_Z (Z.min MAXIMUM_PRICE k) / qc_of_Z 10000)%Qc) as ->.
  { unfold get_limit. by rewrite htonl_twice. }
  split_and!; [done| |reflexivity]. intros Hm. by rewrite Z.min_r.
Qed.

(** ** What never changes *)

Section Unchanged.
Context {E : Type} `{Connection E}.
Implicit Types s : OUCH42Session E.

Definition same_config s s' : Prop :=
  ou_name s' = ou_name s /\ ou_mic s' = ou_mic s
  /\ ou_default_broker_locate s' = ou_default_broker_locate s
  /\ ou_firm_identifier s' = ou_firm_identifier s
  /\ ou_symbol_cache s' = ou_symbol_cache s /\ ou_symbol_inst_cache s' = ou_symbol_inst_cache s.
#[export] Instance same_config_preorder : PreOrder same_config.
Proof. unfold same_config. split; repeat intro; intuition congruence. Qed.

Lemma same_config_wf s s' : same_config s s' → session_wf s → session_wf s'.
Proof. intros (_ & _ & E1 & E2 & E3 & _) [W1 W2 W3]. split; by rewrite ?E1, ?E2, ?E3. Qed.

Lemma send_order_data_config buf s : same_config s (send_order_data buf s).2.
Proof.
  unfold send_order_data. destruct (conn_send buf (ou_net s)) as [n e].
  destruct (Z.of_nat (length buf) =? n); [|done]. by destruct (conn_now e).
Qed.
Lemma compare_and_swap_config x y s : same_config s (compare_and_swap x y s).2.
Proof. unfold compare_and_swap. cbn [snd]. by destruct (bool_decide (ou_state s = x)). Qed.
Lemma disconnect_config b s : same_config s (disconnect b s).
Proof.
  unfold disconnect. pose proof (compare_and_swap_config LOGGED_IN DISCONNECTED (s <| ou_active := false |>)) as Hc.
  destruct (compare_and_swap _ _ _) as [w s1]. exact Hc.
Qed.
Lemma connect_config b s : same_config s (connect b s).2.
Proof. unfold connect. by destruct (conn_connect _ _ _). Qed.
Lemma on_connected_config s : same_config s (on_connected s).
Proof.
  unfold on_connected. pose proof (compare_and_swap_config CONNECTING CONNECTED s) as Hc.
  destruct (compare_and_swap _ _ _) as [w s1]. destruct w; [|exact Hc].
  etransitivity; [exact Hc|apply send_order_data_config].
Qed.
Lemma login_accept_config msg s : same_config s (handle_login_accept msg s).
Proof.
  unfold handle_login_accept. pose proof (compare_and_swap_config CONNECTED LOGGED_IN s) as Hc.
  destruct (compare_and_swap _ _ _) as [w s1]. cbn [snd] in Hc. destruct w; cbn [negb]; [|exact Hc].
  destruct (parse_seqnum 0 msg.2); [exact Hc|].
  etransitivity; [exact Hc|]. etransitivity; [|apply disconnect_config]. done.
Qed.
End Unchanged.

(** ** A configured session is well formed *)

Section Configured.
Context {E : Type} `{Connection E}.
Implicit Types s : OUCH42Session E.

Lemma symbology_init_wf symbols s : Forall (λ es, Forall is_byte es.2) symbols → session_wf s →
  session_wf (symbology_init symbols s).
Proof.
  intros Hs. unfold symbology_init. revert s.
  induction Hs as [|[esi sym] symbols Hsym _ IH]; intros s Hw; cbn [foldl]; [done|].
  apply IH. destruct Hw as [W1 W2 W3]. split; [done|done|].
  intros k t. cbn. rewrite lookup_insert_Some. intros [[_ <-]|[_ Hk]]; [|by eapply W3].
  by apply cta_symbology_bytes.
Qed.

(** What the constructor checks and pads is what the messages rely on. *)
Lemma OUCH42Session_new_wf lex_int lex_u64 name cs symbols persisted (e : E) s :
  Forall (λ es, Forall is_byte es.2) symbols →
  OUCH42Session_new lex_int lex_u64 name cs symbols persisted e = Ok s → session_wf s.
Proof.
  intros Hsym. unfold OUCH42Session_new.
  intros (mic & _ & Hnew)%res_bind_Ok. apply res_bind_Ok in Hnew as (protocol & _ & Hnew).
  apply res_bind_Ok in Hnew as (? & _ & Hnew). apply res_bind_Ok in Hnew as (host & _ & Hnew).
  apply res_bind_Ok in Hnew as (port & _ & Hnew). apply res_bind_Ok in Hnew as (user & _ & Hnew).
  apply res_bind_Ok in Hnew as (password & _ & Hnew). apply res_bind_Ok in Hnew as (? & Hloc & Hnew).
  set (locate := swrap 8 _) in *. clearbody locate.
  destruct ((locate <? 0) || (3 <? locate)) eqn:Hl; [done|]. bools.
  match type of Hnew with context [symbology_init symbols ?x] => set (s0 := x) in * end.
  assert (session_wf s0) as Hw.
  { subst s0. split; cbn; [lia| |].
    - destruct (cs_get Some cs "firm_identifier"); split; try apply length_resize; try done.
      + apply Forall_resize; [unfold is_byte; lia|apply string_bytes_are_bytes].
      + repeat constructor; unfold is_byte; lia.
    - intros esi sym. by rewrite lookup_empty. }
  apply (symbology_init_wf symbols) in Hw; [|done]. revert Hnew. unfold recover_state.
  case_match; [done|]. destruct persisted as [[seqnum session]|]; [|done].
  destruct Hw as [W1 W2 W3]. case_match; intros [= <-]; by split.
Qed.
End Configured.

(** ** A session on a connection that sends everything *)

Lemma nasdaq_symbol_examples :
  nasdaq_symbol (string_bytes "ABC/U") = string_bytes "ABC="
  /\ nasdaq_symbol (string_bytes "BRK/B") = string_bytes "BRK.B"
  /\ nasdaq_symbol (string_bytes "XYZr") = string_bytes "XYZ^"
  /\ nasdaq_symbol (string_bytes "MSFT") = string_bytes "MSFT".
Proof. by split_and!. Qed.

Definition sample_settings : ConfigState := cs_create (list_to_map
  [("type", "OUCH42Session"); ("mic", "XNAS"); ("protocol", "SoupBinTCP");
   ("remote.addr", "10.0.0.1"); ("remote.port", "9000"); ("username", "user"); ("password", "pass");
   ("default_broker_locate", "2"); ("firm_identifier", "I01X")]) "".
(** The numbers of [sample_settings]. *)
Definition ouch_sample_lex (t : string) : option Z :=
  if bool_decide (t = "9000") then Some 9000 else if bool_decide (t = "2") then Some 2 else None.
Definition sample_new : res (OUCH42Session Wire) :=
  OUCH42Session_new ouch_sample_lex ouch_sample_lex "NASDAQ1" sample_settings [(1, string_bytes "MSFT")]
    (Some (0, replicate 10 0)) [].

(** Connected and logged in at sequence number 1. *)
Definition log_in (s : OUCH42Session Wire) : OUCH42Session Wire :=
  handle_login_accept (string_bytes "SESSION001", string_bytes "                   1")
    (on_connected (connect false s).2).
Definition sample_ouch : OUCH42Session Wire :=
  match sample_new with
  | Ok s => log_in s
  | Fail _ => mkOuch "" MIC_UNKNOWN false "" 0 [] [] [] [] 0 0 ERROR ts_zero ts_zero [] 0 [] ∅ ∅ []
  end.

Lemma sample_ouch_logged_in :
  ou_active sample_ouch = true /\ logged_in sample_ouch = true /\ ou_mic sample_ouch = XNAS
  /\ ou_last_seqnum_received sample_ouch = 0 /\ length (ou_net sample_ouch) = 1%nat.
Proof. vm_compute. by split_and!. Qed.

Lemma sample_ouch_wf : session_wf sample_ouch.
Proof.
  unfold sample_ouch. destruct sample_new as [s|] eqn:Hnew.
  - apply OUCH42Session_new_wf in Hnew.
    + eapply same_config_wf; [|exact Hnew]. unfold log_in.
      etransitivity; [|apply login_accept_config]. etransitivity; [|apply on_connected_config].
      apply connect_config.
    + constructor; [|constructor]. apply string_bytes_are_bytes.
  - vm_compute in Hnew. done.
Qed.

#[local] Abbreviation B := SpecFloat.spec_float.

Definition sample_buy : Order B :=
  (Order_new (mkTs 34200 0) (NASDAQOrder NASDAQOrder_default) 1 (d_lit 10025 100) 300 BUY DAY LIMIT
    None 0) <| o_localID := 7 |>.

Lemma sent_order_reads_back_witness :
  ∃ s' o', ouch_send 1 sample_buy sample_ouch = (true, s', o')
    /\ ∃ packet msg, handed packet (conn_now (ou_net sample_ouch)).2 s'
       /\ exchange_reads c_EnterOrder packet = Some msg
       /\ token_id (eo_order_token msg) = 7 /\ eo_shares msg = 300
       /\ to_i01_side (eo_buy_sell_indicator msg) = BUY
       /\ eo_stock msg = string_bytes "MSFT    ".
Proof.
  assert ((ouch_send 1 sample_buy sample_ouch).1.1 = true) as Hb by (vm_compute; reflexivity).
  destruct (ouch_send 1 sample_buy sample_ouch) as [[b s'] o'] eqn:Hs. cbn [fst] in Hb. subst b.
  exists s', o'. split; [done|].
  destruct (sent_order_reads_back 1 sample_buy sample_ouch s' o' sample_ouch_wf) as
    (_ & _ & packet & msg & Hh & Hr & Ht & _ & Hsh & Hside & _ & Hst & _); [|exact Hs|].
  - split_and!; [z_compute|z_compute|]. intros nq [= <-]. split_and!; z_compute.
  - exists packet, msg. split_and!; try done.
Defined.

Lemma late_login_accept_activates_witness :
  let s := on_peer_disconnect sample_ouch in
  ou_state s = DISCONNECTED
  /\ let s' := handle_login_accept (string_bytes "SESSION001", string_bytes "                  12") s in
     ou_active s' = true /\ ou_state s' = DISCONNECTED /\ ou_last_seqnum_received s' = 11.
Proof.
  cbv zeta. split; [reflexivity|].
  apply (late_login_accept_activates
    (string_bytes "SESSION001", string_bytes "                  12") 12 (on_peer_disconnect sample_ouch));
    [discriminate|discriminate|reflexivity].
Defined.

Lemma price_field_roundtrip_witness :
  get_limit (set_limit (qc_of_Z 1002500 / qc_of_Z 10000)%Qc) = (qc_of_Z 1002500 / qc_of_Z 10000)%Qc
  /\ price_is_market set_market = false.
Proof.
  destruct (price_field_roundtrip 1002500 ltac:(lia)) as (_ & H & Hm).
  split; [apply H; vm_compute; discriminate|exact Hm].
Defined.
