(* ===== verification/SimSession.v ===== *)
(** * The simulated exchange session (src/oe/L2SimSession.cpp,
      src/oe/i01_oe/L2SimSession.hpp): state, [send] and [cancel]

    [L2SimSession] plays the exchange against recorded market data.  Its calls
    only queue events for later; the handlers that serve them are in
    SimMatching.v.  Orders are known by address; prices key [std::map]s of
    resting orders, best first. *)

From S2P Require Import Prelude Dbl StdMap Time Types Order L2Book Session.

(** ** Data *)

Record SimEvent (D : Type) := mkSimEvent {
  se_state : OrderState;
  se_order : Z;
  se_esi : Z;
  se_size : Z;
  se_price : D;
  se_ts : Timestamp
}.
Arguments mkSimEvent {D}.
Arguments se_state {D} _.
Arguments se_order {D} _.
Arguments se_esi {D} _.
Arguments se_size {D} _.
Arguments se_price {D} _.
Arguments se_ts {D} _.

(** [SimEvent::Ordering]: by time, then by index. *)
Record Ordering := mkOrdering { ord_ts : Timestamp; ord_index : Z }.
Definition at_time (ts : Timestamp) : Ordering := mkOrdering ts 0.

(** [TSECompare]: [a] is served after [b]. *)
Definition served_after (a b : Ordering) : bool :=
  if ts_gtb (ord_ts a) (ord_ts b) then true
  else if ts_eqb (ord_ts a) (ord_ts b) then ord_index b <? ord_index a
  else false.

Record SimOrder := mkSimOrder {
  so_order : Z;
  so_size_ahead : Z;
  so_size_behind : Z;
  so_remains : Z
}.
#[export] Instance SimOrder_rebuild : Rebuild SimOrder := λ r,
  mkSimOrder (so_order r) (so_size_ahead r) (so_size_behind r) (so_remains r).

(** The values of [MD::SymbolState] that the session looks at. *)
Inductive TradingState := TS_UNKNOWN | TRADING | QUOTATION_ONLY | HALTED.
Inductive MarketSession := MS_UNKNOWN | PREMARKET | MARKET_HOURS | POSTMARKET.
Record SymbolState := mkSymbolState { ss_trading_state : TradingState; ss_session : MarketSession }.

(** [be_book] is [book_p]: which book, or null. *)
Record BookEntry (D : Type) := mkBookEntry {
  be_book : option Z;
  be_bids : list (D * SimOrder);
  be_close_bids : list (D * SimOrder);
  be_open_bids : list (D * SimOrder);
  be_asks : list (D * SimOrder);
  be_close_asks : list (D * SimOrder);
  be_open_asks : list (D * SimOrder);
  be_trades : gset Z;
  be_state : SymbolState
}.
Arguments mkBookEntry {D}.
Arguments be_book {D} _.
Arguments be_bids {D} _.
Arguments be_close_bids {D} _.
Arguments be_open_bids {D} _.
Arguments be_asks {D} _.
Arguments be_close_asks {D} _.
Arguments be_open_asks {D} _.
Arguments be_trades {D} _.
Arguments be_state {D} _.
#[export] Instance BookEntry_rebuild {D} : Rebuild (BookEntry D) := λ r,
  mkBookEntry (be_book r) (be_bids r) (be_close_bids r) (be_open_bids r) (be_asks r)
    (be_close_asks r) (be_open_asks r) (be_trades r) (be_state r).
Definition BookEntry_new {D} (p : option Z) : BookEntry D :=
  mkBookEntry p [] [] [] [] [] [] ∅ (mkSymbolState TS_UNKNOWN MS_UNKNOWN).

(** The last imbalance message of a symbol. *)
Inductive ImbalanceDirection := BUY_IMBALANCE | SELL_IMBALANCE | NO_IMBALANCE | INSUFFICIENT_ORDERS.
Record NOIIEntry := mkNOII {
  noii_timestamp : Timestamp;
  noii_direction : ImbalanceDirection;
  noii_shares : Z;
  noii_valid : bool
}.
Definition NOIIEntry_new : NOIIEntry := mkNOII ts_zero NO_IMBALANCE 0 false.
Definition noii_update (ts : Timestamp) (dir : ImbalanceDirection) (shares : Z) : NOIIEntry :=
  mkNOII ts dir shares true.
Definition direction (n : NOIIEntry) : ImbalanceDirection :=
  if noii_valid n then noii_direction n else NO_IMBALANCE.
Definition imbalance_shares (n : NOIIEntry) : Z :=
  if noii_valid n then u32 (noii_shares n) else 0.

(** [sim_symbol] is [instrument()->symbol()]. *)
Record L2SimSession (D : Type) := mkSim {
  sim_mic : MIC;
  sim_active : bool;
  sim_ack_latency : Timestamp;
  sim_cxl_latency : Timestamp;
  sim_ts : Timestamp;
  sim_eventq : list (Ordering * SimEvent D);
  sim_orders : gmap Z Z;
  sim_books : list (BookEntry D);
  sim_index_map : gmap string Z;
  sim_exec_this_pkt : gmap Z Z;
  sim_ignore_trading_state : bool;
  sim_last_noii : gmap Z NOIIEntry;
  sim_symbol : gmap Z string
}.
Arguments mkSim {D}.
Arguments sim_mic {D} _.
Arguments sim_active {D} _.
Arguments sim_ack_latency {D} _.
Arguments sim_cxl_latency {D} _.
Arguments sim_ts {D} _.
Arguments sim_eventq {D} _.
Arguments sim_orders {D} _.
Arguments sim_books {D} _.
Arguments sim_index_map {D} _.
Arguments sim_exec_this_pkt {D} _.
Arguments sim_ignore_trading_state {D} _.
Arguments sim_last_noii {D} _.
Arguments sim_symbol {D} _.
#[export] Instance L2SimSession_rebuild {D} : Rebuild (L2SimSession D) := λ r,
  mkSim (sim_mic r) (sim_active r) (sim_ack_latency r) (sim_cxl_latency r) (sim_ts r)
    (sim_eventq r) (sim_orders r) (sim_books r) (sim_index_map r) (sim_exec_this_pkt r)
    (sim_ignore_trading_state r) (sim_last_noii r) (sim_symbol r).

Section Sim.
Context {D : Type} `{Dbl D}.
Implicit Types (s : L2SimSession D) (o : Order D).

(** The constructor: latencies from the configuration, in nanoseconds, 200
    microseconds when there is none and the same for cancels. *)
Definition L2SimSession_new (mic : MIC) (symbols : gmap Z string)
    (ack_latency_ns cxl_latency_ns : option Z) : L2SimSession D :=
  let ack := mkTs 0 (default (200 * 1000) ack_latency_ns) in
  let cxl := match cxl_latency_ns with Some n => mkTs 0 n | None => ack end in
  mkSim mic true ack cxl ts_zero [] ∅ [] ∅ ∅ true ∅ symbols.

(** [SimEvent(os, op, idx, fs, fp, t)] *)
Definition sim_event (os : OrderState) (op idx fs : Z) (fp : D) (t : Timestamp) : SimEvent D :=
  mkSimEvent os op idx fs fp t.
Definition emplace_event (k : Ordering) (e : SimEvent D) s : L2SimSession D :=
  s <| sim_eventq := sim_eventq s ++ [(k, e)] |>.

(** [m_index_map.find(o_p->instrument()->symbol())] *)
Definition symbol_index_of o s : option Z :=
  sym ← sim_symbol s !! o_instrument o; sim_index_map s !! sym.

Definition type_supported (t : OrderType) : bool :=
  match t with MARKET | LIMIT => true | _ => false end.
Definition tif_supported (t : TimeInForce) : bool :=
  match t with
  | DAY | EXT | IMMEDIATE_OR_CANCEL | AUCTION_OPEN | AUCTION_CLOSE => true
  | _ => false
  end.

Definition sim_send (a : Z) o s : bool * L2SimSession D * Order D :=
  if ts_eqb (sim_ts s) ts_zero then (false, s, o)
  else if negb (type_supported (o_type o)) then (false, s, o)
  else if negb (tif_supported (o_tif o)) then (false, s, o)
  else match symbol_index_of o s with
  | None => (false, s, o)
  | Some idx =>
      let ts := ts_plus (sim_ts s) (sim_ack_latency s) in
      (true, emplace_event (at_time ts) (sim_event SENT a idx 0 d0 ts_zero) s,
       o <| o_sent_time := sim_ts s |>)
  end.

Definition sim_cancel (a : Z) o (newqty : Z) s : bool * L2SimSession D * Order D :=
  let ts := ts_plus (sim_ts s) (sim_cxl_latency s) in
  match symbol_index_of o s with
  | None => (false, s, o)
  | Some idx =>
      if o_size o <=? newqty then (false, s, o)
      else
        (true, emplace_event (at_time ts) (sim_event PENDING_CANCEL a idx newqty d0 ts_zero) s,
         o <| o_last_request_time := sim_ts s |>)
  end.
End Sim.

(** What the base class answers: orders are not destroyed through the session,
    cancelling all is not supported, no order is recreated in a replay. *)
#[export] Instance L2SimSession_session {D} `{Dbl D} : OrderSession D (L2SimSession D) := {|
  ss_market := sim_mic;
  ss_active := sim_active;
  ss_connect := λ _ s, (true, s);
  ss_disconnect := λ _ s, s <| sim_active := false |>;
  ss_send := sim_send;
  ss_cancel := sim_cancel;
  ss_destroy := λ _ _ s, (false, s);
  ss_cancel_all := λ s, (-1, s);
  ss_create_replay_order := λ _ _ _ _ _ _ _ _ _ _ _ s, (None, s)
|}.

#[export] Instance L2SimSession_laws {D} `{Dbl D} : OrderSessionLaws D (L2SimSession D).
Proof.
  split; cbn; unfold sim_send, sim_cancel; [intros *|intros *|by intros _ _ s b s' [= _ <-]|by intros _ s b s' [= _ <-]|done|by intros s b s' [= _ <-]];
    repeat case_match; intros [= _ <- <-]; (split; [|done]); by destruct o.
Qed.
