(* ===== verification/OrderManager.v ===== *)
(** * The order manager (src/oe/i01_oe/OrderManager.hpp, src/oe/OrderManager.cpp)

    The state machine of orders.  Orders live in a heap by address; [m_orders]
    is the vector of pointers indexed by local id; instruments are found by
    symbol index and sessions by name.  The blotter is the list of messages
    written, and the calls made to order listeners are recorded in order.  Each
    operation is one critical section. *)

From stdpp Require Import sorting.
From S2P Require Import Prelude Dbl Time Types Order Position Config Instrument FirmRisk.
From S2P Require Import OrderLog Blotter Session.

(** A callback to an order listener. *)
Inductive ListenerEvent (D : Type) :=
| on_order_acknowledged (l order : Z)
| on_order_rejected (l order : Z)
| on_order_fill_event (l order size : Z) (price fee : D)
| on_order_cancel_rejected (l order : Z)
| on_order_cancel (l order size : Z).
Arguments on_order_acknowledged {D}.
Arguments on_order_rejected {D}.
Arguments on_order_fill_event {D}.
Arguments on_order_cancel_rejected {D}.
Arguments on_order_cancel {D}.

Record OrderManager (D S : Type) := mkOM {
  om_localID : Z;
  om_firm_risk : FirmRisk D;
  om_orders : list (option Z);
  om_sessions : gmap string S;
  om_default_listener : option Z;
  om_universe : gmap Z (EquityInstrument D);
  om_last_sale : gmap Z D;
  om_heap : gmap Z (Order D);
  om_blotter : list (Message D);
  om_notified : list (ListenerEvent D)
}.
Arguments mkOM {D S}.
Arguments om_localID {D S} _.
Arguments om_firm_risk {D S} _.
Arguments om_orders {D S} _.
Arguments om_sessions {D S} _.
Arguments om_default_listener {D S} _.
Arguments om_universe {D S} _.
Arguments om_last_sale {D S} _.
Arguments om_heap {D S} _.
Arguments om_blotter {D S} _.
Arguments om_notified {D S} _.

#[export] Instance OrderManager_rebuild {D S} : Rebuild (OrderManager D S) := λ r,
  mkOM (om_localID r) (om_firm_risk r) (om_orders r) (om_sessions r)
    (om_default_listener r) (om_universe r) (om_last_sale r) (om_heap r) (om_blotter r)
    (om_notified r).

Section OrderManager.
Context {D S : Type} `{Dbl D} `{OrderSession D S}.
Implicit Types (om : OrderManager D S) (o : Order D).

(** ** Access to the store *)

Definition get_order (a : Z) om : res (Order D) :=
  match om_heap om !! a with
  | Some o => Ok o
  | None => Fail (UndefinedBehaviour "dangling order pointer")
  end.
Definition put_order (a : Z) o om : OrderManager D S := om <| om_heap := <[a := o]> (om_heap om) |>.
Definition get_inst (esi : Z) om : res (EquityInstrument D) :=
  match om_universe om !! esi with
  | Some i => Ok i
  | None => Fail (UndefinedBehaviour "null instrument")
  end.
Definition put_inst (i : EquityInstrument D) (esi : Z) om : OrderManager D S :=
  om <| om_universe := <[esi := i]> (om_universe om) |>.
Definition get_session_ref (name : string) om : res S :=
  match om_sessions om !! name with
  | Some s => Ok s
  | None => Fail (UndefinedBehaviour "null session")
  end.
Definition put_session (name : string) (s : S) om : OrderManager D S :=
  om <| om_sessions := <[name := s]> (om_sessions om) |>.
Definition blot (m : Message D) om : OrderManager D S :=
  om <| om_blotter := om_blotter om ++ [m] |>.
(** Calls the order's listener, or the default one, or nobody.  Listeners are passive:
    what they are told is recorded, and they do not call back (a strategy's that does,
    such as SimTestStrategy::on_order_cancel, which sends a new order, is not
    modelled: what it does then comes as a step of its own). *)
Definition notify (ev : Z → ListenerEvent D) o om : OrderManager D S :=
  match listener_or_default o (om_default_listener om) with
  | Some l => om <| om_notified := om_notified om ++ [ev l] |>
  | None => om
  end.

(** A firm risk event on the position of an instrument. *)
Definition firm_event (esi : Z)
    (g : FirmRisk D → Position D → res (FirmRisk D * Position D)) om : res (OrderManager D S) :=
  i ← get_inst esi om;
  '(f, p) ← g (om_firm_risk om) (i_position i);
  Ok ((put_inst (i <| i_position := p |>) esi om) <| om_firm_risk := f |>).
Definition order_adds o (n : Z) om : res (OrderManager D S) :=
  firm_event (o_instrument o) (λ f p, Ok (on_order_adds o n f p)) om.
Definition order_removes o (n : Z) om : res (OrderManager D S) :=
  firm_event (o_instrument o) (on_order_removes o n) om.

Definition OrderManager_new : OrderManager D S :=
  mkOM 0 FirmRisk_new [None] ∅ None ∅ ∅ ∅ [] [].

(** [create_order]: the new object, at an unused address. *)
Definition create_order (o : Order D) om : Z * OrderManager D S :=
  let a := fresh (dom (om_heap om)) in (a, put_order a o om).

(** ** Sending *)

(** The common tail of a local rejection. *)
Definition reject_locally (a : Z) om : res (bool * OrderManager D S) :=
  o ← get_order a om;
  let o := o <| o_state := LOCALLY_REJECTED |> in
  Ok (false, blot (log_local_reject o) (put_order a o om)).

(** The four risk checks in order, each only when those before it passed. *)
Definition risk_checks (a : Z) om : res (bool * OrderManager D S) :=
  o ← get_order a om;
  i ← get_inst (o_instrument o) om;
  let '(ok, f) := firm_new_order o i (om_firm_risk om) in
  let om := om <| om_firm_risk := f |> in
  if ok && portfolio_new_order o && session_new_order o then
    let '(ok, i, o') := inst_validate o i in
    Ok (ok, put_order a o' (put_inst i (o_instrument o) om))
  else Ok (false, om).

(** The order has passed: expose it, and hand it to the session. *)
Definition send_to_session (a : Z) (session : string) om : res (bool * OrderManager D S) :=
  o ← get_order a om;
  let o := o <| o_session := Some session |> in
  om ← order_adds o (o_size o) om;
  s ← get_session_ref session om;
  let '(sent, s, o) := ss_send a o s in
  let om := put_session session s om in
  if sent then
    let o := o <| o_state := SENT |> in
    Ok (true, blot (log_order_sent o) (put_order a o om))
  else
    om ← order_removes o (o_size o) (put_order a o om);
    Ok (false, om).

Definition send (order_p : option Z) (session_p : option string) om
    : res (bool * OrderManager D S) :=
  match order_p, session_p with
  | Some a, Some session =>
      o ← get_order a om;
      s ← get_session_ref session om;
      _ ← assert "order_p->market() == session_p->market()"
            (bool_decide (o_market o = ss_market s));
      let id := u32 (om_localID om + 1) in
      let o := o <| o_localID := id |> in
      let om := (put_order a o om) <| om_localID := id |>
                  <| om_orders := om_orders om ++ [Some a] |> in
      _ ← assert "m_localID == m_orders.size() - 1"
            (id =? Z.of_nat (length (om_orders om)) - 1);
      if validate_base o && o_validate o then
        '(ok, om) ← risk_checks a om;
        if ok : bool then
          '(sent, om) ← send_to_session a session om;
          if sent : bool then Ok (true, om) else reject_locally a om
        else reject_locally a om
      else reject_locally a om
  | _, _ => Ok (false, om)
  end.

(** ** Cancelling and destroying *)

Definition cancel (order_p : option Z) (newqty : Z) om : res (bool * OrderManager D S) :=
  match order_p with
  | None => Ok (false, om)
  | Some a =>
      o ← get_order a om;
      match o_session o with
      | None => Ok (false, om)
      | Some session =>
          if is_terminal o then Ok (false, om)
          else if bool_decide (o_state o = PENDING_CANCEL) && (o_pendingcancel_newqty o <=? newqty)
          then Ok (false, om)
          else
            s ← get_session_ref session om;
            let '(ok, s, o) := ss_cancel a o newqty s in
            let om := put_session session s om in
            if ok : bool then
              let o := o <| o_pendingcancel_newqty := newqty |> <| o_state := PENDING_CANCEL |> in
              m ← log_pending_cancel o newqty;
              Ok (true, blot m (put_order a o om))
            else Ok (false, put_order a o om)
      end
  end.

(** [m_orders[id] = p]; an index outside the vector is undefined. *)
Definition set_slot (id : Z) (p : option Z) om : res (OrderManager D S) :=
  if (0 <=? id) && (id <? Z.of_nat (length (om_orders om)))
  then Ok (om <| om_orders := <[Z.to_nat id := p]> (om_orders om) |>)
  else Fail (UndefinedBehaviour "m_orders index out of range").
(** [m_orders[id]] *)
Definition get_slot (id : Z) om : res (option Z) :=
  if 0 <=? id then
    match om_orders om !! Z.to_nat id with
    | Some p => Ok p
    | None => Fail (UndefinedBehaviour "m_orders index out of range")
    end
  else Fail (UndefinedBehaviour "m_orders index out of range").

Definition delete_order (a : Z) om : OrderManager D S :=
  om <| om_heap := delete a (om_heap om) |>.

Definition destroy (order_p : option Z) (only_if_terminal : bool) om
    : res (bool * OrderManager D S) :=
  match order_p with
  | None => Ok (false, om)
  | Some a =>
      o ← get_order a om;
      let exterminate om := Ok (true, delete_order a (blot (log_destroy o) om)) in
      let forget om := om ← set_slot (o_localID o) None om; exterminate om in
      if only_if_terminal && negb (is_terminal o) then Ok (false, om)
      else if o_localID o =? 0 then exterminate om
      else match o_session o with
      | None => forget om
      | Some session =>
          s ← get_session_ref session om;
          let '(ok, s) := ss_destroy a o s in
          let om := put_session session s om in
          if ok : bool then forget om else Ok (false, om)
      end
  end.

(** ** Responses from the exchange *)

Definition order_update_on_ack (exchangeID size : Z) (timestamp : Timestamp)
    (exchange_timestamp : Z) o : Order D :=
  o <| o_exchangeID := exchangeID |>
    <| o_open_size := size |>
    <| o_state := ACKNOWLEDGED |>
    <| o_last_response_time := timestamp |>
    <| o_last_exchange_time := exchange_timestamp |>.

Definition order_update_on_reject (timestamp : Timestamp) (exchange_timestamp : Z) o : Order D :=
  o <| o_open_size := 0 |>
    <| o_state := REMOTELY_REJECTED |>
    <| o_last_response_time := timestamp |>
    <| o_last_exchange_time := exchange_timestamp |>.

Definition order_update_on_fill (fillSize : Z) (fillPrice : D) (timestamp : Timestamp)
    (exchange_timestamp fee_code : Z) o : Order D :=
  let state := if u32 (fillSize + o_filled_size o) =? o_size o then FILLED else PARTIALLY_FILLED in
  o <| o_state := state |>
    <| o_filled_size := u32 (o_filled_size o + fillSize) |>
    <| o_open_size := u32 (o_open_size o - fillSize) |>
    <| o_total_value_paid := (o_total_value_paid o + fillPrice * d_of_Z fillSize)%dbl |>
    <| o_last_response_time := timestamp |>
    <| o_last_exchange_time := exchange_timestamp |>
    <| o_last_fill_fee_code := fee_code |>.

Definition order_update_on_cancel (cancelSize : Z) (timestamp : Timestamp)
    (exchange_timestamp : Z) o : Order D :=
  let o :=
    if o_open_size o <=? cancelSize then
      o <| o_state := CANCELLED |>
        <| o_cancelled_size := u32 (o_cancelled_size o + cancelSize) |>
        <| o_open_size := 0 |>
    else
      o <| o_state := PARTIALLY_CANCELLED |>
        <| o_cancelled_size := u32 (o_cancelled_size o + cancelSize) |>
        <| o_open_size := u32 (o_open_size o - cancelSize) |> in
  o <| o_last_response_time := timestamp |>
    <| o_last_exchange_time := exchange_timestamp |>.

(** [TradingFees::fee_from_fill] *)
Definition fee_from_fill o (size : Z) (price : D) : D := d0.

Definition on_acknowledged (order_p : option Z) (exchangeID size : Z) (ts : Timestamp)
    (exchange_ts : Z) om : res (OrderManager D S) :=
  match order_p with
  | None => Ok om
  | Some a =>
      o ← get_order a om;
      let o := order_update_on_ack exchangeID size ts exchange_ts o in
      m ← log_acknowledged o;
      Ok (notify (λ l, on_order_acknowledged l a) o (blot m (put_order a o om)))
  end.

Definition on_rejected (order_p : option Z) (ts : Timestamp) (exchange_ts : Z) om
    : res (OrderManager D S) :=
  match order_p with
  | None => Ok om
  | Some a =>
      o ← get_order a om;
      let o := order_update_on_reject ts exchange_ts o in
      om ← order_removes o (o_size o) (put_order a o om);
      m ← log_rejected o;
      Ok (notify (λ l, on_order_rejected l a) o (blot m om))
  end.

(** The locates that buying back a short position returns. *)
Definition recycle_locates_on_fill o (fillSize : Z) om : res (OrderManager D S) :=
  i ← get_inst (o_instrument o) om;
  let pos := i_position i in
  let held := i64 (quantity pos + remote_quantity pos) in
  if is_buy (o_side o) && (held <? 0) && negb (p_norecycle pos)
     && negb (p_locates_remaining pos =? LOCATES_REMAINING_SENTINEL)
  then
    let lsz := Z.min fillSize (i64 (- held)) in
    Ok (put_inst (i <| i_position := pos
          <| p_locates_remaining := i64 (p_locates_remaining pos + lsz) |>
          <| p_locates_used := i64 (p_locates_used pos - lsz) |> |>) (o_instrument o) om)
  else Ok om.

Definition on_fill (order_p : option Z) (fillSize : Z) (fillPrice : D) (ts : Timestamp)
    (exchange_ts fee_code : Z) om : res (OrderManager D S) :=
  match order_p with
  | None => Ok om
  | Some a =>
      o ← get_order a om;
      let o := order_update_on_fill fillSize fillPrice ts exchange_ts fee_code o in
      let fee := fee_from_fill o fillSize fillPrice in
      om ← recycle_locates_on_fill o fillSize (put_order a o om);
      om ← firm_event (o_instrument o) (on_order_fill o fillSize fillPrice fee) om;
      m ← log_filled o fillSize fillPrice fee_code;
      Ok (notify (λ l, on_order_fill_event l a fillSize fillPrice fee) o (blot m om))
  end.

Definition on_cancel_rejected (order_p : option Z) (ts : Timestamp) (exchange_ts : Z) om
    : res (OrderManager D S) :=
  match order_p with
  | None => Ok om
  | Some a =>
      o ← get_order a om;
      let o := o <| o_state := CANCEL_REJECTED |>
                 <| o_pendingcancel_newqty := u32_max |>
                 <| o_last_response_time := ts |>
                 <| o_last_exchange_time := exchange_ts |> in
      m ← log_cancel_rejected o;
      Ok (notify (λ l, on_order_cancel_rejected l a) o (blot m (put_order a o om)))
  end.

(** The locates that cancelling a sell returns while the position is short. *)
Definition return_locates_on_cancel o (cancelSize : Z) om : res (OrderManager D S) :=
  i ← get_inst (o_instrument o) om;
  let pos := i_position i in
  if (i64 (quantity pos + remote_quantity pos) <? 0) && is_sell_side (o_side o)
     && negb (p_locates_remaining pos =? LOCATES_REMAINING_SENTINEL)
  then
    Ok (put_inst (i <| i_position := pos
          <| p_locates_remaining := i64 (p_locates_remaining pos + cancelSize) |>
          <| p_locates_used := i64 (p_locates_used pos - cancelSize) |> |>) (o_instrument o) om)
  else Ok om.

Definition on_cancel (order_p : option Z) (cancelSize : Z) (ts : Timestamp) (exchange_ts : Z) om
    : res (OrderManager D S) :=
  match order_p with
  | None => Ok om
  | Some a =>
      o ← get_order a om;
      let o := order_update_on_cancel cancelSize ts exchange_ts o in
      om ← return_locates_on_cancel o cancelSize (put_order a o om);
      om ← order_removes o cancelSize om;
      m ← log_cancelled o cancelSize;
      Ok (notify (λ l, on_order_cancel l a cancelSize) o (blot m om))
  end.

(** [on_position_update]: only logged. *)
Definition on_position_update (now : Timestamp) (source esi qty : Z) (avg_px mark_px : D) om
    : res (OrderManager D S) :=
  i ← get_inst esi om;
  if source =? 0 then Ok om
  else Ok (blot (log_position now source (i_esi i) (i_listing_market i) (i_symbol i)
                   qty avg_px mark_px) om).

(** ** Sessions *)

(** [factory] is [OrderSession::factory]. *)
Definition add_session (factory : string → string → option S) (now : Timestamp)
    (session_name session_type : string) om : option S * bool * OrderManager D S :=
  if bool_decide (session_name = "") || bool_decide (session_type = "")
     || (8 <? String.length session_name)%nat
  then (None, false, om)
  else match om_sessions om !! session_name with
  | Some s => (Some s, false, om)
  | None =>
      match factory session_name session_type with
      | Some s => (Some s, true,
          blot (log_add_session now session_name (ss_market s)) (put_session session_name s om))
      | None => (None, false, om)
      end
  end.

Definition get_session (session_name : string) om : option S := om_sessions om !! session_name.
(** The order of the map. *)
Definition by_name (a b : string * S) : Prop := String.leb a.1 b.1 = true.
#[export] Instance by_name_dec : RelDecision by_name.
Proof. unfold RelDecision, by_name. intros a b. apply _. Defined.
Definition get_sessions (m : MIC) om : list (string * S) :=
  filter (λ ns, m = MIC_UNKNOWN ∨ m = ss_market ns.2)
    (merge_sort by_name (map_to_list (om_sessions om))).

(** ** Cancelling many *)

Definition cancel_one (pred : Order D → bool) (st : Z * OrderManager D S) (p : option Z)
    : res (Z * OrderManager D S) :=
  let '(count, om) := st in
  match p with
  | None => Ok (count, om)
  | Some a =>
      o ← get_order a om;
      if negb (is_terminal o) && pred o then
        '(ok, om) ← cancel (Some a) 0 om;
        Ok (if ok : bool then (count + 1, om) else (count, om))
      else Ok (count, om)
  end.
Definition find_and_cancel (pred : Order D → bool) om : res (Z * OrderManager D S) :=
  foldM (cancel_one pred) (0, om) (om_orders om).

Definition cancel_all om := find_and_cancel (λ _, true) om.
Definition cancel_all_local_account (la : Z) om :=
  find_and_cancel (λ o, la =? o_local_account o) om.
Definition cancel_all_session (osp : option string) om : res (Z * OrderManager D S) :=
  match osp with
  | None => Ok (0, om)
  | Some name =>
      s ← get_session_ref name om;
      let '(cxled, s) := ss_cancel_all s in
      let om := put_session name s om in
      if 0 <=? cxled then Ok (cxled, om)
      else find_and_cancel (λ o, bool_decide (o_session o = Some name)) om
  end.
Definition cancel_all_listener (olp : option Z) om :=
  find_and_cancel (λ o, bool_decide (olp = o_listener o)) om.

(** ** Market data, reports and operator actions *)

Definition on_last_sale_change (esi : Z) (price : D) om : res (OrderManager D S) :=
  let om := om <| om_last_sale := <[esi := price]> (om_last_sale om) |> in
  match om_universe om !! esi with
  | Some _ => firm_event esi (λ f p, Ok (firm_on_last_sale_change price f p)) om
  | None => Ok om
  end.

Definition unsafe_order_filter (f : Order D → bool) om : res (list Z) :=
  foldM (λ acc p,
    match p with
    | None => Ok acc
    | Some a => o ← get_order a om; Ok (if f o then acc ++ [a] else acc)
    end) [] (om_orders om).
Definition open_orders om := unsafe_order_filter (λ o, negb (is_terminal o)) om.
Definition all_orders om := unsafe_order_filter (λ _, true) om.

Definition get_order_unsafe (id : Z) om : option Z :=
  if (id <? Z.of_nat (length (om_orders om))) && (0 <? id)
  then default None (om_orders om !! Z.to_nat id) else None.

(** [OrderSession::get_order]: only the session's own orders. *)
Definition session_get_order (name : string) (id : Z) om : res (option Z) :=
  match get_order_unsafe id om with
  | None => Ok None
  | Some a =>
      o ← get_order a om;
      Ok (if bool_decide (o_session o = Some name) then Some a else None)
  end.

Definition manual_position_adj (esi delta_start_qty delta_trading_qty : Z) om : OrderManager D S :=
  if esi =? 0 then om
  else match om_universe om !! esi with
  | None => om
  | Some i =>
      let pos := i_position i in
      put_inst (i <| i_position := pos
          <| p_start_quantity := i64 (p_start_quantity pos + delta_start_qty) |>
          <| p_trading_quantity := i64 (p_trading_quantity pos + delta_trading_qty) |> |>) esi om
  end.

Definition enable_stock (esi : Z) om : OrderManager D S :=
  om <| om_firm_risk := user_enable_inst esi (om_firm_risk om) |>.
Definition disable_stock (esi : Z) om : OrderManager D S :=
  om <| om_firm_risk := user_disable_inst esi (om_firm_risk om) |>.
Definition enable_all_trading om : OrderManager D S :=
  om <| om_firm_risk := user_enable (om_firm_risk om) |>.
Definition disable_all_trading om : OrderManager D S :=
  om <| om_firm_risk := user_disable (om_firm_risk om) |>.
Definition get_firm_risk_status om : Status := status (om_firm_risk om).

(** [load_and_update_locates], after the file has been loaded: [cfg] is the
    "oe.universe.eqinst." domain and [cta_symbol] the name of an instrument. *)
Definition load_and_update_locates (lex_i64 : string → option Z) (cta_symbol : Z → string)
    (cfg : ConfigState) om : OrderManager D S :=
  om <| om_universe :=
    map_imap (λ esi i,
      Some (update_locates_live
        (cs_get_or_default lex_i64 cfg (cta_symbol esi +:+ ".locate_size")
           LOCATES_REMAINING_SENTINEL) true i)) (om_universe om) |>.
Definition on_timer (ts : Timestamp) (lex_i64 : string → option Z) (cta_symbol : Z → string)
    (cfg : ConfigState) om : OrderManager D S :=
  if seconds_since_midnight ts mod 300 =? 0
  then load_and_update_locates lex_i64 cta_symbol cfg om else om.
End OrderManager.

(** Zero is no order's id. *)
Lemma session_get_order_nonzero {D S} `{Dbl D} `{!OrderSession D S} name id a
    (om : OrderManager D S) : session_get_order name id om = Ok (Some a) → id ≠ 0.
Proof.
  unfold session_get_order, get_order_unsafe. intros Hg ->.
  by rewrite andb_comm in Hg.
Qed.

(** Opens an operation on the order at an address. *)
Ltac open_op op Ha :=
  unfold op, get_order; rewrite Ha; unfold mbind, res_bind.
