(* ===== verification/Manual.v ===== *)
(** * The operator's strategy (src/ts/ManualStrategy.cpp)

    An interpreter of typed commands over the order manager.  A command may throw;
    [process_string] catches that and goes on with what the command did until
    then, so a command takes a state to a state and an outcome.  What it prints is
    a list of [Report]s.  The objects are named as the order manager names them:
    instruments by symbol index, sessions by name, orders by address. *)

From Stdlib Require Import Ascii.
From stdpp Require Import sorting.
From S2P Require Import Prelude StdMap Dbl Time Types Order Position Config Instrument FirmRisk.
From S2P Require Import OrderLog Blotter Session OrderManager Boe20Attr.
Open Scope Z_scope.

(** What the strategy is given: the tokens of a text for these separators, the
    casts of boost, the clock, the names of instruments, the configuration, what
    loading a file of locates leaves configured, and the best quote of a book. *)
Record Env (D Q : Type) := mkEnv {
  env_tokens : list Ascii.ascii → string → list string;
  env_u16 : string → option Z;
  env_u32 : string → option Z;
  env_i64 : string → option Z;
  env_price : string → option D;
  env_now : Timestamp;
  env_cta_symbol : Z → string;
  env_config : ConfigState;
  env_locates : string → Outcome (option ConfigState);
  env_best : MIC → Z → option Q;
  (** the strategy as a listener *)
  env_self : Z
}.
Arguments env_tokens {D Q}.
Arguments env_u16 {D Q}.
Arguments env_u32 {D Q}.
Arguments env_i64 {D Q}.
Arguments env_price {D Q}.
Arguments env_now {D Q}.
Arguments env_cta_symbol {D Q}.
Arguments env_config {D Q}.
Arguments env_locates {D Q}.
Arguments env_best {D Q}.
Arguments env_self {D Q}.

Inductive Report (D Q : Type) :=
| RNoSession (mic : MIC)
| RUnsupportedArguments
| RUnsupportedMIC (mic : MIC)
| RLocalReject
| RCancelFalse (mic : MIC) (id : Z)
| RNoOrder (mic : MIC) (id : Z)
| RNoSymbol (symbol : string)
| RQuote (symbol : string) (quotes : list (MIC * Q))
| ROrder (mic : MIC) (id : Z)
| RInstrument (esi : Z) (flatten_only user_disable : bool)
| RConfig (keys : list (string * string))
| RStatus
| RTime (ts : Timestamp)
| RCloseout (esi : Z) (side : Side) (size : Z) (mark limit : D) (mic : MIC)
| RConnect (ret : bool)
| RDisconnect (ret : bool)
| RHelp (name : string)
| RNoCommand (name : string)
| RException (what : string).
Arguments RNoSession {D Q}.
Arguments RUnsupportedArguments {D Q}.
Arguments RUnsupportedMIC {D Q}.
Arguments RLocalReject {D Q}.
Arguments RCancelFalse {D Q}.
Arguments RNoOrder {D Q}.
Arguments RNoSymbol {D Q}.
Arguments RQuote {D Q}.
Arguments ROrder {D Q}.
Arguments RInstrument {D Q}.
Arguments RConfig {D Q}.
Arguments RStatus {D Q}.
Arguments RTime {D Q}.
Arguments RCloseout {D Q}.
Arguments RConnect {D Q}.
Arguments RDisconnect {D Q}.
Arguments RHelp {D Q}.
Arguments RNoCommand {D Q}.
Arguments RException {D Q}.

(** The strategy: [ms_inst_map] in the order of [std::map]; of the arrays by
    market, a session map without the null pointers, and the sets of orders. *)
Record ManualStrategy (D S Q : Type) := mkManual {
  ms_om : OrderManager D S;
  ms_inst_map : list (string * Z);
  ms_session_map : gmap Z string;
  ms_orders : gmap Z (gset Z);
  ms_dm_ts : Timestamp;
  ms_reports : list (Report D Q)
}.
Arguments mkManual {D S Q}.
Arguments ms_om {D S Q}.
Arguments ms_inst_map {D S Q}.
Arguments ms_session_map {D S Q}.
Arguments ms_orders {D S Q}.
Arguments ms_dm_ts {D S Q}.
Arguments ms_reports {D S Q}.
#[export] Instance ManualStrategy_rebuild {D S Q} : Rebuild (ManualStrategy D S Q) := λ r,
  mkManual (ms_om r) (ms_inst_map r) (ms_session_map r) (ms_orders r) (ms_dm_ts r) (ms_reports r).

(** The words of a command after its name. *)
Definition CommandArgs : Type := list string.

Section Commands.
Context {D S Q : Type} `{Dbl D} `{OrderSession D S} (E : Env D Q).
Implicit Types (st : ManualStrategy D S Q) (om : OrderManager D S).

Definition Cmd (A : Type) : Type :=
  ManualStrategy D S Q → res (ManualStrategy D S Q * Outcome A).
Definition cret {A} (x : A) : Cmd A := λ st, Ok (st, Done x).
Definition cbind {A B} (m : Cmd A) (k : A → Cmd B) : Cmd B := λ st,
  '(st, r) ← m st;
  match r with Done x => k x st | Threw w => Ok (st, Threw w) end.
Definition throw {A} (what : string) : Cmd A := λ st, Ok (st, Threw what).
Definition say (r : Report D Q) : Cmd unit := λ st,
  Ok (st <| ms_reports := ms_reports st ++ [r] |>, Done tt).
Definition get {A} (f : ManualStrategy D S Q → A) : Cmd A := λ st, Ok (st, Done (f st)).
(** A call of the order manager. *)
Definition call {A} (f : OrderManager D S → res (A * OrderManager D S)) : Cmd A := λ st,
  '(x, om) ← f (ms_om st);
  Ok (st <| ms_om := om |>, Done x).
(** Reads through a pointer. *)
Definition deref {A} (f : OrderManager D S → res A) : Cmd A := λ st,
  x ← f (ms_om st); Ok (st, Done x).
Definition modify (f : OrderManager D S → OrderManager D S) : Cmd unit :=
  call (λ om, Ok (tt, f om)).
Definition required {A} (x : option A) (what : string) : Cmd A :=
  match x with Some x => cret x | None => throw what end.
Fixpoint each {A} (f : A → Cmd unit) (l : list A) : Cmd unit :=
  match l with [] => cret tt | x :: l => cbind (f x) (λ _, each f l) end.

Local Notation "x ⇐ m ; k" := (cbind m (λ x, k)) (at level 65, m at level 60, k at level 65, right associativity).
Local Notation "m ⟫ k" := (cbind m (λ _, k)) (at level 65, right associativity).

(** ** The maps *)

Definition find_inst (symbol : string) st : option Z := sm_find String.ltb symbol (ms_inst_map st).
(** [m_inst_map[symbol] = esi] *)
Definition assign_inst (symbol : string) (esi : Z) (m : list (string * Z)) : list (string * Z) :=
  sm_set String.ltb symbol esi (sm_emplace String.ltb symbol esi m).
Definition find_session (mic : MIC) st : option string := ms_session_map st !! MIC_index mic.
(** A set of pointers, in the order of addresses. *)
Definition in_address_order (s : gset Z) : list Z := merge_sort Z.le (elements s).
Definition orders_of (mic : MIC) st : list Z :=
  in_address_order (default ∅ (ms_orders st !! MIC_index mic)).
Definition insert_order (mic : MIC) (a : Z) : Cmd unit := λ st,
  let s := default ∅ (ms_orders st !! MIC_index mic) in
  Ok (st <| ms_orders := <[MIC_index mic := {[a]} ∪ s]> (ms_orders st) |>, Done tt).

(** [MIC::clone], or the exception. *)
Definition mic_argument (arg what : string) : Cmd MIC :=
  let mic := MIC_of_name (to_upper arg) in
  if bool_decide (mic = MIC_UNKNOWN) then throw what else cret mic.
Definition cast_argument {A} (x : option A) : Cmd A := required x "bad lexical cast".

(** ** Orders *)

Definition side_argument (arg : string) : Side :=
  let c := first_char arg in
  if (c =? 66) || (c =? 98) then BUY else if (c =? 83) || (c =? 115) then SELL else SIDE_UNKNOWN.
Definition type_argument (arg : string) : Cmd OrderType :=
  let c := first_char arg in
  if (c =? 76) || (c =? 108) then cret LIMIT
  else if (c =? 77) || (c =? 109) then cret MARKET
  else if (c =? 80) || (c =? 112) then cret MIDPOINT_PEG
  else throw "unsupported order type".
Definition tif_argument (arg : string) : Cmd TimeInForce :=
  let c := first_char arg in
  if (c =? 68) || (c =? 100) then cret DAY
  else if (c =? 73) || (c =? 105) then cret IMMEDIATE_OR_CANCEL
  else if (c =? 88) || (c =? 120) then cret EXT
  else if (c =? 70) || (c =? 102) then cret FILL_OR_KILL
  else if (c =? 67) || (c =? 99) then cret AUCTION_CLOSE
  else if (c =? 79) || (c =? 111) then cret AUCTION_OPEN
  else throw "unsupported tif".

(** [handle_boe_order_arguments]: stops at the first that is refused. *)
Fixpoint handle_boe_order_arguments (a : Z) (args : CommandArgs) : Cmd bool :=
  match args with
  | [] => cret true
  | v :: args =>
      match env_tokens E ["="%char] v with
      | [tag; value] =>
          ok ⇐ call (λ om, o ← get_order a om;
                 let '(ok, o) := set_order_attribute tag value o in Ok (ok, put_order a o om));
          if ok : bool then handle_boe_order_arguments a args else cret false
      | _ => cret false
      end
  end.

Definition new_order (kind : OrderKind) (esi : Z) (price : D) (size : Z) (side : Side)
    (tif : TimeInForce) (type : OrderType) : Order D :=
  Order_new (env_now E) kind esi price size side tif type (Some (env_self E)) 0.

Definition do_order_command (esi : Z) (side : Side) (size : Z) (price : D) (type : OrderType)
    (tif : TimeInForce) (mic : MIC) (exch_specific_args : CommandArgs) : Cmd unit :=
  session ⇐ get (find_session mic);
  match session with
  | None => say (RNoSession mic)
  | Some session =>
      let finish a :=
        ok ⇐ call (send (Some a) (Some session));
        (if ok : bool then cret tt else say RLocalReject) ⟫
        insert_order mic a in
      if bool_decide (mic ∈ [BATS; BATY; EDGX; EDGA]) then
        a ⇐ call (λ om, Ok (create_order (new_order (BATSOrder BOE20Order_default) esi price size side tif type) om));
        ok ⇐ handle_boe_order_arguments a exch_specific_args;
        if ok : bool then finish a else say RUnsupportedArguments
      else if bool_decide (mic ∈ [XNAS; XBOS; XPSX]) then
        a ⇐ call (λ om, Ok (create_order (new_order (NASDAQOrder NASDAQOrder_default) esi price size side tif type) om));
        finish a
      else say (RUnsupportedMIC mic)
  end.

Definition order_command (args : CommandArgs) : Cmd unit :=
  match args with
  | symbola :: sidea :: sizea :: pricea :: typea :: tifa :: mica :: exchange_specific_args =>
      esi ⇐ get (find_inst (to_upper symbola));
      esi ⇐ required esi "unknown symbol";
      let side := side_argument sidea in
      size ⇐ cast_argument (env_u32 E sizea);
      price ⇐ cast_argument (env_price E pricea);
      type ⇐ type_argument typea;
      tif ⇐ tif_argument tifa;
      mic ⇐ mic_argument mica "unknown MIC";
      do_order_command esi side size price type tif mic exchange_specific_args
  | _ => throw "order_command expected more arguments"
  end.

(** Every order of the market with this local id. *)
Fixpoint cancel_matching (mic : MIC) (localid newsize : Z) (found : bool) (orders : list Z) : Cmd bool :=
  match orders with
  | [] => cret found
  | a :: orders =>
      o ⇐ deref (get_order a);
      if o_localID o =? localid then
        ok ⇐ call (cancel (Some a) newsize);
        (if ok : bool then cret tt else say (RCancelFalse mic localid)) ⟫
        cancel_matching mic localid newsize true orders
      else cancel_matching mic localid newsize found orders
  end.
Definition do_cancel_command (mic : MIC) (localid newsize : Z) : Cmd unit :=
  orders ⇐ get (orders_of mic);
  found ⇐ cancel_matching mic localid newsize false orders;
  if found : bool then cret tt else say (RNoOrder mic localid).

Definition cancel_command (args : CommandArgs) : Cmd unit :=
  match args with
  | mica :: ida :: rest =>
      mic ⇐ mic_argument mica "cancel: unknown MIC";
      localid ⇐ cast_argument (env_u32 E ida);
      newsize ⇐ match rest with [] => cret 0 | sizea :: _ => cast_argument (env_u32 E sizea) end;
      do_cancel_command mic localid newsize
  | _ => throw "order_command expected more arguments"
  end.

(** ** Lists *)

(** [do_load_orders] *)
Definition do_load_orders (include_terminal : bool) : Cmd unit :=
  orders ⇐ deref (if include_terminal then all_orders else open_orders);
  each (λ a, o ⇐ deref (get_order a); insert_order (o_market o) a) orders.

Definition list_order (mic : MIC) (show_terminal : bool) (a : Z) : Cmd unit :=
  o ⇐ deref (get_order a);
  if negb (is_terminal o) || show_terminal then say (ROrder mic (o_localID o)) else cret tt.
(** [UNKNOWN] stands for every market. *)
Definition do_list_orders_command (mic : MIC) (show_terminal : bool) : Cmd unit :=
  do_load_orders show_terminal ⟫
  each (λ m,
    if bool_decide (mic = MIC_UNKNOWN) || bool_decide (m = mic)
    then orders ⇐ get (orders_of m); each (list_order m show_terminal) orders
    else cret tt) MIC_enums.
Definition list_orders_command (args : CommandArgs) : Cmd unit :=
  match args with
  | [] => do_list_orders_command MIC_UNKNOWN false
  | a :: rest =>
      if (1 <? length rest)%nat then throw "list_orders: expect at most two arguments"
      else if bool_decide (a = "*") then
        if (0 <? length rest)%nat then throw "list_orders: expect only one argument if first is *"
        else do_list_orders_command MIC_UNKNOWN true
      else
        mic ⇐ mic_argument a "list_orders: could not find MIC";
        do_list_orders_command mic (bool_decide (rest = ["*"]))
  end.

(** [print_inst_status] *)
Definition print_inst_status (esi : Z) : Cmd unit :=
  f ⇐ get (λ st, om_firm_risk (ms_om st));
  say (RInstrument esi (inst_permission f esi IP_FLATTEN_ONLY) (inst_permission f esi IP_USER_DISABLE)).
(** Without an argument, what has a position or a profit. *)
Definition has_position (p : Position D) : bool :=
  negb (quantity p =? 0) || (d_lit 1 10000 <? p_realized p)%dbl || (d_lit 1 10000 <? p_unrealized p)%dbl.
Definition list_instruments_command (args : CommandArgs) : Cmd unit :=
  let sym := match args with [] => "" | a :: _ => to_upper a end in
  insts ⇐ get ms_inst_map;
  each (λ e,
    i ⇐ deref (get_inst e.2);
    if bool_decide (sym = "") && has_position (i_position i)
       || bool_decide (sym = "*") || bool_decide (sym = e.1)
    then print_inst_status e.2 else cret tt) insts.

Definition list_config_command (args : CommandArgs) : Cmd unit :=
  match args with
  | [] => say (RConfig (map_to_list (cs_map (env_config E))))
  | _ => each (λ s, say (RConfig (map_to_list (cs_map (copy_prefix_domain (env_config E) s))))) args
  end.
Definition status_command (args : CommandArgs) : Cmd unit := say RStatus.

(** [do_quote_command]: the markets whose books there are. *)
Definition do_quote_command (symbol : string) (mics : list MIC) : Cmd unit :=
  esi ⇐ get (find_inst symbol);
  match esi with
  | None => say (RNoSymbol symbol)
  | Some esi => say (RQuote symbol (omap (λ m, (m,.) <$> env_best E m esi) mics))
  end.
(** The markets named, as a set. *)
Fixpoint mic_arguments (args : CommandArgs) (mics : list MIC) : Cmd (list MIC) :=
  match args with
  | [] => cret (filter (λ m, m ∈ mics) MIC_enums)
  | a :: args => mic ⇐ mic_argument a "quote: unknown MIC"; mic_arguments args (mic :: mics)
  end.
Definition quote_command (args : CommandArgs) : Cmd unit :=
  match args with
  | [] => throw "quote_command expected at least 1 arguments"
  | a :: rest =>
      mics ⇐ match rest with [] => cret MIC_enums | _ => mic_arguments rest [] end;
      do_quote_command (to_upper a) mics
  end.

(** ** Operator actions *)

Definition update_locates_command (args : CommandArgs) : Cmd unit :=
  if (1 <? length args)%nat then throw "update_locates: expect at most one argument"
  else
    match env_locates E (default "" (head args)) with
    | Threw w => throw w
    | Done None => cret tt
    | Done (Some cfg) => modify (load_and_update_locates (env_i64 E) (env_cta_symbol E) cfg)
    end.

Definition manual_position_adj_command (args : CommandArgs) : Cmd unit :=
  match args with
  | symbola :: starta :: tradinga :: _ =>
      esi ⇐ get (find_inst (to_upper symbola));
      esi ⇐ required esi "unknown symbol";
      start ⇐ cast_argument (env_i64 E starta);
      trading ⇐ cast_argument (env_i64 E tradinga);
      modify (manual_position_adj esi start trading)
  | _ => throw "manual_position_adj_command expected at least 2 arguments"
  end.

Definition do_cancel_all_session (session : string) : Cmd unit :=
  n ⇐ call (cancel_all_session (Some session)); cret tt.
(** The sessions by name, of each market. *)
Definition cancel_sessions_named (name : string) : Cmd unit :=
  each (λ m,
    session ⇐ get (find_session m);
    match session with
    | Some s => if bool_decide (name = s) then do_cancel_all_session s else cret tt
    | None => cret tt
    end) MIC_enums.
Fixpoint bulk_cancel_each (args : CommandArgs) : Cmd unit :=
  match args with
  | [] => cret tt
  | a :: args =>
      let a := to_upper a in
      if bool_decide (a = "*") then n ⇐ call cancel_all; cret tt
      else
        let mic := MIC_of_name a in
        (if negb (bool_decide (mic = MIC_UNKNOWN)) then
           session ⇐ get (find_session mic);
           match session with Some s => do_cancel_all_session s | None => cret tt end
         else match env_u16 E a with
         | Some account => n ⇐ call (cancel_all_local_account account); cret tt
         | None => cancel_sessions_named a
         end) ⟫
        bulk_cancel_each args
  end.
Definition bulk_cancel_command (args : CommandArgs) : Cmd unit :=
  match args with
  | [] => throw "bulk cancel: expected at least one argument"
  | _ => bulk_cancel_each args
  end.

(** [no_arg_command_helper], [do_toggle_trading_status] *)
Definition toggle_trading_command (enable : bool) (args : CommandArgs) : Cmd unit :=
  match args with
  | [] => modify (if enable then enable_all_trading else disable_all_trading)
  | _ => throw "expected no arguments"
  end.
(** [toggle_stock_command], [do_toggle_stock_status] *)
Definition toggle_stock_command (enable : bool) (symbol : string) : Cmd unit :=
  esi ⇐ get (find_inst symbol);
  esi ⇐ required esi "unknown symbol";
  modify (if enable then enable_stock esi else disable_stock esi).
(** [at_least_one_arg_command_helper] *)
Definition toggle_stocks_command (enable : bool) (args : CommandArgs) : Cmd unit :=
  match args with
  | [] => throw "expected at least one argument"
  | _ => each (λ a, toggle_stock_command enable (to_upper a)) args
  end.

(** A session does something by itself. *)
Definition with_session {A} (name : string) (f : S → A * S) : Cmd A :=
  call (λ om, s ← get_session_ref name om; let '(x, s) := f s in Ok (x, put_session name s om)).
Definition toggle_session (connect : bool) (name : string) : Cmd unit :=
  if connect then ret ⇐ with_session name manual_connect; say (RConnect ret)
  else ret ⇐ with_session name manual_disconnect; say (RDisconnect ret).
(** The first market whose session has this name. *)
Definition session_named (name : string) st : option string :=
  head (filter (λ s, s = name) (omap (λ m, find_session m st) MIC_enums)).
Definition toggle_connect_session_command (connect : bool) (args : CommandArgs) : Cmd unit :=
  match args with
  | [a] =>
      let nam := to_upper a in
      let mic := MIC_of_name nam in
      if negb (bool_decide (mic = MIC_UNKNOWN)) then
        session ⇐ get (find_session mic);
        session ⇐ required session "toggle_connect_session: no session for MIC";
        toggle_session connect session
      else
        session ⇐ get (session_named nam);
        session ⇐ required session "toggle_connect_session: could not find session";
        toggle_session connect session
  | _ => throw "toggle_connect_session: expect one argument"
  end.

(** ** Closing positions out *)

Definition HARD_CLOSEOUT_CROSS_PCT : D := d_lit 5 100.
(** The price that crosses the mark by this share of it, cut off at the cent. *)
Definition closeout_price (side : Side) (mark cross_pct : D) : D :=
  let cross_pct := if (HARD_CLOSEOUT_CROSS_PCT <? cross_pct)%dbl then HARD_CLOSEOUT_CROSS_PCT else cross_pct in
  let limit_price :=
    if bool_decide (side = BUY) then (mark * (d_of_Z 1 + cross_pct) + d_lit 5 1000)%dbl
    else (mark * (d_of_Z 1 - cross_pct) - d_lit 5 1000)%dbl in
  let cents_price := u32 (d_to_i64 (limit_price * d_of_Z 100)%dbl) in
  (d_of_Z cents_price / d_of_Z 100)%dbl.
Definition do_closeout_position (esi : Z) (mic : MIC) (cross_pct : D) : Cmd unit :=
  i ⇐ deref (get_inst esi);
  let quantity := quantity (i_position i) in
  if quantity =? 0 then cret tt
  else
    let mark_price := p_mark (i_position i) in
    let side := if 0 <? quantity then SELL else BUY in
    let size := if 0 <? quantity then u32 quantity else u32 (i64 (- quantity)) in
    let limit_price := closeout_price side mark_price cross_pct in
    say (RCloseout esi side size mark_price limit_price mic) ⟫
    do_order_command esi side size limit_price LIMIT IMMEDIATE_OR_CANCEL mic [].

(** The instruments named; an unknown symbol is reported and left out. *)
Fixpoint closeout_insts (args : CommandArgs) (insts : list Z) : Cmd (list Z) :=
  match args with
  | [] => cret insts
  | a :: args =>
      let a := to_upper a in
      if bool_decide (a = "*") then m ⇐ get ms_inst_map; closeout_insts args (insts ++ m.*2)
      else
        esi ⇐ get (find_inst a);
        match esi with
        | Some esi => closeout_insts args (insts ++ [esi])
        | None => say (RNoSymbol a) ⟫ closeout_insts args insts
        end
  end.
Definition closeout_position_command (args : CommandArgs) : Cmd unit :=
  match args with
  | mica :: ((_ :: _) as symbols) =>
      mic ⇐ mic_argument mica "closeout_position: unknown MIC";
      insts ⇐ closeout_insts symbols [];
      each (λ esi, do_closeout_position esi mic (d_lit 2 100)) insts
  | _ => throw "closeout_position: expect at least two arguments"
  end.

(** ** The interpreter *)

(** A command returns whether the application goes on. *)
Definition Command : Type := CommandArgs → Cmd bool.
Definition going_on (f : CommandArgs → Cmd unit) : Command := λ args, f args ⟫ cret true.
(** [load_commands]: [HELP] has the map as it was before it was put there. *)
Definition load_commands : list (string * Command) :=
  let add name f cm := sm_emplace String.ltb name f cm in
  let cm :=
    add "QUIT" (λ _, cret false)
    (add "O" (going_on order_command)
    (add "T" (going_on (λ _, ts ⇐ get ms_dm_ts; say (RTime ts)))
    (add "C" (going_on cancel_command)
    (add "I" (going_on list_instruments_command)
    (add "L" (going_on list_orders_command)
    (add "UPDATELOCATES" (going_on update_locates_command)
    (add "CFG" (going_on list_config_command)
    (add "K" (going_on quote_command)
    (add "MANPOSADJ" (going_on manual_position_adj_command)
    (add "S" (going_on status_command)
    (add "BULKCXL" (going_on bulk_cancel_command)
    (add "ENABLE" (going_on (toggle_trading_command true))
    (add "DISABLE" (going_on (toggle_trading_command false))
    (add "ENABLESTOCK" (going_on (toggle_stocks_command true))
    (add "DISABLESTOCK" (going_on (toggle_stocks_command false))
    (add "CLOSEOUT" (going_on closeout_position_command)
    (add "CONNECT" (going_on (toggle_connect_session_command true))
    (add "DISCONNECT" (going_on (toggle_connect_session_command false)) [])))))))))))))))))) in
  add "HELP" (going_on (λ _, each (λ c, say (RHelp c.1)) cm)) cm.

(** [process_string]: nothing a command throws gets past it. *)
Definition process_string (str : string) st : res (ManualStrategy D S Q * bool) :=
  match env_tokens E [" "%char; "009"%char] str with
  | [] => Ok (st, true)
  | cmd :: args =>
      match sm_find String.ltb (to_upper cmd) load_commands with
      | None => Ok (st <| ms_reports := ms_reports st ++ [RNoCommand cmd] |>, true)
      | Some func =>
          '(st, r) ← func args st;
          match r with
          | Done ret => Ok (st, ret)
          | Threw w => Ok (st <| ms_reports := ms_reports st ++ [RException w] |>, true)
          end
      end
  end.

(** ** Starting, and what the strategy is called back for *)

Definition load_instruments st : ManualStrategy D S Q :=
  st <| ms_inst_map :=
    fold_left (λ m esi, assign_inst (env_cta_symbol E esi) esi m)
      (in_address_order (dom (om_universe (ms_om st)))) (ms_inst_map st) |>.
(** One session is kept for each market: the last. *)
Definition load_sessions st : ManualStrategy D S Q :=
  st <| ms_session_map :=
    fold_left (λ m ns, <[MIC_index (ss_market ns.2) := ns.1]> m)
      (get_sessions MIC_UNKNOWN (ms_om st)) (ms_session_map st) |>.
Definition manual_start : Cmd unit := λ st,
  '(st, _) ← do_load_orders false (load_sessions (load_instruments st));
  Ok (st <| ms_om := (ms_om st) <| om_default_listener := Some (env_self E) |> |>, Done tt).
Definition manual_on_timer (ts : Timestamp) st : ManualStrategy D S Q := st <| ms_dm_ts := ts |>.
End Commands.
