(* ===== verification/SimMatching.v ===== *)
(** * The simulated exchange (src/oe/L2SimSession.cpp,
      src/oe/i01_oe/L2SimSession.hpp): matching and the event queue

    Simulated orders rest in maps by price, each with an estimate of the size
    ahead of and behind it in the real book.  Market data moves the estimates
    and fills orders; everything the session tells the order manager goes
    through a queue ordered by time.  The books of the market data side
    ([BookBase]) are an interface: what they answer is an argument. *)

From S2P Require Import Prelude Dbl StdMap Time Types Order Position Config Instrument.
From S2P Require Import FirmRisk OrderLog Blotter L2Book Session SimSession OrderManager.

(** ** Market data events *)

(** A reference to a book: which one, its market and symbol index. *)
Record BookRef := mkBookRef { br_book : Z; br_mic : MIC; br_symbol_index : Z }.
(** What [BookBase] answers about a book. *)
Record BookBase := mkBookBase {
  bb_best : FullL2Quote;
  bb_l2_bid : Z → L2Quote;
  bb_l2_ask : Z → L2Quote
}.
(** The fields of [OrderBook::Order] the session reads. *)
Record MDOrder := mkMDOrder { mo_buy : bool; mo_price : Z; mo_size : Z; mo_refnum : Z }.
Record L3AddEvent := mkL3Add { add_book : BookRef; add_order : MDOrder }.
Record L3CancelEvent := mkL3Cancel { cxl_book : BookRef; cxl_order : MDOrder; cxl_old_size : Z }.
Record L3ModifyEvent := mkL3Modify {
  mod_book : BookRef; mod_new_order : MDOrder; mod_old_refnum : Z; mod_old_price : Z;
  mod_old_size : Z
}.
Record L3ExecutionEvent := mkL3Exec {
  ex_timestamp : Timestamp; ex_book : BookRef; ex_order : MDOrder; ex_trade_id : Z;
  ex_exec_price : Z; ex_exec_size : Z; ex_old_size : Z
}.
(** [te_cross_type]: the kind of cross its message says. *)
Inductive CrossType := OPENING_CROSS | CLOSING_CROSS | OTHER_CROSS.
Record TradeEvent := mkTrade {
  te_timestamp : Timestamp; te_book : BookRef; te_trade_id : Z; te_price : Z; te_size : Z;
  te_cross : bool; te_cross_type : CrossType
}.
Inductive DeltaReasonCode := DR_NONE | DR_NEW_ORDER | DR_CANCEL | DR_EXECUTION | DR_MULTIPLE_EVENTS.
Record L2BookEvent := mkL2Event {
  l2_timestamp : Timestamp; l2_book : BookRef; l2_is_buy : bool; l2_is_bbo : bool;
  l2_is_reduced : bool; l2_price : Z; l2_delta_size : Z; l2_reason : DeltaReasonCode
}.

Section Matching.
Context {D : Type} `{Dbl D}.
Abbreviation Sim := (L2SimSession D).
Abbreviation Book := (list (D * SimOrder)).
Implicit Types (s : L2SimSession D) (o : Order D) (so : SimOrder).

(** [AskOrderContainer] and [BidOrderContainer]: cheapest first, dearest first. *)
Definition ask_order (a b : D) : bool := (a <? b)%dbl.
Definition bid_order (a b : D) : bool := (b <? a)%dbl.

(** ** Size estimates *)

Definition reduce_size_from_back so (delta_size : Z) : res SimOrder :=
  let amt := Z.min (so_size_behind so) delta_size in
  let so := so <| so_size_behind := u32 (so_size_behind so - amt) |> in
  let delta_size := u32 (delta_size - amt) in
  if (so_size_behind so =? 0) && negb (delta_size =? 0) then
    let amt := Z.min (so_size_ahead so) delta_size in
    let so := so <| so_size_ahead := u32 (so_size_ahead so - amt) |> in
    _ ← assert "o.size_ahead || (delta_size == amt)"
          (negb (so_size_ahead so =? 0) || (delta_size =? amt));
    Ok so
  else Ok so.

Definition reduce_size_from_front so (delta_size : Z) : SimOrder * Z :=
  let amt := Z.min (so_size_ahead so) delta_size in
  (so <| so_size_ahead := u32 (so_size_ahead so - amt) |>, amt).

Definition add_behind (n : Z) so : SimOrder :=
  so <| so_size_behind := u32 (so_size_behind so + n) |>.

Section Helpers.
Context (lt : D → D → bool).
Implicit Types (orders : list (D * SimOrder)).

(** A change to the order at a price, if there is one. *)
Definition at_price (p : Z) (f : SimOrder → res SimOrder) orders : res Book :=
  let qprice := to_double p in
  match sm_find lt qprice orders with
  | None => Ok orders
  | Some so => so ← f so; Ok (sm_set lt qprice so orders)
  end.

Definition add_order_helper (evt : L3AddEvent) orders : res Book :=
  at_price (mo_price (add_order evt)) (λ so, Ok (add_behind (mo_size (add_order evt)) so)) orders.

Definition cancel_order_helper (evt : L3CancelEvent) (delta_size : Z) orders : res Book :=
  at_price (mo_price (cxl_order evt)) (λ so, reduce_size_from_back so delta_size) orders.

Definition modify_order_helper (evt : L3ModifyEvent) (delta_if_reduced : Z) orders : res Book :=
  let new := mod_new_order evt in
  if negb (mo_price new =? mod_old_price evt) then
    orders ← at_price (mod_old_price evt)
               (λ so, reduce_size_from_back so (mod_old_size evt)) orders;
    at_price (mo_price new) (λ so, Ok (add_behind (mo_size new) so)) orders
  else
    at_price (mod_old_price evt) (λ so,
      if mod_old_size evt <=? mo_size new then
        so ← reduce_size_from_back so (mod_old_size evt);
        Ok (add_behind (mo_size new) so)
      else reduce_size_from_back so delta_if_reduced) orders.

Definition exec_event_size_helper (evt : L3ExecutionEvent) orders : res Book :=
  at_price (mo_price (ex_order evt)) (λ so,
    if ex_old_size evt <? mo_size (ex_order evt)
    then Ok (add_behind (u32 (mo_size (ex_order evt) - ex_old_size evt)) so)
    else Ok so) orders.

Definition size_update_helper (evt : L2BookEvent) orders : res Book :=
  let delta := l2_delta_size evt in
  at_price (l2_price evt) (λ so,
    match l2_reason evt with
    | DR_NEW_ORDER => Ok (add_behind delta so)
    | DR_CANCEL => reduce_size_from_back so delta
    | DR_EXECUTION => Ok (reduce_size_from_front so delta).1
    | DR_MULTIPLE_EVENTS =>
        if l2_is_reduced evt then reduce_size_from_back so delta else Ok (add_behind delta so)
    | DR_NONE => Ok so
    end) orders.

(** [reduce_helper]: the amount cancelled.  A whole order is erased, and its
    [remains] read through the erased iterator. *)
Definition reduce_helper (k : D) (v newqty : Z) orders : res (Z * Book) :=
  match sm_find lt k orders with
  | None => Ok (0, orders)
  | Some so =>
      if so_order so =? v then
        if (newqty =? 0) || (so_remains so =? newqty)
        then Fail (UndefinedBehaviour "read through an erased iterator")
        else if newqty <? so_remains so
        then Ok (newqty, sm_set lt k (so <| so_remains := u32 (so_remains so - newqty) |>) orders)
        else Ok (0, orders)
      else Ok (0, orders)
  end.
End Helpers.

(** ** Crossing *)

(** The predicates and the sizes available, by order address. *)
Definition order_in (heap : gmap Z (Order D)) (a : Z) : res (Order D) :=
  match heap !! a with
  | Some o => Ok o
  | None => Fail (UndefinedBehaviour "dangling order pointer")
  end.
Definition PriceLE (ref : D) (_ : Z) o : bool := (o_price o <=? ref)%dbl.
Definition PriceGE (ref : D) (_ : Z) o : bool := (ref <=? o_price o)%dbl.
(** [NasdaqImbCross]: [imb_only] tells imbalance-only orders. *)
Definition NasdaqImbCross (imb_only : Z → bool) (comp : D → Z → Order D → bool)
    (dir : ImbalanceDirection) (ref : D) (a : Z) o : bool :=
  if imb_only a then
    match dir with
    | BUY_IMBALANCE => (Side_to_Z SELL <=? Side_to_Z (o_side o)) && comp ref a o
    | SELL_IMBALANCE => bool_decide (o_side o = BUY) && comp ref a o
    | NO_IMBALANCE | INSUFFICIENT_ORDERS => false
    end
  else comp ref a o.

(** [AvailSize] is [NasdaqCrossAvailSize] without imbalance-only orders. *)
Record AvailSize := mkAvail { av_avail : Z; av_imbalance : Z }.
Definition avail_get (imb_only : Z → bool) (a : Z) (av : AvailSize) : Z :=
  if imb_only a then av_imbalance av else av_avail av.
Definition avail_remove (imb_only : Z → bool) (a shares : Z) (av : AvailSize) : AvailSize :=
  if imb_only a then mkAvail (av_avail av) (u32 (av_imbalance av - shares))
  else mkAvail (u32 (av_avail av - shares)) (av_imbalance av).
Definition regular (_ : Z) : bool := false.

Section Cross.
Context (heap : gmap Z (Order D)) (idx : Z) (imb_only : Z → bool)
  (check_price : Z → Order D → bool) (ref : D) (ts ack_at : Timestamp) (cxl_remainder : bool).
Abbreviation Queue := (list (Ordering * SimEvent D)).

Definition cxl_event (a size : Z) : Ordering * SimEvent D :=
  (at_time ack_at, sim_event CANCELLED a idx size d0 ts).
Definition fill_event (a size : Z) : Ordering * SimEvent D :=
  (at_time ack_at, sim_event FILLED a idx size ref ts_zero).

(** One iteration of [cross_helper]: the order if it stays, what is left, the
    events queued, the shares crossed. *)
Definition cross_one so (av : AvailSize) : res (option SimOrder * AvailSize * Queue * Z) :=
  op ← order_in heap (so_order so);
  let a := so_order so in
  let open_size :=
    if OrderState_to_Z (o_state op) <? OrderState_to_Z ACKNOWLEDGED then o_size op
    else so_remains so in
  if check_price a op && negb (avail_get imb_only a av =? 0) then
    '(so, av, q, fill_size) ←
      (if so_size_ahead so =? 0 then
         _ ← assert "simo.remains <= open_size" (so_remains so <=? open_size);
         let fill_size := Z.min (so_remains so) (avail_get imb_only a av) in
         Ok (so <| so_remains := u32 (so_remains so - fill_size) |>,
             avail_remove imb_only a fill_size av, [fill_event a fill_size], fill_size)
       else Ok (so, av, [], 0));
    if so_remains so =? 0 then Ok (None, av, q, fill_size)
    else Ok (Some so, av,
             q ++ (if cxl_remainder then [cxl_event a (u32 (open_size - fill_size))] else []),
             fill_size)
  else Ok (Some so, av, if cxl_remainder then [cxl_event a open_size] else [], 0).

Fixpoint cross_helper (orders : Book) (av : AvailSize) : res (Book * AvailSize * Queue * Z) :=
  match orders with
  | [] => Ok ([], av, [], 0)
  | (p, so) :: orders' =>
      '(keep, av, q, n) ← cross_one so av;
      '(rest, av, q', n') ← cross_helper orders' av;
      Ok (match keep with Some so => (p, so) :: rest | None => rest end, av, q ++ q', n + n')
  end.

(** One order of [exec_cross_helper]'s loop; it comes back to the same order
    until that is filled or nothing is available.  None: more fuel is needed. *)
Fixpoint exec_cross_one (fuel : nat) so (avail : Z) : option (option SimOrder * Z * Queue) :=
  match fuel with
  | O => None
  | S fuel' =>
      let '(so, taken) := reduce_size_from_front so avail in
      let avail := u32 (avail - taken) in
      if avail =? 0 then Some (Some so, avail, [])
      else
        let fill_size := Z.min (so_remains so) avail in
        let so := so <| so_remains := u32 (so_remains so - fill_size) |> in
        let ev := fill_event (so_order so) fill_size in
        if so_remains so =? 0 then Some (None, avail, [ev])
        else match exec_cross_one fuel' so avail with
             | Some (keep, avail, q) => Some (keep, avail, ev :: q)
             | None => None
             end
  end.
(** Each round fills at least one share. *)
Definition exec_fuel so : nat := S (Z.to_nat (so_remains so)).

(** [exec_cross_helper]: stops at the first order whose price is not met. *)
Fixpoint exec_cross_helper (orders : Book) (avail : Z) : res (option (Book * Z * Queue)) :=
  match orders with
  | [] => Ok (Some ([], avail, []))
  | (p, so) :: orders' =>
      op ← order_in heap (so_order so);
      if check_price (so_order so) op then
        match exec_cross_one (exec_fuel so) so avail with
        | None => Ok None
        | Some (keep, avail, q) =>
            r ← exec_cross_helper orders' avail;
            Ok (match r with
                | Some (rest, avail, q') =>
                    Some (match keep with Some so => (p, so) :: rest | None => rest end, avail, q ++ q')
                | None => None
                end)
        end
      else Ok (Some (orders, avail, []))
  end.
End Cross.

(** ** Market data handlers

    [heap] is the order manager's store: the session only reads orders here. *)

Section Handlers.
Context (heap : gmap Z (Order D)).

Definition emplace_all (q : list (Ordering * SimEvent D)) s : Sim :=
  s <| sim_eventq := sim_eventq s ++ q |>.
Definition set_book (idx : Z) (be : BookEntry D) s : Sim :=
  s <| sim_books := <[Z.to_nat idx := be]> (sim_books s) |>.

Definition on_symbol_definition (mic : MIC) (esi : Z) (ticker : string) s : Sim :=
  if negb (bool_decide (mic = sim_mic s)) then s
  else
    let s := s <| sim_index_map := <[ticker := esi]> (sim_index_map s) |> in
    if Z.of_nat (length (sim_books s)) <=? esi
    then s <| sim_books := sim_books s
                ++ replicate (Z.to_nat (esi + 1) - length (sim_books s)) (BookEntry_new None) |>
    else s.

(** [update] is [SymbolState::update]. *)
Definition on_trading_status_update (update : SymbolState → SymbolState) (book : BookRef) s : Sim :=
  if negb (bool_decide (br_mic book = sim_mic s)) then s
  else match sim_books s !! Z.to_nat (br_symbol_index book) with
  | None => s
  | Some be => set_book (br_symbol_index book) (be <| be_state := update (be_state be) |>) s
  end.

(** [find_book_entry]: the entry, which from now on knows its book. *)
Definition find_book_entry (book : BookRef) s : option (BookEntry D) :=
  match sim_books s !! Z.to_nat (br_symbol_index book) with
  | None => None
  | Some be =>
      Some (match be_book be with
            | None => be <| be_book := Some (br_book book) |>
            | Some _ => be
            end)
  end.

(** A handler of an event of [book]: ignored when the book is of another market
    or unknown. *)
Definition on_book (book : BookRef) (f : BookEntry D → Sim → res (BookEntry D * Sim)) s : res Sim :=
  if negb (bool_decide (br_mic book = sim_mic s)) then Ok s
  else match find_book_entry book s with
  | None => Ok s
  | Some be => '(be, s) ← f be s; Ok (set_book (br_symbol_index book) be s)
  end.

(** One side of the book. *)
Definition on_side (is_bid : bool) (f : (D → D → bool) → Book → res Book) (be : BookEntry D)
    : res (BookEntry D) :=
  if is_bid then b ← f bid_order (be_bids be); Ok (be <| be_bids := b |>)
  else a ← f ask_order (be_asks be); Ok (be <| be_asks := a |>).

Definition on_book_added (evt : L3AddEvent) s : res Sim :=
  on_book (add_book evt) (λ be s,
    be ← on_side (mo_buy (add_order evt)) (λ lt, add_order_helper lt evt) be; Ok (be, s)) s.

Definition on_book_canceled (evt : L3CancelEvent) s : res Sim :=
  on_book (cxl_book evt) (λ be s,
    let delta_size := default (u32 (cxl_old_size evt - mo_size (cxl_order evt)))
      (sim_exec_this_pkt s !! mo_refnum (cxl_order evt)) in
    be ← on_side (mo_buy (cxl_order evt)) (λ lt, cancel_order_helper lt evt delta_size) be;
    Ok (be, s)) s.

Definition on_book_modified (evt : L3ModifyEvent) s : res Sim :=
  on_book (mod_book evt) (λ be s,
    let delta_size := default (u32 (mod_old_size evt - mo_size (mod_new_order evt)))
      (sim_exec_this_pkt s !! mod_old_refnum evt) in
    be ← on_side (mo_buy (mod_new_order evt)) (λ lt, modify_order_helper lt evt delta_size) be;
    Ok (be, s)) s.

(** [insert] keeps what is there. *)
Definition insert_new {V} (k : Z) (v : V) (m : gmap Z V) : gmap Z V :=
  match m !! k with Some _ => m | None => <[k := v]> m end.

Definition on_book_executed (evt : L3ExecutionEvent) s : res Sim :=
  on_book (ex_book evt) (λ be s,
    let idx := br_symbol_index (ex_book evt) in
    let ref_price := to_double (ex_exec_price evt) in
    let bid := mo_buy (ex_order evt) in
    let ack_at := ts_plus (ex_timestamp evt) (sim_ack_latency s) in
    if bool_decide (ex_trade_id evt ∈ be_trades be) then Ok (be, s)
    else
      r ← exec_cross_helper heap idx (if bid then PriceGE ref_price else PriceLE ref_price)
            ref_price ack_at (if bid then be_bids be else be_asks be) (ex_exec_size evt);
      match r with
      | None => Fail (UndefinedBehaviour "exec_cross_helper does not terminate")
      | Some (orders, avail_size, q) =>
          orders ← exec_event_size_helper (if bid then bid_order else ask_order) evt orders;
          let be := if bid then be <| be_bids := orders |> else be <| be_asks := orders |> in
          Ok (be <| be_trades := {[ex_trade_id evt]} ∪ be_trades be |>,
              (emplace_all q s) <| sim_exec_this_pkt :=
                insert_new (mo_refnum (ex_order evt)) avail_size (sim_exec_this_pkt s) |>)
      end) s.

(** [cross_helper] on one of the containers of an entry. *)
Definition cross (idx : Z) (imb_only : Z → bool) (check_price : Z → Order D → bool) (ref : D)
    (ts : Timestamp) (cxl_remainder : bool) (orders : Book) (av : AvailSize) s
    : res (Book * Z * Sim) :=
  '(orders, _, q, n) ← cross_helper heap idx imb_only check_price ref ts
                         (ts_plus ts (sim_ack_latency s)) cxl_remainder orders av;
  Ok (orders, n, emplace_all q s).

(** [best] is the quote of the side the update is on, as the book now has it. *)
Definition on_l2_update (best : L2Quote) (evt : L2BookEvent) s : res Sim :=
  on_book (l2_book evt) (λ be s,
    let idx := br_symbol_index (l2_book evt) in
    if l2_delta_size evt =? 0 then Ok (be, s)
    else
      be ← on_side (l2_is_buy evt) (λ lt, size_update_helper lt evt) be;
      if l2_is_bbo evt then
        let ref_price := to_double (q_price best) in
        let av := mkAvail (q_size best) 0 in
        if l2_is_buy evt then
          '(asks, _, s) ← cross idx regular (PriceLE ref_price) ref_price (l2_timestamp evt)
                            false (be_asks be) av s;
          Ok (be <| be_asks := asks |>, s)
        else
          '(bids, _, s) ← cross idx regular (PriceGE ref_price) ref_price (l2_timestamp evt)
                            false (be_bids be) av s;
          Ok (be <| be_bids := bids |>, s)
      else Ok (be, s)) s.

(** The closing containers are crossed at the opening trade as well. *)
Definition handle_nyse_cross (evt : TradeEvent) (be : BookEntry D) s : res (BookEntry D * Sim) :=
  let idx := br_symbol_index (te_book evt) in
  let px := to_double (te_price evt) in
  let av := mkAvail (u32 (te_size evt)) 0 in
  match te_cross_type evt with
  | CLOSING_CROSS | OPENING_CROSS =>
      '(bids, _, s) ← cross idx regular (PriceGE px) px (te_timestamp evt) true
                        (be_close_bids be) av s;
      '(asks, _, s) ← cross idx regular (PriceLE px) px (te_timestamp evt) true
                        (be_close_asks be) av s;
      Ok (be <| be_close_bids := bids |> <| be_close_asks := asks |>, s)
  | OTHER_CROSS => Ok (be, s)
  end.

Definition handle_nasdaq_cross (imb_only : Z → bool) (evt : TradeEvent) (be : BookEntry D) s
    : res (BookEntry D * Sim) :=
  let idx := br_symbol_index (te_book evt) in
  let px := to_double (te_price evt) in
  let noii := default NOIIEntry_new (sim_last_noii s !! idx) in
  let bid_comp := NasdaqImbCross imb_only PriceGE (direction noii) px in
  let ask_comp := NasdaqImbCross imb_only PriceLE (direction noii) px in
  let av := mkAvail (u32 (te_size evt)) (imbalance_shares noii) in
  match te_cross_type evt with
  | CLOSING_CROSS =>
      '(bids, _, s) ← cross idx imb_only bid_comp px (te_timestamp evt) true (be_close_bids be) av s;
      '(asks, _, s) ← cross idx imb_only ask_comp px (te_timestamp evt) true (be_close_asks be) av s;
      Ok (be <| be_close_bids := bids |> <| be_close_asks := asks |>, s)
  | OPENING_CROSS =>
      '(bids, _, s) ← cross idx imb_only bid_comp px (te_timestamp evt) true (be_open_bids be) av s;
      '(asks, _, s) ← cross idx imb_only ask_comp px (te_timestamp evt) true (be_open_asks be) av s;
      Ok (be <| be_open_bids := bids |> <| be_open_asks := asks |>, s)
  | OTHER_CROSS => Ok (be, s)
  end.

Definition on_trade (imb_only : Z → bool) (evt : TradeEvent) s : res Sim :=
  on_book (te_book evt) (λ be s,
    let idx := br_symbol_index (te_book evt) in
    if bool_decide (te_trade_id evt ∈ be_trades be) then Ok (be, s)
    else if te_cross evt then
      if bool_decide (sim_mic s = XNYS) then handle_nyse_cross evt be s
      else if bool_decide (sim_mic s = XNAS) then handle_nasdaq_cross imb_only evt be s
      else Ok (be, s)
    else
      let px := to_double (te_price evt) in
      let av := mkAvail (u32 (te_size evt)) 0 in
      let seen be := be <| be_trades := {[te_trade_id evt]} ∪ be_trades be |> in
      match be_bids be, be_asks be with
      | [], [] => Ok (seen be, s)
      | _, _ =>
          '(bids, sum, s) ← cross idx regular (PriceGE px) px (te_timestamp evt) false
                              (be_bids be) av s;
          let be := be <| be_bids := bids |> in
          if negb (sum =? 0) then Ok (be, s)
          else
            '(asks, _, s) ← cross idx regular (PriceLE px) px (te_timestamp evt) false
                              (be_asks be) av s;
            Ok (seen (be <| be_asks := asks |>), s)
      end) s.

Definition on_nasdaq_imbalance (ts : Timestamp) (book : BookRef) (dir : ImbalanceDirection)
    (shares : Z) s : Sim :=
  if negb (bool_decide (br_mic book = sim_mic s)) then s
  else s <| sim_last_noii := <[br_symbol_index book := noii_update ts dir shares]> (sim_last_noii s) |>.
End Handlers.

(** ** The exchange side: an order arrives

    [Next] falls through to posting what remains. *)

Inductive Flow := Return (s : Sim) | GotoCancel | Next (remains : Z) (s : Sim).

Definition emplace (k : Ordering) (e : SimEvent D) s : Sim := emplace_event k e s.

Section Arrival.
Context (books : Z → BookBase) (ts : Timestamp) (a idx : Z) (op : Order D).
Definition is_market : bool := bool_decide (o_type op = MARKET).
Definition is_ioc : bool := bool_decide (o_tif op = IMMEDIATE_OR_CANCEL).
Definition ack_event : SimEvent D := sim_event ACKNOWLEDGED a idx 0 d0 ts_zero.

Definition cancel_event (remains : Z) : SimEvent D := sim_event CANCELLED a idx remains d0 ts.
Definition turned_away (remains : Z) s : Sim :=
  emplace (at_time (ts_plus ts (sim_cxl_latency s))) (cancel_event remains) s.

(** The order against the opposite quote. *)
Definition cross_quote (lt : D → D → bool) (own : Book) (quote : L2Quote) (meets : D → bool) s : Flow :=
  if bool_decide (is_Some (sm_find lt (o_price op) own)) then GotoCancel
  else if is_market || meets (price_as_double quote) then
    let fill_size := Z.min (o_size op) (q_size quote) in
    let fill_price := price_as_double quote in
    let remains := u32 (o_size op - fill_size) in
    let ack_at := ts_plus ts (sim_ack_latency s) in
    let s := emplace (at_time ack_at) ack_event s in
    let s := emplace (mkOrdering ack_at 1) (sim_event FILLED a idx fill_size fill_price ts) s in
    if negb (remains =? 0) && (is_market || is_ioc) then
      Return (emplace (mkOrdering (ts_plus ts (sim_cxl_latency s)) 1) (cancel_event remains) s)
    else Next remains s
  else Next (o_size op) s.

(** What remains rests in the book. *)
Definition post (be : BookEntry D) (bb : BookBase) (remains : Z) s : Sim :=
  let s := if remains =? o_size op
           then emplace (at_time (ts_plus ts (sim_ack_latency s))) ack_event s else s in
  let at_px := to_fixed (o_price op) in
  set_book idx
    (if bool_decide (o_side op = BUY) then
       be <| be_bids := sm_emplace bid_order (o_price op)
               (mkSimOrder a (q_size (bb_l2_bid bb at_px)) 0 remains) (be_bids be) |>
     else
       be <| be_asks := sm_emplace ask_order (o_price op)
               (mkSimOrder a (q_size (bb_l2_ask bb at_px)) 0 remains) (be_asks be) |>) s.

Definition arrive_continuous (be : BookEntry D) (bb : BookBase) s : Sim :=
  let q := bb_best bb in
  let flow :=
    if bool_decide (o_side op = BUY) then
      cross_quote bid_order (be_bids be) (fq_ask q) (λ px, (px <=? o_price op)%dbl) s
    else if Side_to_Z BUY <? Side_to_Z (o_side op) then
      cross_quote ask_order (be_asks be) (fq_bid q) (λ px, (o_price op <=? px)%dbl) s
    else Next (o_size op) s in
  match flow with
  | Return s => s
  | GotoCancel => turned_away (o_size op) s
  | Next remains s =>
      if remains =? 0 then s
      else if is_market || (bool_decide (o_type op = LIMIT) && is_ioc) then turned_away remains s
      else post be bb remains s
  end.

(** Which sessions take auction orders. *)
Definition auction_open_allowed (m : MarketSession) : bool :=
  match m with MS_UNKNOWN | PREMARKET => true | _ => false end.
Definition auction_close_allowed (m : MarketSession) : bool :=
  match m with MS_UNKNOWN | PREMARKET | MARKET_HOURS => true | _ => false end.

Definition arrive_auction (be : BookEntry D) s : Sim :=
  let closing := bool_decide (o_tif op = AUCTION_CLOSE) in
  let allowed := if closing then auction_close_allowed (ss_session (be_state be))
                 else auction_open_allowed (ss_session (be_state be)) in
  if negb allowed then turned_away (o_size op) s
  else
    let so := mkSimOrder a 0 0 (o_size op) in
    let be :=
      if bool_decide (o_side op = BUY) then
        let price := if is_market then d_of_Z 500000 else o_price op in
        if closing then be <| be_close_bids := sm_emplace bid_order price so (be_close_bids be) |>
        else be <| be_open_bids := sm_emplace bid_order price so (be_open_bids be) |>
      else
        let price := if is_market then d0 else o_price op in
        if closing then be <| be_close_asks := sm_emplace ask_order price so (be_close_asks be) |>
        else be <| be_open_asks := sm_emplace ask_order price so (be_open_asks be) |> in
    emplace (at_time (ts_plus ts (sim_ack_latency s))) ack_event (set_book idx be s).

Definition on_order_sent s : res Sim :=
  let s := s <| sim_orders := <[o_localID op := a]> (sim_orders s) |> in
  match sim_books s !! Z.to_nat idx with
  | None => Fail (UndefinedBehaviour "m_books index out of range")
  | Some be =>
      let tradable := match ss_trading_state (be_state be) with
                      | TRADING | QUOTATION_ONLY => true | _ => false end in
      if negb (sim_ignore_trading_state s) && negb tradable then Ok (turned_away (o_size op) s)
      else if bool_decide (o_tif op = AUCTION_OPEN) || bool_decide (o_tif op = AUCTION_CLOSE)
      then Ok (arrive_auction be s)
      else match be_book be with
      | Some b => Ok (arrive_continuous be (books b) s)
      | None => Ok (turned_away (o_size op) s)
      end
  end.

(** A cancel request arrives. *)
Definition on_order_pending_cancel (se : SimEvent D) s : res Sim :=
  let reply e s := emplace (at_time (ts_plus ts (sim_cxl_latency s))) e s in
  let rejected := sim_event CANCEL_REJECTED a 0 0 d0 ts_zero in
  match sim_orders s !! o_localID op with
  | None => Ok (reply rejected s)
  | Some a' =>
      match o_state op with
      | SENT | ACKNOWLEDGED | PARTIALLY_FILLED | CANCEL_REPLACED | PENDING_CANCEL
      | PENDING_CANCEL_REPLACE =>
          match sim_books s !! Z.to_nat (se_esi se) with
          | None => Fail (UndefinedBehaviour "m_books index out of range")
          | Some be =>
              '(amt_cancelled, be) ←
                (if bool_decide (o_side op = BUY) then
                   '(n, b) ← reduce_helper bid_order (o_price op) a' (se_size se) (be_bids be);
                   Ok (n, be <| be_bids := b |>)
                 else
                   '(n, b) ← reduce_helper ask_order (o_price op) a' (se_size se) (be_asks be);
                   Ok (n, be <| be_asks := b |>));
              let s := set_book (se_esi se) be s in
              if amt_cancelled =? 0 then Ok (reply rejected s)
              else Ok (reply (sim_event CANCELLED a (se_esi se) amt_cancelled d0 ts_zero) s)
          end
      | _ => Ok (reply rejected s)
      end
  end.
End Arrival.

(** ** The event queue

    [m_order_manager_p] holds the session under [name]. *)

Section Queue.
Context (name : string) (books : Z → BookBase).
Abbreviation OM := (OrderManager D (L2SimSession D)).
Implicit Types (om : OrderManager D (L2SimSession D)).

(** Which of the events that may come first [top()] returns: the priority queue
    does not say for equal keys. *)
Context (top : list (Ordering * SimEvent D) → nat).

Definition on_session (f : Sim → res Sim) om : res OM :=
  s ← get_session_ref name om; s ← f s; Ok (put_session name s om).

Definition on_order_acknowledged (ts : Timestamp) (se : SimEvent D) om : res OM :=
  o ← get_order (se_order se) om;
  _ ← assert "se.order_p->state()"
        (bool_decide (o_state o = NEW_AND_UNSENT) || bool_decide (o_state o = SENT)
         || bool_decide (o_state o = PENDING_CANCEL));
  on_acknowledged (Some (se_order se)) (o_localID o) (o_size o) ts (nanoseconds_since_midnight ts) om.

Definition on_order_filled (ts : Timestamp) (se : SimEvent D) om : res OM :=
  o ← get_order (se_order se) om;
  _ ← assert "state() >= OrderState::ACKNOWLEDGED"
        (OrderState_to_Z ACKNOWLEDGED <=? OrderState_to_Z (o_state o));
  _ ← assert "ts >= last_response_time()"
        (negb (bool_decide (o_state o = ACKNOWLEDGED)) || ts_geb ts (o_last_response_time o));
  om ← on_fill (Some (se_order se)) (se_size se) (se_price se) ts
         (nanoseconds_since_midnight ts) FFC_UNKNOWN om;
  o ← get_order (se_order se) om;
  if o_open_size o =? 0
  then on_session (λ s, Ok (s <| sim_orders := delete (o_localID o) (sim_orders s) |>)) om
  else Ok om.

Definition on_order_cancel_rejected (ts : Timestamp) (se : SimEvent D) om : res OM :=
  on_cancel_rejected (Some (se_order se)) ts (nanoseconds_since_midnight ts) om.

Definition on_order_cancelled (ts : Timestamp) (se : SimEvent D) om : res OM :=
  o ← get_order (se_order se) om;
  _ ← assert "se.order_p->state()"
        (bool_decide (o_state o = ACKNOWLEDGED) || bool_decide (o_state o = SENT)
         || bool_decide (o_state o = PARTIALLY_FILLED) || bool_decide (o_state o = PENDING_CANCEL));
  om ← on_cancel (Some (se_order se)) (se_size se) ts (nanoseconds_since_midnight ts) om;
  _ ← assert "se.size <= se.order_p->size()" (se_size se <=? o_size o);
  if u32 (o_size o - se_size se) =? 0 then
    s ← get_session_ref name om;
    _ ← assert "it != m_orders.end()" (bool_decide (is_Some (sim_orders s !! o_localID o)));
    Ok (put_session name (s <| sim_orders := delete (o_localID o) (sim_orders s) |>) om)
  else Ok om.

Definition serve (k : Ordering) (se : SimEvent D) om : res OM :=
  let ts := ord_ts k in
  match se_state se with
  | SENT =>
      o ← get_order (se_order se) om;
      on_session (on_order_sent books ts (se_order se) (se_esi se) o) om
  | ACKNOWLEDGED => on_order_acknowledged ts se om
  | PENDING_CANCEL =>
      o ← get_order (se_order se) om;
      on_session (on_order_pending_cancel ts (se_order se) o se) om
  | CANCELLED => on_order_cancelled ts se om
  | CANCEL_REJECTED => on_order_cancel_rejected ts se om
  | FILLED => on_order_filled ts se om
  | _ => Ok om
  end.

(** [update_ts]: serves what is due before [ts].  [None]: out of fuel. *)
Fixpoint update_ts (fuel : nat) (ts : Timestamp) om : res (option OM) :=
  s ← get_session_ref name om;
  match sim_eventq s !! top (sim_eventq s) with
  | Some (k, se) =>
      if ts_gtb ts (ord_ts k) then
        match fuel with
        | O => Ok None
        | S fuel' =>
            let s := s <| sim_ts := ord_ts k |>
                       <| sim_eventq := delete (top (sim_eventq s)) (sim_eventq s) |> in
            om ← serve k se (put_session name s om);
            update_ts fuel' ts om
        end
      else Ok (Some (put_session name (s <| sim_ts := ts |>) om))
  | None => Ok (Some (put_session name (s <| sim_ts := ts |>) om))
  end.

Definition on_start_of_data (fuel : nat) (mic : MIC) (ts : Timestamp) om : res (option OM) :=
  s ← get_session_ref name om;
  if negb (bool_decide (mic = sim_mic s)) then Ok (Some om)
  else update_ts fuel ts (put_session name (s <| sim_exec_this_pkt := ∅ |>) om).
End Queue.
End Matching.
