(* ===== verification/Replay.v ===== *)
(** * Recovery from the order log (src/oe/OrderManager.cpp: [on_log_*],
      [extend_local_id], [adopt_order_helper], [adopt_orphan_order])

    At a restart the messages of the log are handed to the order manager, which
    rebuilds its orders and positions from them without writing them again. *)

From S2P Require Import Prelude Dbl Time Types Order Position Config Instrument FirmRisk.
From S2P Require Import OrderLog Blotter Session OrderManager.

Section Replay.
Context {D S : Type} `{Dbl D} `{OrderSession D S}.
Implicit Types (om : OrderManager D S) (o : Order D).

(** [extend_local_id]: the table grows with null slots. *)
Definition extend_local_id (lid : Z) om : res (OrderManager D S) :=
  _ ← assert "m_orders.size() == m_localID+1"
        (Z.of_nat (length (om_orders om)) =? u32 (om_localID om + 1));
  if Z.of_nat (length (om_orders om)) <? u32 (lid + 1) then
    Ok (om <| om_orders := om_orders om
                ++ replicate (Z.to_nat (u32 (lid + 1)) - length (om_orders om)) None |>
           <| om_localID := lid |>)
  else Ok om.

Definition extend_local_id_helper (oid : OrderIdentifier) om : res (bool * OrderManager D S) :=
  if oid_local_id oid <=? om_localID om then Ok (false, om)
  else om ← extend_local_id (oid_local_id oid) om; Ok (true, om).

(** [do_log] writes the order as sent. *)
Definition adopt_order_helper (op : option Z) (local_id : Z) (do_log : bool) om
    : res (OrderManager D S) :=
  _ ← assert "local_id < m_orders.size()" (local_id <? Z.of_nat (length (om_orders om)));
  om ← match op with
       | None => Ok om
       | Some a =>
           o ← get_order a om;
           let o := o <| o_localID := local_id |> in
           om ← order_adds o (o_size o) (put_order a o om);
           let o := o <| o_state := SENT |> in
           let om := put_order a o om in
           Ok (if do_log then blot (log_order_sent o) om else om)
       end;
  set_slot local_id op om.

Definition adopt_orphan_order (session_name : string) (local_id : Z) (op : option Z) om
    : res (bool * OrderManager D S) :=
  '(_, om) ← extend_local_id_helper (mkOid 0 local_id (string_to_session_name session_name)) om;
  om ← adopt_order_helper op local_id true om;
  Ok (true, om).

(** The session makes the stub, with the order manager's [create_order]. *)
Definition create_replay_order (ts : Timestamp) (b : NewOrderBody D) (s : S) om
    : S * option Z * OrderManager D S :=
  let '(o, s) := ss_create_replay_order ts (no_instrument_esi b) (MIC_of_index (no_market_mic b))
    (oid_local_account (no_oid b)) (oid_local_id (no_oid b)) (no_orig_price b) (no_size b)
    (default SIDE_UNKNOWN (Side_of_Z (no_side b)))
    (default TIF_UNKNOWN (TimeInForce_of_Z (no_tif b)))
    (default OT_UNKNOWN (OrderType_of_Z (no_type b))) (no_user_data b) s in
  match o with
  | None => (s, None, om)
  | Some o => let '(a, om) := create_order o om in (s, Some a, om)
  end.

Definition on_log_order_sent (ts : Timestamp) (b : NewOrderBody D) om : res (OrderManager D S) :=
  let id := oid_local_id (no_oid b) in
  match om_universe om !! no_instrument_esi b with
  | None => adopt_order_helper None id false om
  | Some _ =>
      let name := session_name_to_string (oid_session_name (no_oid b)) in
      let '(op, om) :=
        match om_sessions om !! name with
        | None => (None, om)
        | Some s =>
            let '(s, op, om) := create_replay_order ts b s om in
            (op, put_session name s om)
        end in
      '(extended, om) ← extend_local_id_helper (no_oid b) om;
      if extended : bool then adopt_order_helper op id false om else Ok om
  end.

Definition on_log_local_reject (b : NewOrderBody D) om : res (OrderManager D S) :=
  '(_, om) ← extend_local_id_helper (no_oid b) om; Ok om.

(** The handlers that look the order up. *)
Definition on_logged_order (oid : OrderIdentifier)
    (f : Z → Order D → OrderManager D S → res (OrderManager D S)) om : res (OrderManager D S) :=
  '(_, om) ← extend_local_id_helper oid om;
  p ← get_slot (oid_local_id oid) om;
  match p with
  | None => Ok om
  | Some a => o ← get_order a om; f a o om
  end.

Definition on_log_pending_cancel (b : OrderCxlReqBody) om : res (OrderManager D S) :=
  on_logged_order (cr_oid b) (λ a o om, Ok (put_order a (o <| o_state := PENDING_CANCEL |>) om)) om.

Definition on_log_destroy (oid : OrderIdentifier) om : res (OrderManager D S) :=
  on_logged_order oid (λ a o om,
    om ← set_slot (oid_local_id oid) None om; Ok (delete_order a om)) om.

Definition on_log_acknowledged (ts : Timestamp) (b : OrderAckBody) om : res (OrderManager D S) :=
  on_logged_order (ak_oid b) (λ a o om,
    Ok (put_order a (order_update_on_ack 0 (ak_open_size b) ts (ak_exchange_ts b) o) om)) om.

Definition on_log_rejected (ts : Timestamp) (b : OrderRejectBody) om : res (OrderManager D S) :=
  on_logged_order (rj_oid b) (λ a o om,
    let o := order_update_on_reject ts (rj_exchange_ts b) o in
    order_removes o (o_size o) (put_order a o om)) om.

Definition on_log_filled (ts : Timestamp) (partial_fill : bool) (b : OrderFillBody D) om
    : res (OrderManager D S) :=
  on_logged_order (fl_oid b) (λ a o om,
    let o := order_update_on_fill (fl_filled_qty b) (fl_filled_price b) ts (fl_exchange_ts b)
               (fl_filled_fee_code b) o in
    let fee := fee_from_fill o (fl_filled_qty b) (fl_filled_price b) in
    firm_event (o_instrument o) (on_order_fill o (fl_filled_qty b) (fl_filled_price b) fee)
      (put_order a o om)) om.

Definition on_log_cancel_rejected (ts : Timestamp) (b : OrderRejectBody) om
    : res (OrderManager D S) :=
  on_logged_order (rj_oid b) (λ a o om,
    Ok (put_order a (o <| o_state := CANCEL_REJECTED |> <| o_last_response_time := ts |>) om)) om.

Definition on_log_cancelled (ts : Timestamp) (b : OrderCxlBody) om : res (OrderManager D S) :=
  on_logged_order (cx_oid b) (λ a o om,
    let o := order_update_on_cancel (cx_cxled_qty b) ts (cx_exchange_ts b) o in
    order_removes o (cx_cxled_qty b) (put_order a o om)) om.

Definition on_log_manual_position_adj (b : ManualPositionAdjBody) om : OrderManager D S :=
  manual_position_adj (ma_esi b) (ma_delta_start_qty b) (ma_delta_trading_qty b) om.

(** [BlotterReader::decode] to the order manager as a listener; the messages it
    does not override, and those it ignores, change nothing. *)
Definition on_message (m : Message D) om : res (OrderManager D S) :=
  let ts := m_timestamp m in
  match m_body m with
  | LB_ORDER_SENT b => on_log_order_sent ts b om
  | LB_ORDER_LOCAL_REJECT b => on_log_local_reject b om
  | LB_ORDER_CANCEL_REQUEST b => on_log_pending_cancel b om
  | LB_ORDER_DESTROY oid => on_log_destroy oid om
  | LB_ORDER_ACKNOWLEDGEMENT b => on_log_acknowledged ts b om
  | LB_ORDER_REMOTE_REJECT b => on_log_rejected ts b om
  | LB_ORDER_FILL b => on_log_filled ts false b om
  | LB_ORDER_PARTIAL_FILL b => on_log_filled ts true b om
  | LB_ORDER_CANCEL_REJECT b => on_log_cancel_rejected ts b om
  | LB_ORDER_CANCEL b => on_log_cancelled ts b om
  | LB_MANUAL_POSITION_ADJ b => Ok (on_log_manual_position_adj b om)
  | _ => Ok om
  end.
Definition recover (ms : list (Message D)) om : res (OrderManager D S) :=
  foldM (λ om m, on_message m om) om ms.
End Replay.
