(* ===== verification/Ouch42Handler.v ===== *)
(** * What comes in on an OUCH 4.2 session (src/oe/NASDAQ/OUCH42Session.cpp:
      [dispatch_packet], [handle_packet], [create_replay_order], [on_recv])

    Sequenced messages drive the order manager.  A message is read where the code
    reads it: from the packet's start to the end of what the read delivered, so
    that a cast to a struct longer than the packet sees the bytes behind it, and
    one past the end of the buffer is undefined. *)

From S2P Require Import Prelude Dbl Time Types Order Codec SoupBin Ouch42Wire OrderLog.
From S2P Require Import Session SessionKit Ouch42 OrderManager Replay.

(** [sizeof(SequencedDataPacket)] *)
Definition SEQUENCED_SIZE : nat := 3.

(** [expected_len] *)
Definition expected_len (t : OutboundMessageType) : nat :=
  match t with
  | ACCEPTED => c_size c_Accepted
  | REPLACED => c_size c_Rejected
  | CANCELED => c_size c_Canceled
  | AIQ_CANCELLED => c_size c_AIQCanceled
  | EXECUTED => c_size c_Executed
  | BROKEN_TRADE => c_size c_BrokenTrade
  | REJECTED => c_size c_Rejected
  | CANCEL_PENDING => c_size c_CancelPending
  | CANCEL_REJECT => c_size c_CancelReject
  | ORDER_PRIORITY_UPDATE => c_size c_OrderPriorityUpdate
  | ORDER_MODIFIED => c_size c_Modified
  | SYSTEM_EVENT => c_size c_MH
  end.

(** The marking of an order that the risk gateway turned away. *)
Definition HPR_REJECTED : Z := 90.

Section Handler.
Context {D S E : Type} `{Dbl D} `{!OrderSession D S} `{Connection E}.
Implicit Types (om : OrderManager D S) (o : Order D) (s : OUCH42Session E).

(** Assignments to members of a [NASDAQOrder]. *)
Definition set_nasdaq (a : Z) (g : NASDAQFields → Order D → Order D) om : res (OrderManager D S) :=
  o ← get_order a om;
  match o_kind o with
  | NASDAQOrder nq => Ok (put_order a (g nq o) om)
  | _ => Fail (UndefinedBehaviour "static_cast to NASDAQOrder")
  end.

Definition find_instrument (stock : list Z) s : option Z := ou_symbol_inst_cache s !! stock.

(** [create_replay_order]: an order that the exchange knows and we do not. *)
Definition ouch_create_replay_order (ts : Timestamp) (id : Z) (msg : Accepted) s om
    : res (OUCH42Session E * OrderManager D S) :=
  match find_instrument (ac_stock msg) s with
  | None => Ok (s, om)
  | Some inst =>
      let '(o, s) := on_create_replay_order ts inst (ou_mic s) 0 id (get_limit (ac_price msg))
        (ac_shares msg) (to_i01_side (ac_buy_sell_indicator msg))
        (to_i01_tif (ac_time_in_force msg)) LIMIT 0 s in
      let '(op, om) := match o with
                       | None => (None, om)
                       | Some o => let '(a, om) := create_order o om in (Some a, om)
                       end in
      '(_, om) ← adopt_orphan_order (ou_name s) id op om;
      Ok (s, om)
  end.

(** ** The second switch: messages about an order we know *)

Definition accepted_tif (m : Accepted) : TimeInForce :=
  let tif := htonl (ac_time_in_force m) in
  if tif =? TIFS_IMMEDIATE_OR_CANCEL then
    if ac_cross_type m =? CLOSING_CROSS then AUCTION_CLOSE
    else if ac_cross_type m =? OPENING_CROSS then AUCTION_OPEN
    else if ac_cross_type m =? HALT_OR_IPO_CROSS then AUCTION_HALT
    else if ac_minimum_quantity m =? ac_shares m then FILL_OR_KILL else IMMEDIATE_OR_CANCEL
  else if tif =? TIFS_MARKET_HOURS then DAY
  else if tif =? TIFS_SYSTEM_HOURS then EXT else TIMED.

(** What an acceptance says about the order, which is written over it. *)
Definition accepted_fields (m : Accepted) (nq : NASDAQFields) o : Order D :=
  let nq := if bool_decide (accepted_tif m = TIMED)
            then nq <| nq_tif_timed := htonl (ac_time_in_force m) |> else nq in
  let nq := nq <| nq_display := ac_display m |> <| nq_capacity := ac_capacity m |>
               <| nq_iso_eligible := ac_iso_eligibility m =? ISO_ELIGIBLE |>
               <| nq_min_size := ac_minimum_quantity m |>
               <| nq_bbo_weight_indicator := Some (ac_bbo_weight_indicator m) |> in
  o <| o_price := get_limit (ac_price m) |> <| o_tif := accepted_tif m |>
    <| o_kind := NASDAQOrder nq |>.

Definition handle_accepted (ts : Timestamp) (m : Accepted) (a : Z) om : res (OrderManager D S) :=
  om ← set_nasdaq a (accepted_fields m) om;
  let xts := omh_exch_time (ac_hdr m) in
  if ac_order_state m =? STATE_LIVE then
    on_acknowledged (Some a) (ac_order_reference_number m) (ac_shares m) ts xts om
  else if ac_order_state m =? STATE_DEAD then
    om ← on_acknowledged (Some a) (ac_order_reference_number m) (ac_shares m) ts xts om;
    o ← get_order a om;
    om ← on_cancel (Some a) (o_size o) ts xts om;
    o ← get_order a om;
    Ok (put_order a (o <| o_state := CANCELLED |>) om)
  else Ok om.

Definition mark_replaced (p : Z) om : res (OrderManager D S) :=
  o ← get_order p om; Ok (put_order p (o <| o_state := CANCEL_REPLACED |>) om).

Definition handle_replaced (name : string) (ts : Timestamp) (m : Replaced) (a : Z) om
    : res (OrderManager D S) :=
  let previd := token_id (re_previous_order_token m) in
  let xts := omh_exch_time (re_hdr m) in
  po ← session_get_order name previd om;
  match po with
  | None => Ok om
  | Some p =>
      om ← mark_replaced p om;
      o ← get_order p om;
      om ← on_cancel (Some p) (o_open_size o) ts xts om;
      om ← mark_replaced p om;
      o ← get_order a om;
      if (re_order_state m =? STATE_DEAD) && negb (is_terminal o) then
        on_cancel (Some a) (o_open_size o) ts xts om
      else if re_order_state m =? STATE_LIVE then
        on_acknowledged (Some a) (re_order_reference_number m) (re_shares m) ts xts om
      else Ok om
  end.

Definition canceled_fields (reason : Z) (nq : NASDAQFields) o : Order D :=
  o <| o_kind := NASDAQOrder (nq <| nq_cancel_reason := Some reason |>) |>.
Definition handle_canceled (ts : Timestamp) (m : Canceled) (a : Z) om : res (OrderManager D S) :=
  om ← set_nasdaq a (canceled_fields (ca_reason m)) om;
  on_cancel (Some a) (ca_decremented_shares m) ts (omh_exch_time (ca_hdr m)) om.

Definition executed_fields (m : Executed) (nq : NASDAQFields) o : Order D :=
  o <| o_kind := NASDAQOrder (nq <| nq_liquidity_flag := ex_liquidity_flag m |>
                                <| nq_match_number := ex_match_number m |>) |>.
Definition handle_executed (ts : Timestamp) (m : Executed) (a : Z) om : res (OrderManager D S) :=
  om ← set_nasdaq a (executed_fields m) om;
  on_fill (Some a) (ex_executed_shares m) (get_limit (ex_execution_price m)) ts
    (omh_exch_time (ex_hdr m)) (ex_liquidity_flag m) om.

Definition handle_priority_update (m : OrderPriorityUpdate) (a : Z) om : res (OrderManager D S) :=
  set_nasdaq a (λ nq o,
    o <| o_price := get_limit (pu_execution_price m) |>
      <| o_kind := NASDAQOrder (nq <| nq_display := pu_display m |>) |>
      <| o_exchangeID := pu_order_reference_number m |>) om.

Definition handle_modified (ts : Timestamp) (m : Modified) (a : Z) om : res (OrderManager D S) :=
  let side := to_i01_side (md_buy_sell_indicator m) in
  if bool_decide (side = SIDE_UNKNOWN) then Ok om
  else
    o ← get_order a om;
    Ok (put_order a (o <| o_side := side |> <| o_open_size := md_shares m |>
                       <| o_last_response_time := ts |>
                       <| o_last_exchange_time := omh_exch_time (md_hdr m) |>) om).

Definition handle_order_message (name : string) (t : OutboundMessageType) (ts : Timestamp)
    (mh : list Z) (a : Z) om : res (OrderManager D S) :=
  match t with
  | ACCEPTED => m ← reading c_Accepted mh; handle_accepted ts m a om
  | REPLACED => m ← reading c_Replaced mh; handle_replaced name ts m a om
  | AIQ_CANCELLED | CANCELED => m ← reading c_Canceled mh; handle_canceled ts m a om
  | EXECUTED => m ← reading c_Executed mh; handle_executed ts m a om
  | BROKEN_TRADE => _ ← reading c_BrokenTrade mh; Ok om
  | REJECTED =>
      m ← reading c_Rejected mh; on_rejected (Some a) ts (omh_exch_time (rj_hdr m)) om
  | CANCEL_PENDING =>
      m ← reading c_CancelPending mh; on_cancel_rejected (Some a) ts (omh_exch_time (cp_hdr m)) om
  | CANCEL_REJECT =>
      m ← reading c_CancelReject mh; on_cancel_rejected (Some a) ts (omh_exch_time (cj_hdr m)) om
  | ORDER_PRIORITY_UPDATE => m ← reading c_OrderPriorityUpdate mh; handle_priority_update m a om
  | ORDER_MODIFIED => m ← reading c_Modified mh; handle_modified ts m a om
  | SYSTEM_EVENT => _ ← reading c_SystemEvent mh; Ok om
  end.

(** ** The first switch: whose order the message is about *)

(** [Done] is an early return; [Known] is the order, null when the packet is too
    short for a token. *)
Inductive Verdict := Done (s : OUCH42Session E) (om : OrderManager D S) | Known (op : option Z).

Definition order_token_check (t : OutboundMessageType) (ts : Timestamp) (mh : list Z) (len : nat)
    s om : res Verdict :=
  if (len <? SEQUENCED_SIZE + c_size c_OMH)%nat then Ok (Known None)
  else
    omh ← reading c_OMH mh;
    let marking := hpr_marking (omh_order_token omh) in
    let id := token_id (omh_order_token omh) in
    op ← session_get_order (ou_name s) id om;
    if id =? 0 then Ok (Done s om)
    else match op with
    | Some a =>
        if marking =? HPR_REJECTED then
          om ← on_rejected (Some a) ts (omh_exch_time omh) om; Ok (Done s om)
        else Ok (Known (Some a))
    | None =>
        if bool_decide (t = ACCEPTED) then
          if marking =? HPR_REJECTED then
            '(_, om) ← adopt_orphan_order (ou_name s) id None om; Ok (Done s om)
          else
            m ← reading c_Accepted mh;
            '(s, om) ← ouch_create_replay_order ts id m s om; Ok (Done s om)
        else Ok (Done s om)
    end.

(** [handle_packet(SequencedDataPacket)] *)
Definition handle_sequenced (ts : Timestamp) (buf : list Z) (len : nat) s om
    : res (OUCH42Session E * OrderManager D S) :=
  let s := s <| ou_last_seqnum_received := u64 (ou_last_seqnum_received s + 1) |> in
  if (len <=? SEQUENCED_SIZE)%nat then Ok (s, om)
  else
    let mh := drop SEQUENCED_SIZE buf in
    match OutboundMessageType_of_Z (default 0 (head mh)) with
    | None => Ok (s, om)
    | Some t =>
        verdict ← (if bool_decide (t = SYSTEM_EVENT) then Ok (Known None)
                   else order_token_check t ts mh len s om);
        match verdict with
        | Done s om => Ok (s, om)
        | Known op =>
            if (len <? SEQUENCED_SIZE + expected_len t)%nat then Ok (s, om)
            else
              om ← (if bool_decide (t = SYSTEM_EVENT) then _ ← reading c_SystemEvent mh; Ok om
                    else match op with
                    | Some a => handle_order_message (ou_name s) t ts mh a om
                    | None => Fail (UndefinedBehaviour "null order")
                    end);
              Ok (s, om)
        end
    end.

(** ** Packets and reads *)

(** The switch of [dispatch_packet]. *)
Definition handle_packet (ts : Timestamp) (p : Packet) s om
    : res (OUCH42Session E * OrderManager D S) :=
  let body := drop PACKET_HEADER_SIZE (pk_buf p) in
  match DownstreamPacketType_of_Z (default 0 (pk_buf p !! 2%nat)) with
  | Some LOGIN_ACCEPT => msg ← reading c_LoginAccept body; Ok (handle_login_accept msg s, om)
  | Some LOGIN_REJECT => _ ← reading (c_uint 1) body; Ok (handle_login_reject s, om)
  | Some SEQUENCED_DATA => handle_sequenced ts (pk_buf p) (pk_len p) s om
  | Some SERVER_HEARTBEAT => Ok (handle_server_heartbeat s, om)
  | Some END_OF_SESSION => Ok (handle_end_of_session s, om)
  | Some PT_DEBUG | None => Ok (s, om)
  end.

Definition handle_packets (ts : Timestamp) (ps : list Packet) s om
    : res (OUCH42Session E * OrderManager D S) :=
  foldM (λ st p, handle_packet ts p st.1 st.2) (s, om) ps.

(** [on_recv] *)
Definition session_on_recv (ts : Timestamp) (buf : list Z) s om
    : res (OUCH42Session E * OrderManager D S) :=
  let s := s <| ou_last_message_received_ts := ts |> in
  '(dangly, ps) ← on_recv (ou_dangly s) buf;
  '(s, om) ← handle_packets ts ps s om;
  Ok (s <| ou_dangly := dangly |>, om).
End Handler.
