(* ===== verification/Boe20Handler.v ===== *)
(** * What comes in on a BOE 2.0 session (src/oe/BATS/BOE20Session.cpp:
      [handle_raw_msg], the overloads of [handle_msg], [on_recv])

    Messages drive the order manager.  A message is read where the code reads it:
    from its start to the end of the bytes that are there, so that a struct longer
    than the message sees the bytes behind it, and one past the end of the buffer
    is undefined.  The optional fields are read through the struct of the message,
    behind the eight bytes of bits, whatever these bits say. *)

From S2P Require Import Prelude Dbl Time Types Order Codec Boe20Wire Boe20Framing OrderLog.
From S2P Require Import Session SessionKit Boe20 OrderManager Replay.
Open Scope Z_scope.

(** [InboundMsgBuffer::opt] of a message whose fixed part is [size] long. *)
Definition opt_of (size : nat) (buf : list Z) : list Z := drop (size + 8) buf.
(** Reading a member that is an array. *)
Definition reading_opt_array (layout : list OptField) (f : OptField) (buf : list Z) : res (list Z) :=
  if (length buf <? opt_offset layout f + width f)%nat
  then Fail (UndefinedBehaviour "field read past the received bytes")
  else Ok (opt_read layout f buf).

Definition LOGIN_ACCEPTED : Z := 65.

Section Handler.
Context {D S E : Type} `{Dbl D} `{!OrderSession D S} `{Connection E}.
Implicit Types (om : OrderManager D S) (s : BOE20Session E) (ts : Timestamp) (buf : list Z).

Definition boe_find_instrument (symbol : list Z) s : option Z := bo_symbol_inst_cache s !! symbol.

(** [m_persist_state->data()->inbound_seqnum[unit] = sequence_number] *)
Definition saw_sequence (h : BoeHeader) s : BOE20Session E :=
  s <| bo_inbound_seqnum :=
         <[Z.to_nat (h_matching_unit h) := h_sequence_number h]> (bo_inbound_seqnum s) |>.

(** The loops over [confirm_unit_sequence], which compares and prints. *)
Definition confirm_units (n : Z) (units : list Z) : res () :=
  if Z.of_nat (length units) <? n * 5
  then Fail (UndefinedBehaviour "unit sequence read past the received bytes") else Ok ().

Definition handle_login_response buf s : res (BOE20Session E) :=
  msg ← reading c_LoginResponse buf;
  if negb (ls_login_response_status msg =? LOGIN_ACCEPTED) then Ok (s <| bo_state := UNCONNECTED |>)
  else
    let s := s <| bo_state := REPLAY |>
               <| bo_outbound_seqnum := u32 (ls_last_received_sequence_number msg + 1) |> in
    _ ← confirm_units (ls_number_of_units msg) (drop (c_size c_LoginResponse) buf);
    Ok s.
Definition handle_logout buf s : res (BOE20Session E) :=
  msg ← reading c_Logout buf;
  _ ← confirm_units (lo_number_of_units msg) (drop (c_size c_Logout) buf);
  Ok (disconnect_connection false s).
Definition handle_replay_complete s : BOE20Session E :=
  s <| bo_state := ACTIVE |> <| bo_active := true |>.

(** ** Messages about orders *)

Definition op_of (m : OrderMessage) s om : res (option Z) :=
  session_get_order (bo_name s) (get_local_id (oh_cl_ord_id m)) om.

Definition handle_riskbot_reject ts (m : OrderMessage) (op : option Z) s om
    : res (OrderManager D S) :=
  if bool_decide (bo_state s = REPLAY) then
    '(_, om) ← adopt_orphan_order (bo_name s) (get_local_id (oh_cl_ord_id m)) None om; Ok om
  else match op with
  | None => Ok om
  | Some a => on_rejected (Some a) ts (oh_transaction_time m) om
  end.

(** Whether the risk gateway turned the order away: it marks the id and rewrites
    the size and the symbol. *)
Definition is_riskbot_reject (m : OrderMessage) (opt : list Z) : res bool :=
  if negb (broker_loc (oh_cl_ord_id m) =? HPR_REJECT_BROKER_LOC) then Ok false
  else
    qty ← reading_opt OrderAcknowledgment_opt F_ORDER_QTY opt;
    if negb (qty =? HPR_REJECT_ORDER_SIZE) then Ok false
    else
      symbol ← reading_opt_array OrderAcknowledgment_opt F_SYMBOL opt;
      Ok (bool_decide (symbol = HPR_REJECT_SYMBOL)).

(** An order that the exchange knows and we do not, and whether it was adopted. *)
Definition boe_adopt_unknown ts (m : OrderMessage) (inst : Z) (opt : list Z) s om
    : res (bool * option Z * BOE20Session E * OrderManager D S) :=
  let layout := OrderAcknowledgment_opt in
  let id := get_local_id (oh_cl_ord_id m) in
  price ← reading_opt layout F_PRICE opt;
  leaves ← reading_opt layout F_LEAVES_QTY opt;
  side ← reading_opt layout F_SIDE opt;
  tif ← reading_opt layout F_TIME_IN_FORCE opt;
  type ← reading_opt layout F_ORD_TYPE opt;
  let '(o, s) := boe_create_replay_order ts inst (bo_mic s) 0 id (price_to_double price) leaves
    (to_side side) (to_tif tif) (to_ord_type type) 0 s in
  let '(op, om) := match o with
                   | None => (None, om)
                   | Some o => let '(a, om) := create_order o om in (Some a, om)
                   end in
  '(adopted, om) ← adopt_orphan_order (bo_name s) id op om;
  Ok (adopted, op, s, om).

Definition handle_order_acknowledgment ts buf s om : res (BOE20Session E * OrderManager D S) :=
  msg ← reading c_OrderAcknowledgment buf;
  let m := oa_message msg in
  let opt := opt_of (c_size c_OrderAcknowledgment) buf in
  let s := saw_sequence (oh_message_header m) s in
  op ← op_of m s om;
  riskbot ← is_riskbot_reject m opt;
  if riskbot : bool then om ← handle_riskbot_reject ts m op s om; Ok (s, om)
  else
    let acknowledged op s om :=
      leaves ← reading_opt OrderAcknowledgment_opt F_LEAVES_QTY opt;
      om ← on_acknowledged op (oa_order_id msg) leaves ts (oh_transaction_time m) om;
      Ok (s, om) in
    match op with
    | None =>
        if bool_decide (bo_state s = REPLAY) then
          symbol ← reading_opt_array OrderAcknowledgment_opt F_SYMBOL opt;
          match boe_find_instrument symbol s with
          | None => Ok (s, om)
          | Some inst =>
              '(adopted, op, s, om) ← boe_adopt_unknown ts m inst opt s om;
              if adopted : bool then acknowledged op s om else Ok (s, om)
          end
        else acknowledged None s om
    | Some a => acknowledged (Some a) s om
    end.

Definition handle_order_rejected ts buf s om : res (OrderManager D S) :=
  msg ← reading c_OrderRejected buf;
  op ← op_of (or_message msg) s om;
  on_rejected op ts (oh_transaction_time (or_message msg)) om.

(** What an order has left when the exchange says how much it has left. *)
Definition cancel_to (leaves : Z) (a : Z) ts (xts : Z) om : res (OrderManager D S) :=
  o ← get_order a om; on_cancel (Some a) (u32 (o_open_size o - leaves)) ts xts om.

Definition handle_order_modified ts buf s om : res (BOE20Session E * OrderManager D S) :=
  msg ← reading c_OrderAcknowledgment buf;
  let m := oa_message msg in
  let s := saw_sequence (oh_message_header m) s in
  op ← op_of m s om;
  match op with
  | None => Ok (s, om)
  | Some a =>
      leaves ← reading_opt OrderModified_opt F_LEAVES_QTY (opt_of (c_size c_OrderAcknowledgment) buf);
      o ← get_order a om;
      if leaves =? o_open_size o then Ok (s, om)
      else om ← cancel_to leaves a ts (oh_transaction_time m) om; Ok (s, om)
  end.
Definition handle_order_restated ts buf s om : res (BOE20Session E * OrderManager D S) :=
  msg ← reading c_OrderRestated buf;
  let m := rs_message msg in
  let s := saw_sequence (oh_message_header m) s in
  op ← op_of m s om;
  match op with
  | None => Ok (s, om)
  | Some a =>
      let opt := opt_of (c_size c_OrderRestated) buf in
      leaves ← reading_opt OrderRestated_opt F_LEAVES_QTY opt;
      if leaves =? 0 then
        qty ← reading_opt OrderRestated_opt F_ORDER_QTY opt;
        om ← on_cancel (Some a) qty ts (oh_transaction_time m) om; Ok (s, om)
      else Ok (s, om)
  end.
(** [UserModifyRejected] and [CancelRejected] *)
Definition handle_cancel_rejected ts buf s om : res (OrderManager D S) :=
  msg ← reading c_OrderRejected buf;
  op ← op_of (or_message msg) s om;
  on_cancel_rejected op ts (oh_transaction_time (or_message msg)) om.
Definition handle_order_cancelled ts buf s om : res (BOE20Session E * OrderManager D S) :=
  msg ← reading c_OrderCancelled buf;
  let m := oc_message msg in
  let s := saw_sequence (oh_message_header m) s in
  op ← op_of m s om;
  match op with
  | None => Ok (s, om)
  | Some a =>
      o ← get_order a om;
      if bool_decide (o_state o = REMOTELY_REJECTED) then Ok (s, om)
      else
        leaves ← reading_opt OrderCancelled_opt F_LEAVES_QTY (opt_of (c_size c_OrderCancelled) buf);
        om ← cancel_to leaves a ts (oh_transaction_time m) om; Ok (s, om)
  end.
Definition handle_order_execution ts buf s om : res (BOE20Session E * OrderManager D S) :=
  msg ← reading c_OrderExecution buf;
  let m := oe_message msg in
  let s := saw_sequence (oh_message_header m) s in
  op ← op_of m s om;
  om ← on_fill op (oe_last_shares msg) (price_to_double (oe_last_px msg)) ts (oh_transaction_time m)
         FFC_UNKNOWN om;
  Ok (s, om).
Definition handle_trade_cancel_or_correct ts buf s om : res (BOE20Session E * OrderManager D S) :=
  msg ← reading c_TradeCancelOrCorrect buf;
  Ok (saw_sequence (oh_message_header (tc_message msg)) s, om).

(** ** Any message *)

Definition boe_handle_message (t : option BoeMessageType) ts buf s om
    : res (BOE20Session E * OrderManager D S) :=
  let managed r := om ← r; Ok (s, om) in
  match t with
  | Some LOGIN_RESPONSE_V2 => s ← handle_login_response buf s; Ok (s, om)
  | Some LOGOUT => s ← handle_logout buf s; Ok (s, om)
  | Some CLIENT_HEARTBEAT | Some SERVER_HEARTBEAT => Ok (s, om)
  | Some REPLAY_COMPLETE => Ok (handle_replay_complete s, om)
  | Some ORDER_ACKNOWLEDGMENT_V2 => handle_order_acknowledgment ts buf s om
  | Some ORDER_REJECTED_V2 => managed (handle_order_rejected ts buf s om)
  | Some ORDER_MODIFIED_V2 => handle_order_modified ts buf s om
  | Some ORDER_RESTATED_V2 => handle_order_restated ts buf s om
  | Some USER_MODIFY_REJECTED_V2 | Some CANCEL_REJECTED_V2 => managed (handle_cancel_rejected ts buf s om)
  | Some ORDER_CANCELLED_V2 => handle_order_cancelled ts buf s om
  | Some ORDER_EXECUTION_V2 => handle_order_execution ts buf s om
  | Some TRADE_CANCEL_OR_CORRECT_V2 => handle_trade_cancel_or_correct ts buf s om
  | _ => Ok (disconnect_connection false s, om)
  end.
(** [handle_raw_msg] *)
Definition handle_raw_msg ts buf s om : res (BOE20Session E * OrderManager D S) :=
  start ← reading (c_uint 2) buf;
  _ ← assert "START_OF_MESSAGE_SENTINEL" (start =? START_OF_MESSAGE_SENTINEL);
  type ← reading (c_uint 1) (drop 4 buf);
  '(s, om) ← boe_handle_message (BoeMessageType_of_Z type) ts buf s om;
  Ok (s <| bo_last_message_recv_ts := ts |>, om).

Definition handle_raw_event ts (ev : RawEvent) s om : res (BOE20Session E * OrderManager D S) :=
  match ev with
  | RawMsg buf _ => handle_raw_msg ts buf s om
  | SentinelMismatch => Ok (disconnect_connection false s, om)
  end.
Definition handle_raw_events ts (evs : list RawEvent) s om : res (BOE20Session E * OrderManager D S) :=
  foldM (λ st ev, handle_raw_event ts ev st.1 st.2) (s, om) evs.
(** [on_recv] *)
Definition boe_on_recv ts buf s om : res (BOE20Session E * OrderManager D S) :=
  '(dangly, evs) ← handle_raw_bytes (bo_dangly s) buf;
  '(s, om) ← handle_raw_events ts evs s om;
  Ok (s <| bo_dangly := dangly |>, om).
End Handler.
