(* ===== verification/OrderInvariant.v ===== *)
(** * The order book-keeping invariant

    Against an exchange that answers as exchanges do (an order is acknowledged
    or rejected once, fills and cancels never exceed what is open), the order
    manager keeps its local ids dense, the sizes of every order adding up, and
    the open sizes of every position equal to what its live orders have
    outstanding; and no assertion of the code can fail. *)

From S2P Require Import Prelude Dbl Time Types Order Position Config Instrument FirmRisk.
From S2P Require Import OrderLog Blotter Session OrderManager.

(** ** What an order contributes to its position *)

Section Exposure.
Context {D : Type} `{Dbl D}.
Implicit Types o : Order D.

(** Where an order is in its life; [Working f c] has [f] shares filled and [c]
    cancelled. *)
Inductive Phase := Unsent | Rejected | AtExchange | Working (filled cancelled : Z).
#[export] Instance Phase_eq_dec : EqDecision Phase.
Proof. solve_decision. Defined.
Definition phase_of o : Phase :=
  match o_state o with
  | NEW_AND_UNSENT => Unsent
  | LOCALLY_REJECTED | REMOTELY_REJECTED => Rejected
  | SENT => AtExchange
  | _ => Working (o_filled_size o) (o_cancelled_size o)
  end.
Definition phase_outstanding (size : Z) (ph : Phase) : Z :=
  match ph with
  | Unsent | Rejected => 0
  | AtExchange => size
  | Working f c => size - f - c
  end.
Definition outstanding o : Z := phase_outstanding (o_size o) (phase_of o).

(** By side ([true] for buys) and instrument. *)
Definition contrib (b : bool) (esi : Z) o : Z :=
  if bool_decide (esi = o_instrument o) && eqb b (is_buy (o_side o)) then outstanding o else 0.
Definition exposed (b : bool) (esi : Z) (heap : gmap Z (Order D)) : Z :=
  zsum (λ _ o, contrib b esi o) heap.

(** No size has been accepted by the exchange. *)
Definition unacked o : Prop :=
  o_open_size o = 0 /\ o_filled_size o = 0 /\ o_cancelled_size o = 0.

(** Given to a session under a local id. *)
Definition placed o : Prop := is_Some (o_session o) /\ o_localID o ≠ 0.

(** The sizes of one order. *)
Definition sizes_ok o : Prop :=
  0 <= o_size o < 2 ^ 32
  /\ match phase_of o with
     | Unsent | Rejected => unacked o
     | AtExchange => unacked o /\ 0 < o_size o /\ placed o
     | Working f c => 0 <= f /\ 0 <= c /\ f + c <= o_size o
         /\ o_open_size o = o_size o - f - c /\ 0 < o_size o /\ placed o
     end.

Lemma outstanding_range o : sizes_ok o → 0 <= outstanding o <= o_size o.
Proof. unfold sizes_ok, outstanding. destruct (phase_of o); cbn; lia. Qed.

Lemma exposed_update b esi h a o o' : h !! a = Some o →
  exposed b esi (<[a := o']> h) = exposed b esi h - contrib b esi o + contrib b esi o'.
Proof.
  intros Ha. unfold exposed. rewrite (msum_take _ _ _ h a o Ha).
  rewrite (msum_replace _ _ _ h a o o' Ha). lia.
Qed.

Lemma exposed_insert b esi h a o : h !! a = None →
  exposed b esi (<[a := o]> h) = exposed b esi h + contrib b esi o.
Proof. intros Ha. unfold exposed. rewrite msum_insert by (done || apply _). lia. Qed.

Lemma exposed_delete b esi h a o : h !! a = Some o →
  exposed b esi (delete a h) = exposed b esi h - contrib b esi o.
Proof. intros Ha. unfold exposed. rewrite (msum_take _ _ _ h a o Ha). lia. Qed.

Lemma contrib_le_exposed b esi h a o :
  (∀ a o, h !! a = Some o → sizes_ok o) → h !! a = Some o → contrib b esi o <= exposed b esi h.
Proof.
  intros Hall Ha. unfold exposed. refine (zsum_term_le _ h a o _ Ha).
  intros k x Hx. unfold contrib. case_if; [|lia]. eapply outstanding_range, Hall, Hx.
Qed.

(** Orders that differ in other fields count the same. *)
Lemma contrib_same b esi o o' :
  o_instrument o' = o_instrument o → is_buy (o_side o') = is_buy (o_side o) →
  outstanding o' = outstanding o → contrib b esi o' = contrib b esi o.
Proof. unfold contrib. by intros -> -> ->. Qed.
Lemma contrib_zero b esi o : outstanding o = 0 → contrib b esi o = 0.
Proof. unfold contrib. intros ->. by case_if. Qed.

Definition pos_open (b : bool) (p : Position D) : Z :=
  if b then p_open_long_size p else p_open_short_size p.

(** What the firm check does to the open sizes. *)
Lemma adds_open o n f p f' p' : on_order_adds o n f p = (f', p') →
  pos_open (is_buy (o_side o)) p' = u32 (pos_open (is_buy (o_side o)) p + n)
  /\ pos_open (negb (is_buy (o_side o))) p' = pos_open (negb (is_buy (o_side o))) p.
Proof. unfold on_order_adds. by destruct (is_buy (o_side o)); intros [= _ <-]. Qed.

Lemma removes_open o n f p : n <= pos_open (is_buy (o_side o)) p →
  ∃ f' p', on_order_removes o n f p = Ok (f', p')
    /\ pos_open (is_buy (o_side o)) p' = u32 (pos_open (is_buy (o_side o)) p - n)
    /\ pos_open (negb (is_buy (o_side o))) p' = pos_open (negb (is_buy (o_side o))) p.
Proof.
  unfold on_order_removes, sub_open_buys, sub_open_sells, assert. cbn [pos_open].
  destruct (is_buy (o_side o)); cbn [pos_open negb]; intros Hn;
    rewrite (proj2 (Z.leb_le _ _) Hn); cbn [mbind res_bind]; by do 2 eexists.
Qed.

Lemma fill_open o n px fee f p : n <= pos_open (is_buy (o_side o)) p →
  ∃ f' p', on_order_fill o n px fee f p = Ok (f', p')
    /\ pos_open (is_buy (o_side o)) p' = u32 (pos_open (is_buy (o_side o)) p - n)
    /\ pos_open (negb (is_buy (o_side o))) p' = pos_open (negb (is_buy (o_side o))) p.
Proof.
  intros Hn. unfold on_order_fill. set (p1 := update_realized_and_unrealized_pnl _ _ _ _ p).
  assert (∀ b, pos_open b p1 = pos_open b p) as Hp1.
  { intros b. subst p1. unfold update_realized_and_unrealized_pnl.
    repeat case_if; by destruct b. }
  set (f1 := notional_in _ _).
  destruct (removes_open o n f1 p1) as (f' & p' & -> & E1 & E2); [by rewrite Hp1|].
  cbn. do 2 eexists. split; [done|]. by rewrite E1, E2, !Hp1.
Qed.

Lemma last_sale_open px f p b : pos_open b (firm_on_last_sale_change px f p).2 = pos_open b p.
Proof. unfold firm_on_last_sale_change. case_if; [done|]. by destruct b. Qed.
End Exposure.

(** ** The invariant *)

Section Invariant.
Context {D S : Type} `{Dbl D} `{OrderSession D S}.
Implicit Types (om : OrderManager D S) (o : Order D).

Definition exposure_ok om : Prop :=
  ∀ b esi i, om_universe om !! esi = Some i →
    0 <= pos_open b (i_position i) < 2 ^ 32
    /\ pos_open b (i_position i) = exposed b esi (om_heap om).
Definition order_known om o : Prop :=
  is_Some (om_universe om !! o_instrument o)
  /\ (∀ name, o_session o = Some name → is_Some (om_sessions om !! name)).
Definition ids_ok om : Prop :=
  Z.of_nat (length (om_orders om)) = om_localID om + 1
  /\ om_orders om !! 0%nat = Some None
  /\ (∀ n a, om_orders om !! n = Some (Some a) →
        ∃ o, om_heap om !! a = Some o /\ o_localID o = Z.of_nat n)
  /\ (∀ a o, om_heap om !! a = Some o → o_localID o ≠ 0 →
        0 < o_localID o /\ om_orders om !! Z.to_nat (o_localID o) = Some (Some a)).

Record invariant om : Prop := {
  inv_ids : ids_ok om;
  inv_sizes : ∀ a o, om_heap om !! a = Some o → sizes_ok o;
  inv_known : ∀ a o, om_heap om !! a = Some o → order_known om o;
  inv_exposure : exposure_ok om
}.

(** Updates of the state that the invariant does not look at. *)
Definition same_core om om' : Prop :=
  om_localID om' = om_localID om /\ om_orders om' = om_orders om
  /\ om_heap om' = om_heap om /\ om_sessions om' = om_sessions om
  /\ om_universe om' = om_universe om.
#[export] Instance same_core_equiv : Equivalence same_core.
Proof. unfold same_core. split; repeat intro; intuition congruence. Qed.
#[export] Instance invariant_proper : Proper (same_core ==> iff) invariant.
Proof.
  assert (∀ om om', same_core om om' → invariant om → invariant om') as Hp.
  { intros om om' (E1 & E2 & E3 & E4 & E5) [I1 I2 I3 I4]. split;
      unfold ids_ok, order_known, exposure_ok in *; by rewrite ?E1, ?E2, ?E3, ?E4, ?E5. }
  intros om om' Hc. split; apply Hp; [done|by symmetry].
Qed.

Lemma same_core_blot m om : same_core om (blot m om).
Proof. done. Qed.
Lemma same_core_notify ev o om : same_core om (notify ev o om).
Proof. unfold notify. by case_match. Qed.
Lemma same_core_firm f om : same_core om (om <| om_firm_risk := f |>).
Proof. done. Qed.

(** The invariant with [n] shares of one side of one instrument counted in the
    position but in no order (negative: in an order but not in the position). *)
Record invariant_off (b0 : bool) (esi0 n : Z) om : Prop := {
  off_ids : ids_ok om;
  off_sizes : ∀ a o, om_heap om !! a = Some o → sizes_ok o;
  off_known : ∀ a o, om_heap om !! a = Some o → order_known om o;
  off_exposure : ∀ b esi i, om_universe om !! esi = Some i →
    0 <= pos_open b (i_position i) < 2 ^ 32
    /\ pos_open b (i_position i)
    = exposed b esi (om_heap om) + (if bool_decide (esi = esi0) && eqb b b0 then n else 0)
}.

Lemma invariant_off_0 b0 esi0 om : invariant_off b0 esi0 0 om ↔ invariant om.
Proof.
  split; intros [I1 I2 I3 I4]; split; try done; intros b esi i Hi;
    destruct (I4 b esi i Hi) as [? Heq]; (split; [done|]); rewrite Heq; case_if; lia.
Qed.

#[export] Instance invariant_off_proper b0 esi0 n : Proper (same_core ==> iff) (invariant_off b0 esi0 n).
Proof.
  assert (∀ om om', same_core om om' → invariant_off b0 esi0 n om → invariant_off b0 esi0 n om') as Hp.
  { intros om om' (E1 & E2 & E3 & E4 & E5) [I1 I2 I3 I4]. split;
      unfold ids_ok, order_known in *; by rewrite ?E1, ?E2, ?E3, ?E4, ?E5. }
  intros om om' Hc. split; apply Hp; [done|by symmetry].
Qed.

(** Replacing an order by one with the same identity. *)
Lemma put_order_off b0 esi0 n om a o o' :
  invariant_off b0 esi0 n om → om_heap om !! a = Some o →
  o_instrument o' = o_instrument o → is_buy (o_side o') = is_buy (o_side o) →
  o_localID o' = o_localID o →
  (∀ name, o_session o' = Some name → is_Some (om_sessions om !! name)) →
  sizes_ok o' → o_instrument o = esi0 → is_buy (o_side o) = b0 →
  invariant_off b0 esi0 (n + outstanding o - outstanding o') (put_order a o' om).
Proof.
  intros [(I1 & I2 & I3 & I4) Is Ik Ie] Ha Hi Hs Hl Hse Hok <- <-. split.
  - split_and!; cbn; try done.
    + intros k a' Hk. destruct (I3 k a' Hk) as (x & Hx & Hid).
      destruct (decide (a = a')) as [<-|].
      * exists o'. rewrite lookup_insert_eq. split; [done|]. rewrite Hl. congruence.
      * exists x. by rewrite lookup_insert_ne.
    + intros a' x. destruct (decide (a = a')) as [<-|].
      * rewrite lookup_insert_eq. intros [= <-]. rewrite Hl. by apply I4.
      * rewrite lookup_insert_ne by done. apply I4.
  - intros a' x. cbn. destruct (decide (a = a')) as [<-|].
    + rewrite lookup_insert_eq. by intros [= <-].
    + rewrite lookup_insert_ne by done. apply Is.
  - intros a' x. cbn. destruct (decide (a = a')) as [<-|].
    + rewrite lookup_insert_eq. intros [= <-]. split; cbn; [|done].
      rewrite Hi. by apply (Ik a o Ha).
    + rewrite lookup_insert_ne by done. apply Ik.
  - intros b esi i. cbn. intros Hu. destruct (Ie b esi i Hu) as [? Heq].
    split; [done|]. rewrite Heq.
    rewrite (exposed_update b esi _ a o o' Ha). unfold contrib. rewrite Hi, Hs.
    case_if; lia.
Qed.

(** Everything but the risk state and the instruments is the same. *)
Definition frame om om' : Prop :=
  om_heap om' = om_heap om /\ om_sessions om' = om_sessions om
  /\ om_orders om' = om_orders om /\ om_localID om' = om_localID om
  /\ dom (om_universe om') = dom (om_universe om).
#[export] Instance frame_preorder : PreOrder frame.
Proof. unfold frame. split; repeat intro; intuition congruence. Qed.
Lemma same_core_frame om om' : same_core om om' → frame om om'.
Proof. unfold same_core, frame. intros (?&?&?&?&->). by split_and!. Qed.

(** A firm event that moves the open size of one side by [k]. *)
Lemma firm_event_off b0 esi0 n k om i (g : FirmRisk D → Position D → res (FirmRisk D * Position D)) f' p' :
  invariant_off b0 esi0 n om → om_universe om !! esi0 = Some i →
  g (om_firm_risk om) (i_position i) = Ok (f', p') →
  pos_open b0 p' = pos_open b0 (i_position i) + k → 0 <= pos_open b0 p' < 2 ^ 32 →
  pos_open (negb b0) p' = pos_open (negb b0) (i_position i) →
  ∃ om', firm_event esi0 g om = Ok om' /\ invariant_off b0 esi0 (n + k) om'
    /\ frame om om'.
Proof.
  intros [I1 Is Ik Ie] Hi Hg Hb Hr Hnb. unfold firm_event, get_inst. rewrite Hi. cbn. rewrite Hg. cbn.
  eexists. split; [done|]. split; [|split_and!; try done; cbn; rewrite dom_insert_L;
    apply elem_of_dom_2 in Hi; set_solver]. split; cbn; [done|done|..].
  - intros a o Ha. destruct (Ik a o Ha) as [Hu Hs]. split; cbn; [|done].
    destruct (decide (o_instrument o = esi0)) as [->|];
      [by rewrite lookup_insert_eq|by rewrite lookup_insert_ne].
  - intros b esi j. destruct (decide (esi = esi0)) as [->|Hne].
    + rewrite lookup_insert_eq. intros [= <-]. cbn.
      destruct (Ie b esi0 i Hi) as [Hr' Heq]. rewrite bool_decide_true in * by done.
      destruct (decide (b = b0)) as [->|].
      * rewrite eqb_reflx in *. cbn in *. lia.
      * assert (b = negb b0) as -> by (by destruct b, b0).
        rewrite Hnb. split; [done|]. by destruct b0.
    + rewrite lookup_insert_ne by done. intros Hj. destruct (Ie b esi j Hj) as [? Heq].
      split; [done|]. rewrite Heq. by rewrite bool_decide_false.
Qed.

(** A change to an instrument that leaves its open sizes alone. *)
Lemma put_inst_off b0 esi0 n om esi i i' :
  invariant_off b0 esi0 n om → om_universe om !! esi = Some i →
  (∀ b, pos_open b (i_position i') = pos_open b (i_position i)) →
  invariant_off b0 esi0 n (put_inst i' esi om) /\ frame om (put_inst i' esi om).
Proof.
  intros [I1 Is Ik Ie] Hi Hp. split.
  - split; cbn; [done|done| |].
    + intros a o Ha. destruct (Ik a o Ha) as [Hu Hs]. split; cbn; [|done].
      by apply lookup_insert_is_Some'; right.
    + intros b esi' j. destruct (decide (esi = esi')) as [<-|].
      * rewrite lookup_insert_eq. intros [= <-]. rewrite Hp. eauto.
      * rewrite lookup_insert_ne by done. eauto.
  - split_and!; try done. cbn. rewrite dom_insert_L. apply elem_of_dom_2 in Hi. set_solver.
Qed.

(** Takes out of the position what is in no order any more. *)
Lemma release_off b esi n om (g : FirmRisk D → Position D → res (FirmRisk D * Position D)) :
  invariant_off b esi n om → 0 <= n → is_Some (om_universe om !! esi) →
  (∀ f p, n <= pos_open b p → ∃ f' p', g f p = Ok (f', p')
     /\ pos_open b p' = u32 (pos_open b p - n)
     /\ pos_open (negb b) p' = pos_open (negb b) p) →
  ∃ om', firm_event esi g om = Ok om' /\ invariant om' /\ frame om om'.
Proof.
  intros Hinv Hn [i Hi] Hg.
  assert (n <= pos_open b (i_position i) < 2 ^ 32) as Hle.
  { destruct (off_exposure _ _ _ _ Hinv b esi i Hi) as [? Heq].
    rewrite bool_decide_true, eqb_reflx in Heq by done. cbn in Heq.
    assert (0 <= exposed b esi (om_heap om)); [|lia].
    apply zsum_nonneg. intros a o Ha. unfold contrib. case_if; [|done].
    apply outstanding_range, (off_sizes _ _ _ _ Hinv a o Ha). }
  destruct (Hg (om_firm_risk om) (i_position i)) as (f' & p' & Hok & Hb & Hnb); [lia|].
  rewrite (wrap_small 32) in Hb by (unfold in_u; lia).
  destruct (firm_event_off b esi n (- n) om i g f' p') as (om' & He & Hi' & Hf);
    try done; [lia|].
  exists om'. split_and!; try done. apply (invariant_off_0 b esi).
  by replace 0 with (n + - n) by lia.
Qed.

(** ** What each order looks like from outside *)

Record View := mkView { v_instrument : Z; v_buy : bool; v_size : Z; v_phase : Phase }.
Definition view o : View :=
  mkView (o_instrument o) (is_buy (o_side o)) (o_size o) (phase_of o).
Definition views om : gmap Z View := view <$> om_heap om.

Lemma views_put a o om : views (put_order a o om) = <[a := view o]> (views om).
Proof. unfold views. apply fmap_insert. Qed.
Lemma views_frame om om' : frame om om' → views om' = views om.
Proof. unfold views. by intros (-> & _). Qed.
Lemma views_lookup om a o : om_heap om !! a = Some o → views om !! a = Some (view o).
Proof. unfold views. intros Ha. by rewrite lookup_fmap, Ha. Qed.
Lemma views_same om a o o' : om_heap om !! a = Some o → view o' = view o →
  views (put_order a o' om) = views om.
Proof. intros Ha Hv. rewrite views_put, Hv. by apply insert_id, views_lookup. Qed.
End Invariant.
