(* ===== verification/OrderLifecycle.v ===== *)
(** * The life of orders

    Against an exchange that answers as exchanges do, every operation of the
    order manager succeeds, keeps the book-keeping invariant, and moves at most
    one order, along the lifecycle that [order_moves] specifies.  [reachable] are the states of
    the closed system: the order manager with its callers and its exchange. *)

From S2P Require Import Prelude Dbl Time Types Order Position Config Instrument FirmRisk.
From S2P Require Import OrderLog Blotter Session SimSession OrderManager OrderInvariant.

(** ** The specification: what may happen to an order of a given size *)

Inductive order_moves (size : Z) : Phase → Phase → Prop :=
| move_accept : 0 < size → order_moves size Unsent AtExchange
| move_refuse : order_moves size Unsent Rejected
| move_ack : order_moves size AtExchange (Working 0 0)
| move_reject : order_moves size AtExchange Rejected
| move_turn_away : order_moves size AtExchange (Working 0 size)
| move_fill f c n : 0 < n → f + n + c <= size →
    order_moves size (Working f c) (Working (f + n) c)
| move_cancel f c n : 0 < n → f + c + n <= size →
    order_moves size (Working f c) (Working f (c + n)).

(** What may happen to the orders by address.  An order leaves the book only
    when nothing of it is outstanding. *)
Inductive book_moves : gmap Z View → gmap Z View → Prop :=
| book_same vs : book_moves vs vs
| book_create vs a v : vs !! a = None → v_phase v = Unsent → book_moves vs (<[a := v]> vs)
| book_order vs a v ph : vs !! a = Some v → order_moves (v_size v) (v_phase v) ph →
    book_moves vs (<[a := mkView (v_instrument v) (v_buy v) (v_size v) ph]> vs)
| book_delete vs a v : vs !! a = Some v → phase_outstanding (v_size v) (v_phase v) = 0 →
    book_moves vs (delete a vs).

Section Lifecycle.
Context {D S : Type} `{Dbl D} `{!OrderSession D S} `{!OrderSessionLaws D S}.
Implicit Types (om : OrderManager D S) (o : Order D).

(** ** Calls of the program, answers of the exchange *)

Inductive Event :=
| EvCreate (o : Order D)
| EvSend (a : Z) (session : string)
| EvCancel (a newqty : Z)
| EvFindAndCancel (pred : Order D → bool)
| EvDestroy (a : Z) (only_if_terminal : bool)
| EvAck (a exchangeID size : Z) (ts : Timestamp) (xts : Z)
| EvReject (a : Z) (ts : Timestamp) (xts : Z)
| EvFill (a size : Z) (price : D) (ts : Timestamp) (xts fee_code : Z)
| EvCancelRejected (a : Z) (ts : Timestamp) (xts : Z)
| EvCancelled (a size : Z) (ts : Timestamp) (xts : Z)
| EvLastSale (esi : Z) (price : D)
| EvManualAdj (esi delta_start delta_trading : Z)
| EvStock (enable : bool) (esi : Z)
| EvAllTrading (enable : bool).

Definition om_step (ev : Event) om : res (OrderManager D S) :=
  match ev with
  | EvCreate o => Ok (create_order o om).2
  | EvSend a s => snd <$> send (Some a) (Some s) om
  | EvCancel a q => snd <$> cancel (Some a) q om
  | EvFindAndCancel pred => snd <$> find_and_cancel pred om
  | EvDestroy a b => snd <$> destroy (Some a) b om
  | EvAck a x n ts xts => on_acknowledged (Some a) x n ts xts om
  | EvReject a ts xts => on_rejected (Some a) ts xts om
  | EvFill a n px ts xts fc => on_fill (Some a) n px ts xts fc om
  | EvCancelRejected a ts xts => on_cancel_rejected (Some a) ts xts om
  | EvCancelled a n ts xts => on_cancel (Some a) n ts xts om
  | EvLastSale esi px => on_last_sale_change esi px om
  | EvManualAdj esi d1 d2 => Ok (manual_position_adj esi d1 d2 om)
  | EvStock true esi => Ok (enable_stock esi om)
  | EvStock false esi => Ok (disable_stock esi om)
  | EvAllTrading true => Ok (enable_all_trading om)
  | EvAllTrading false => Ok (disable_all_trading om)
  end.

(** When callers and exchange may do so. *)
Definition order_at (a : Z) om (P : Order D → Prop) : Prop :=
  ∃ o, om_heap om !! a = Some o /\ P o.
Definition allowed (ev : Event) om : Prop :=
  match ev with
  | EvCreate o =>
      (* as the constructor made it, for an instrument of the universe *)
      o_state o = NEW_AND_UNSENT /\ o_session o = None /\ o_localID o = 0 /\ unacked o
      /\ 0 <= o_size o < 2 ^ 32 /\ is_Some (om_universe om !! o_instrument o)
  | EvSend a name =>
      (* sent once, to a session of its market; local ids and exposures do not wrap *)
      order_at a om (λ o, o_state o = NEW_AND_UNSENT /\ o_localID o = 0
        /\ om_localID om + 1 < 2 ^ 32
        /\ (∃ s, om_sessions om !! name = Some s /\ o_market o = ss_market s)
        /\ (∀ i, om_universe om !! o_instrument o = Some i →
              pos_open (is_buy (o_side o)) (i_position i) + o_size o < 2 ^ 32))
  | EvCancel a _ => order_at a om (λ _, True)
  | EvDestroy a _ => order_at a om (λ o, outstanding o = 0)
  | EvAck a _ n _ _ => order_at a om (λ o, o_state o = SENT /\ n = o_size o)
  | EvReject a _ _ => order_at a om (λ o, o_state o = SENT)
  | EvFill a n _ _ _ _ => order_at a om (λ o,
      (∃ f c, phase_of o = Working f c) /\ 0 < n <= o_open_size o)
  | EvCancelled a n _ _ => order_at a om (λ o,
      (* part of what is open, or an order turned away without being acknowledged *)
      ((∃ f c, phase_of o = Working f c) /\ 0 < n <= o_open_size o)
      \/ (o_state o = SENT /\ n = o_size o))
  | EvCancelRejected a _ _ => order_at a om (λ o, ∃ f c, phase_of o = Working f c)
  | _ => True
  end.

(** ** Each operation *)

(** What every operation is proved to do. *)
Definition sound (r : res (OrderManager D S)) (P : OrderManager D S → Prop) : Prop :=
  ∃ om', r = Ok om' /\ invariant om' /\ P om'.

Lemma sound_weaken r (P Q : OrderManager D S → Prop) :
  (∀ om', P om' → Q om') → sound r P → sound r Q.
Proof. intros HPQ (om' & ? & ? & ?). exists om'. auto. Qed.

Lemma sound_same om om' : invariant om → same_core om om' →
  sound (Ok om') (λ om', views om' = views om).
Proof.
  intros Hi Hs. exists om'. split_and!; [done|by rewrite <- Hs|].
  by apply views_frame, same_core_frame.
Qed.

(** Logging and calling the listener come last. *)
Lemma sound_report ev o m om (P : gmap Z View → Prop) : invariant om → P (views om) →
  sound (Ok (notify ev o (blot m om))) (λ om', P (views om')).
Proof.
  intros Hi HP. assert (same_core om (notify ev o (blot m om))) as Hs.
  { transitivity (blot m om); [apply same_core_blot|apply same_core_notify]. }
  exists (notify ev o (blot m om)).
  split_and!; [done|by rewrite <- Hs|]. by rewrite (views_frame _ _ (same_core_frame _ _ Hs)).
Qed.

(** The order with its fields after an answer of the exchange; nothing the
    invariant relies on but its sizes and state. *)
Definition same_identity o o' : Prop :=
  o_instrument o' = o_instrument o /\ is_buy (o_side o') = is_buy (o_side o)
  /\ o_localID o' = o_localID o /\ o_session o' = o_session o /\ o_size o' = o_size o.

(** An order replaced, with what that releases still in the position. *)
Lemma respond_off om a o o' : invariant om → om_heap om !! a = Some o →
  same_identity o o' → sizes_ok o' →
  invariant_off (is_buy (o_side o)) (o_instrument o) (outstanding o - outstanding o')
    (put_order a o' om).
Proof.
  intros Hi Ha (E1 & E2 & E3 & E4 & E5) Hok.
  replace (outstanding o - outstanding o') with (0 + outstanding o - outstanding o') by lia.
  apply put_order_off; try done.
  - by apply invariant_off_0.
  - rewrite E4. apply (inv_known _ Hi a o Ha).
Qed.

Lemma respond om a o o' : invariant om → om_heap om !! a = Some o →
  same_identity o o' → sizes_ok o' → outstanding o' = outstanding o →
  invariant (put_order a o' om).
Proof.
  intros Hi Ha Hid Hok He. apply (invariant_off_0 (is_buy (o_side o)) (o_instrument o)).
  replace 0 with (outstanding o - outstanding o') by lia. by apply respond_off.
Qed.

Lemma known_after om a o o' : invariant om → om_heap om !! a = Some o →
  is_Some (om_universe (put_order a o' om) !! o_instrument o).
Proof. intros Hi Ha. apply (inv_known _ Hi a o Ha). Qed.

Lemma moved om a o o' om' ph :
  om_heap om !! a = Some o → same_identity o o' → phase_of o' = ph →
  order_moves (o_size o) (phase_of o) ph → frame (put_order a o' om) om' →
  book_moves (views om) (views om').
Proof.
  intros Ha (E1 & E2 & _ & _ & E5) Hph Hm Hf. rewrite (views_frame _ _ Hf), views_put.
  replace (view o') with (mkView (v_instrument (view o)) (v_buy (view o)) (v_size (view o)) ph)
    by (unfold view; cbn; congruence).
  apply book_order; [by apply views_lookup|done].
Qed.

(** The order after each answer. *)
Definition answered o o' (ph : Phase) : Prop :=
  same_identity o o' /\ sizes_ok o' /\ phase_of o' = ph /\ placed o'.

Lemma working_inv o f c : sizes_ok o → phase_of o = Working f c →
  0 <= o_size o < 2 ^ 32 /\ 0 <= f /\ 0 <= c /\ f + c <= o_size o
  /\ o_open_size o = o_size o - f - c /\ 0 < o_size o /\ placed o
  /\ o_filled_size o = f /\ o_cancelled_size o = c.
Proof.
  intros (Hr & Hsz) Hph. rewrite Hph in Hsz. unfold phase_of in Hph.
  assert (o_filled_size o = f /\ o_cancelled_size o = c) as []; [|tauto].
  by destruct (o_state o); try discriminate Hph; injection Hph as <- <-.
Qed.
Lemma sent_inv o : sizes_ok o → o_state o = SENT →
  0 <= o_size o < 2 ^ 32 /\ unacked o /\ 0 < o_size o /\ placed o
  /\ phase_of o = AtExchange.
Proof.
  intros (Hr & Hsz) Hst. assert (phase_of o = AtExchange) as Hph by (unfold phase_of; by rewrite Hst).
  rewrite Hph in Hsz. tauto.
Qed.
(** A working order, from its fields. *)
Lemma working_ok o f c :
  phase_of o = Working f c → 0 < o_size o < 2 ^ 32 → 0 <= f → 0 <= c → f + c <= o_size o →
  o_open_size o = o_size o - f - c → placed o → sizes_ok o.
Proof. intros Hph. unfold sizes_ok. rewrite Hph. intuition lia. Qed.

Lemma answered_ack o x ts xts : sizes_ok o → o_state o = SENT →
  answered o (order_update_on_ack x (o_size o) ts xts o) (Working 0 0).
Proof.
  intros Hok Hst. destruct (sent_inv o Hok Hst) as (Hr & (Ho & Hf & Hc) & Hpos & Hs & _).
  assert (phase_of (order_update_on_ack x (o_size o) ts xts o) = Working 0 0) as Hph
    by (unfold phase_of; cbn; congruence).
  split_and!; try done. apply (working_ok _ 0 0); try done; cbn; lia.
Qed.

Lemma answered_reject o ts xts : sizes_ok o → o_state o = SENT →
  answered o (order_update_on_reject ts xts o) Rejected.
Proof.
  intros Hok Hst. destruct (sent_inv o Hok Hst) as (Hr & (Ho & Hf & Hc) & Hpos & Hs & _).
  split_and!; try done; lia.
Qed.

Lemma answered_fill o f c n px ts xts fc : sizes_ok o → phase_of o = Working f c →
  0 < n <= o_open_size o →
  answered o (order_update_on_fill n px ts xts fc o) (Working (f + n) c).
Proof.
  intros Hok Hph Hn. destruct (working_inv o f c Hok Hph) as (?&?&?&?& Ho &?& Hs & Ef & Ec).
  set (o' := order_update_on_fill n px ts xts fc o).
  assert (o_filled_size o' = f + n) as Ef'
    by (subst o'; cbn; rewrite Ef; apply (wrap_small 32); unfold in_u; lia).
  assert (phase_of o' = Working (f + n) c) as Hph'.
  { rewrite <- Ef', <- Ec. unfold phase_of. subst o'. cbn. by case_if. }
  split_and!; try done. apply (working_ok _ (f + n) c); try done; try (cbn; lia).
  subst o'. cbn. rewrite Ho. rewrite (wrap_small 32) by (unfold in_u; lia). lia.
Qed.

Lemma answered_cancel o f c n ts xts : sizes_ok o → phase_of o = Working f c →
  0 < n <= o_open_size o →
  answered o (order_update_on_cancel n ts xts o) (Working f (c + n)).
Proof.
  intros Hok Hph Hn. destruct (working_inv o f c Hok Hph) as (?&?&?&?& Ho &?& Hs & Ef & Ec).
  assert (u32 (o_cancelled_size o + n) = c + n) as Ew
    by (rewrite Ec; apply (wrap_small 32); unfold in_u; lia).
  assert (u32 (o_open_size o - n) = o_open_size o - n) as Eo
    by (apply (wrap_small 32); unfold in_u; lia).
  unfold order_update_on_cancel. rewrite Ew, Eo.
  destruct (o_open_size o <=? n) eqn:Hif; bools; (split_and!; [done| |unfold phase_of; cbn; congruence|done]);
    apply (working_ok _ f (c + n)); try done; try (unfold phase_of; cbn; congruence); cbn; lia.
Qed.

Lemma answered_turn_away o ts xts : sizes_ok o → o_state o = SENT →
  answered o (order_update_on_cancel (o_size o) ts xts o) (Working 0 (o_size o)).
Proof.
  intros Hok Hst. destruct (sent_inv o Hok Hst) as (Hr & (Ho & Hf & Hc) & Hpos & Hs & _).
  unfold order_update_on_cancel. rewrite (proj2 (Z.leb_le _ _)) by lia.
  assert (u32 (o_cancelled_size o + o_size o) = o_size o) as ->
    by (rewrite Hc; apply (wrap_small 32); unfold in_u; lia).
  split_and!; [done| |unfold phase_of; cbn; by rewrite Hf|done].
  apply (working_ok _ 0 (o_size o)); try (cbn; lia); [unfold phase_of; cbn; by rewrite Hf|done].
Qed.

Lemma answered_outstanding o o' ph : answered o o' ph →
  outstanding o - outstanding o'
  = phase_outstanding (o_size o) (phase_of o) - phase_outstanding (o_size o) ph.
Proof. intros ((_ & _ & _ & _ & E) & _ & <- & _). unfold outstanding. by rewrite E. Qed.

Lemma oid_of_sent_ok o : placed o → ∃ oid, oid_of_sent o = Ok oid.
Proof. intros [[s Hs] _]. unfold oid_of_sent. rewrite Hs. eauto. Qed.

Lemma on_acknowledged_sound om a x n ts xts : invariant om →
  allowed (EvAck a x n ts xts) om →
  sound (om_step (EvAck a x n ts xts) om) (λ om', book_moves (views om) (views om')).
Proof.
  intros Hi (o & Ha & Hst & ->). unfold om_step; open_op (@on_acknowledged) Ha.
  pose proof (inv_sizes _ Hi a o Ha) as Hok.
  pose proof (answered_ack o x ts xts Hok Hst) as Hans.
  destruct (sent_inv o Hok Hst) as (_ & _ & _ & _ & Hph).
  set (o' := order_update_on_ack _ _ _ _ _) in *. clearbody o'.
  pose proof (answered_outstanding _ _ _ Hans) as Hout. rewrite Hph in Hout.
  destruct Hans as (Hid & Hok' & Hph' & Hs).
  unfold log_acknowledged. destruct (oid_of_sent_ok o' Hs) as [oid ->]. unfold mbind, res_bind.
  apply sound_report.
  - apply respond with o; try done. clear -Hout. cbn in Hout. lia.
  - eapply moved; try done. rewrite Hph. constructor.
Qed.

Lemma answered_cancel_rejected o f c ts xts : sizes_ok o → phase_of o = Working f c →
  answered o (o <| o_state := CANCEL_REJECTED |> <| o_pendingcancel_newqty := u32_max |>
                <| o_last_response_time := ts |> <| o_last_exchange_time := xts |>) (Working f c).
Proof.
  intros Hok Hph. destruct (working_inv o f c Hok Hph) as (?&?&?&?& Ho &?& Hs & Ef & Ec).
  split_and!; [done| |unfold phase_of; cbn; congruence|done].
  apply (working_ok _ f c); try done; [unfold phase_of; cbn; congruence|cbn; lia].
Qed.

Lemma on_cancel_rejected_sound om a ts xts : invariant om →
  allowed (EvCancelRejected a ts xts) om →
  sound (om_step (EvCancelRejected a ts xts) om) (λ om', book_moves (views om) (views om')).
Proof.
  intros Hi (o & Ha & f & c & Hph). unfold om_step; open_op (@on_cancel_rejected) Ha.
  pose proof (inv_sizes _ Hi a o Ha) as Hok.
  pose proof (answered_cancel_rejected o f c ts xts Hok Hph) as Hans.
  match goal with |- context [log_cancel_rejected ?x] => set (o' := x) in * end. clearbody o'.
  pose proof (answered_outstanding _ _ _ Hans) as Hout. rewrite Hph, Z.sub_diag in Hout.
  destruct Hans as (Hid & Hok' & Hph' & Hs).
  unfold log_cancel_rejected. destruct (oid_of_sent_ok o' Hs) as [oid ->]. unfold mbind, res_bind.
  apply sound_report.
  - apply respond with o; try done. lia.
  - rewrite (views_same _ a o o' Ha); [constructor|].
    destruct Hid as (E1 & E2 & _ & _ & E3). unfold view. by rewrite Hph', Hph, E1, E2, E3.
Qed.

(** A release after an answer: the middle of [on_rejected], [on_fill] and [on_cancel]. *)
Lemma answer_release om om1 a o o' ph (g : FirmRisk D → Position D → res (FirmRisk D * Position D)) :
  invariant om → om_heap om !! a = Some o → answered o o' ph →
  order_moves (o_size o) (phase_of o) ph →
  let n := phase_outstanding (o_size o) (phase_of o) - phase_outstanding (o_size o) ph in
  0 <= n →
  (invariant_off (is_buy (o_side o)) (o_instrument o) n (put_order a o' om) →
   invariant_off (is_buy (o_side o)) (o_instrument o) n om1 /\ frame (put_order a o' om) om1) →
  (∀ f p, n <= pos_open (is_buy (o_side o)) p → ∃ f' p', g f p = Ok (f', p')
     /\ pos_open (is_buy (o_side o)) p' = u32 (pos_open (is_buy (o_side o)) p - n)
     /\ pos_open (negb (is_buy (o_side o))) p' = pos_open (negb (is_buy (o_side o))) p) →
  ∃ om2, firm_event (o_instrument o') g om1 = Ok om2 /\ invariant om2
    /\ book_moves (views om) (views om2).
Proof.
  intros Hi Ha Hans Hm n Hn Hmid Hg. pose proof (answered_outstanding _ _ _ Hans) as Hout.
  fold n in Hout. destruct Hans as (Hid & Hok' & Hph' & Hs).
  pose proof (respond_off om a o o' Hi Ha Hid Hok') as Hoff. rewrite Hout in Hoff.
  destruct (Hmid Hoff) as [Hoff1 Hfr].
  destruct (release_off (is_buy (o_side o)) (o_instrument o) n om1 g) as (om2 & He & Hi2 & Hf2);
    try done.
  { apply elem_of_dom. destruct Hfr as (_ & _ & _ & _ & ->). apply elem_of_dom.
    by apply known_after. }
  exists om2. destruct Hid as (Hinst & Hid). rewrite Hinst. split_and!; try done.
  eapply moved; try done; by etransitivity.
Qed.

Lemma on_rejected_sound om a ts xts : invariant om → allowed (EvReject a ts xts) om →
  sound (om_step (EvReject a ts xts) om) (λ om', book_moves (views om) (views om')).
Proof.
  intros Hi (o & Ha & Hst). unfold om_step; open_op (@on_rejected) Ha.
  pose proof (inv_sizes _ Hi a o Ha) as Hok.
  destruct (sent_inv o Hok Hst) as (_ & _ & Hpos & _ & Hph).
  pose proof (answered_reject o ts xts Hok Hst) as Hans.
  set (o' := order_update_on_reject _ _ _) in *. clearbody o'.
  assert (is_buy (o_side o') = is_buy (o_side o) /\ o_size o' = o_size o) as [Eb Es]
    by (by destruct Hans as ((?&?&?&?&?)&_)).
  unfold order_removes.
  edestruct (answer_release om (put_order a o' om) a o o' Rejected (on_order_removes o' (o_size o')))
    as (om2 & -> & Hi2 & Hm); try done.
  - rewrite Hph. constructor.
  - rewrite Hph. cbn. clear -Hpos. lia.
  - rewrite Hph. cbn. rewrite Z.sub_0_r. intros f p Hn. rewrite <- Eb in *. rewrite <- Es in *.
    by apply removes_open.
  - unfold log_rejected. destruct (oid_of_sent_ok o') as [oid ->]; [apply Hans|].
    unfold mbind, res_bind. by apply sound_report.
Qed.

(** The locates of a position are not what the invariant is about. *)
Lemma recycle_ok b esi n om o sz : is_Some (om_universe om !! o_instrument o) →
  ∃ om1, recycle_locates_on_fill o sz om = Ok om1
    /\ (invariant_off b esi n om → invariant_off b esi n om1 /\ frame om om1).
Proof.
  intros [i Hi]. unfold recycle_locates_on_fill, get_inst. rewrite Hi. unfold mbind, res_bind.
  case_if; eexists; (split; [done|]); intros Hoff; [|by split].
  by apply (put_inst_off b esi n om _ i).
Qed.

Lemma return_ok b esi n om o sz : is_Some (om_universe om !! o_instrument o) →
  ∃ om1, return_locates_on_cancel o sz om = Ok om1
    /\ (invariant_off b esi n om → invariant_off b esi n om1 /\ frame om om1).
Proof.
  intros [i Hi]. unfold return_locates_on_cancel, get_inst. rewrite Hi. unfold mbind, res_bind.
  case_if; eexists; (split; [done|]); intros Hoff; [|by split].
  by apply (put_inst_off b esi n om _ i).
Qed.

Lemma on_fill_sound om a n px ts xts fc : invariant om → allowed (EvFill a n px ts xts fc) om →
  sound (om_step (EvFill a n px ts xts fc) om) (λ om', book_moves (views om) (views om')).
Proof.
  intros Hi (o & Ha & (f & c & Hph) & Hn). unfold om_step; open_op (@on_fill) Ha.
  pose proof (inv_sizes _ Hi a o Ha) as Hok.
  destruct (working_inv o f c Hok Hph) as (Hr&?&?&?& Ho &?& _).
  pose proof (answered_fill o f c n px ts xts fc Hok Hph Hn) as Hans.
  set (o' := order_update_on_fill _ _ _ _ _ _) in *. clearbody o'.
  assert (is_buy (o_side o') = is_buy (o_side o) /\ o_instrument o' = o_instrument o) as [Eb Ei]
    by (by destruct Hans as ((?&?&?&?&?)&_)).
  destruct (recycle_ok (is_buy (o_side o)) (o_instrument o) n (put_order a o' om) o' n)
    as (om1 & -> & Hmid); [rewrite Ei; by apply known_after|].
  assert (phase_outstanding (o_size o) (phase_of o)
          - phase_outstanding (o_size o) (Working (f + n) c) = n) as En
    by (rewrite Hph; cbn; lia).
  edestruct (answer_release om om1 a o o' (Working (f + n) c)
               (on_order_fill o' n px (fee_from_fill o' n px)))
    as (om2 & -> & Hi2 & Hm); try done; rewrite ?En; try done.
  - rewrite Hph. constructor; lia.
  - lia.
  - intros fr p Hle. rewrite <- Eb in *. by apply fill_open.
  - unfold log_filled. destruct (oid_of_sent_ok o') as [oid ->]; [apply Hans|].
    unfold mbind, res_bind. by apply sound_report.
Qed.

Lemma on_cancel_sound om a n ts xts : invariant om → allowed (EvCancelled a n ts xts) om →
  sound (om_step (EvCancelled a n ts xts) om) (λ om', book_moves (views om) (views om')).
Proof.
  intros Hi (o & Ha & Hn). unfold om_step; open_op (@on_cancel) Ha.
  pose proof (inv_sizes _ Hi a o Ha) as Hok.
  assert (∃ ph, answered o (order_update_on_cancel n ts xts o) ph
    /\ order_moves (o_size o) (phase_of o) ph /\ 0 <= n
    /\ phase_outstanding (o_size o) (phase_of o) - phase_outstanding (o_size o) ph = n)
    as (ph & Hans & Hmv & Hn0 & En).
  { destruct Hn as [[(f & c & Hph) Hn]|[Hst ->]].
    - destruct (working_inv o f c Hok Hph) as (Hr&?&?&?& Ho &?& _).
      exists (Working f (c + n)). rewrite Hph. split; [by apply answered_cancel|].
      split; [constructor; lia|]. cbn. lia.
    - destruct (sent_inv o Hok Hst) as (_ & _ & Hpos & _ & Hph).
      exists (Working 0 (o_size o)). rewrite Hph. split; [by apply answered_turn_away|].
      split; [constructor|]. cbn. lia. }
  set (o' := order_update_on_cancel _ _ _ _) in *. clearbody o'.
  assert (is_buy (o_side o') = is_buy (o_side o) /\ o_instrument o' = o_instrument o) as [Eb Ei]
    by (by destruct Hans as ((?&?&?&?&?)&_)).
  destruct (return_ok (is_buy (o_side o)) (o_instrument o) n (put_order a o' om) o' n)
    as (om1 & -> & Hmid); [rewrite Ei; by apply known_after|].
  unfold order_removes.
  edestruct (answer_release om om1 a o o' ph (on_order_removes o' n))
    as (om2 & -> & Hi2 & Hm); try done; rewrite ?En; try done.
  - intros fr p Hle. rewrite <- Eb in *. by apply removes_open.
  - unfold log_cancelled. destruct (oid_of_sent_ok o') as [oid ->]; [apply Hans|].
    unfold mbind, res_bind. by apply sound_report.
Qed.

(** ** Calls of the program *)

Lemma put_session_off b esi n om name s : is_Some (om_sessions om !! name) →
  invariant_off b esi n om →
  invariant_off b esi n (put_session name s om).
Proof.
  intros [s0 Hs] [I1 Is Ik Ie]. split; cbn; [done|done| |done].
  intros a o Ha. destruct (Ik a o Ha) as [Hu Hse].
  split; [done|]. intros name' Hn. by apply lookup_insert_is_Some'; right; apply Hse.
Qed.

Lemma put_session_inv om name s : is_Some (om_sessions om !! name) → invariant om →
  invariant (put_session name s om).
Proof.
  intros Hs Hi. apply (invariant_off_0 true 0). by apply put_session_off, invariant_off_0.
Qed.

Lemma session_only_identity o o' : session_fields_only o o' →
  same_identity o o' /\ view o' = view o /\ o_open_size o' = o_open_size o
  /\ o_state o' = o_state o /\ o_filled_size o' = o_filled_size o
  /\ o_cancelled_size o' = o_cancelled_size o.
Proof. intros [_ ->]. by split_and!. Qed.

Lemma sizes_ok_same o o' : sizes_ok o → same_identity o o' → phase_of o' = phase_of o →
  o_open_size o' = o_open_size o → o_filled_size o' = o_filled_size o →
  o_cancelled_size o' = o_cancelled_size o → sizes_ok o'.
Proof.
  unfold sizes_ok, unacked, placed. intros Hok (_ & _ & E1 & E2 & E3) -> -> -> ->.
  by rewrite E1, E2, E3.
Qed.

Lemma not_terminal_working o : sizes_ok o → is_terminal o = false →
  phase_of o = Working (o_filled_size o) (o_cancelled_size o).
Proof.
  unfold is_terminal, sizes_ok, unacked, phase_of. intros (_ & Hsz) Ht. bools.
  destruct (o_state o); try done; tauto.
Qed.

Lemma cancel_sound om a q : invariant om → is_Some (om_heap om !! a) →
  ∃ b om', cancel (Some a) q om = Ok (b, om') /\ invariant om' /\ views om' = views om.
Proof.
  intros Hi [o Ha]. unfold cancel, get_order. rewrite Ha. unfold mbind, res_bind.
  destruct (inv_known _ Hi a o Ha) as [_ Hses]. pose proof (inv_sizes _ Hi a o Ha) as Hok.
  destruct (o_session o) as [name|] eqn:Hs; [|by eauto].
  destruct (is_terminal o) eqn:Ht; [by eauto|]. case_if; [by eauto|]. clear Hif.
  pose proof (not_terminal_working o Hok Ht) as Hph.
  destruct (Hses name eq_refl) as [s Hlk]. unfold get_session_ref. rewrite Hlk.
  destruct (ss_cancel a o q s) as [[b s'] o1] eqn:Hc.
  destruct (cancel_fields _ _ _ _ _ _ _ Hc) as [Hf _].
  destruct (session_only_identity _ _ Hf) as (Hid & Hv & E1 & E2 & E3 & E4).
  assert (phase_of o1 = phase_of o) as Hph1 by (by injection Hv).
  assert (∀ o', same_identity o o' → phase_of o' = phase_of o → o_open_size o' = o_open_size o →
    o_filled_size o' = o_filled_size o → o_cancelled_size o' = o_cancelled_size o →
    invariant (put_order a o' (put_session name s' om))
    /\ views (put_order a o' (put_session name s' om)) = views om) as Hput.
  { intros o' Hid' Hp' F1 F2 F3. split.
    - apply (respond (put_session name s' om) a o o'); [by apply put_session_inv|done|done| |].
      + by apply (sizes_ok_same o).
      + unfold outstanding. destruct Hid' as (_ & _ & _ & _ & ->). by rewrite Hp'.
    - rewrite <- (views_same om a o o'); [by rewrite !views_put|done|].
      destruct Hid' as (F & G & _ & _ & K). unfold view. by rewrite F, G, K, Hp'. }
  clear Hv Hf. destruct b.
  - match goal with |- context [log_pending_cancel ?x q] => set (o2 := x) end.
    assert (phase_of o2 = phase_of o) as Hph2 by (rewrite Hph, <- E3, <- E4; done).
    assert (same_identity o o2) as Hid2 by done.
    destruct (Hput o2 Hid2 Hph2) as [? ?]; try done.
    clearbody o2. unfold log_pending_cancel.
    destruct (oid_of_sent_ok o2) as [oid ->].
    { destruct (working_inv o _ _ Hok Hph) as (_&_&_&_&_&_&[Hp1 Hp2]&_).
      destruct Hid2 as (_ & _ & E5 & E6 & _). unfold placed. by rewrite E5, E6. }
    unfold mbind, res_bind. do 2 eexists. split; [done|].
    by split; [rewrite <- (same_core_blot _ _)|].
  - destruct (Hput o1); try done. eauto 6.
Qed.

Lemma find_and_cancel_sound om pred : invariant om →
  sound (snd <$> find_and_cancel pred om) (λ om', views om' = views om).
Proof.
  intros Hinv. unfold find_and_cancel.
  assert (∀ l k om1, invariant om1 → views om1 = views om →
    (∀ a, Some a ∈ l → is_Some (views om !! a)) →
    sound (snd <$> foldM (cancel_one pred) (k, om1) l) (λ om', views om' = views om)) as Hl.
  { induction l as [|p l IH]; intros k om1 Hi1 Hv Hall; cbn [foldM].
    - by exists om1.
    - assert (∀ a, Some a ∈ l → is_Some (views om !! a)) as Hall'
        by (intros; apply Hall; by constructor).
      destruct p as [a|]; unfold mbind, res_bind; cbn [cancel_one]; [|by apply IH].
      assert (is_Some (om_heap om1 !! a)) as [o Ha].
      { destruct (Hall a) as [v Hlk]; [by constructor|]. rewrite <- Hv in Hlk.
        apply lookup_fmap_Some in Hlk as (o & _ & ?). eauto. }
      unfold get_order. rewrite Ha. unfold mbind, res_bind.
      case_if; [|by apply IH].
      destruct (cancel_sound om1 a 0) as (b & om2 & -> & Hi2 & Hv2); [done|eauto|].
      destruct b; (apply IH; [done|congruence|done]). }
  apply Hl; [done|done|]. intros a Hin. apply list_elem_of_lookup in Hin as [i Hlk].
  destruct (inv_ids _ Hinv) as (_ & _ & Hslot & _). destruct (Hslot i a Hlk) as (o & Ha & _).
  unfold views. rewrite lookup_fmap, Ha. by eexists.
Qed.

(** The order manager without an order, whose slot (if it has one) is emptied. *)
Definition forgotten (a : Z) o om : OrderManager D S :=
  delete_order a (om <| om_orders :=
    if o_localID o =? 0 then om_orders om
    else <[Z.to_nat (o_localID o) := None]> (om_orders om) |>).

Lemma forgotten_inv om a o : invariant om → om_heap om !! a = Some o → outstanding o = 0 →
  invariant (forgotten a o om).
Proof.
  intros [(I1 & I2 & I3 & I4) Is Ik Ie] Ha Hout.
  assert (∀ k x, om_heap (forgotten a o om) !! k = Some x → k ≠ a /\ om_heap om !! k = Some x) as Hsub.
  { intros k x. cbn. rewrite lookup_delete_Some. intros []. split; [congruence|done]. }
  split.
  - split_and!; cbn -[Z.eqb].
    + case_if; [done|]. by rewrite length_insert.
    + case_if; [done|]. bools. destruct (I4 a o Ha Hif) as [Hpos _].
      rewrite list_lookup_insert_ne by lia. done.
    + intros n a' Hn.
      assert (om_orders om !! n = Some (Some a') /\ a' ≠ a) as [Hlk Hne].
      { case_if; bools.
        - split; [done|]. intros ->. destruct (I3 n a Hn) as (x & Hx & Hid).
          rewrite Ha in Hx. injection Hx as <-. assert (n = 0%nat) as -> by lia. congruence.
        - apply list_lookup_insert_Some in Hn as [(_ & ? & _)|[Hne Hn]]; [done|].
          split; [done|]. intros ->. destruct (I3 n a Hn) as (x & Hx & Hid).
          rewrite Ha in Hx. injection Hx as <-. lia. }
      destruct (I3 n a' Hlk) as (x & Hx & Hid). exists x. by rewrite lookup_delete_ne.
    + intros a' x Hx Hid. destruct (Hsub a' x Hx) as [Hne Hx'].
      destruct (I4 a' x Hx' Hid) as [Hpos Hlk]. split; [done|]. case_if; [done|]. bools.
      destruct (I4 a o Ha Hif) as [_ Hlk'].
      rewrite list_lookup_insert_ne; [done|]. intros Heq. rewrite Heq in Hlk'. congruence.
  - intros k x Hx. by eapply Is, Hsub.
  - intros k x Hx. by eapply Ik, Hsub.
  - intros b esi i Hi. destruct (Ie b esi i Hi) as [? Heq]. split; [done|]. cbn.
    rewrite (exposed_delete _ _ _ _ _ Ha), contrib_zero by done. lia.
Qed.

Lemma destroy_sound om a b : invariant om → allowed (EvDestroy a b) om →
  sound (om_step (EvDestroy a b) om) (λ om', book_moves (views om) (views om')).
Proof.
  intros Hi (o & Ha & Hout). unfold om_step; open_op (@destroy) Ha.
  assert (∀ om1, invariant om1 → om_heap om1 = om_heap om →
    sound (Ok (forgotten a o (blot (log_destroy o) om1)))
      (λ om', book_moves (views om) (views om'))) as Hex.
  { intros om1 Hi1 Hh. eexists. split; [done|]. split.
    - apply forgotten_inv; [by rewrite <- (same_core_blot _ _)|cbn; by rewrite Hh|done].
    - unfold views. cbn. rewrite Hh, fmap_delete. by apply (book_delete _ a (view o)), Hout;
        apply views_lookup. }
  assert (∀ om1, invariant om1 → om_heap om1 = om_heap om → o_localID o ≠ 0 →
    sound (snd <$> (om2 ← set_slot (o_localID o) None om1;
              Ok (true, delete_order a (blot (log_destroy o) om2))))
      (λ om', book_moves (views om) (views om'))) as Hforget.
  { intros om1 Hi1 Hh Hne. destruct (inv_ids _ Hi1) as (I1 & _ & _ & I4).
    rewrite Hh in I4. destruct (I4 a o Ha Hne) as [Hpos Hlk].
    apply lookup_lt_Some in Hlk. unfold set_slot.
    rewrite (proj2 (andb_true_iff _ _)); [|split; [apply Z.leb_le|apply Z.ltb_lt]; lia].
    specialize (Hex om1 Hi1 Hh). unfold forgotten in Hex.
    rewrite (proj2 (Z.eqb_neq _ _) Hne) in Hex. exact Hex. }
  case_if; [by exists om; split_and!; try done; constructor|]. clear Hif.
  destruct (Z.eqb_spec (o_localID o) 0) as [Hz|Hz].
  - specialize (Hex om Hi eq_refl). unfold forgotten in Hex. rewrite Hz in Hex. exact Hex.
  - destruct (o_session o) as [name|] eqn:Hs; [|by apply Hforget].
    destruct (inv_known _ Hi a o Ha) as [_ Hses]. destruct (Hses name Hs) as [s Hlk].
    unfold get_session_ref. rewrite Hlk. destruct (ss_destroy a o s) as [ok s'].
    assert (invariant (put_session name s' om)) as Hi1 by (apply put_session_inv; eauto).
    destruct ok; [by apply Hforget|].
    exists (put_session name s' om). split_and!; try done. constructor.
Qed.

Lemma create_sound om o : invariant om → allowed (EvCreate o) om →
  sound (om_step (EvCreate o) om) (λ om', book_moves (views om) (views om')).
Proof.
  intros [(I1 & I2 & I3 & I4) Is Ik Ie] (Hst & Hs & Hid & Hun & Hr & Hu).
  cbn. set (a := fresh (dom (om_heap om))).
  assert (om_heap om !! a = None) as Ha by (apply not_elem_of_dom, is_fresh).
  assert (phase_of o = Unsent) as Hph by (unfold phase_of; by rewrite Hst).
  assert (∀ k x, om_heap (put_order a o om) !! k = Some x →
    (k = a /\ x = o) \/ om_heap om !! k = Some x) as Hsub.
  { intros k x. cbn. rewrite lookup_insert_Some. naive_solver. }
  eexists. split; [done|]. split; [split|].
  - split_and!; cbn; [done|done| |].
    + intros n a' Hn. destruct (I3 n a' Hn) as (x & Hx & Hxid). exists x.
      rewrite lookup_insert_ne by congruence. done.
    + intros a' x Hx Hne. destruct (Hsub a' x Hx) as [[-> ->]|Hx']; [done|by apply I4].
  - intros k x Hx. destruct (Hsub k x Hx) as [[-> ->]|?]; [|by eapply Is].
    split; [done|]. by rewrite Hph.
  - intros k x Hx. destruct (Hsub k x Hx) as [[-> ->]|?]; [|by eapply Ik].
    split; [done|]. by rewrite Hs.
  - intros b esi i Hi. destruct (Ie b esi i Hi) as [? Heq]. split; [done|]. cbn.
    rewrite exposed_insert by done. rewrite contrib_zero; [lia|].
    unfold outstanding. by rewrite Hph.
  - rewrite views_put. apply book_create; [|done]. unfold views. by rewrite lookup_fmap, Ha.
Qed.

(** *** [send], stage by stage *)

(** The order has its id and has not been rejected yet. *)
Record registered (a : Z) (v : View) (name : string) om : Prop := {
  reg_inv : invariant om;
  reg_order : ∃ o, om_heap om !! a = Some o /\ o_state o = NEW_AND_UNSENT /\ view o = v
    /\ o_localID o ≠ 0
    /\ (∀ i, om_universe om !! o_instrument o = Some i →
              pos_open (is_buy (o_side o)) (i_position i) + o_size o < 2 ^ 32);
  reg_session : is_Some (om_sessions om !! name)
}.

Lemma unsent_phase o : o_state o = NEW_AND_UNSENT → phase_of o = Unsent /\ outstanding o = 0.
Proof. unfold outstanding, phase_of. by intros ->. Qed.

Lemma register_order om a o name : invariant om → om_heap om !! a = Some o →
  o_state o = NEW_AND_UNSENT → o_localID o = 0 → is_Some (om_sessions om !! name) →
  (∀ i, om_universe om !! o_instrument o = Some i →
     pos_open (is_buy (o_side o)) (i_position i) + o_size o < 2 ^ 32) →
  registered a (view o) name
    ((put_order a (o <| o_localID := om_localID om + 1 |>) om) <| om_localID := om_localID om + 1 |>
       <| om_orders := om_orders om ++ [Some a] |>).
Proof.
  intros [(I1 & I2 & I3 & I4) Is Ik Ie] Ha Hst Hid Hs Hr.
  set (o1 := o <| o_localID := om_localID om + 1 |>).
  assert (∀ k x, <[a := o1]> (om_heap om) !! k = Some x →
    (k = a /\ x = o1) \/ (k ≠ a /\ om_heap om !! k = Some x)) as Hsub.
  { intros k x. rewrite lookup_insert_Some. naive_solver. }
  assert (0 <= om_localID om) by (apply lookup_lt_Some in I2; lia).
  split; [split| |done].
  - split_and!; cbn -[o1].
    + rewrite length_app. cbn. lia.
    + by apply lookup_app_l_Some.
    + intros n a' Hn. apply lookup_app_Some in Hn as [Hn|[Hge Hn]].
      * destruct (I3 n a' Hn) as (x & Hx & Hxid). exists x. rewrite lookup_insert_ne; [done|].
        intros <-. rewrite Ha in Hx. injection Hx as <-. assert (n = 0%nat) as -> by lia. congruence.
      * apply list_lookup_singleton_Some in Hn as [Hn [= <-]]. exists o1.
        rewrite lookup_insert_eq. split; [done|]. cbn. lia.
    + intros a' x Hx Hne. destruct (Hsub a' x Hx) as [[-> ->]|[_ Hx']].
      * cbn. split; [lia|]. rewrite lookup_app_r by lia.
        apply list_lookup_singleton_Some. split; [lia|done].
      * destruct (I4 a' x Hx' Hne). split; [done|]. by apply lookup_app_l_Some.
  - intros k x Hx. destruct (Hsub k x Hx) as [[-> ->]|[_ ?]]; [|by eapply Is].
    destruct (Is a o Ha) as [Hz Hun]. rewrite (proj1 (unsent_phase o Hst)) in Hun. split; [done|].
    by rewrite (proj1 (unsent_phase o1 Hst)).
  - intros k x Hx. destruct (Hsub k x Hx) as [[-> ->]|[_ ?]]; [exact (Ik a o Ha)|by eapply Ik].
  - intros b esi i Hi. destruct (Ie b esi i Hi) as [? Heq]. split; [done|]. cbn -[o1].
    rewrite (exposed_update _ _ _ _ _ _ Ha), !contrib_zero; [lia|..];
      by apply (unsent_phase o).
  - exists o1. cbn -[o1]. rewrite lookup_insert_eq. split_and!; try done. cbn. lia.
Qed.

Lemma reject_locally_sound om a v name : registered a v name om →
  ∃ b om', reject_locally a om = Ok (b, om') /\ invariant om'
    /\ views om' = <[a := mkView (v_instrument v) (v_buy v) (v_size v) Rejected]> (views om).
Proof.
  intros [Hi (o & Ha & Hst & <- & _) _]. unfold reject_locally, get_order. rewrite Ha.
  unfold mbind, res_bind. destruct (unsent_phase o Hst) as [Hph Hout].
  do 2 eexists. split; [done|]. split.
  - rewrite <- (same_core_blot _ _). apply respond with o; try done.
    destruct (inv_sizes _ Hi a o Ha) as [Hr Hsz]. rewrite Hph in Hsz. by split.
  - unfold views at 1. cbn. by rewrite fmap_insert.
Qed.

(** The instrument's own check may correct the side of a sell and take locates. *)
Lemma inst_validate_frame o i b i' o' : inst_validate o i = (b, i', o') →
  (∀ b', pos_open b' (i_position i') = pos_open b' (i_position i))
  /\ o' = o <| o_side := o_side o' |> /\ is_buy (o_side o') = is_buy (o_side o).
Proof.
  intros Hv. assert (is_sell_side (o_side o) = true → is_buy (o_side o) = false) as Hsell
    by (by destruct (o_side o)).
  unfold inst_validate, validate_locates in Hv.
  repeat case_if; cbn in Hv; injection Hv as <- <- <-; cbn; split_and!;
    try (by destruct o); try (by intros []); rewrite Hsell; done.
Qed.

Lemma risk_checks_ok om a v name : registered a v name om →
  ∃ b om', risk_checks a om = Ok (b, om') /\ registered a v name om' /\ views om' = views om.
Proof.
  intros [Hi (o & Ha & Hst & Hv & Hnz & Hr) Hs]. unfold risk_checks, get_order, get_inst. rewrite Ha.
  destruct (inv_known _ Hi a o Ha) as [[i Hinst] Hses]. unfold mbind, res_bind. rewrite Hinst.
  destruct (firm_new_order o i (om_firm_risk om)) as [ok f].
  assert (registered a v name (om <| om_firm_risk := f |>)) as Hreg.
  { split; [|by exists o|done]. exact (proj1 (invariant_proper _ _ (same_core_firm f om)) Hi). }
  case_if; [|by do 2 eexists]. clear Hif ok.
  destruct (inst_validate o i) as [[b i'] o'] eqn:Hval.
  destruct (inst_validate_frame _ _ _ _ _ Hval) as (Hp & Ho' & Hb).
  assert (view o' = view o) as Hview by (unfold view, phase_of; rewrite Hb, Ho'; done).
  assert (same_identity o o') as Hid by (unfold same_identity; rewrite Hb, Ho'; done).
  assert (sizes_ok o') as Hok by (pose proof (inv_sizes _ Hi a o Ha); by rewrite Ho').
  destruct (unsent_phase o Hst) as [_ Hout].
  assert (o_state o' = NEW_AND_UNSENT) as Hst' by (by rewrite Ho').
  destruct (unsent_phase o' Hst') as [_ Hout']. clear Ho' Hval.
  set (om1 := om <| om_firm_risk := f |>) in *.
  destruct (put_inst_off true 0 0 om1 (o_instrument o) i i') as [Hi1 Hf1]; try done.
  { apply invariant_off_0, Hreg. }
  do 2 eexists. split; [done|]. split; [split|].
  - apply respond with o; try done; [by apply invariant_off_0 in Hi1|lia].
  - exists o'. cbn. rewrite lookup_insert_eq, Hview.
    destruct Hid as (-> & -> & -> & _ & ->). split_and!; try done. intros j. rewrite lookup_insert_eq. intros [= <-].
    rewrite Hp. eauto.
  - done.
  - rewrite (views_same _ a o o'); [|done|done]. by rewrite (views_frame _ _ Hf1).
Qed.

Lemma send_to_session_ok om a v name : registered a v name om → 0 < v_size v →
  ∃ b om', send_to_session a name om = Ok (b, om')
    /\ if b then invariant om' /\
          views om' = <[a := mkView (v_instrument v) (v_buy v) (v_size v) AtExchange]> (views om)
       else registered a v name om' /\ views om' = views om.
Proof.
  intros [Hi (o & Ha & Hst & <- & Hnz & Hr) [s Hs]] Hpos. unfold send_to_session, get_order. rewrite Ha.
  unfold mbind, res_bind. destruct (inv_known _ Hi a o Ha) as [[i Hinst] Hses].
  set (o1 := o <| o_session := Some name |>).
  destruct (inv_sizes _ Hi a o Ha) as [Hsize Hun].
  destruct (unsent_phase o Hst) as [Hph Hout]. rewrite Hph in Hun.
  destruct (inv_exposure _ Hi (is_buy (o_side o)) (o_instrument o) i Hinst) as [Hrange _].
  specialize (Hr i Hinst).
  destruct (on_order_adds o1 (o_size o1) (om_firm_risk om) (i_position i)) as [f' p'] eqn:Hadd.
  destruct (adds_open _ _ _ _ _ _ Hadd) as [Hb Hnb].
  change (o_side o1) with (o_side o) in *. change (o_size o1) with (o_size o) in *.
  rewrite (wrap_small 32) in Hb by (unfold in_u; lia).
  destruct (firm_event_off (is_buy (o_side o)) (o_instrument o) 0 (o_size o) om i
              (λ f p, Ok (on_order_adds o1 (o_size o) f p)) f' p')
    as (om1 & He & Hi1 & Hf1); try done; [by apply invariant_off_0|by rewrite Hadd|lia|].
  unfold order_adds. change (o_instrument o1) with (o_instrument o). rewrite He.
  pose proof Hf1 as (Hheap & Hses1 & _ & _ & Hdom). unfold get_session_ref. rewrite Hses1, Hs.
  destruct (ss_send a o1 s) as [[sent s'] o2] eqn:Hsend.
  destruct (send_fields _ _ _ _ _ _ Hsend) as [Hsf _].
  destruct (session_fields _ _ Hsf) as (E1&_&E2&E3&E4&E5&E6&E7&E8&E9&_).
  change (o_session o1) with (Some name) in E6.
  change (o_state o1) with (o_state o) in E4. rewrite Hst in E4.
  change (o_instrument o1) with (o_instrument o) in E1. change (o_size o1) with (o_size o) in E2.
  change (o_side o1) with (o_side o) in E3.
  change (o_localID o1) with (o_localID o) in E5. unfold unacked in Hun.
  assert (∀ o3, same_identity o2 o3 → sizes_ok o3 →
    invariant_off (is_buy (o_side o)) (o_instrument o) (o_size o - outstanding o3)
      (put_order a o3 (put_session name s' om1))
    /\ views (put_order a o3 (put_session name s' om1)) = <[a := view o3]> (views om)) as Hput.
  { intros o3 (F1 & F2 & F3 & F4 & F5) Hok3. split.
    - replace (o_size o - outstanding o3) with (0 + o_size o + outstanding o - outstanding o3) by lia.
      apply put_order_off; try done; try congruence.
      + by apply put_session_off; [rewrite Hses1; eauto|].
      + cbn. by rewrite Hheap.
      + rewrite F4, E6. intros nm [= <-]. cbn. by rewrite lookup_insert_eq.
    - rewrite views_put. f_equal. unfold views. cbn. by rewrite Hheap. }
  assert (unacked o2) as Hun2 by (unfold unacked; rewrite E7, E8, E9; exact Hun).
  destruct sent.
  - set (o3 := o2 <| o_state := SENT |>).
    assert (sizes_ok o3) as Hok3.
    { split; [cbn; lia|]. change (phase_of o3) with AtExchange. unfold placed. cbn.
      rewrite E2, E5, E6. split_and!; eauto. }
    assert (view o3 = mkView (o_instrument o) (is_buy (o_side o)) (o_size o) AtExchange) as Hv3
      by (unfold view; cbn; by rewrite E1, E2, E3).
    assert (outstanding o3 = o_size o) as Hout3 by (unfold outstanding; cbn; done).
    destruct (Hput o3) as [Hi3 Hviews]; [done..|]. rewrite Hout3, Z.sub_diag in Hi3.
    apply invariant_off_0 in Hi3. do 2 eexists. split; [done|]. split.
    + by rewrite <- (same_core_blot _ _).
    + rewrite (views_frame _ _ (same_core_frame _ _ (same_core_blot _ _))), Hviews. by rewrite Hv3.
  - destruct (unsent_phase o2 E4) as [Hph2 Hout2].
    assert (sizes_ok o2) as Hok2 by (split; [lia|by rewrite Hph2]).
    destruct (Hput o2) as [Hi2 Hviews]; [done..|]. rewrite Hout2, Z.sub_0_r in Hi2.
    assert (view o2 = view o) as Hv2 by (unfold view; by rewrite E1, E2, E3, Hph, Hph2).
    rewrite Hv2, (insert_id _ _ _ (views_lookup om a o Ha)) in Hviews.
    unfold order_removes. rewrite E1.
    destruct (release_off (is_buy (o_side o)) (o_instrument o) (o_size o)
      (put_order a o2 (put_session name s' om1)) (on_order_removes o2 (o_size o2)))
      as (om2 & He2 & Hi3 & Hf3); [done|lia| | |].
    { apply elem_of_dom. cbn. rewrite Hdom. by apply elem_of_dom_2 in Hinst. }
    { intros fr p Hle. rewrite <- E3, E2 in *. by apply removes_open. }
    rewrite He2. do 2 eexists. split; [done|].
    rewrite (views_frame _ _ Hf3), Hviews. split; [|done].
    pose proof Hf3 as (Hheap3 & Hses3 & _).
    split; [done| |rewrite Hses3; cbn; rewrite lookup_insert_eq; eauto].
    exists o2. rewrite Hheap3. cbn. rewrite lookup_insert_eq, E1, E2, E3, E5.
    split_and!; try done. intros j Hj.
    destruct (inv_exposure _ Hi3 (is_buy (o_side o)) _ j Hj) as [_ ->].
    rewrite Hheap3. cbn. rewrite Hheap, (exposed_update _ _ _ _ _ _ Ha), !contrib_zero by done.
    destruct (inv_exposure _ Hi (is_buy (o_side o)) _ i Hinst) as [_ <-]. lia.
Qed.

Lemma send_sound om a name : invariant om → allowed (EvSend a name) om →
  sound (om_step (EvSend a name) om) (λ om', book_moves (views om) (views om')).
Proof.
  intros Hi (o & Ha & Hst & Hid & Hmax & (s & Hs & Hm) & Hr).
  unfold om_step, send, get_order, get_session_ref. rewrite Ha, Hs. unfold mbind, res_bind.
  rewrite (bool_decide_true _ Hm). unfold assert at 1.
  pose proof (inv_ids _ Hi) as (Hlen & Hzero & _).
  assert (0 <= om_localID om) by (apply lookup_lt_Some in Hzero; lia).
  rewrite (wrap_small 32) by (unfold in_u; lia).
  pose proof (register_order om a o name Hi Ha Hst Hid (ex_intro _ s Hs) Hr) as Hreg.
  match type of Hreg with registered _ _ _ ?x => set (om1 := x) in * end.
  assert (views om1 = views om) as Hv1 by (subst om1; by apply (views_same om a o)).
  assert (om_localID om1 = om_localID om + 1 /\ Z.of_nat (length (om_orders om1)) = om_localID om + 2)
    as [Hl1 Hn1] by (subst om1; cbn; rewrite length_app; cbn; lia).
  destruct (inv_sizes _ Hi a o Ha) as [Hsize _].
  clearbody om1. rewrite Hn1. unfold assert. rewrite (proj2 (Z.eqb_eq _ _)) by lia.
  destruct (unsent_phase o Hst) as [Hph _].
  assert (∀ om2, registered a (view o) name om2 → views om2 = views om →
    sound (snd <$> reject_locally a om2) (λ om', book_moves (views om) (views om'))) as Hrej.
  { intros om2 Hreg2 Hv2. destruct (reject_locally_sound om2 a (view o) name Hreg2)
      as (b & om3 & -> & Hi3 & Hv3).
    exists om3. split_and!; try done. rewrite Hv3, Hv2.
    apply book_order; [by apply views_lookup|]. cbn. rewrite Hph. constructor. }
  case_if; [|by apply Hrej]. bools.
  match goal with Hvb : validate_base _ = true |- _ => apply validate_base_size in Hvb as Hpos end.
  change (0 < o_size o) in Hpos.
  destruct (risk_checks_ok om1 a (view o) name Hreg) as (b & om2 & -> & Hreg2 & Hv2).
  rewrite Hv1 in Hv2. destruct b; [|by apply Hrej].
  destruct (send_to_session_ok om2 a (view o) name Hreg2 Hpos) as (b & om3 & -> & Hb).
  rewrite Hv2 in Hb. destruct b; [|by apply Hrej; apply Hb].
  destruct Hb as [Hi3 Hv3]. exists om3. split_and!; try done. rewrite Hv3.
  apply book_order; [by apply views_lookup|]. cbn. rewrite Hph. by constructor.
Qed.
(** ** Market data and the operator *)

Lemma sound_frame om om' b esi : invariant om → frame om om' → invariant_off b esi 0 om' →
  sound (Ok om') (λ om', book_moves (views om) (views om')).
Proof.
  intros Hi Hf Hi'. exists om'. split_and!; [done|by eapply invariant_off_0|].
  rewrite (views_frame _ _ Hf). constructor.
Qed.

Lemma last_sale_sound om esi px : invariant om →
  sound (om_step (EvLastSale esi px) om) (λ om', book_moves (views om) (views om')).
Proof.
  intros Hi. unfold om_step, on_last_sale_change.
  set (om1 := om <| om_last_sale := _ |>).
  assert (same_core om om1) as Hs by done.
  assert (invariant om1) as Hi1 by (exact (proj1 (invariant_proper _ _ Hs) Hi)).
  destruct (om_universe om1 !! esi) as [i|] eqn:Hu.
  - destruct (firm_on_last_sale_change px (om_firm_risk om1) (i_position i)) as [f' p'] eqn:Hg.
    assert (∀ b, pos_open b p' = pos_open b (i_position i)) as Hp.
    { intros b. pose proof (last_sale_open px (om_firm_risk om1) (i_position i) b) as E.
      by rewrite Hg in E. }
    destruct (firm_event_off true esi 0 0 om1 i
                (λ f p, Ok (firm_on_last_sale_change px f p)) f' p')
      as (om2 & He & Hi2 & Hf2); try done.
    + by apply invariant_off_0.
    + by rewrite Hg.
    + rewrite Hp. lia.
    + rewrite Hp. apply (inv_exposure _ Hi1 true esi i Hu).
    + rewrite He. eapply sound_frame; [done| |exact Hi2].
      etransitivity; [by apply same_core_frame|done].
  - by eapply sound_weaken; [|apply (sound_same om om1)]; [intros om' ->; constructor|..].
Qed.

Lemma manual_adj_sound om esi d1 d2 : invariant om →
  sound (om_step (EvManualAdj esi d1 d2) om) (λ om', book_moves (views om) (views om')).
Proof.
  intros Hi. unfold om_step, manual_position_adj.
  assert (sound (Ok om) (λ om', book_moves (views om) (views om'))) as Hid
    by (exists om; split_and!; try done; constructor).
  case_if; [done|]. destruct (om_universe om !! esi) as [i|] eqn:Hu; [|done].
  match goal with |- sound (Ok (put_inst ?x _ _)) _ => set (i' := x) end.
  destruct (put_inst_off true 0 0 om esi i i') as [Hi' Hf']; try done.
  - by apply invariant_off_0.
  - by eapply sound_frame.
Qed.

Lemma firm_sound om f : invariant om →
  sound (Ok (om <| om_firm_risk := f |>)) (λ om', book_moves (views om) (views om')).
Proof.
  intros Hi. eapply sound_weaken; [|apply (sound_same om); done]. intros om' ->. constructor.
Qed.

(** The sessions and the instruments also change outside of these events. *)
Lemma session_sound om name s' : invariant om → is_Some (om_sessions om !! name) →
  sound (Ok (put_session name s' om)) (λ om', views om' = views om).
Proof. intros Hi Hs. exists (put_session name s' om). split_and!; [done|by apply put_session_inv|done]. Qed.

Lemma cancel_all_session_sound om name : invariant om → is_Some (om_sessions om !! name) →
  sound (snd <$> cancel_all_session (Some name) om) (λ om', views om' = views om).
Proof.
  intros Hi Hs. unfold cancel_all_session, get_session_ref.
  destruct Hs as [s Hs]. rewrite Hs. cbn [mbind res_bind].
  destruct (ss_cancel_all s) as [n s']. pose proof (put_session_inv om name s' (ex_intro _ s Hs) Hi).
  case_if; [by exists (put_session name s' om)|].
  eapply sound_weaken; [|by apply find_and_cancel_sound]. by intros om' ->.
Qed.

Lemma locates_open n b (i : EquityInstrument D) : pos_open b (i_position (update_locates_live n true i)) = pos_open b (i_position i).
Proof. unfold update_locates_live. repeat case_if; by destruct b. Qed.
Lemma locates_sound om lex cta cfg : invariant om →
  sound (Ok (load_and_update_locates lex cta cfg om)) (λ om', views om' = views om).
Proof.
  intros [I1 Is Ik Ie]. eexists. split_and!; [done| |done].
  split; cbn; [done|done| |].
  - intros a o Ha. destruct (Ik a o Ha) as [[i Hu] Hse]. split; [|done]. cbn.
    rewrite map_lookup_imap, Hu. by eexists.
  - intros b esi i'. cbn. rewrite map_lookup_imap.
    destruct (om_universe om !! esi) as [i|] eqn:Hu; [|done]. intros [= <-].
    rewrite locates_open. by apply Ie.
Qed.

(** ** What answers leave *)

Lemma on_acknowledged_spec a x n ts xts om om' o : om_heap om !! a = Some o →
  on_acknowledged (Some a) x n ts xts om = Ok om' →
  om_universe om' = om_universe om /\ om_heap om' = <[a := order_update_on_ack x n ts xts o]> (om_heap om).
Proof.
  intros Ha. open_op (@on_acknowledged) Ha. destruct (log_acknowledged _) as [m|]; [|done].
  intros [= <-]. unfold notify. by case_match.
Qed.

Lemma report_heap ev o m om : om_heap (notify ev o (blot m om)) = om_heap om.
Proof. unfold notify. by case_match. Qed.
Lemma report_orders ev o m om : om_orders (notify ev o (blot m om)) = om_orders om.
Proof. unfold notify. by case_match. Qed.
Lemma firm_event_heap esi f om om' : firm_event esi f om = Ok om' → om_heap om' = om_heap om.
Proof.
  unfold firm_event. intros (i & _ & Hr)%res_bind_Ok. cbv zeta in Hr.
  apply res_bind_Ok in Hr as ([i' r] & _ & Hr). by injection Hr as <-.
Qed.
Lemma on_cancel_heap a n ts xts om om' o : om_heap om !! a = Some o →
  on_cancel (Some a) n ts xts om = Ok om' →
  om_heap om' = <[a := order_update_on_cancel n ts xts o]> (om_heap om).
Proof.
  intros Ha. unfold on_cancel, get_order. rewrite Ha. cbn [mbind res_bind].
  intros (om1 & Hret & Hr)%res_bind_Ok. apply res_bind_Ok in Hr as (om2 & Hrem & Hr).
  apply res_bind_Ok in Hr as (m & _ & Hr). injection Hr as <-.
  assert (om_heap om1 = <[a := order_update_on_cancel n ts xts o]> (om_heap om)) as H1'.
  { revert Hret. unfold return_locates_on_cancel. intros (i & _ & Hr)%res_bind_Ok. cbv zeta in Hr.
    case_match; by injection Hr as <-. }
  apply firm_event_heap in Hrem. by rewrite report_heap, Hrem.
Qed.

(** ** Every step *)

Lemma step_sound ev om : invariant om → allowed ev om →
  sound (om_step ev om) (λ om', book_moves (views om) (views om')).
Proof.
  intros Hi Hal. destruct ev.
  - by apply create_sound.
  - by apply send_sound.
  - destruct Hal as (o & Ha & _).
    destruct (cancel_sound om a newqty Hi) as (b & om' & Hc & Hi' & Hv); [eauto|].
    exists om'. unfold om_step. rewrite Hc, Hv. split_and!; [done|done|constructor].
  - eapply sound_weaken; [|by apply find_and_cancel_sound]. intros om' ->. constructor.
  - by apply destroy_sound.
  - by apply on_acknowledged_sound.
  - by apply on_rejected_sound.
  - by apply on_fill_sound.
  - by apply on_cancel_rejected_sound.
  - by apply on_cancel_sound.
  - by apply last_sale_sound.
  - by apply manual_adj_sound.
  - destruct enable; by apply firm_sound.
  - destruct enable; by apply firm_sound.
Qed.

(** An order manager that has just been set up: no orders, nothing open. *)
Definition initial om : Prop :=
  om_localID om = 0 /\ om_orders om = [None] /\ om_heap om = ∅
  /\ (∀ esi i b, om_universe om !! esi = Some i → pos_open b (i_position i) = 0).

Inductive reachable : OrderManager D S → Prop :=
| reach_initial om : initial om → reachable om
| reach_step om ev om' : reachable om → allowed ev om → om_step ev om = Ok om' → reachable om'.

Lemma initial_invariant om : initial om → invariant om.
Proof.
  intros (E1 & E2 & E3 & E4). split.
  - unfold ids_ok. rewrite E1, E2, E3. split_and!; [done|done| |].
    + intros [|[|]] a; cbn; done.
    + intros a o. by rewrite lookup_empty.
  - intros a o. by rewrite E3, lookup_empty.
  - intros a o. by rewrite E3, lookup_empty.
  - intros b esi i Hi. rewrite (E4 esi i b Hi), E3. split; [lia|].
    unfold exposed. by rewrite msum_empty.
Qed.

Lemma reachable_invariant om : reachable om → invariant om.
Proof.
  induction 1 as [om Hin|om ev om' _ IH Hal Hs]; [by apply initial_invariant|].
  destruct (step_sound ev om IH Hal) as (om2 & Hs2 & Hi & _). congruence.
Qed.

(** C1: While callers and exchange keep to their contract ([allowed]), in whatever
    order they act, no operation of the order manager fails an assertion, throws,
    or follows a bad pointer or index, and each step of it is a step of the
    specification of the order book: at most one order moves, along its lifecycle
    ([order_moves]).  The contract: an order is new when it is created, sent once,
    to a session of its own market, and destroyed only when nothing of it is
    outstanding; the exchange acknowledges and rejects orders that were sent to
    it, and fills and cancels no more than is open of orders that it acknowledged
    (or turns a sent order away whole); local ids and the open shares of a
    position stay below 2^32. *)
Theorem order_manager_refines_lifecycle om ev : reachable om → allowed ev om →
  ∃ om', om_step ev om = Ok om' /\ reachable om' /\ book_moves (views om) (views om').
Proof.
  intros Hr Hal. destruct (step_sound ev om (reachable_invariant om Hr) Hal) as (om' & Hs & _ & Hm).
  exists om'. split_and!; [done|by eapply reach_step|done].
Qed.

(** C2: After any run of operations in which callers and exchange keep to their
    contract (that of [allowed]: orders sent once to their own market and destroyed
    only when nothing of them is outstanding, fills and cancels of no more than is
    open), the book-keeping adds up: for each order at the exchange, what is
    filled, cancelled and open is its size; the open size of each side of each
    position is the sum of what its orders have outstanding; and a local id names
    one order, which its slot of the id table holds. *)
Theorem book_keeping_adds_up om : reachable om →
  (∀ a o, om_heap om !! a = Some o →
     0 <= o_filled_size o /\ 0 <= o_cancelled_size o
     /\ o_filled_size o + o_cancelled_size o <= o_size o
     /\ (∀ f c, phase_of o = Working f c →
           o_filled_size o + o_cancelled_size o + o_open_size o = o_size o))
  /\ (∀ esi i, om_universe om !! esi = Some i →
       p_open_long_size (i_position i) = exposed true esi (om_heap om)
       /\ p_open_short_size (i_position i) = exposed false esi (om_heap om))
  /\ (∀ a o, om_heap om !! a = Some o → o_localID o ≠ 0 →
       om_orders om !! Z.to_nat (o_localID o) = Some (Some a)).
Proof.
  intros Hr%reachable_invariant. split_and!.
  - intros a o Ha. pose proof (inv_sizes _ Hr a o Ha) as Hok.
    destruct (phase_of o) as [| | |f c] eqn:Hph.
    all: try (destruct Hok as [? Hsz]; rewrite Hph in Hsz; unfold unacked in Hsz;
      split_and!; try lia; done).
    destruct (working_inv o f c Hok Hph) as (?&?&?&?&?&?&?&->&->).
    split_and!; lia.
  - intros esi i Hu. split; [apply (inv_exposure _ Hr true esi i Hu)|].
    apply (inv_exposure _ Hr false esi i Hu).
  - intros a o Ha Hid. apply (inv_ids _ Hr); done.
Qed.

End Lifecycle.

(** ** A day with one order *)

#[local] Abbreviation B := SpecFloat.spec_float.

Definition day_lex (s : string) : option B := if bool_decide (s = "1e5") then Some (d_of_Z 100000) else None.
Definition day_firm : FirmRisk B :=
  match firm_init day_lex (sample_cfg "1e5") FirmRisk_new with
  | Ok f => update_open_exposure_breaker_state BUY f | Fail _ => FirmRisk_new
  end.
Definition day_instrument : EquityInstrument B :=
  EquityInstrument_new "IBM" 1 XNYS
    (mkParams 0 (d_of_Z 10) 1000 (d_of_Z 500) (d_of_Z 100000) 2 5000 (d_of_Z 1000000)
       100 500 (mkSeries 0 0 0) (mkSeries d0 d0 d0) false).
Definition day_order : Order B :=
  Order_new (mkTs 100 0) NYSEOrder 1 (d_of_Z 20) 300 SELL DAY LIMIT None 0.
Definition sample_session : L2SimSession B :=
  (L2SimSession_new XNYS {[1 := "IBM"]} (Some 100) None)
    <| sim_ts := mkTs 100 0 |> <| sim_index_map := {["IBM" := 1]} |>.
Definition sample_om : OrderManager B (L2SimSession B) :=
  OrderManager_new <| om_firm_risk := day_firm |>
    <| om_sessions := {["sim" := sample_session]} |> <| om_universe := {[1 := day_instrument]} |>.
(** Where [create_order] puts the first order. *)
Definition first_order : Z := fresh (∅ : gset Z).
Definition sample_events : list Event :=
  [EvCreate (day_order); EvSend first_order "sim";
   EvAck first_order 1 300 (mkTs 101 0) 0;
   EvFill first_order 100 (d_of_Z 20) (mkTs 102 0) 0 0;
   EvCancel first_order 0].
Definition om_run (evs : list Event) (om : OrderManager B (L2SimSession B)) :=
  foldM (λ om ev, om_step ev om) om evs.
Definition sample_state (n : nat) : OrderManager B (L2SimSession B) :=
  match om_run (take n sample_events) sample_om with Ok om => om | Fail _ => sample_om end.

(** The events may happen, one after the other. *)
Lemma sample_allowed n ev : sample_events !! n = Some ev → allowed ev (sample_state n).
Proof.
  destruct n as [|[|[|[|[|n]]]]]; [intros [= <-]..|done]; cbn [allowed].
  - unfold unacked. split_and!; [reflexivity..|discriminate|reflexivity|].
    eexists. vm_compute. reflexivity.
  - eexists. split; [vm_compute; reflexivity|].
    split; [reflexivity|]. split; [reflexivity|]. split; [vm_compute; reflexivity|]. split.
    + eexists. split; vm_compute; reflexivity.
    + intros i Hi. vm_compute in Hi. injection Hi as <-. vm_compute. reflexivity.
  - eexists. split; vm_compute; [reflexivity|by split].
  - eexists. split; [vm_compute; reflexivity|]. split; [by do 2 eexists|]. z_compute.
  - eexists. by split; [vm_compute; reflexivity|].
Qed.
Lemma sample_step n ev : sample_events !! n = Some ev →
  om_step ev (sample_state n) = Ok (sample_state (S n)).
Proof. destruct n as [|[|[|[|[|n]]]]]; [intros [= <-]; vm_compute; reflexivity..|done]. Qed.

Lemma sample_reachable n : (n <= 5)%nat → reachable (sample_state n).
Proof.
  induction n as [|n IH]; intros Hn.
  - apply reach_initial. unfold initial. split_and!; try done.
    intros esi i b Hi. change (({[1 := day_instrument]} : gmap Z _) !! esi = Some i) in Hi.
    apply lookup_singleton_Some in Hi as [<- <-]. by destruct b.
  - destruct (lookup_lt_is_Some_2 sample_events n) as [ev Hev]; [cbn; lia|].
    eapply reach_step; [apply IH; lia|by apply sample_allowed|by apply sample_step].
Qed.

Lemma order_manager_refines_lifecycle_witness :
  views (sample_state 3) !! first_order = Some (mkView 1 false 300 (Working 0 0))
  /\ book_moves (views (sample_state 3)) (views (sample_state 4))
  /\ views (sample_state 4) !! first_order = Some (mkView 1 false 300 (Working 100 0)).
Proof.
  split; [vm_compute; reflexivity|]. split; [|vm_compute; reflexivity].
  destruct (order_manager_refines_lifecycle (sample_state 3)
    (EvFill first_order 100 (d_of_Z 20) (mkTs 102 0) 0 0)) as (om' & Hs & _ & Hm).
  - apply sample_reachable. lia.
  - by apply sample_allowed.
  - rewrite sample_step in Hs by reflexivity. apply Ok_inj in Hs as <-. exact Hm.
Defined.

Lemma book_keeping_adds_up_witness :
  exposed false 1 (om_heap (sample_state 5)) = 200
  /\ ∃ i, om_universe (sample_state 5) !! 1 = Some i /\ p_open_short_size (i_position i) = 200.
Proof.
  assert (exposed false 1 (om_heap (sample_state 5)) = 200) as He by (vm_compute; reflexivity).
  split; [done|].
  destruct (book_keeping_adds_up (sample_state 5)) as (_ & Hp & _); [apply sample_reachable; lia|].
  destruct (om_universe (sample_state 5) !! 1) as [i|] eqn:Hu; [|vm_compute in Hu; discriminate].
  exists i. split; [done|]. rewrite <- He. by apply Hp.
Defined.
