(* ===== verification/OrderRoom.v ===== *)
(** * How much room the order manager's operations take

    An order that is sent takes one local id and the open shares of its size; what
    else the program calls takes neither.  So a caller that knows how many orders
    it may send, and of how many shares, knows that nothing wraps. *)

From S2P Require Import Prelude Dbl Time Types Order Position Config Instrument FirmRisk.
From S2P Require Import OrderLog Blotter Session OrderManager OrderInvariant OrderLifecycle.
Open Scope Z_scope.

Section Room.
Context {D S : Type} `{Dbl D} `{!OrderSession D S} `{!OrderSessionLaws D S}.
Implicit Types (om : OrderManager D S) (o : Order D) (p : Position D).

(** Open shares grow by at most [n]; with [held], what is held stays. *)
Definition pos_grows (held : bool) (n : Z) p p' : Prop :=
  (held = true → p_trading_quantity p' = p_trading_quantity p)
  /\ ∀ b, 0 <= pos_open b p → 0 <= pos_open b p' <= pos_open b p + n.
(** Local ids grow by at most [k], open shares of every instrument by [n]. *)
Definition grows (held : bool) (k n : Z) om om' : Prop :=
  (0 <= om_localID om → 0 <= om_localID om' <= om_localID om + k)
  /\ ∀ esi i', om_universe om' !! esi = Some i' →
       ∃ i, om_universe om !! esi = Some i /\ pos_grows held n (i_position i) (i_position i').

Lemma pos_grows_trans h n n' p1 p2 p3 : pos_grows h n p1 p2 → pos_grows h n' p2 p3 →
  pos_grows h (n + n') p1 p3.
Proof.
  intros [A1 B1] [A2 B2]. split; [intros Hh; rewrite A2; auto|]. intros b Hb.
  specialize (B1 b Hb). specialize (B2 b ltac:(lia)). lia.
Qed.
Lemma pos_grows_refl h p : pos_grows h 0 p p.
Proof. split; [done|]. intros b. lia. Qed.
Lemma grows_trans h k k' n n' om1 om2 om3 : grows h k n om1 om2 → grows h k' n' om2 om3 →
  grows h (k + k') (n + n') om1 om3.
Proof.
  intros [A1 B1] [A2 B2]. split; [intros Hp; specialize (A1 Hp); specialize (A2 ltac:(lia)); lia|].
  intros esi i3 H3. destruct (B2 esi i3 H3) as (i2 & H2 & G2). destruct (B1 esi i2 H2) as (i1 & H1' & G1).
  exists i1. split; [done|]. by eapply pos_grows_trans.
Qed.
Lemma grows_then h k n om1 om2 om3 : grows h k n om1 om2 → grows h 0 0 om2 om3 → grows h k n om1 om3.
Proof. intros A B. rewrite <- (Z.add_0_r k), <- (Z.add_0_r n). by eapply grows_trans. Qed.
Lemma grows_after h k n om1 om2 om3 : grows h k 0 om1 om2 → grows h 0 n om2 om3 → grows h k n om1 om3.
Proof. intros A B. rewrite <- (Z.add_0_r k), <- (Z.add_0_l n). by eapply grows_trans. Qed.
Lemma grows_same h om om' : om_localID om' = om_localID om → om_universe om' = om_universe om → grows h 0 0 om om'.
Proof.
  intros E1 E2. split; [lia|]. intros esi i Hi. rewrite E2 in Hi. exists i. split; [done|apply pos_grows_refl].
Qed.
Lemma grows_put h n om esi i i' : om_universe om !! esi = Some i → 0 <= n →
  pos_grows h n (i_position i) (i_position i') → grows h 0 n om (put_inst i' esi om).
Proof.
  intros Hi Hn Hp. split; [cbn; lia|]. intros e j. cbn. rewrite lookup_insert_Some.
  intros [[<- <-]|[_ Hj]]; [by exists i|]. exists j. split; [done|]. split; [done|]. intros b. lia.
Qed.
Lemma grows_firm n esi om om' (g : FirmRisk D → Position D → res (FirmRisk D * Position D)) : 0 <= n →
  (∀ f p f' p', g f p = Ok (f', p') → pos_grows true n p p') →
  firm_event esi g om = Ok om' → grows true 0 n om om'.
Proof.
  intros Hn Hg. unfold firm_event, get_inst. destruct (om_universe om !! esi) as [i|] eqn:Hi; [|done].
  cbn [mbind res_bind]. destruct (g _ _) as [[f p]|] eqn:E; [|done]. intros [= <-]. apply Hg in E.
  eapply grows_then; [by apply (grows_put true n om esi i (i <| i_position := p |>))|by apply grows_same].
Qed.

Lemma u32_grows x : 0 <= x → 0 <= u32 x <= x.
Proof.
  intros Hx. split; [apply (wrap_range 32); lia|]. apply (Z.mod_le x (2 ^ 32)); [done|lia].
Qed.
Lemma adds_grow o n f p f' p' : 0 <= n → on_order_adds o n f p = (f', p') → pos_grows true n p p'.
Proof.
  intros Hn Ha. destruct (adds_open _ _ _ _ _ _ Ha) as [E1 E2]. split.
  - intros _. revert Ha. unfold on_order_adds. by destruct (is_buy (o_side o)); intros [= _ <-].
  - intros b Hb. destruct (decide (b = is_buy (o_side o))) as [->|Hne].
    + rewrite E1. apply u32_grows. lia.
    + assert (b = negb (is_buy (o_side o))) as -> by (by destruct b, (is_buy (o_side o))). rewrite E2. lia.
Qed.
Lemma removes_grow o n f p f' p' : 0 <= n → on_order_removes o n f p = Ok (f', p') → pos_grows true 0 p p'.
Proof.
  intros Hn Hr. assert (n <= pos_open (is_buy (o_side o)) p) as Hle.
  { revert Hr. unfold on_order_removes, sub_open_buys, sub_open_sells, assert.
    destruct (is_buy (o_side o)); cbn [pos_open]; case_if; try discriminate; intros _; by apply Z.leb_le. }
  destruct (removes_open o n f p Hle) as (f1 & p1 & Hr1 & E1 & E2). rewrite Hr in Hr1. injection Hr1 as <- <-.
  split.
  - intros _. revert Hr. unfold on_order_removes, sub_open_buys, sub_open_sells, assert.
    destruct (is_buy (o_side o)); (destruct (Z.leb _ _); [|done]); cbn [mbind res_bind]; by intros [= _ <-].
  - intros b Hb. destruct (decide (b = is_buy (o_side o))) as [->|Hne].
    + rewrite E1. pose proof (u32_grows (pos_open (is_buy (o_side o)) p - n)). lia.
    + assert (b = negb (is_buy (o_side o))) as -> by (by destruct b, (is_buy (o_side o))). rewrite E2. lia.
Qed.
Lemma validate_grows o i b i' o' : inst_validate o i = (b, i', o') →
  pos_grows true 0 (i_position i) (i_position i').
Proof.
  intros Hv. destruct (inst_validate_frame _ _ _ _ _ Hv) as (Ho & _). split; [|intros b'; rewrite Ho; lia].
  intros _. unfold inst_validate, validate_locates in Hv.
  repeat case_if; cbn in Hv; by injection Hv as <- <- <-.
Qed.

(** *** Sending *)

Lemma reject_grows a om b om' : reject_locally a om = Ok (b, om') → grows true 0 0 om om'.
Proof. unfold reject_locally. intros Hr. res_inv. by apply grows_same. Qed.
Lemma risk_checks_grow a om b om' : risk_checks a om = Ok (b, om') → grows true 0 0 om om'.
Proof.
  unfold risk_checks, get_inst. intros Hr. res_inv. destruct (om_universe om !! o_instrument x) as [i|] eqn:Hi; [|done].
  injection Hx0 as <-. destruct (firm_new_order _ _ _) as [ok f]. case_if; [|res_inv; by apply grows_same].
  destruct (inst_validate x i) as [[ok' i'] o'] eqn:Hv. res_inv. apply validate_grows in Hv.
  eapply grows_then; [|by apply (grows_same _ (put_inst i' (o_instrument x) (om <| om_firm_risk := f |>)))].
  eapply grows_after; [by apply (grows_same _ om (om <| om_firm_risk := f |>))|]. by eapply grows_put.
Qed.
Lemma send_to_session_grows a name om b om' o : om_heap om !! a = Some o → 0 <= o_size o →
  send_to_session a name om = Ok (b, om') → grows true 0 (o_size o) om om'.
Proof.
  unfold send_to_session, get_order. intros Ha Hn. rewrite Ha. cbn [mbind res_bind]. intros Hr.
  apply res_bind_Ok in Hr as (om1 & Had & Hr). apply res_bind_Ok in Hr as (s & Hs & Hr).
  apply (grows_firm (o_size o)) in Had; [|done|intros f p f' p' [= Ha1]; by eapply adds_grow].
  destruct (ss_send _ _ _) as [[sent s'] o'] eqn:Hsend. apply send_fields in Hsend as [Hf _].
  apply session_fields in Hf as (_ & _ & Hsz & _).
  eapply grows_then; [exact Had|]. destruct sent; [res_inv; by apply grows_same|].
  apply res_bind_Ok in Hr as (om2 & Hrem & Hr). injection Hr as _ <-.
  eapply grows_then; [apply (grows_same true _ (put_order a o' (put_session name s' om1))); done|].
  eapply grows_firm; [done| |exact Hrem]. intros f p f' p'. apply removes_grow. rewrite Hsz. exact Hn.
Qed.
Lemma send_grows a name om b om' o : om_heap om !! a = Some o → 0 <= o_size o →
  send (Some a) (Some name) om = Ok (b, om') → grows true 1 (o_size o) om om'.
Proof.
  unfold send, get_order. intros Ha Hn. rewrite Ha. cbn [mbind res_bind]. intros Hr.
  do 3 (apply res_bind_Ok in Hr as (? & _ & Hr)).
  match type of Hr with context [risk_checks a ?m] => set (om1 := m) in * end.
  set (o1 := o <| o_localID := u32 (om_localID om + 1) |>) in *.
  assert (grows true 1 0 om om1) as G1.
  { split; [|intros esi i Hi; exists i; split; [exact Hi|apply pos_grows_refl]].
    intros Hp. change (om_localID om1) with (u32 (om_localID om + 1)).
    pose proof (u32_grows (om_localID om + 1)). lia. }
  assert (om_heap om1 !! a = Some o1) as Ha1 by apply lookup_insert_eq.
  clearbody om1. change (o_size o) with (o_size o1) in *. clearbody o1. clear Ha.
  eapply grows_after; [exact G1|]. clear G1.
  assert (∀ h n om2 b2 om3, grows h 0 n om1 om2 → 0 <= n <= o_size o1 → h = true → reject_locally a om2 = Ok (b2, om3) →
    grows true 0 (o_size o1) om1 om3) as Hrej.
  { intros h n om2 b2 om3 [A B] Hle -> Hj. apply reject_grows in Hj.
    pose proof (grows_trans _ _ _ _ _ _ _ _ (conj A B) Hj) as [A' B'].
    split; [exact A'|]. intros esi i' Hi'. destruct (B' esi i' Hi') as (i & Hi & Hq & Hg). exists i.
    split; [done|]. split; [done|]. intros b' Hb'. specialize (Hg b' Hb'). lia. }
  case_if; [|eapply Hrej; [by apply grows_same|lia|done|exact Hr]].
  apply res_bind_Ok in Hr as ([ok om2] & Hrisk & Hr). pose proof (risk_checks_grow _ _ _ _ Hrisk) as G2.
  destruct ok; [|eapply Hrej; [exact G2|lia|done|exact Hr]].
  apply res_bind_Ok in Hr as ([sent om3] & Hsend & Hr).
  assert (∃ o2, om_heap om2 !! a = Some o2 /\ o_size o2 = o_size o1) as (o2 & Ha2 & Hsz).
  { revert Hrisk. unfold risk_checks, get_order. rewrite Ha1. cbn [mbind res_bind]. intros Hrisk.
    apply res_bind_Ok in Hrisk as (i & _ & Hrisk). destruct (firm_new_order _ _ _) as [ok f].
    case_if; [|res_inv; by exists o1]. destruct (inst_validate o1 i) as [[ok' i'] o'] eqn:Hv. res_inv.
    destruct (inst_validate_frame _ _ _ _ _ Hv) as (_ & -> & _). eexists. split; [apply lookup_insert_eq|done]. }
  pose proof (send_to_session_grows _ _ _ _ _ _ Ha2 ltac:(lia) Hsend) as G3. rewrite Hsz in G3.
  pose proof (grows_after _ _ _ _ _ _ G2 G3) as G.
  destruct sent; [by res_inv|]. eapply Hrej; [exact G|lia|done|exact Hr].
Qed.

(** *** Cancelling *)

Lemma cancel_grows h a n om b om' : cancel (Some a) n om = Ok (b, om') → grows h 0 0 om om'.
Proof.
  unfold cancel. intros Hr. res_inv. case_match; [|by res_inv; apply grows_same].
  repeat (case_if; [by res_inv; apply grows_same|]). res_inv.
  destruct (ss_cancel _ _ _ _) as [[ok s1] o1]. destruct ok; res_inv; by apply grows_same.
Qed.
Lemma find_and_cancel_grows h pred om n om' : find_and_cancel pred om = Ok (n, om') → grows h 0 0 om om'.
Proof.
  unfold find_and_cancel. intros Hr.
  eapply (foldM_invariant (cancel_one pred) (λ st, grows h 0 0 om st.2) (λ _, True)) in Hr; [done|..|by apply grows_same].
  - intros [k om1] [a|] st' _ K; cbn [cancel_one]; [|by intros; res_inv].
    intros Hr1. res_inv. case_if; [|by res_inv]. res_inv. destruct x0 as [ok om2].
    apply (cancel_grows h) in Hx0. destruct ok; res_inv; exact (grows_trans _ _ _ _ _ _ _ _ K Hx0).
  - by apply Forall_true.
Qed.
Lemma cancel_all_session_grows h name om n om' :
  cancel_all_session (Some name) om = Ok (n, om') → grows h 0 0 om om'.
Proof.
  unfold cancel_all_session. intros Hr. res_inv. destruct (ss_cancel_all x) as [k s].
  case_if; res_inv; [by apply grows_same|]. apply (find_and_cancel_grows h) in Hr.
  eapply grows_after; [by apply (grows_same h om (put_session name s om))|exact Hr].
Qed.
Lemma manual_adj_grows esi d1 d2 om : grows false 0 0 om (manual_position_adj esi d1 d2 om).
Proof.
  unfold manual_position_adj. case_if; [by apply grows_same|].
  destruct (om_universe om !! esi) as [i|] eqn:Hi; [|by apply grows_same].
  apply (grows_put false 0 om esi i); [done..|]. split; [done|]. intros b. destruct b; cbn; lia.
Qed.
Lemma locates_grow lex cta cfg om : grows false 0 0 om (load_and_update_locates lex cta cfg om).
Proof.
  split; [cbn; lia|]. intros esi i'. cbn. rewrite map_lookup_imap.
  destruct (om_universe om !! esi) as [i|] eqn:Hi; [|done]. intros [= <-]. exists i. split; [done|].
  split; [done|]. intros b. rewrite locates_open. lia.
Qed.

(** ** Room *)

(** For [n] more orders of at most [M] shares. *)
Definition roomy (M : Z) (n : nat) om : Prop :=
  om_localID om + Z.of_nat n < 2 ^ 32
  /\ ∀ esi i b, om_universe om !! esi = Some i → pos_open b (i_position i) + Z.of_nat n * M < 2 ^ 32.
(** No instrument is held in more than [M] shares. *)
Definition holdings (M : Z) om : Prop :=
  ∀ esi i, om_universe om !! esi = Some i → Z.abs (p_trading_quantity (i_position i)) <= M.

Lemma holdings_grow M k n om om' : grows true k n om om' → holdings M om → holdings M om'.
Proof.
  intros [_ Hg] Hh esi i' Hi'. destruct (Hg esi i' Hi') as (i & Hi & Hq & _). rewrite Hq by done. by eapply Hh.
Qed.
Lemma roomy_less M n n' om : 0 <= M → (n' <= n)%nat → roomy M n om → roomy M n' om.
Proof.
  intros HM Hn [Hl Hu]. split; [lia|]. intros esi i b Hi. specialize (Hu esi i b Hi).
  assert (Z.of_nat n' * M <= Z.of_nat n * M) by nia. lia.
Qed.
(** What an operation that sends [n] orders leaves. *)
Lemma roomy_grow M (n k : nat) h om om' m : invariant om → 0 <= M → m <= Z.of_nat n * M →
  grows h (Z.of_nat n) m om om' → roomy M (n + k) om → roomy M k om'.
Proof.
  intros Hi HM Hm [Hl Hu] [Rl Ru].
  assert (0 <= om_localID om) as Hpos.
  { destruct (inv_ids _ Hi) as (Hlen & Hz & _). apply lookup_lt_Some in Hz. lia. }
  specialize (Hl Hpos). split; [lia|]. intros esi i' b Hi'. destruct (Hu esi i' Hi') as (i & Hu' & _ & Hg).
  destruct (inv_exposure _ Hi b esi i Hu') as [[Hb _] _]. specialize (Hg b Hb). specialize (Ru esi i b Hu').
  rewrite Nat2Z.inj_add, Z.mul_add_distr_r in Ru. lia.
Qed.
End Room.
