(* ===== verification/ManualCorrect.v ===== *)
(** * What the operator can do

    Whatever is typed, the strategy drives the order manager through steps that
    keep its books, and nothing it dereferences is missing; what its lists say;
    the price a position is closed out at; and the markets that it offers and
    cannot send to. *)

From Stdlib Require Import Ascii Qcanon QArith Lqa.
From stdpp Require Import sorting.
From S2P Require Import Prelude StdMap Dbl Time Types Order Position Config Instrument FirmRisk.
From S2P Require Import OrderLog Blotter Session SimSession OrderManager OrderInvariant OrderLifecycle OrderRoom.
From S2P Require Import Boe20Attr Manual.
Open Scope Z_scope.

(** ** What the order manager's operations leave in place *)

Section Keeps.
Context {D S : Type} `{Dbl D} `{!OrderSession D S} `{!OrderSessionLaws D S}.
Implicit Types (om : OrderManager D S) (o : Order D).

(** Orders stay, with their market; so do sessions; the instruments are the same. *)
Record keeps om om' : Prop := mkKeeps {
  keeps_order a o : om_heap om !! a = Some o →
    ∃ o', om_heap om' !! a = Some o' /\ o_market o' = o_market o;
  keeps_session name s : om_sessions om !! name = Some s →
    ∃ s', om_sessions om' !! name = Some s' /\ ss_market s' = ss_market s;
  keeps_universe esi : is_Some (om_universe om !! esi) → is_Some (om_universe om' !! esi)
}.
#[export] Instance keeps_preorder : PreOrder keeps.
Proof.
  split.
  - intros om. split; eauto.
  - intros om1 om2 om3 [A1 B1 C1] [A2 B2 C2]. split; [..|by auto].
    + intros a o Ha. destruct (A1 a o Ha) as (o2 & H2 & E2). destruct (A2 a o2 H2) as (o3 & ? & ?).
      exists o3. split; congruence.
    + intros n s Hs. destruct (B1 n s Hs) as (s2 & H2 & E2). destruct (B2 n s2 H2) as (s3 & ? & ?).
      exists s3. split; congruence.
Qed.

Lemma keeps_core om om' : om_heap om' = om_heap om → om_sessions om' = om_sessions om →
  om_universe om' = om_universe om → keeps om om'.
Proof. intros E1 E2 E3. split; rewrite ?E1, ?E2, ?E3; eauto. Qed.
Lemma keeps_put_order om a o o' : om_heap om !! a = Some o → o_market o' = o_market o →
  keeps om (put_order a o' om).
Proof.
  intros Ha Hm. split; cbn; [|eauto..]. intros b x Hb. destruct (decide (a = b)) as [<-|].
  - rewrite lookup_insert_eq. exists o'. split; congruence.
  - rewrite lookup_insert_ne by done. eauto.
Qed.
Lemma keeps_new_order om o : keeps om (create_order o om).2.
Proof.
  split; cbn; [|eauto..]. intros b x Hb. rewrite lookup_insert_ne; [by eauto|].
  intros <-. by apply (is_fresh (dom (om_heap om))), elem_of_dom.
Qed.
Lemma keeps_put_session om name s s' : om_sessions om !! name = Some s →
  ss_market s' = ss_market s → keeps om (put_session name s' om).
Proof.
  intros Hs Hm. split; cbn; [eauto| |eauto]. intros n x Hn. destruct (decide (name = n)) as [<-|].
  - rewrite lookup_insert_eq. exists s'. split; congruence.
  - rewrite lookup_insert_ne by done. eauto.
Qed.
Lemma keeps_put_inst om esi i : keeps om (put_inst i esi om).
Proof. split; cbn; [eauto..|]. intros e He. by apply lookup_insert_is_Some'; right. Qed.
Lemma books_firm_event om om' esi g : firm_event esi g om = Ok om' → keeps om om'.
Proof.
  unfold firm_event. intros Hf. res_inv. destruct x0 as [f p]. res_inv.
  etransitivity; [apply (keeps_put_inst om esi)|by apply keeps_core].
Qed.
Lemma get_order_Ok a om o : get_order a om = Ok o ↔ om_heap om !! a = Some o.
Proof. unfold get_order. case_match; naive_solver. Qed.
Lemma get_session_ref_Ok name om s : get_session_ref name om = Ok s ↔ om_sessions om !! name = Some s.
Proof. unfold get_session_ref. case_match; naive_solver. Qed.
Lemma session_only_market o o' : session_fields_only o o' → o_market o' = o_market o.
Proof. by intros [? _]. Qed.

Lemma keeps_reject om om' a b : reject_locally a om = Ok (b, om') → keeps om om'.
Proof.
  unfold reject_locally. intros Hr. res_inv. apply get_order_Ok in Hx.
  etransitivity; [apply (keeps_put_order om a x (x <| o_state := LOCALLY_REJECTED |>)); done|].
  by apply keeps_core.
Qed.
Lemma keeps_risk_checks om om' a b : risk_checks a om = Ok (b, om') → keeps om om'.
Proof.
  unfold risk_checks. intros Hr. res_inv. apply get_order_Ok in Hx.
  destruct (firm_new_order _ _ _) as [ok f]. case_if.
  - destruct (inst_validate _ _) as [[ok' i'] o'] eqn:Hv. res_inv.
    destruct (inst_validate_frame _ _ _ _ _ Hv) as (_ & -> & _).
    etransitivity; [apply (keeps_core om (om <| om_firm_risk := f |>)); done|].
    etransitivity; [apply keeps_put_inst|]. by eapply keeps_put_order.
  - res_inv. by apply keeps_core.
Qed.
Lemma keeps_send_to_session om om' a name b : send_to_session a name om = Ok (b, om') → keeps om om'.
Proof.
  unfold send_to_session, order_adds, order_removes. intros Hr. res_inv. apply get_order_Ok in Hx.
  pose proof (books_firm_event _ _ _ _ Hx0) as K1.
  destruct (keeps_order _ _ K1 a x Hx) as (x' & Hx' & Hm). apply get_session_ref_Ok in Hx1.
  destruct (ss_send _ _ _) as [[sent s] o] eqn:Hs.
  destruct (send_fields _ _ _ _ _ _ Hs) as [Ho Hsm]. apply session_only_market in Ho.
  pose proof (keeps_put_session _ _ _ _ Hx1 Hsm) as K2.
  assert (∀ o', o_market o' = o_market o → keeps om (put_order a o' (put_session name s x0))) as K.
  { intros o' Ho'. etransitivity; [exact K1|]. etransitivity; [exact K2|].
    apply (keeps_put_order _ a x'); [done|]. by rewrite Ho', Ho, Hm. }
  destruct sent; res_inv.
  - etransitivity; [apply (K (o <| o_state := SENT |>)); done|]. by apply keeps_core.
  - etransitivity; [by apply (K o)|]. by eapply books_firm_event.
Qed.
Lemma keeps_send om om' a name b : send (Some a) (Some name) om = Ok (b, om') → keeps om om'.
Proof.
  unfold send. intros Hr. res_inv. apply get_order_Ok in Hx.
  match type of Hr with context [risk_checks a ?m] => set (om1 := m) in * end.
  assert (keeps om om1) as K1.
  { etransitivity; [by apply (keeps_put_order om a x (x <| o_localID := u32 (om_localID om + 1) |>))|].
    by apply keeps_core. }
  clearbody om1. etransitivity; [exact K1|]. case_if; [|by eapply keeps_reject].
  apply res_bind_Ok in Hr as ([ok om2] & Hx3 & Hr). apply keeps_risk_checks in Hx3.
  etransitivity; [exact Hx3|]. destruct ok; [|by eapply keeps_reject].
  apply res_bind_Ok in Hr as ([sent om3] & Hx4 & Hr). apply keeps_send_to_session in Hx4.
  etransitivity; [exact Hx4|]. destruct sent; [by res_inv|by eapply keeps_reject].
Qed.
Lemma keeps_cancel om om' a n b : cancel (Some a) n om = Ok (b, om') → keeps om om'.
Proof.
  unfold cancel. intros Hr. res_inv. apply get_order_Ok in Hx.
  case_match; [|by res_inv]. repeat (case_if; [by res_inv|]). res_inv.
  apply get_session_ref_Ok in Hx0.
  destruct (ss_cancel _ _ _ _) as [[ok s1] o1] eqn:Hs.
  destruct (cancel_fields _ _ _ _ _ _ _ Hs) as [Ho Hsm]. apply session_only_market in Ho.
  destruct ok; res_inv; (etransitivity; [by eapply keeps_put_session|]).
  - match goal with |- keeps _ (blot _ ?m) => etransitivity; [|by apply (keeps_core m)] end.
    by apply (keeps_put_order _ a x).
  - by apply (keeps_put_order _ a x).
Qed.
Lemma keeps_find_and_cancel om om' pred n : find_and_cancel pred om = Ok (n, om') → keeps om om'.
Proof.
  unfold find_and_cancel. intros Hr.
  eapply (foldM_invariant (cancel_one pred) (λ st, keeps om st.2) (λ _, True)) in Hr; [done|..|done].
  - intros [k om1] [a|] st' _ K; cbn [cancel_one]; [|by intros; res_inv].
    intros Hr1. res_inv. case_if; [|by res_inv]. res_inv. destruct x0 as [ok om2].
    apply keeps_cancel in Hx0. destruct ok; res_inv; by etransitivity.
  - by apply Forall_true.
Qed.
Lemma keeps_cancel_all_session om om' name n :
  cancel_all_session (Some name) om = Ok (n, om') → keeps om om'.
Proof.
  unfold cancel_all_session. intros Hr. res_inv. apply get_session_ref_Ok in Hx.
  destruct (ss_cancel_all x) as [k s] eqn:Hs. apply cancel_all_market in Hs.
  pose proof (keeps_put_session _ _ _ _ Hx Hs) as K. case_if; res_inv; [done|].
  etransitivity; [exact K|by eapply keeps_find_and_cancel].
Qed.
Lemma keeps_locates om lex cta cfg : keeps om (load_and_update_locates lex cta cfg om).
Proof.
  split; cbn; [eauto..|]. intros esi [i Hi]. rewrite map_lookup_imap, Hi. by eexists.
Qed.
Lemma order_filter_ok om f : invariant om →
  ∃ l, unsafe_order_filter f om = Ok l
    /\ ∀ a, a ∈ l ↔ Some a ∈ om_orders om /\ ∃ o, om_heap om !! a = Some o /\ f o = true.
Proof.
  intros Hi. unfold unsafe_order_filter.
  assert (∀ ps acc, (∀ a, Some a ∈ ps → is_Some (om_heap om !! a)) →
    ∃ l, foldM (λ acc p, match p with
        | None => Ok acc
        | Some a => o ← get_order a om; Ok (if f o then acc ++ [a] else acc) end) acc ps = Ok l
      /\ ∀ a, a ∈ l ↔ a ∈ acc \/ (Some a ∈ ps /\ ∃ o, om_heap om !! a = Some o /\ f o = true)) as Hl.
  { induction ps as [|p ps IH]; intros acc Hps; cbn [foldM].
    { exists acc. split; [done|]. intros a. rewrite elem_of_nil. tauto. }
    assert (∀ a, Some a ∈ ps → is_Some (om_heap om !! a)) as Hps' by (intros; apply Hps; by constructor).
    destruct p as [a|].
    - destruct (Hps a) as [o Ha]; [by constructor|]. rewrite (proj2 (get_order_Ok a om o) Ha). cbn [mbind res_bind].
      destruct (IH (if f o then acc ++ [a] else acc) Hps') as (l & -> & Hl). exists l. split; [done|].
      intros b. rewrite Hl, elem_of_cons. clear IH Hl Hps Hps'.
      destruct (f o) eqn:Hf; rewrite ?elem_of_app, ?list_elem_of_singleton; naive_solver congruence.
    - destruct (IH acc Hps') as (l & E1 & Hl). exists l. split; [done|].
      intros b. rewrite Hl, elem_of_cons. naive_solver. }
  destruct (Hl (om_orders om) []) as (l & E1 & Hl1).
  { intros a Ha. apply list_elem_of_lookup in Ha as [n Hn]. destruct (inv_ids _ Hi) as (_ & _ & Hslot & _).
    destruct (Hslot n a Hn) as (o & ? & _). by exists o. }
  exists l. split; [done|]. intros a. rewrite Hl1, elem_of_nil. tauto.
Qed.
End Keeps.

(** ** The steps of the operator *)

Class AtLeast0 (M : Z) : Prop := at_least_0 : 0 <= M.

(** Markets that the strategy makes orders of another market for. *)
Definition off_market : list MIC := [BATY; EDGX; EDGA; XBOS; XPSX].

Section Operator.
Context {D S Q : Type} `{Dbl D} `{!OrderSession D S} `{!OrderSessionLaws D S}.
Implicit Types (om : OrderManager D S) (o : Order D) (st : ManualStrategy D S Q).

Inductive operator_step : OrderManager D S → OrderManager D S → Prop :=
| op_event om ev om' : allowed ev om → om_step ev om = Ok om' → operator_step om om'
| op_attributes om a o be be' : om_heap om !! a = Some o → o_kind o = BATSOrder be →
    o_state o = NEW_AND_UNSENT → operator_step om (put_order a (o <| o_kind := BATSOrder be' |>) om)
| op_cancel_session om name n om' : is_Some (om_sessions om !! name) →
    cancel_all_session (Some name) om = Ok (n, om') → operator_step om om'
| op_session om name s s' : om_sessions om !! name = Some s → ss_market s' = ss_market s →
    operator_step om (put_session name s' om)
| op_locates om lex cta cfg : operator_step om (load_and_update_locates lex cta cfg om).
Abbreviation operator_steps := (rtc operator_step).

Lemma attributes_inv om a o be be' : invariant om → om_heap om !! a = Some o →
  o_kind o = BATSOrder be → invariant (put_order a (o <| o_kind := BATSOrder be' |>) om).
Proof.
  intros Hi Ha _. apply (respond om a o); try done. apply (inv_sizes _ Hi a o Ha).
Qed.
Lemma operator_step_inv om om' : operator_step om om' → invariant om → invariant om'.
Proof.
  intros Hstep Hi. destruct Hstep as [om ev om' Hal Hs|om a o be be' Ha Hk|om name n om' Hs Hc|om name s s' Hs|].
  - destruct (step_sound ev om Hi Hal) as (om2 & Hs2 & Hi2 & _). congruence.
  - by eapply attributes_inv.
  - destruct (cancel_all_session_sound om name Hi Hs) as (om2 & Hs2 & Hi2 & _).
    rewrite Hc in Hs2. by injection Hs2 as <-.
  - apply put_session_inv; eauto.
  - by destruct (locates_sound om lex cta cfg Hi) as (om2 & [= <-] & Hi2 & _).
Qed.
Lemma operator_steps_inv om om' : operator_steps om om' → invariant om → invariant om'.
Proof. induction 1; eauto using operator_step_inv. Qed.

(** What the strategy holds is there. *)
Record good st : Prop := mkGood {
  g_inv : invariant (ms_om st);
  g_insts e : e ∈ ms_inst_map st → is_Some (om_universe (ms_om st) !! e.2);
  g_sessions m name : find_session m st = Some name →
    ∃ s, om_sessions (ms_om st) !! name = Some s /\ ss_market s = m;
  g_orders m a : a ∈ default ∅ (ms_orders st !! MIC_index m) →
    ∃ o, om_heap (ms_om st) !! a = Some o /\ o_market o = m;
  g_served m : m ∈ off_market → find_session m st = None
}.
Definition moves st st' : Prop :=
  operator_steps (ms_om st) (ms_om st') /\ keeps (ms_om st) (ms_om st')
  /\ ms_inst_map st' = ms_inst_map st /\ ms_session_map st' = ms_session_map st.
#[export] Instance moves_preorder : PreOrder moves.
Proof.
  split; [intros st; by split_and!|]. intros s1 s2 s3 (A1&B1&C1&D1) (A2&B2&C2&D2).
  split_and!; [by etransitivity|by etransitivity|congruence..].
Qed.

(** *** Commands that run, by their conditions *)

(** No order is of more than [M] shares; the strategy knows at most [N] symbols. *)
Context {M : Z} {HM : AtLeast0 M} {N : nat}.

(** The command sends at most [n] orders: with room for them and for [k] more, it
    runs, and leaves room for [k].  With [h] it changes no position. *)
Definition triple {A} (h : bool) (n : nat) (Pre : OrderManager D S → Prop) (m : Cmd A)
    (Post : A → OrderManager D S → Prop) : Prop :=
  ∀ k st, good st → (length (ms_inst_map st) <= N)%nat → Pre (ms_om st) → roomy M (n + k) (ms_om st) →
    ∃ st' r, m st = Ok (st', r) /\ good st' /\ moves st st' /\ roomy M k (ms_om st')
      /\ (h = true → holdings M (ms_om st) → holdings M (ms_om st'))
      /\ (∀ x, r = Done x → Post x (ms_om st')).
Definition stable (R : OrderManager D S → Prop) : Prop := ∀ om om', keeps om om' → R om → R om'.
Definition always (om : OrderManager D S) : Prop := True.

Lemma triple_bind_n {A B} {h} n n' Pre Mid Post (m : Cmd A) (k : A → Cmd B) :
  triple h n Pre m Mid → (∀ x, triple h n' (Mid x) (k x) Post) → triple h (n + n') Pre (cbind m k) Post.
Proof.
  intros Hm Hk j st Hg HN Hp Hr. rewrite <- Nat.add_assoc in Hr.
  destruct (Hm _ st Hg HN Hp Hr) as (st1 & r & E1 & Hg1 & Hm1 & Hr1 & Hh1 & Hx).
  unfold cbind. rewrite E1. cbn [mbind res_bind]. destruct r as [x|w].
  - destruct (Hk x j st1 Hg1) as (st2 & r & E2 & Hg2 & Hm2 & Hr2 & Hh2 & Hy);
      [by destruct Hm1 as (_ & _ & -> & _)|by apply Hx|done|].
    exists st2, r. split_and!; [done|done|by etransitivity|done|auto|done].
  - exists st1, (Threw w). split_and!; try done. eapply roomy_less; [done| |exact Hr1]. lia.
Qed.
Lemma triple_bind {A B} {h} Pre Mid Post (m : Cmd A) (k : A → Cmd B) :
  triple h 0 Pre m Mid → (∀ x, triple h 0 (Mid x) (k x) Post) → triple h 0 Pre (cbind m k) Post.
Proof. apply triple_bind_n. Qed.
(** The orders are sent after [m]. *)
Lemma triple_then {A B} {h n} Pre Mid Post (m : Cmd A) (k : A → Cmd B) :
  triple h 0 Pre m Mid → (∀ x, triple h n (Mid x) (k x) Post) → triple h n Pre (cbind m k) Post.
Proof. apply triple_bind_n. Qed.
Lemma triple_more {A} {h} n n' Pre Post (m : Cmd A) : (n <= n')%nat → triple h n Pre m Post → triple h n' Pre m Post.
Proof. intros Hn Hm k st Hg HN Hp Hr. apply Hm; try done. eapply roomy_less; [done| |exact Hr]. lia. Qed.
Lemma triple_some {A} n Pre Post (m : Cmd A) : triple false 0 Pre m Post → triple false n Pre m Post.
Proof. apply triple_more. lia. Qed.
Lemma triple_weaken {A} {h n} (Pre Pre' : OrderManager D S → Prop) (Post Post' : A → OrderManager D S → Prop) m :
  triple h n Pre' m Post' → (∀ om, Pre om → Pre' om) → (∀ x om, Post' x om → Post x om) → triple h n Pre m Post.
Proof.
  intros Hm Hpre Hpost k st Hg HN Hp Hr.
  destruct (Hm k st Hg HN (Hpre _ Hp) Hr) as (st1 & r & ? & ? & ? & ? & ? & ?).
  exists st1, r. split_and!; auto.
Qed.
Lemma triple_frame {A} R {h n} Pre Post (m : Cmd A) : stable R → triple h n Pre m Post →
  triple h n (λ om, Pre om /\ R om) m (λ x om, Post x om /\ R om).
Proof.
  intros HR Hm k st Hg HN [Hp HRs] Hr. destruct (Hm k st Hg HN Hp Hr) as (st1 & r & ? & ? & Hmv & ? & ? & ?).
  exists st1, r. split_and!; [done..|]. intros x ->. split; [auto|]. by eapply HR; [apply Hmv|].
Qed.
Lemma triple_holdings {A} n Pre Post (m : Cmd A) : triple true n Pre m Post →
  triple true n (λ om, Pre om /\ holdings M om) m (λ x om, Post x om /\ holdings M om).
Proof.
  intros Hm k st Hg HN [Hp Hh] Hr. destruct (Hm k st Hg HN Hp Hr) as (st1 & r & ? & ? & ? & ? & ? & ?).
  exists st1, r. split_and!; auto.
Qed.
(** Nothing is asked about positions. *)
Lemma triple_held {A} {h} n Pre Post (m : Cmd A) : triple true n Pre m Post → triple h n Pre m Post.
Proof.
  intros Hm k st Hg HN Hp Hr. destruct (Hm k st Hg HN Hp Hr) as (st1 & r & ? & ? & ? & ? & ? & ?).
  exists st1, r. split_and!; auto.
Qed.
Lemma triple_ret {A} {h} (Pre : OrderManager D S → Prop) (Post : A → OrderManager D S → Prop) x :
  (∀ om, Pre om → Post x om) → triple h 0 Pre (cret x) Post.
Proof. intros Hp k st Hg HN Hst Hr. exists st, (Done x). split_and!; [done..|]. intros y [= <-]. auto. Qed.
Lemma triple_throw {A} {h} Pre (Post : A → OrderManager D S → Prop) w : triple h 0 Pre (throw w) Post.
Proof. intros k st Hg HN Hst Hr. by exists st, (Threw w). Qed.
Lemma triple_say {h} Pre r : triple h 0 Pre (say r) (λ _, Pre).
Proof.
  intros k st Hg HN Hst Hr. eexists _, _. split; [done|]. split; [by destruct Hg|]. by split_and!.
Qed.
Lemma triple_call_n {A} {h} n (Pre : OrderManager D S → Prop) (Post : A → OrderManager D S → Prop) f :
  (∀ om, invariant om → Pre om → roomy M n om →
     ∃ x om' m, f om = Ok (x, om') /\ operator_steps om om' /\ keeps om om'
       /\ (grows h (Z.of_nat n) m om om' /\ m <= Z.of_nat n * M) /\ Post x om') →
  triple h n Pre (call f) Post.
Proof.
  intros Hf k st Hg HN Hst Hr.
  destruct (Hf (ms_om st) (g_inv _ Hg) Hst) as (x & om' & m & E1 & Hs & Hk & [Hgr Hm] & Hx).
  { eapply roomy_less; [done| |exact Hr]. lia. }
  unfold call. rewrite E1. eexists _, _. split; [done|]. split; [|split_and!; try done].
  - destruct Hg as [Gi Ge Gs Go Gv]. split; cbn; [by eapply operator_steps_inv|..|done].
    + intros e He. by eapply keeps_universe, Ge.
    + intros mic name Hn. destruct (Gs mic name Hn) as (s & H1 & <-). by eapply keeps_session in H1.
    + intros mic a Ha. destruct (Go mic a Ha) as (o & H1 & <-). by eapply keeps_order in H1.
  - eapply roomy_grow; [apply (g_inv _ Hg)|done|exact Hm|exact Hgr|exact Hr].
  - intros ->. by eapply holdings_grow.
  - by intros y [= <-].
Qed.
Lemma triple_call {A} {h} (Pre : OrderManager D S → Prop) (Post : A → OrderManager D S → Prop) f :
  (∀ om, invariant om → Pre om →
     ∃ x om', f om = Ok (x, om') /\ operator_steps om om' /\ keeps om om' /\ grows h 0 0 om om' /\ Post x om') →
  triple h 0 Pre (call f) Post.
Proof.
  intros Hf. apply triple_call_n. intros om Hi Hp _. destruct (Hf om Hi Hp) as (x & om' & ? & ? & ? & ? & ?).
  by exists x, om', 0.
Qed.
Lemma triple_deref {A} {h} (Pre : OrderManager D S → Prop) (Post : A → OrderManager D S → Prop) f :
  (∀ om, invariant om → Pre om → ∃ x, f om = Ok x /\ Post x om) → triple h 0 Pre (deref f) Post.
Proof.
  intros Hf k st Hg HN Hst Hr. destruct (Hf (ms_om st) (g_inv _ Hg) Hst) as (x & E1 & Hx).
  unfold deref. rewrite E1. eexists _, _. split; [done|]. split_and!; [done..|]. by intros y [= <-].
Qed.
Lemma triple_get {A} {h} (Pre : OrderManager D S → Prop) (Post : A → OrderManager D S → Prop) g :
  (∀ st, good st → (length (ms_inst_map st) <= N)%nat → Pre (ms_om st) → Post (g st) (ms_om st)) →
  triple h 0 Pre (get g) Post.
Proof. intros Hf k st Hg HN Hst Hr. eexists _, _. split; [done|]. split_and!; [done..|]. intros y [= <-]. auto. Qed.
Lemma triple_required {A} {h} Pre (Post : A → OrderManager D S → Prop) x w :
  (∀ y om, x = Some y → Pre om → Post y om) → triple h 0 Pre (required x w) Post.
Proof. intros Hp. destruct x; [apply triple_ret; auto|apply triple_throw]. Qed.
Lemma triple_each_n {A} {h} n (P : OrderManager D S → Prop) (f : A → Cmd unit) l :
  (∀ x, x ∈ l → triple h n P (f x) (λ _, P)) → triple h (length l * n) P (each f l) (λ _, P).
Proof.
  induction l as [|x l IH]; intros Hf; cbn [each]; [by apply triple_ret|].
  eapply triple_bind_n; [apply Hf; by constructor|]. intros []. apply IH. intros y Hy. apply Hf. by constructor.
Qed.
Lemma triple_each {A} {h} (P : OrderManager D S → Prop) (f : A → Cmd unit) l :
  (∀ x, x ∈ l → triple h 0 P (f x) (λ _, P)) → triple h 0 P (each f l) (λ _, P).
Proof. intros Hf. eapply triple_more; [|by apply triple_each_n]. lia. Qed.
End Operator.
Arguments triple {D S Q H OrderSession0} M N {A} h n Pre m Post.

(** ** Each command *)

Section Commands.
Context {D S Q : Type} `{Dbl D} `{!OrderSession D S} `{!OrderSessionLaws D S} (E : Env D Q).
(** A cast to an unsigned type gives a value of that type. *)
Context (casts : ∀ s n, env_u32 E s = Some n → 0 <= n < 2 ^ 32).
Context {M : Z} {HM : AtLeast0 M} {N : nat}.
Implicit Types (om : OrderManager D S) (o : Order D) (st : ManualStrategy D S Q).

(** What the strategy looks up. *)
Definition inst_known (esi : Z) om : Prop := is_Some (om_universe om !! esi).
Definition session_of (m : MIC) (name : string) om : Prop :=
  ∃ s, om_sessions om !! name = Some s /\ ss_market s = m.
Definition on_market_order (m : MIC) (a : Z) om : Prop :=
  ∃ o, om_heap om !! a = Some o /\ o_market o = m.
Lemma inst_known_stable esi : stable (inst_known esi).
Proof. intros om om' K. by apply keeps_universe. Qed.
Lemma session_of_stable m name : stable (session_of m name).
Proof. intros om om' K (s & Hs & <-). by eapply keeps_session in Hs. Qed.
Lemma order_of_stable m a : stable (on_market_order m a).
Proof. intros om om' K (o & Ho & <-). by eapply keeps_order in Ho. Qed.
Lemma orders_of_stable m (l : list Z) : stable (λ om, ∀ a, a ∈ l → on_market_order m a om).
Proof. intros om om' K Hl a Ha. eapply order_of_stable; [exact K|by apply Hl]. Qed.

Lemma sm_find_elem {V} (m : list (string * V)) k v : sm_find String.ltb k m = Some v → ∃ k', (k', v) ∈ m.
Proof.
  induction m as [|[k' v'] m IH]; cbn; [done|]. case_if.
  - intros [= ->]. exists k'. by constructor.
  - intros Hf. destruct (IH Hf) as [k'' ?]. exists k''. by constructor.
Qed.
Lemma elem_in_address_order s a : a ∈ in_address_order s ↔ a ∈ s.
Proof. unfold in_address_order. by rewrite merge_sort_Permutation, elem_of_elements. Qed.

Lemma t_find_inst {h} (Pre : OrderManager D S → Prop) sym : triple (Q:=Q) (S:=S) M N h 0 Pre (get (find_inst sym))
  (λ r om, Pre om /\ ∀ esi, r = Some esi → inst_known esi om).
Proof.
  apply triple_get. intros st Hg Hp. split; [done|]. intros esi Hf.
  destruct (sm_find_elem _ _ _ Hf) as [k Hk]. by apply (g_insts _ Hg (k, esi)).
Qed.
Lemma t_find_session {h} (Pre : OrderManager D S → Prop) m : triple (Q:=Q) (S:=S) M N h 0 Pre (get (find_session m))
  (λ r om, Pre om /\ ∀ name, r = Some name → session_of m name om /\ m ∉ off_market).
Proof.
  apply triple_get. intros st Hg Hp. split; [done|]. intros name Hf.
  split; [by apply (g_sessions _ Hg)|]. intros Hoff. by rewrite (g_served _ Hg m Hoff) in Hf.
Qed.
Lemma t_insts {h} (Pre : OrderManager D S → Prop) : triple (Q:=Q) (S:=S) M N h 0 Pre (get ms_inst_map)
  (λ r om, Pre om /\ (∀ e, e ∈ r → inst_known e.2 om) /\ (length r <= N)%nat).
Proof. apply triple_get. intros st Hg HN Hp. split_and!; [done|apply (g_insts _ Hg)|done]. Qed.
Lemma t_orders_of {h} (Pre : OrderManager D S → Prop) m : triple (Q:=Q) (S:=S) M N h 0 Pre (get (orders_of m))
  (λ r om, Pre om /\ ∀ a, a ∈ r → on_market_order m a om).
Proof.
  apply triple_get. intros st Hg Hp. split; [done|]. intros a Ha.
  apply elem_in_address_order in Ha. by apply (g_orders _ Hg).
Qed.
Lemma t_mic_argument {h} (Pre : OrderManager D S → Prop) arg w :
  triple (Q:=Q) (S:=S) M N h 0 Pre (mic_argument arg w) (λ _, Pre).
Proof. unfold mic_argument. case_if; [apply triple_throw|by apply triple_ret]. Qed.
Lemma t_say_unit {h} (Pre : OrderManager D S → Prop) (b : bool) r :
  triple (Q:=Q) (S:=S) M N h 0 Pre (if b then cret tt else say r) (λ _, Pre).
Proof. destruct b; [by apply triple_ret|apply triple_say]. Qed.

Lemma t_modify {h} (Pre : OrderManager D S → Prop) f :
  (∀ om, invariant om → Pre om → operator_step om (f om) /\ keeps om (f om) /\ grows h 0 0 om (f om) /\ Pre (f om)) →
  triple (Q:=Q) (S:=S) M N h 0 Pre (modify f) (λ _, Pre).
Proof.
  intros Hf. apply triple_call. intros om Hi Hp. destruct (Hf om Hi Hp) as (Hs & Hk & Hgr & Hp').
  exists tt, (f om). split_and!; [done|by apply rtc_once|done..].
Qed.
Lemma step_ev ev om om' : allowed ev om → om_step ev om = Ok om' → rtc operator_step om om'.
Proof. intros Ha Hs. apply rtc_once. by eapply op_event. Qed.

(** *** Orders *)

(** As [create_order] made it. *)
Definition unsent_order (m : MIC) (a : Z) om : Prop :=
  ∃ o, om_heap om !! a = Some o /\ o_market o = m /\ o_state o = NEW_AND_UNSENT /\ o_localID o = 0
    /\ o_size o <= M.

Lemma t_create {h} k esi price size side tif type : 0 <= size < 2 ^ 32 → size <= M →
  triple (Q:=Q) (S:=S) M N h 0 (inst_known esi)
    (call (λ om, Ok (create_order (new_order E k esi price size side tif type) om)))
    (unsent_order (kind_market k)).
Proof.
  intros Hsize HsM. apply triple_call. intros om Hi Hu.
  set (o := new_order E k esi price size side tif type). eexists _, _. split_and!; [done|..].
  - apply (step_ev (EvCreate o)); [|done]. destruct Hsize. cbn. by split_and!.
  - apply (keeps_new_order om o).
  - by apply grows_same.
  - exists o. unfold create_order. cbn. rewrite lookup_insert_eq. by split_and!.
Qed.

Lemma t_boe_arguments {h} a args :
  triple (Q:=Q) (S:=S) M N h 0 (unsent_order BATS a) (handle_boe_order_arguments E a args) (λ _, unsent_order BATS a).
Proof.
  induction args as [|v args IH]; cbn [handle_boe_order_arguments]; [by apply triple_ret|].
  destruct (env_tokens E ["="%char] v) as [|tag [|value [|]]]; try by apply triple_ret.
  eapply (triple_bind _ (λ _, unsent_order BATS a)); [|by intros []; [|apply triple_ret]].
  apply triple_call. intros om Hi (o & Ha & Hm & Hst & Hid & HsM).
  unfold get_order. rewrite Ha. cbn [mbind res_bind]. unfold set_order_attribute.
  destruct (o_kind o) as [| | |be] eqn:Hk; unfold o_market in Hm; rewrite Hk in Hm; try done.
  destruct (set_attribute tag value be) as [ok be']. do 2 eexists. split_and!; [done|..].
  - apply rtc_once. by eapply op_attributes.
  - apply (keeps_put_order om a o); [done|]. unfold o_market. by rewrite Hk.
  - by apply grows_same.
  - eexists. cbn. rewrite lookup_insert_eq. by split_and!.
Qed.

Lemma t_send {h} m a name : triple (Q:=Q) (S:=S) M N h 1 (λ om, unsent_order m a om /\ session_of m name om)
  (call (send (Some a) (Some name))) (λ _, on_market_order m a).
Proof.
  apply triple_held, triple_call_n. intros om Hi [(o & Ha & Hm & Hst & Hid & HsM) (s & Hs & Hsm)] [Hl Hu].
  destruct (inv_sizes _ Hi a o Ha) as [[Hz _] _]. assert (allowed (EvSend a name) om) as Hal.
  { exists o. split_and!; try done; [exists s; split; [done|congruence]|].
    intros i Hi'. specialize (Hu _ i (is_buy (o_side o)) Hi'). lia. }
  destruct (step_sound _ _ Hi Hal) as (om' & Hstep & _). pose proof Hstep as Hsend. unfold om_step in Hsend.
  destruct (send (Some a) (Some name) om) as [[b om1]|] eqn:E1; [|done]. injection Hsend as ->.
  exists b, om', (o_size o). pose proof (keeps_send _ _ _ _ _ E1) as K.
  split_and!; [done|by eapply step_ev|done|by eapply send_grows|lia|].
  eapply order_of_stable; [exact K|]. by exists o.
Qed.
Lemma t_insert_order {h} m a : triple (Q:=Q) (S:=S) M N h 0 (on_market_order m a) (insert_order m a) (λ _, always).
Proof.
  intros k st Hg HN Ha Hr. eexists _, _. split; [done|]. split; [|by split_and!].
  destruct Hg as [Gi Ge Gs Go Gv]. split; try done. cbn. intros m' b.
  destruct (decide (MIC_index m' = MIC_index m)) as [Hm|Hm].
  - assert (m' = m) as -> by (rewrite <- (MIC_of_to_index m'), Hm; apply MIC_of_to_index).
    rewrite lookup_insert_eq. cbn. intros [->%elem_of_singleton|Hb]%elem_of_union; [done|].
    by apply Go.
  - rewrite lookup_insert_ne by done. apply Go.
Qed.

Lemma t_finish {h} m a name : triple (Q:=Q) (S:=S) M N h 1 (λ om, unsent_order m a om /\ session_of m name om)
  (cbind (call (send (Some a) (Some name)))
     (λ ok : bool, cbind (if ok then cret tt else say RLocalReject) (λ _, insert_order m a)))
  (λ _, always).
Proof.
  eapply (triple_bind_n 1 0); [apply t_send|]. intros ok. eapply triple_bind; [apply t_say_unit|].
  intros []. apply t_insert_order.
Qed.
Lemma t_say_done {h} n (Pre : OrderManager D S → Prop) r : triple (Q:=Q) M N h n Pre (say r) (λ _, always).
Proof. eapply (triple_more 0); [lia|]. eapply triple_weaken; [apply (triple_say always)|done..]. Qed.

Lemma t_do_order {h} esi side size price type tif m args : 0 <= size < 2 ^ 32 → size <= M →
  triple (Q:=Q) (S:=S) M N h 1 (inst_known esi) (do_order_command E esi side size price type tif m args) (λ _, always).
Proof.
  intros Hsize HsM. unfold do_order_command. eapply triple_then; [apply t_find_session|].
  intros [name|]; [|apply t_say_done].
  set (Pre := λ om, inst_known esi om /\ ∀ n, Some name = Some n → session_of m n om /\ m ∉ off_market).
  assert (∀ (k : Cmd unit), (m ∉ off_market → triple (Q:=Q) M N h 1 (λ om, inst_known esi om /\ session_of m name om) k
    (λ _, always)) → triple M N h 1 Pre k (λ _, always)) as Hpre.
  { intros k Hk j st Hg HN [Hu Hn]. destruct (Hn name eq_refl) as [? Hoff]. by apply (Hk Hoff). }
  apply Hpre. intros Hoff. case_if.
  - bools. assert (m = BATS) as -> by (unfold off_market in *; set_solver).
    eapply triple_then; [apply triple_frame; [apply session_of_stable|by apply t_create]|]. intros a.
    eapply triple_then; [apply triple_frame; [apply session_of_stable|apply t_boe_arguments]|].
    intros []; [apply t_finish|]. apply t_say_done.
  - case_if; [|apply t_say_done].
    bools. assert (m = XNAS) as -> by (unfold off_market in *; set_solver).
    eapply triple_then; [apply triple_frame; [apply session_of_stable|by apply t_create]|].
    intros a. apply t_finish.
Qed.

Lemma t_cast {h} {A} (Pre : OrderManager D S → Prop) (x : option A) :
  triple (Q:=Q) (S:=S) M N h 0 Pre (cast_argument x) (λ y om, x = Some y /\ Pre om).
Proof. by apply triple_required. Qed.
Lemma t_done {h} {A} (Pre : OrderManager D S → Prop) (x : A) : triple (Q:=Q) (S:=S) M N h 0 Pre (cret x) (λ _, always).
Proof. by apply triple_ret. Qed.
Lemma t_any {h} {A} (Pre : OrderManager D S → Prop) (m : Cmd A) :
  triple (Q:=Q) (S:=S) M N h 0 always m (λ _, always) → triple M N h 0 Pre m (λ _, always).
Proof. intros Hm. by eapply triple_weaken. Qed.

(** The numbers among the words are at most [M]. *)
Definition small (args : CommandArgs) : Prop := ∀ a n, a ∈ args → env_u32 E a = Some n → n <= M.
Lemma t_throw_done {A} {h} n (Pre : OrderManager D S → Prop) w :
  triple (Q:=Q) (S:=S) M N h n Pre (throw (A:=A) w) (λ _, always).
Proof. eapply (triple_more 0); [lia|]. apply triple_throw. Qed.
Lemma t_order_command {h} args : small args →
  triple (Q:=Q) (S:=S) M N h 1 always (order_command E args) (λ _, always).
Proof.
  unfold order_command. intros Hsmall. do 7 (destruct args as [|? args]; [apply t_throw_done|]).
  eapply triple_then; [apply t_find_inst|]. intros r.
  eapply (triple_then _ inst_known); [apply triple_required; intros y om ->; naive_solver|]. intros esi.
  eapply triple_then; [apply t_cast|]. intros size.
  eapply triple_then; [apply t_cast|]. intros price.
  eapply (triple_then _ (λ _ om, inst_known esi om /\ env_u32 E s1 = Some size)).
  { unfold type_argument. repeat case_if; try apply triple_throw; apply triple_ret; naive_solver. }
  intros type.
  eapply (triple_then _ (λ _ om, inst_known esi om /\ env_u32 E s1 = Some size)).
  { unfold tif_argument. repeat case_if; try apply triple_throw; by apply triple_ret. }
  intros tif. eapply triple_then; [apply t_mic_argument|]. intros m k st Hg HN [Hu Hsize].
  apply (t_do_order esi _ size price type tif m args (casts _ _ Hsize)); try done.
  eapply Hsmall; [|exact Hsize]. do 2 right. left.
Qed.

Lemma t_cancel {h} m a n (l : list Z) : triple (Q:=Q) (S:=S) M N h 0 (λ om, on_market_order m a om /\ ∀ b, b ∈ l → on_market_order m b om)
  (call (cancel (Some a) n)) (λ _ om, ∀ b, b ∈ l → on_market_order m b om).
Proof.
  apply triple_call. intros om Hi [(o & Ha & _) Hl].
  destruct (cancel_sound om a n Hi) as (b & om' & Hc & _); [by exists o|].
  pose proof (keeps_cancel _ _ _ _ _ Hc) as K. exists b, om'. split_and!; [done| |done|by eapply cancel_grows|].
  - apply (step_ev (EvCancel a n)); [by exists o|]. unfold om_step. by rewrite Hc.
  - by eapply orders_of_stable.
Qed.
Lemma t_get_order {h} (P : OrderManager D S → Prop) m a : (∀ om, P om → on_market_order m a om) →
  triple (Q:=Q) (S:=S) M N h 0 P (deref (get_order a)) (λ _, P).
Proof.
  intros Hp. apply triple_deref. intros om _ Hom. destruct (Hp om Hom) as (o & Ha & _).
  exists o. split; [by apply get_order_Ok|done].
Qed.
Lemma t_cancel_matching {h} m id n l found :
  triple (Q:=Q) (S:=S) M N h 0 (λ om, ∀ a, a ∈ l → on_market_order m a om) (cancel_matching m id n found l) (λ _, always).
Proof.
  revert found. induction l as [|a l IH]; intros found; cbn [cancel_matching]; [apply t_done|].
  eapply triple_bind; [apply (t_get_order _ m); intros om Hl; apply Hl; by constructor|]. intros o.
  case_if.
  - eapply (triple_bind _ (λ _ om, ∀ b, b ∈ l → on_market_order m b om)).
    { eapply triple_weaken; [apply (t_cancel m a n l)| |done]. intros om Hl.
      split; [apply Hl; by constructor|]. intros b Hb. apply Hl. by constructor. }
    intros ok. eapply triple_bind; [apply t_say_unit|]. intros []. apply IH.
  - eapply triple_weaken; [apply IH| |done]. intros om Hl b Hb. apply Hl. by constructor.
Qed.
Lemma t_cancel_command {h} args : triple (Q:=Q) (S:=S) M N h 0 always (cancel_command E args) (λ _, always).
Proof.
  unfold cancel_command. do 2 (destruct args as [|? args]; [apply triple_throw|]).
  eapply triple_bind; [apply t_mic_argument|]. intros m.
  eapply triple_bind; [apply t_cast|]. intros id. apply t_any.
  eapply (triple_bind _ (λ _, always)).
  { destruct args; [apply t_done|]. eapply triple_weaken; [apply (t_cast always)|done..]. }
  intros n. unfold do_cancel_command. eapply triple_bind; [apply t_orders_of|]. intros l.
  eapply triple_bind.
  { eapply triple_weaken; [apply (t_cancel_matching m)| |done]. by intros om [_ Hl]. }
  intros []; [apply t_done|apply t_say_done].
Qed.

(** *** Lists *)

Definition heap_has (l : list Z) om : Prop := ∀ a, a ∈ l → is_Some (om_heap om !! a).
Lemma t_load_orders {h} b : triple (Q:=Q) (S:=S) M N h 0 always (do_load_orders b) (λ _, always).
Proof.
  unfold do_load_orders. eapply (triple_bind _ heap_has).
  { apply triple_deref. intros om Hi _.
    assert (∀ f, ∃ l, unsafe_order_filter f om = Ok l /\ heap_has l om) as Hf
      by (intros f; destruct (order_filter_ok om f Hi) as (l & -> & Hl); exists l; split; [done|];
          intros a (_ & o & ? & _)%Hl; by exists o).
    destruct b; apply Hf. }
  intros l. eapply (triple_weaken _ _ _ (λ _, heap_has l)); [|done..]. apply triple_each. intros a Ha.
  eapply (triple_bind _ (λ o om, (on_market_order (o_market o) a om) /\ heap_has l om)).
  { apply triple_deref. intros om Hi Hl. destruct (Hl a Ha) as [o Ho]. exists o.
    split; [by apply get_order_Ok|]. split; [by exists o|done]. }
  intros o. eapply triple_weaken; [apply (triple_frame (heap_has l)), t_insert_order| |naive_solver].
  intros om om' K Hl b' Hb. destruct (Hl b' Hb) as [x Hx]. apply (keeps_order _ _ K) in Hx as (y & ? & _). by exists y.
  done.
Qed.

Lemma t_list_order {h} m b a (l : list Z) : a ∈ l →
  triple (Q:=Q) (S:=S) M N h 0 (λ om, ∀ a, a ∈ l → on_market_order m a om) (list_order m b a)
    (λ _ om, ∀ a, a ∈ l → on_market_order m a om).
Proof.
  intros Ha. unfold list_order. eapply triple_bind; [apply (t_get_order _ m); auto|]. intros o.
  case_if; [apply triple_say|by apply triple_ret].
Qed.
Lemma t_list_orders {h} m b : triple (Q:=Q) (S:=S) M N h 0 always (do_list_orders_command m b) (λ _, always).
Proof.
  unfold do_list_orders_command. eapply triple_bind; [apply t_load_orders|]. intros [].
  apply triple_each. intros m' _. case_if; [|apply t_done].
  eapply triple_bind; [apply t_orders_of|]. intros l.
  eapply triple_weaken; [apply (triple_each (λ om, ∀ a, a ∈ l → on_market_order m' a om)); intros a Ha;
    by apply t_list_order| |done]. by intros om [_ Hl].
Qed.
Lemma t_list_orders_command {h} args : triple (Q:=Q) (S:=S) M N h 0 always (list_orders_command args) (λ _, always).
Proof.
  unfold list_orders_command. destruct args as [|a args]; [apply t_list_orders|].
  case_if; [apply triple_throw|]. case_if.
  - case_if; [apply triple_throw|apply t_list_orders].
  - eapply triple_bind; [apply t_mic_argument|]. intros m. apply t_list_orders.
Qed.
Lemma t_list_instruments {h} args : triple (Q:=Q) (S:=S) M N h 0 always (list_instruments_command args) (λ _, always).
Proof.
  unfold list_instruments_command. eapply triple_bind; [apply t_insts|]. intros l.
  eapply (triple_weaken _ (λ om, ∀ e, e ∈ l → inst_known e.2 om) _ (λ _ om, ∀ e, e ∈ l → inst_known e.2 om));
    [|naive_solver|done].
  apply triple_each. intros e He. eapply (triple_bind _ (λ _ om, ∀ e, e ∈ l → inst_known e.2 om)).
  { apply triple_deref. intros om _ Hl. destruct (Hl e He) as [i Hi]. exists i. split; [|done].
    unfold get_inst. by rewrite Hi. }
  intros i. case_if; [|by apply triple_ret]. unfold print_inst_status.
  eapply (triple_bind _ (λ _ om, ∀ e, e ∈ l → inst_known e.2 om)); [by apply triple_get|].
  intros f. apply triple_say.
Qed.
Lemma t_list_config {h} args : triple (Q:=Q) (S:=S) M N h 0 always (list_config_command E args) (λ _, always).
Proof.
  unfold list_config_command. destruct args; [apply t_say_done|].
  apply triple_each. intros a _. apply triple_say.
Qed.
Lemma t_mic_arguments {h} args ms : triple (Q:=Q) (S:=S) M N h 0 always (mic_arguments args ms) (λ _, always).
Proof.
  revert ms. induction args as [|a args IH]; intros ms; cbn [mic_arguments]; [apply t_done|].
  eapply triple_bind; [apply t_mic_argument|]. intros m. apply IH.
Qed.
Lemma t_quote {h} args : triple (Q:=Q) (S:=S) M N h 0 always (quote_command E args) (λ _, always).
Proof.
  unfold quote_command. destruct args as [|a args]; [apply triple_throw|].
  eapply (triple_bind _ (λ _, always)); [destruct args; [apply t_done|apply t_mic_arguments]|].
  intros ms. unfold do_quote_command. eapply triple_bind; [apply t_find_inst|].
  intros [esi|]; apply t_say_done.
Qed.

(** *** Operator actions *)

Lemma t_event {h} (f : OrderManager D S → OrderManager D S) ev :
  (∀ om, allowed ev om) → (∀ om, om_step ev om = Ok (f om)) → (∀ om, keeps om (f om)) →
  (∀ om, grows h 0 0 om (f om)) →
  triple (Q:=Q) (S:=S) M N h 0 always (modify f) (λ _, always).
Proof. intros Ha Hs Hk Hgr. apply t_modify. intros om _ _. split_and!; [by eapply op_event|done..]. Qed.
Lemma t_update_locates args : triple (Q:=Q) (S:=S) M N false 0 always (update_locates_command E args) (λ _, always).
Proof.
  unfold update_locates_command. case_if; [apply triple_throw|].
  destruct (env_locates E (default "" (head args))) as [[cfg|]|]; [|apply t_done|apply triple_throw].
  apply t_modify. intros om _ _. split_and!; [apply op_locates|apply keeps_locates|apply locates_grow|done].
Qed.
Lemma keeps_manual_adj om esi d1 d2 : keeps om (manual_position_adj esi d1 d2 om).
Proof. unfold manual_position_adj. case_if; [done|]. case_match; [apply keeps_put_inst|done]. Qed.
Lemma t_manual_adj args : triple (Q:=Q) (S:=S) M N false 0 always (manual_position_adj_command E args) (λ _, always).
Proof.
  unfold manual_position_adj_command. do 3 (destruct args as [|? args]; [apply triple_throw|]).
  eapply triple_bind; [apply t_find_inst|]. intros r.
  eapply (triple_bind _ (λ _, always)); [by apply triple_required|]. intros esi.
  eapply triple_bind; [apply t_cast|]. intros start.
  eapply triple_bind; [apply t_cast|]. intros trading. apply t_any.
  apply (t_event _ (EvManualAdj esi start trading)); [done|done|..]; intros om;
    [apply keeps_manual_adj|apply manual_adj_grows].
Qed.

Lemma t_find_and_cancel {h} f pred : (∀ om, f om = find_and_cancel pred om) →
  triple (Q:=Q) (S:=S) M N h 0 always (call f) (λ _, always).
Proof.
  intros Hf. apply triple_call. intros om Hi _. rewrite Hf.
  destruct (find_and_cancel_sound om pred Hi) as (om' & Hs & _).
  destruct (find_and_cancel pred om) as [[n om1]|] eqn:E1; [|done]. injection Hs as ->.
  exists n, om'. split_and!; [done| |by eapply keeps_find_and_cancel|by eapply find_and_cancel_grows|done].
  apply (step_ev (EvFindAndCancel pred)); [done|]. unfold om_step. by rewrite E1.
Qed.
Lemma t_cancel_session {h} m name : triple (Q:=Q) (S:=S) M N h 0 (session_of m name)
  (do_cancel_all_session name) (λ _, always).
Proof.
  unfold do_cancel_all_session. eapply (triple_bind _ (λ _, always)); [|intros _; apply t_done].
  apply triple_call. intros om Hi (s & Hs & _).
  destruct (cancel_all_session_sound om name Hi) as (om' & Hst & _); [by exists s|].
  destruct (cancel_all_session (Some name) om) as [[n om1]|] eqn:E1; [|done]. injection Hst as ->.
  exists n, om'. split_and!; [done| |by eapply keeps_cancel_all_session|by eapply cancel_all_session_grows|done].
  apply rtc_once. by eapply op_cancel_session; [exists s|].
Qed.
Lemma t_sessions_named {h} a : triple (Q:=Q) (S:=S) M N h 0 always (cancel_sessions_named a) (λ _, always).
Proof.
  unfold cancel_sessions_named. apply triple_each. intros m _.
  eapply triple_bind; [apply t_find_session|]. intros [name|]; [|apply t_done].
  case_if; [|apply t_done]. eapply triple_weaken; [apply (t_cancel_session m)| |done]. naive_solver.
Qed.
Lemma t_bulk_cancel {h} args : triple (Q:=Q) (S:=S) M N h 0 always (bulk_cancel_command E args) (λ _, always).
Proof.
  unfold bulk_cancel_command. destruct args as [|a0 args0]; [apply triple_throw|]. generalize (a0 :: args0).
  induction l as [|a args IH]; cbn [bulk_cancel_each]; [apply t_done|]. case_if.
  - eapply triple_bind; [by apply (t_find_and_cancel _ (λ _, true))|]. intros ?. apply t_done.
  - eapply (triple_bind _ (λ _, always)); [|intros _; apply IH]. case_if.
    + eapply triple_bind; [apply t_find_session|]. intros [name|]; [|apply t_done].
      eapply triple_weaken; [apply (t_cancel_session (MIC_of_name (to_upper a)))| |done]. naive_solver.
    + destruct (env_u16 E (to_upper a)) as [acct|]; [|apply t_sessions_named].
      eapply triple_bind; [by apply (t_find_and_cancel _ (λ o, acct =? o_local_account o))|].
      intros ?. apply t_done.
Qed.
Lemma t_toggle_trading {h} b args : triple (Q:=Q) (S:=S) M N h 0 always (toggle_trading_command b args) (λ _, always).
Proof.
  unfold toggle_trading_command. destruct args; [|apply triple_throw].
  apply (t_event _ (EvAllTrading b)); [done|by destruct b|..]; intros om;
    destruct b; by first [apply keeps_core|apply grows_same].
Qed.
Lemma t_toggle_stocks {h} b args : triple (Q:=Q) (S:=S) M N h 0 always (toggle_stocks_command b args) (λ _, always).
Proof.
  unfold toggle_stocks_command. destruct args as [|a0 args0]; [apply triple_throw|].
  apply triple_each. intros a _. unfold toggle_stock_command.
  eapply triple_bind; [apply t_find_inst|]. intros r.
  eapply (triple_bind _ (λ _, always)); [by apply triple_required|]. intros esi.
  apply (t_event _ (EvStock b esi)); [done|by destruct b|..]; intros om;
    destruct b; by first [apply keeps_core|apply grows_same].
Qed.
Lemma t_with_session {h} {A} m name (f : S → A * S) :
  (∀ s x s', f s = (x, s') → ss_market s' = ss_market s) →
  triple (Q:=Q) (S:=S) M N h 0 (session_of m name) (with_session name f) (λ _, always).
Proof.
  intros Hf. apply triple_call. intros om Hi (s & Hs & _). unfold get_session_ref. rewrite Hs.
  cbn [mbind res_bind]. destruct (f s) as [x s'] eqn:E1. apply Hf in E1. do 2 eexists. split_and!; [done|..|done].
  - apply rtc_once. by eapply op_session.
  - by eapply keeps_put_session.
  - by apply grows_same.
Qed.
Lemma t_toggle_session {h} b m name : triple (Q:=Q) (S:=S) M N h 0 (session_of m name) (toggle_session b name) (λ _, always).
Proof.
  unfold toggle_session. destruct b; (eapply triple_bind; [apply (t_with_session m)|intros r; apply triple_say]).
  - apply manual_connect_market.
  - apply manual_disconnect_market.
Qed.
Lemma t_toggle_connect {h} b args :
  triple (Q:=Q) (S:=S) M N h 0 always (toggle_connect_session_command b args) (λ _, always).
Proof.
  unfold toggle_connect_session_command. destruct args as [|a [|]]; [apply triple_throw| |apply triple_throw].
  case_if.
  - set (m := MIC_of_name (to_upper a)). eapply triple_bind; [apply t_find_session|]. intros r.
    eapply (triple_bind _ (λ name, session_of m name)); [apply triple_required; naive_solver|].
    intros name. apply t_toggle_session.
  - eapply (triple_bind _ (λ r om, ∀ name, r = Some name → ∃ m, session_of m name om)).
    { apply triple_get. intros st Hg _ _ name. unfold session_named. intros Hh.
      apply head_Some_elem_of, list_elem_of_filter in Hh as [_ Hh].
      apply list_elem_of_omap in Hh as (m & _ & Hm). exists m. by apply (g_sessions _ Hg). }
    intros r. eapply (triple_bind _ (λ name om, ∃ m, session_of m name om)); [apply triple_required; naive_solver|].
    intros name k st Hg HN [m Hm]. by apply (t_toggle_session b m name).
Qed.
Lemma t_closeout_insts {h} args l : triple (Q:=Q) (S:=S) M N h 0 (λ om, ∀ e, e ∈ l → inst_known e om)
  (closeout_insts args l)
  (λ r om, (∀ e, e ∈ r → inst_known e om) /\ (length r <= length l + length args * Datatypes.S N)%nat).
Proof.
  revert l. induction args as [|a args IH]; intros l; cbn [closeout_insts length].
  { apply triple_ret. intros om Hl. split; [done|]. lia. }
  assert (∀ (R : OrderManager D S → Prop) l', (length l' <= length l + Datatypes.S N)%nat →
    (∀ om, R om → ∀ e, e ∈ l' → inst_known e om) → triple (Q:=Q) M N h 0 R (closeout_insts args l')
      (λ r om, (∀ e, e ∈ r → inst_known e om) /\ (length r <= length l + (Datatypes.S (length args)) * Datatypes.S N)%nat)) as Hgo.
  { intros R l' Hl' HR. eapply triple_weaken; [apply (IH l')|exact HR|].
    intros r om [Hk Hlen]. split; [done|]. lia. }
  case_if.
  - eapply triple_bind; [apply t_insts|]. intros r j st' Hg HN (Hl & Hr & Hlen).
    eapply (Hgo (λ om, (∀ e, e ∈ l → inst_known e om) /\ ∀ e, e ∈ r → inst_known e.2 om)); try done.
    + rewrite length_app, length_fmap. lia.
    + intros om [Hl' Hr'] e [He|He]%elem_of_app; [by apply Hl'|].
      apply list_elem_of_fmap in He as (x & -> & Hx). by apply Hr'.
  - eapply triple_bind; [apply t_find_inst|]. intros [esi|].
    + apply Hgo; [rewrite length_app; cbn; lia|].
      intros om [Hl Hr] e [He|He]%elem_of_app; [by apply Hl|].
      apply list_elem_of_singleton in He as ->. by apply Hr.
    + eapply triple_bind; [apply triple_say|]. intros ?. apply Hgo; [lia|]. by intros om [Hl _].
Qed.
Lemma t_closeout_position esi m pct : triple (Q:=Q) (S:=S) M N true 1 (λ om, inst_known esi om /\ holdings M om)
  (do_closeout_position E esi m pct) (λ _, always).
Proof.
  unfold do_closeout_position.
  eapply (triple_then _ (λ i om, inst_known esi om /\ Z.abs (quantity (i_position i)) <= M)).
  { apply triple_deref. intros om _ [[i Hi] Hh]. exists i. unfold get_inst. rewrite Hi.
    split_and!; [done|by exists i|by eapply Hh]. }
  intros i. case_if; [eapply (triple_more 0); [lia|apply t_done]|]. eapply triple_then; [apply triple_say|].
  intros [] k st Hg HN [Hk Hq] Hr. revert k st Hg HN Hk Hr.
  change (triple (Q:=Q) (S:=S) M N true 1 (inst_known esi) (do_order_command E esi
    (if 0 <? quantity (i_position i) then SELL else BUY)
    (if 0 <? quantity (i_position i) then u32 (quantity (i_position i)) else u32 (i64 (- quantity (i_position i))))
    (closeout_price (if 0 <? quantity (i_position i) then SELL else BUY) (p_mark (i_position i)) pct) LIMIT IMMEDIATE_OR_CANCEL m [])
    (λ _, always)).
  assert (∀ x, 0 <= u32 x < 2 ^ 32) as Hu by (intros x; apply (wrap_range 32); lia).
  apply t_do_order; [by case_match|]. destruct (Z.lt_ge_cases M (2 ^ 32)) as [HM32|HM32].
  - case_match; bools; [pose proof (u32_grows (quantity (i_position i))); lia|].
    rewrite (swrap_small 64) by (unfold in_i; lia). pose proof (u32_grows (- quantity (i_position i))). lia.
  - case_match; (etransitivity; [apply Z.lt_le_incl, Hu|exact HM32]).
Qed.
Lemma t_closeout args : triple (Q:=Q) (S:=S) M N true (length args * Datatypes.S N) (holdings M)
  (closeout_position_command E args) (λ _, always).
Proof.
  unfold closeout_position_command. destruct args as [|a [|b args]]; [apply t_throw_done..|].
  eapply triple_then; [apply t_mic_argument|]. intros m. cbn beta.
  eapply triple_then.
  { eapply triple_weaken; [apply triple_holdings, (t_closeout_insts _ [])| |done].
    intros om Hh. split; [|exact Hh]. by intros e ?%not_elem_of_nil. }
  intros l k st Hg HN [[Hkn Hlen] Hh] Hr. cbn [length] in Hlen.
  set (P := λ om, (∀ e, e ∈ l → inst_known e om) /\ holdings M om).
  assert (triple (Q:=Q) (S:=S) M N true (length l * 1) P
    (each (λ esi, do_closeout_position E esi m (d_lit 2 100)) l) (λ _, P)) as Ht.
  { apply triple_each_n. intros esi Hesi.
    eapply triple_weaken; [apply triple_holdings, (triple_frame (λ om, ∀ e, e ∈ l → inst_known e om)), (t_closeout_position esi)|..].
    - intros om om' K Hl e He. eapply inst_known_stable; [exact K|by apply Hl].
    - intros om [Hl Hh']. split_and!; [by apply Hl|done..].
    - by intros x om [[_ Hl] Hh']. }
  destruct (Ht k st Hg HN (conj Hkn Hh)) as (st' & r & ? & ? & ? & ? & ? & ?).
  { eapply roomy_less; [exact HM| |exact Hr]. cbn [length]. lia. }
  exists st', r. by split_and!.
Qed.

(** *** The interpreter *)

Lemma sm_emplace_all {V} (P : string * V → Prop) k v m :
  P (k, v) → Forall P m → Forall P (sm_emplace String.ltb k v m).
Proof.
  intros Hv. induction 1 as [|[k' v'] m Hx Hm IH]; cbn; [by repeat constructor|]. repeat case_if; by repeat constructor.
Qed.
(** Words for which the command is run. *)
Definition runs (c : Command (D:=D) (S:=S) (Q:=Q)) : Prop :=
  ∀ args, small args → triple M N false (Datatypes.S (length args * Datatypes.S N)) (holdings M) (c args) (λ _, always).
Lemma runs_idle (c : Command (D:=D) (S:=S) (Q:=Q)) :
  (∀ args, triple M N false 0 always (c args) (λ _, always)) → runs c.
Proof. intros Hc args _. apply triple_some. by eapply triple_weaken; [apply Hc|..]. Qed.
Lemma t_going_on n (P : OrderManager D S → Prop) f args : triple (Q:=Q) (S:=S) M N false n P (f args) (λ _, always) →
  triple (Q:=Q) (S:=S) M N false n P (going_on f args) (λ _, always).
Proof.
  intros Hf. unfold going_on. rewrite <- (Nat.add_0_r n). eapply triple_bind_n; [exact Hf|]. intros ?. apply t_done.
Qed.
Lemma runs_going_on f : (∀ args, triple (Q:=Q) (S:=S) M N false 0 always (f args) (λ _, always)) → runs (going_on f).
Proof. intros Hf. apply runs_idle. intros args. apply t_going_on, Hf. Qed.
Lemma load_commands_ok : Forall (λ c : string * Command, runs c.2) (load_commands E).
Proof.
  unfold load_commands. apply sm_emplace_all.
  - apply runs_going_on. intros args. apply triple_each. intros c _. apply triple_say.
  - repeat (apply sm_emplace_all; [cbn [snd]|]); [..|constructor].
    + apply runs_idle. intros args. apply t_done.
    + intros args Hs. apply t_going_on. eapply (triple_more 1); [lia|].
      eapply triple_weaken; [by apply t_order_command|done..].
    + apply runs_going_on. intros args.
      eapply triple_bind; [by apply (triple_get _ (λ _, always))|]. intros ts. apply triple_say.
    + apply runs_going_on, t_cancel_command.
    + apply runs_going_on, t_list_instruments.
    + apply runs_going_on, t_list_orders_command.
    + apply runs_going_on, t_update_locates.
    + apply runs_going_on, t_list_config.
    + apply runs_going_on, t_quote.
    + apply runs_going_on, t_manual_adj.
    + apply runs_going_on. intros args. apply triple_say.
    + apply runs_going_on, t_bulk_cancel.
    + apply runs_going_on, t_toggle_trading.
    + apply runs_going_on, t_toggle_trading.
    + apply runs_going_on, t_toggle_stocks.
    + apply runs_going_on, t_toggle_stocks.
    + intros args _. apply t_going_on. eapply triple_more; [|apply triple_held, t_closeout]. lia.
    + apply runs_going_on, t_toggle_connect.
    + apply runs_going_on, t_toggle_connect.
Qed.
End Commands.

(** ** What holds of the interpreter *)

Section Interpreter.
Context {D S Q : Type} `{Dbl D} `{!OrderSession D S} `{!OrderSessionLaws D S}.
Implicit Types (om : OrderManager D S) (o : Order D) (st : ManualStrategy D S Q).

Definition unsigned_casts (E : Env D Q) : Prop := ∀ s n, env_u32 E s = Some n → 0 <= n < 2 ^ 32.

(** Room for what is typed: a number [M] that no number typed and no position
    exceeds, such that an order of [M] shares for the line itself, and one for each
    symbol known per word of it, make no local id and no open shares wrap. *)
Definition room_for (E : Env D Q) line st : Prop :=
  let typed := env_tokens E [" "%char; "009"%char] line in
  ∃ M, 0 <= M /\ (∀ a n, a ∈ typed → env_u32 E a = Some n → n <= M) /\ holdings M (ms_om st)
    /\ roomy M (1 + length typed * (1 + length (ms_inst_map st))) (ms_om st).

(** C10: Whatever line the operator types, the interpreter does not fail: no
    assertion, no missing instrument, session or order.  What happens to the order
    manager is a sequence of steps it allows, which keep its books, and the strategy
    goes on holding what is there.  Two things are asked, besides that what parses as
    an unsigned number fits 32 bits: no session is of one of the markets of
    [off_market], which the strategy makes orders of another market
    for ([good]; there it does abort, [off_market_order_aborts]); and [room_for]
    the line, so that the orders it may send make neither the local ids nor the open
    shares of an instrument wrap. *)
Theorem typed_line_keeps_books (E : Env D Q) st line : unsigned_casts E → good st → room_for E line st →
  ∃ st' go, process_string E line st = Ok (st', go) /\ good st'
    /\ rtc operator_step (ms_om st) (ms_om st').
Proof.
  intros Hc Hg (M & HM & Hty & Hh & Hr). assert (∀ r, good (st <| ms_reports := r |>)) as Hrep by (by destruct Hg).
  assert (AtLeast0 M) by exact HM. unfold process_string.
  destruct (env_tokens E _ line) as [|cmd args]; [by exists st, true|].
  destruct (sm_find String.ltb (to_upper cmd) (load_commands E)) as [func|] eqn:Hf;
    [|eexists _, _; split_and!; [done|apply Hrep|done]].
  destruct (sm_find_elem _ _ _ Hf) as [k Hk].
  pose proof (proj1 (Forall_forall _ _) (load_commands_ok (M:=M) (N:=length (ms_inst_map st)) E Hc) (k, func) Hk) as Ht.
  destruct (Ht args) with (k := 0%nat) (st := st) as (st1 & r & E1 & Hg1 & (Hs & _) & _); try done.
  { intros a n Ha. apply Hty. by right. }
  { eapply roomy_less; [done| |exact Hr]. cbn [length]. lia. }
  cbn [snd] in E1. rewrite E1. cbn [mbind res_bind]. destruct r as [go|w]; eexists _, _; (split; [done|]);
    (split; [by destruct Hg1|done]).
Qed.

(** A strategy before [start]. *)
Definition not_started om : ManualStrategy D S Q := mkManual om [] ∅ ∅ ts_zero [].
Lemma assign_inst_elem k esi (m : list (string * Z)) e : e ∈ assign_inst k esi m → e ∈ m \/ e.2 = esi.
Proof.
  unfold assign_inst.
  assert (∀ l : list (string * Z), e ∈ sm_emplace String.ltb k esi l → e ∈ l \/ e.2 = esi) as He.
  { induction l as [|[k' v'] l IH]; cbn.
    - intros ->%list_elem_of_singleton. by right.
    - repeat case_if; rewrite ?elem_of_cons; naive_solver. }
  assert (∀ l : list (string * Z), e ∈ sm_set String.ltb k esi l → e ∈ l \/ e.2 = esi) as Hs.
  { induction l as [|[k' v'] l IH]; cbn; [by left|].
    repeat case_if; rewrite ?elem_of_cons; naive_solver. }
  intros [He'|?]%Hs; [by apply He|by right].
Qed.
Lemma load_instruments_elem (E : Env D Q) (l : list Z) m e :
  e ∈ fold_left (λ m esi, assign_inst (env_cta_symbol E esi) esi m) l m → e ∈ m \/ e.2 ∈ l.
Proof.
  revert m. induction l as [|esi l IH]; intros m; cbn; [by left|].
  intros [He|He]%IH; [|right; by right].
  apply assign_inst_elem in He as [?| ->]; [by left|right; by left].
Qed.
Lemma load_sessions_lookup (l : list (string * S)) (m : gmap Z string) i name :
  fold_left (λ m (ns : string * S), <[MIC_index (ss_market ns.2) := ns.1]> m) l m !! i = Some name →
  m !! i = Some name \/ ∃ s, (name, s) ∈ l /\ MIC_index (ss_market s) = i.
Proof.
  revert m. induction l as [|[n s] l IH]; intros m; cbn; [by left|].
  intros [Hm|(s' & Hin & Hi)]%IH; [|right; exists s'; split; [by right|done]].
  apply lookup_insert_Some in Hm as [[<- <-]|[_ Hm]]; [|by left].
  right. exists s. split; [by left|done].
Qed.

Lemma cbind_done {A B} (m : Cmd A) (k : A → Cmd B) st st1 x :
  m st = Ok (st1, Done x) → cbind m k st = k x st1.
Proof. unfold cbind. by intros ->. Qed.
Lemma deref_done {A} (f : OrderManager D S → res A) st x :
  f (ms_om st) = Ok x → deref f st = Ok (st, Done x).
Proof. unfold deref. by intros ->. Qed.
Lemma call_done {A} (f : OrderManager D S → res (A * OrderManager D S)) st x om :
  f (ms_om st) = Ok (x, om) → call f st = Ok (st <| ms_om := om |>, Done x).
Proof. unfold call. by intros ->. Qed.

(** What [do_load_orders] leaves: the orders it knew, and those of the order
    manager. *)
Lemma each_load st l : heap_has l (ms_om st) →
  ∃ m, each (λ a, cbind (deref (get_order a)) (λ o, insert_order (o_market o) a)) l st
      = Ok (st <| ms_orders := m |>, Done tt)
    /\ ∀ mic a, a ∈ default ∅ (m !! MIC_index mic)
        ↔ a ∈ default ∅ (ms_orders st !! MIC_index mic) \/ (a ∈ l /\ on_market_order mic a (ms_om st)).
Proof.
  revert st. induction l as [|a l IH]; intros st Hl; cbn [each].
  { exists (ms_orders st). split; [by destruct st|]. intros mic a. rewrite elem_of_nil. tauto. }
  destruct (Hl a) as [o Ho]; [by constructor|].
  set (st1 := st <| ms_orders := <[MIC_index (o_market o) :=
    {[a]} ∪ default ∅ (ms_orders st !! MIC_index (o_market o))]> (ms_orders st) |>).
  rewrite (cbind_done _ _ st st1 tt)
    by (rewrite (cbind_done _ _ st st o); [done|by apply deref_done, get_order_Ok]).
  destruct (IH st1) as (m & E1 & Hm); [intros b Hb; apply Hl; by constructor|].
  exists m. split; [exact E1|]. intros mic b. rewrite Hm. subst st1. cbn.
  destruct (decide (MIC_index mic = MIC_index (o_market o))) as [Hi|Hi].
  - assert (mic = o_market o) as -> by (rewrite <- (MIC_of_to_index mic), Hi; apply MIC_of_to_index).
    rewrite lookup_insert_eq. cbn. rewrite elem_of_union, elem_of_singleton, elem_of_cons.
    split; [|naive_solver]. intros [[->|?]|?]; [right|by left|naive_solver].
    split; [by left|by exists o].
  - rewrite lookup_insert_ne by done. rewrite elem_of_cons. split; [naive_solver|].
    intros [?|[[->|?] Ho']]; [by left| |naive_solver]. exfalso.
    destruct Ho' as (x & Hx & Hxm). assert (x = o) as -> by congruence. by subst.
Qed.
Lemma load_orders_spec st b : invariant (ms_om st) →
  ∃ m, do_load_orders b st = Ok (st <| ms_orders := m |>, Done tt)
    /\ ∀ mic a, a ∈ default ∅ (m !! MIC_index mic)
        ↔ a ∈ default ∅ (ms_orders st !! MIC_index mic)
          \/ (Some a ∈ om_orders (ms_om st) /\ ∃ o, om_heap (ms_om st) !! a = Some o
              /\ (b = true \/ is_terminal o = false) /\ o_market o = mic).
Proof.
  intros Hi. unfold do_load_orders.
  destruct (order_filter_ok (ms_om st) (if b then λ _, true else λ o, negb (is_terminal o)) Hi) as (l & E1 & Hl).
  destruct (each_load st l) as (m & E2 & Hm); [intros a (_ & o & ? & _)%Hl; by exists o|].
  exists m. split.
  - rewrite (cbind_done _ _ st st l); [exact E2|]. unfold deref.
    replace ((if b then all_orders else open_orders) (ms_om st)) with (Ok l : res _) by (by destruct b).
    done.
  - intros mic a. rewrite Hm, Hl. unfold on_market_order. destruct b; [naive_solver|].
    setoid_rewrite negb_true_iff. naive_solver.
Qed.

Lemma start_good (E : Env D Q) om : invariant om →
  (∀ name s, om_sessions om !! name = Some s → ss_market s ∉ off_market) →
  ∃ st, manual_start E (not_started om) = Ok (st, Done tt) /\ good st
    /\ ms_om st = om <| om_default_listener := Some (env_self E) |>.
Proof.
  intros Hi Hoff. unfold manual_start.
  set (st0 := load_sessions (load_instruments E (not_started om))).
  destruct (load_orders_spec st0 false Hi) as (m & -> & Hm). cbn [mbind res_bind].
  eexists. split; [done|]. split; [|done].
  assert (∀ i name, ms_session_map st0 !! i = Some name →
    ∃ s, om_sessions om !! name = Some s /\ MIC_index (ss_market s) = i) as Hses.
  { intros i name Hn. apply load_sessions_lookup in Hn as [Hn|(s & Hin & Hs)]; [done|]. exists s. split; [|done].
    unfold get_sessions in Hin. apply list_elem_of_filter in Hin as [_ Hin].
    rewrite merge_sort_Permutation in Hin. by apply elem_of_map_to_list in Hin. }
  split; cbn.
  - refine (proj1 (invariant_proper om _ _) Hi). done.
  - intros e He. apply load_instruments_elem in He as [He|He]; [by apply not_elem_of_nil in He|].
    apply elem_in_address_order, elem_of_dom in He. exact He.
  - intros mic name Hn. destruct (Hses _ _ Hn) as (s & ? & Hs). exists s. split; [done|].
    rewrite <- (MIC_of_to_index mic), <- Hs. symmetry. apply MIC_of_to_index.
  - intros mic a Ha. apply Hm in Ha as [Ha|(_ & o & ? & _ & ?)]; [by apply not_elem_of_empty in Ha|by exists o].
  - intros mic Hmic. destruct (find_session mic _) as [name|] eqn:Hn; [|done]. exfalso.
    destruct (Hses _ _ Hn) as (s & Hs & Hidx). apply (Hoff name s Hs).
    assert (ss_market s = mic) as -> by (rewrite <- (MIC_of_to_index mic), <- Hidx; symmetry; apply MIC_of_to_index).
    done.
Qed.

(** Starting the strategy on an order manager whose books are kept, none of
    whose sessions trades a market of [off_market], gives it what
    [typed_line_keeps_books] asks for. *)
Theorem started_strategy_good (E : Env D Q) om : invariant om →
  (∀ name s, om_sessions om !! name = Some s → ss_market s ∉ off_market) →
  ∃ st, manual_start E (not_started om) = Ok (st, Done tt) /\ good st
    /\ ms_om st = om <| om_default_listener := Some (env_self E) |>.
Proof. apply start_good. Qed.

(** *** Listing *)

Lemma each_reports {A} (f : A → Cmd unit) (g : A → list (Report D Q)) st l :
  (∀ x r, x ∈ l → f x (st <| ms_reports := r |>) = Ok (st <| ms_reports := r ++ g x |>, Done tt)) →
  ∀ r, each f l (st <| ms_reports := r |>) = Ok (st <| ms_reports := r ++ concat (g <$> l) |>, Done tt).
Proof.
  induction l as [|x l IH]; intros Hf r; cbn [each fmap list_fmap concat].
  - by rewrite app_nil_r.
  - rewrite (cbind_done _ _ _ _ tt (Hf x r ltac:(by constructor))).
    rewrite IH by (intros; apply Hf; by constructor). by rewrite app_assoc.
Qed.
Lemma working_has_slot om a o : invariant om → om_heap om !! a = Some o → is_terminal o = false →
  Some a ∈ om_orders om.
Proof.
  intros Hi Ha Ht. pose proof (inv_sizes _ Hi a o Ha) as Hs.
  pose proof (not_terminal_working o Hs Ht) as Hph.
  destruct (working_inv o _ _ Hs Hph) as (_&_&_&_&_&_&[_ Hid]&_).
  destruct (inv_ids _ Hi) as (_ & _ & _ & Hslot). destruct (Hslot a o Ha Hid) as [_ Hl].
  by eapply list_elem_of_lookup_2.
Qed.

Lemma MIC_in_enums m : m ∈ MIC_enums.
Proof. apply (bool_decide_unpack _). by destruct m; vm_compute. Qed.

(** What the operator is shown as the orders of a market (or of all) that are
    not terminal are exactly those of the order manager. *)
Theorem listed_orders_are_open st mic : good st →
  ∃ st' new, do_list_orders_command mic false st = Ok (st', Done tt)
    /\ ms_om st' = ms_om st /\ ms_reports st' = ms_reports st ++ new
    /\ ∀ r, r ∈ new ↔ ∃ a o, Some a ∈ om_orders (ms_om st) /\ om_heap (ms_om st) !! a = Some o
         /\ is_terminal o = false /\ (mic = MIC_UNKNOWN \/ o_market o = mic)
         /\ r = ROrder (o_market o) (o_localID o).
Proof.
  intros Hg. pose proof (g_inv _ Hg) as Hi. unfold do_list_orders_command.
  destruct (load_orders_spec st false Hi) as (m & E1 & Hm). rewrite (cbind_done _ _ _ _ tt E1).
  set (st1 := st <| ms_orders := m |>). clear E1.
  assert (∀ mic' a, a ∈ orders_of mic' st1 → ∃ o, om_heap (ms_om st) !! a = Some o /\ o_market o = mic') as Hof.
  { intros mic' a Ha. apply elem_in_address_order, Hm in Ha as [Ha|(_ & o & ? & _ & ?)]; [|by exists o].
    by apply (g_orders _ Hg). }
  set (line mic' a := match om_heap (ms_om st) !! a with
                 | Some o => if is_terminal o then [] else [ROrder (Q:=Q) (D:=D) mic' (o_localID o)]
                 | None => [] end).
  set (lines mic' := if bool_decide (mic = MIC_UNKNOWN) || bool_decide (mic' = mic)
                  then concat (line mic' <$> orders_of mic' st1) else []).
  exists (st1 <| ms_reports := ms_reports st ++ concat (lines <$> MIC_enums) |>), (concat (lines <$> MIC_enums)).
  split; [|split; [done|split; [done|]]].
  - change st1 with (st1 <| ms_reports := ms_reports st |>) at 1. apply each_reports. intros mic' r _.
    unfold lines. case_if; [|by rewrite app_nil_r].
    rewrite (cbind_done _ _ _ (st1 <| ms_reports := r |>) (orders_of mic' st1)) by done.
    apply each_reports. intros a r' Ha. destruct (Hof mic' a Ha) as (o & Ho & _).
    unfold list_order. rewrite (cbind_done _ _ _ (st1 <| ms_reports := r' |>) o)
      by (apply deref_done, get_order_Ok; exact Ho).
    unfold line. rewrite Ho. destruct (is_terminal o); cbn; [by rewrite app_nil_r|done].
  - intros r. rewrite list_elem_of_In, in_concat. setoid_rewrite <- list_elem_of_In.
    setoid_rewrite list_elem_of_fmap. split.
    + intros (? & (mic' & -> & _) & Hr). unfold lines in Hr. case_if; [|by apply not_elem_of_nil in Hr].
      apply list_elem_of_In, in_concat in Hr as (? & Hx & Hr). apply list_elem_of_In in Hx, Hr.
      apply list_elem_of_fmap in Hx as (a & -> & Ha). destruct (Hof mic' a Ha) as (o & Ho & Hmk).
      unfold line in Hr. rewrite Ho in Hr. destruct (is_terminal o) eqn:Ht; [by apply not_elem_of_nil in Hr|].
      apply list_elem_of_singleton in Hr as ->. exists a, o. subst mic'. split_and!; try done.
      * by eapply working_has_slot.
      * apply orb_true_iff in Hif as [?%bool_decide_eq_true|?%bool_decide_eq_true]; [by left|by right].
    + intros (a & o & Hslot & Ho & Ht & Hmic & ->). exists (lines (o_market o)). split.
      * exists (o_market o). split; [done|apply MIC_in_enums].
      * unfold lines. rewrite (proj2 (orb_true_iff _ _)) by (destruct Hmic; [left|right]; by apply bool_decide_true).
        apply list_elem_of_In, in_concat. exists (line (o_market o) a).
        rewrite <- !list_elem_of_In. split.
        -- apply list_elem_of_fmap. exists a. split; [done|]. apply elem_in_address_order, Hm. right.
           split; [done|]. exists o. split_and!; try done. by right.
        -- unfold line. rewrite Ho, Ht. by left.
Qed.

(** An order typed for BATY, EDGX, EDGA, XBOS or XPSX fails the assertion of the
    order manager that its market is that of the session, and the application
    ends: the strategy makes an order of the class of BATS or NASDAQ, which always
    answers [BATS] or [XNAS]. *)
Theorem off_market_order_aborts (E : Env D Q) st esi side size price type tif mic name :
  mic ∈ off_market → ms_session_map st !! MIC_index mic = Some name →
  (∃ s, om_sessions (ms_om st) !! name = Some s /\ ss_market s = mic) →
  do_order_command E esi side size price type tif mic [] st
  = Fail (AssertFailed "order_p->market() == session_p->market()").
Proof.
  intros Hoff Hn (s & Hs & Hsm). unfold do_order_command.
  rewrite (cbind_done _ _ st st (Some name)) by (unfold get, find_session; by rewrite Hn).
  set (om := ms_om st) in *.
  assert (∀ k, kind_market k ≠ mic →
    let o := new_order E k esi price size side tif type in
    let '(a, om1) := create_order o om in
    send (Some a) (Some name) om1 = Fail (AssertFailed "order_p->market() == session_p->market()")) as Hsend.
  { intros k Hk o. unfold create_order, send, get_order, get_session_ref. cbn.
    rewrite lookup_insert_eq. cbn. rewrite Hs. cbn. rewrite bool_decide_false; [done|].
    change (kind_market k ≠ ss_market s). by rewrite Hsm. }
  destruct (create_order (new_order E (BATSOrder BOE20Order_default) esi price size side tif type) om) as [a1 om1] eqn:E1.
  destruct (create_order (new_order E (NASDAQOrder NASDAQOrder_default) esi price size side tif type) om) as [a2 om2] eqn:E2.
  assert (mic = BATY \/ mic = EDGX \/ mic = EDGA \/ mic = XBOS \/ mic = XPSX) as Hcases
    by (unfold off_market in Hoff; rewrite !elem_of_cons, elem_of_nil in Hoff; tauto).
  assert (BATS ≠ mic /\ XNAS ≠ mic) as [H1 H2] by (destruct Hcases as [->|[->|[->|[->| ->]]]]; done).
  pose proof (Hsend (BATSOrder BOE20Order_default) H1) as S1. cbv zeta in S1. rewrite E1 in S1.
  pose proof (Hsend (NASDAQOrder NASDAQOrder_default) H2) as S2. cbv zeta in S2. rewrite E2 in S2.
  case_if.
  - rewrite (cbind_done _ _ st (st <| ms_om := om1 |>) a1) by (apply call_done; f_equal; exact E1).
    cbn [handle_boe_order_arguments]. rewrite (cbind_done _ _ _ (st <| ms_om := om1 |>) true) by done.
    unfold cbind at 1, call at 1. change (ms_om (st <| ms_om := om1 |>)) with om1. by rewrite S1.
  - rewrite bool_decide_true by (bools; destruct Hcases as [->|[->|[->|[->| ->]]]]; set_solver).
    rewrite (cbind_done _ _ st (st <| ms_om := om2 |>) a2) by (apply call_done; f_equal; exact E2).
    unfold cbind at 1, call at 1. change (ms_om (st <| ms_om := om2 |>)) with om2. by rewrite S2.
Qed.
End Interpreter.

(** ** Prices of closing out *)

(** The price a position is meant to be closed out at: two percent and half a cent
    beyond the mark. *)
Definition intended_price (side : Side) (mark : Qc) : Qc :=
  if bool_decide (side = BUY) then (mark * (d_of_Z 1 + d_lit 2 100) + d_lit 5 1000)%dbl
  else (mark * (d_of_Z 1 - d_lit 2 100) - d_lit 5 1000)%dbl.

Lemma this_of_Z z : (this (qc_of_Z z) == inject_Z z)%Q.
Proof. apply Qred_correct. Qed.
Lemma this_lit n d : 0 < d → (this (d_lit n d) * inject_Z d == inject_Z n)%Q.
Proof.
  intros Hd. cbv [d_lit d_div d_of_Z ideal]. unfold Qcdiv, Qcmult, Qcinv, Q2Qc. cbn [this].
  rewrite !Qred_correct, !this_of_Z. field. unfold Qeq; cbn; lia.
Qed.
Lemma this_mult (x y : Qc) : (this (x * y)%Qc == this x * this y)%Q.
Proof. apply Qred_correct. Qed.
Lemma this_plus (x y : Qc) : (this (x + y)%Qc == this x + this y)%Q.
Proof. apply Qred_correct. Qed.
Lemma this_minus (x y : Qc) : (this (x - y)%Qc == this x - this y)%Q.
Proof. unfold Qcminus, Qcplus, Qcopp, Q2Qc. cbn [this]. by rewrite !Qred_correct. Qed.
Lemma trunc_bounds (x : Qc) : (0 <= this x)%Q →
  (inject_Z (qc_trunc x) <= this x /\ this x < inject_Z (qc_trunc x) + 1)%Q.
Proof.
  destruct x as [[n d] ?]. unfold qc_trunc, Qle, Qlt. cbn. intros Hn.
  rewrite Z.quot_div_nonneg by lia. pose proof (Z.mul_div_le n (Z.pos d) ltac:(lia)).
  pose proof (Z.mod_pos_bound n (Z.pos d) ltac:(lia)). pose proof (Z.div_mod n (Z.pos d)). lia.
Qed.

(** A position is closed out within a cent of two percent and half a cent
    beyond its mark, rounded down. *)
Theorem closeout_price_within_a_cent side (mark : Qc) :
  (d_lit 1 100 <= mark)%Qc → (mark <= d_of_Z 40000000)%Qc →
  (closeout_price side mark (d_lit 2 100) <= intended_price side mark)%Qc
  /\ (intended_price side mark < closeout_price side mark (d_lit 2 100) + d_lit 1 100)%Qc.
Proof.
  intros Hlo Hhi. unfold closeout_price.
  replace (HARD_CLOSEOUT_CROSS_PCT <? d_lit 2 100)%dbl with false by (vm_compute; reflexivity).
  cbv zeta. fold (intended_price side mark). cbn match.
  set (t := intended_price side mark). 
  assert (1 # 1000 <= this t /\ this t < 41000000)%Q as [Ht1 Ht2].
  { pose proof (this_lit 2 100 ltac:(lia)) as E2. pose proof (this_lit 5 1000 ltac:(lia)) as E5.
    pose proof (this_lit 1 100 ltac:(lia)) as E1. pose proof (this_of_Z 1) as F1. pose proof (this_of_Z 40000000) as F4.
    unfold Qcle in Hlo, Hhi. change (d_of_Z 40000000) with (qc_of_Z 40000000) in Hhi.
    assert (this (d_lit 2 100) == 2 # 100 /\ this (d_lit 5 1000) == 5 # 1000)%Q as [G2 G5]
      by (unfold inject_Z in *; lra).
    subst t. unfold intended_price. cbv [d_add d_sub d_mul d_of_Z ideal].
    case_match; rewrite ?this_plus, ?this_minus, this_mult, ?this_plus, ?this_minus, G2, G5, F1;
      unfold inject_Z in *; lra. }
  clearbody t. clear Hlo Hhi. set (x := (t * d_of_Z 100)%dbl).
  assert (this x == this t * 100)%Q as Hx by (unfold x; cbv [d_mul d_of_Z ideal]; by rewrite this_mult, this_of_Z).
  destruct (trunc_bounds x) as [Hz1 Hz2]; [lra|]. change (d_to_i64 x) with (qc_trunc x).
  set (z := qc_trunc x) in *. clearbody z x.
  assert (-1 < z < 4294967296) as Hz.
  { split; rewrite Zlt_Qlt; [change (inject_Z (-1)) with (-1 # 1)
      |change (inject_Z 4294967296) with (4294967296 # 1)]; lra. }
  rewrite (wrap_small 32) by (unfold in_u; lia).
  pose proof (this_lit z 100 ltac:(lia)) as Hp. pose proof (this_lit 1 100 ltac:(lia)) as H1.
  change (d_of_Z z / d_of_Z 100)%dbl with (d_lit z 100 : Qc).
  unfold Qcle, Qclt. rewrite this_plus. unfold inject_Z at 1 in Hp. unfold inject_Z in H1.
  set (p := this (d_lit z 100)) in *. unfold inject_Z in *. split; lra.
Qed.

Lemma closeout_price_within_a_cent_witness :
  closeout_price BUY (d_of_Z 20 : Qc) (d_lit 2 100) = d_lit 2040 100
  /\ (closeout_price BUY (d_of_Z 20) (d_lit 2 100) <= intended_price BUY (d_of_Z 20))%Qc
  /\ (intended_price BUY (d_of_Z 20) < closeout_price BUY (d_of_Z 20) (d_lit 2 100) + d_lit 1 100)%Qc.
Proof.
  split; [apply Qc_is_canon; vm_compute; reflexivity|].
  apply (closeout_price_within_a_cent BUY (d_of_Z 20)); unfold Qcle; vm_compute; discriminate.
Defined.

(** ** A desk with one simulated session *)

Fixpoint words (seps : list ascii) (s word : string) : list string :=
  let flush := if bool_decide (word = "") then [] else [word] in
  match s with
  | EmptyString => flush
  | String c s =>
      if bool_decide (c ∈ seps) then flush ++ words seps s "" else words seps s (word +:+ String c "")
  end.
Fixpoint digits (s : string) (acc : Z) : option Z :=
  match s with
  | EmptyString => Some acc
  | String c s =>
      let d := char_code c - 48 in
      if (0 <=? d) && (d <? 10) then digits s (acc * 10 + d) else None
  end.
Definition number (bound : Z) (s : string) : option Z :=
  match (if bool_decide (s = "") then None else digits s 0) with
  | Some n => if n <? bound then Some n else None
  | None => None
  end.
Definition signed_number (s : string) : option Z :=
  match s with
  | String "-" s => Z.opp <$> number (2 ^ 63) s
  | _ => number (2 ^ 63) s
  end.
Lemma digits_nonneg s acc n : 0 <= acc → digits s acc = Some n → 0 <= n.
Proof.
  revert acc. induction s as [|c s IH]; cbn; intros acc Hacc; [by intros [= <-]|].
  case_if; [|done]. bools. apply IH. lia.
Qed.
Lemma number_range b s n : number b s = Some n → 0 <= n < b.
Proof.
  unfold number. case_if; [done|]. destruct (digits s 0) as [k|] eqn:Hd; [|done].
  apply digits_nonneg in Hd; [|done]. case_if; [|done]. intros [= <-]. bools. lia.
Qed.

Abbreviation B64 := SpecFloat.spec_float.
Definition desk : Env B64 unit :=
  @mkEnv B64 unit (λ seps s, words seps s "") (number (2 ^ 16)) (number (2 ^ 32)) signed_number
    (λ s, d_of_Z <$> number (2 ^ 32) s) (mkTs 100 0) (λ esi, if esi =? 1 then "IBM" else "")
    (mkCS ∅ "" 0) (λ _, Done None) (λ _ _, None) 7.
Lemma desk_casts : unsigned_casts desk.
Proof. intros s n. apply number_range. Qed.
Definition desk_om (mic : MIC) : OrderManager B64 (L2SimSession B64) :=
  OrderManager_new <| om_firm_risk := day_firm |>
    <| om_sessions := {["sim" := (L2SimSession_new mic {[1 := "IBM"]} (Some 100) None)
         <| sim_ts := mkTs 100 0 |> <| sim_index_map := {["IBM" := 1]} |>]} |>
    <| om_universe := {[1 := day_instrument]} |>.
Definition fresh_desk (mic : MIC) : ManualStrategy B64 (L2SimSession B64) unit :=
  match manual_start desk (not_started (desk_om mic)) with
  | Ok (st, _) => st | Fail _ => not_started (desk_om mic) end.
Definition typed (line : string) (st : ManualStrategy B64 (L2SimSession B64) unit) :=
  match process_string desk line st with Ok (st, _) => st | Fail _ => st end.

Lemma desk_invariant mic : invariant (desk_om mic).
Proof.
  apply initial_invariant. split_and!; [done..|]. intros esi i b Hi.
  change (({[1 := day_instrument]} : gmap Z _) !! esi = Some i) in Hi.
  apply lookup_singleton_Some in Hi as [<- <-]. by destruct b.
Qed.
Lemma desk_sessions mic name s : om_sessions (desk_om mic) !! name = Some s → ss_market s = mic.
Proof.
  cbn. intros Hs. apply lookup_singleton_Some in Hs as [<- <-]. done.
Qed.
Lemma started_good : good (fresh_desk XNAS).
Proof.
  destruct (start_good desk (desk_om XNAS) (desk_invariant XNAS)) as (st & E1 & Hg & _).
  - intros name s ->%desk_sessions. apply (bool_decide_unpack _). by vm_compute.
  - unfold fresh_desk. rewrite E1. done.
Qed.
Lemma started_strategy_good_witness :
  find_inst "IBM" (fresh_desk XNAS) = Some 1
  /\ ∃ st, manual_start desk (not_started (desk_om XNAS)) = Ok (st, Done tt) /\ good st
       /\ ms_om st = (desk_om XNAS) <| om_default_listener := Some 7 |>.
Proof.
  split; [vm_compute; reflexivity|]. apply (started_strategy_good desk (desk_om XNAS) (desk_invariant XNAS)).
  intros name s ->%desk_sessions. apply (bool_decide_unpack _). by vm_compute.
Defined.

Definition order_line : string := "o ibm S 300 20 l d xnas".
Lemma desk_room : room_for desk order_line (fresh_desk XNAS).
Proof.
  exists 300. split; [lia|].
  assert (env_tokens desk [" "%char; "009"%char] order_line = ["o"; "ibm"; "S"; "300"; "20"; "l"; "d"; "xnas"]) as ->
    by (vm_compute; reflexivity).
  assert (om_universe (ms_om (fresh_desk XNAS)) = {[1 := day_instrument]}) as Hu by (vm_compute; reflexivity).
  unfold holdings, roomy. rewrite Hu. split_and!; [| |vm_compute; reflexivity|].
  - intros a n Ha Hn. repeat (apply elem_of_cons in Ha as [->|Ha];
      [vm_compute in Hn; try discriminate; injection Hn as <-; lia|]). by apply not_elem_of_nil in Ha.
  - intros esi i Hi. apply lookup_singleton_Some in Hi as [<- <-]. by vm_compute.
  - intros esi i b Hi. apply lookup_singleton_Some in Hi as [<- <-]. by destruct b; vm_compute.
Qed.
Lemma typed_line_keeps_books_witness :
  views (ms_om (typed order_line (fresh_desk XNAS))) = {[first_order := mkView 1 false 300 AtExchange]}
  /\ ∃ st' go, process_string desk order_line (fresh_desk XNAS) = Ok (st', go) /\ good st'
       /\ rtc operator_step (ms_om (fresh_desk XNAS)) (ms_om st').
Proof.
  split; [vm_compute; reflexivity|].
  apply (typed_line_keeps_books desk (fresh_desk XNAS) order_line desk_casts started_good desk_room).
Defined.

(** The strategy started when an order has been partly filled. *)
Definition restarted : ManualStrategy B64 (L2SimSession B64) unit :=
  match manual_start desk (not_started (sample_state 4)) with
  | Ok (st, _) => st | Fail _ => not_started (sample_state 4) end.
Lemma sample_sessions name s : om_sessions (sample_state 4) !! name = Some s → ss_market s = XNYS.
Proof.
  intros Hs. assert (om_sessions (sample_state 4) = {["sim" := default sample_session
    (om_sessions (sample_state 4) !! "sim")]}) as E1 by (vm_compute; reflexivity).
  rewrite E1 in Hs. apply lookup_singleton_Some in Hs as [_ <-]. vm_compute. reflexivity.
Qed.
Lemma restarted_good : good restarted.
Proof.
  destruct (start_good desk (sample_state 4)) as (st & E1 & Hg & _).
  - apply reachable_invariant, sample_reachable. lia.
  - intros name s ->%sample_sessions. apply (bool_decide_unpack _). by vm_compute.
  - unfold restarted. by rewrite E1.
Qed.
Lemma listed_orders_are_open_witness :
  ∃ st' new, do_list_orders_command MIC_UNKNOWN false restarted = Ok (st', Done tt)
    /\ ms_reports st' = ms_reports restarted ++ new /\ ROrder XNYS 1 ∈ new.
Proof.
  destruct (listed_orders_are_open restarted MIC_UNKNOWN restarted_good)
    as (st' & new & E1 & _ & Hr & Hnew).
  exists st', new. split_and!; [done|done|]. apply Hnew.
  assert (∃ o, om_heap (ms_om restarted) !! first_order = Some o /\ is_terminal o = false
    /\ o_market o = XNYS /\ o_localID o = 1) as (o & Ho & Ht & Hm & Hid)
    by (eexists; vm_compute; split_and!; reflexivity).
  exists first_order, o. split_and!; [|done|done|by left|by rewrite Hm, Hid].
  apply (list_elem_of_lookup_2 _ 1%nat). vm_compute. reflexivity.
Defined.

Lemma off_market_order_aborts_witness :
  do_order_command desk 1 SELL 300 (d_of_Z 20) LIMIT DAY BATY [] (fresh_desk BATY)
  = Fail (AssertFailed "order_p->market() == session_p->market()")
  /\ process_string desk "o ibm s 300 20 l d baty" (fresh_desk BATY)
     = Fail (AssertFailed "order_p->market() == session_p->market()").
Proof.
  split; [|vm_compute; reflexivity].
  apply (off_market_order_aborts desk (fresh_desk BATY) 1 SELL 300 (d_of_Z 20) LIMIT DAY BATY "sim").
  - apply (bool_decide_unpack _). by vm_compute.
  - vm_compute. reflexivity.
  - destruct (om_sessions (ms_om (fresh_desk BATY)) !! "sim") as [s|] eqn:Hs; [|vm_compute in Hs; discriminate].
    exists s. split; [done|]. vm_compute in Hs. injection Hs as <-. reflexivity.
Defined.

(** Naming a symbol twice closes its position out twice. *)
Example closeout_twice :
  let st := typed "closeout xnas ibm ibm" (typed "manposadj ibm 0 -100"
    (match on_last_sale_change 1 (d_of_Z 20) (desk_om XNAS) with
     | Ok om => match manual_start desk (not_started om) with Ok (st, _) => st | Fail _ => not_started om end
     | Fail _ => fresh_desk XNAS end)) in
  (λ v, (v_buy v, v_size v)) <$> (map_to_list (views (ms_om st))).*2 = [(true, 100); (true, 100)]
  /\ length (om_orders (ms_om st)) = 3%nat.
Proof. split; vm_compute; reflexivity. Qed.
