(* ===== verification/ReplayCorrect.v ===== *)
(** * Recovery is faithful

    Handing an order manager the messages another one wrote brings it to a state
    that mirrors the writer's: the same local ids, the same orders with the same
    sizes and states, and positions with the same open sizes, quantities,
    volume-weighted price and realized profit.  Local rejections are not
    recovered as orders, exchange ids, response times and locates not at all. *)

From S2P Require Import Prelude Dbl Time Types Order Position Config Instrument FirmRisk.
From S2P Require Import OrderLog Blotter Session OrderManager Replay OrderInvariant.
From S2P Require Import OrderLifecycle.

(** ** Mirrored positions *)

Section Positions.
Context {D : Type} `{Dbl D}.
Implicit Types (p q : Position D) (U V : gmap Z (EquityInstrument D)).

Definition pos_mirror p q : Prop :=
  p_open_long_size q = p_open_long_size p /\ p_open_short_size q = p_open_short_size p
  /\ p_trading_quantity q = p_trading_quantity p /\ p_start_quantity q = p_start_quantity p
  /\ p_vwap q = p_vwap p /\ p_realized q = p_realized p.
#[export] Instance pos_mirror_equiv : Equivalence pos_mirror.
Proof. unfold pos_mirror. split; repeat intro; intuition congruence. Qed.

(** Every instrument of the first is in the second, with a mirrored position. *)
Definition universe_mirror U V : Prop :=
  ∀ esi i, U !! esi = Some i →
    ∃ j, V !! esi = Some j /\ pos_mirror (i_position i) (i_position j).
#[export] Instance universe_mirror_preorder : PreOrder universe_mirror.
Proof.
  split.
  - intros U esi i Hi. by exists i.
  - intros U V W HUV HVW esi i Hi. destruct (HUV esi i Hi) as (j & Hj & Hp).
    destruct (HVW esi j Hj) as (k & Hk & Hq). exists k. split; [done|]. by etransitivity.
Qed.

Lemma universe_mirror_insert U V esi i j :
  universe_mirror U V → pos_mirror (i_position i) (i_position j) →
  universe_mirror (<[esi := i]> U) (<[esi := j]> V).
Proof.
  intros HUV Hp k x. destruct (decide (esi = k)) as [<-|].
  - rewrite lookup_insert_eq. intros [= <-]. exists j. by rewrite lookup_insert_eq.
  - rewrite lookup_insert_ne by done. intros Hx. rewrite lookup_insert_ne by done. by apply HUV.
Qed.
(** Changes to an instrument that its position's mirror does not show. *)
Lemma universe_mirror_locates U esi i i' :
  U !! esi = Some i → pos_mirror (i_position i') (i_position i) →
  universe_mirror (<[esi := i']> U) U.
Proof.
  intros Hi Hp k x. destruct (decide (esi = k)) as [<-|].
  - rewrite lookup_insert_eq. intros [= <-]. by exists i.
  - rewrite lookup_insert_ne by done. intros Hx. by exists x.
Qed.

(** Updates of firm risk and position that mirror each other. *)
Definition mirrored (g g' : FirmRisk D → Position D → res (FirmRisk D * Position D)) : Prop :=
  ∀ f p f1 p1 f' q, g f p = Ok (f1, p1) → pos_mirror p q →
    ∃ f1' q1, g' f' q = Ok (f1', q1) /\ pos_mirror p1 q1.

Lemma mirrored_adds o o' n : o_side o' = o_side o →
  mirrored (λ f p, Ok (on_order_adds o n f p)) (λ f p, Ok (on_order_adds o' n f p)).
Proof.
  intros Hs f p f1 p1 f' q. unfold on_order_adds. rewrite Hs.
  case_if; intros [= _ <-] (E1&E2&E3&E4&E5&E6); do 2 eexists; (split; [reflexivity|]);
    unfold pos_mirror; cbn; by rewrite ?E1, ?E2.
Qed.

Lemma mirrored_removes o o' n : o_side o' = o_side o →
  mirrored (on_order_removes o n) (on_order_removes o' n).
Proof.
  intros Hs f p f1 p1 f' q. unfold on_order_removes, sub_open_buys, sub_open_sells, assert.
  rewrite Hs. case_if; intros Hg (E1&E2&E3&E4&E5&E6); rewrite ?E1, ?E2; case_if; try discriminate Hg;
    cbn in *; injection Hg as _ <-; do 2 eexists; (split; [reflexivity|]);
    unfold pos_mirror; cbn; by rewrite ?E1, ?E2.
Qed.

Lemma pnl_mirror side n px fee p q : pos_mirror p q →
  pos_mirror (update_realized_and_unrealized_pnl side n px fee p)
    (update_realized_and_unrealized_pnl side n px fee q).
Proof.
  intros (E1&E2&E3&E4&E5&E6). unfold update_realized_and_unrealized_pnl, pos_mirror.
  rewrite E3, E5, E6. repeat case_if; cbn; by rewrite ?E1, ?E2, ?E3, ?E4.
Qed.

Lemma mirrored_fill o o' n px fee : o_side o' = o_side o →
  mirrored (on_order_fill o n px fee) (on_order_fill o' n px fee).
Proof.
  intros Hs f p f1 p1 f' q Hg Hp. unfold on_order_fill in *. rewrite Hs.
  apply res_bind_Ok in Hg as ([f2 p2] & Hr & [= _ <-]).
  edestruct (mirrored_removes o o' n Hs) as (f3 & q3 & Hr' & Hq); [exact Hr|by apply pnl_mirror|].
  rewrite Hr'. cbn. by do 2 eexists.
Qed.
End Positions.

(** ** Mirrored order managers *)

Section Mirror.
Context {D S : Type} `{Dbl D} `{!OrderSession D S} `{!OrderSessionLaws D S}.
Implicit Types (om rp : OrderManager D S) (o : Order D).

(** The recovered order: created from the message that it was sent. *)
Definition order_mirror o o' : Prop :=
  o_instrument o' = o_instrument o /\ o_side o' = o_side o
  /\ o_price o' = o_original_price o /\ o_size o' = o_size o
  /\ o_localID o' = o_localID o /\ o_session o' = o_session o /\ o_state o' = o_state o
  /\ o_filled_size o' = o_filled_size o /\ o_open_size o' = o_open_size o
  /\ o_cancelled_size o' = o_cancelled_size o.

Lemma mirror_ack o o' x y n ts xts : order_mirror o o' →
  order_mirror (order_update_on_ack x n ts xts o) (order_update_on_ack y n ts xts o').
Proof. intros (E1&E2&E3&E4&E5&E6&E7&E8&E9&E10). by split_and!. Qed.
Lemma mirror_reject o o' ts xts : order_mirror o o' →
  order_mirror (order_update_on_reject ts xts o) (order_update_on_reject ts xts o').
Proof. intros (E1&E2&E3&E4&E5&E6&E7&E8&E9&E10). by split_and!. Qed.
Lemma mirror_fill o o' n px ts xts fc : order_mirror o o' →
  order_mirror (order_update_on_fill n px ts xts fc o) (order_update_on_fill n px ts xts fc o').
Proof.
  intros (E1&E2&E3&E4&E5&E6&E7&E8&E9&E10). unfold order_update_on_fill.
  rewrite E4, E8, E9. by split_and!.
Qed.
Lemma mirror_cancel o o' n ts xts : order_mirror o o' →
  order_mirror (order_update_on_cancel n ts xts o) (order_update_on_cancel n ts xts o').
Proof.
  intros (E1&E2&E3&E4&E5&E6&E7&E8&E9&E10). unfold order_update_on_cancel.
  rewrite E9, E10. case_if; by split_and!.
Qed.

(** A session that recreates the orders of a market when asked. *)
Context (recreates : MIC → string → S → Prop)
  (Hrecreates : ∀ m name s ts inst account id price size side tif type ud,
     recreates m name s →
     ∃ o s', ss_create_replay_order ts inst m account id price size side tif type ud s = (Some o, s')
       /\ recreates m name s' /\ replay_order_for name inst price size side o).

(** Names that the log keeps. *)
Definition name_ok (name : string) : Prop :=
  (length (string_bytes name) <= 8)%nat /\ printable name.

(** A slot of the id table and its mirror: an order that was rejected locally has none. *)
Definition slot_mirror om rp (p p' : option Z) : Prop :=
  match p, p' with
  | None, None => True
  | None, Some _ => False
  | Some a, None => ∃ o, om_heap om !! a = Some o /\ o_state o = LOCALLY_REJECTED
  | Some a, Some a' => ∃ o o', om_heap om !! a = Some o /\ om_heap rp !! a' = Some o'
      /\ order_mirror o o'
  end.

Record mirrors om rp : Prop := {
  mir_id : om_localID rp = om_localID om;
  mir_slots : Forall2 (slot_mirror om rp) (om_orders om) (om_orders rp);
  mir_universe : universe_mirror (om_universe om) (om_universe rp);
  mir_sessions : ∀ name s, om_sessions om !! name = Some s →
    name_ok name /\ ∃ s', om_sessions rp !! name = Some s' /\ recreates (ss_market s) name s'
}.

(** Recovering the messages that a step of the writer adds. *)
Definition recovers om om' : Prop :=
  ∃ ms, om_blotter om' = om_blotter om ++ ms
    /\ ∀ rp, mirrors om rp → ∃ rp', recover ms rp = Ok rp' /\ mirrors om' rp'.

Lemma recovers_quiet om om' : om_blotter om' = om_blotter om →
  (∀ rp, mirrors om rp → mirrors om' rp) → recovers om om'.
Proof.
  intros Hb Hm. exists []. rewrite Hb, app_nil_r. split; [done|]. intros rp Hrp.
  exists rp. split; [done|auto].
Qed.

(** The parts that the order's slot decides, for an order with an id. *)
Lemma mirrors_slot om rp a o : invariant om → mirrors om rp →
  om_heap om !! a = Some o → o_localID o ≠ 0 →
  0 < o_localID o <= om_localID om
  /\ om_orders om !! Z.to_nat (o_localID o) = Some (Some a)
  /\ ∃ p', om_orders rp !! Z.to_nat (o_localID o) = Some p' /\ slot_mirror om rp (Some a) p'.
Proof.
  intros Hi Hm Ha Hid. destruct (inv_ids _ Hi) as (I1 & _ & _ & I4).
  destruct (I4 a o Ha Hid) as [Hpos Hlk]. split; [apply lookup_lt_Some in Hlk; lia|].
  split; [done|]. by apply (Forall2_lookup_l _ _ _ _ _ (mir_slots _ _ Hm)).
Qed.

(** Looking a logged order up: the table has its slot already. *)
Lemma on_logged_order_found rp oid f p : 
  oid_local_id oid <= om_localID rp → 0 <= oid_local_id oid →
  om_orders rp !! Z.to_nat (oid_local_id oid) = Some p →
  on_logged_order oid f rp = match p with
    | None => Ok rp
    | Some a => o ← get_order a rp; f a o rp
    end.
Proof.
  intros Hle Hpos Hp. unfold on_logged_order, extend_local_id_helper.
  rewrite (proj2 (Z.leb_le _ _) Hle). cbn [mbind res_bind]. unfold get_slot.
  by rewrite (proj2 (Z.leb_le _ _) Hpos), Hp.
Qed.

(** Both sides replace an order with mirrored ones. *)
Lemma slots_replace om om' rp rp' a a' o o1' n :
  ids_ok om → Forall2 (slot_mirror om rp) (om_orders om) (om_orders rp) →
  om_orders om !! n = Some (Some a) → om_orders rp !! n = Some (Some a') →
  om_heap om' = <[a := o]> (om_heap om) → om_heap rp' = <[a' := o1']> (om_heap rp) →
  order_mirror o o1' →
  (∀ m, om_orders rp !! m = Some (Some a') → m = n) →
  Forall2 (slot_mirror om' rp') (om_orders om) (om_orders rp).
Proof.
  intros (_ & _ & I3 & _) HF Hn Hn' Hh Hh' Ho Huniq.
  apply Forall2_same_length_lookup. split; [by eapply Forall2_length|].
  intros m p p' Hp Hp'. pose proof (Forall2_lookup_lr _ _ _ _ _ _ HF Hp Hp') as Hs.
  destruct (decide (m = n)) as [->|Hne].
  - rewrite Hn in Hp. rewrite Hn' in Hp'. injection Hp as <-. injection Hp' as <-.
    exists o, o1'. by rewrite Hh, Hh', !lookup_insert_eq.
  - assert (∀ b, p = Some b → b ≠ a) as Hb.
    { intros b -> ->. destruct (I3 m a Hp) as (x & Hx & Ex), (I3 n a Hn) as (y & Hy & Ey).
      rewrite Hx in Hy. injection Hy as ->. lia. }
    assert (∀ b, p' = Some b → b ≠ a') as Hb' by (intros b -> ->; by apply Hne, Huniq).
    destruct p as [b|], p' as [b'|]; cbn in *; try done.
    + rewrite Hh, Hh', !lookup_insert_ne by (symmetry; auto). done.
    + rewrite Hh, lookup_insert_ne by (symmetry; auto). done.
Qed.

Lemma recovered_slots_distinct om rp n m a' : ids_ok om →
  Forall2 (slot_mirror om rp) (om_orders om) (om_orders rp) →
  om_orders rp !! n = Some (Some a') → om_orders rp !! m = Some (Some a') → n = m.
Proof.
  intros (_ & _ & I3 & _) HF Hn Hm.
  assert (∀ k, om_orders rp !! k = Some (Some a') →
    ∃ o', om_heap rp !! a' = Some o' /\ o_localID o' = Z.of_nat k) as Hid.
  { intros k Hk. destruct (Forall2_lookup_r _ _ _ _ _ HF Hk) as ([a|] & Hp & Hs); [|done].
    destruct Hs as (o & o' & Ho & Ho' & Hmir). destruct (I3 k a Hp) as (x & Hx & Hxid).
    rewrite Ho in Hx. injection Hx as <-. exists o'. split; [done|].
    destruct Hmir as (_&_&_&_&->&_). done. }
  destruct (Hid n Hn) as (x & Hx & Ex), (Hid m Hm) as (y & Hy & Ey).
  rewrite Hx in Hy. injection Hy as <-. lia.
Qed.

(** What changed besides the instruments and the risk state. *)
Definition only_order (a : Z) (o1 : Order D) om om' : Prop :=
  om_heap om' = <[a := o1]> (om_heap om) /\ om_orders om' = om_orders om
  /\ om_localID om' = om_localID om /\ om_sessions om' = om_sessions om.

(** On the writing side a session may have moved on, in the same market. *)
Definition sessions_kept om om' : Prop :=
  ∀ name s', om_sessions om' !! name = Some s' →
    ∃ s, om_sessions om !! name = Some s /\ ss_market s' = ss_market s.
Definition live_order (a : Z) (o1 : Order D) om om' : Prop :=
  om_heap om' = <[a := o1]> (om_heap om) /\ om_orders om' = om_orders om
  /\ om_localID om' = om_localID om /\ sessions_kept om om'.
Lemma sessions_same_kept om om' : om_sessions om' = om_sessions om → sessions_kept om om'.
Proof. intros E name s'. rewrite E. by exists s'. Qed.
Lemma only_live a o1 om om' : only_order a o1 om om' → live_order a o1 om om'.
Proof. intros (?&?&?&?). split_and!; try done. by apply sessions_same_kept. Qed.
Lemma kept_sessions om om' rp : sessions_kept om om' →
  (∀ name s, om_sessions om !! name = Some s →
     name_ok name /\ ∃ s', om_sessions rp !! name = Some s' /\ recreates (ss_market s) name s') →
  ∀ name s, om_sessions om' !! name = Some s →
     name_ok name /\ ∃ s', om_sessions rp !! name = Some s' /\ recreates (ss_market s) name s'.
Proof. intros Hk Hm name s' Hs'. destruct (Hk name s' Hs') as (s & Hs & ->). eauto. Qed.

Lemma mirror_response om om' rp rp' a a' o o1 o1' :
  invariant om → mirrors om rp → om_heap om !! a = Some o →
  o_localID o ≠ 0 → om_orders rp !! Z.to_nat (o_localID o) = Some (Some a') →
  live_order a o1 om om' → only_order a' o1' rp rp' → order_mirror o1 o1' →
  universe_mirror (om_universe om') (om_universe rp') → mirrors om' rp'.
Proof.
  intros Hi Hm Ha Hid Hp' (E1 & E2 & E3 & E4) (F1 & F2 & F3 & F4) Hmir HU.
  destruct (mirrors_slot om rp a o Hi Hm Ha Hid) as (_ & Hp & _).
  pose proof (inv_ids _ Hi) as Hids. split.
  - rewrite E3, F3. apply Hm.
  - rewrite E2, F2. eapply slots_replace; try done; [apply Hm|].
    intros m Hmm. by eapply recovered_slots_distinct; [done|apply Hm|..].
  - done.
  - rewrite F4. eapply kept_sessions; [exact E4|apply Hm].
Qed.

(** *** Firm events on both sides *)

Lemma firm_event_Ok esi g om om' : firm_event esi g om = Ok om' →
  ∃ i f p, om_universe om !! esi = Some i /\ g (om_firm_risk om) (i_position i) = Ok (f, p)
    /\ om' = (put_inst (i <| i_position := p |>) esi om) <| om_firm_risk := f |>.
Proof.
  unfold firm_event, get_inst. destruct (om_universe om !! esi) as [i|]; [|done].
  cbn [mbind res_bind]. intros ([f p] & Hg & [= <-])%res_bind_Ok. by exists i, f, p.
Qed.

Lemma firm_event_mirror esi g g' om om' rp : mirrored g g' →
  firm_event esi g om = Ok om' → universe_mirror (om_universe om) (om_universe rp) →
  ∃ rp', firm_event esi g' rp = Ok rp' /\ universe_mirror (om_universe om') (om_universe rp')
    /\ om_heap rp' = om_heap rp /\ om_orders rp' = om_orders rp
    /\ om_localID rp' = om_localID rp /\ om_sessions rp' = om_sessions rp.
Proof.
  intros Hg (i & f & p & Hi & Hgi & ->)%firm_event_Ok HU.
  destruct (HU esi i Hi) as (j & Hj & Hp).
  destruct (Hg _ _ _ _ (om_firm_risk rp) _ Hgi Hp) as (f1 & q1 & Hg' & Hq).
  unfold firm_event, get_inst. rewrite Hj. cbn [mbind res_bind]. rewrite Hg'. cbn [mbind res_bind].
  eexists. split; [done|]. split_and!; try done. cbn. by apply universe_mirror_insert.
Qed.

Lemma firm_event_frame esi g om om' : firm_event esi g om = Ok om' →
  om_heap om' = om_heap om /\ om_orders om' = om_orders om /\ om_localID om' = om_localID om
  /\ om_sessions om' = om_sessions om /\ om_blotter om' = om_blotter om.
Proof. by intros (i & f & p & _ & _ & ->)%firm_event_Ok. Qed.

Lemma report_frame ev o m om :
  om_heap (notify ev o (blot m om)) = om_heap om /\ om_orders (notify ev o (blot m om)) = om_orders om
  /\ om_localID (notify ev o (blot m om)) = om_localID om
  /\ om_sessions (notify ev o (blot m om)) = om_sessions om
  /\ om_universe (notify ev o (blot m om)) = om_universe om
  /\ om_blotter (notify ev o (blot m om)) = om_blotter om ++ [m].
Proof. unfold notify. by case_match. Qed.

Lemma recover_one m rp : recover [m] rp = on_message m rp.
Proof. unfold recover. cbn. by destruct (on_message m rp). Qed.

(** An answer of the exchange to an order at the market: the message it logs,
    and the handler of that message. *)
Lemma recovers_answer om om' a o o1 m oid (h : Z → Order D → OrderManager D S → res (OrderManager D S)) :
  invariant om → om_heap om !! a = Some o → o_localID o ≠ 0 → o_state o ≠ LOCALLY_REJECTED →
  live_order a o1 om om' → om_blotter om' = om_blotter om ++ [m] →
  (∀ rp, on_message m rp = on_logged_order oid h rp) → oid_local_id oid = o_localID o →
  (∀ a' o' rp, om_heap rp !! a' = Some o' → order_mirror o o' →
     universe_mirror (om_universe om) (om_universe rp) →
     ∃ o1' rp', h a' o' rp = Ok rp' /\ only_order a' o1' rp rp' /\ order_mirror o1 o1'
       /\ universe_mirror (om_universe om') (om_universe rp')) →
  recovers om om'.
Proof.
  intros Hi Ha Hid Hst Honly Hb Hmsg Hoid Hh. exists [m]. split; [done|]. intros rp Hm.
  destruct (mirrors_slot om rp a o Hi Hm Ha Hid) as (Hrange & Hp & p' & Hp' & Hs).
  rewrite recover_one, Hmsg. pose proof (mir_id _ _ Hm) as Hle.
  rewrite (on_logged_order_found rp oid h p'); [|lia|lia|by rewrite Hoid].
  destruct p' as [a'|]; [|destruct Hs as (x & Hx & Hrej); rewrite Ha in Hx; by injection Hx as <-].
  destruct Hs as (x & o' & Hx & Ho' & Hmir). rewrite Ha in Hx. injection Hx as <-.
  unfold get_order. rewrite Ho'. cbn [mbind res_bind].
  destruct (Hh a' o' rp Ho' Hmir (mir_universe _ _ Hm)) as (o1' & rp' & -> & Honly' & Hmir1 & HU).
  exists rp'. split; [done|]. by eapply mirror_response.
Qed.

(** *** Answers of the exchange *)

Lemma log_oid o oid : oid_of_sent o = Ok oid → oid_local_id oid = o_localID o.
Proof. unfold oid_of_sent. destruct (o_session o); [|done]. by intros [= <-]. Qed.

(** What the answers log. *)
Lemma log_acknowledged_Ok o m : log_acknowledged o = Ok m → ∃ oid, oid_local_id oid = o_localID o
  /\ m = mkMsg (o_last_response_time o)
          (LB_ORDER_ACKNOWLEDGEMENT (mkAck oid (o_open_size o) (o_last_exchange_time o))).
Proof. intros (oid & Hoid%log_oid & [= <-])%res_bind_Ok. by exists oid. Qed.
Lemma log_rejected_Ok o m : log_rejected o = Ok m → ∃ oid, oid_local_id oid = o_localID o
  /\ m = mkMsg (o_last_response_time o)
          (LB_ORDER_REMOTE_REJECT (mkReject oid (o_last_exchange_time o))).
Proof. intros (oid & Hoid%log_oid & [= <-])%res_bind_Ok. by exists oid. Qed.
Lemma log_cancel_rejected_Ok o m : log_cancel_rejected o = Ok m →
  ∃ oid, oid_local_id oid = o_localID o
  /\ m = mkMsg (o_last_response_time o)
          (LB_ORDER_CANCEL_REJECT (mkReject oid (o_last_exchange_time o))).
Proof. intros (oid & Hoid%log_oid & [= <-])%res_bind_Ok. by exists oid. Qed.
Lemma log_cancelled_Ok o n m : log_cancelled o n = Ok m → ∃ oid, oid_local_id oid = o_localID o
  /\ m = mkMsg (o_last_response_time o) (LB_ORDER_CANCEL (mkCxl oid n (o_last_exchange_time o))).
Proof. intros (oid & Hoid%log_oid & [= <-])%res_bind_Ok. by exists oid. Qed.
Lemma log_pending_cancel_Ok o n m : log_pending_cancel o n = Ok m →
  ∃ oid, oid_local_id oid = o_localID o
  /\ m = mkMsg (o_last_request_time o) (LB_ORDER_CANCEL_REQUEST (mkCxlReq oid n)).
Proof. intros (oid & Hoid%log_oid & [= <-])%res_bind_Ok. by exists oid. Qed.
Lemma log_filled_Ok o n px fc m : log_filled o n px fc = Ok m →
  ∃ oid, oid_local_id oid = o_localID o
  /\ let body := mkFill oid n px fc (o_last_exchange_time o) in
     m = mkMsg (o_last_response_time o)
           (if bool_decide (o_state o = FILLED) then LB_ORDER_FILL body
            else LB_ORDER_PARTIAL_FILL body).
Proof. intros (oid & Hoid%log_oid & [= <-])%res_bind_Ok. by exists oid. Qed.

Lemma get_order_is a om o x : get_order a om = Ok x → om_heap om !! a = Some o → x = o.
Proof. unfold get_order. intros Hx Ha. rewrite Ha in Hx. by injection Hx. Qed.

Lemma at_exchange_placed o : sizes_ok o →
  (o_state o = SENT \/ ∃ f c, phase_of o = Working f c) →
  o_localID o ≠ 0 /\ o_state o ≠ LOCALLY_REJECTED.
Proof.
  intros Hok [Hst|(f & c & Hph)].
  - destruct (sent_inv o Hok Hst) as (_&_&_&[_ Hid]&_). split; [done|congruence].
  - destruct (working_inv o f c Hok Hph) as (_&_&_&_&_&_&[_ Hid]&_). split; [done|].
    intros Hst. unfold phase_of in Hph. by rewrite Hst in Hph.
Qed.

Lemma put_only_order a o om : only_order a o om (put_order a o om).
Proof. by split_and!. Qed.
Lemma report_only_order a o1 om om1 ev o m :
  only_order a o1 om om1 → only_order a o1 om (notify ev o (blot m om1)).
Proof.
  intros (?&?&?&?). unfold only_order.
  destruct (report_frame ev o m om1) as (->&->&->&->&_). by split_and!.
Qed.
Lemma report_blotter ev o m om : om_blotter (notify ev o (blot m om)) = om_blotter om ++ [m].
Proof. by destruct (report_frame ev o m om) as (_&_&_&_&_&?). Qed.
Lemma report_universe ev o m om : om_universe (notify ev o (blot m om)) = om_universe om.
Proof. by destruct (report_frame ev o m om) as (_&_&_&_&?&_). Qed.

(** The fields of an order that its answer's message is made of. *)
Definition stamped ts xts o o1 : Prop :=
  o_last_response_time o1 = ts /\ o_last_exchange_time o1 = xts /\ o_localID o1 = o_localID o.
Lemma ack_stamped x n ts xts o :
  stamped ts xts o (order_update_on_ack x n ts xts o)
  /\ o_open_size (order_update_on_ack x n ts xts o) = n.
Proof. by split_and!. Qed.
Lemma reject_stamped ts xts o : stamped ts xts o (order_update_on_reject ts xts o).
Proof. by split_and!. Qed.
Lemma fill_stamped n px ts xts fc o :
  stamped ts xts o (order_update_on_fill n px ts xts fc o).
Proof. by split_and!. Qed.
Lemma cancel_stamped n ts xts o : stamped ts xts o (order_update_on_cancel n ts xts o).
Proof. unfold order_update_on_cancel. case_if; by split_and!. Qed.

Lemma recovers_ack om a x n ts xts om' : invariant om → allowed (EvAck a x n ts xts) om →
  om_step (EvAck a x n ts xts) om = Ok om' → recovers om om'.
Proof.
  intros Hi (o & Ha & Hst & ->).
  destruct (at_exchange_placed o (inv_sizes _ Hi a o Ha) (or_introl Hst)) as [Hid Hnr].
  intros (x1 & Ho & (m & Hm & [= <-])%res_bind_Ok)%res_bind_Ok.
  apply (get_order_is a om o) in Ho as ->; [|done].
  apply log_acknowledged_Ok in Hm as (oid & Hoid & ->).
  destruct (ack_stamped x (o_size o) ts xts o) as [(E1 & E2 & E3) E4].
  rewrite E1, E2, E4. rewrite E3 in Hoid. clear E1 E2 E3 E4.
  eapply (recovers_answer om _ a o); try done.
  - apply only_live, report_only_order, put_only_order.
  - by rewrite report_blotter.
  - intros rp. reflexivity.
  - intros a' o' rp Ho' Hmir HU. eexists _, _. split; [reflexivity|].
    split; [apply put_only_order|]. rewrite report_universe. split; [by apply mirror_ack|done].
Qed.

Lemma firm_only_order esi g a o om om1 om2 : only_order a o om om1 →
  firm_event esi g om1 = Ok om2 → only_order a o om om2 /\ om_blotter om2 = om_blotter om1.
Proof.
  intros (E1&E2&E3&E4) (F1&F2&F3&F4&F5)%firm_event_frame. unfold only_order. split_and!; congruence.
Qed.

(** Locates move, nothing the mirror shows. *)
Definition locates_only om om1 : Prop :=
  om_heap om1 = om_heap om /\ om_orders om1 = om_orders om /\ om_localID om1 = om_localID om
  /\ om_sessions om1 = om_sessions om /\ om_blotter om1 = om_blotter om
  /\ universe_mirror (om_universe om1) (om_universe om).
Lemma recycle_locates_only o n om om1 : recycle_locates_on_fill o n om = Ok om1 → locates_only om om1.
Proof.
  unfold recycle_locates_on_fill, get_inst. destruct (om_universe om !! o_instrument o) as [i|] eqn:Hi; [|done].
  cbn [mbind res_bind]. case_if; intros [= <-]; split_and!; try done.
  by apply (universe_mirror_locates _ _ i).
Qed.
Lemma return_locates_only o n om om1 : return_locates_on_cancel o n om = Ok om1 → locates_only om om1.
Proof.
  unfold return_locates_on_cancel, get_inst. destruct (om_universe om !! o_instrument o) as [i|] eqn:Hi; [|done].
  cbn [mbind res_bind]. case_if; intros [= <-]; split_and!; try done.
  by apply (universe_mirror_locates _ _ i).
Qed.
Lemma locates_only_order a o om om1 om2 : only_order a o om om1 → locates_only om1 om2 →
  only_order a o om om2 /\ om_blotter om2 = om_blotter om1.
Proof. intros (E1&E2&E3&E4) (F1&F2&F3&F4&F5&_). unfold only_order. split_and!; congruence. Qed.

(** The recovering side of an answer that moves the position. *)
Lemma recover_firm a' o1 o1' g g' om1 om2 rp : mirrored g g' →
  o_instrument o1' = o_instrument o1 → firm_event (o_instrument o1) g om1 = Ok om2 →
  universe_mirror (om_universe om1) (om_universe rp) →
  ∃ rp', firm_event (o_instrument o1') g' (put_order a' o1' rp) = Ok rp'
    /\ only_order a' o1' rp rp' /\ universe_mirror (om_universe om2) (om_universe rp').
Proof.
  intros Hg Hi Hf HU. rewrite Hi.
  destruct (firm_event_mirror _ g g' om1 om2 (put_order a' o1' rp) Hg Hf HU)
    as (rp' & Hf' & HU' & F1 & F2 & F3 & F4).
  exists rp'. by split_and!.
Qed.

Lemma recovers_reject om a ts xts om' : invariant om → allowed (EvReject a ts xts) om →
  om_step (EvReject a ts xts) om = Ok om' → recovers om om'.
Proof.
  intros Hi (o & Ha & Hst).
  destruct (at_exchange_placed o (inv_sizes _ Hi a o Ha) (or_introl Hst)) as [Hid Hnr].
  intros (x1 & Ho & (om2 & Hf & (m & Hm & [= <-])%res_bind_Ok)%res_bind_Ok)%res_bind_Ok.
  apply (get_order_is a om o) in Ho as ->; [|done].
  apply log_rejected_Ok in Hm as (oid & Hoid & ->).
  destruct (reject_stamped ts xts o) as (E1 & E2 & E3). rewrite E1, E2. rewrite E3 in Hoid. clear E1 E2 E3.
  destruct (firm_only_order _ _ _ _ _ _ _ (put_only_order a _ om) Hf) as [Honly Hb].
  eapply (recovers_answer om _ a o); try done.
  - by apply only_live, report_only_order.
  - by rewrite report_blotter, Hb.
  - intros rp. reflexivity.
  - intros a' o' rp Ho' Hmir HU. rewrite report_universe.
    cbn [m_timestamp rj_exchange_ts].
    apply (mirror_reject _ _ ts xts) in Hmir. revert Hmir Hf.
    generalize (order_update_on_reject ts xts o) (order_update_on_reject ts xts o').
    intros o1 o1' Hmir Hf. pose proof Hmir as (Ei & Es & _ & Esz & _).
    destruct (recover_firm a' o1 o1' _ (on_order_removes o1' (o_size o1)) _ om2 rp
      (mirrored_removes o1 o1' (o_size o1) Es) Ei Hf HU) as (rp' & Hf' & Honly' & HU').
    exists o1', rp'. unfold order_removes. rewrite Esz. by split.
Qed.

Lemma recovers_fill om a n px ts xts fc om' : invariant om → allowed (EvFill a n px ts xts fc) om →
  om_step (EvFill a n px ts xts fc) om = Ok om' → recovers om om'.
Proof.
  intros Hi (o & Ha & Hw & Hn).
  destruct (at_exchange_placed o (inv_sizes _ Hi a o Ha) (or_intror Hw)) as [Hid Hnr].
  intros (x1 & Ho & (om1 & Hloc & (om2 & Hf & (m & Hm & [= <-])%res_bind_Ok)%res_bind_Ok)%res_bind_Ok)%res_bind_Ok.
  apply (get_order_is a om o) in Ho as ->; [|done].
  apply log_filled_Ok in Hm as (oid & Hoid & Hm). cbv zeta in Hm. subst m.
  destruct (fill_stamped n px ts xts fc o) as (E1 & E2 & E3). rewrite E1, E2. rewrite E3 in Hoid.
  clear E1 E2 E3. pose proof (recycle_locates_only _ _ _ _ Hloc) as Hlocs.
  destruct (locates_only_order _ _ _ _ _ (put_only_order a _ om) Hlocs) as [Honly1 Hb1].
  destruct (firm_only_order _ _ _ _ _ _ _ Honly1 Hf) as [Honly Hb].
  eapply (recovers_answer om _ a o _ _ oid
    (λ a o om, let o := order_update_on_fill n px ts xts fc o in
       firm_event (o_instrument o) (on_order_fill o n px (fee_from_fill o n px)) (put_order a o om)));
    try done.
  - by apply only_live, report_only_order.
  - by rewrite report_blotter, Hb, Hb1.
  - intros rp. by case_match.
  - intros a' o' rp Ho' Hmir HU. rewrite report_universe. cbv beta zeta.
    apply (mirror_fill _ _ n px ts xts fc) in Hmir. clear Hloc Honly1 Hb1 Hb Honly.
    destruct Hlocs as (_&_&_&_&_&HU1). revert Hmir Hf.
    generalize (order_update_on_fill n px ts xts fc o) (order_update_on_fill n px ts xts fc o').
    intros o1 o1' Hmir Hf. pose proof Hmir as (Ei & Es & _).
    destruct (recover_firm a' o1 o1' _ (on_order_fill o1' n px (fee_from_fill o1' n px)) _ om2 rp
      (mirrored_fill o1 o1' n px (fee_from_fill o1 n px) Es) Ei Hf) as (rp' & Hf' & Honly' & HU').
    { etransitivity; [exact HU1|done]. }
    exists o1', rp'. by split.
Qed.

Lemma recovers_cancel om a n ts xts om' : invariant om → allowed (EvCancelled a n ts xts) om →
  om_step (EvCancelled a n ts xts) om = Ok om' → recovers om om'.
Proof.
  intros Hi (o & Ha & Hw).
  destruct (at_exchange_placed o (inv_sizes _ Hi a o Ha)) as [Hid Hnr]; [naive_solver|].
  intros (x1 & Ho & (om1 & Hloc & (om2 & Hf & (m & Hm & [= <-])%res_bind_Ok)%res_bind_Ok)%res_bind_Ok)%res_bind_Ok.
  apply (get_order_is a om o) in Ho as ->; [|done].
  apply log_cancelled_Ok in Hm as (oid & Hoid & ->).
  destruct (cancel_stamped n ts xts o) as (E1 & E2 & E3). rewrite E1, E2. rewrite E3 in Hoid.
  clear E1 E2 E3. pose proof (return_locates_only _ _ _ _ Hloc) as Hlocs.
  destruct (locates_only_order _ _ _ _ _ (put_only_order a _ om) Hlocs) as [Honly1 Hb1].
  destruct (firm_only_order _ _ _ _ _ _ _ Honly1 Hf) as [Honly Hb].
  eapply (recovers_answer om _ a o _ _ oid
    (λ a o om, let o := order_update_on_cancel n ts xts o in order_removes o n (put_order a o om)));
    try done.
  - by apply only_live, report_only_order.
  - by rewrite report_blotter, Hb, Hb1.
  - intros rp. reflexivity.
  - intros a' o' rp Ho' Hmir HU. rewrite report_universe. cbv beta zeta.
    apply (mirror_cancel _ _ n ts xts) in Hmir. clear Hloc Honly1 Hb1 Hb Honly.
    destruct Hlocs as (_&_&_&_&_&HU1). revert Hmir Hf.
    generalize (order_update_on_cancel n ts xts o) (order_update_on_cancel n ts xts o').
    intros o1 o1' Hmir Hf. pose proof Hmir as (Ei & Es & _).
    destruct (recover_firm a' o1 o1' _ (on_order_removes o1' n) _ om2 rp
      (mirrored_removes o1 o1' n Es) Ei Hf) as (rp' & Hf' & Honly' & HU').
    { etransitivity; [exact HU1|done]. }
    exists o1', rp'. by split.
Qed.

Lemma recovers_cancel_rejected om a ts xts om' : invariant om →
  allowed (EvCancelRejected a ts xts) om →
  om_step (EvCancelRejected a ts xts) om = Ok om' → recovers om om'.
Proof.
  intros Hi (o & Ha & Hw).
  destruct (at_exchange_placed o (inv_sizes _ Hi a o Ha) (or_intror Hw)) as [Hid Hnr].
  intros (x1 & Ho & (m & Hm & [= <-])%res_bind_Ok)%res_bind_Ok.
  apply (get_order_is a om o) in Ho as ->; [|done].
  apply log_cancel_rejected_Ok in Hm as (oid & Hoid & ->).
  eapply (recovers_answer om _ a o _ _ oid
    (λ a o om, Ok (put_order a (o <| o_state := CANCEL_REJECTED |> <| o_last_response_time := ts |>) om)));
    try done.
  - apply only_live, report_only_order, put_only_order.
  - by rewrite report_blotter.
  - intros rp. reflexivity.
  - intros a' o' rp Ho' Hmir HU. eexists _, _. split; [reflexivity|].
    split; [apply put_only_order|]. rewrite report_universe. split; [|done].
    destruct Hmir as (E1&E2&E3&E4&E5&E6&E7&E8&E9&E10). by split_and!.
Qed.

(** *** Requests of the program *)

(** Only what a session writes differs, and no message is logged. *)
Lemma mirror_live_only om om' rp a o o1 : invariant om → mirrors om rp →
  om_heap om !! a = Some o → live_order a o1 om om' → om_universe om' = om_universe om →
  o_state o1 = o_state o → (∀ x, order_mirror o x → order_mirror o1 x) → mirrors om' rp.
Proof.
  intros Hi Hm Ha (E1 & E2 & E3 & E4) HU Hst Hmir. split.
  - rewrite E3. apply Hm.
  - rewrite E2. eapply Forall2_impl; [apply Hm|]. intros [b|] [b'|]; cbn; try done; rewrite E1.
    + intros (x & x' & Hx & Hx' & Hxm). destruct (decide (a = b)) as [<-|].
      * rewrite lookup_insert_eq. rewrite Ha in Hx. injection Hx as <-. exists o1, x'. auto.
      * rewrite lookup_insert_ne by done. by exists x, x'.
    + intros (x & Hx & Hxs). destruct (decide (a = b)) as [<-|].
      * rewrite lookup_insert_eq. rewrite Ha in Hx. injection Hx as <-. exists o1. by rewrite Hst.
      * rewrite lookup_insert_ne by done. by exists x.
  - rewrite HU. apply Hm.
  - eapply kept_sessions; [exact E4|apply Hm].
Qed.

Lemma put_session_kept om name s s' : om_sessions om !! name = Some s →
  ss_market s' = ss_market s → sessions_kept om (put_session name s' om).
Proof.
  intros Hs Hm n x. cbn. rewrite lookup_insert_Some. intros [[<- <-]|[_ Hx]]; eauto.
Qed.

Lemma session_only_mirror o o1 : session_fields_only o o1 →
  o_state o1 = o_state o /\ o_localID o1 = o_localID o
  /\ ∀ x, order_mirror o x → order_mirror o1 x.
Proof. intros [_ ->]. by split_and!. Qed.

Lemma recovers_cancel_request om a o q b om' : invariant om → om_heap om !! a = Some o →
  cancel (Some a) q om = Ok (b, om') → recovers om om'.
Proof.
  intros Hi Ha. unfold cancel, get_order. rewrite Ha. cbn [mbind res_bind].
  pose proof (inv_sizes _ Hi a o Ha) as Hok. destruct (inv_known _ Hi a o Ha) as [_ Hses].
  destruct (o_session o) as [name|] eqn:Hs; [|intros [= _ <-]; by apply recovers_quiet].
  destruct (is_terminal o) eqn:Ht; [intros [= _ <-]; by apply recovers_quiet|].
  case_if; [intros [= _ <-]; by apply recovers_quiet|]. clear Hif.
  destruct (at_exchange_placed o Hok) as [Hid Hnr]; [right; eauto using not_terminal_working|].
  destruct (Hses name eq_refl) as [s Hlk]. unfold get_session_ref. rewrite Hlk. cbn [mbind res_bind].
  destruct (ss_cancel a o q s) as [[ok s'] o1] eqn:Hc.
  destruct (cancel_fields _ _ _ _ _ _ _ Hc) as [Hf Hmk].
  destruct (session_only_mirror _ _ Hf) as (Hst & Hid1 & Hmir1).
  assert (∀ x, live_order a x om (put_order a x (put_session name s' om))) as Hlive.
  { intros x. split_and!; try done. by apply (put_session_kept om name s). }
  destruct ok.
  - intros (m & (oid & Hoid & ->)%log_pending_cancel_Ok & [= _ <-])%res_bind_Ok.
    change (oid_local_id oid = o_localID o1) in Hoid. rewrite Hid1 in Hoid.
    eapply (recovers_answer om _ a o _ _ oid
      (λ a o om, Ok (put_order a (o <| o_state := PENDING_CANCEL |>) om))); try done.
    + apply Hlive.
    + intros a' o' rp Ho' Hmir HU. eexists _, _. split; [reflexivity|].
      split; [apply put_only_order|]. split; [|done].
      apply Hmir1 in Hmir. destruct Hmir as (E1&E2&E3&E4&E5&E6&E7&E8&E9&E10). by split_and!.
  - intros [= _ <-]. apply recovers_quiet; [done|]. intros rp Hm.
    by apply (mirror_live_only om _ rp a o o1).
Qed.

Lemma recovers_refl om : recovers om om.
Proof. by apply recovers_quiet. Qed.
Lemma recovers_trans om om1 om2 : recovers om om1 → recovers om1 om2 → recovers om om2.
Proof.
  intros (ms & Hb & Hm) (ms' & Hb' & Hm'). exists (ms ++ ms'). rewrite Hb', Hb, app_assoc.
  split; [done|]. intros rp Hrp. destruct (Hm rp Hrp) as (rp1 & Hr1 & Hrp1).
  destruct (Hm' rp1 Hrp1) as (rp2 & Hr2 & Hrp2). exists rp2. split; [|done].
  unfold recover in *. by rewrite foldM_app, Hr1.
Qed.

Lemma recovers_find_and_cancel om pred k om' : invariant om →
  find_and_cancel pred om = Ok (k, om') → recovers om om'.
Proof.
  intros Hinv. unfold find_and_cancel.
  assert (∀ l k0 om1, invariant om1 → views om1 = views om →
    (∀ a, Some a ∈ l → is_Some (views om !! a)) →
    foldM (cancel_one pred) (k0, om1) l = Ok (k, om') → recovers om1 om') as Hl.
  { induction l as [|p l IH]; intros k0 om1 Hi1 Hv Hall; cbn [foldM].
    - intros [= _ <-]. apply recovers_refl.
    - assert (∀ a, Some a ∈ l → is_Some (views om !! a)) as Hall'
        by (intros; apply Hall; by constructor).
      destruct p as [a|]; cbn [mbind res_bind cancel_one]; [|by apply IH].
      assert (is_Some (om_heap om1 !! a)) as [o Ha].
      { destruct (Hall a) as [v Hlk]; [by constructor|]. rewrite <- Hv in Hlk.
        apply lookup_fmap_Some in Hlk as (o & _ & ?). eauto. }
      unfold get_order. rewrite Ha. cbn [mbind res_bind].
      case_if; [|by apply IH].
      destruct (cancel_sound om1 a 0) as (b & om2 & Hc & Hi2 & Hv2); [done|eauto|].
      rewrite Hc. cbn [mbind res_bind].
      intros Hr. apply (recovers_trans _ om2); [by eapply recovers_cancel_request|].
      destruct b; (eapply IH; [done|congruence|done|done]). }
  intros Hf. eapply Hl; [done|done| |exact Hf]. intros a Hin.
  apply list_elem_of_lookup in Hin as [i Hlk].
  destruct (inv_ids _ Hinv) as (_ & _ & Hslot & _). destruct (Hslot i a Hlk) as (o & Ha & _).
  unfold views. rewrite lookup_fmap, Ha. by eexists.
Qed.

(** No slot holds an order without an id, or any order but the one of its id. *)
Lemma slot_id om n a o : ids_ok om → om_orders om !! n = Some (Some a) →
  om_heap om !! a = Some o → o_localID o = Z.of_nat n /\ o_localID o ≠ 0.
Proof.
  intros (_ & I2 & I3 & _) Hn Ha. destruct (I3 n a Hn) as (x & Hx & E).
  rewrite Ha in Hx. injection Hx as <-. split; [done|]. intros Hz.
  assert (n = 0%nat) as -> by lia. congruence.
Qed.

(** A change of the writer's store where no slot points. *)
Lemma mirror_off_slot om om' rp : mirrors om rp → om_orders om' = om_orders om →
  om_localID om' = om_localID om → sessions_kept om om' →
  universe_mirror (om_universe om') (om_universe om) →
  (∀ n a, om_orders om !! n = Some (Some a) → om_heap om' !! a = om_heap om !! a) →
  mirrors om' rp.
Proof.
  intros Hm E1 E2 E3 HU Hh. split.
  - rewrite E2. apply Hm.
  - rewrite E1. pose proof (mir_slots _ _ Hm) as HF. apply Forall2_same_length_lookup.
    split; [by eapply Forall2_length|]. intros n p p' Hp Hp'.
    pose proof (Forall2_lookup_lr _ _ _ _ _ _ HF Hp Hp') as Hs.
    destruct p as [a|], p' as [a'|]; cbn in *; try done; by rewrite (Hh n a Hp).
  - etransitivity; [exact HU|apply Hm].
  - eapply kept_sessions; [exact E3|apply Hm].
Qed.

Lemma recovers_create om o : invariant om → allowed (EvCreate o) om →
  recovers om (create_order o om).2.
Proof.
  intros Hi _. apply recovers_quiet; [done|]. intros rp Hm.
  eapply mirror_off_slot; try done; [by apply sessions_same_kept|].
  intros n a Hn. cbn. rewrite lookup_insert_ne; [done|]. intros Heq.
  destruct (inv_ids _ Hi) as (_ & _ & I3 & _). destruct (I3 n a Hn) as (x & Hx & _).
  apply elem_of_dom_2 in Hx. rewrite <- Heq in Hx. by apply is_fresh in Hx.
Qed.

Lemma recovers_last_sale om esi px om' :
  om_step (EvLastSale esi px) om = Ok om' → recovers om om'.
Proof.
  cbn [om_step]. unfold on_last_sale_change. intros Hr.
  assert (om_heap om' = om_heap om /\ om_orders om' = om_orders om /\ om_localID om' = om_localID om
    /\ om_sessions om' = om_sessions om /\ om_blotter om' = om_blotter om
    /\ universe_mirror (om_universe om') (om_universe om)) as (E1&E2&E3&E4&E5&E6).
  { cbv zeta in Hr. set (om1 := om <| om_last_sale := _ |>) in Hr.
    destruct (om_universe om1 !! esi) as [i|] eqn:Hu; [|by injection Hr as <-].
    destruct (firm_event_Ok _ _ _ _ Hr) as (j & f & p & Hj & Hg & ->).
    split_and!; try done. cbn. apply (universe_mirror_locates _ _ j); [done|].
    injection Hg as Hg. cbn. unfold firm_on_last_sale_change in Hg.
    case_if; injection Hg as _ <-; done. }
  apply recovers_quiet; [done|]. intros rp Hm.
  eapply mirror_off_slot; try done; [by apply sessions_same_kept|]. intros. by rewrite E1.
Qed.

Lemma recovers_firm om f : recovers om (om <| om_firm_risk := f |>).
Proof.
  apply recovers_quiet; [done|]. intros rp Hm.
  eapply mirror_off_slot; try done. by apply sessions_same_kept.
Qed.

(** The recovering side of a destroyed order that had an id. *)
Lemma recover_destroy om om' rp oid a o : invariant om → mirrors om rp →
  om_heap om !! a = Some o → o_localID o ≠ 0 → oid_local_id oid = o_localID o →
  om_heap om' = delete a (om_heap om) →
  om_orders om' = <[Z.to_nat (o_localID o) := None]> (om_orders om) →
  om_localID om' = om_localID om → sessions_kept om om' → om_universe om' = om_universe om →
  ∃ rp', on_log_destroy oid rp = Ok rp' /\ mirrors om' rp'.
Proof.
  intros Hi Hm Ha Hid Hoid E1 E2 E3 E4 E5. pose proof (inv_ids _ Hi) as Hids.
  destruct (mirrors_slot om rp a o Hi Hm Ha Hid) as (Hrange & Hp & p' & Hp' & Hs).
  pose proof (mir_id _ _ Hm) as Hle. pose proof (mir_slots _ _ Hm) as HF.
  set (n := Z.to_nat (o_localID o)) in *.
  unfold on_log_destroy.
  rewrite (on_logged_order_found rp oid _ p'); [|lia|lia|by rewrite Hoid].
  assert (∀ m b, m ≠ n → om_orders om !! m = Some (Some b) → b ≠ a) as Hother.
  { intros m b Hne Hb ->. destruct (slot_id om m a o Hids Hb Ha) as [E _]. lia. }
  assert (∀ rp', om_orders rp' = <[n := None]> (om_orders rp) → om_localID rp' = om_localID rp →
    om_sessions rp' = om_sessions rp → om_universe rp' = om_universe rp →
    (∀ m b, m ≠ n → om_orders rp !! m = Some (Some b) → om_heap rp' !! b = om_heap rp !! b) →
    mirrors om' rp') as Hdone.
  { intros rp' F1 F2 F3 F4 F5. split.
    - rewrite F2, E3. apply Hm.
    - rewrite F1, E2. apply Forall2_same_length_lookup.
      split; [rewrite !length_insert; by eapply Forall2_length|].
      intros m q q'. rewrite !list_lookup_insert_Some.
      intros [(<- & <- & _)|[Hne Hq]] [(Hn' & <- & _)|[Hne' Hq']]; try done.
      pose proof (Forall2_lookup_lr _ _ _ _ _ _ HF Hq Hq') as Hsm.
      destruct q as [b|], q' as [b'|]; cbn in *; try done; rewrite E1;
        rewrite lookup_delete_ne by (symmetry; eapply Hother; [|exact Hq]; done);
        [rewrite (F5 m b') by done|]; done.
    - rewrite F4, E5. apply Hm.
    - rewrite F3. eapply kept_sessions; [exact E4|apply Hm]. }
  destruct p' as [a'|].
  - destruct Hs as (x & o' & Hx & Ho' & Hmir). unfold get_order. rewrite Ho'. cbn [mbind res_bind].
    unfold set_slot. rewrite Hoid. apply lookup_lt_Some in Hp' as Hlt.
    rewrite (proj2 (andb_true_iff _ _)); [|split; [apply Z.leb_le|apply Z.ltb_lt]; lia].
    cbn [mbind res_bind]. eexists. split; [done|]. apply Hdone; try done.
    intros m b Hne Hb. cbn. rewrite lookup_delete_ne; [done|]. intros <-.
    apply Hne. eapply (recovered_slots_distinct om rp m n); done.
  - exists rp. split; [done|]. apply Hdone; try done. by rewrite list_insert_id.
Qed.

Lemma recovers_destroy om a b om' : invariant om → allowed (EvDestroy a b) om →
  om_step (EvDestroy a b) om = Ok om' → recovers om om'.
Proof.
  intros Hi (o & Ha & _). unfold om_step, destroy, get_order. rewrite Ha. cbn [mbind res_bind].
  pose proof (inv_ids _ Hi) as Hids. destruct (inv_known _ Hi a o Ha) as [_ Hses].
  case_if; [intros [= <-]; apply recovers_refl|]. clear Hif.
  destruct (Z.eqb_spec (o_localID o) 0) as [Hz|Hnz].
  - intros [= <-]. exists [log_destroy o]. split; [done|]. intros rp Hm.
    rewrite recover_one. change (on_message (log_destroy o) rp) with (on_log_destroy (oid_of o) rp).
    assert (om_orders rp !! 0%nat = Some None) as Hrp.
    { destruct Hids as (_ & I2 & _). destruct (Forall2_lookup_l _ _ _ _ _ (mir_slots _ _ Hm) I2)
        as ([b'|] & Hq & Hs); done. }
    exists rp. split.
    + unfold on_log_destroy. rewrite (on_logged_order_found rp _ _ None); [done|..].
      * change (oid_local_id (oid_of o)) with (o_localID o). rewrite Hz, (mir_id _ _ Hm).
        destruct Hids as (I1 & I2 & _). apply lookup_lt_Some in I2. lia.
      * change (oid_local_id (oid_of o)) with (o_localID o). lia.
      * change (oid_local_id (oid_of o)) with (o_localID o). by rewrite Hz.
    + eapply mirror_off_slot; [exact Hm|done|done|by apply sessions_same_kept|done|].
      intros n x Hn. cbn. rewrite lookup_delete_ne; [done|]. intros <-.
      by destruct (slot_id om n a o Hids Hn Ha).
  - assert (∀ om1 om2, om_heap om1 = om_heap om → om_orders om1 = om_orders om →
      om_localID om1 = om_localID om → sessions_kept om om1 → om_universe om1 = om_universe om →
      om_blotter om1 = om_blotter om →
      snd <$> (om2 ← set_slot (o_localID o) None om1;
               Ok (true, delete_order a (blot (log_destroy o) om2))) = Ok om2 → recovers om om2) as Hf.
    { intros om1 om2 F1 F2 F3 F4 F5 F6. unfold set_slot. case_if; [|done]. intros [= <-].
      exists [log_destroy o]. split; [cbn; by rewrite F6|]. intros rp Hm. rewrite recover_one.
      apply (recover_destroy om _ rp (oid_of o) a o); try done; cbn; congruence. }
    destruct (o_session o) as [name|] eqn:Hs.
    + destruct (Hses name eq_refl) as [s Hlk]. unfold get_session_ref. rewrite Hlk. cbn [mbind res_bind].
      destruct (ss_destroy a o s) as [ok s'] eqn:Hd. apply destroy_market in Hd.
      assert (sessions_kept om (put_session name s' om)) as Hk by (by apply (put_session_kept om name s)).
      destruct ok.
      * by apply Hf.
      * intros [= <-]. apply recovers_quiet; [done|]. intros rp Hm.
        by eapply mirror_off_slot.
    + intros Hr. eapply (Hf om); try done. by apply sessions_same_kept.
Qed.

(** *** Sending *)

Lemma inst_validate_mirror o i b i' o' : inst_validate o i = (b, i', o') →
  pos_mirror (i_position i') (i_position i) /\ o' = o <| o_side := o_side o' |>.
Proof.
  intros Hv. destruct (inst_validate_frame _ _ _ _ _ Hv) as (_ & Ho & _). split; [|done].
  unfold inst_validate, validate_locates in Hv.
  repeat case_if; cbn in Hv; by injection Hv as _ <- _.
Qed.

(** An order as the program made it, but for its side, id and session. *)
Definition fresh_from o (id : Z) o' : Prop :=
  o_instrument o' = o_instrument o /\ o_original_price o' = o_original_price o
  /\ o_size o' = o_size o /\ o_market o' = o_market o /\ o_localID o' = id
  /\ unacked o'.

(** What a stage of [send] leaves alone. *)
Definition stage (a : Z) o (id : Z) om om' : Prop :=
  (∃ o', om_heap om' = <[a := o']> (om_heap om) /\ fresh_from o id o')
  /\ om_orders om' = om_orders om /\ om_localID om' = om_localID om
  /\ om_sessions om' = om_sessions om /\ om_blotter om' = om_blotter om
  /\ universe_mirror (om_universe om') (om_universe om).

Lemma risk_checks_stage om a o id b om' : om_heap om !! a = Some o → fresh_from o id o →
  risk_checks a om = Ok (b, om') → stage a o id om om'.
Proof.
  intros Ha Hfr. unfold risk_checks, get_order, get_inst. rewrite Ha. cbn [mbind res_bind].
  destruct (om_universe om !! o_instrument o) as [i|] eqn:Hinst; [|done]. cbn [mbind res_bind].
  destruct (firm_new_order o i (om_firm_risk om)) as [ok f].
  case_if.
  - destruct (inst_validate o i) as [[b' i'] o'] eqn:Hval. intros [= <- <-].
    destruct (inst_validate_mirror _ _ _ _ _ Hval) as [Hp Ho']. split_and!; try done.
    + exists o'. split; [done|]. rewrite Ho'. done.
    + cbn. by apply (universe_mirror_locates _ _ i).
  - intros [= <- <-]. split_and!; try done. exists o. split; [|done]. cbn. by rewrite insert_id.
Qed.

Lemma adds_removes_mirror o o' n f p f1 p1 f1' f2 p2 : o_side o' = o_side o →
  0 <= p_open_long_size p < 2 ^ 32 → 0 <= p_open_short_size p < 2 ^ 32 →
  on_order_adds o n f p = (f1, p1) → on_order_removes o' n f1' p1 = Ok (f2, p2) → pos_mirror p2 p.
Proof.
  intros Hs Hl Hsh. unfold on_order_adds, on_order_removes, sub_open_buys, sub_open_sells, assert.
  rewrite Hs. case_if; intros [= _ <-]; case_if; try done; intros [= _ <-];
    unfold pos_mirror; cbn -[u32]; split_and!; try done;
    rewrite wrap_sub_l, Z.add_simpl_r; symmetry; by apply (wrap_small 32).
Qed.

(** Where [send] ends: in a local rejection, or at the exchange. *)
Definition rejected_end (a : Z) o (id : Z) om om' : Prop :=
  ∃ o', om_heap om' = <[a := o']> (om_heap om) /\ fresh_from o id o'
    /\ o_state o' = LOCALLY_REJECTED /\ om_orders om' = om_orders om
    /\ om_localID om' = om_localID om /\ sessions_kept om om'
    /\ om_blotter om' = om_blotter om ++ [log_local_reject o']
    /\ universe_mirror (om_universe om') (om_universe om).
Definition sent_end (a : Z) o (id : Z) (name : string) om om' : Prop :=
  ∃ o' om1, om_heap om' = <[a := o']> (om_heap om) /\ fresh_from o id o'
    /\ o_state o' = SENT /\ o_session o' = Some name /\ om_orders om' = om_orders om
    /\ om_localID om' = om_localID om /\ sessions_kept om om'
    /\ om_blotter om' = om_blotter om ++ [log_order_sent o']
    /\ order_adds o' (o_size o') om = Ok om1 /\ om_universe om' = om_universe om1.

Lemma reject_locally_end om a o id b om' : om_heap om !! a = Some o → fresh_from o id o →
  reject_locally a om = Ok (b, om') → rejected_end a o id om om'.
Proof.
  intros Ha Hfr. unfold reject_locally, get_order. rewrite Ha. intros [= <- <-].
  exists (o <| o_state := LOCALLY_REJECTED |>). split_and!; try done. by apply sessions_same_kept.
Qed.

Lemma fresh_from_session o id o1 o2 : session_fields_only o1 o2 → fresh_from o id o1 →
  fresh_from o id o2.
Proof.
  intros [Hk ->] (E1 & E2 & E3 & E4 & E5 & E6). split_and!; try done.
  unfold o_market in *. by rewrite <- E4.
Qed.
Lemma session_adds o1 o2 n : session_fields_only o1 o2 →
  @on_order_adds D _ o1 n = @on_order_adds D _ o2 n.
Proof. intros [_ ->]. done. Qed.

Lemma send_to_session_end om a o id name b om' :
  om_heap om !! a = Some o → fresh_from o id o →
  (∀ i, om_universe om !! o_instrument o = Some i →
     0 <= p_open_long_size (i_position i) < 2 ^ 32 /\ 0 <= p_open_short_size (i_position i) < 2 ^ 32) →
  send_to_session a name om = Ok (b, om') →
  if b then sent_end a o id name om om'
  else ∃ o', om_heap om' = <[a := o']> (om_heap om) /\ fresh_from o id o'
    /\ om_orders om' = om_orders om /\ om_localID om' = om_localID om /\ sessions_kept om om'
    /\ om_blotter om' = om_blotter om /\ universe_mirror (om_universe om') (om_universe om).
Proof.
  intros Ha Hfr Hrange. unfold send_to_session, get_order. rewrite Ha. cbn [mbind res_bind].
  set (o1 := o <| o_session := Some name |>).
  assert (fresh_from o id o1) as Hfr1 by done.
  change (o_size o) with (o_size o1).
  intros (om1 & Hadd & (s & Hs & Hr)%res_bind_Ok)%res_bind_Ok.
  pose proof (firm_event_frame _ _ _ _ Hadd) as (F1 & F2 & F3 & F4 & F5).
  unfold get_session_ref in Hs. rewrite F4 in Hs.
  destruct (om_sessions om !! name) as [s0|] eqn:Hlk; [|done]. injection Hs as ->.
  destruct (ss_send a o1 s) as [[sent s'] o2] eqn:Hsend.
  destruct (send_fields _ _ _ _ _ _ Hsend) as [Hf Hmk].
  pose proof (fresh_from_session o id _ _ Hf Hfr1) as Hfr2.
  destruct (session_fields _ _ Hf) as (E1&_&E2&E3&_&_&E6&_).
  change (o_session o1) with (Some name) in E6.
  assert (sessions_kept om (put_session name s' om1)) as Hk.
  { intros n x. cbn. rewrite F4, lookup_insert_Some. intros [[<- <-]|[_ Hx]]; eauto. }
  destruct sent.
  - injection Hr as <- <-. exists (o2 <| o_state := SENT |>), om1.
    split_and!; try done; cbn; try congruence.
    unfold order_adds in *. cbn. rewrite E1, E2. rewrite <- Hadd.
    change (on_order_adds (o2 <| o_state := SENT |>)) with (on_order_adds o2).
    by rewrite <- (session_adds o1 o2 (o_size o1) Hf).
  - apply res_bind_Ok in Hr as (om2 & Hrem & [= <- <-]).
    pose proof (firm_event_frame _ _ _ _ Hrem) as (G1 & G2 & G3 & G4 & G5).
    exists o2. split_and!; try done; try (rewrite ?G1, ?G2, ?G3, ?G5; cbn; congruence).
    + intros n x. rewrite G4. apply Hk.
    + destruct (firm_event_Ok _ _ _ _ Hadd) as (i & f & p & Hi & Hg & ->).
      destruct (firm_event_Ok _ _ _ _ Hrem) as (j & f2 & p2 & Hj & Hg2 & ->).
      rewrite E1 in *. revert Hj. cbn. change (o_instrument o1) with (o_instrument o).
      rewrite lookup_insert_eq. intros [= <-]. rewrite insert_insert_eq.
      apply (universe_mirror_locates _ _ i); [done|].
      destruct (Hrange i Hi) as [Hr1 Hr2]. apply Ok_inj in Hg. rewrite E2 in Hg2.
      by apply (adds_removes_mirror o1 o2 (o_size o1) _ _ _ _ _ _ _ E3 Hr1 Hr2 Hg Hg2).
Qed.

(** The two ends of [send], after the order is given its id and slot. *)
Definition numbered (a : Z) o om : OrderManager D S :=
  (put_order a (o <| o_localID := u32 (om_localID om + 1) |>) om)
    <| om_localID := u32 (om_localID om + 1) |> <| om_orders := om_orders om ++ [Some a] |>.

Lemma stage_locates_range om om' esi i : invariant om →
  universe_mirror (om_universe om') (om_universe om) → om_universe om' !! esi = Some i →
  0 <= p_open_long_size (i_position i) < 2 ^ 32 /\ 0 <= p_open_short_size (i_position i) < 2 ^ 32.
Proof.
  intros Hi HU Hu. destruct (HU esi i Hu) as (j & Hj & E1 & E2 & _). rewrite <- E1, <- E2.
  split; [apply (inv_exposure _ Hi true esi j Hj)|apply (inv_exposure _ Hi false esi j Hj)].
Qed.

Lemma rejected_after a o id om om1 om2 b : om_heap om1 = <[a := o]> (om_heap om) → fresh_from o id o →
  om_orders om1 = om_orders om → om_localID om1 = om_localID om → sessions_kept om om1 →
  om_blotter om1 = om_blotter om → universe_mirror (om_universe om1) (om_universe om) →
  reject_locally a om1 = Ok (b, om2) → b = false /\ rejected_end a o id om om2.
Proof.
  intros E1 Hfr E2 E3 E4 E5 HU Hrej.
  assert (om_heap om1 !! a = Some o) as Ha by (by rewrite E1, lookup_insert_eq).
  split; [unfold reject_locally, get_order in Hrej; rewrite Ha in Hrej; by injection Hrej|].
  destruct (reject_locally_end _ _ _ _ _ _ Ha Hfr Hrej) as (o' & F1&F2&F3&F4&F5&F6&F7&F8).
  exists o'. rewrite F1, F4, F5, F7, E1, E2, E3, E5, insert_insert_eq. split_and!; try done.
  - intros n x Hx. destruct (F6 n x Hx) as (y & Hy & ->). by apply E4.
  - by etransitivity.
Qed.

Lemma fresh_from_trans o id o1 o2 : fresh_from o id o1 → fresh_from o1 id o2 → fresh_from o id o2.
Proof. intros (E1&E2&E3&E4&E5&E6) (F1&F2&F3&F4&F5&F6). split_and!; try congruence; apply F6. Qed.
Lemma fresh_self o id o1 : fresh_from o id o1 → fresh_from o1 id o1.
Proof. intros (E1&E2&E3&E4&E5&E6). by split_and!. Qed.
Lemma rejected_end_trans a o id o1 om om' : fresh_from o id o1 →
  rejected_end a o1 id om om' → rejected_end a o id om om'.
Proof. intros Hf (o' & ? & ? & ?). exists o'. split; [done|]. split; [by eapply fresh_from_trans|done]. Qed.

Definition sent_after (a : Z) o (id : Z) (name : string) om om' : Prop :=
  ∃ o' om1 om2, om_heap om' = <[a := o']> (om_heap om) /\ fresh_from o id o'
    /\ o_state o' = SENT /\ o_session o' = Some name /\ om_orders om' = om_orders om
    /\ om_localID om' = om_localID om /\ sessions_kept om om'
    /\ om_blotter om' = om_blotter om ++ [log_order_sent o']
    /\ universe_mirror (om_universe om1) (om_universe om)
    /\ order_adds o' (o_size o') om1 = Ok om2 /\ om_universe om' = om_universe om2.

Lemma send_ends om a o name b om' : invariant om → om_heap om !! a = Some o → unacked o →
  send (Some a) (Some name) om = Ok (b, om') →
  let id := u32 (om_localID om + 1) in
  if b then sent_after a o id name (numbered a o om) om'
  else rejected_end a o id (numbered a o om) om'.
Proof.
  intros Hi Ha Hun. unfold send, get_order. rewrite Ha. cbn [mbind res_bind].
  intros (s & _ & (u1 & _ & (u2 & _ & Hr)%res_bind_Ok)%res_bind_Ok)%res_bind_Ok. cbv zeta.
  set (id := u32 (om_localID om + 1)) in *. fold id in Hr. set (o0 := o <| o_localID := id |>) in *.
  match type of Hr with context [reject_locally a ?x] => change x with (numbered a o om) in Hr end.
  assert (fresh_from o id o0) as Hfr by (by split_and!).
  set (om0 := numbered a o om) in *.
  assert (om_heap om0 !! a = Some o0) as Ha0 by (cbn; by rewrite lookup_insert_eq).
  assert (om_universe om0 = om_universe om) as HU0 by done.
  assert (∀ o1 om1 b om2, om_heap om1 = <[a := o1]> (om_heap om0) → fresh_from o id o1 →
    om_orders om1 = om_orders om0 → om_localID om1 = om_localID om0 → sessions_kept om0 om1 →
    om_blotter om1 = om_blotter om0 → universe_mirror (om_universe om1) (om_universe om0) →
    reject_locally a om1 = Ok (b, om2) →
    if b then sent_after a o id name om0 om2 else rejected_end a o id om0 om2) as Hrej.
  { intros o1 om1 b' om2 G1 G2 G3 G4 G5 G6 G7 Hrj.
    destruct (rejected_after a o1 id om0 om1 om2 b') as [-> He]; try done; [by eapply fresh_self|].
    by apply (rejected_end_trans a o id o1). }
  clearbody om0 o0.
  destruct (validate_base o0 && o_validate o0).
  2: { apply (Hrej o0 om0 b om'); try done; [by rewrite insert_id|by apply sessions_same_kept]. }
  apply res_bind_Ok in Hr as ([ok om1] & Hrisk & Hr).
  destruct (risk_checks_stage om0 a o0 id ok om1 Ha0 (fresh_self _ _ _ Hfr) Hrisk)
    as ((o1 & E1 & Hfr1) & E2 & E3 & E4 & E5 & HU).
  pose proof (fresh_from_trans _ _ _ _ Hfr Hfr1) as Hfr1'.
  destruct ok.
  2: { apply (Hrej o1 om1 b om'); try done. by apply sessions_same_kept. }
  apply res_bind_Ok in Hr as ([sent om2] & Hsend & Hr).
  assert (om_heap om1 !! a = Some o1) as Ha1 by (by rewrite E1, lookup_insert_eq).
  pose proof (send_to_session_end om1 a o1 id name sent om2 Ha1 (fresh_self _ _ _ Hfr1')) as Hend.
  specialize (Hend (λ i Hu, stage_locates_range om om1 _ i Hi
    ltac:(by rewrite <- HU0) Hu) Hsend).
  assert (sessions_kept om0 om1) as K1 by (by apply sessions_same_kept).
  assert (∀ om3, sessions_kept om1 om3 → sessions_kept om0 om3) as Hkk.
  { intros om3 Hk n x Hx. destruct (Hk n x Hx) as (y & Hy & ->). by apply K1. }
  destruct sent; cbn in Hend.
  - injection Hr as <- <-. destruct Hend as (o2 & om3 & F1&F2&F3&F4&F5&F6&F7&F8&F9&F10).
    exists o2, om1, om3. rewrite F1, F5, F6, F8, E1, E2, E3, E5, insert_insert_eq.
    split_and!; try done; [by eapply fresh_from_trans|by apply Hkk].
  - destruct Hend as (o2 & F1&F2&F3&F4&F5&F6&F7).
    apply (Hrej o2 om2 b om'); try congruence.
    + by rewrite F1, E1, insert_insert_eq.
    + by eapply fresh_from_trans.
    + by apply Hkk.
    + by etransitivity.
Qed.

(** Both tables grow by one slot. *)
Lemma mirror_grow om om' rp rp' a o o1 p' : invariant om → mirrors om rp →
  om_heap om !! a = Some o → o_localID o = 0 →
  om_heap om' = <[a := o1]> (om_heap om) → om_orders om' = om_orders om ++ [Some a] →
  om_orders rp' = om_orders rp ++ [p'] → om_localID rp' = om_localID om' →
  (∀ b x, om_heap rp !! b = Some x → om_heap rp' !! b = Some x) →
  slot_mirror om' rp' (Some a) p' → sessions_kept om om' →
  universe_mirror (om_universe om') (om_universe rp') →
  (∀ name x s, om_sessions om !! name = Some x → om_sessions rp !! name = Some s →
     recreates (ss_market x) name s →
     ∃ s', om_sessions rp' !! name = Some s' /\ recreates (ss_market x) name s') →
  mirrors om' rp'.
Proof.
  intros Hi Hm Ha Hz E1 E2 F1 F2 Hh Hslot Hk HU Hses. pose proof (inv_ids _ Hi) as Hids. split.
  - done.
  - rewrite E2, F1. apply Forall2_app; [|by constructor].
    pose proof (mir_slots _ _ Hm) as HF. apply Forall2_same_length_lookup.
    split; [by eapply Forall2_length|]. intros n p q Hp Hq.
    pose proof (Forall2_lookup_lr _ _ _ _ _ _ HF Hp Hq) as Hs.
    destruct p as [b|]; [|done].
    assert (b ≠ a) as Hne.
    { intros ->. by destruct (slot_id om n a o Hids Hp Ha). }
    destruct q as [b'|]; cbn in *; rewrite E1, lookup_insert_ne by done; [|done].
    destruct Hs as (x & x' & Hx & Hx' & Hmir). exists x, x'. auto.
  - done.
  - intros name s Hs. destruct (Hk name s Hs) as (s0 & Hs0 & ->).
    destruct (mir_sessions _ _ Hm name s0 Hs0) as (Hok & t & Ht & Hr).
    split; [done|]. by apply (Hses name s0 t).
Qed.

(** [extend_local_id] by one. *)
Lemma extend_one om oid : Z.of_nat (length (om_orders om)) = om_localID om + 1 → 0 <= om_localID om →
  om_localID om + 2 < 2 ^ 32 → oid_local_id oid = om_localID om + 1 →
  extend_local_id_helper oid om
  = Ok (true, om <| om_orders := om_orders om ++ [None] |> <| om_localID := om_localID om + 1 |>).
Proof.
  intros Hlen Hpos Hmax Hoid. unfold extend_local_id_helper, extend_local_id, assert.
  rewrite Hoid, (proj2 (Z.leb_gt _ _)) by lia.
  rewrite !(wrap_small 32) by (unfold in_u; lia).
  rewrite Hlen, Z.eqb_refl, (proj2 (Z.ltb_lt _ _)) by lia. cbn [mbind res_bind].
  by replace (Z.to_nat (om_localID om + 1 + 1) - length (om_orders om))%nat with 1%nat by lia.
Qed.

Lemma mirrors_length om rp : invariant om → mirrors om rp →
  Z.of_nat (length (om_orders rp)) = om_localID rp + 1 /\ 0 <= om_localID rp.
Proof.
  intros Hi Hm. destruct (inv_ids _ Hi) as (I1 & I2 & _). apply lookup_lt_Some in I2.
  rewrite (mir_id _ _ Hm), <- (Forall2_length _ _ _ (mir_slots _ _ Hm)). lia.
Qed.

Lemma recover_rejected om om' rp a o : invariant om → mirrors om rp →
  om_heap om !! a = Some o → o_localID o = 0 → om_localID om + 2 < 2 ^ 32 →
  rejected_end a o (om_localID om + 1) (numbered a o om) om' →
  ∃ m rp', om_blotter om' = om_blotter om ++ [m] /\ on_message m rp = Ok rp' /\ mirrors om' rp'.
Proof.
  intros Hi Hm Ha Hz Hmax (o1 & E1 & Hfr & Hst & E2 & E3 & E4 & E5 & HU).
  destruct (mirrors_length om rp Hi Hm) as [Hlen Hpos]. pose proof (mir_id _ _ Hm) as Hid.
  assert (u32 (om_localID om + 1) = om_localID om + 1) as Hw
    by (apply (wrap_small 32); unfold in_u; lia).
  eexists _, _. split; [exact E5|]. split.
  - cbn [on_message m_body log_local_reject]. unfold on_log_local_reject.
    rewrite (extend_one rp); [done|done|done|lia|]. rewrite Hid. apply Hfr.
  - eapply (mirror_grow om om' rp _ a o o1 None); try done.
    + by rewrite E1; cbn; rewrite insert_insert_eq.
    + rewrite E3. cbn. by rewrite Hw, Hid.
    + exists o1. by rewrite E1, lookup_insert_eq.
    + cbn. etransitivity; [exact HU|apply Hm].
    + intros n x s _ Hs Hr. by exists s.
Qed.

Lemma create_replay_order_mirror o name ts s rp :
  name_ok name → recreates (o_market o) name s →
  ∃ o' s', create_replay_order ts (new_order_body o) s rp
      = (s', Some (create_order o' rp).1, (create_order o' rp).2)
    /\ recreates (o_market o) name s'
    /\ replay_order_for name (o_instrument o) (o_original_price o) (o_size o) (o_side o) o'.
Proof.
  intros Hok Hr. unfold create_replay_order.
  edestruct (Hrecreates (o_market o) name s ts) as (o' & s' & Hc & Hr' & Ho'); [done|].
  exists o', s'. split; [|by split].
  cbn [new_order_body no_instrument_esi no_market_mic no_oid no_orig_price no_size no_side no_tif
       no_type no_user_data].
  rewrite MIC_of_to_index, Side_of_to_Z, TimeInForce_of_to_Z, OrderType_of_to_Z. cbn [default].
  by erewrite Hc.
Qed.

(** [adopt_order_helper] for the order just recreated, in the last slot. *)
Lemma adopt_last a' o' o1 id om om1 om2 : om_heap om !! a' = Some o' →
  Z.of_nat (length (om_orders om)) = id + 1 → 0 <= id →
  o_instrument o' = o_instrument o1 → o_size o' = o_size o1 → o_side o' = o_side o1 →
  order_adds o1 (o_size o1) om1 = Ok om2 → universe_mirror (om_universe om1) (om_universe om) →
  ∃ om', adopt_order_helper (Some a') id false om = Ok om'
    /\ om_heap om' = <[a' := o' <| o_localID := id |> <| o_state := SENT |>]> (om_heap om)
    /\ om_orders om' = <[Z.to_nat id := Some a']> (om_orders om)
    /\ om_localID om' = om_localID om /\ om_sessions om' = om_sessions om
    /\ universe_mirror (om_universe om2) (om_universe om').
Proof.
  intros Ha Hlen Hpos Ei Es Ed Hadd HU. unfold adopt_order_helper, assert, get_order.
  rewrite (proj2 (Z.ltb_lt _ _)) by lia. rewrite Ha. cbn [mbind res_bind].
  set (o2 := o' <| o_localID := id |>).
  destruct (firm_event_mirror _ _ (λ f p, Ok (on_order_adds o2 (o_size o1) f p)) om1 om2
    (put_order a' o2 om) (mirrored_adds o1 o2 (o_size o1) Ed) Hadd HU)
    as (om3 & Hf & HU3 & G1 & G2 & G3 & G4).
  assert (order_adds o2 (o_size o2) (put_order a' o2 om) = Ok om3) as ->.
  { unfold order_adds. change (o_instrument o2) with (o_instrument o').
    change (o_size o2) with (o_size o'). by rewrite Ei, Es. }
  unfold mbind, res_bind. unfold set_slot. cbn [om_orders put_order].
  change (om_orders (put_order a' (o2 <| o_state := SENT |>) om3)) with (om_orders om3).
  rewrite G2. change (om_orders (put_order a' o2 om)) with (om_orders om).
  rewrite (proj2 (andb_true_iff _ _)) by (split; [apply Z.leb_le|apply Z.ltb_lt]; lia).
  eexists. split; [reflexivity|]. cbn. rewrite G1, G3, G4. cbn.
  by rewrite insert_insert_eq.
Qed.

Lemma recover_sent om om' rp a o name : invariant om → mirrors om rp →
  om_heap om !! a = Some o → o_localID o = 0 → om_localID om + 2 < 2 ^ 32 →
  (∃ s, om_sessions om !! name = Some s /\ o_market o = ss_market s) →
  sent_after a o (om_localID om + 1) name (numbered a o om) om' →
  ∃ m rp', om_blotter om' = om_blotter om ++ [m] /\ on_message m rp = Ok rp' /\ mirrors om' rp'.
Proof.
  intros Hi Hm Ha Hz Hmax (s0 & Hs0 & Hmk)
    (o1 & om1 & om2 & E1 & Hfr & Hst & Hse & E2 & E3 & E4 & E5 & HU1 & Hadd & HU).
  destruct (mirrors_length om rp Hi Hm) as [Hlen Hpos]. pose proof (mir_id _ _ Hm) as Hid.
  assert (u32 (om_localID om + 1) = om_localID om + 1) as Hw
    by (apply (wrap_small 32); unfold in_u; lia).
  destruct Hfr as (Ei & Ep & Esz & Em & El & Eu1 & Eu2 & Eu3).
  destruct (mir_sessions _ _ Hm name s0 Hs0) as (Hname & t & Ht & Hrec).
  assert (universe_mirror (om_universe om1) (om_universe rp)) as HUr
    by (etransitivity; [exact HU1|apply Hm]).
  exists (log_order_sent o1).
  cut (∃ rp', on_message (log_order_sent o1) rp = Ok rp' /\ mirrors om' rp').
  { intros (rp' & ? & ?). by exists rp'. }
  rewrite <- Hmk, <- Em in Hrec.
  destruct (create_replay_order_mirror o1 name (o_sent_time o1) t rp Hname Hrec)
    as (o' & t' & Hc & Hr' & Ri & Rp & Rsz & Rsd & Rse & Rst & Rf & Ro & Rc).
  set (a' := (create_order o' rp).1) in *. set (rp1 := (create_order o' rp).2) in *.
  assert (om_heap rp !! a' = None) as Hfresh by apply not_elem_of_dom, is_fresh.
  cbn [on_message m_body log_order_sent m_timestamp]. unfold on_log_order_sent.
  change (no_instrument_esi (new_order_body o1)) with (o_instrument o1).
  destruct (firm_event_Ok _ _ _ _ Hadd) as (i & f & p & Hui & _ & _).
  destruct (HUr _ _ Hui) as (j & -> & _).
  assert (session_name_to_string (oid_session_name (no_oid (new_order_body o1))) = name) as ->.
  { cbn. rewrite Hse. destruct Hname. by apply session_name_kept. }
  rewrite Ht, Hc. cbv zeta. set (rp2 := put_session name t' rp1).
  rewrite (extend_one rp2); [|done|done|change (om_localID rp2) with (om_localID rp); lia|
    change (o_localID o1 = om_localID rp + 1); lia].
  cbn [mbind res_bind]. change (oid_local_id (no_oid (new_order_body o1))) with (o_localID o1).
  set (rp3 := rp2 <| om_orders := _ |> <| om_localID := _ |>).
  assert (om_heap rp3 !! a' = Some o') as Ha' by (cbn; by rewrite lookup_insert_eq).
  assert (om_orders rp3 = om_orders rp ++ [None]) as Ho3 by done.
  assert (om_localID rp3 = om_localID rp + 1) as Hl3 by done.
  assert (om_sessions rp3 = <[name := t']> (om_sessions rp)) as Hs3 by done.
  assert (om_heap rp3 = <[a' := o']> (om_heap rp)) as Hh3 by done.
  assert (universe_mirror (om_universe om1) (om_universe rp3)) as HUr3 by done.
  clearbody rp3. clear rp2 rp1 Hc.
  destruct (adopt_last a' o' o1 (o_localID o1) rp3 om1 om2 Ha')
    as (rp' & -> & F1 & F2 & F3 & F4 & F5); try done.
  { rewrite Ho3, length_app. cbn. lia. }
  { lia. }
  exists rp'. split; [reflexivity|].
  eapply (mirror_grow om om' rp rp' a o o1 (Some a')); try done.
  - rewrite E1. cbn. by rewrite insert_insert_eq.
  - rewrite F2, Ho3. replace (Z.to_nat (o_localID o1)) with (length (om_orders rp) + 0)%nat by lia.
    by rewrite insert_app_r.
  - rewrite F3, Hl3, E3. cbn. lia.
  - intros b x Hx. rewrite F1, Hh3, !lookup_insert_ne; [done|..]; intros <-; congruence.
  - eexists _, _. rewrite E1, F1, !lookup_insert_eq. split; [done|]. split; [done|].
    unfold order_mirror. cbn. split_and!; congruence.
  - by rewrite HU.
  - intros n x s Hx Hs Hr. rewrite F4, Hs3. destruct (decide (name = n)) as [<-|].
    + exists t'. rewrite lookup_insert_eq. split; [done|]. rewrite Hs0 in Hx.
      injection Hx as <-. by rewrite <- Hmk, <- Em.
    + exists s. by rewrite lookup_insert_ne.
Qed.

Lemma recovers_send om a name om' : invariant om → allowed (EvSend a name) om →
  om_localID om + 2 < 2 ^ 32 → om_step (EvSend a name) om = Ok om' → recovers om om'.
Proof.
  intros Hi (o & Ha & Hst & Hz & _ & Hs & _) Hmax. unfold om_step.
  destruct (send (Some a) (Some name) om) as [[b om1]|] eqn:Hsend; [|done]. intros [= <-].
  destruct (inv_ids _ Hi) as (I1 & I2 & _). apply lookup_lt_Some in I2.
  assert (unacked o) as Hun.
  { pose proof (inv_sizes _ Hi a o Ha) as [_ Hsz]. unfold phase_of in Hsz. by rewrite Hst in Hsz. }
  pose proof (send_ends om a o name b om1 Hi Ha Hun Hsend) as Hend. cbv zeta in Hend.
  rewrite (wrap_small 32) in Hend by (unfold in_u; lia).
  assert (∃ m, om_blotter om1 = om_blotter om ++ [m]) as [m Hb].
  { destruct b.
    - destruct Hend as (o' & _ & _ & _&_&_&_&_&_&_& Hb &_). eauto.
    - destruct Hend as (o' & _&_&_&_&_&_& Hb &_). eauto. }
  exists [m]. split; [done|]. intros rp Hm.
  assert (∃ m' rp', om_blotter om1 = om_blotter om ++ [m'] /\ on_message m' rp = Ok rp'
    /\ mirrors om1 rp') as (m' & rp' & Hb' & Hon & Hm').
  { destruct b; [by eapply recover_sent|by eapply recover_rejected]. }
  rewrite Hb in Hb'. apply app_inj_2 in Hb' as [_ [= ->]]; [|done]. exists rp'.
  by rewrite recover_one.
Qed.

(** What the log can bring back: manual adjustments are never written, and
    [extend_local_id] computes the size of the table in 32 bits. *)
Definition recoverable (ev : @Event D) om : Prop :=
  match ev with
  | EvManualAdj _ _ _ => False
  | EvSend _ _ => om_localID om + 2 < 2 ^ 32
  | _ => True
  end.

Lemma step_recovers ev om om' : invariant om → allowed ev om → recoverable ev om →
  om_step ev om = Ok om' → recovers om om'.
Proof.
  intros Hi Hal Hrec Hs. destruct ev as [o|a name|a q|pred|a b|a x n ts xts|a ts xts|a n px ts xts fc
    |a ts xts|a n ts xts|esi px|esi d1 d2|e esi|e].
  - apply Ok_inj in Hs as <-. by apply recovers_create.
  - by eapply recovers_send.
  - unfold om_step in Hs. destruct (cancel (Some a) q om) as [[b om1]|] eqn:Hc; [|done].
    injection Hs as <-. destruct Hal as (o & Ha & _). by eapply recovers_cancel_request.
  - unfold om_step in Hs. destruct (find_and_cancel pred om) as [[b om1]|] eqn:Hc; [|done].
    injection Hs as <-. by eapply recovers_find_and_cancel.
  - by eapply recovers_destroy.
  - by eapply recovers_ack.
  - by eapply recovers_reject.
  - by eapply recovers_fill.
  - by eapply recovers_cancel_rejected.
  - by eapply recovers_cancel.
  - by eapply recovers_last_sale.
  - done.
  - destruct e; injection Hs as <-; apply recovers_firm.
  - destruct e; injection Hs as <-; apply recovers_firm.
Qed.

(** A day: events that callers and exchange may cause, one after the other. *)
Inductive day : OrderManager D S → list (@Event D) → OrderManager D S → Prop :=
| day_over om : day om [] om
| day_event om ev om1 evs om2 : allowed ev om → recoverable ev om → om_step ev om = Ok om1 →
    day om1 evs om2 → day om (ev :: evs) om2.

Lemma day_recovers om evs om' : invariant om → day om evs om' → recovers om om'.
Proof.
  intros Hi Hday. induction Hday as [om|om ev om1 evs om2 Hal Hrec Hs _ IH]; [apply recovers_refl|].
  destruct (step_sound ev om Hi Hal) as (x & Hx & Hi1 & _).
  assert (x = om1) as -> by congruence.
  eapply (recovers_trans _ om1); [by eapply step_recovers|by apply IH].
Qed.

End Mirror.

(** ** Orders that a session adopts *)

Section Adoption.
Context {D S : Type} `{Dbl D} `{!OrderSession D S}.
Implicit Types (om : OrderManager D S) (o : Order D).

Lemma extend_to om id : Z.of_nat (length (om_orders om)) = om_localID om + 1 → 0 <= om_localID om →
  om_localID om < id → id + 1 < 2 ^ 32 →
  ∃ nulls, extend_local_id id om = Ok (om <| om_orders := om_orders om ++ nulls |> <| om_localID := id |>)
    /\ Z.of_nat (length (om_orders om ++ nulls)) = id + 1.
Proof.
  intros Hlen Hpos Hlt Hmax. unfold extend_local_id, assert.
  rewrite !(wrap_small 32) by (unfold in_u; lia).
  rewrite Hlen, Z.eqb_refl, (proj2 (Z.ltb_lt _ _)) by lia. cbn [mbind res_bind].
  eexists. split; [reflexivity|]. rewrite length_app, length_replicate. lia.
Qed.

Lemma adds_total o n om : is_Some (om_universe om !! o_instrument o) →
  ∃ om', order_adds o n om = Ok om' /\ om_heap om' = om_heap om /\ om_orders om' = om_orders om.
Proof.
  intros [i Hi]. unfold order_adds, firm_event, get_inst. rewrite Hi. cbn [mbind res_bind].
  destruct (on_order_adds _ _ _ _). by eexists.
Qed.

(** An order under a new id, adopted: it takes its slot, in state [SENT]. *)
Lemma adopt_new name id a o om : om_heap om !! a = Some o → is_Some (om_universe om !! o_instrument o) →
  Z.of_nat (length (om_orders om)) = om_localID om + 1 → 0 <= om_localID om →
  om_localID om < id → id + 1 < 2 ^ 32 →
  ∃ om', adopt_orphan_order name id (Some a) om = Ok (true, om')
    /\ om_heap om' !! a = Some (o <| o_localID := id |> <| o_state := SENT |>)
    /\ om_orders om' !! Z.to_nat id = Some (Some a).
Proof.
  intros Ha Hu Hlen Hpos Hlt Hmax. unfold adopt_orphan_order, extend_local_id_helper.
  cbn [oid_local_id]. rewrite (proj2 (Z.leb_gt _ _)) by lia.
  destruct (extend_to om id Hlen Hpos Hlt Hmax) as (nulls & -> & Hlen'). cbn [mbind res_bind].
  set (om1 := om <| om_orders := _ |> <| om_localID := _ |>).
  unfold adopt_order_helper, assert, get_order. change (om_orders om1) with (om_orders om ++ nulls).
  rewrite (proj2 (Z.ltb_lt id _)) by lia. cbn [mbind res_bind].
  change (om_heap om1) with (om_heap om). rewrite Ha. cbn [mbind res_bind].
  set (o1 := o <| o_localID := id |>).
  destruct (adds_total o1 (o_size o1) (put_order a o1 om1)) as (om2 & -> & E1 & E2); [done|].
  cbn [mbind res_bind]. unfold set_slot. cbn [om_orders blot put_order set_field].
  change (om_orders (blot (log_order_sent (o1 <| o_state := SENT |>))
    (put_order a (o1 <| o_state := SENT |>) om2))) with (om_orders om2).
  rewrite E2. change (om_orders (put_order a o1 om1)) with (om_orders om ++ nulls).
  rewrite (proj2 (andb_true_iff _ _)) by (split; [apply Z.leb_le|apply Z.ltb_lt]; lia).
  eexists. split; [reflexivity|]. cbn. rewrite lookup_insert_eq, list_lookup_insert_eq by lia. done.
Qed.
End Adoption.
