(* ===== verification/Ouch42Correct.v ===== *)
(** * The OUCH 4.2 session and the order manager together

    Messages of the exchange about our orders are steps of the order manager;
    what the session writes over an order besides; and what it does with orders
    it did not send. *)

From S2P Require Import Prelude Dbl Time Types Order Position Config Instrument FirmRisk.
From S2P Require Import Codec SoupBin OrderLog Blotter Session SessionKit Ouch42 OrderManager.
From S2P Require Import Replay Ouch42Handler OrderInvariant OrderLifecycle ReplayCorrect.
From S2P Require Import Ouch42Wire.

(** ** What an exchange says about an order *)

Inductive ExchangeMessage :=
| XAccepted (m : Accepted)
| XCanceled (m : Canceled)
| XAIQCanceled (m : AIQCanceled)
| XExecuted (m : Executed)
| XRejected (m : Rejected)
| XCancelPending (m : CancelPending)
| XCancelReject (m : CancelReject).

Definition xm_type (x : ExchangeMessage) : OutboundMessageType :=
  match x with
  | XAccepted _ => ACCEPTED | XCanceled _ => CANCELED | XAIQCanceled _ => AIQ_CANCELLED
  | XExecuted _ => EXECUTED | XRejected _ => REJECTED | XCancelPending _ => CANCEL_PENDING
  | XCancelReject _ => CANCEL_REJECT
  end.
Definition xm_header (x : ExchangeMessage) : OutboundOrderMessageHeader :=
  match x with
  | XAccepted m => ac_hdr m | XCanceled m => ca_hdr m | XAIQCanceled m => aq_hdr m
  | XExecuted m => ex_hdr m | XRejected m => rj_hdr m | XCancelPending m => cp_hdr m
  | XCancelReject m => cj_hdr m
  end.
Definition xm_with {R} (x : ExchangeMessage) (k : ∀ A, Codec A → A → R) : R :=
  match x with
  | XAccepted m => k _ c_Accepted m | XCanceled m => k _ c_Canceled m
  | XAIQCanceled m => k _ c_AIQCanceled m | XExecuted m => k _ c_Executed m
  | XRejected m => k _ c_Rejected m | XCancelPending m => k _ c_CancelPending m
  | XCancelReject m => k _ c_CancelReject m
  end.
Definition xm_bytes (x : ExchangeMessage) : list Z := xm_with x (λ _ c, c_enc c).
Definition xm_token (x : ExchangeMessage) : list Z := omh_order_token (xm_header x).

(** Well formed; only rejections bear the mark of the risk gateway.  An order is
    accepted live, or dead on arrival. *)
Definition xm_valid (x : ExchangeMessage) : Prop :=
  xm_with x (λ _ c, c_valid c)
  /\ omh_message_type (xm_header x) = OutboundMessageType_to_Z (xm_type x)
  /\ match x with
     | XAccepted m => (ac_order_state m = STATE_LIVE \/ ac_order_state m = STATE_DEAD) /\ hpr_marking (xm_token x) ≠ HPR_REJECTED
     | XRejected _ => True
     | _ => hpr_marking (xm_token x) ≠ HPR_REJECTED
     end.

(** The packet it travels in. *)
Definition SEQUENCED_TYPE : Z := 83.
Definition xm_packet (x : ExchangeMessage) : list Z := SEQUENCED_TYPE :: xm_bytes x.

Section Meaning.
Context {D : Type} `{Dbl D}.
Implicit Types o : Order D.

(** What it means to the order manager. *)
Definition xm_event (a : Z) (ts : Timestamp) (x : ExchangeMessage) : @Event D :=
  let xts := omh_exch_time (xm_header x) in
  match x with
  | XAccepted m => EvAck a (ac_order_reference_number m) (ac_shares m) ts xts
  | XCanceled m => EvCancelled a (ca_decremented_shares m) ts xts
  | XAIQCanceled m => EvCancelled a (aq_decremented_shares m) ts xts
  | XExecuted m => EvFill a (ex_executed_shares m) (get_limit (ex_execution_price m)) ts xts
                     (ex_liquidity_flag m)
  | XRejected _ => EvReject a ts xts
  | XCancelPending _ | XCancelReject _ => EvCancelRejected a ts xts
  end.
(** An order that is dead on arrival is acknowledged and cancelled whole. *)
Definition xm_dead (x : ExchangeMessage) : bool :=
  match x with XAccepted m => ac_order_state m =? STATE_DEAD | _ => false end.
Definition xm_events (a : Z) (ts : Timestamp) (x : ExchangeMessage) o : list (@Event D) :=
  xm_event a ts x
  :: (if xm_dead x then [EvCancelled a (o_size o) ts (omh_exch_time (xm_header x))] else []).
(** What is written over the order before that. *)
Definition xm_fields (x : ExchangeMessage) (nq : NASDAQFields) o : Order D :=
  match x with
  | XAccepted m => accepted_fields m nq o
  | XCanceled m => canceled_fields (ca_reason m) nq o
  | XAIQCanceled m => canceled_fields (aq_reason m) nq o
  | XExecuted m => executed_fields m nq o
  | XRejected _ | XCancelPending _ | XCancelReject _ => o
  end.

Lemma xm_fields_same x nq o : same_identity o (xm_fields x nq o) /\ view (xm_fields x nq o) = view o
  /\ o_state (xm_fields x nq o) = o_state o /\ o_open_size (xm_fields x nq o) = o_open_size o
  /\ o_filled_size (xm_fields x nq o) = o_filled_size o
  /\ o_cancelled_size (xm_fields x nq o) = o_cancelled_size o.
Proof. by destruct x. Qed.
End Meaning.

(** Every message starts with its header. *)
Lemma xm_starts x : xm_valid x → c_valid c_OMH (xm_header x)
  /\ ∃ rest, xm_bytes x = c_enc c_OMH (xm_header x) ++ rest
     /\ length (xm_bytes x) = expected_len (xm_type x).
Proof.
  intros (Hv & _). split.
  - destruct x; unfold xm_with in Hv;
      [do 14 destruct Hv as [Hv _]|do 2 destruct Hv as [Hv _]|do 5 destruct Hv as [Hv _]
      |do 4 destruct Hv as [Hv _]|destruct Hv as [Hv _]| |]; exact Hv.
  - destruct x; unfold xm_bytes, xm_with in *; pose proof (codec_length _ Hv) as Hlen;
      unfold xm_header, expected_len, xm_type; rewrite Hlen;
      cbn [c_enc c_Accepted c_Canceled c_AIQCanceled c_Executed c_Rejected c_CancelPending
        c_CancelReject c_record c_pair fst snd];
      rewrite <- ?app_assoc; eexists; (split; [first [reflexivity|by rewrite app_nil_r]|done]).
Qed.

(** ** A message is a step *)

Section Steps.
Context {D S E : Type} `{Dbl D} `{!OrderSession D S} `{!OrderSessionLaws D S} `{Connection E}.
Implicit Types (om : OrderManager D S) (o : Order D) (s : OUCH42Session E).

Lemma put_same a o om : om_heap om !! a = Some o → put_order a o om = om.
Proof.
  intros Ha. unfold put_order. rewrite (insert_id _ a o) by done. by destruct om.
Qed.

Lemma set_nasdaq_found a g om o nq : om_heap om !! a = Some o → o_kind o = NASDAQOrder nq →
  set_nasdaq a g om = Ok (put_order a (g nq o) om).
Proof. intros Ha Hk. unfold set_nasdaq, get_order. rewrite Ha. cbn. by rewrite Hk. Qed.

(** The fields of an AIQ cancellation that are read as those of a cancellation. *)
Lemma aiq_reads_as_canceled m rest : c_valid c_AIQCanceled m →
  reading c_Canceled (c_enc c_AIQCanceled m ++ rest)
  = Ok (mkCanceled (aq_hdr m) (aq_decremented_shares m) (aq_reason m)).
Proof.
  intros Hv. set (m' := mkCanceled _ _ _).
  assert (c_enc c_AIQCanceled m = c_enc c_Canceled m'
    ++ c_enc (c_be 4) (aq_quantity_prevented_from_trading m)
    ++ c_enc (c_uint 4) (aq_execution_price m) ++ c_enc (c_uint 1) (aq_liquidity_flag m)) as ->.
  { cbn [c_enc c_AIQCanceled c_Canceled c_record c_pair fst snd]. by rewrite <- !app_assoc. }
  rewrite <- app_assoc. apply (reading_enc c_Canceled). do 3 destruct Hv as [Hv ?]. exact Hv.
Qed.

(** What it does, all in all. *)
Definition xm_step (a : Z) (ts : Timestamp) (x : ExchangeMessage) nq o om : res (OrderManager D S) :=
  foldM (λ om ev, om_step ev om) (put_order a (xm_fields x nq o) om) (xm_events a ts x o).

Lemma cancelled_whole n ts xts o : o_open_size o <= n →
  (order_update_on_cancel n ts xts o) <| o_state := CANCELLED |> = order_update_on_cancel n ts xts o.
Proof. intros Hn. unfold order_update_on_cancel. rewrite (proj2 (Z.leb_le _ _) Hn). reflexivity. Qed.
(** An acceptance of an order that is dead: the last write finds it cancelled. *)
Lemma handle_dead ts m a o nq om : ac_order_state m = STATE_DEAD → om_heap om !! a = Some o →
  o_kind o = NASDAQOrder nq → ac_shares m = o_size o →
  handle_accepted ts m a om = xm_step a ts (XAccepted m) nq o om.
Proof.
  intros Hd Ha Hk Hn. unfold handle_accepted, xm_step, xm_events, xm_dead, xm_event, xm_fields, xm_header.
  rewrite (set_nasdaq_found a _ om o nq), Hd, Hn by done. cbn [mbind res_bind foldM om_step].
  change (STATE_DEAD =? STATE_LIVE) with false. change (STATE_DEAD =? STATE_DEAD) with true. cbv iota.
  set (o1 := accepted_fields m nq o). cbn [foldM om_step].
  destruct (on_acknowledged _ _ _ _ _ _) as [om1|] eqn:Hack; cbn [mbind res_bind]; [|done].
  eapply (on_acknowledged_spec a _ _ _ _ _ om1 o1) in Hack as [_ Hh]; [|apply lookup_insert_eq].
  assert (om_heap om1 !! a = Some (order_update_on_ack (ac_order_reference_number m) (o_size o) ts
    (omh_exch_time (ac_hdr m)) o1)) as Ha1 by (by rewrite Hh, lookup_insert_eq).
  assert (∀ b om0 o0, om_heap om0 !! b = Some o0 → get_order b om0 = Ok o0) as Hget
    by (intros b om0 o0 Hb; unfold get_order; by rewrite Hb).
  rewrite (Hget _ _ _ Ha1). cbn [mbind res_bind].
  change (o_size (order_update_on_ack _ _ _ _ o1)) with (o_size o).
  destruct (on_cancel _ _ _ _ om1) as [om2|] eqn:Hcxl; cbn [mbind res_bind]; [|done].
  apply (on_cancel_heap _ _ _ _ _ _ _ Ha1) in Hcxl. erewrite Hget by (by rewrite Hcxl, lookup_insert_eq).
  cbn [mbind res_bind]. f_equal.
  rewrite cancelled_whole by apply Z.le_refl.
  apply put_same. by rewrite Hcxl, lookup_insert_eq.
Qed.

Lemma handle_known name x ts a o nq om rest : xm_valid x → om_heap om !! a = Some o →
  o_kind o = NASDAQOrder nq → allowed (xm_event a ts x) om →
  handle_order_message name (xm_type x) ts (xm_bytes x ++ rest) a om = xm_step a ts x nq o om.
Proof.
  intros (Hv & _ & Hx) Ha Hk Hal.
  assert (∀ r : res (OrderManager D S), (om ← r; Ok om) = r) as Hr by (by intros []).
  destruct x as [m|m|m|m|m|m|m]; unfold xm_type, xm_bytes, xm_with in *; unfold handle_order_message.
  - rewrite (reading_enc c_Accepted) by done. cbn [mbind res_bind].
    destruct Hx as [[Hl|Hd] _]; [|destruct Hal as (o' & Ha' & _ & Hn); apply handle_dead; congruence].
    unfold handle_accepted, xm_step, xm_events, xm_dead, xm_event, xm_fields, xm_header.
    rewrite (set_nasdaq_found a _ om o nq), Hl by done. cbn [mbind res_bind foldM om_step].
    change (STATE_LIVE =? STATE_LIVE) with true. change (STATE_LIVE =? STATE_DEAD) with false.
    cbn [foldM]. by rewrite Hr.
  - rewrite (reading_enc c_Canceled) by done. cbn [mbind res_bind]. unfold handle_canceled.
    rewrite (set_nasdaq_found a _ om o nq) by done. symmetry. apply Hr.
  - rewrite aiq_reads_as_canceled by done. cbn [mbind res_bind]. unfold handle_canceled.
    rewrite (set_nasdaq_found a _ om o nq) by done. symmetry. apply Hr.
  - rewrite (reading_enc c_Executed) by done. cbn [mbind res_bind]. unfold handle_executed.
    rewrite (set_nasdaq_found a _ om o nq) by done. symmetry. apply Hr.
  - rewrite (reading_enc c_Rejected) by done. unfold xm_step. cbn [xm_fields].
    rewrite put_same by done. symmetry. apply Hr.
  - rewrite (reading_enc c_CancelPending) by done. unfold xm_step. cbn [xm_fields].
    rewrite put_same by done. symmetry. apply Hr.
  - rewrite (reading_enc c_CancelReject) by done. unfold xm_step. cbn [xm_fields].
    rewrite put_same by done. symmetry. apply Hr.
Qed.

Definition bump s : OUCH42Session E :=
  s <| ou_last_seqnum_received := u64 (ou_last_seqnum_received s + 1) |>.

Lemma xm_head x rest : xm_valid x →
  OutboundMessageType_of_Z (default 0 (head (xm_bytes x ++ rest))) = Some (xm_type x).
Proof.
  intros Hx. destruct (xm_starts x Hx) as (Hv & r & -> & _). destruct Hx as (_ & Hty & _).
  destruct Hv as [[Hv _] _]. cbn [fst snd] in Hv.
  assert (default 0 (head ((c_enc c_OMH (xm_header x) ++ r) ++ rest))
    = omh_message_type (xm_header x)) as ->.
  { cbn [c_enc c_OMH c_record c_pair fst snd c_uint le_bytes app]. cbn [head default].
    apply Z.mod_small. exact Hv. }
  rewrite Hty. apply OutboundMessageType_of_to_Z.
Qed.

(** Up to the first switch. *)
Lemma sequenced_prefix ts x rest s om : xm_valid x →
  handle_sequenced ts (encode_packet (xm_packet x) ++ rest) (length (encode_packet (xm_packet x))) s om
  = verdict ← order_token_check (xm_type x) ts (xm_bytes x ++ rest)
      (length (encode_packet (xm_packet x))) (bump s) om;
    match verdict with
    | Done s om => Ok (s, om)
    | Known op =>
        om ← match op with
             | Some a => handle_order_message (ou_name s) (xm_type x) ts (xm_bytes x ++ rest) a om
             | None => Fail (UndefinedBehaviour "null order")
             end;
        Ok (bump s, om)
    end.
Proof.
  intros Hx. destruct (xm_starts x Hx) as (_ & _ & _ & Hlen). unfold handle_sequenced.
  assert (drop SEQUENCED_SIZE (encode_packet (xm_packet x) ++ rest) = xm_bytes x ++ rest) as ->.
  { change SEQUENCED_SIZE with (2 + 1)%nat. rewrite <- drop_drop. unfold encode_packet, xm_packet.
    rewrite <- app_assoc. by rewrite drop_app_n by apply length_be_bytes. }
  rewrite xm_head by done.
  assert (xm_type x ≠ SYSTEM_EVENT) as Hns by (by destruct x).
  assert (c_size c_OMH <= expected_len (xm_type x))%nat as Hexp by (destruct x; vm_compute; lia).
  assert (c_size c_OMH = 23%nat) as H23 by done.
  rewrite !(bool_decide_false _ Hns), length_encode. cbn [xm_packet length]. rewrite Hlen.
  rewrite (proj2 (Nat.leb_gt _ _)) by (unfold SEQUENCED_SIZE; lia).
  by rewrite (proj2 (Nat.ltb_ge _ (SEQUENCED_SIZE + expected_len (xm_type x)))) by
    (unfold SEQUENCED_SIZE; lia).
Qed.

(** The token that the first switch reads. *)
Lemma token_read x rest : xm_valid x →
  (length (encode_packet (xm_packet x)) <? SEQUENCED_SIZE + c_size c_OMH)%nat = false
  /\ reading c_OMH (xm_bytes x ++ rest) = Ok (xm_header x).
Proof.
  intros Hx. destruct (xm_starts x Hx) as (Hh & r & Hbytes & Hlen). split.
  - rewrite length_encode. cbn [xm_packet length]. rewrite Hlen. by destruct x.
  - rewrite Hbytes, <- app_assoc. by apply (reading_enc c_OMH).
Qed.

(** A sequenced packet about an order of the session. *)
Lemma sequenced_is_step ts x rest s om a o nq : xm_valid x →
  session_get_order (ou_name s) (token_id (xm_token x)) om = Ok (Some a) →
  om_heap om !! a = Some o → o_kind o = NASDAQOrder nq → allowed (xm_event a ts x) om →
  handle_sequenced ts (encode_packet (xm_packet x) ++ rest) (length (encode_packet (xm_packet x))) s om
  = om' ← xm_step a ts x nq o om; Ok (bump s, om').
Proof.
  intros Hx Hg Ha Hk Hal. rewrite sequenced_prefix by done. unfold order_token_check.
  destruct (token_read x rest Hx) as [-> ->]. cbn [mbind res_bind]. unfold xm_token in Hg.
  change (ou_name (bump s)) with (ou_name s). rewrite Hg. cbn [mbind res_bind].
  rewrite (proj2 (Z.eqb_neq _ 0)) by (by eapply session_get_order_nonzero).
  destruct (Z.eqb_spec (hpr_marking (omh_order_token (xm_header x))) HPR_REJECTED) as [Hz|Hz].
  - destruct Hx as (_ & _ & Hx). unfold xm_token in Hx.
    destruct x; try (by destruct Hx). unfold xm_step. cbn [xm_fields xm_events xm_event xm_dead foldM om_step].
    rewrite (put_same a o om) by done. cbn [xm_header rj_hdr]. by destruct (on_rejected _ _ _ _).
  - by rewrite <- (handle_known (ou_name s) x ts a o nq om rest).
Qed.

(** What it writes besides does not matter to the book-keeping. *)
Lemma noted_invariant x nq a o om : invariant om → om_heap om !! a = Some o →
  invariant (put_order a (xm_fields x nq o) om)
  /\ views (put_order a (xm_fields x nq o) om) = views om.
Proof.
  intros Hi Ha. destruct (xm_fields_same x nq o) as (Hid & Hv & Hst & E1 & E2 & E3).
  assert (phase_of (xm_fields x nq o) = phase_of o) as Hph
    by (unfold phase_of; by rewrite Hst, E2, E3).
  split; [|by apply (views_same _ _ o)]. apply (respond om a o); try done.
  - apply (sizes_ok_same o (xm_fields x nq o)); try done. by eapply inv_sizes.
  - unfold outstanding. destruct Hid as (_ & _ & _ & _ & ->). by rewrite Hph.
Qed.

Lemma noted_allowed x nq a o om ts : om_heap om !! a = Some o → allowed (xm_event a ts x) om →
  allowed (xm_event a ts x) (put_order a (xm_fields x nq o) om).
Proof.
  intros Ha. destruct (xm_fields_same x nq o) as ((_ & _ & _ & _ & Hsz) & Hv & Hst & E1 & E2 & E3).
  assert (phase_of (xm_fields x nq o) = phase_of o) as Hph
    by (unfold phase_of; by rewrite Hst, E2, E3).
  assert (∀ P : Order D → Prop, (P o → P (xm_fields x nq o)) → order_at a om P →
    order_at a (put_order a (xm_fields x nq o) om) P) as Hat.
  { intros P HP (o0 & Ha0 & HP0). assert (o0 = o) as -> by congruence.
    exists (xm_fields x nq o). cbn. rewrite lookup_insert_eq. auto. }
  unfold allowed, xm_event. destruct x; apply Hat; rewrite ?Hst, ?Hsz, ?Hph, ?E1; auto.
Qed.

(** The steps succeed. *)
Lemma xm_step_sound a ts x nq o om : invariant om → om_heap om !! a = Some o →
  allowed (xm_event a ts x) om →
  ∃ om1, xm_step a ts x nq o om = Ok om1 /\ invariant om1 /\ rtc book_moves (views om) (views om1).
Proof.
  intros Hi Ha Hal. destruct (noted_invariant x nq a o om Hi Ha) as [Hi0 Hv0].
  pose proof (noted_allowed x nq a o om ts Ha Hal) as Hal0. rewrite <- Hv0.
  destruct (step_sound _ _ Hi0 Hal0) as (om1 & Hs & Hi1 & Hm). unfold xm_step, xm_events.
  cbn [foldM]. rewrite Hs. cbn [mbind res_bind].
  destruct (xm_dead x) eqn:Hd; cbn [foldM]; [|exists om1; split_and!; [done..|by apply rtc_once]].
  destruct x as [m| | | | | |]; try done. cbn [xm_event om_step] in *.
  destruct Hal0 as (o1 & Ha1 & Hst & Hn). cbn in Ha1. rewrite lookup_insert_eq in Ha1.
  injection Ha1 as <-. change (o_size (accepted_fields m nq o)) with (o_size o) in Hn. rewrite Hn in Hs.
  eapply (on_acknowledged_spec a _ _ _ _ _ om1) in Hs as [_ Hh]; [|apply lookup_insert_eq].
  assert (om_heap om1 !! a = Some (order_update_on_ack (ac_order_reference_number m) (o_size o) ts
    (omh_exch_time (ac_hdr m)) (accepted_fields m nq o))) as Ha1 by (by rewrite Hh, lookup_insert_eq).
  destruct (sent_inv _ (inv_sizes _ Hi a o Ha) Hst) as (_ & (_ & Hf & Hc) & Hpos & _).
  destruct (step_sound (EvCancelled a (o_size o) ts (omh_exch_time (ac_hdr m))) om1 Hi1)
    as (om2 & Hs2 & Hi2 & Hm2).
  - eexists. split; [exact Ha1|]. left. split; [|cbn; lia]. exists 0, 0. unfold phase_of. cbn. congruence.
  - exists om2. cbn [om_step xm_header] in *. rewrite Hs2. split; [done|]. split; [done|].
    eapply rtc_l; [exact Hm|by apply rtc_once].
Qed.
End Steps.

(** ** A stream of messages *)

Section Stream.
Context {D S E : Type} `{Dbl D} `{!OrderSession D S} `{!OrderSessionLaws D S} `{Connection E}.
Implicit Types (om : OrderManager D S) (o : Order D) (s : OUCH42Session E).

(** The exchange answers our orders one after the other, as exchanges do: every
    message is about an order of the session that may be answered so ([allowed])
    when the messages before it have been taken in. *)
Fixpoint conversation (ts : Timestamp) (name : string) om (xs : list ExchangeMessage) : Prop :=
  match xs with
  | [] => True
  | x :: xs =>
      ∃ a o nq, xm_valid x /\ session_get_order name (token_id (xm_token x)) om = Ok (Some a)
        /\ om_heap om !! a = Some o /\ o_kind o = NASDAQOrder nq /\ allowed (xm_event a ts x) om
        /\ ∀ om1, xm_step a ts x nq o om = Ok om1 → conversation ts name om1 xs
  end.
(** What messages do: each the steps it means, on the order that its token names. *)
Inductive heard (ts : Timestamp) (name : string) :
    OrderManager D S → list ExchangeMessage → OrderManager D S → Prop :=
| heard_all om : heard ts name om [] om
| heard_message om x xs a o nq om1 om2 :
    session_get_order name (token_id (xm_token x)) om = Ok (Some a) →
    om_heap om !! a = Some o → o_kind o = NASDAQOrder nq →
    xm_step a ts x nq o om = Ok om1 → heard ts name om1 xs om2 → heard ts name om (x :: xs) om2.

Lemma xm_packet_ok x : xm_valid x → packet_ok (xm_packet x).
Proof.
  intros Hx. destruct (xm_starts x Hx) as (_ & _ & _ & Hlen). unfold packet_ok, xm_packet.
  cbn [length]. rewrite Hlen. destruct x; vm_compute; split; congruence.
Qed.

Lemma conversation_valid ts name om xs : invariant om → conversation ts name om xs → Forall xm_valid xs.
Proof.
  revert om. induction xs as [|x xs IH]; intros om Hi Hc; [done|].
  destruct Hc as (a & o & nq & Hx & _ & Ha & _ & Hal & Hc).
  destruct (xm_step_sound a ts x nq o om Hi Ha Hal) as (om1 & Hs & Hi1 & _).
  constructor; [done|]. by eapply IH; [|apply Hc].
Qed.

Lemma handle_sequenced_packet ts x rest s om a o nq : xm_valid x →
  session_get_order (ou_name s) (token_id (xm_token x)) om = Ok (Some a) →
  om_heap om !! a = Some o → o_kind o = NASDAQOrder nq → allowed (xm_event a ts x) om →
  handle_packet ts (mkPacket (encode_packet (xm_packet x) ++ rest) (2 + length (xm_packet x))) s om
  = om' ← xm_step a ts x nq o om; Ok (bump s, om').
Proof.
  intros Hx Hg Ha Hk Hal. unfold handle_packet. cbn [pk_buf pk_len].
  rewrite <- length_encode.
  assert ((encode_packet (xm_packet x) ++ rest) !! 2%nat = Some 83) as ->.
  { unfold encode_packet. rewrite <- app_assoc, lookup_app_r by (rewrite length_be_bytes; lia).
    by rewrite length_be_bytes. }
  cbn [default]. by apply sequenced_is_step.
Qed.

Lemma handle_conversation ts xs s om : invariant om → conversation ts (ou_name s) om xs →
  in_u 64 (ou_last_seqnum_received s) →
  ∃ s' om', handle_packets ts (packets_of (map xm_packet xs) []) s om = Ok (s', om')
    /\ heard ts (ou_name s) om xs om' /\ invariant om' /\ rtc book_moves (views om) (views om')
    /\ s' = s <| ou_last_seqnum_received :=
              u64 (ou_last_seqnum_received s + Z.of_nat (length xs)) |>.
Proof.
  revert s om. induction xs as [|x xs IH]; intros s om Hi Hc Hseq.
  - exists s, om. split_and!; try done; [by constructor|]. cbn [length].
    rewrite Z.add_0_r, (wrap_small 64) by done. by destruct s.
  - destruct Hc as (a & o & nq & Hx & Hg & Ha & Hk & Hal & Hc).
    destruct (xm_step_sound a ts x nq o om Hi Ha Hal) as (om1 & Hs & Hi1 & Hm).
    destruct (IH (bump s) om1 Hi1 (Hc om1 Hs)) as (s' & om' & Hp & Hh & Hi2 & Hr & ->); [by apply wrap_range|].
    eexists _, om'. split; [|split; [by eapply heard_message|split; [done|split; [by etransitivity|]]]].
    + unfold handle_packets in *. cbn [map packets_of foldM fst snd].
      change (encode_stream (xm_packet x :: map xm_packet xs))
        with (encode_packet (xm_packet x) ++ encode_stream (map xm_packet xs)).
      rewrite <- app_assoc, (handle_sequenced_packet ts x _ s om a o nq) by done.
      rewrite Hs. cbn [mbind res_bind fst snd]. rewrite Hp. reflexivity.
    + unfold bump. cbn. rewrite wrap_add_l.
      by replace (ou_last_seqnum_received s + Z.of_nat (Datatypes.S (length xs)))
        with (ou_last_seqnum_received s + 1 + Z.of_nat (length xs)) by lia.
Qed.

(** C3: Bytes from the exchange become the right steps of the order manager.  A
    read of any number of whole packets that answer orders of the session, each
    as the state of its order allows it ([conversation]: acceptances, live or dead
    on arrival, cancellations, self-match cancellations, executions, rejections by
    the exchange or the risk gateway, refused cancels), runs without a failure;
    each message acts on the order that its token names, exactly as the order
    manager's steps for it ([heard]), with what the message says of the order
    written over it first; the book-keeping stays right, orders move along their
    lifecycles, and every message is counted. *)
Theorem exchange_stream_drives_orders (ts : Timestamp) (xs : list ExchangeMessage) s om
    (Hi : invariant om) (Hdangly : ou_dangly s = []) (Hseq : in_u 64 (ou_last_seqnum_received s))
    (Hc : conversation ts (ou_name s) om xs) :
  ∃ s' om', session_on_recv ts (encode_stream (map xm_packet xs)) s om = Ok (s', om')
    /\ heard ts (ou_name s) om xs om' /\ invariant om' /\ rtc book_moves (views om) (views om')
    /\ ou_last_seqnum_received s' = u64 (ou_last_seqnum_received s + Z.of_nat (length xs))
    /\ ou_dangly s' = [] /\ ou_state s' = ou_state s /\ ou_last_message_received_ts s' = ts.
Proof.
  unfold session_on_recv. set (s1 := s <| ou_last_message_received_ts := ts |>).
  destruct (handle_conversation ts xs s1 om) as (s' & om' & Hp & Hh & Hi' & Hr & Hs'); try done.
  change (ou_dangly s1) with (ou_dangly s). rewrite Hdangly, recv_whole.
  - cbn [mbind res_bind]. rewrite Hp. cbn [mbind res_bind].
    eexists _, om'. split; [reflexivity|]. subst s'. by split_and!.
  - apply Forall_map. eapply Forall_impl; [exact (conversation_valid _ _ _ _ Hi Hc)|]. apply xm_packet_ok.
Qed.
End Stream.

(** ** Where the session and the book-keeping part *)

Section Divergence.
Context {D S E : Type} `{Dbl D} `{!OrderSession D S} `{!OrderSessionLaws D S} `{Connection E}.
Implicit Types (om : OrderManager D S) (o : Order D) (s : OUCH42Session E).

(** The open exposure of the buys of an instrument. *)
Definition long_exposure (esi : Z) om : option D :=
  (λ i, p_open_long_exposure (i_position i)) <$> om_universe om !! esi.

Lemma adds_exposure o n om om' X : o_side o = BUY → long_exposure (o_instrument o) om = Some X →
  order_adds o n om = Ok om' →
  long_exposure (o_instrument o) om' = Some (X + d_of_Z n * o_price o)%dbl.
Proof.
  unfold long_exposure, order_adds, firm_event, get_inst. intros Hb HX.
  destruct (om_universe om !! o_instrument o) as [i|] eqn:Hu; [|done]. injection HX as <-.
  cbn [mbind res_bind]. unfold on_order_adds. rewrite Hb. cbn [is_buy].
  intros [= <-]. cbn. by rewrite lookup_insert_eq.
Qed.

Lemma removes_exposure o n om om' X : o_side o = BUY → long_exposure (o_instrument o) om = Some X →
  order_removes o n om = Ok om' →
  long_exposure (o_instrument o) om' = Some (X - d_of_Z n * o_price o)%dbl.
Proof.
  unfold long_exposure, order_removes, firm_event, get_inst. intros Hb HX.
  destruct (om_universe om !! o_instrument o) as [i|] eqn:Hu; [|done]. injection HX as <-.
  cbn [mbind res_bind]. unfold on_order_removes. rewrite Hb. cbn [is_buy]. unfold sub_open_buys, assert.
  destruct (n <=? p_open_long_size (i_position i)); [|done]. cbn [mbind res_bind]. intros [= <-]. cbn. by rewrite lookup_insert_eq.
Qed.

Lemma on_cancel_exposure a n ts xts om om' o X : om_heap om !! a = Some o → o_side o = BUY →
  long_exposure (o_instrument o) om = Some X → on_cancel (Some a) n ts xts om = Ok om' →
  long_exposure (o_instrument o) om' = Some (X - d_of_Z n * o_price o)%dbl.
Proof.
  intros Ha Hb HX. open_op (@on_cancel) Ha.
  set (o1 := order_update_on_cancel n ts xts o).
  assert (o_side o1 = o_side o /\ o_instrument o1 = o_instrument o /\ o_price o1 = o_price o)
    as (Es & Ei & Ep) by (subst o1; unfold order_update_on_cancel; by case_match).
  clearbody o1. destruct (return_locates_on_cancel o1 n (put_order a o1 om)) as [om1|] eqn:Hret; [|done].
  assert (long_exposure (o_instrument o1) om1 = Some X) as HX1.
  { revert Hret. unfold return_locates_on_cancel, get_inst, long_exposure in *. rewrite Ei.
    cbn [om_universe put_order set_field]. 
    change (om_universe (put_order a o1 om)) with (om_universe om).
    destruct (om_universe om !! o_instrument o) as [i|] eqn:Hu; [|done]. cbn [mbind res_bind].
    case_match; intros [= <-]; cbn; [by rewrite lookup_insert_eq|by rewrite Hu]. }
  destruct (order_removes o1 n om1) as [om2|] eqn:Hrem; [|done].
  pose proof (removes_exposure o1 n om1 om2 X) as Hx. rewrite Es, Ei, Ep in Hx. rewrite Ei in HX1.
  specialize (Hx Hb HX1 Hrem). destruct (log_cancelled o1 n) as [m|]; [|done].
  intros [= <-]. rewrite <- Hx. unfold notify. by case_match.
Qed.

(** The open exposure leaks when the exchange accepts an order at another
    price.  Sending a buy of [n] shares raises the open exposure of its
    instrument by [n] times the order's price; but an acceptance overwrites that
    price, so that cancelling all of the order takes back [n] times the accepted
    price, and the difference stays in the totals that the limits are checked
    against. *)
Theorem repricing_leaks_open_exposure (ts ts' : Timestamp) (acc : Accepted) (cxl : Canceled)
    om0 om om1 om' a o (X : D)
    (Hbuy : o_side o = BUY) (Ha : om_heap om !! a = Some o)
    (HX : long_exposure (o_instrument o) om0 = Some X) (Hsent : order_adds o (o_size o) om0 = Ok om)
    (Hlive : ac_order_state acc = STATE_LIVE) (Hacc : handle_accepted ts acc a om = Ok om1)
    (Hall : ca_decremented_shares cxl = o_size o) (Hcxl : handle_canceled ts' cxl a om1 = Ok om') :
  long_exposure (o_instrument o) om'
  = Some (X + d_of_Z (o_size o) * o_price o - d_of_Z (o_size o) * get_limit (ac_price acc))%dbl.
Proof.
  pose proof (adds_exposure o _ om0 om X Hbuy HX Hsent) as HX1.
  unfold handle_accepted, set_nasdaq, get_order in Hacc. rewrite Ha in Hacc. cbn [mbind res_bind] in Hacc.
  destruct (o_kind o) as [|nq| |]; try done. cbn [mbind res_bind] in Hacc.
  rewrite Hlive in Hacc. cbn [STATE_LIVE] in Hacc. set (o1 := accepted_fields acc nq o) in *.
  apply (on_acknowledged_spec _ _ _ _ _ _ _ o1) in Hacc as [HU Hh]; [|apply lookup_insert_eq].
  set (o2 := order_update_on_ack _ _ _ _ o1) in *.
  assert (om_heap om1 !! a = Some o2) as Ha1 by (by rewrite Hh, lookup_insert_eq).
  unfold handle_canceled, set_nasdaq, get_order in Hcxl. rewrite Ha1 in Hcxl.
  cbn [mbind res_bind] in Hcxl. destruct (o_kind o2) as [|nq2| |]; try done.
  cbn [mbind res_bind] in Hcxl. set (o3 := canceled_fields _ nq2 o2) in *.
  rewrite Hall in Hcxl.
  apply (on_cancel_exposure _ _ _ _ _ _ o3 (X + d_of_Z (o_size o) * o_price o)%dbl) in Hcxl;
    [exact Hcxl|apply lookup_insert_eq|exact Hbuy|].
  unfold long_exposure in *. change (om_universe (put_order a o3 om1)) with (om_universe om1).
  by rewrite HU.
Qed.

(** ** Orders the session did not send *)

(** An order that the exchange accepted and we do not know (sent before a
    crash) is adopted but not acknowledged: it takes its slot of the id table and
    is counted at risk, but stays in state [SENT] with an open size of zero, which
    counts as terminal, so that neither [cancel] nor anything built on it will
    ever cancel it while it works in the market. *)
Theorem orphan_order_cannot_be_cancelled (ts : Timestamp) (m : Accepted) rest s om inst
    (Hx : xm_valid (XAccepted m)) (Hids : ids_ok om)
    (Hid : om_localID om < token_id (omh_order_token (ac_hdr m)) < 2 ^ 32 - 1)
    (Hmic : ou_mic s = XNAS) (Hinst : find_instrument (ac_stock m) s = Some inst)
    (Hu : is_Some (om_universe om !! inst)) :
  ∃ s' om' a o,
    handle_sequenced ts (encode_packet (xm_packet (XAccepted m)) ++ rest)
      (length (encode_packet (xm_packet (XAccepted m)))) s om = Ok (s', om')
    /\ om_orders om' !! Z.to_nat (token_id (omh_order_token (ac_hdr m))) = Some (Some a)
    /\ om_heap om' !! a = Some o
    /\ o_instrument o = inst /\ o_size o = ac_shares m /\ o_session o = Some (ou_name s)
    /\ o_state o = SENT /\ o_open_size o = 0 /\ is_terminal o = true
    /\ ∀ newqty, cancel (Some a) newqty om' = Ok (false, om').
Proof.
  destruct Hids as (Hlen & Hpos & _). apply lookup_lt_Some in Hpos.
  rewrite sequenced_prefix by done. unfold order_token_check.
  destruct (token_read (XAccepted m) rest Hx) as [-> ->]. cbn [mbind res_bind xm_header].
  set (id := token_id (omh_order_token (ac_hdr m))) in *.
  unfold session_get_order, get_order_unsafe. rewrite (proj2 (Z.ltb_ge id _)) by lia.
  cbn [andb mbind res_bind]. rewrite (proj2 (Z.eqb_neq id 0)) by lia.
  cbn [xm_type]. rewrite bool_decide_true by done.
  pose proof Hx as (Hv & _ & _ & Hz). unfold xm_token in Hz. cbn [xm_header] in Hz.
  rewrite (proj2 (Z.eqb_neq _ HPR_REJECTED)) by done.
  change (xm_bytes (XAccepted m)) with (c_enc c_Accepted m).
  rewrite (reading_enc c_Accepted) by done. cbn [mbind res_bind].
  unfold ouch_create_replay_order. change (find_instrument (ac_stock m) (bump s))
    with (find_instrument (ac_stock m) s). rewrite Hinst.
  unfold on_create_replay_order. change (ou_mic (bump s)) with (ou_mic s). rewrite Hmic.
  change (negb (bool_decide (XNAS = XNAS))) with false. cbv iota.
  destruct (conn_now (ou_net (bump s))) as [now e].
  match goal with |- context [match create_order_token_hpr ?x ?y with _ => _ end] =>
    set (o0 := x); destruct (create_order_token_hpr o0 y) as [token|] end;
    cbv beta iota; unfold create_order;
    [set (o1 := set_client_order_id o0 token)|set (o1 := o0)];
    set (a := fresh (dom (om_heap om))); set (om1 := put_order a o1 om);
    (destruct (adopt_new (ou_name s) id a o1 om1) as (om2 & Had & Hheap & Hslot);
      [apply lookup_insert_eq|exact Hu|exact Hlen|cbn in *; lia..|]);
    change (ou_name (_ <| ou_net := e |>)) with (ou_name s); rewrite Had; cbn [mbind res_bind];
    (eexists _, om2, a, _; split; [reflexivity|]; split; [exact Hslot|]; split; [exact Hheap|];
     split_and!; try reflexivity; intros q; unfold cancel, get_order; rewrite Hheap; reflexivity).
Qed.

(** After the exchange modified the side of a sale, the session can no longer
    name the order: [cancel] makes the token afresh from the order, and the
    marking character of the token depends on the side. *)
Theorem modified_order_loses_its_token (ts : Timestamp) (m : Modified) s om a o token
    (Ha : om_heap om !! a = Some o) (Hside : o_side o = SELL)
    (Hshort : md_buy_sell_indicator m = BSI_SHORT)
    (Htoken : create_order_token_hpr o s = Some token) :
  ∃ om' o' token', handle_modified ts m a om = Ok om' /\ om_heap om' !! a = Some o'
    /\ o_client_order_id o' = o_client_order_id o
    /\ create_order_token_hpr o' s = Some token' /\ token' ≠ token
    /\ token_id token' = token_id token.
Proof.
  unfold handle_modified. rewrite Hshort. cbn [to_i01_side BSI_SHORT BSI_BUY BSI_SELL Z.eqb Pos.eqb].
  change (to_i01_side BSI_SHORT) with SHORT. rewrite bool_decide_false by done.
  unfold get_order. rewrite Ha. cbn [mbind res_bind].
  set (o' := o <| o_side := SHORT |> <| o_open_size := _ |> <| o_last_response_time := _ |>
               <| o_last_exchange_time := _ |>).
  unfold create_order_token_hpr in *. rewrite Hside in Htoken. cbn [hpr_marker] in *.
  injection Htoken as <-. eexists _, o', _. split; [reflexivity|]. split; [apply lookup_insert_eq|].
  split; [done|]. split; [reflexivity|].
  split; [|reflexivity]. change (o_tif o') with (o_tif o). case_match; intros [= Eq]; lia.
Qed.
End Divergence.

(** ** A day at NASDAQ *)

#[local] Abbreviation B := SpecFloat.spec_float.
#[local] Abbreviation OM := (OrderManager B (OUCH42Session Wire)).

Definition nasdaq_om : OM :=
  OrderManager_new <| om_firm_risk := day_firm |>
    <| om_sessions := {["NASDAQ1" := sample_ouch]} |> <| om_universe := {[1 := day_instrument]} |>.
Definition nasdaq_order : Order B :=
  Order_new (mkTs 34200 0) (NASDAQOrder NASDAQOrder_default) 1 (d_of_Z 20) 300 BUY DAY LIMIT None 0.
Definition nasdaq_events : list (@Event B) :=
  [EvCreate nasdaq_order; EvSend first_order "NASDAQ1";
   EvAck first_order 5555 300 (mkTs 34201 0) 1000;
   EvFill first_order 100 (d_of_Z 20) (mkTs 34202 0) 2000 82;
   EvCancelled first_order 200 (mkTs 34203 0) 3000].
Definition nasdaq_state (n : nat) : OM :=
  match foldM (λ om ev, om_step ev om) nasdaq_om (take n nasdaq_events) with
  | Ok om => om | Fail _ => nasdaq_om
  end.

Lemma nasdaq_allowed n ev : nasdaq_events !! n = Some ev → allowed ev (nasdaq_state n).
Proof.
  destruct n as [|[|[|[|[|n]]]]]; [intros [= <-]..|done]; cbn [allowed].
  - unfold unacked. split_and!; [reflexivity..|discriminate|reflexivity|].
    eexists. vm_compute. reflexivity.
  - eexists. split; [vm_compute; reflexivity|].
    split; [reflexivity|]. split; [reflexivity|]. split; [vm_compute; reflexivity|]. split.
    + eexists. split; vm_compute; reflexivity.
    + intros i Hi. vm_compute in Hi. injection Hi as <-. vm_compute. reflexivity.
  - eexists. split; vm_compute; [reflexivity|by split].
  - eexists. split; [vm_compute; reflexivity|]. split; [by do 2 eexists|]. z_compute.
  - eexists. split; [vm_compute; reflexivity|]. left. split; [by do 2 eexists|]. z_compute.
Qed.
Lemma nasdaq_step n ev : nasdaq_events !! n = Some ev →
  om_step ev (nasdaq_state n) = Ok (nasdaq_state (S n)).
Proof. destruct n as [|[|[|[|[|n]]]]]; [intros [= <-]; vm_compute; reflexivity..|done]. Qed.
Lemma nasdaq_initial : initial nasdaq_om.
Proof.
  unfold initial. split_and!; try done.
  intros esi i b Hi. change (({[1 := day_instrument]} : gmap Z _) !! esi = Some i) in Hi.
  apply lookup_singleton_Some in Hi as [<- <-]. by destruct b.
Qed.
Lemma nasdaq_reachable n : (n <= 5)%nat → reachable (nasdaq_state n).
Proof.
  induction n as [|n IH]; intros Hn; [apply reach_initial, nasdaq_initial|].
  destruct (lookup_lt_is_Some_2 nasdaq_events n) as [ev Hev]; [cbn; lia|].
  eapply reach_step; [apply IH; lia|by apply nasdaq_allowed|by apply nasdaq_step].
Qed.

(** The session recreates the orders of its market in a recovery. *)
Definition ouch_recreates {E} (m : MIC) (name : string) (s : OUCH42Session E) : Prop :=
  m = XNAS /\ ou_name s = name.
Lemma ouch_recreates_spec {D E} `{Dbl D} `{Connection E} m name (s : OUCH42Session E) ts inst
    account id (price : D) size side tif type ud : ouch_recreates m name s →
  ∃ o s', ss_create_replay_order ts inst m account id price size side tif type ud s = (Some o, s')
    /\ ouch_recreates m name s' /\ replay_order_for name inst price size side o.
Proof.
  intros [-> <-]. cbn [ss_create_replay_order OUCH42Session_session]. unfold on_create_replay_order.
  change (negb (bool_decide (XNAS = XNAS))) with false. cbv iota.
  destruct (conn_now (ou_net s)) as [now e].
  destruct (create_order_token_hpr _ _); do 2 eexists; (split; [reflexivity|]); by split_and!.
Qed.

Lemma nasdaq_mirrors : mirrors ouch_recreates nasdaq_om nasdaq_om.
Proof.
  split; [reflexivity| | |].
  - by repeat constructor.
  - reflexivity.
  - intros name s Hs. change (({["NASDAQ1" := sample_ouch]} : gmap string _) !! name = Some s) in Hs.
    apply lookup_singleton_Some in Hs as [<- <-]. split.
    + split; [vm_compute; lia|]. vm_compute. repeat constructor.
    + exists sample_ouch. split; [reflexivity|]. split; vm_compute; reflexivity.
Qed.

Lemma nasdaq_day n : (n <= 5)%nat → day (nasdaq_state (5 - n)) (drop (5 - n) nasdaq_events) (nasdaq_state 5).
Proof.
  induction n as [|n IH]; intros Hn; [apply day_over|].
  destruct (lookup_lt_is_Some_2 nasdaq_events (5 - S n)) as [ev Hev]; [cbn; lia|].
  rewrite (drop_S _ _ _ Hev). eapply day_event.
  - by apply nasdaq_allowed.
  - destruct (5 - S n)%nat as [|[|[|[|[|]]]]]; try discriminate; injection Hev as <-; try exact I.
    vm_compute. reflexivity.
  - by apply nasdaq_step.
  - replace (S (5 - S n))%nat with (5 - n)%nat by lia. apply IH. lia.
Qed.


(** What the exchange says of the order: the same, in bytes. *)
Definition nasdaq_token : list Z :=
  default [] (create_order_token_hpr (nasdaq_order <| o_localID := 1 |>) sample_ouch).
Definition nasdaq_accepted (id_token : list Z) (price : B) : Accepted :=
  mkAccepted (mkOMH 65 1000 id_token) BSI_BUY 300 (string_bytes "MSFT    ") (set_limit price)
    set_market_hours (string_bytes "I01X") 89 5555 65 ISO_NOT_ELIGIBLE 0 NO_CROSS STATE_LIVE 32.
Definition nasdaq_messages : list ExchangeMessage :=
  [XAccepted (nasdaq_accepted nasdaq_token (d_of_Z 20));
   XExecuted (mkExecuted (mkOMH 69 2000 nasdaq_token) 100 (set_limit (d_of_Z 20 : B)) 82 77);
   XCanceled (mkCanceled (mkOMH 67 3000 nasdaq_token) 200 85)].
Definition hear (ts : Timestamp) (om : OM) (x : ExchangeMessage) : res OM :=
  o ← get_order first_order om;
  match o_kind o with NASDAQOrder nq => xm_step first_order ts x nq o om | _ => Ok om end.
Definition nasdaq_heard (n : nat) : OM :=
  match foldM (hear (mkTs 34201 0)) (nasdaq_state 2) (take n nasdaq_messages) with
  | Ok om => om | Fail _ => nasdaq_om
  end.

(** Fields of the messages below. *)
Ltac nasdaq_field :=
  lazymatch goal with
  | |- c_valid (c_uint 1) _ => apply valid_byte; z_compute
  | |- c_valid (c_be 4) _ => apply valid_be32; z_compute
  | |- c_valid (c_be 8) _ => apply valid_be64; z_compute
  | |- c_valid (c_uint 4) _ =>
      apply valid_u32; cbn [ac_price ac_time_in_force ex_execution_price];
      lazymatch goal with |- in_u 32 (set_limit _) => apply set_limit_range | _ => z_compute end
  | |- c_valid (c_array _) _ => split; [reflexivity|apply string_bytes_are_bytes]
  | |- c_valid c_OrderToken _ => assumption
  | |- c_valid c_OMH _ => unfold c_OMH; valid_fields; nasdaq_field
  end.

Lemma nasdaq_accepted_valid token price : c_valid c_OrderToken token →
  hpr_marking token ≠ HPR_REJECTED → xm_valid (XAccepted (nasdaq_accepted token price)).
Proof.
  intros Ht Hm. split; [|split; [done|split; [by left|done]]]. cbn [xm_with].
  unfold c_Accepted, c_Stock, c_Firm, nasdaq_accepted. valid_fields; nasdaq_field.
Qed.

Lemma nasdaq_messages_valid : Forall xm_valid nasdaq_messages.
Proof.
  assert (c_valid c_OrderToken nasdaq_token /\ hpr_marking nasdaq_token ≠ HPR_REJECTED) as [Ht Hm].
  { split; [|vm_compute; discriminate]. split; [reflexivity|]. vm_compute.
    repeat constructor; discriminate. }
  apply Forall_cons. split; [by apply nasdaq_accepted_valid|].
  apply Forall_cons. split; [|apply Forall_singleton];
    (split; [cbn [xm_with]|split; [reflexivity|exact Hm]]).
  - unfold c_Executed. valid_fields; nasdaq_field.
  - unfold c_Canceled. valid_fields; nasdaq_field.
Qed.

Lemma nasdaq_answers x xs om : xm_valid x →
  session_get_order "NASDAQ1" (token_id (xm_token x)) om = Ok (Some first_order) →
  allowed (xm_event first_order (mkTs 34201 0) x) om →
  (∀ om1, hear (mkTs 34201 0) om x = Ok om1 → conversation (mkTs 34201 0) "NASDAQ1" om1 xs) →
  (match om_heap om !! first_order with
   | Some o => match o_kind o with NASDAQOrder _ => true | _ => false end
   | None => false
   end) = true →
  conversation (mkTs 34201 0) "NASDAQ1" om (x :: xs).
Proof.
  intros Hx Hg Hal Hc Hk. destruct (om_heap om !! first_order) as [o|] eqn:Ha; [|done].
  destruct (o_kind o) as [| nq | |] eqn:Hkind; try done.
  exists first_order, o, nq. split_and!; try done. intros om1 Hs. apply Hc. unfold hear, get_order. rewrite Ha.
  cbn [mbind res_bind]. by rewrite Hkind.
Qed.
Lemma nasdaq_conversation : conversation (mkTs 34201 0) "NASDAQ1" (nasdaq_state 2) nasdaq_messages.
Proof.
  pose proof nasdaq_messages_valid as Hv. unfold nasdaq_messages in *.
  apply Forall_cons in Hv as [V1 Hv]. apply Forall_cons in Hv as [V2 Hv].
  apply Forall_cons in Hv as [V3 _].
  apply nasdaq_answers; [exact V1|vm_compute; reflexivity| | |vm_compute; reflexivity].
  { eexists. split; [vm_compute; reflexivity|by split]. }
  intros om1 Hs. assert (om1 = nasdaq_heard 1) as -> by (vm_compute in Hs |- *; congruence). clear Hs.
  apply nasdaq_answers; [exact V2|vm_compute; reflexivity| | |vm_compute; reflexivity].
  { eexists. split; [vm_compute; reflexivity|]. split; [by do 2 eexists|z_compute]. }
  intros om1 Hs. assert (om1 = nasdaq_heard 2) as -> by (vm_compute in Hs |- *; congruence). clear Hs.
  apply nasdaq_answers; [exact V3|vm_compute; reflexivity| | |vm_compute; reflexivity].
  { eexists. split; [vm_compute; reflexivity|]. left. split; [by do 2 eexists|z_compute]. }
  intros om1 _. exact I.
Qed.

Lemma exchange_stream_drives_orders_witness :
  let stream := encode_stream (map xm_packet nasdaq_messages) in
  length stream = 143%nat
  /\ views (nasdaq_heard 3) !! first_order = Some (mkView 1 true 300 (Working 100 200))
  /\ ∃ s', session_on_recv (mkTs 34201 0) stream sample_ouch (nasdaq_state 2) = Ok (s', nasdaq_heard 3)
     /\ ou_last_seqnum_received s' = 3.
Proof.
  intros stream. split; [vm_compute; reflexivity|]. split; [vm_compute; reflexivity|].
  destruct (exchange_stream_drives_orders (mkTs 34201 0) nasdaq_messages sample_ouch
    (nasdaq_state 2)) as (s' & om' & Hr & _ & _ & _ & Hn & _).
  - apply reachable_invariant, nasdaq_reachable. lia.
  - vm_compute. reflexivity.
  - z_compute.
  - exact nasdaq_conversation.
  - exists s'. split; [|rewrite Hn; vm_compute; reflexivity]. fold stream in Hr. rewrite Hr. f_equal. f_equal.
    vm_compute in Hr. vm_compute. congruence.
Defined.

(** Accepted at 19.99 instead of 20: three dollars of exposure stay. *)
Definition repriced : Accepted := nasdaq_accepted nasdaq_token (d_lit 1999 100).
Definition cancelled_in_full : Canceled := mkCanceled (mkOMH 67 3000 nasdaq_token) 300 85.
Definition before_sending : OM := nasdaq_state 1.
Definition sent_buy : Order B := nasdaq_order <| o_localID := 1 |> <| o_session := Some "NASDAQ1" |> <| o_state := SENT |>.
Definition counted : OM :=
  match order_adds sent_buy 300 (put_order first_order sent_buy before_sending) with
  | Ok om => om | Fail _ => before_sending
  end.

Lemma repricing_leaks_open_exposure_witness :
  ∃ om1 om', handle_accepted (mkTs 34201 0) repriced first_order counted = Ok om1
    /\ handle_canceled (mkTs 34202 0) cancelled_in_full first_order om1 = Ok om'
    /\ long_exposure 1 om' = Some (d0 + d_of_Z 300 * d_of_Z 20 - d_of_Z 300 * get_limit (ac_price repriced))%dbl
    /\ ((d_lit 29 10 : B) <? d_of_Z 300 * d_of_Z 20 - d_of_Z 300 * get_limit (ac_price repriced))%dbl = true.
Proof.
  destruct (handle_accepted (mkTs 34201 0) repriced first_order counted) as [om1|] eqn:Hacc;
    [|vm_compute in Hacc; discriminate].
  destruct (handle_canceled (mkTs 34202 0) cancelled_in_full first_order om1) as [om'|] eqn:Hcxl.
  2: { vm_compute in Hacc. injection Hacc as <-. vm_compute in Hcxl. discriminate. }
  exists om1, om'. split; [done|]. split; [done|]. split; [|vm_compute; reflexivity].
  refine (repricing_leaks_open_exposure (mkTs 34201 0) (mkTs 34202 0) repriced cancelled_in_full
    (put_order first_order sent_buy before_sending) counted om1 om' first_order sent_buy d0
    _ _ _ _ _ Hacc _ Hcxl); vm_compute; reflexivity.
Defined.

(** A token that no order has. *)
Definition orphan_accepted : Accepted :=
  nasdaq_accepted (mk_token 73 (string_bytes "MSFT0") 9) (d_of_Z 20).

Lemma orphan_order_cannot_be_cancelled_witness :
  ∃ s' om' a o,
    handle_sequenced (mkTs 34201 0) (encode_packet (xm_packet (XAccepted orphan_accepted)) ++ [])
      (length (encode_packet (xm_packet (XAccepted orphan_accepted)))) sample_ouch nasdaq_om
    = Ok (s', om')
    /\ om_orders om' !! 9%nat = Some (Some a) /\ om_heap om' !! a = Some o
    /\ o_size o = 300 /\ o_state o = SENT /\ cancel (Some a) 0 om' = Ok (false, om').
Proof.
  destruct (orphan_order_cannot_be_cancelled (mkTs 34201 0) orphan_accepted [] sample_ouch nasdaq_om 1)
    as (s' & om' & a & o & Hr & Hslot & Ho & _ & Hsz & _ & Hst & _ & _ & Hc).
  - apply nasdaq_accepted_valid; [|vm_compute; discriminate]. split; [reflexivity|]. vm_compute.
    repeat constructor; discriminate.
  - exact (inv_ids _ (initial_invariant _ nasdaq_initial)).
  - vm_compute. split; reflexivity.
  - vm_compute. reflexivity.
  - vm_compute. reflexivity.
  - eexists. vm_compute. reflexivity.
  - exists s', om', a, o. by split_and!.
Defined.

Lemma modified_order_loses_its_token_witness :
  ∃ om' o', handle_modified (mkTs 34201 0) (mkModified (mkOMH 77 0 []) BSI_SHORT 300) 5
      (put_order 5 (nasdaq_order <| o_side := SELL |>) nasdaq_om) = Ok om'
    /\ om_heap om' !! 5 = Some o'
    /\ ∃ token', create_order_token_hpr o' sample_ouch = Some token'
       /\ token' ≠ mk_token 71 (string_bytes "MSFT0") 0.
Proof.
  destruct (modified_order_loses_its_token (mkTs 34201 0) (mkModified (mkOMH 77 0 []) BSI_SHORT 300)
    sample_ouch (put_order 5 (nasdaq_order <| o_side := SELL |>) nasdaq_om) 5
    (nasdaq_order <| o_side := SELL |>) (mk_token 71 (string_bytes "MSFT0") 0))
    as (om' & o' & token' & Hh & Ho & _ & Ht & Hne & _); [reflexivity..|vm_compute; reflexivity|].
  exists om', o'. split; [done|]. split; [done|]. by exists token'.
Defined.
