(* ===== verification/SimCorrect.v ===== *)
(** * What the simulated exchange guarantees

    Conservation of shares when market data crosses simulated orders and when an
    order arrives; the event queue is served in order and always drained; and
    where the simulation departs from an exchange. *)

From S2P Require Import Prelude Dbl StdMap Time Types Order Position Config Instrument.
From S2P Require Import FirmRisk OrderLog Blotter L2Book Session SimSession OrderManager.
From S2P Require Import SimMatching OrderInvariant OrderLifecycle.

(** ** Sizes *)

Section Sizes.
Context {D : Type} `{Dbl D}.
Implicit Types (so : SimOrder) (orders : list (D * SimOrder)).

(** Shares in a list of events, by what they answer. *)
Definition filled_by (q : list (Ordering * SimEvent D)) : Z :=
  list_sum_Z ((λ e, if bool_decide (se_state e.2 = FILLED) then se_size e.2 else 0) <$> q).
Definition answered_by (q : list (Ordering * SimEvent D)) : Z :=
  list_sum_Z ((λ e, if bool_decide (se_state e.2 = FILLED) || bool_decide (se_state e.2 = CANCELLED)
                    then se_size e.2 else 0) <$> q).
Definition resting orders : Z := list_sum_Z ((λ po, so_remains po.2) <$> orders).

Lemma filled_by_app q1 q2 : filled_by (q1 ++ q2) = filled_by q1 + filled_by q2.
Proof. unfold filled_by. by rewrite fmap_app, list_sum_Z_app. Qed.

(** The simulated order is known to the order manager, which has not been told less of
    it than is left. *)
Definition matchable_one (heap : gmap Z (Order D)) so : Prop :=
  0 <= so_remains so < 2 ^ 32 /\ ∃ op, heap !! so_order so = Some op
  /\ (OrderState_to_Z (o_state op) < OrderState_to_Z ACKNOWLEDGED → so_remains so <= o_size op).
Definition matchable heap orders : Prop := Forall (λ po, matchable_one heap po.2) orders.

Section Cross.
Context (heap : gmap Z (Order D)) (idx : Z) (check_price : Z → Order D → bool) (ref : D)
  (ts ack_at : Timestamp) (cxl_remainder : bool).

Lemma cxl_filled a n :
  filled_by (if cxl_remainder then [cxl_event idx ts ack_at a n] else [] : list (Ordering * SimEvent D)) = 0.
Proof. by destruct cxl_remainder. Qed.

Lemma fill_filled a n q : filled_by (fill_event idx ref ack_at a n :: q) = n + filled_by q.
Proof. done. Qed.

(** The shares a pass can fill: those of the orders at or better than its price with
    nothing ahead of them. *)
Definition fillable_one so : Z :=
  match heap !! so_order so with
  | Some op => if check_price (so_order so) op && (so_size_ahead so =? 0) then so_remains so else 0
  | None => 0
  end.
Definition fillable orders : Z := list_sum_Z ((λ po, fillable_one po.2) <$> orders).

Lemma cross_one_fills so v : 0 <= v < 2 ^ 32 → matchable_one heap so →
  ∃ keep q, cross_one heap idx regular check_price ref ts ack_at cxl_remainder so (mkAvail v 0)
      = Ok (keep, mkAvail (v - Z.min v (fillable_one so)) 0, q, Z.min v (fillable_one so))
    /\ filled_by q = Z.min v (fillable_one so)
    /\ so_remains so - Z.min v (fillable_one so) = match keep with Some so' => so_remains so' | None => 0 end.
Proof.
  intros Hv (Hso & op & Hop & Hsize). unfold cross_one, fillable_one, order_in, regular, avail_get, avail_remove.
  rewrite Hop. unfold mbind, res_bind. cbn [av_avail av_imbalance].
  destruct (check_price _ op); cbn [andb].
  2: { rewrite Z.min_r, !Z.sub_0_r by lia. do 2 eexists. rewrite cxl_filled. by split_and!. }
  destruct (Z.eqb_spec v 0) as [->|Hv0]; cbn [negb].
  { rewrite Z.min_l, Z.sub_0_r by (case_match; lia). do 2 eexists. rewrite cxl_filled, Z.sub_0_r. by split_and!. }
  destruct (so_size_ahead so =? 0).
  - assert (so_remains so <= (if OrderState_to_Z (o_state op) <? OrderState_to_Z ACKNOWLEDGED
                              then o_size op else so_remains so)) as Hopen
      by (destruct (Z.ltb_spec (OrderState_to_Z (o_state op)) (OrderState_to_Z ACKNOWLEDGED)); [by apply Hsize|lia]).
    unfold assert. rewrite (proj2 (Z.leb_le _ _) Hopen). cbn [so_remains]. rewrite (Z.min_comm v).
    remember (Z.min (so_remains so) v) as n eqn:En. assert (0 <= n <= v /\ n <= so_remains so) as Hn by lia.
    rewrite (wrap_small 32 (so_remains so - n)), (wrap_small 32 (v - n)) by (unfold in_u; lia).
    change (so_remains (so <| so_remains := so_remains so - n |>)) with (so_remains so - n).
    destruct (Z.eqb_spec (so_remains so - n) 0); do 2 eexists; (split; [done|]); cbn [app];
      rewrite fill_filled, ?cxl_filled; split; try done; unfold filled_by; cbn; lia.
  - rewrite Z.min_r, !Z.sub_0_r by lia.
    destruct (Z.eqb_spec (so_remains so) 0); do 2 eexists; (split; [done|]); cbn [app];
      rewrite ?cxl_filled; by split.
Qed.

Lemma cross_fills orders : ∀ v, 0 <= v < 2 ^ 32 → matchable heap orders →
  ∃ rest av q, cross_helper heap idx regular check_price ref ts ack_at cxl_remainder orders (mkAvail v 0)
      = Ok (rest, av, q, Z.min v (fillable orders))
    /\ filled_by q = Z.min v (fillable orders)
    /\ resting rest = resting orders - Z.min v (fillable orders).
Proof.
  induction orders as [|[p so] orders IH]; intros v Hv Hok; cbn [cross_helper].
  - do 3 eexists. rewrite Z.min_r by (cbn; lia). by split_and!.
  - apply Forall_cons in Hok as [Hso Hok]. cbn in Hso. unfold mbind, res_bind.
    destruct (cross_one_fills so v Hv Hso) as (keep & q1 & -> & Hq1 & Hkeep).
    assert (0 <= fillable_one so) as Hf1
      by (destruct Hso as [? _]; unfold fillable_one; repeat case_match; lia).
    assert (0 <= fillable orders) as Hf2.
    { clear -Hok. induction Hok as [|[p' so'] l (? & _) _ IH]; [done|]. cbn in *.
      change (0 <= fillable_one so' + fillable l). enough (0 <= fillable_one so') by lia.
      unfold fillable_one. repeat case_match; lia. }
    destruct (IH (v - Z.min v (fillable_one so)) ltac:(lia) Hok) as (rest & av & q2 & -> & Hq2 & Hrest).
    change (fillable ((p, so) :: orders)) with (fillable_one so + fillable orders).
    assert (Z.min v (fillable_one so) + Z.min (v - Z.min v (fillable_one so)) (fillable orders)
            = Z.min v (fillable_one so + fillable orders)) as Hsum by lia.
    do 3 eexists. rewrite Hsum, filled_by_app. split_and!; [done|lia|].
    change (resting ((p, so) :: orders)) with (so_remains so + resting orders).
    destruct keep as [so'|]; [|lia]. change (resting ((p, so') :: rest)) with (so_remains so' + resting rest). lia.
Qed.

(** ** Executions *)

Lemma front_range so n : 0 <= so_size_ahead so < 2 ^ 32 → 0 <= n →
  let '(so', amt) := reduce_size_from_front so n in
  amt = Z.min (so_size_ahead so) n /\ so_size_ahead so' = so_size_ahead so - amt
  /\ so_remains so' = so_remains so /\ so_order so' = so_order so.
Proof.
  intros Ha Hn. unfold reduce_size_from_front. split_and!; try done. cbn.
  apply (wrap_small 32). unfold in_u. lia.
Qed.

(** Nothing ahead of it: the order is filled to the last share. *)
Lemma exec_one_fills fuel : ∀ so v,
  so_size_ahead so = 0 → 0 < v < 2 ^ 32 → 0 < so_remains so < 2 ^ 32 →
  (Z.to_nat (so_remains so) <= fuel)%nat →
  ∃ q, exec_cross_one idx ref ack_at fuel so v = Some (None, v, q) /\ filled_by q = so_remains so.
Proof.
  induction fuel as [|fuel IH]; intros so v Ha Hv Hr Hf; [lia|]. cbn [exec_cross_one].
  pose proof (front_range so v ltac:(lia) ltac:(lia)) as Hfr.
  destruct (reduce_size_from_front so v) as [so1 amt]. destruct Hfr as (Hamt & Ha1 & Hr1 & Ho1).
  rewrite Ha in *. assert (amt = 0) as -> by lia. rewrite Z.sub_0_r, Hr1.
  rewrite (wrap_small 32 v) by (unfold in_u; lia). rewrite (proj2 (Z.eqb_neq v 0)) by lia.
  remember (Z.min (so_remains so) v) as n eqn:En. assert (0 < n <= so_remains so) as Hn by lia. clear En.
  rewrite (wrap_small 32 (so_remains so - n)) by (unfold in_u; lia).
  change (so_remains (so1 <| so_remains := so_remains so - n |>)) with (so_remains so - n).
  change (so_order (so1 <| so_remains := so_remains so - n |>)) with (so_order so1).
  destruct (Z.eqb_spec (so_remains so - n) 0).
  - eexists. split; [done|]. rewrite fill_filled. unfold filled_by. cbn. lia.
  - destruct (IH (so1 <| so_remains := so_remains so - n |>) v) as (q & -> & Hq);
      cbn [so_remains so_size_ahead]; try (cbn; lia).
    eexists. split; [done|]. rewrite fill_filled, Hq. cbn. lia.
Qed.

(** The loop always ends: every round fills a share or leaves nothing available. *)
Lemma exec_one_total fuel : ∀ so v,
  0 <= so_size_ahead so < 2 ^ 32 → 0 <= v < 2 ^ 32 → 0 <= so_remains so < 2 ^ 32 →
  (Z.to_nat (so_remains so) < fuel)%nat →
  ∃ keep v' q, exec_cross_one idx ref ack_at fuel so v = Some (keep, v', q) /\ 0 <= v' <= v.
Proof.
  induction fuel as [|fuel IH]; intros so v Ha Hv Hr Hf; [lia|]. cbn [exec_cross_one].
  pose proof (front_range so v Ha ltac:(lia)) as Hfr.
  destruct (reduce_size_from_front so v) as [so1 amt]. destruct Hfr as (Hamt & Ha1 & Hr1 & _).
  rewrite Hr1, (wrap_small 32 (v - amt)) by (unfold in_u; lia).
  destruct (Z.eqb_spec (v - amt) 0) as [|Hne]; [do 3 eexists; split; [done|lia]|].
  remember (Z.min (so_remains so) (v - amt)) as n eqn:En.
  rewrite (wrap_small 32 (so_remains so - n)) by (unfold in_u; lia).
  change (so_remains (so1 <| so_remains := so_remains so - n |>)) with (so_remains so - n).
  destruct (Z.eqb_spec (so_remains so - n) 0); [do 3 eexists; split; [done|lia]|].
  destruct (IH (so1 <| so_remains := so_remains so - n |>) (v - amt)) as (keep & v' & q & -> & Hv');
    try (cbn; lia).
  do 3 eexists. split; [done|]. lia.
Qed.

Definition estimates_ok (orders : list (D * SimOrder)) : Prop :=
  Forall (λ po, 0 <= so_size_ahead po.2 < 2 ^ 32 /\ 0 <= so_remains po.2 < 2 ^ 32
                /\ is_Some (heap !! so_order po.2)) orders.

(** An execution seen in the market is always matched against the simulated
    orders to the end: the loop that keeps returning to the same order
    terminates. *)
Theorem execution_matching_terminates orders v :
  0 <= v < 2 ^ 32 → estimates_ok orders →
  ∃ r, exec_cross_helper heap idx check_price ref ack_at orders v = Ok (Some r).
Proof.
  intros Hv Hok. revert v Hv. induction Hok as [|[p so] orders (Ha & Hr & [op Hop]) _ IH];
    intros v Hv; cbn [exec_cross_helper]; [by eexists|]. cbn in Ha, Hr, Hop.
  unfold order_in. rewrite Hop. unfold mbind, res_bind. case_if; [|by eexists].
  destruct (exec_one_total (exec_fuel so) so v) as (keep & v' & q & -> & Hv'); try lia.
  { unfold exec_fuel. lia. }
  destruct (IH v' ltac:(lia)) as [[[rest v2] q2] ->]. by eexists.
Qed.

(** An execution of one share fills a whole simulated order at or better
    than its price when nothing is ahead of it, and then the next one: the size
    executed is not used up by the fills it causes. *)
Theorem execution_overfills orders v :
  0 < v < 2 ^ 32 → estimates_ok orders →
  Forall (λ po, so_size_ahead po.2 = 0 /\ 0 < so_remains po.2
    /\ (∀ op, heap !! so_order po.2 = Some op → check_price (so_order po.2) op = true)) orders →
  ∃ q, exec_cross_helper heap idx check_price ref ack_at orders v = Ok (Some ([], v, q))
    /\ filled_by q = resting orders.
Proof.
  intros Hv Hok Hall. induction Hok as [|[p so] orders (_ & Hr & [op Hop]) _ IH];
    cbn [exec_cross_helper]; [by eexists|]. apply Forall_cons in Hall as [(Ha & Hpos & Hc) Hall].
  cbn in Ha, Hr, Hop, Hc, Hpos. unfold order_in. rewrite Hop. unfold mbind, res_bind.
  rewrite (Hc op Hop).
  destruct (exec_one_fills (exec_fuel so) so v) as (q & -> & Hq); try lia; [unfold exec_fuel; lia|].
  destruct (IH Hall) as (q2 & -> & Hq2). eexists. split; [done|].
  rewrite filled_by_app, Hq, Hq2. done.
Qed.
End Cross.

(** ** Trades *)

Lemma set_book_books i be (s : L2SimSession D) : sim_books (set_book i be s) = <[Z.to_nat i := be]> (sim_books s).
Proof. done. Qed.

Section Trade.
Context (heap : gmap Z (Order D)) (imb_only : Z → bool).
Implicit Types (s : L2SimSession D) (be : BookEntry D).

(** What a trade fills on either side: of the asks only when it fills nothing of the
    bids, and nothing when its number was recorded. *)
Definition trade_fills evt be : Z * Z :=
  let px := to_double (te_price evt) in
  let v := u32 (te_size evt) in
  let b := Z.min v (fillable heap (λ _ o, px <=? o_price o)%dbl (be_bids be)) in
  if bool_decide (te_trade_id evt ∈ be_trades be) then (0, 0)
  else if b =? 0 then (0, Z.min v (fillable heap (λ _ o, o_price o <=? px)%dbl (be_asks be))) else (b, 0).

Lemma fillable_nonneg check orders : matchable heap orders → 0 <= fillable heap check orders.
Proof.
  intros Hok. induction Hok as [|[p so] l (? & _) _ IH]; [done|]. cbn in *.
  change (0 <= fillable_one heap check so + fillable heap check l).
  enough (0 <= fillable_one heap check so) by lia. unfold fillable_one. repeat case_match; lia.
Qed.

(** One pass of a trade over one side. *)
Lemma trade_cross check px evt orders s : matchable heap orders →
  ∃ rest q, cross heap (br_symbol_index (te_book evt)) regular check px (te_timestamp evt) false
              orders (mkAvail (u32 (te_size evt)) 0) s
      = Ok (rest, Z.min (u32 (te_size evt)) (fillable heap check orders), emplace_all q s)
    /\ filled_by q = Z.min (u32 (te_size evt)) (fillable heap check orders)
    /\ resting rest = resting orders - Z.min (u32 (te_size evt)) (fillable heap check orders).
Proof.
  intros Hok. destruct (cross_fills heap (br_symbol_index (te_book evt)) check px (te_timestamp evt)
    (ts_plus (te_timestamp evt) (sim_ack_latency s)) false orders (u32 (te_size evt))
    (wrap_range 32 _ ltac:(lia)) Hok) as (rest & av & q & Hc & Hq & Hr).
  exists rest, q. split; [|done]. unfold cross, mbind, res_bind. by rewrite Hc.
Qed.

(** C33: A trade printed in continuous trading fills what it can of the simulated
    orders that are at or better than its price with nothing ahead of them, up to the
    size traded and no further: of the bids, or when none of them is filled of the
    asks, so that both sides together get no more than was traded.  The fills queued
    add up to that number, what the orders of that side have left decreases by it,
    and those of the other side keep what they had left; a trade whose number is
    recorded fills nothing.  The trade is of a stock and market that the session has,
    its size is taken modulo 2^32, and its orders are known to the order manager with
    no more left than their size ([matchable]).  (Crosses, the prints of an auction,
    fill up to their size on each side; the handler of executions is not bounded by
    the size executed, [execution_overfills].) *)
Theorem trade_fills_at_most_its_size evt be s :
  br_mic (te_book evt) = sim_mic s → find_book_entry (te_book evt) s = Some be →
  te_cross evt = false → matchable heap (be_bids be) → matchable heap (be_asks be) →
  let '(b, a) := trade_fills evt be in
  0 <= b /\ 0 <= a /\ b + a <= u32 (te_size evt)
  /\ ∃ s' be' q, on_trade heap imb_only evt s = Ok s'
    /\ sim_eventq s' = sim_eventq s ++ q /\ filled_by q = b + a
    /\ sim_books s' !! Z.to_nat (br_symbol_index (te_book evt)) = Some be'
    /\ resting (be_bids be') = resting (be_bids be) - b
    /\ resting (be_asks be') = resting (be_asks be) - a.
Proof.
  intros Hmic Hbe Hcross Hbids Hasks. unfold trade_fills, on_trade, on_book.
  set (px := to_double (te_price evt)).
  change (λ (_ : Z) o, (px <=? o_price o)%dbl) with (PriceGE px).
  change (λ (_ : Z) o, (o_price o <=? px)%dbl) with (PriceLE px). subst px.
  rewrite (bool_decide_true _ Hmic), Hbe, Hcross. cbn [negb]. unfold mbind, res_bind.
  assert (is_Some (sim_books s !! Z.to_nat (br_symbol_index (te_book evt)))) as Hin%lookup_lt_is_Some.
  { unfold find_book_entry in Hbe. destruct (_ !! _); [by eexists|done]. }
  pose proof (fillable_nonneg (PriceGE (to_double (te_price evt))) _ Hbids) as Hfb.
  pose proof (fillable_nonneg (PriceLE (to_double (te_price evt))) _ Hasks) as Hfa.
  pose proof (wrap_range 32 (te_size evt) ltac:(lia)) as Hv. unfold in_u in Hv.
  assert (∀ be' (s' : L2SimSession D) q b a, b + a <= u32 (te_size evt) → 0 <= b → 0 <= a →
    sim_eventq s' = sim_eventq s ++ q → sim_books s' = sim_books s → filled_by q = b + a →
    resting (be_bids be') = resting (be_bids be) - b → resting (be_asks be') = resting (be_asks be) - a →
    0 <= b /\ 0 <= a /\ b + a <= u32 (te_size evt) /\ ∃ s2 be2 q,
      Ok (set_book (br_symbol_index (te_book evt)) be' s') = Ok s2
      /\ sim_eventq s2 = sim_eventq s ++ q /\ filled_by q = b + a
      /\ sim_books s2 !! Z.to_nat (br_symbol_index (te_book evt)) = Some be2
      /\ resting (be_bids be2) = resting (be_bids be) - b
      /\ resting (be_asks be2) = resting (be_asks be) - a) as Hdone.
  { intros be' s' q b a Hba Hb Ha Hq Hbooks Hf Hrb Hra. split_and!; try done. eexists. exists be', q. split; [done|].
    rewrite set_book_books, Hbooks. split_and!; try done. by apply list_lookup_insert_eq. }
  case_bool_decide; [apply (Hdone be s []); rewrite ?app_nil_r, ?Z.sub_0_r; done || lia|].
  destruct (decide (be_bids be = [] /\ be_asks be = [])) as [[Eb Ea]|Hne].
  { rewrite Eb, Ea in Hdone |- *. rewrite !Z.min_r by (cbn; lia).
    apply (Hdone _ s []); cbn; rewrite ?app_nil_r, ?Eb, ?Ea; done || lia. }
  assert (∀ A (x y : A), match be_bids be, be_asks be with [], [] => x | _, _ => y end = y) as Hm
    by (intros; clear -Hne; destruct (be_bids be), (be_asks be); naive_solver).
  rewrite Hm. clear Hm Hne.
  destruct (trade_cross (PriceGE (to_double (te_price evt))) (to_double (te_price evt)) evt _ s Hbids)
    as (bids & qb & -> & Hqb & Hrb).
  destruct (Z.eqb_spec (u32 (te_size evt) `min` fillable heap (PriceGE (to_double (te_price evt))) (be_bids be)) 0)
    as [Hz|Hz]; cbn [negb]; [|apply (Hdone _ (emplace_all qb s) qb); rewrite ?Z.sub_0_r, ?Z.add_0_r; done || lia].
  destruct (trade_cross (PriceLE (to_double (te_price evt))) (to_double (te_price evt)) evt _ (emplace_all qb s) Hasks)
    as (asks & qa & Ha & Hqa & Hra).
  change (be_asks (be <| be_bids := bids |>)) with (be_asks be). rewrite Ha.
  rewrite Hz in Hqb, Hrb. rewrite Z.sub_0_r in Hrb.
  apply (Hdone _ _ (qb ++ qa)); rewrite ?filled_by_app, ?Z.sub_0_r, ?Hqb; first [done | lia | cbn; by rewrite app_assoc].
Qed.
End Trade.

(** ** Arrivals *)

Lemma answered_by_app q1 q2 : answered_by (q1 ++ q2) = answered_by q1 + answered_by q2.
Proof. unfold answered_by. by rewrite fmap_app, list_sum_Z_app. Qed.

Section Arrival.
Context (ts : Timestamp) (a idx : Z) (op : Order D).
Implicit Types (s : L2SimSession D) (be : BookEntry D).

(** Its side of the book. *)
Definition own_order : D → D → bool := if bool_decide (o_side op = BUY) then bid_order else ask_order.
Definition own_side be : list (D * SimOrder) := if bool_decide (o_side op = BUY) then be_bids be else be_asks be.
Definition with_own_side b be : BookEntry D :=
  if bool_decide (o_side op = BUY) then be <| be_bids := b |> else be <| be_asks := b |>.
(** In [be'] the order rests at its price with [r] shares, behind what the book of the
    market shows there; all else is as in [be]. *)
Record rests (bb : BookBase) (r : Z) be be' : Prop := mkRests {
  rs_found : sm_find own_order (o_price op) (own_side be')
    = Some (mkSimOrder a (q_size (if bool_decide (o_side op = BUY) then bb_l2_bid bb (to_fixed (o_price op))
                                  else bb_l2_ask bb (to_fixed (o_price op)))) 0 r);
  rs_others p : same_key own_order p (o_price op) = false →
    sm_find own_order p (own_side be') = sm_find own_order p (own_side be);
  rs_shares : resting (own_side be') = resting (own_side be) + r;
  rs_rest : be' = with_own_side (own_side be') be
}.
Lemma emplace_free (lt : D → D → bool) k (v : SimOrder) m : lt k k = false → sm_find lt k m = None →
  sm_find lt k (sm_emplace lt k v m) = Some v
  /\ (∀ p, same_key lt p k = false → sm_find lt p (sm_emplace lt k v m) = sm_find lt p m)
  /\ resting (sm_emplace lt k v m) = resting m + so_remains v.
Proof.
  intros Hk. assert (same_key lt k k = true) as Hkk by (unfold same_key; by rewrite Hk).
  induction m as [|[k' v'] m IH]; cbn [sm_find sm_emplace].
  - intros _. rewrite Hkk. split_and!; [done|by intros p ->|unfold resting; cbn; lia].
  - destruct (same_key lt k k') eqn:Hs; [done|]. intros Hm. destruct (IH Hm) as (H1 & H2 & H3).
    destruct (lt k k'); cbn [sm_find].
    + rewrite Hkk. split_and!; [done|by intros p ->|unfold resting; cbn; lia].
    + rewrite Hs. split_and!; [done| |unfold resting in *; cbn; lia].
      intros p Hp. case_if; [done|]. by apply H2.
Qed.
Lemma posted bb r be : (o_price op <? o_price op)%dbl = false →
  sm_find own_order (o_price op) (own_side be) = None →
  rests bb r be (with_own_side (sm_emplace own_order (o_price op) (mkSimOrder a (q_size
    (if bool_decide (o_side op = BUY) then bb_l2_bid bb (to_fixed (o_price op))
     else bb_l2_ask bb (to_fixed (o_price op)))) 0 r) (own_side be)) be).
Proof.
  intros Hp Hf. assert (own_order (o_price op) (o_price op) = false) as Hk by (unfold own_order; by case_if).
  destruct (emplace_free own_order (o_price op) (mkSimOrder a (q_size
    (if bool_decide (o_side op = BUY) then bb_l2_bid bb (to_fixed (o_price op))
     else bb_l2_ask bb (to_fixed (o_price op)))) 0 r) (own_side be) Hk Hf) as (H1 & H2 & H3).
  assert (∀ b, own_side (with_own_side b be) = b) as Ho by (intros b; unfold own_side, with_own_side; by case_if).
  split; rewrite ?Ho; first [exact H1 | exact H2 | exact H3 | done].
Qed.
(** Not to rest: market orders and immediate-or-cancel limit orders. *)
Definition immediate : bool :=
  is_market op || (bool_decide (o_type op = LIMIT) && is_ioc op).

(** [q] was queued and [r] shares are left, nothing else changed. *)
Definition so_far s s' (q : list (Ordering * SimEvent D)) (r : Z) : Prop :=
  sim_eventq s' = sim_eventq s ++ q /\ answered_by q + r = o_size op /\ 0 <= r
  /\ sim_books s' = sim_books s.

Ltac ans := first [exact (Z.add_0_r _) | reflexivity].

Lemma emplace_so_far k e s s' q r n : so_far s s' q r →
  answered_by [(k, e)] = n → n <= r → so_far s (emplace k e s') (q ++ [(k, e)]) (r - n).
Proof.
  intros (Eq & Es & Hr & Eb) <- Hn. unfold so_far. rewrite answered_by_app. split_and!; try lia; try done.
  cbn. rewrite Eq. by rewrite app_assoc.
Qed.

Lemma turned_away_so_far s s' q r : so_far s s' q r →
  ∃ q', so_far s (turned_away ts a idx r s') q' 0.
Proof.
  intros Hs. eexists. replace 0 with (r - r) by lia. eapply emplace_so_far; [done|ans|lia].
Qed.

Lemma cross_quote_so_far lt own quote meets s :
  0 <= o_size op < 2 ^ 32 → 0 <= q_size quote →
  match cross_quote ts a idx op lt own quote meets s with
  | Return s' => ∃ q, so_far s s' q 0
  | GotoCancel => True
  | Next r s' => (∃ q, so_far s s' q r) /\ sm_find lt (o_price op) own = None
  end.
Proof.
  intros Hsz Hq. unfold cross_quote. destruct (bool_decide _) eqn:Hown; [done|].
  assert (sm_find lt (o_price op) own = None) as Hfree.
  { apply bool_decide_eq_false in Hown. destruct (sm_find lt (o_price op) own); [|done]. destruct Hown. by eexists. }
  clear Hown. case_if.
  - remember (Z.min (o_size op) (q_size quote)) as n eqn:En.
    assert (0 <= n <= o_size op) as Hn by lia. clear En.
    rewrite (wrap_small 32) by (unfold in_u; lia).
    assert (so_far s s [] (o_size op)) as H0 by (unfold so_far; cbn; rewrite app_nil_r; split_and!; done || lia).
    pose proof (emplace_so_far (at_time (ts_plus ts (sim_ack_latency s))) (ack_event a idx) _ _ _ _ 0
      H0 eq_refl ltac:(lia)) as H1. rewrite Z.sub_0_r in H1.
    pose proof (emplace_so_far (mkOrdering (ts_plus ts (sim_ack_latency s)) 1)
      (sim_event FILLED a idx n (price_as_double quote) ts) _ _ _ _ n H1 ltac:(ans) ltac:(lia)) as H2.
    case_if; [|split; [by eexists|done]]. eexists. replace 0 with (o_size op - n - (o_size op - n)) by lia.
    eapply emplace_so_far; [exact H2|ans|lia].
  - split; [|done]. exists []. unfold so_far. cbn. rewrite app_nil_r. split_and!; done || lia.
Qed.

(** C31: When an order to buy or to sell reaches the simulated exchange in continuous
    trading, every share of it is accounted for: what is filled, what is cancelled
    and what rests add up to its size.  What rests is then in its side of the book
    at its price, behind the shares the market shows there, with every other order
    left where it was; a market or an immediate-or-cancel order never rests.
    Its price is a number, its size one of 32 bits, the stock one the session has, and
    the quotes of the market are of no negative size. *)
Theorem arriving_order_accounted_for be bb s :
  o_side op ≠ SIDE_UNKNOWN → 0 <= o_size op < 2 ^ 32 → (o_price op <? o_price op)%dbl = false →
  0 <= q_size (fq_ask (bb_best bb)) → 0 <= q_size (fq_bid (bb_best bb)) →
  sim_books s !! Z.to_nat idx = Some be →
  let s' := arrive_continuous ts a idx op be bb s in
  ∃ q r, sim_eventq s' = sim_eventq s ++ q
    /\ answered_by q + r = o_size op /\ 0 <= r
    /\ if r =? 0 then sim_books s' = sim_books s
       else immediate = false
         /\ (∀ i, i ≠ Z.to_nat idx → sim_books s' !! i = sim_books s !! i)
         /\ ∃ be', sim_books s' !! Z.to_nat idx = Some be' /\ rests bb r be be'.
Proof.
  intros Hside Hsz Hpx Hask Hbid Hbe s'. subst s'. unfold arrive_continuous.
  assert (so_far s s [] (o_size op)) as H0
    by (unfold so_far; cbn; rewrite app_nil_r; split_and!; done || lia).
  match goal with |- context [match ?x with Return _ => _ | _ => _ end] => set (flow := x) end.
  assert (match flow with
          | Return s' => ∃ q, so_far s s' q 0 | GotoCancel => True
          | Next r s' => (∃ q, so_far s s' q r) /\ sm_find own_order (o_price op) (own_side be) = None end) as Hflow.
  { subst flow. unfold own_order, own_side. case_bool_decide as Hb; [by apply cross_quote_so_far|].
    match goal with |- context [if ?b then _ else _] => destruct b eqn:Hs end; [by apply cross_quote_so_far|]. exfalso. clear -Hside Hb Hs. by destruct (o_side op). }
  set (good s' := ∃ q r, sim_eventq s' = sim_eventq s ++ q /\ answered_by q + r = o_size op /\ 0 <= r
    /\ if r =? 0 then sim_books s' = sim_books s
       else immediate = false /\ (∀ i, i ≠ Z.to_nat idx → sim_books s' !! i = sim_books s !! i)
         /\ ∃ be', sim_books s' !! Z.to_nat idx = Some be' /\ rests bb r be be').
  change (good (match flow with
    | Return s => s
    | GotoCancel => turned_away ts a idx (o_size op) s
    | Next r s => if r =? 0 then s else if immediate then turned_away ts a idx r s else post ts a idx op be bb r s
    end)).
  assert (∀ s' q, so_far s s' q 0 → good s') as Hdone by (intros s' q (?&?&?&?); by exists q, 0).
  clearbody flow. destruct flow as [s'| |r s'].
  - destruct Hflow as [q Hq]. by eapply Hdone.
  - destruct (turned_away_so_far _ _ _ _ H0) as [q Hq]. by eapply Hdone.
  - destruct Hflow as [[q Hq] Hfree]. destruct (Z.eqb_spec r 0) as [->|Hr]; [by eapply Hdone|].
    destruct immediate eqn:Him.
    { destruct (turned_away_so_far _ _ _ _ Hq) as [q' Hq']. by eapply Hdone. }
    assert (∃ q', so_far s (if r =? o_size op
        then emplace (at_time (ts_plus ts (sim_ack_latency s'))) (ack_event a idx) s' else s') q' r)
      as [q' Hq'].
    { case_if; [|by exists q].
      pose proof (emplace_so_far (at_time (ts_plus ts (sim_ack_latency s'))) (ack_event a idx)
        _ _ _ _ 0 Hq eq_refl ltac:(by destruct Hq as (_ & _ & ? & _))) as Hx.
      rewrite Z.sub_0_r in Hx. by eexists. }
    unfold post. set (s2 := if r =? o_size op then _ else s') in *. clearbody s2.
    destruct Hq' as (Eq & Es & Hr' & Eb). pose proof (posted bb r be Hpx Hfree) as Hrests. exists q', r.
    split; [done|]. split; [done|]. split; [done|]. rewrite (proj2 (Z.eqb_neq r 0)) by done. split; [done|].
    apply lookup_lt_Some in Hbe. rewrite set_book_books, Eb. split.
    + intros i Hi. by rewrite list_lookup_insert_ne by done.
    + eexists. split; [by apply list_lookup_insert_eq|]. revert Hrests. unfold with_own_side, own_order, own_side. by case_if.
Qed.
End Arrival.

(** ** The event queue *)

(** How many events an event can lead to, itself included. *)
Definition event_weight (se : SimEvent D) : Z :=
  match se_state se with SENT => 4 | PENDING_CANCEL => 2 | _ => 1 end.
Definition queue_weight (q : list (Ordering * SimEvent D)) : Z :=
  list_sum_Z ((λ e, event_weight e.2) <$> q).

Lemma queue_weight_app q1 q2 : queue_weight (q1 ++ q2) = queue_weight q1 + queue_weight q2.
Proof. unfold queue_weight. by rewrite fmap_app, list_sum_Z_app. Qed.
Lemma queue_weight_nonneg q : 0 <= queue_weight q.
Proof.
  unfold queue_weight. induction q as [|[k e] q IH]; [done|]. cbn.
  unfold event_weight at 1. destruct (se_state e); lia.
Qed.
Lemma queue_weight_delete q i e : q !! i = Some e →
  queue_weight (delete i q) = queue_weight q - event_weight e.2.
Proof.
  intros Hi. rewrite <- (take_drop_middle q i e Hi) at 2. rewrite delete_take_drop.
  rewrite !queue_weight_app. unfold queue_weight. cbn. lia.
Qed.

(** [s'] has queued answers (not further requests) of weight at most [n]. *)
Definition queued (n : Z) (s s' : L2SimSession D) : Prop :=
  ∃ q, sim_eventq s' = sim_eventq s ++ q /\ queue_weight q <= n.
Lemma queued_same n s s' : sim_eventq s' = sim_eventq s → 0 <= n → queued n s s'.
Proof. intros E Hn. exists []. by rewrite app_nil_r. Qed.
Lemma queued_emplace n s s' k e : queued n s s' → event_weight e = 1 →
  queued (n + 1) s (emplace k e s').
Proof.
  intros (q & E & Hq) He. exists (q ++ [(k, e)]). cbn. rewrite E, app_assoc. split; [done|].
  rewrite queue_weight_app. unfold queue_weight at 2. cbn. lia.
Qed.
Lemma queued_books n s s' b : queued n s s' → queued n s (s' <| sim_books := b |>).
Proof. done. Qed.
Lemma queued_weaken n m s s' : queued n s s' → n <= m → queued m s s'.
Proof. intros (q & ? & ?) ?. exists q. split; [done|lia]. Qed.

Lemma cross_quote_queued ts a idx op lt own quote meets s :
  match cross_quote ts a idx op lt own quote meets s with
  | Return s' => queued 3 s s' | GotoCancel => True | Next _ s' => queued 2 s s'
  end.
Proof.
  unfold cross_quote. assert (queued 0 s s) by (by apply queued_same).
  case_if; [done|]. case_if; [|by apply queued_same].
  assert (∀ k1 e1 k2 e2, event_weight e1 = 1 → event_weight e2 = 1 →
    queued 2 s (emplace k2 e2 (emplace k1 e1 s))) as H2
    by (intros; apply (queued_emplace 1); [apply (queued_emplace 0)|]; done).
  case_if; [apply (queued_emplace 2); [|done]|]; by apply H2.
Qed.

Lemma arrive_queued ts a idx op be bb s :
  queued 3 s (arrive_continuous ts a idx op be bb s).
Proof.
  unfold arrive_continuous.
  match goal with |- context [match ?x with Return _ => _ | _ => _ end] => set (flow := x) end.
  assert (match flow with
          | Return s' => queued 3 s s' | GotoCancel => True | Next _ s' => queued 2 s s'
          end) as Hflow.
  { subst flow. repeat case_if; [by apply cross_quote_queued..|]. by apply queued_same. }
  clearbody flow. destruct flow as [s'| |r s']; [done| |].
  - apply (queued_weaken 1); [|lia]. by apply (queued_emplace 0); [apply queued_same|].
  - case_if; [by apply (queued_weaken 2)|].
    case_if; [by apply (queued_emplace 2)|]. unfold post. apply queued_books.
    case_if; [by apply (queued_emplace 2)|by apply (queued_weaken 2)].
Qed.

Lemma on_order_sent_queued books ts a idx op s s' :
  on_order_sent books ts a idx op s = Ok s' → queued 3 s s'.
Proof.
  unfold on_order_sent. set (s1 := s <| sim_orders := _ |>).
  assert (∀ n s2, queued n s1 s2 → queued n s s2) as H1 by done.
  assert (∀ r, queued 3 s1 (turned_away ts a idx r s1)) as Hturn.
  { intros r. apply (queued_weaken 1); [|lia]. by apply (queued_emplace 0); [apply queued_same|]. }
  clearbody s1. destruct (sim_books s1 !! Z.to_nat idx) as [be|]; [|done].
  intros Hr. apply H1. case_if; [by injection Hr as <-|]. case_if.
  - injection Hr as <-. unfold arrive_auction. case_if; [done|]. apply (queued_weaken 1); [|lia].
    by apply (queued_emplace 0); [by apply queued_same|].
  - destruct (be_book be); injection Hr as <-; [apply arrive_queued|done].
Qed.

Lemma pending_cancel_queued ts a op se s s' :
  on_order_pending_cancel ts a op se s = Ok s' → queued 1 s s'.
Proof.
  intros Hr.
  assert (∀ k e s1, event_weight e = 1 → sim_eventq s1 = sim_eventq s →
    queued 1 s (emplace k e s1)) as He
    by (intros k e s1 ? ?; by apply (queued_emplace 0); [apply queued_same|]).
  unfold on_order_pending_cancel in Hr. destruct (sim_orders s !! o_localID op) as [a'|].
  - destruct (o_state op); cbn in Hr; try (injection Hr as <-; by apply He).
    all: destruct (sim_books s !! Z.to_nat (se_esi se)) as [be|]; [|done].
    all: apply res_bind_Ok in Hr as ([n be'] & _ & Hr).
    all: destruct (n =? 0); injection Hr as <-; by apply He.
  - injection Hr as <-. by apply He.
Qed.
End Sizes.

(** ** The order manager keeps the sessions *)

Section Sessions.
Context {D S : Type} `{Dbl D} `{OrderSession D S}.
Implicit Types (om : OrderManager D S).

Definition keeps_sessions (r : res (OrderManager D S)) om : Prop :=
  ∀ om', r = Ok om' → om_sessions om' = om_sessions om.

Lemma keeps_ok om om' : om_sessions om' = om_sessions om → keeps_sessions (Ok om') om.
Proof. by intros ? ? [= <-]. Qed.
Lemma keeps_bind {A} (r : res A) f om :
  (∀ x, r = Ok x → keeps_sessions (f x) om) → keeps_sessions (r ≫= f) om.
Proof. intros Hf om' (x & Hx & Hr)%res_bind_Ok. by eapply Hf. Qed.
Lemma keeps_trans r f om : keeps_sessions r om →
  (∀ om1, keeps_sessions (f om1) om1) → keeps_sessions (r ≫= f) om.
Proof.
  intros Hr Hf. apply keeps_bind. intros om1 E om' E'.
  rewrite (Hf om1 om' E'). by apply Hr.
Qed.
Lemma keeps_firm_event esi g om : keeps_sessions (firm_event esi g om) om.
Proof. apply keeps_bind. intros i _. apply keeps_bind. intros [f p] _. by apply keeps_ok. Qed.
Lemma keeps_report ev o m om : om_sessions (notify ev o (blot m om)) = om_sessions om.
Proof. unfold notify. by case_match. Qed.

Lemma on_acknowledged_sessions p x n ts xts om : keeps_sessions (on_acknowledged p x n ts xts om) om.
Proof.
  destruct p as [a|]; [|by apply keeps_ok]. apply keeps_bind. intros o _.
  apply keeps_bind. intros m _. apply keeps_ok. by rewrite keeps_report.
Qed.
Lemma on_cancel_rejected_sessions p ts xts om : keeps_sessions (on_cancel_rejected p ts xts om) om.
Proof.
  destruct p as [a|]; [|by apply keeps_ok]. apply keeps_bind. intros o _.
  apply keeps_bind. intros m _. apply keeps_ok. by rewrite keeps_report.
Qed.
(** Locates and firm risk, then the report. *)
Lemma keeps_answer (f g : OrderManager D S → res (OrderManager D S)) (lm : res (Message D)) ev o om :
  (∀ om, keeps_sessions (f om) om) → (∀ om, keeps_sessions (g om) om) →
  keeps_sessions (om ← f om; om ← g om; m ← lm; Ok (notify ev o (blot m om))) om.
Proof.
  intros Hf Hg. apply keeps_trans; [apply Hf|]. intros om1.
  apply keeps_trans; [apply Hg|]. intros om2. apply keeps_bind. intros m _.
  apply keeps_ok. by rewrite keeps_report.
Qed.
Lemma on_fill_sessions p n px ts xts fc om : keeps_sessions (on_fill p n px ts xts fc om) om.
Proof.
  destruct p as [a|]; [|by apply keeps_ok]. apply keeps_bind. intros o _.
  apply (keeps_answer _ _ _ _ _ (put_order a _ om)); intros om1; [|apply keeps_firm_event].
  apply keeps_bind. intros i _. cbv beta zeta. case_if; by apply keeps_ok.
Qed.
Lemma on_cancel_sessions p n ts xts om : keeps_sessions (on_cancel p n ts xts om) om.
Proof.
  destruct p as [a|]; [|by apply keeps_ok]. apply keeps_bind. intros o _.
  apply (keeps_answer _ _ _ _ _ (put_order a _ om)); intros om1; [|apply keeps_firm_event].
  apply keeps_bind. intros i _. cbv beta zeta. case_if; by apply keeps_ok.
Qed.
End Sessions.

(** ** Serving the queue *)

Lemma ts_gtb_false_trans a b c : ts_gtb a b = false → ts_gtb b c = false → ts_gtb a c = false.
Proof.
  unfold ts_gtb, ts_leb, ts_eqb, ts_ltb. rewrite ?negb_false_iff, ?orb_true_iff, ?andb_true_iff,
    ?orb_true_iff, ?andb_true_iff, ?Z.eqb_eq, ?Z.ltb_lt. lia.
Qed.

Section Queue.
Context {D : Type} `{Dbl D}.
Context (name : string) (books : Z → BookBase) (top : list (Ordering * SimEvent D) → nat).
Implicit Types (om : OrderManager D (L2SimSession D)).

(** What a priority queue promises: an element that none precedes. *)
Definition queue_top : Prop :=
  ∀ q, q ≠ [] → ∃ e, q !! top q = Some e /\ Forall (λ e', served_after e.1 e'.1 = false) q.

(** The session after an event has been served. *)
Definition serves_to (se : SimEvent D) s om : Prop :=
  ∃ s' q, om_sessions om !! name = Some s' /\ sim_eventq s' = sim_eventq s ++ q
    /\ queue_weight q < event_weight se.

Lemma on_session_serves se (f : L2SimSession D → res (L2SimSession D)) n s om om' :
  om_sessions om !! name = Some s → (∀ s', f s = Ok s' → queued n s s') → n < event_weight se →
  on_session name f om = Ok om' → serves_to se s om'.
Proof.
  intros Hs Hf Hn. unfold on_session, get_session_ref. rewrite Hs. cbn [mbind res_bind].
  intros (s' & Hs' & [= <-])%res_bind_Ok. destruct (Hf s' Hs') as (q & E & Hq).
  exists s', q. cbn. rewrite lookup_insert_eq. split_and!; [done|done|lia].
Qed.

Lemma kept_serves se s om om' : om_sessions om !! name = Some s →
  om_sessions om' = om_sessions om → serves_to se s om'.
Proof.
  intros Hs E. exists s, []. rewrite E, app_nil_r. split_and!; [done|done|].
  unfold queue_weight, event_weight. cbn. destruct (se_state se); lia.
Qed.

(** Taking an order out of the session's records. *)
Lemma forget_serves se s om om' id : om_sessions om !! name = Some s →
  om_sessions om' = <[name := s <| sim_orders := delete id (sim_orders s) |>]> (om_sessions om) →
  serves_to se s om'.
Proof.
  intros Hs E. exists (s <| sim_orders := delete id (sim_orders s) |>), [].
  rewrite E, lookup_insert_eq, app_nil_r. split_and!; [done|done|].
  unfold queue_weight, event_weight. cbn. destruct (se_state se); lia.
Qed.

Lemma filled_serves ts se s om om' : om_sessions om !! name = Some s →
  on_order_filled name ts se om = Ok om' → serves_to se s om'.
Proof.
  intros Hs. unfold on_order_filled.
  intros (o & _ & (_ & _ & (_ & _ & (om1 & Hom1 & (o1 & _ & Hr)%res_bind_Ok)%res_bind_Ok)%res_bind_Ok)%res_bind_Ok)%res_bind_Ok.
  apply on_fill_sessions in Hom1. case_if.
  - unfold on_session, get_session_ref in Hr. rewrite Hom1, Hs in Hr. cbn in Hr. apply Ok_inj in Hr as <-.
    eapply forget_serves; [done|]. cbn. by rewrite Hom1.
  - apply Ok_inj in Hr as <-. by eapply kept_serves.
Qed.

Lemma cancelled_serves ts se s om om' : om_sessions om !! name = Some s →
  on_order_cancelled name ts se om = Ok om' → serves_to se s om'.
Proof.
  intros Hs. unfold on_order_cancelled.
  intros (o & _ & (_ & _ & (om1 & Hom1 & (_ & _ & Hr)%res_bind_Ok)%res_bind_Ok)%res_bind_Ok)%res_bind_Ok.
  apply on_cancel_sessions in Hom1. case_if.
  - unfold get_session_ref in Hr. rewrite Hom1, Hs in Hr. cbn in Hr.
    apply res_bind_Ok in Hr as (_ & _ & Hr). apply Ok_inj in Hr as <-.
    eapply forget_serves; [done|]. cbn. by rewrite Hom1.
  - apply Ok_inj in Hr as <-. by eapply kept_serves.
Qed.

Lemma serve_serves k se s om om' : om_sessions om !! name = Some s →
  serve name books k se om = Ok om' → serves_to se s om'.
Proof.
  intros Hs. unfold serve. destruct (se_state se) eqn:Hst;
    try (intros Hr; apply Ok_inj in Hr as <-; by eapply kept_serves).
  - intros (o & _ & Hr)%res_bind_Ok. eapply (on_session_serves _ _ 3); try done.
    + intros s'. by apply on_order_sent_queued.
    + unfold event_weight. by rewrite Hst.
  - intros (o & _ & (_ & _ & Hr)%res_bind_Ok)%res_bind_Ok.
    apply on_acknowledged_sessions in Hr. by eapply kept_serves.
  - by apply filled_serves.
  - intros (o & _ & Hr)%res_bind_Ok. eapply (on_session_serves _ _ 1); try done.
    + intros s'. by apply pending_cancel_queued.
    + unfold event_weight. by rewrite Hst.
  - by apply cancelled_serves.
  - unfold on_order_cancel_rejected. intros Hr. apply on_cancel_rejected_sessions in Hr. by eapply kept_serves.
Qed.

(** C34: Moving the simulation's clock ends, whatever the latencies, if the listeners of
    the orders only observe: as much fuel as the queued events weigh is enough.  (A
    listener that sends or cancels from its callback queues new events while the
    clock moves, and with no latency the loop of [update_ts] then need not end; such
    listeners are not modelled, see [notify].) *)
Theorem simulation_clock_terminates fuel ts om s :
  om_sessions om !! name = Some s → queue_weight (sim_eventq s) <= Z.of_nat fuel →
  update_ts name books top fuel ts om ≠ Ok None.
Proof.
  revert om s. induction fuel as [|fuel IH]; intros om s Hs Hw; cbn [update_ts];
    unfold get_session_ref; rewrite Hs; cbn [mbind res_bind];
    destruct (sim_eventq s !! top (sim_eventq s)) as [[k se]|] eqn:Htop; try done;
    (case_if; [|done]).
  - exfalso. pose proof (queue_weight_delete _ _ _ Htop) as Hd.
    pose proof (queue_weight_nonneg (delete (top (sim_eventq s)) (sim_eventq s))).
    unfold event_weight in Hd. cbn [snd] in Hd. destruct (se_state se); lia.
  - set (s1 := s <| sim_ts := _ |> <| sim_eventq := _ |>).
    destruct (serve name books k se (put_session name s1 om)) as [om1|] eqn:Hserve; [|done].
    destruct (serve_serves k se s1 (put_session name s1 om) om1) as (s2 & q & Hs2 & Eq & Hq); try done.
    { cbn. by rewrite lookup_insert_eq. }
    apply (IH om1 s2 Hs2). rewrite Eq, queue_weight_app. subst s1.
    pose proof (queue_weight_delete _ _ _ Htop) as Hd. cbn [sim_eventq snd] in *.
    change (sim_eventq (set_field _ _ _)) with (delete (top (sim_eventq s)) (sim_eventq s)). lia.
Qed.

(** When the simulation's clock has been moved to [ts] the session's time is
    [ts] and nothing that was due before is left in the queue. *)
Theorem simulation_serves_what_is_due fuel ts om om' :
  queue_top → update_ts name books top fuel ts om = Ok (Some om') →
  ∃ s', om_sessions om' !! name = Some s' /\ sim_ts s' = ts
    /\ Forall (λ e, ts_gtb ts (ord_ts e.1) = false) (sim_eventq s').
Proof.
  intros Htop. revert om. induction fuel as [|fuel IH]; intros om; cbn [update_ts];
    unfold get_session_ref; destruct (om_sessions om !! name) as [s|] eqn:Hs; try done;
    cbn [mbind res_bind].
  all: assert (∀ om1, (∀ k se, sim_eventq s !! top (sim_eventq s) = Some (k, se) →
      ts_gtb ts (ord_ts k) = false) → om1 = put_session name (s <| sim_ts := ts |>) om →
    ∃ s', om_sessions om1 !! name = Some s' /\ sim_ts s' = ts
      /\ Forall (λ e, ts_gtb ts (ord_ts e.1) = false) (sim_eventq s')) as Hdone.
  1,3: intros om1 Hnext ->; exists (s <| sim_ts := ts |>); cbn; rewrite lookup_insert_eq;
    split; [done|]; split; [done|]; destruct (decide (sim_eventq s = [])) as [->|Hne]; [done|];
    destruct (Htop _ Hne) as ([k se] & Hk & Hall); specialize (Hnext k se Hk);
    eapply Forall_impl; [exact Hall|]; intros e He; cbn in *;
    apply (ts_gtb_false_trans _ (ord_ts k)); [done|];
    unfold served_after in He; by destruct (ts_gtb (ord_ts k) (ord_ts e.1)).
  all: destruct (sim_eventq s !! top (sim_eventq s)) as [[k se]|] eqn:Hk;
    [destruct (ts_gtb ts (ord_ts k)) eqn:Hgt|]; try done;
    try (intros [= <-]; apply Hdone; [|done]; by intros ? ? [= <- <-]);
    try (intros [= <-]; by apply Hdone).
  intros (om1 & _ & Hr)%res_bind_Ok. by apply (IH om1).
Qed.
End Queue.

(** ** Where the simulation is not an exchange *)

Section Departures.
Context {D : Type} `{Dbl D}.

(** Cancelling the whole of a resting simulated order (a new quantity of
    zero) reads the order's record after erasing it. *)
Theorem full_cancel_reads_erased_order ts a (op : Order D) (se : SimEvent D)
    (s : L2SimSession D) be so :
  sim_orders s !! o_localID op = Some a →
  o_state op = PENDING_CANCEL → se_size se = 0 →
  sim_books s !! Z.to_nat (se_esi se) = Some be →
  (if bool_decide (o_side op = BUY) then sm_find bid_order (o_price op) (be_bids be)
   else sm_find ask_order (o_price op) (be_asks be)) = Some so →
  so_order so = a →
  on_order_pending_cancel ts a op se s
    = Fail (UndefinedBehaviour "read through an erased iterator").
Proof.
  intros Hid Hst Hz Hbe Hso Ha. unfold on_order_pending_cancel. rewrite Hid, Hst, Hbe.
  unfold reduce_helper.
  case_if; rewrite Hso, Ha, Z.eqb_refl, Hz; done.
Qed.
End Departures.

(** ** Concrete runs *)

#[local] Abbreviation B := SpecFloat.spec_float.

(** The first of the events that may come first. *)
Fixpoint first_top (q : list (Ordering * SimEvent B)) : nat :=
  match q with
  | [] => 0
  | e :: q' =>
      match q' !! first_top q' with
      | Some e' => if served_after e.1 e'.1 then S (first_top q') else 0%nat
      | None => 0%nat
      end
  end.

Lemma served_after_spec a b : served_after a b = true ↔
  tv_sec (ord_ts b) < tv_sec (ord_ts a)
  \/ (tv_sec (ord_ts b) = tv_sec (ord_ts a) /\ tv_nsec (ord_ts b) < tv_nsec (ord_ts a))
  \/ (tv_sec (ord_ts b) = tv_sec (ord_ts a) /\ tv_nsec (ord_ts b) = tv_nsec (ord_ts a)
     /\ ord_index b < ord_index a).
Proof.
  unfold served_after, ts_gtb, ts_leb, ts_eqb, ts_ltb.
  destruct (Z.eqb_spec (tv_sec (ord_ts a)) (tv_sec (ord_ts b))),
    (Z.eqb_spec (tv_nsec (ord_ts a)) (tv_nsec (ord_ts b))),
    (Z.ltb_spec (tv_sec (ord_ts a)) (tv_sec (ord_ts b))),
    (Z.ltb_spec (tv_nsec (ord_ts a)) (tv_nsec (ord_ts b))),
    (Z.ltb_spec (ord_index b) (ord_index a)); cbn; split; try done; lia.
Qed.
Lemma served_after_false a b : served_after a b = false ↔ ¬ served_after a b = true.
Proof. by rewrite not_true_iff_false. Qed.

Lemma first_top_ok : queue_top first_top.
Proof.
  intros q. induction q as [|e q IH]; [done|]. intros _. cbn [first_top].
  destruct (decide (q = [])) as [->|Hne].
  - exists e. split; [done|]. constructor; [|done].
    apply served_after_false. rewrite served_after_spec. lia.
  - destruct (IH Hne) as (m & Hm & Hall). rewrite Hm. destruct (served_after e.1 m.1) eqn:He.
    + exists m. split; [done|]. constructor; [|done].
      apply served_after_false. apply served_after_spec in He. rewrite served_after_spec. lia.
    + exists e. split; [done|]. constructor.
      * apply served_after_false. rewrite served_after_spec. lia.
      * eapply Forall_impl; [exact Hall|]. cbn. intros x Hx.
        apply served_after_false in He, Hx. apply served_after_false.
        rewrite served_after_spec in *. lia.
Qed.

(** An immediate-or-cancel buy of 300 against 100 offered, with a given cancel
    latency (in nanoseconds); acknowledgements take 200 microseconds. *)
Definition ioc_order : Order B :=
  Order_new (mkTs 100 0) NYSEOrder 1 (d_of_Z 20) 300 BUY IMMEDIATE_OR_CANCEL LIMIT None 0.
Definition ioc_books (_ : Z) : BookBase :=
  mkBookBase (mkFull (mkQuote 199900 500 3) (mkQuote 200000 100 1))
    (λ p, mkQuote p 500 3) (λ p, mkQuote p 100 1).
Definition ioc_sim (cxl_latency_ns : option Z) : L2SimSession B :=
  (L2SimSession_new XNYS {[1 := "IBM"]} (Some 200000) cxl_latency_ns)
    <| sim_ts := mkTs 100 0 |> <| sim_index_map := {["IBM" := 1]} |>
    <| sim_books := [BookEntry_new None; BookEntry_new (Some 7)] |>.
Definition ioc_sent (cxl_latency_ns : option Z) : res (OrderManager B (L2SimSession B)) :=
  om_run [EvCreate ioc_order; EvSend first_order "sim"]
    (sample_om <| om_sessions := {["sim" := ioc_sim cxl_latency_ns]} |>).
Definition ioc_run (cxl_latency_ns : option Z) : res (option (OrderManager B (L2SimSession B))) :=
  om ← ioc_sent cxl_latency_ns;
  on_start_of_data "sim" ioc_books first_top 10 XNYS (mkTs 101 0) om.

(** With a cancel latency below the acknowledgement latency the simulation
    of an immediate-or-cancel order that fills in part runs into a failed
    assertion: the cancel of the remainder overtakes the acknowledgement.  With
    equal latencies the order ends 100 filled, 200 cancelled. *)
Theorem early_cancel_aborts_simulation :
  ioc_run (Some 100000) = Fail (AssertFailed "se.order_p->state()")
  /\ match ioc_run None with
     | Ok (Some om) => view <$> om_heap om !! first_order = Some (mkView 1 true 300 (Working 100 200))
     | _ => False
     end.
Proof. split; vm_compute; reflexivity. Qed.

Definition ioc_state : OrderManager B (L2SimSession B) :=
  match ioc_sent None with Ok om => om | Fail _ => sample_om end.
Definition ioc_queue : list (Ordering * SimEvent B) :=
  match om_sessions ioc_state !! "sim" with Some s => sim_eventq s | None => [] end.

Lemma simulation_clock_terminates_witness :
  queue_weight ioc_queue = 4
  /\ update_ts "sim" ioc_books first_top 4 (mkTs 101 0) ioc_state ≠ Ok None.
Proof.
  split; [vm_compute; reflexivity|].
  destruct (om_sessions ioc_state !! "sim") as [s|] eqn:Hs; [|vm_compute in Hs; discriminate Hs].
  apply (simulation_clock_terminates "sim" ioc_books first_top 4 (mkTs 101 0) ioc_state s Hs).
  assert (sim_eventq s = ioc_queue) as -> by (unfold ioc_queue; by rewrite Hs).
  vm_compute. discriminate.
Defined.

Lemma simulation_serves_what_is_due_witness :
  match update_ts "sim" ioc_books first_top 4 (mkTs 101 0) ioc_state with
  | Ok (Some om') => ∃ s', om_sessions om' !! "sim" = Some s' /\ sim_ts s' = mkTs 101 0
      /\ Forall (λ e, ts_gtb (mkTs 101 0) (ord_ts e.1) = false) (sim_eventq s')
  | _ => False
  end.
Proof.
  destruct (update_ts "sim" ioc_books first_top 4 (mkTs 101 0) ioc_state) as [[om'|]|] eqn:E;
    [|vm_compute in E; discriminate E..].
  exact (simulation_serves_what_is_due "sim" ioc_books first_top 4 _ _ _ first_top_ok E).
Defined.

Lemma arriving_order_accounted_for_witness :
  let bb := ioc_books 7 in
  let day := ioc_order <| o_tif := DAY |> in
  let be := BookEntry_new (Some 7) in
  let s' := arrive_continuous (mkTs 100 200000) 1 1 day be bb (ioc_sim None) in
  (se_state ∘ snd <$> sim_eventq s') = [ACKNOWLEDGED; FILLED]
  /\ ∃ q r, sim_eventq s' = sim_eventq (ioc_sim None) ++ q
    /\ answered_by q + r = 300 /\ 0 <= r
    /\ if r =? 0 then sim_books s' = sim_books (ioc_sim None)
       else immediate day = false
         /\ (∀ i, i ≠ 1%nat → sim_books s' !! i = sim_books (ioc_sim None) !! i)
         /\ ∃ be', sim_books s' !! 1%nat = Some be' /\ rests 1 day bb r be be'.
Proof.
  intros bb day be s'. split; [vm_compute; reflexivity|].
  apply (arriving_order_accounted_for (mkTs 100 200000) 1 1 day be bb (ioc_sim None));
    first [done | z_compute].
Defined.

(** Two resting buys at 20, and a trade of 250 there. *)
Definition resting_bids : list (B * SimOrder) :=
  [(d_lit 2001 100, mkSimOrder 1 0 0 200); (d_of_Z 20, mkSimOrder 2 0 40 300)].
Definition resting_heap : gmap Z (Order B) :=
  {[1 := ioc_order <| o_state := ACKNOWLEDGED |>; 2 := ioc_order <| o_state := ACKNOWLEDGED |>]}.
Definition sample_trade : TradeEvent :=
  mkTrade (mkTs 1 0) (mkBookRef 7 XNYS 1) 77 200000 250 false OTHER_CROSS.
Lemma trade_fills_at_most_its_size_witness :
  let s := (ioc_sim None) <| sim_books := [BookEntry_new None;
    (BookEntry_new (Some 7)) <| be_bids := resting_bids |>] |> in
  ∃ be, find_book_entry (te_book sample_trade) s = Some be
  /\ trade_fills resting_heap sample_trade be = (250, 0)
  /\ let '(b, a) := trade_fills resting_heap sample_trade be in
     0 <= b /\ 0 <= a /\ b + a <= u32 (te_size sample_trade)
     /\ ∃ s' be' q, on_trade resting_heap regular sample_trade s = Ok s'
       /\ sim_eventq s' = sim_eventq s ++ q /\ filled_by q = b + a
       /\ sim_books s' !! Z.to_nat (br_symbol_index (te_book sample_trade)) = Some be'
       /\ resting (be_bids be') = resting (be_bids be) - b
       /\ resting (be_asks be') = resting (be_asks be) - a.
Proof.
  intros s. eexists. split; [reflexivity|]. split; [vm_compute; reflexivity|].
  apply (trade_fills_at_most_its_size resting_heap regular sample_trade); try reflexivity.
  - repeat constructor; try (cbn; lia); eexists; split; try reflexivity; cbn; lia.
  - constructor.
Defined.

Lemma execution_matching_terminates_witness :
  ∃ r, exec_cross_helper resting_heap 1 (PriceGE (d_of_Z 20)) (d_of_Z 20) (mkTs 2 0)
         resting_bids 1 = Ok (Some r).
Proof.
  apply (execution_matching_terminates resting_heap 1 (PriceGE (d_of_Z 20)) (d_of_Z 20)
    (mkTs 2 0) resting_bids 1); [lia|].
  repeat constructor; try (cbn; lia); by eexists.
Defined.

Lemma execution_overfills_witness :
  ∃ q, exec_cross_helper resting_heap 1 (PriceGE (d_of_Z 20)) (d_of_Z 20) (mkTs 2 0)
         resting_bids 1 = Ok (Some ([], 1, q))
    /\ filled_by q = 500.
Proof.
  apply (execution_overfills resting_heap 1 (PriceGE (d_of_Z 20)) (d_of_Z 20)
    (mkTs 2 0) resting_bids 1); [lia| |].
  - repeat constructor; try (cbn; lia); by eexists.
  - repeat constructor; try (cbn; lia); cbn; intros op Hop; vm_compute in Hop;
      injection Hop as <-; vm_compute; reflexivity.
Defined.

Lemma full_cancel_reads_erased_order_witness :
  let o := ioc_order <| o_localID := 5 |> <| o_state := PENDING_CANCEL |> in
  let be := (BookEntry_new (Some 7)) <| be_bids := [(d_of_Z 20, mkSimOrder 9 0 0 300)] |> in
  let s := (ioc_sim None) <| sim_orders := {[5 := 9]} |> <| sim_books := [BookEntry_new None; be] |> in
  on_order_pending_cancel (mkTs 1 0) 9 o (sim_event PENDING_CANCEL 9 1 0 d0 ts_zero) s
    = Fail (UndefinedBehaviour "read through an erased iterator").
Proof.
  intros o be s.
  apply (full_cancel_reads_erased_order (mkTs 1 0) 9 o _ s be (mkSimOrder 9 0 0 300));
    vm_compute; reflexivity.
Defined.
