(* ===== verification/Boe20Correct.v ===== *)
(** * The BOE 2.0 session and the order manager

    Bytes from the exchange, however the connection cuts them into reads, become
    the steps of [OrderLifecycle], on the orders that their ids name; what the
    session does in states and on messages it was not written for; and where it
    and the book-keeping part. *)

From S2P Require Import Prelude Dbl Time Types Order Codec Boe20Wire Boe20Framing OrderLog Blotter.
From S2P Require Import Session SessionKit Boe20 Boe20Sent OrderManager Replay Boe20Handler.
From S2P Require Import OrderInvariant OrderLifecycle ReplayCorrect.
Open Scope Z_scope.

(** ** Messages about orders, as the exchange writes them *)

Inductive BoeMessage :=
| BxAck (m : OrderAcknowledgment) | BxRejected (m : OrderRejected)
| BxModified (m : OrderAcknowledgment) | BxRestated (m : OrderRestated)
| BxModifyRejected (m : OrderRejected) | BxCancelled (m : OrderCancelled)
| BxCancelRejected (m : OrderRejected) | BxExecution (m : OrderExecution)
| BxTradeCancel (m : TradeCancelOrCorrect).
(** With the bits behind it, and the fields behind those. *)
Record BoeExchangeMessage := mkBx { bx_msg : BoeMessage; bx_bits : list Z; bx_opt : Fields }.

Definition bx_with {R} (b : BoeMessage) (k : ∀ A, Codec A → A → R) : R :=
  match b with
  | BxAck m => k _ c_OrderAcknowledgment m | BxRejected m => k _ c_OrderRejected m
  | BxModified m => k _ c_OrderAcknowledgment m | BxRestated m => k _ c_OrderRestated m
  | BxModifyRejected m => k _ c_OrderRejected m | BxCancelled m => k _ c_OrderCancelled m
  | BxCancelRejected m => k _ c_OrderRejected m | BxExecution m => k _ c_OrderExecution m
  | BxTradeCancel m => k _ c_TradeCancelOrCorrect m
  end.
Definition bx_type (b : BoeMessage) : BoeMessageType :=
  match b with
  | BxAck _ => ORDER_ACKNOWLEDGMENT_V2 | BxRejected _ => ORDER_REJECTED_V2
  | BxModified _ => ORDER_MODIFIED_V2 | BxRestated _ => ORDER_RESTATED_V2
  | BxModifyRejected _ => USER_MODIFY_REJECTED_V2 | BxCancelled _ => ORDER_CANCELLED_V2
  | BxCancelRejected _ => CANCEL_REJECTED_V2 | BxExecution _ => ORDER_EXECUTION_V2
  | BxTradeCancel _ => TRADE_CANCEL_OR_CORRECT_V2
  end.
Definition bx_order (b : BoeMessage) : OrderMessage :=
  match b with
  | BxAck m | BxModified m => oa_message m
  | BxRejected m | BxModifyRejected m | BxCancelRejected m => or_message m
  | BxRestated m => rs_message m | BxCancelled m => oc_message m
  | BxExecution m => oe_message m | BxTradeCancel m => tc_message m
  end.
(** Messages of the exchange's matching units are numbered. *)
Definition bx_sequenced (b : BoeMessage) : bool :=
  match b with BxRejected _ | BxModifyRejected _ | BxCancelRejected _ => false | _ => true end.

Section Bytes.
Implicit Types x : BoeExchangeMessage.
Definition bx_layout x : list OptField := opt_struct (bx_type (bx_msg x)).
Definition bx_fixed x : list Z := bx_with (bx_msg x) (λ _ c, c_enc c).
Definition bx_size x : nat := bx_with (bx_msg x) (λ _ c _, c_size c).
Definition bx_bytes x : list Z := bx_fixed x ++ bx_bits x ++ opt_bytes (bx_layout x) (bx_opt x).
Definition bx_header x : BoeHeader := oh_message_header (bx_order (bx_msg x)).
Definition bx_id x : Z := get_local_id (oh_cl_ord_id (bx_order (bx_msg x))).
Definition bx_field x (f : OptField) : Z := le_val (bx_opt x f).

Record bx_valid x : Prop := {
  bv_fixed : bx_with (bx_msg x) (λ _ c, c_valid c);
  bv_start : h_start_of_message (bx_header x) = START_OF_MESSAGE_SENTINEL;
  bv_type : h_message_type (bx_header x) = BoeMessageType_to_Z (bx_type (bx_msg x));
  bv_length : h_message_length (bx_header x) + 2 = Z.of_nat (length (bx_bytes x));
  bv_bits : length (bx_bits x) = 8%nat;
  bv_opt : opt_valid (bx_layout x) (bx_opt x)
}.

(** The risk gateway's mark. *)
Definition bx_riskbot x : bool :=
  (broker_loc (oh_cl_ord_id (bx_order (bx_msg x))) =? HPR_REJECT_BROKER_LOC)
  && (bx_field x F_ORDER_QTY =? HPR_REJECT_ORDER_SIZE)
  && bool_decide (bx_opt x F_SYMBOL = HPR_REJECT_SYMBOL).

Definition bx_turned_away x : bool := match bx_msg x with BxAck _ => bx_riskbot x | _ => false end.

Lemma bx_length_fixed x : bx_valid x → length (bx_fixed x) = bx_size x.
Proof.
  intros Hv. pose proof (bv_fixed x Hv) as Hf. unfold bx_fixed, bx_size.
  destruct (bx_msg x); by apply codec_length.
Qed.
Lemma bx_size_range x : (41 <= bx_size x <= 101)%nat.
Proof. unfold bx_size. destruct (bx_msg x); vm_compute; lia. Qed.

Lemma bx_header_read x rest : bx_valid x → c_dec c_BoeHeader (bx_bytes x ++ rest) = bx_header x.
Proof.
  intros Hv. pose proof (bv_fixed x Hv) as Hf. unfold bx_bytes, bx_fixed, bx_header.
  rewrite <- !app_assoc. set (tl := bx_bits x ++ _).
  destruct (bx_msg x) as [m|m|m|m|m|m|m|m|m]; cbn [bx_with bx_order] in *;
    [pose proof (codec_dec_enc m tl Hf) as Hd; rewrite <- Hd at 2; reflexivity..].
Qed.
Lemma bx_fixed_read x rest : bx_valid x →
  bx_with (bx_msg x) (λ _ c m, reading c (bx_bytes x ++ rest) = Ok m).
Proof.
  intros Hv. pose proof (bv_fixed x Hv) as Hf. unfold bx_bytes, bx_fixed. rewrite <- !app_assoc.
  destruct (bx_msg x); cbn [bx_with] in *; by apply (reading_enc _).
Qed.
Lemma bx_opt_at x rest : bx_valid x →
  opt_of (bx_size x) (bx_bytes x ++ rest) = opt_bytes (bx_layout x) (bx_opt x) ++ rest.
Proof.
  intros Hv. unfold opt_of, bx_bytes. rewrite <- drop_drop, <- !app_assoc.
  rewrite drop_app_n by (by apply bx_length_fixed). by rewrite drop_app_n by (by apply bv_bits).
Qed.
Lemma bx_field_read x f rest : bx_valid x → f ∈ bx_layout x →
  reading_opt (bx_layout x) f (opt_of (bx_size x) (bx_bytes x ++ rest)) = Ok (bx_field x f)
  /\ reading_opt_array (bx_layout x) f (opt_of (bx_size x) (bx_bytes x ++ rest)) = Ok (bx_opt x f).
Proof.
  intros Hv Hf. rewrite bx_opt_at by done. pose proof (bv_opt x Hv) as Ho. split.
  - by apply reading_opt_bytes.
  - pose proof (reading_opt_bytes (bx_layout x) (bx_opt x) f rest Ho Hf) as Hr.
    unfold reading_opt, reading_opt_array in *. case_match; [done|].
    by rewrite opt_read_bytes.
Qed.

Lemma bx_is_frame x : bx_valid x → is_frame (bx_bytes x).
Proof.
  intros Hv. pose proof (bx_header_read x [] Hv) as Hh. rewrite app_nil_r in Hh.
  assert (41 <= length (bx_bytes x))%nat as Hl.
  { unfold bx_bytes. rewrite length_app, bx_length_fixed by done. pose proof (bx_size_range x). lia. }
  split.
  - rewrite <- (bv_start x Hv), <- Hh. reflexivity.
  - pose proof (bv_length x Hv) as Hlen. rewrite <- Hh in Hlen.
    change (h_message_length (c_dec c_BoeHeader (bx_bytes x)))
      with (le_val (take 2 (drop 2 (bx_bytes x)))) in Hlen. unfold frame_length. lia.
  - unfold FRAME_START. lia.
Qed.
End Bytes.

(** ** A message is a step *)

Section Steps.
Context {D S E : Type} `{Dbl D} `{!OrderSession D S} `{!OrderSessionLaws D S} `{Connection E}.
Implicit Types (om : OrderManager D S) (o : Order D) (s : BOE20Session E) (x : BoeExchangeMessage).

(** What a message means to the order manager, if anything. *)
Definition bx_event (a : Z) (ts : Timestamp) x o : option (@Event D) :=
  let xts := oh_transaction_time (bx_order (bx_msg x)) in
  match bx_msg x with
  | BxAck m =>
      Some (if bx_turned_away x then EvReject a ts xts
            else EvAck a (oa_order_id m) (bx_field x F_LEAVES_QTY) ts xts)
  | BxRejected _ => Some (EvReject a ts xts)
  | BxModified _ =>
      if bx_field x F_LEAVES_QTY =? o_open_size o then None
      else Some (EvCancelled a (u32 (o_open_size o - bx_field x F_LEAVES_QTY)) ts xts)
  | BxRestated _ =>
      if bx_field x F_LEAVES_QTY =? 0 then Some (EvCancelled a (bx_field x F_ORDER_QTY) ts xts)
      else None
  | BxModifyRejected _ | BxCancelRejected _ => Some (EvCancelRejected a ts xts)
  | BxCancelled _ =>
      if bool_decide (o_state o = REMOTELY_REJECTED) then None
      else Some (EvCancelled a (u32 (o_open_size o - bx_field x F_LEAVES_QTY)) ts xts)
  | BxExecution m =>
      Some (EvFill a (oe_last_shares m) (price_to_double (oe_last_px m)) ts xts FFC_UNKNOWN)
  | BxTradeCancel _ => None
  end.
Definition bx_step (a : Z) (ts : Timestamp) x o om : res (OrderManager D S) :=
  match bx_event a ts x o with Some ev => om_step ev om | None => Ok om end.

(** The session keeps the number of what it was sent. *)
Definition bx_seen x s : BOE20Session E :=
  if bx_sequenced (bx_msg x) then saw_sequence (bx_header x) s else s.

Lemma raw_msg_head ts buf s om t : (5 <= length buf)%nat →
  h_start_of_message (c_dec c_BoeHeader buf) = START_OF_MESSAGE_SENTINEL →
  h_message_type (c_dec c_BoeHeader buf) = BoeMessageType_to_Z t →
  handle_raw_msg ts buf s om
  = '(s, om) ← boe_handle_message (Some t) ts buf s om; Ok (s <| bo_last_message_recv_ts := ts |>, om).
Proof.
  intros Hlen Hs Ht. unfold handle_raw_msg, reading, assert.
  rewrite (proj2 (Nat.ltb_ge (length buf) _)) by (cbn; lia). cbn [mbind res_bind].
  change (c_dec (c_uint 2) buf) with (h_start_of_message (c_dec c_BoeHeader buf)).
  rewrite Hs, Z.eqb_refl. cbn [mbind res_bind].
  rewrite (proj2 (Nat.ltb_ge (length (drop 4 buf)) _)) by (rewrite length_drop; cbn; lia).
  cbn [mbind res_bind].
  change (c_dec (c_uint 1) (drop 4 buf)) with (h_message_type (c_dec c_BoeHeader buf)).
  by rewrite Ht, BoeMessageType_of_to_Z.
Qed.

Lemma op_of_seen m h s om : op_of m (saw_sequence h s) om = op_of m s om.
Proof. done. Qed.

(** The layouts hold the fields that the handlers read. *)
Lemma layout_fields :
  Forall (λ f, f ∈ OrderAcknowledgment_opt) [F_LEAVES_QTY; F_ORDER_QTY; F_SYMBOL]
  /\ F_LEAVES_QTY ∈ OrderModified_opt /\ F_LEAVES_QTY ∈ OrderRestated_opt
  /\ F_ORDER_QTY ∈ OrderRestated_opt /\ F_LEAVES_QTY ∈ OrderCancelled_opt.
Proof. split_and!; [|in_layout..]. repeat (apply Forall_cons; split; [in_layout|]). by apply Forall_nil. Qed.

Lemma riskbot_read m bits v rest : bx_valid (mkBx (BxAck m) bits v) →
  is_riskbot_reject (oa_message m)
    (opt_of (c_size c_OrderAcknowledgment) (bx_bytes (mkBx (BxAck m) bits v) ++ rest))
  = Ok (bx_riskbot (mkBx (BxAck m) bits v)).
Proof.
  intros Hv. set (x := mkBx _ _ _) in *. destruct layout_fields as (Hf & _).
  apply Forall_cons in Hf as [_ Hf]. apply Forall_cons in Hf as [Hq Hf]. apply Forall_cons in Hf as [Hs _].
  destruct (bx_field_read x F_ORDER_QTY rest Hv Hq) as [Hrq _].
  destruct (bx_field_read x F_SYMBOL rest Hv Hs) as [_ Hrs].
  unfold is_riskbot_reject, bx_riskbot. change (bx_order (bx_msg x)) with (oa_message m).
  change (bx_size x) with (c_size c_OrderAcknowledgment) in *.
  change (bx_layout x) with OrderAcknowledgment_opt in *.
  destruct (broker_loc _ =? _); [|done]. cbn [negb andb]. rewrite Hrq. cbn [mbind res_bind].
  destruct (bx_field x F_ORDER_QTY =? _); [|done]. cbn [negb andb]. rewrite Hrs. done.
Qed.

(** A message about an order of the session does what it means. *)
Lemma bx_handled ts x rest s om a o : bx_valid x → (bo_state s = REPLAY → bx_turned_away x = false) →
  session_get_order (bo_name s) (bx_id x) om = Ok (Some a) → om_heap om !! a = Some o →
  boe_handle_message (Some (bx_type (bx_msg x))) ts (bx_bytes x ++ rest) s om
  = om' ← bx_step a ts x o om; Ok (bx_seen x s, om').
Proof.
  intros Hv Hrisk Hg Ha. pose proof (bx_fixed_read x rest Hv) as Hread.
  destruct layout_fields as (Hfack & Hfmod & Hfrst1 & Hfrst2 & Hfcxl).
  destruct x as [[m|m|m|m|m|m|m|m|m] bits v]; cbn [bx_msg bx_type bx_with boe_handle_message] in *;
    unfold bx_id in Hg; cbn [bx_msg bx_order] in Hg; unfold bx_step, bx_event, bx_seen;
    cbn [bx_msg bx_order bx_sequenced].
  - unfold handle_order_acknowledgment. rewrite Hread. cbn [mbind res_bind]. unfold op_of.
    change (bo_name (saw_sequence _ s)) with (bo_name s). rewrite Hg. cbn [mbind res_bind].
    rewrite (riskbot_read m bits v rest Hv). cbn [mbind res_bind].
    cbn [bx_turned_away bx_msg]. unfold bx_turned_away in Hrisk. cbn [bx_msg] in Hrisk.
    unfold bx_turned_away. cbn [bx_msg]. destruct (bx_riskbot _) eqn:Hrb.
    + unfold handle_riskbot_reject. rewrite bool_decide_false by (intros Hst; by apply Hrisk in Hst).
      cbn [om_step]. by destruct (on_rejected _ _ _ _).
    + apply Forall_cons in Hfack as [Hl _].
      destruct (bx_field_read (mkBx (BxAck m) bits v) F_LEAVES_QTY rest Hv Hl) as [Hr _].
      change (bx_layout _) with OrderAcknowledgment_opt in Hr.
      change (bx_size _) with (c_size c_OrderAcknowledgment) in Hr. rewrite Hr. reflexivity.
  - unfold handle_order_rejected, op_of. rewrite Hread. cbn [mbind res_bind]. rewrite Hg. reflexivity.
  - unfold handle_order_modified, op_of. rewrite Hread. cbn [mbind res_bind].
    change (bo_name (saw_sequence _ s)) with (bo_name s). rewrite Hg. cbn [mbind res_bind].
    destruct (bx_field_read (mkBx (BxModified m) bits v) F_LEAVES_QTY rest Hv Hfmod) as [Hr _].
    change (bx_layout _) with OrderModified_opt in Hr.
    change (bx_size _) with (c_size c_OrderAcknowledgment) in Hr. rewrite Hr. unfold cancel_to, get_order.
    rewrite Ha. cbn [mbind res_bind]. by case_match.
  - unfold handle_order_restated, op_of. rewrite Hread. cbn [mbind res_bind].
    change (bo_name (saw_sequence _ s)) with (bo_name s). rewrite Hg. cbn [mbind res_bind].
    destruct (bx_field_read (mkBx (BxRestated m) bits v) F_LEAVES_QTY rest Hv Hfrst1) as [Hr _].
    destruct (bx_field_read (mkBx (BxRestated m) bits v) F_ORDER_QTY rest Hv Hfrst2) as [Hr2 _].
    change (bx_layout _) with OrderRestated_opt in Hr, Hr2.
    change (bx_size _) with (c_size c_OrderRestated) in Hr, Hr2. rewrite Hr. cbn [mbind res_bind].
    case_match; [|done]. rewrite Hr2. reflexivity.
  - unfold handle_cancel_rejected, op_of. rewrite Hread. cbn [mbind res_bind]. rewrite Hg. reflexivity.
  - unfold handle_order_cancelled, op_of. rewrite Hread. cbn [mbind res_bind].
    change (bo_name (saw_sequence _ s)) with (bo_name s). rewrite Hg. cbn [mbind res_bind].
    unfold get_order at 1. rewrite Ha. cbn [mbind res_bind]. case_match; [done|].
    destruct (bx_field_read (mkBx (BxCancelled m) bits v) F_LEAVES_QTY rest Hv Hfcxl) as [Hr _].
    change (bx_layout _) with OrderCancelled_opt in Hr.
    change (bx_size _) with (c_size c_OrderCancelled) in Hr. rewrite Hr. unfold cancel_to, get_order.
    rewrite Ha. reflexivity.
  - unfold handle_cancel_rejected, op_of. rewrite Hread. cbn [mbind res_bind]. rewrite Hg. reflexivity.
  - unfold handle_order_execution, op_of. rewrite Hread. cbn [mbind res_bind].
    change (bo_name (saw_sequence _ s)) with (bo_name s). rewrite Hg. reflexivity.
  - unfold handle_trade_cancel_or_correct. rewrite Hread. reflexivity.
Qed.
End Steps.

(** ** A stream of messages, cut into reads *)

Section Stream.
Context {D S E : Type} `{Dbl D} `{!OrderSession D S} `{!OrderSessionLaws D S} `{Connection E}.
Implicit Types (om : OrderManager D S) (o : Order D) (s : BOE20Session E).

(** The steps succeed. *)
Lemma bx_step_sound a ts x o om : invariant om → (∀ ev, bx_event a ts x o = Some ev → allowed ev om) →
  ∃ om1, bx_step a ts x o om = Ok om1 /\ invariant om1 /\ rtc book_moves (views om) (views om1).
Proof.
  intros Hi Hal. unfold bx_step. destruct (bx_event a ts x o) as [ev|]; [|by exists om].
  destruct (step_sound ev om Hi (Hal ev eq_refl)) as (om1 & Hs & Hi1 & Hm).
  exists om1. split_and!; try done. by apply rtc_once.
Qed.

(** The exchange answers our orders one after the other: every message is about an
    order of the session that may be answered so ([allowed]) when the messages
    before it have been taken in; the risk gateway answers only when the exchange
    does not replay. *)
Fixpoint boe_conversation (ts : Timestamp) (name : string) (replaying : bool) om
    (xs : list BoeExchangeMessage) : Prop :=
  match xs with
  | [] => True
  | x :: xs =>
      ∃ a o, bx_valid x /\ (replaying = true → bx_turned_away x = false)
        /\ session_get_order name (bx_id x) om = Ok (Some a) /\ om_heap om !! a = Some o
        /\ (∀ ev, bx_event a ts x o = Some ev → allowed ev om)
        /\ ∀ om1, bx_step a ts x o om = Ok om1 → boe_conversation ts name replaying om1 xs
  end.
(** What messages do: each the step it means, on the order that its id names. *)
Inductive boe_heard (ts : Timestamp) (name : string) :
    OrderManager D S → list BoeExchangeMessage → OrderManager D S → Prop :=
| boe_heard_all om : boe_heard ts name om [] om
| boe_heard_message om x xs a o om1 om2 :
    session_get_order name (bx_id x) om = Ok (Some a) → om_heap om !! a = Some o →
    bx_step a ts x o om = Ok om1 → boe_heard ts name om1 xs om2 → boe_heard ts name om (x :: xs) om2.

Lemma boe_heard_app ts name om xs om1 ys om2 : boe_heard ts name om xs om1 →
  boe_heard ts name om1 ys om2 → boe_heard ts name om (xs ++ ys) om2.
Proof. induction 1; [done|]. intros Hy. eapply boe_heard_message; eauto. Qed.
Lemma boe_conversation_valid ts name r om xs : invariant om →
  boe_conversation ts name r om xs → Forall bx_valid xs.
Proof.
  revert om. induction xs as [|x xs IH]; intros om Hi Hc; [done|].
  destruct Hc as (a & o & Hx & _ & _ & _ & Hal & Hc).
  destruct (bx_step_sound a ts x o om Hi Hal) as (om1 & Hs & Hi1 & _).
  constructor; [done|]. by apply (IH om1 Hi1), Hc.
Qed.

(** What the session is left with. *)
Definition bx_heard (ts : Timestamp) (xs : list BoeExchangeMessage) s : BOE20Session E :=
  foldl (λ s x, (bx_seen x s) <| bo_last_message_recv_ts := ts |>) s xs.
Lemma bx_heard_same ts xs s : bo_state (bx_heard ts xs s) = bo_state s
  /\ bo_active (bx_heard ts xs s) = bo_active s /\ bo_name (bx_heard ts xs s) = bo_name s
  /\ bo_outbound_seqnum (bx_heard ts xs s) = bo_outbound_seqnum s
  /\ bo_net (bx_heard ts xs s) = bo_net s.
Proof.
  revert s. induction xs as [|x xs IH]; intros s; [done|]. unfold bx_heard in *. cbn [foldl].
  set (s1 := _ <| bo_last_message_recv_ts := ts |>). destruct (IH s1) as (-> & -> & -> & -> & ->).
  subst s1. unfold bx_seen. by destruct (bx_sequenced (bx_msg x)).
Qed.

Lemma bx_heard_dangly ts xs d s :
  (bx_heard ts xs (s <| bo_dangly := d |>)) <| bo_dangly := [] |>
  = (bx_heard ts xs s) <| bo_dangly := [] |>.
Proof.
  revert s. unfold bx_heard. induction xs as [|x xs IH]; intros s; [by destruct s|]. cbn [foldl].
  rewrite <- (IH ((bx_seen x s) <| bo_last_message_recv_ts := ts |>)). f_equal. f_equal.
  unfold bx_seen. by destruct (bx_sequenced (bx_msg x)).
Qed.

(** Messages that were delivered. *)
Lemma handle_delivered ts xs ys evs s om : invariant om →
  boe_conversation ts (bo_name s) (bool_decide (bo_state s = REPLAY)) om (xs ++ ys) →
  Forall2 delivered evs (map bx_bytes xs) →
  ∃ om', handle_raw_events ts evs s om = Ok (bx_heard ts xs s, om')
    /\ boe_heard ts (bo_name s) om xs om'
    /\ boe_conversation ts (bo_name s) (bool_decide (bo_state s = REPLAY)) om' ys
    /\ invariant om' /\ rtc book_moves (views om) (views om').
Proof.
  revert evs s om. induction xs as [|x xs IH]; intros evs s om Hi Hc Hd.
  - apply Forall2_nil_inv_r in Hd as ->. exists om. split_and!; try done. constructor.
  - apply Forall2_cons_inv_r in Hd as (ev & evs' & (rest & ->) & Hd & ->).
    destruct Hc as (a & o & Hx & Hr & Hg & Ha & Hal & Hc).
    destruct (bx_step_sound a ts x o om Hi Hal) as (om1 & Hs & Hi1 & Hm). specialize (Hc om1 Hs).
    set (s1 := (bx_seen x s) <| bo_last_message_recv_ts := ts |>).
    assert (bo_name s1 = bo_name s /\ bo_state s1 = bo_state s) as [Hn Hst]
      by (subst s1; unfold bx_seen; by destruct (bx_sequenced (bx_msg x))).
    destruct (IH evs' s1 om1 Hi1 ltac:(by rewrite Hn, Hst) Hd) as (om' & Hp & Hh & Hc' & Hi2 & Hm2).
    rewrite Hn in Hh. rewrite Hn, Hst in Hc'.
    exists om'. split; [|split; [by eapply boe_heard_message|split; [done|split; [done|by etransitivity]]]].
    unfold handle_raw_events in *. cbn [foldM handle_raw_event fst snd].
    pose proof (bx_header_read x rest Hx) as Hhead.
    assert (5 <= length (bx_bytes x ++ rest))%nat as Hlen
      by (pose proof (frame_long _ (bx_is_frame x Hx)); unfold FRAME_START in *; rewrite length_app; lia).
    assert (h_start_of_message (c_dec c_BoeHeader (bx_bytes x ++ rest)) = START_OF_MESSAGE_SENTINEL) as Hsent
      by (rewrite Hhead; apply (bv_start x Hx)).
    assert (h_message_type (c_dec c_BoeHeader (bx_bytes x ++ rest)) = BoeMessageType_to_Z (bx_type (bx_msg x)))
      as Htype by (rewrite Hhead; apply (bv_type x Hx)).
    rewrite (raw_msg_head _ _ _ _ (bx_type (bx_msg x))) by done.
    rewrite (bx_handled ts x rest s om a o Hx) by
      (done || (intros Hst'; apply Hr; by rewrite bool_decide_true)).
    rewrite Hs. cbn [mbind res_bind fst snd]. exact Hp.
Qed.

Fixpoint boe_on_recvs (ts : Timestamp) (reads : list (list Z)) s om
    : res (BOE20Session E * OrderManager D S) :=
  match reads with
  | [] => Ok (s, om)
  | buf :: reads => '(s, om) ← boe_on_recv ts buf s om; boe_on_recvs ts reads s om
  end.

Lemma cut_conversation ts d frames reads : cut_well d frames reads →
  ∀ xs s om, frames = map bx_bytes xs → bo_dangly s = d → started d frames → invariant om →
  boe_conversation ts (bo_name s) (bool_decide (bo_state s = REPLAY)) om xs →
  ∃ s' om', boe_on_recvs ts reads s om = Ok (s', om') /\ boe_heard ts (bo_name s) om xs om'
    /\ invariant om' /\ rtc book_moves (views om) (views om')
    /\ s' = (bx_heard ts xs s) <| bo_dangly := [] |>.
Proof.
  induction 1 as [|d buf reads pre post d' Hr Hd' Hcut IH]; intros xs s om Hxs Hd Hst Hi Hc.
  - destruct xs; [|done]. exists s, om. split_and!; try done; [constructor|].
    destruct s. cbn in Hd. by subst.
  - symmetry in Hxs. apply map_eq_app in Hxs as (xs1 & xs2 & -> & H1' & H2').
    assert (Forall is_frame (pre ++ post)) as Hf.
    { rewrite <- H1', <- H2', <- map_app. apply Forall_map. eapply Forall_impl; [|apply bx_is_frame].
      exact (boe_conversation_valid _ _ _ _ _ Hi Hc). }
    destruct (read_delivers d buf pre post d' Hf Hst Hd' Hr) as (evs & Hraw & Hevs).
    rewrite <- H1' in Hevs.
    destruct (handle_delivered ts xs1 xs2 evs s om Hi Hc Hevs) as (om1 & Hev & Hh1 & Hc2 & Hi1 & Hm1).
    set (s1 := (bx_heard ts xs1 s) <| bo_dangly := d' |>).
    destruct (bx_heard_same ts xs1 s) as (E1 & _ & E3 & _).
    assert (bo_name s1 = bo_name s /\ bo_state s1 = bo_state s) as [E4 E5] by (by subst s1).
    destruct (IH xs2 s1 om1) as (s' & om' & Hrest & Hh2 & Hi2 & Hm2 & Hs'); try done.
    { by rewrite E4, E5. }
    exists s', om'. rewrite E4 in Hh2. split_and!; [|by eapply boe_heard_app|done|by etransitivity|].
    + cbn [boe_on_recvs]. unfold boe_on_recv. rewrite Hd, Hraw. cbn [mbind res_bind].
      rewrite Hev. cbn [mbind res_bind]. exact Hrest.
    + rewrite Hs'. subst s1. unfold bx_heard. rewrite foldl_app. apply bx_heard_dangly.
Qed.

(** The last number heard of every matching unit. *)
Definition heard_numbers (xs : list BoeExchangeMessage) (numbers : list Z) : list Z :=
  foldl (λ l x, if bx_sequenced (bx_msg x)
                then <[Z.to_nat (h_matching_unit (bx_header x)) := h_sequence_number (bx_header x)]> l
                else l) numbers xs.
Lemma bx_heard_numbers ts xs s :
  bo_inbound_seqnum (bx_heard ts xs s) = heard_numbers xs (bo_inbound_seqnum s).
Proof.
  revert s. unfold bx_heard, heard_numbers. induction xs as [|x xs IH]; intros s; [done|].
  cbn [foldl]. rewrite IH. f_equal. unfold bx_seen. by destruct (bx_sequenced (bx_msg x)).
Qed.

(** C4: Bytes from the exchange become the right steps of the order manager, while
    it trades and while it replays.  Messages that answer orders of the session,
    each as the state of its order allows it ([boe_conversation]: acknowledgments,
    rejections by the exchange or, outside a replay, the risk gateway,
    modifications, restatements, cancellations, executions, refused requests,
    corrections of trades) run without a failure; each acts on the order that its
    id names, exactly as the order manager's step for it ([boe_heard]); the
    book-keeping stays right and orders move along their lifecycles; the last
    number of every matching unit is kept for the next login; and no byte is left
    over.  The connection may cut the bytes into reads as it likes, but for this
    ([cut_well]): a message of which a read brought one to three bytes must be
    brought up to its end by the next read, or still not to its fourth byte. *)
Theorem boe_stream_drives_orders (ts : Timestamp) (xs : list BoeExchangeMessage)
    (reads : list (list Z)) s om (Hi : invariant om) (Hdangly : bo_dangly s = [])
    (Hcut : cut_well [] (map bx_bytes xs) reads)
    (Hc : boe_conversation ts (bo_name s) (bool_decide (bo_state s = REPLAY)) om xs) :
  ∃ s' om', boe_on_recvs ts reads s om = Ok (s', om') /\ boe_heard ts (bo_name s) om xs om'
    /\ invariant om' /\ rtc book_moves (views om) (views om')
    /\ bo_inbound_seqnum s' = heard_numbers xs (bo_inbound_seqnum s)
    /\ bo_dangly s' = [] /\ bo_state s' = bo_state s /\ bo_active s' = bo_active s
    /\ bo_outbound_seqnum s' = bo_outbound_seqnum s.
Proof.
  destruct (cut_conversation ts [] _ reads Hcut xs s om eq_refl Hdangly (or_introl eq_refl) Hi Hc)
    as (s' & om' & Hrecv & Hh & Hi' & Hm & ->).
  destruct (bx_heard_same ts xs s) as (E1 & E2 & _ & E4 & _).
  eexists _, om'. split; [exact Hrecv|]. split_and!; try done. exact (bx_heard_numbers ts xs s).
Qed.
End Stream.

(** ** States *)

Section States.
Context {D S E : Type} `{Dbl D} `{!OrderSession D S} `{Connection E}.
Implicit Types (om : OrderManager D S) (s : BOE20Session E).

(** Whatever happens to a session: calls of its owner, callbacks of its
    connection, and any bytes at all. *)
Inductive boe_happens : BOE20Session E → BOE20Session E → Prop :=
| happens_connect replay s : boe_happens s (boe_connect replay s).2
| happens_disconnect force s : boe_happens s (boe_disconnect force s)
| happens_quit s : boe_happens s (disconnect_and_quit s)
| happens_connected s : boe_happens s (boe_on_connected s)
| happens_peer ts s : boe_happens s (boe_on_peer_disconnect ts s)
| happens_local ts s : boe_happens s (boe_on_local_disconnect ts s)
| happens_timer ts s : boe_happens s (boe_on_timer ts s)
| happens_send (a : Z) (o : Order D) s : boe_happens s (boe_send a o s).1.2
| happens_cancel (a : Z) (o : Order D) newqty s : boe_happens s (boe_cancel a o newqty s).1.2
| happens_recv ts buf s (om : OrderManager D S) s' om' :
    boe_on_recv ts buf s om = Ok (s', om') → boe_happens s s'.

Definition trading_is_active s : Prop := bo_state s = ACTIVE → bo_active s = true.
(** Nothing that the claim is about changes. *)
Definition same_phase s s' : Prop := bo_state s' = bo_state s /\ bo_active s' = bo_active s.
#[local] Instance same_phase_preorder : PreOrder same_phase.
Proof. unfold same_phase. split; repeat intro; intuition congruence. Qed.
Lemma same_phase_trading s s' : same_phase s s' → trading_is_active s → trading_is_active s'.
Proof. unfold trading_is_active. by intros [-> ->]. Qed.
Lemma not_trading s : bo_state s ≠ ACTIVE → trading_is_active s.
Proof. by intros Hn Hst. Qed.

Lemma send_helper_phase buf s : same_phase s (send_helper buf s).
Proof. unfold send_helper. destruct (conn_send _ _) as [n e]. by destruct (conn_now e). Qed.
Lemma send_helper_nolock_phase buf s : same_phase s (send_helper_nolock buf s).
Proof.
  unfold send_helper_nolock. destruct (conn_send _ _) as [n e]. case_match; [done|]. by destruct (conn_now e).
Qed.
Lemma do_logout_phase b s : bo_state (do_logout b s) ≠ ACTIVE.
Proof. unfold do_logout, disconnect_connection. cbn. by destruct b. Qed.
Lemma boe_connect_phase replay s : same_phase s (boe_connect replay s).2.
Proof. unfold boe_connect. case_match; [done|]. by destruct (conn_connect _ _ _). Qed.
Lemma timer_trading ts s : trading_is_active s → trading_is_active (boe_on_timer ts s).
Proof.
  intros Ht. unfold boe_on_timer. case_match; [apply not_trading, do_logout_phase|].
  match goal with |- context [if ?b then send_heartbeat s else s] =>
    set (s1 := if b then send_heartbeat s else s) end.
  assert (same_phase s s1) as Hs1 by (subst s1; case_match; [apply send_helper_phase|done]).
  clearbody s1. case_match; [|by apply (same_phase_trading s)].
  apply (same_phase_trading s); [|done]. etransitivity; [exact Hs1|].
  etransitivity; [|apply boe_connect_phase]. done.
Qed.
Lemma cancel_id_phase (o : Order D) s : same_phase s (cancel_id o s).2.
Proof. unfold cancel_id. by case_match. Qed.

(** What a request leaves: the tail that the three kinds of request share. *)
Ltac sent_phase :=
  match goal with |- context [send_helper_nolock ?p ?x] =>
    destruct (send_helper_nolock_phase p x) as [E1 E2]; split; [exact E1|exact E2] end.
Lemma send_phase (a : Z) (o : Order D) s : same_phase s (boe_send a o s).1.2.
Proof.
  unfold boe_send. case_match; [done|]. unfold send_new_order. destruct (o_kind o); try done.
  destruct (bs_get (bo_no_bufs s)) as [[[i b] store]|]; [|done]. cbv zeta.
  destruct (fill_new_order _ _ _ _) as [[ok b1] o1]. destruct ok; [|done]. unfold take_seqnum.
  destruct (conn_now _) as [t e]. cbn [fst snd].
  sent_phase.
Qed.
Lemma cancel_phase (a : Z) (o : Order D) newqty s : same_phase s (boe_cancel a o newqty s).1.2.
Proof.
  unfold boe_cancel. case_match; [done|]. case_match; [|case_match; [done|]].
  - unfold send_cancel. pose proof (cancel_id_phase o s) as Hc. destruct (cancel_id o s) as [id s1].
    destruct (bs_get (bo_cxl_bufs s1)) as [[[i b] store]|]; [|done]. unfold take_seqnum.
    destruct (conn_now _) as [t e]. cbn [fst snd] in *.
    etransitivity; [exact Hc|]. sent_phase.
  - unfold send_modify. destruct (o_kind o); try done.
    destruct (bo_id_map s !! o_localID o); [|done].
    destruct (bs_get (bo_mod_bufs s)) as [[[i b] store]|]; [|done]. cbv zeta.
    destruct (fill_modify_order _ _ _ _ _) as [[ok v] o1]. destruct ok; [|done]. unfold take_seqnum.
    destruct (conn_now _) as [t e]. cbn [fst snd].
    sent_phase.
Qed.

(** What comes in. *)
Ltac by_steps :=
  repeat first
    [ progress intros
    | match goal with
      | Hr : (_ ≫= _) = Ok _ |- _ => apply res_bind_Ok in Hr as (? & _ & Hr)
      | Hr : (match ?x with _ => _ end) = Ok _ |- _ => destruct x eqn:?; try discriminate Hr
      | Hr : Ok _ = Ok _ |- _ => injection Hr as <- <-
      end ].
Lemma create_replay_phase ts inst mic acct id (price : D) size side tif type ud s :
  same_phase s (boe_create_replay_order ts inst mic acct id price size side tif type ud s).2.
Proof. unfold boe_create_replay_order. case_match; [done|]. by destruct (conn_now _). Qed.
Lemma adopt_unknown_phase ts m inst opt s om b op s' om' :
  boe_adopt_unknown ts m inst opt s om = Ok (b, op, s', om') → same_phase s s'.
Proof.
  unfold boe_adopt_unknown. intros Hr. do 5 (apply res_bind_Ok in Hr as (? & _ & Hr)). cbv zeta in Hr.
  match type of Hr with context [boe_create_replay_order ?a ?b ?c ?d ?e ?f ?g ?h ?i ?j ?k ?l] =>
    pose proof (create_replay_phase a b c d e f g h i j k l) as Hs;
    destruct (boe_create_replay_order a b c d e f g h i j k l) as [o s1] end.
  destruct o as [o|]; [destruct (create_order o om) as [a om1]|];
    apply res_bind_Ok in Hr as ([? ?] & _ & Hr); by injection Hr as _ _ <- _.
Qed.
Lemma saw_phase h s : same_phase s (saw_sequence h s).
Proof. done. Qed.
Lemma order_message_phase ts buf s om s' om' :
  handle_order_acknowledgment ts buf s om = Ok (s', om')
  ∨ handle_order_modified ts buf s om = Ok (s', om') ∨ handle_order_restated ts buf s om = Ok (s', om')
  ∨ handle_order_cancelled ts buf s om = Ok (s', om') ∨ handle_order_execution ts buf s om = Ok (s', om')
  ∨ handle_trade_cancel_or_correct ts buf s om = Ok (s', om') → same_phase s s'.
Proof.
  intros [Hr|[Hr|[Hr|[Hr|[Hr|Hr]]]]].
  - unfold handle_order_acknowledgment in Hr.
    do 3 (apply res_bind_Ok in Hr as (? & _ & Hr)). destruct x1.
    + apply res_bind_Ok in Hr as (? & _ & Hr). by injection Hr as <- _.
    + assert (∀ op s1 om1, (leaves ← reading_opt OrderAcknowledgment_opt F_LEAVES_QTY
          (opt_of (c_size c_OrderAcknowledgment) buf);
        om2 ← on_acknowledged op (oa_order_id x) leaves ts (oh_transaction_time (oa_message x)) om1;
        Ok (s1, om2)) = Ok (s', om') → s' = s1) as Hack.
      { intros op s1 om1 Ha. do 2 (apply res_bind_Ok in Ha as (? & _ & Ha)). by injection Ha as <- _. }
      destruct x0; [by apply Hack in Hr as ->|]. case_match; [|by apply Hack in Hr as ->].
      apply res_bind_Ok in Hr as (? & _ & Hr). case_match; [|by injection Hr as <- _].
      apply res_bind_Ok in Hr as ([[[adopted op] s1] om1] & Had & Hr). apply adopt_unknown_phase in Had.
      destruct adopted; [apply Hack in Hr as ->|injection Hr as <- _]; exact Had.
  - unfold handle_order_modified in Hr. by_steps; done.
  - unfold handle_order_restated in Hr. by_steps; done.
  - unfold handle_order_cancelled in Hr. by_steps; done.
  - unfold handle_order_execution in Hr. by_steps; done.
  - unfold handle_trade_cancel_or_correct in Hr. by_steps; done.
Qed.

Lemma message_trading t ts buf s om s' om' : trading_is_active s →
  boe_handle_message t ts buf s om = Ok (s', om') → trading_is_active s'.
Proof.
  intros Ht Hr.
  assert (∀ r : res (OrderManager D S), (om ← r; Ok (s, om)) = Ok (s', om') → trading_is_active s') as Hm
    by (intros r Hx; apply res_bind_Ok in Hx as (? & _ & [= <- _]); done).
  destruct t as [[]|]; cbn [boe_handle_message] in Hr;
    try (apply (same_phase_trading s); [|done]; eapply (order_message_phase ts buf s om s' om');
         repeat first [left; exact Hr|right]; exact Hr);
    try exact (Hm _ Hr); try (injection Hr as <- _; first [exact Ht|by apply not_trading|by intros _]).
  - apply res_bind_Ok in Hr as (s1 & Hl & [= <- _]). unfold handle_login_response in Hl.
    apply res_bind_Ok in Hl as (msg & _ & Hl). case_match; [by injection Hl as <-; apply not_trading|].
    apply res_bind_Ok in Hl as (? & _ & Hl). injection Hl as <-. by apply not_trading.
  - apply res_bind_Ok in Hr as (s1 & Hl & [= <- _]). unfold handle_logout in Hl.
    do 2 (apply res_bind_Ok in Hl as (? & _ & Hl)). injection Hl as <-. by apply not_trading.
Qed.

Lemma raw_events_trading ts evs s om s' om' : trading_is_active s →
  handle_raw_events ts evs s om = Ok (s', om') → trading_is_active s'.
Proof.
  unfold handle_raw_events. revert s om. induction evs as [|ev evs IH]; intros s om Ht Hr.
  - by injection Hr as <- _.
  - cbn [foldM fst snd] in Hr. apply res_bind_Ok in Hr as ([s1 om1] & Hev & Hr).
    apply (IH s1 om1); [|exact Hr]. destruct ev as [buf len|]; cbn [handle_raw_event] in Hev.
    + unfold handle_raw_msg in Hev. do 3 (apply res_bind_Ok in Hev as (? & _ & Hev)).
      apply res_bind_Ok in Hev as ([s2 om2] & Hm & [= <- _]).
      apply (message_trading _ _ _ _ _ _ _ Ht) in Hm. exact Hm.
    + injection Hev as <- _. by apply not_trading.
Qed.

Lemma happens_trading s s' : boe_happens s s' → trading_is_active s → trading_is_active s'.
Proof.
  intros Hs Ht.
  destruct Hs as [replay s|force s|s|s|ts s|ts s|ts s|a o s|a o q s|ts buf s om s1 om1 Hrecv].
  - by apply (same_phase_trading s); [apply boe_connect_phase|].
  - unfold boe_disconnect. destruct force; apply not_trading; [apply do_logout_phase|done].
  - apply not_trading. exact (do_logout_phase true _).
  - unfold boe_on_connected. case_match; [|done]. by apply not_trading.
  - by apply not_trading.
  - by apply not_trading.
  - by apply timer_trading.
  - by apply (same_phase_trading s); [apply send_phase|].
  - by apply (same_phase_trading s); [apply cancel_phase|].
  - unfold boe_on_recv in Hrecv. apply res_bind_Ok in Hrecv as ([d evs] & _ & Hrecv).
    apply res_bind_Ok in Hrecv as ([s3 om3] & Hev & [= <- _]).
    apply raw_events_trading in Hev; [exact Hev|done].
Qed.

(** What ends trading: the owner disconnects, asked for that before the timer ran,
    or quits; the connection goes; nothing was heard in the session for too long;
    a logout, or a message that is not understood. *)
Inductive trading_ends : BOE20Session E → BOE20Session E → Prop :=
| ends_disconnect force s : trading_ends s (boe_disconnect force s)
| ends_quit s : trading_ends s (disconnect_and_quit s)
| ends_peer ts s : trading_ends s (boe_on_peer_disconnect ts s)
| ends_local ts s : trading_ends s (boe_on_local_disconnect ts s)
| ends_requested ts s : bo_state s = USER_LOGOUT_REQUEST → trading_ends s (boe_on_timer ts s)
| ends_silence ts s : in_session s = true →
    MISSED_HB_BEFORE_LOGOUT * HEARTBEAT_MS <= elapsed_ms ts (bo_last_message_recv_ts s) →
    trading_ends s (boe_on_timer ts s)
| ends_logout ts buf s (om : OrderManager D S) s' om' :
    boe_handle_message (Some LOGOUT) ts buf s om = Ok (s', om') → trading_ends s s'
| ends_unknown ts buf s (om : OrderManager D S) s' om' :
    boe_handle_message None ts buf s om = Ok (s', om') → trading_ends s s'
| ends_mismatch ts s (om : OrderManager D S) s' om' :
    handle_raw_event ts SentinelMismatch s om = Ok (s', om') → trading_ends s s'.

Lemma do_logout_ends b s : bo_state (do_logout b s) ≠ ACTIVE /\ bo_active (do_logout b s) = false.
Proof. split; [apply do_logout_phase|done]. Qed.
Lemma trading_ended s s' : trading_ends s s' → bo_state s' ≠ ACTIVE /\ bo_active s' = false.
Proof.
  intros He.
  destruct He as [force s|s|ts s|ts s|ts s Hst|ts s Hin Hl|ts buf s om s' om' Hr|ts buf s om s' om' Hr|ts s om s' om' Hr].
  - unfold boe_disconnect. destruct force; [apply do_logout_ends|done].
  - exact (do_logout_ends true (s <| bo_active := false |>)).
  - done.
  - done.
  - unfold boe_on_timer. rewrite (bool_decide_true _ Hst), orb_true_r. apply do_logout_ends.
  - unfold boe_on_timer. rewrite Hin, (proj2 (Z.leb_le _ _) Hl). apply do_logout_ends.
  - cbn [boe_handle_message] in Hr. unfold handle_logout in Hr. apply res_bind_Ok in Hr as (s1 & Hl & [= <- _]).
    do 2 (apply res_bind_Ok in Hl as (? & _ & Hl)). by injection Hl as <-.
  - cbn [boe_handle_message] in Hr. by injection Hr as <- _.
  - cbn [handle_raw_event] in Hr. by injection Hr as <- _.
Qed.

(** C35: Whatever a session goes through (calls, timers, connections that come and
    go, orders, and any bytes at all), from its construction on: while its state
    lets orders out, it is active, so that the order manager and the session agree
    that it may trade; whatever ends trading ([trading_ends]: disconnecting, with
    and without force, the connection going away, silence, a logout, bytes that
    are not understood) ends both at once, and then no order and no request to
    cancel goes out. *)
Theorem boe_trading_session_is_active s s' (Hnew : bo_state s = UNCONNECTED)
    (Hr : rtc boe_happens s s') :
  (bo_state s' = ACTIVE → bo_active s' = true)
  /\ ∀ s'', trading_ends s' s'' →
       bo_state s'' ≠ ACTIVE /\ bo_active s'' = false
       /\ (∀ (a : Z) (o : Order D), boe_send a o s'' = (false, s'', o))
       /\ (∀ (a : Z) (o : Order D) newqty, boe_cancel a o newqty s'' = (false, s'', o)).
Proof.
  assert (trading_is_active s) as Ht by (apply not_trading; by rewrite Hnew). clear Hnew. split.
  - change (trading_is_active s'). induction Hr as [s|s s1 s2 Hs _ IH]; [done|].
    apply IH. by apply (happens_trading s).
  - intros s'' [Hst Hact]%trading_ended. split; [done|]. split; [done|].
    split; intros; unfold boe_send, boe_cancel; by rewrite bool_decide_false.
Qed.

(** The end of a replay is believed in any state: a session that has logged out
    or lost its connection, or never logged in, becomes active when the message
    comes, which it may, behind a logout in the same read; orders are then handed
    to a connection that is not there. *)
Theorem late_replay_complete_activates ts (h : BoeHeader) rest s om
    (Hh : c_valid c_BoeHeader h) (Hsent : h_start_of_message h = START_OF_MESSAGE_SENTINEL)
    (Htype : h_message_type h = BoeMessageType_to_Z REPLAY_COMPLETE)
    (Hgone : boe_disconnected s = true) :
  ∃ s', handle_raw_msg ts (c_enc c_BoeHeader h ++ rest) s om = Ok (s', om)
    /\ bo_state s' = ACTIVE /\ bo_active s' = true /\ bo_net s' = bo_net s.
Proof.
  pose proof (codec_dec_enc h rest Hh) as Hdec. pose proof (codec_length h Hh) as Hlen.
  rewrite (raw_msg_head _ _ _ _ REPLAY_COMPLETE); [|rewrite length_app, Hlen; cbn; lia|by rewrite Hdec..].
  eexists. split; [reflexivity|]. by split_and!.
Qed.

(** Bytes that dangle outlive the connection they came from: a session that is
    disconnected and connects again still holds them, and takes the first bytes
    that the new connection brings for the rest of the message that the old one
    had begun. *)
Theorem dangling_bytes_cross_connections (ts : Timestamp) (d e buf : list Z) s
    (Hm : is_frame (d ++ e)) (Hd : (FRAME_START <= length d)%nat) (He : e ≠ [])
    (Hlong : (length e <= length buf)%nat) (Hs : bo_dangly s = d) :
  let s' := boe_on_connected (boe_on_peer_disconnect ts s) in
  bo_state s' = WAITING_FOR_LOGIN
  /\ raw_step (bo_dangly s') buf
     = Ok ([], [RawMsg (d ++ take (length e) buf) (length (d ++ e))], drop (length e) buf).
Proof.
  assert (∀ s0, bo_state s0 = ERROR_DISCONNECT → bo_state (boe_on_connected s0) = WAITING_FOR_LOGIN
    /\ bo_dangly (boe_on_connected s0) = bo_dangly s0) as Hconn.
  { intros s0 Hs0. unfold boe_on_connected, boe_disconnected. rewrite Hs0.
    change (bool_decide (ERROR_DISCONNECT = UNCONNECTED) || bool_decide (ERROR_DISCONNECT = BS_DISCONNECT)
      || bool_decide (ERROR_DISCONNECT = ERROR_DISCONNECT)) with true. cbv iota. split; [done|]. unfold send_login_request, send_helper_nolock.
    destruct (conn_send _ _) as [n e0]. case_match; [done|]. by destruct (conn_now e0). }
  destruct (Hconn (boe_on_peer_disconnect ts s)) as [H1 H2]; [done|]. split; [done|].
  rewrite H2. change (bo_dangly (boe_on_peer_disconnect ts s)) with (bo_dangly s). rewrite Hs.
  unfold raw_step. assert (0 < length d)%nat by (unfold FRAME_START in *; lia).
  rewrite (proj2 (Nat.ltb_lt 0 _)), (proj2 (Nat.ltb_ge _ FRAME_START)) by lia.
  rewrite (dangly_started d e) by done. cbv zeta. rewrite Nat.min_l by done.
  by rewrite (proj2 (Nat.ltb_ge _ _)), (proj2 (Nat.leb_le _ _)), drop_0 by lia.
Qed.
End States.

(** ** Where the session and the book-keeping part *)

Section Divergence.
Context {D S E : Type} `{Dbl D} `{!OrderSession D S} `{!OrderSessionLaws D S} `{Connection E}.
Implicit Types (om : OrderManager D S) (o : Order D) (s : BOE20Session E) (x : BoeExchangeMessage).

(** An order that the exchange takes out of the book after it was partly filled
    is cancelled for more than is left of it: the restatement's order quantity is
    taken for the quantity cancelled, so that the fills and the cancels of the
    order come to more than its size. *)
Theorem boe_restatement_overcancels (ts : Timestamp) x rest s s' om om' a o m
    (Hx : bx_valid x) (Hm : bx_msg x = BxRestated m) (Hleaves : bx_field x F_LEAVES_QTY = 0)
    (Hqty : bx_field x F_ORDER_QTY = o_size o)
    (Hg : session_get_order (bo_name s) (bx_id x) om = Ok (Some a)) (Ha : om_heap om !! a = Some o)
    (Hfilled : 0 < o_filled_size o) (Hcxl : o_cancelled_size o = 0)
    (Hopen : o_filled_size o + o_open_size o = o_size o) (Hsize : in_u 32 (o_size o))
    (Hr : boe_handle_message (Some ORDER_RESTATED_V2) ts (bx_bytes x ++ rest) s om = Ok (s', om')) :
  ∃ o', om_heap om' !! a = Some o' /\ o_state o' = CANCELLED /\ o_open_size o' = 0
    /\ o_filled_size o' + o_cancelled_size o' = o_size o' + o_filled_size o.
Proof.
  change (Some ORDER_RESTATED_V2) with (Some (bx_type (BxRestated m))) in Hr. rewrite <- Hm in Hr.
  rewrite (bx_handled ts x rest s om a o) in Hr by (done || (intros _; unfold bx_turned_away; by rewrite Hm)).
  apply res_bind_Ok in Hr as (om1 & Hstep & Hr). injection Hr as _ <-.
  unfold bx_step, bx_event in Hstep. rewrite Hm, Hleaves, Hqty in Hstep. cbn [Z.eqb om_step] in Hstep.
  apply (on_cancel_heap a _ _ _ om om1 o Ha) in Hstep. rewrite Hstep, lookup_insert_eq.
  eexists. split; [reflexivity|]. unfold order_update_on_cancel.
  rewrite (proj2 (Z.leb_le (o_open_size o) _)) by lia. split; [done|]. split; [done|].
  cbn. rewrite Hcxl, Z.add_0_l, wrap_small by done. lia.
Qed.

(** A rejection by the risk gateway that is replayed for an order which the
    session still knows does not reject it: the order's slot of the id table is
    emptied, its exposure stays in the totals, it stays open for good, and no later
    message about it finds it. *)
Theorem replayed_riskbot_reject_forgets_order (ts : Timestamp) x rest s om a m
    (Hx : bx_valid x) (Hm : bx_msg x = BxAck m) (Hmark : bx_riskbot x = true)
    (Hreplay : bo_state s = REPLAY) (Hids : ids_ok om)
    (Hg : session_get_order (bo_name s) (bx_id x) om = Ok (Some a)) :
  ∃ s' om', boe_handle_message (Some ORDER_ACKNOWLEDGMENT_V2) ts (bx_bytes x ++ rest) s om = Ok (s', om')
    /\ om_heap om' = om_heap om /\ om_universe om' = om_universe om
    /\ om_blotter om' = om_blotter om
    /\ session_get_order (bo_name s) (bx_id x) om' = Ok None.
Proof.
  pose proof (bx_fixed_read x rest Hx) as Hread. rewrite Hm in Hread. cbn [bx_with] in Hread.
  assert (x = mkBx (BxAck m) (bx_bits x) (bx_opt x)) as Ex by (rewrite <- Hm; by destruct x).
  pose proof (session_get_order_nonzero _ _ _ _ Hg) as Hnz.
  unfold session_get_order, get_order_unsafe in Hg. destruct (bx_id x <? _) eqn:Hlt; [|done].
  destruct (0 <? bx_id x) eqn:Hpos; [|done]. bools.
  destruct Hids as (Hlen & _).
  assert (adopt_orphan_order (bo_name s) (bx_id x) None om
    = Ok (true, om <| om_orders := <[Z.to_nat (bx_id x) := None]> (om_orders om) |>)) as Had.
  { unfold adopt_orphan_order, extend_local_id_helper. cbn [oid_local_id].
    rewrite (proj2 (Z.leb_le _ _)) by lia. cbn [mbind res_bind].
    unfold adopt_order_helper, assert, set_slot.
    rewrite (proj2 (Z.ltb_lt (bx_id x) _)) by lia. cbn [mbind res_bind].
    rewrite (proj2 (Z.leb_le 0 _)), (proj2 (Z.ltb_lt (bx_id x) _)) by lia. reflexivity. }
  cbn [boe_handle_message]. unfold handle_order_acknowledgment. rewrite Hread. cbn [mbind res_bind].
  assert (∀ h, op_of (oa_message m) (saw_sequence h s) om = Ok (Some a)) as ->.
  { intros h. unfold op_of, session_get_order, get_order_unsafe.
    change (get_local_id (oh_cl_ord_id (oa_message m))) with
      (bx_id (mkBx (BxAck m) (bx_bits x) (bx_opt x))). rewrite <- Ex.
    rewrite (proj2 (Z.ltb_lt (bx_id x) _)), (proj2 (Z.ltb_lt 0 _)) by done. exact Hg. }
  cbn [mbind res_bind]. pose proof (riskbot_read m (bx_bits x) (bx_opt x) rest) as Hrisk.
  rewrite <- Ex in Hrisk. rewrite (Hrisk Hx), Hmark.
  cbn [mbind res_bind]. unfold handle_riskbot_reject. rewrite bool_decide_true by done.
  change (bo_name (saw_sequence _ s)) with (bo_name s).
  change (get_local_id (oh_cl_ord_id (oa_message m))) with
    (bx_id (mkBx (BxAck m) (bx_bits x) (bx_opt x))). rewrite <- Ex, Had. cbn [mbind res_bind].
  eexists _, _. split; [reflexivity|]. split_and!; try done.
  unfold session_get_order, get_order_unsafe. cbn [om_orders set_field].
  rewrite length_insert, (proj2 (Z.ltb_lt (bx_id x) _)), (proj2 (Z.ltb_lt 0 _)) by done. cbn [andb].
  by rewrite list_lookup_insert_eq by lia.
Qed.

Lemma on_acknowledged_done a xid n ts xts om o name : om_heap om !! a = Some o → o_session o = Some name →
  ∃ om', on_acknowledged (Some a) xid n ts xts om = Ok om' /\ om_orders om' = om_orders om
    /\ om_heap om' !! a = Some (order_update_on_ack xid n ts xts o).
Proof.
  intros Ha Hs. open_op (@on_acknowledged) Ha. set (o' := order_update_on_ack xid n ts xts o).
  assert (o_session o' = Some name) as Hs' by exact Hs. clearbody o'.
  unfold log_acknowledged, oid_of_sent. rewrite Hs'. unfold mbind, res_bind.
  eexists. split; [reflexivity|]. rewrite report_orders, report_heap. split; [done|].
  unfold put_order. apply lookup_insert_eq.
Qed.
Lemma ack_field_read x f rest m : bx_valid x → bx_msg x = BxAck m → f ∈ OrderAcknowledgment_opt →
  reading_opt OrderAcknowledgment_opt f
    (opt_of (c_size c_OrderAcknowledgment) (bx_bytes x ++ rest)) = Ok (bx_field x f)
  /\ reading_opt_array OrderAcknowledgment_opt f
       (opt_of (c_size c_OrderAcknowledgment) (bx_bytes x ++ rest)) = Ok (bx_opt x f).
Proof.
  intros Hx Hm Hf. pose proof (bx_field_read x f rest Hx) as Hr.
  unfold bx_layout, bx_size in Hr. rewrite Hm in Hr. by apply Hr.
Qed.

Lemma cancel_refused_unknown (b : Z) o q s : q ≠ 0 → bo_id_map s !! o_localID o = None →
  boe_cancel b o q s = (false, s, o).
Proof.
  intros Hq Hm. unfold boe_cancel. case_match; [done|]. rewrite (proj2 (Z.eqb_neq _ _)) by done.
  case_match; [done|]. unfold send_modify. rewrite Hm. by destruct (o_kind o).
Qed.

Lemma adopt_unknown_spec ts x rest s om inst m : bx_valid x → bx_msg x = BxAck m → bo_mic s = BATS →
  ids_ok om → om_localID om < bx_id x < 2 ^ 32 - 1 → is_Some (om_universe om !! inst) →
  ∃ a o s' om', boe_adopt_unknown ts (oa_message m) inst
      (opt_of (c_size c_OrderAcknowledgment) (bx_bytes x ++ rest)) s om = Ok (true, Some a, s', om')
    /\ om_heap om' !! a = Some o /\ om_orders om' !! Z.to_nat (bx_id x) = Some (Some a)
    /\ bo_id_map s' = bo_id_map s /\ o_localID o = bx_id x /\ o_session o = Some (bo_name s)
    /\ o_instrument o = inst /\ o_size o = bx_field x F_LEAVES_QTY
    /\ o_side o = to_side (bx_field x F_SIDE) /\ o_price o = price_to_double (bx_field x F_PRICE).
Proof.
  intros Hx Hm Hmic (Hlen & Hpos & _) Hid Hu. apply lookup_lt_Some in Hpos. unfold boe_adopt_unknown.
  assert (∀ f, bool_decide (f ∈ OrderAcknowledgment_opt) = true →
    reading_opt OrderAcknowledgment_opt f (opt_of (c_size c_OrderAcknowledgment) (bx_bytes x ++ rest))
    = Ok (bx_field x f)) as Hread
    by (intros f Hf; apply bool_decide_eq_true in Hf; by destruct (ack_field_read x f rest m Hx Hm Hf)).
  rewrite (Hread F_PRICE), (Hread F_LEAVES_QTY), (Hread F_SIDE), (Hread F_TIME_IN_FORCE),
    (Hread F_ORD_TYPE) by (vm_compute; reflexivity).
  cbn [mbind res_bind].
  assert (get_local_id (oh_cl_ord_id (oa_message m)) = bx_id x) as ->
    by (unfold bx_id; by rewrite Hm).
  unfold boe_create_replay_order. rewrite Hmic. change (negb (bool_decide (BATS = BATS))) with false. cbv iota.
  destruct (conn_now (bo_net s)) as [now e]. unfold create_order.
  match goal with |- context [set_client_order_id ?x ?y] => set (o1 := set_client_order_id x y) end.
  cbv beta iota. set (a := fresh (dom (om_heap om))). set (om1 := put_order a o1 om).
  destruct (adopt_new (bo_name s) (bx_id x) a o1 om1) as (om2 & Had & Hheap & Hslot);
    [apply lookup_insert_eq|exact Hu|exact Hlen|cbn in *; lia..|].
  change (bo_name (s <| bo_net := e |>)) with (bo_name s). rewrite Had. cbn [mbind res_bind].
  exists a, (o1 <| o_localID := bx_id x |> <| o_state := SENT |>), (s <| bo_net := e |>), om2.
  split; [reflexivity|]. split; [exact Hheap|]. split; [exact Hslot|]. by split_and!.
Qed.

(** An order that the session did not send, or sent before it was restarted, is
    recovered when the exchange replays its acknowledgment: it is adopted under
    the id it names, for the quantity it has left, counted at risk, acknowledged
    and open.  But the session does not learn the order's id for its messages, so
    that, whatever it is asked later, it will not reduce the order, only cancel
    it whole. *)
Theorem replayed_order_is_adopted (ts : Timestamp) x rest s om inst m
    (Hx : bx_valid x) (Hm : bx_msg x = BxAck m) (Hmark : bx_riskbot x = false)
    (Hreplay : bo_state s = REPLAY) (Hmic : bo_mic s = BATS) (Hids : ids_ok om)
    (Hid : om_localID om < bx_id x < 2 ^ 32 - 1) (Hnew : bo_id_map s !! bx_id x = None)
    (Hinst : boe_find_instrument (bx_opt x F_SYMBOL) s = Some inst)
    (Hu : is_Some (om_universe om !! inst)) :
  ∃ s' om' a o, boe_handle_message (Some ORDER_ACKNOWLEDGMENT_V2) ts (bx_bytes x ++ rest) s om = Ok (s', om')
    /\ om_orders om' !! Z.to_nat (bx_id x) = Some (Some a) /\ om_heap om' !! a = Some o
    /\ o_localID o = bx_id x /\ o_instrument o = inst /\ o_session o = Some (bo_name s)
    /\ o_state o = ACKNOWLEDGED /\ o_size o = bx_field x F_LEAVES_QTY
    /\ o_open_size o = bx_field x F_LEAVES_QTY /\ is_terminal o = (bx_field x F_LEAVES_QTY =? 0)
    /\ ∀ b q, q ≠ 0 → boe_cancel b o q (handle_replay_complete s') = (false, handle_replay_complete s', o).
Proof.
  pose proof (bx_fixed_read x rest Hx) as Hread. rewrite Hm in Hread. cbn [bx_with] in Hread.
  cbn [boe_handle_message]. unfold handle_order_acknowledgment. rewrite Hread. cbn [mbind res_bind].
  set (s1 := saw_sequence _ s).
  assert (op_of (oa_message m) s1 om = Ok None) as ->.
  { unfold op_of, session_get_order, get_order_unsafe.
    replace (get_local_id (oh_cl_ord_id (oa_message m))) with (bx_id x) by (unfold bx_id; by rewrite Hm).
    rewrite (proj2 (Z.ltb_ge (bx_id x) _)); [done|]. destruct Hids as (-> & _). lia. }
  assert (x = mkBx (BxAck m) (bx_bits x) (bx_opt x)) as Ex by (rewrite <- Hm; by destruct x).
  pose proof (riskbot_read m (bx_bits x) (bx_opt x) rest) as Hrisk. rewrite <- Ex in Hrisk.
  cbn [mbind res_bind]. rewrite (Hrisk Hx), Hmark. cbn [mbind res_bind].
  rewrite bool_decide_true by done.
  destruct (ack_field_read x F_SYMBOL rest m Hx Hm) as [_ ->]; [in_layout|]. cbn [mbind res_bind].
  change (boe_find_instrument _ s1) with (boe_find_instrument (bx_opt x F_SYMBOL) s). rewrite Hinst.
  destruct (adopt_unknown_spec ts x rest s1 om inst m Hx Hm Hmic Hids Hid Hu)
    as (a & o & s' & om1 & -> & Ha & Hslot & Hmap & Ho1 & Ho2 & Ho3 & Ho4 & _). cbn [mbind res_bind].
  destruct (ack_field_read x F_LEAVES_QTY rest m Hx Hm) as [-> _]; [in_layout|]. cbn [mbind res_bind].
  destruct (on_acknowledged_done a (oa_order_id m) (bx_field x F_LEAVES_QTY) ts
    (oh_transaction_time (oa_message m)) om1 o (bo_name s1) Ha Ho2) as (om' & -> & Eo & Eh).
  cbn [mbind res_bind]. eexists s', om', a, _. split; [reflexivity|]. rewrite Eo. split; [done|].
  split; [exact Eh|]. split_and!; try done.
  { unfold is_terminal. cbn. by rewrite !orb_false_r. }
  intros b q Hq. apply cancel_refused_unknown; [done|]. cbn. rewrite Hmap, Ho1. exact Hnew.
Qed.
End Divergence.

(** ** A day at BATS *)

#[local] Abbreviation B := SpecFloat.spec_float.
#[local] Abbreviation OM := (OrderManager B (BOE20Session Wire)).

(** What a run came to, when it did not fail. *)
Definition come_to {A} (r : res A) (d : A) : A := match r with Ok a => a | Fail _ => d end.
Lemma come_to_Ok {A} (r : res A) d : (match r with Ok _ => true | Fail _ => false end) = true →
  r = Ok (come_to r d).
Proof. by destruct r. Qed.

Definition bats_om : OM :=
  OrderManager_new <| om_firm_risk := day_firm |>
    <| om_sessions := {["BATS1" := boe_sample]} |> <| om_universe := {[1 := day_instrument]} |>.
Definition bats_order : Order B :=
  Order_new (mkTs 34200 0) (BATSOrder BOE20Order_default) 1 (d_of_Z 20) 300 BUY DAY LIMIT None 0.
Definition bats_created : OM := (create_order bats_order bats_om).2.
Definition bats_sent : OM := come_to (om_step (EvSend first_order "BATS1") bats_created) bats_om.
Lemma bats_om_initial : initial bats_om.
Proof.
  unfold initial. split_and!; try done. intros esi i b Hi.
  change (({[1 := day_instrument]} : gmap Z _) !! esi = Some i) in Hi.
  apply lookup_singleton_Some in Hi as [<- <-]. by destruct b.
Qed.
Lemma bats_sent_reachable : reachable bats_sent.
Proof.
  apply (reach_step bats_created (EvSend first_order "BATS1")).
  - apply (reach_step bats_om (EvCreate bats_order)); [apply reach_initial, bats_om_initial| |reflexivity].
    + unfold allowed, unacked. split_and!; [reflexivity..|discriminate|reflexivity|].
      by eexists.
  - exists bats_order. split; [reflexivity|]. split_and!; try reflexivity.
    + exists boe_sample. split; reflexivity.
    + intros i [= <-]. reflexivity.
  - apply come_to_Ok. vm_compute. reflexivity.
Qed.

(** The exchange's messages about the order, with the fields that they bear. *)
Definition bats_id : list Z := create_cl_ord_id (bats_order <| o_localID := 1 |>) boe_sample.
Definition bats_fields (l : list (OptField * Z)) : Fields :=
  foldr (λ fz v, set_int fz.1 fz.2 v) (λ f, replicate (width f) 0) l.
Definition bats_order_message (t : BoeMessageType) (size : nat) (seq xts : Z) : OrderMessage :=
  mkOrderMessage (mkHdr START_OF_MESSAGE_SENTINEL (Z.of_nat (size + 8 + opt_size (opt_struct t)) - 2)
                    (BoeMessageType_to_Z t) 3 seq) xts bats_id.
Definition bats_acknowledged : BoeExchangeMessage :=
  mkBx (BxAck (mkOrderAck (bats_order_message ORDER_ACKNOWLEDGMENT_V2 48 10 1000) 5555 0 8))
    (replicate 8 0) (bats_fields [(F_LEAVES_QTY, 300); (F_ORDER_QTY, 300); (F_SIDE, 49);
      (F_PRICE, 200000); (F_ORD_TYPE, 50); (F_TIME_IN_FORCE, 48)]).
Definition bats_executed : BoeExchangeMessage :=
  mkBx (BxExecution (mkOrderExecution (bats_order_message ORDER_EXECUTION_V2 70 11 2000) 77 100 200000
          200 65 0 0 0 8)) (replicate 8 0) (bats_fields []).
Definition bats_cancelled : BoeExchangeMessage :=
  mkBx (BxCancelled (mkOrderCancelled (bats_order_message ORDER_CANCELLED_V2 41 12 3000) 85 0 8))
    (replicate 8 0) (bats_fields [(F_LEAVES_QTY, 0)]).
Definition bats_restated : BoeExchangeMessage :=
  mkBx (BxRestated (mkOrderRestated (bats_order_message ORDER_RESTATED_V2 49 12 3000) 5555 82 0 8))
    (replicate 8 0) (bats_fields [(F_LEAVES_QTY, 0); (F_ORDER_QTY, 300)]).

Lemma length_set_int f z v g : length (v g) = width g → length (set_int f z v g) = width g.
Proof. unfold set_int, set_opt. intros Hv. case_decide; [subst; apply length_le_bytes|done]. Qed.
Lemma bats_fields_valid l layout : opt_valid layout (bats_fields l).
Proof.
  apply Forall_forall. intros f _. unfold bats_fields.
  induction l as [|[g z] l IH]; cbn [foldr fst snd]; [apply length_replicate|by apply length_set_int].
Qed.
Lemma bats_id_valid : c_valid c_ClOrdID bats_id.
Proof. split; [reflexivity|]. vm_compute. repeat constructor; discriminate. Qed.
Lemma bats_header_valid t size seq xts : 0 <= Z.of_nat (size + 8 + opt_size (opt_struct t)) - 2 < 65536 →
  in_u 32 seq → in_u 64 xts → c_valid c_OrderMessage (bats_order_message t size seq xts).
Proof.
  intros Hl Hs Hx. assert (0 <= BoeMessageType_to_Z t < 256) as Ht by (destruct t; cbn; lia).
  split; [split|]; [|exact Hx|exact bats_id_valid].
  split; [split; [split; [split|]|]|]; [z_compute|exact Hl|exact Ht|z_compute|exact Hs].
Qed.
Ltac bats_valid c :=
  split; [|reflexivity|reflexivity|vm_compute; reflexivity|reflexivity|apply bats_fields_valid];
  cbn [bx_with bx_msg bats_acknowledged bats_executed bats_cancelled bats_restated]; unfold c; cbn [c_valid c_record c_pair fst snd];
  repeat match goal with |- _ /\ c_valid _ _ => split | |- c_valid (c_pair _ _) _ /\ _ => split end;
  lazymatch goal with
  | |- c_valid c_OrderMessage _ => apply bats_header_valid; z_compute
  | |- c_valid (c_uint _) _ => z_compute
  end.
Lemma bats_messages_valid : bx_valid bats_acknowledged /\ bx_valid bats_executed
  /\ bx_valid bats_cancelled /\ bx_valid bats_restated.
Proof.
  split_and!; [bats_valid @c_OrderAcknowledgment|bats_valid @c_OrderExecution|
    bats_valid @c_OrderCancelled|bats_valid @c_OrderRestated].
Qed.

(** The order acknowledged, filled in part, and cancelled. *)
Definition bats_ts : Timestamp := mkTs 34201 0.
Definition order_of (om : OM) : Order B := default bats_order (om_heap om !! first_order).
Definition bats_hear (x : BoeExchangeMessage) (om : OM) : res OM :=
  bx_step first_order bats_ts x (order_of om) om.
Definition bats_heard1 : OM := come_to (bats_hear bats_acknowledged bats_sent) bats_om.
Definition bats_heard2 : OM := come_to (bats_hear bats_executed bats_heard1) bats_om.
Definition bats_heard3 : OM := come_to (bats_hear bats_cancelled bats_heard2) bats_om.

Lemma bats_converses r x xs om om1 : bx_valid x → bx_turned_away x = false →
  session_get_order "BATS1" (bx_id x) om = Ok (Some first_order) →
  om_heap om !! first_order = Some (order_of om) →
  (∀ ev, bx_event first_order bats_ts x (order_of om) = Some ev → allowed ev om) →
  bats_hear x om = Ok om1 → boe_conversation bats_ts "BATS1" r om1 xs →
  boe_conversation bats_ts "BATS1" r om (x :: xs).
Proof.
  intros Hx Ht Hg Ha Hal Hs Hc. exists first_order, (order_of om). split_and!; try done.
  intros om2 Hs2. unfold bats_hear in Hs. by assert (om2 = om1) as -> by congruence.
Qed.
Lemma bats_conversation : boe_conversation bats_ts "BATS1" false bats_sent
  [bats_acknowledged; bats_executed; bats_cancelled].
Proof.
  destruct bats_messages_valid as (V1 & V2 & V3 & _).
  apply (bats_converses _ _ _ _ bats_heard1);
    [exact V1|vm_compute; reflexivity..| |apply come_to_Ok; vm_compute; reflexivity|].
  { intros ev Hev. vm_compute in Hev. injection Hev as <-.
    eexists. split; [vm_compute; reflexivity|by split]. }
  apply (bats_converses _ _ _ _ bats_heard2);
    [exact V2|vm_compute; reflexivity..| |apply come_to_Ok; vm_compute; reflexivity|].
  { intros ev Hev. vm_compute in Hev. injection Hev as <-.
    eexists. split; [vm_compute; reflexivity|]. split; [by do 2 eexists|z_compute]. }
  apply (bats_converses _ _ _ _ bats_heard3);
    [exact V3|vm_compute; reflexivity..| |apply come_to_Ok; vm_compute; reflexivity|].
  { intros ev Hev. vm_compute in Hev. injection Hev as <-.
    eexists. split; [vm_compute; reflexivity|]. left. split; [by do 2 eexists|z_compute]. }
  exact I.
Qed.

Lemma boe_stream_drives_orders_witness :
  let reads := [bx_bytes bats_acknowledged ++ take 6 (bx_bytes bats_executed);
                drop 6 (bx_bytes bats_executed) ++ bx_bytes bats_cancelled] in
  ∃ s' om', boe_on_recvs bats_ts reads boe_sample bats_sent = Ok (s', om')
    /\ boe_heard bats_ts "BATS1" bats_sent [bats_acknowledged; bats_executed; bats_cancelled] om'
    /\ bo_inbound_seqnum s' !! 3%nat = Some 12 /\ bo_dangly s' = [].
Proof.
  intros reads. destruct bats_messages_valid as (V1 & V2 & V3 & _).
  assert (bo_name boe_sample = "BATS1" /\ bo_state boe_sample = ACTIVE) as [Hname Hstate] by (vm_compute; done).
  destruct (boe_stream_drives_orders bats_ts [bats_acknowledged; bats_executed; bats_cancelled] reads
    boe_sample bats_sent) as (s' & om' & Hr & Hh & _ & _ & Hn & Hd & _).
  - apply reachable_invariant, bats_sent_reachable.
  - reflexivity.
  - apply (cut_read [] _ _ [bx_bytes bats_acknowledged] [bx_bytes bats_executed; bx_bytes bats_cancelled]
      (take 6 (bx_bytes bats_executed))).
    + split; [cbn [concat]; by rewrite app_nil_r|by left].
    + right. do 2 eexists. split; [reflexivity|]. exists (drop 6 (bx_bytes bats_executed)).
      split; [symmetry; apply (take_drop 6)|]. vm_compute. discriminate.
    + apply (cut_read (take 6 (bx_bytes bats_executed)) _ _
        [bx_bytes bats_executed; bx_bytes bats_cancelled] [] []); [|by left|apply cut_end].
      split; [|done]. cbn [concat]. by rewrite !app_nil_r, app_assoc, take_drop.
  - rewrite Hname, Hstate. exact bats_conversation.
  - rewrite Hname in Hh. exists s', om'. split; [exact Hr|]. split; [exact Hh|]. split; [|exact Hd].
    rewrite Hn. vm_compute. reflexivity.
Defined.

(** The exchange's word that a replay is over, as one read. *)
Definition replay_complete_bytes : list Z := c_enc c_BoeHeader (BoeHeader_create REPLAY_COMPLETE 0).
Lemma replay_complete_heard ts (s : BOE20Session Wire) (om : OM) : bo_dangly s = [] →
  boe_on_recv ts replay_complete_bytes s om
  = Ok ((handle_replay_complete s) <| bo_last_message_recv_ts := ts |> <| bo_dangly := [] |>, om).
Proof.
  intros Hd. unfold boe_on_recv. rewrite Hd.
  assert (handle_raw_bytes [] replay_complete_bytes = Ok ([], [RawMsg replay_complete_bytes 10])) as ->
    by (vm_compute; reflexivity).
  cbn [mbind res_bind]. unfold handle_raw_events. cbn [foldM handle_raw_event fst snd].
  rewrite (raw_msg_head _ _ _ _ REPLAY_COMPLETE);
    [reflexivity|vm_compute; lia|vm_compute; reflexivity..].
Qed.

Lemma boe_trading_session_is_active_witness :
  let s := boe_sample <| bo_state := UNCONNECTED |> <| bo_active := false |> in
  ∃ s', boe_on_recv bats_ts replay_complete_bytes s bats_om = Ok (s', bats_om)
    /\ bo_state s = UNCONNECTED /\ bo_state s' = ACTIVE /\ bo_active s' = true
    /\ bo_active (boe_disconnect false s') = false.
Proof.
  intros s. assert (bo_dangly s = [] /\ bo_state s = UNCONNECTED) as [Hd Hs] by (vm_compute; done).
  clearbody s. pose proof (replay_complete_heard bats_ts s bats_om Hd) as Hr.
  match type of Hr with _ = Ok (?r, _) => set (s' := r) in Hr end.
  assert (bo_state s' = ACTIVE) as Hs' by reflexivity. clearbody s'.
  destruct (boe_trading_session_is_active (D := B) (S := BOE20Session Wire) s s' Hs) as [Ha He].
  - apply rtc_once. exact (happens_recv bats_ts replay_complete_bytes s bats_om s' bats_om Hr).
  - exists s'. split; [exact Hr|]. split; [exact Hs|]. split; [exact Hs'|]. split; [exact (Ha Hs')|].
    apply (He _ (ends_disconnect false s')).
Defined.

Lemma late_replay_complete_activates_witness :
  let s := disconnect_connection false boe_sample in
  boe_disconnected s = true
  /\ ∃ s', handle_raw_msg bats_ts (c_enc c_BoeHeader (BoeHeader_create REPLAY_COMPLETE 0) ++ []) s bats_om
           = Ok (s', bats_om) /\ bo_state s' = ACTIVE /\ bo_active s' = true.
Proof.
  intros s. assert (boe_disconnected s = true) as Hs by (vm_compute; done). clearbody s.
  split; [exact Hs|].
  destruct (late_replay_complete_activates bats_ts (BoeHeader_create REPLAY_COMPLETE 0) [] s bats_om)
    as (s' & H1 & H2 & H3 & _); [|reflexivity|reflexivity|exact Hs|].
  - split; [split; [split; [split|]|]|]; z_compute.
  - exists s'. split; [exact H1|by split].
Defined.

Lemma dangling_bytes_cross_connections_witness :
  let m := bx_bytes bats_executed in
  let s := boe_sample <| bo_dangly := take 20 m |> in
  raw_step (bo_dangly (boe_on_connected (boe_on_peer_disconnect bats_ts s)))
    (bx_bytes bats_acknowledged)
  = Ok ([], [RawMsg (take 20 m ++ take (length (drop 20 m)) (bx_bytes bats_acknowledged)) (length m)],
        drop (length (drop 20 m)) (bx_bytes bats_acknowledged)).
Proof.
  intros m s. destruct (dangling_bytes_cross_connections bats_ts (take 20 m) (drop 20 m)
    (bx_bytes bats_acknowledged) s) as [_ Hr].
  - rewrite take_drop. apply bx_is_frame, bats_messages_valid.
  - unfold FRAME_START. vm_compute. lia.
  - vm_compute. discriminate.
  - vm_compute. lia.
  - reflexivity.
  - rewrite take_drop in Hr. exact Hr.
Defined.

(** The risk gateway's rejection, as the exchange replays it. *)
Definition bats_turned_away : BoeExchangeMessage :=
  mkBx (BxAck (mkOrderAck (mkOrderMessage
          (mkHdr START_OF_MESSAGE_SENTINEL
            (Z.of_nat (48 + 8 + opt_size (opt_struct ORDER_ACKNOWLEDGMENT_V2)) - 2)
            (BoeMessageType_to_Z ORDER_ACKNOWLEDGMENT_V2) 3 10)
          1000 (90 :: drop 1 bats_id)) 5555 0 8))
    (replicate 8 0) (set_opt F_SYMBOL HPR_REJECT_SYMBOL (bats_fields [(F_ORDER_QTY, 1)])).

Lemma bats_turned_away_valid : bx_valid bats_turned_away.
Proof.
  split; [|reflexivity|reflexivity|vm_compute; reflexivity|reflexivity|].
  - cbn [bx_with bx_msg bats_turned_away]. unfold c_OrderAcknowledgment. cbn [c_valid c_record c_pair fst snd].
    split; [split; [split|]|]; [|z_compute..].
    split; [split|]; [split; [split; [split; [split|]|]|]; z_compute|z_compute|].
    split; [reflexivity|]. vm_compute. repeat constructor; discriminate.
  - apply Forall_forall. intros f _. cbn [bx_opt bats_turned_away]. unfold set_opt. case_decide as Hf.
    + subst f. reflexivity.
    + exact (Forall_inv (bats_fields_valid [(F_ORDER_QTY, 1)] [f])).
Qed.

Lemma replayed_riskbot_reject_forgets_order_witness :
  session_get_order "BATS1" 1 bats_sent = Ok (Some first_order)
  /\ ∃ s' om', boe_handle_message (Some ORDER_ACKNOWLEDGMENT_V2) bats_ts (bx_bytes bats_turned_away ++ [])
       (boe_sample <| bo_state := REPLAY |>) bats_sent = Ok (s', om')
     /\ session_get_order "BATS1" 1 om' = Ok None /\ om_universe om' = om_universe bats_sent.
Proof.
  split; [vm_compute; reflexivity|].
  set (s := boe_sample <| bo_state := REPLAY |>).
  assert (bo_state s = REPLAY /\ bo_name s = "BATS1") as [Hst Hn] by (vm_compute; done). clearbody s.
  assert (bx_id bats_turned_away = 1) as Hid by (vm_compute; reflexivity).
  destruct (replayed_riskbot_reject_forgets_order bats_ts bats_turned_away [] s bats_sent first_order
    (mkOrderAck (bx_order (bx_msg bats_turned_away)) 5555 0 8)) as (s' & om' & Hh & _ & Hu & _ & Hg).
  - exact bats_turned_away_valid.
  - reflexivity.
  - vm_compute. reflexivity.
  - exact Hst.
  - apply inv_ids, reachable_invariant, bats_sent_reachable.
  - rewrite Hn, Hid. vm_compute. reflexivity.
  - exists s', om'. split; [exact Hh|]. split; [|exact Hu]. rewrite Hn, Hid in Hg. exact Hg.
Defined.

(** Two orders, the first of them filled in part. *)
Definition bats_two : OM :=
  let om := come_to (om_step (EvSend first_order "BATS1") (create_order bats_order bats_created).2) bats_om in
  let om := come_to (om_step (EvSend (first_order + 1) "BATS1") om) bats_om in
  come_to (bats_hear bats_executed (come_to (bats_hear bats_acknowledged om) bats_om)) bats_om.

Lemma boe_restatement_overcancels_witness :
  let om' := come_to (bats_hear bats_restated bats_two) bats_om in
  (∃ s', boe_handle_message (Some ORDER_RESTATED_V2) bats_ts (bx_bytes bats_restated ++ []) boe_sample bats_two
         = Ok (s', om'))
  /\ o_filled_size (order_of bats_two) = 100
  /\ ∃ o', om_heap om' !! first_order = Some o' /\ o_state o' = CANCELLED
     /\ o_filled_size o' + o_cancelled_size o' = o_size o' + 100.
Proof.
  intros om'. destruct bats_messages_valid as (_ & _ & _ & Hx).
  set (s := boe_sample). assert (bo_name s = "BATS1") as Hn by (vm_compute; done). clearbody s.
  assert (bx_id bats_restated = 1) as Hid by (vm_compute; reflexivity).
  assert (session_get_order "BATS1" 1 bats_two = Ok (Some first_order)) as Hg by (vm_compute; reflexivity).
  assert (om_heap bats_two !! first_order = Some (order_of bats_two)) as Ha by (vm_compute; reflexivity).
  assert (boe_handle_message (Some ORDER_RESTATED_V2) bats_ts (bx_bytes bats_restated ++ []) s bats_two
    = Ok (bx_seen bats_restated s, om')) as Hh.
  { pose proof (bx_handled bats_ts bats_restated [] s bats_two first_order (order_of bats_two) Hx) as Hb.
    rewrite Hn, Hid in Hb. specialize (Hb ltac:(done) Hg Ha).
    assert (bx_step first_order bats_ts bats_restated (order_of bats_two) bats_two = Ok om') as Hstep
      by (apply come_to_Ok; vm_compute; reflexivity).
    rewrite Hstep in Hb. exact Hb. }
  clearbody om'. split; [by eexists|]. split; [vm_compute; reflexivity|].
  destruct (boe_restatement_overcancels bats_ts bats_restated [] s (bx_seen bats_restated s) bats_two om'
    first_order (order_of bats_two)
    (mkOrderRestated (bx_order (bx_msg bats_restated)) 5555 82 0 8)) as (o' & Ho & Hst & _ & Hsum);
    [exact Hx|reflexivity|vm_compute; reflexivity|vm_compute; reflexivity|rewrite Hn, Hid; exact Hg|
     exact Ha|vm_compute; reflexivity|vm_compute; reflexivity|vm_compute; reflexivity|
     vm_compute; split; [discriminate|reflexivity]|exact Hh|].
  exists o'. split; [exact Ho|]. split; [exact Hst|exact Hsum].
Defined.

(** An order that another life of the engine sent, as the exchange replays it. *)
Definition bats_symbol : list Z := [77; 83; 70; 84; 0; 0; 0; 0].
Definition bats_replayed : BoeExchangeMessage :=
  mkBx (bx_msg bats_acknowledged) (replicate 8 0)
    (set_opt F_SYMBOL bats_symbol (bx_opt bats_acknowledged)).
Definition bats_replaying : BOE20Session Wire :=
  boe_sample <| bo_state := REPLAY |> <| bo_symbol_inst_cache := {[bats_symbol := 1]} |>.
Lemma bats_replayed_valid : bx_valid bats_replayed.
Proof.
  destruct bats_messages_valid as ([] & _). split; try done.
  apply Forall_forall. intros f _. cbn [bx_opt bats_replayed]. unfold set_opt. case_decide as Hf.
  - subst f. reflexivity.
  - exact (Forall_inv (bats_fields_valid _ [f])).
Qed.

Lemma replayed_order_is_adopted_witness :
  ∃ s' om' a o, boe_handle_message (Some ORDER_ACKNOWLEDGMENT_V2) bats_ts (bx_bytes bats_replayed ++ [])
      bats_replaying bats_om = Ok (s', om')
    /\ om_orders om' !! 1%nat = Some (Some a) /\ om_heap om' !! a = Some o
    /\ o_state o = ACKNOWLEDGED /\ o_open_size o = 300
    /\ boe_cancel (D := B) a o 100 (handle_replay_complete s') = (false, handle_replay_complete s', o).
Proof.
  assert (bo_state bats_replaying = REPLAY /\ bo_mic bats_replaying = BATS
    /\ bo_id_map bats_replaying !! bx_id bats_replayed = None
    /\ boe_find_instrument (bx_opt bats_replayed F_SYMBOL) bats_replaying = Some 1) as (H1' & H2' & H3' & H4')
    by (vm_compute; done).
  assert (bx_id bats_replayed = 1) as Hid by (vm_compute; reflexivity).
  assert (bx_field bats_replayed F_LEAVES_QTY = 300) as Hl by (vm_compute; reflexivity).
  assert (is_Some (om_universe bats_om !! 1)) as Hu by (by eexists).
  assert (ids_ok bats_om) as Hids by (apply inv_ids, initial_invariant, bats_om_initial).
  assert (om_localID bats_om = 0) as Hom by reflexivity.
  generalize dependent bats_replaying. intros s ? ? ? ?.
  destruct (replayed_order_is_adopted bats_ts bats_replayed [] s bats_om 1
    (mkOrderAck (bx_order (bx_msg bats_acknowledged)) 5555 0 8)) as
    (s' & om' & a & o & Hh & Hs & Ha & _ & _ & _ & Hst & _ & Hop & _ & Hc);
    [exact bats_replayed_valid|reflexivity|vm_compute; reflexivity|assumption|assumption|exact Hids|
     rewrite Hom, Hid; lia|assumption|assumption|exact Hu|].
  - exists s', om', a, o. split; [exact Hh|]. rewrite Hid in Hs. split; [exact Hs|]. split; [exact Ha|].
    split; [exact Hst|]. split; [rewrite Hop; exact Hl|]. apply Hc. discriminate.
Defined.
