(* ===== verification/Restart.v ===== *)
(** * Starting and restarting (src/oe/OrderManager.cpp: [init], [start];
      src/oe/FileBlotter.cpp, FileBlotterReader.cpp over src/core/AsyncMappedFile.cpp)

    An order manager is built from its configuration; what it logs goes to a
    mapped file, and when it starts again it reads that file and connects its
    sessions.  Here the parts come together: the order manager, the layout of its
    messages, the mapped file, and recovery. *)

From S2P Require Import Prelude Dbl Time Types Order Position Config Instrument FirmRisk.
From S2P Require Import Codec OrderLog Blotter Session OrderManager Replay OrderInvariant OrderLifecycle ReplayCorrect.
From S2P Require Import MappedFile SoupBin Ouch42Wire SessionKit Ouch42 Ouch42Handler Ouch42Correct.
Open Scope Z_scope.

Section Start.
Context {D S : Type} `{Dbl D} `{!DblBits D} `{!OrderSession D S} (esi_bytes : nat).
Implicit Types om : OrderManager D S.

(** ** [OrderManager::init] *)

(** The symbols are those of [MD::Universe], by their index; registering with the
    data manager is left out. *)
Definition om_init (lex_u32 lex_i32 lex_i64 : string → option Z) (lex_D : string → option D)
    (lex_bool : string → option bool) (symbols : gmap Z string) (cfg : ConfigState) om : res (OrderManager D S) :=
  let oecfg := copy_prefix_domain cfg "oe." in
  let oeunivcfg := copy_prefix_domain oecfg "universe." in
  let universe := universe_init lex_u32 lex_i32 lex_i64 lex_D lex_bool symbols oeunivcfg in
  let frd := copy_prefix_domain oecfg "risk.firm." in
  f ← firm_init lex_D frd (om_firm_risk om);
  Ok (om <| om_universe := u_data universe |> <| om_firm_risk := f |>).

(** ** The log in its file *)

(** [FileBlotter]: a message is written whole; nobody looks at the result. *)
Definition log_message (f : AsyncMappedFile) (m : Message D) : res AsyncMappedFile :=
  '(_, f) ← af_write (encode_message esi_bytes m) f; Ok f.
Definition write_log (ms : list (Message D)) (f : AsyncMappedFile) : res AsyncMappedFile := foldM log_message f ms.

(** [FileBlotterReader::get_buffer], and what is there. *)
Definition get_buffer (f : AsyncMappedFile) : res (option (list Z)) :=
  match as_readonly_buffer f with
  | None => Ok None
  | Some (buf, len) =>
      if len <=? mr_size (af_filemap f) then Ok (Some (padded (Z.to_nat len) buf))
      else Fail (UndefinedBehaviour "read past the mapped file")
  end.
(** [FileBlotterReader::do_rewind] *)
Definition blotter_reader (buf : option (list Z)) : Blotter.Reader :=
  match buf with None => mkReader [] None | Some file => do_rewind file end.
(** [BlotterReader::replay] of the file; [None]: out of fuel. *)
Definition replay_file (f : AsyncMappedFile) : res (option (list (Message D))) :=
  buf ← get_buffer f;
  replay esi_bytes (length (default [] buf)) (blotter_reader buf).

(** ** [OrderManager::start] *)

Definition connect_sessions (is_replay : bool) om : OrderManager D S :=
  om <| om_sessions := (λ s, (ss_connect is_replay s).2) <$> om_sessions om |>.
(** [None]: out of fuel. *)
Definition om_start (is_replay : bool) (orderlog : AsyncMappedFile) om : res (option (OrderManager D S)) :=
  if is_replay then
    ms ← replay_file orderlog;
    match ms with
    | None => Ok None
    | Some ms => om ← recover ms om; Ok (Some (connect_sessions is_replay om))
    end
  else Ok (Some (connect_sessions is_replay om)).

(** ** [OrderManager::~OrderManager] *)

(** The sessions are disconnected by force; the blotter goes with its trailer. *)
Definition OrderManager_delete (now : Timestamp) om : OrderManager D S :=
  blot (log_end now) (om <| om_sessions := ss_disconnect true <$> om_sessions om |>).

(** ** Lemmas *)

(** A message that the order manager does not act on. *)
Definition ignored (m : Message D) : Prop := ∀ om, on_message m om = Ok om.

(** Reading the log back logs nothing, so the file does not change under the reader. *)
Lemma firm_event_blotter esi g om om' : firm_event esi g om = Ok om' → om_blotter om' = om_blotter om.
Proof. unfold firm_event. intros Hf. res_inv. destruct x0. by injection Hf as <-. Qed.
Lemma extend_blotter oid om b om' : extend_local_id_helper oid om = Ok (b, om') → om_blotter om' = om_blotter om.
Proof.
  unfold extend_local_id_helper, extend_local_id. case_match; [by intros [= _ <-]|]. intros He. res_inv.
  case_match; by simplify_eq.
Qed.
Lemma set_slot_blotter id p om om' : set_slot id p om = Ok om' → om_blotter om' = om_blotter om.
Proof. unfold set_slot. intros Hs. case_match; by simplify_eq. Qed.
Lemma adopt_blotter op id om om' : adopt_order_helper op id false om = Ok om' → om_blotter om' = om_blotter om.
Proof.
  unfold adopt_order_helper. destruct (assert _ _) as [?|?]; cbn [mbind res_bind]; [|done].
  destruct op as [addr|]; cbn [mbind res_bind]; [|apply set_slot_blotter].
  destruct (get_order addr om) as [o|]; cbn [mbind res_bind]; [|done].
  destruct (order_adds _ _ _) as [om1|] eqn:E; cbn [mbind res_bind]; [|done].
  intros ->%set_slot_blotter. by apply firm_event_blotter in E.
Qed.
Lemma on_logged_blotter oid f om om' : on_logged_order oid f om = Ok om' →
  (∀ a o om om', f a o om = Ok om' → om_blotter om' = om_blotter om) → om_blotter om' = om_blotter om.
Proof.
  unfold on_logged_order. intros Hl Hf. revert Hl.
  destruct (extend_local_id_helper _ _) as [[b om1]|] eqn:E; cbn [mbind res_bind]; [|done].
  apply extend_blotter in E as <-. destruct (get_slot _ _) as [[a|]|]; cbn [mbind res_bind]; [|by intros [= <-]|done].
  destruct (get_order _ _) as [o|]; cbn [mbind res_bind]; [apply Hf|done].
Qed.
Lemma order_sent_blotter ts b om om' : on_log_order_sent ts b om = Ok om' → om_blotter om' = om_blotter om.
Proof.
  unfold on_log_order_sent. destruct (om_universe om !! _); [|apply adopt_blotter].
  set (made := match om_sessions om !! _ with None => _ | Some _ => _ end).
  assert (om_blotter made.2 = om_blotter om) as Hmade.
  { subst made. destruct (om_sessions om !! _); [|done]. unfold create_replay_order.
    destruct (ss_create_replay_order _ _ _ _ _ _ _ _ _ _ _ _) as [[o|] s1]; done. }
  destruct made as [op om1]. cbn [snd] in Hmade. rewrite <- Hmade.
  destruct (extend_local_id_helper _ _) as [[[] om2]|] eqn:E; cbn [mbind res_bind]; [| |done];
    apply extend_blotter in E as <-; [apply adopt_blotter|by intros [= <-]].
Qed.
Lemma on_message_blotter m om om' : on_message m om = Ok om' → om_blotter om' = om_blotter om.
Proof.
  unfold on_message. destruct (m_body m); try (by intros [= <-]); intros Hm.
  all: try (by apply order_sent_blotter in Hm).
  all: try (eapply on_logged_blotter; [exact Hm|]; intros a o1 om1 om2 Ho; cbn in Ho;
            first [by simplify_eq|by apply firm_event_blotter in Ho|idtac]).
  - revert Hm. unfold on_log_local_reject. destruct (extend_local_id_helper _ _) as [[b om1]|] eqn:E;
      cbn [mbind res_bind]; [|done]. intros [= <-]. by apply extend_blotter in E.
  - revert Ho. destruct (set_slot _ _ _) as [om3|] eqn:E; cbn [mbind res_bind]; [|done].
    intros [= <-]. by apply set_slot_blotter in E.
  - injection Hm as <-. unfold on_log_manual_position_adj, manual_position_adj. by repeat case_match.
Qed.
Lemma recover_logs_nothing ms om om' : recover ms om = Ok om' → om_blotter om' = om_blotter om.
Proof.
  revert om. induction ms as [|m ms IH]; intros om; [by intros [= <-]|]. unfold recover in *. cbn [foldM].
  destruct (on_message m om) as [om1|] eqn:E; cbn [mbind res_bind]; [|done].
  intros ->%IH. by apply on_message_blotter in E.
Qed.
Lemma recover_app ms ms' om : recover (ms ++ ms') om = (om ← recover ms om; recover ms' om).
Proof. apply foldM_app. Qed.
Lemma recover_ignored ms om : Forall ignored ms → recover ms om = Ok om.
Proof.
  induction 1 as [|m ms Hm _ IH]; [done|]. unfold recover in *. cbn [foldM]. rewrite Hm. exact IH.
Qed.
(** What the reader does not pass on is ignored. *)
Lemma recover_notified ms om : recover (filter (λ m, notified (m_body m) = true) ms) om = recover ms om.
Proof.
  revert om. induction ms as [|m ms IH]; intros om; [done|]. rewrite filter_cons.
  unfold recover in *. case_decide as Hn; cbn [foldM].
  - destruct (on_message m om) as [om1|]; cbn [mbind res_bind]; [apply IH|done].
  - assert (on_message m om = Ok om) as ->; [|apply IH].
    unfold on_message. destruct (m_body m); try done; by destruct Hn.
Qed.

Hypothesis Hesi : (esi_bytes <= 8)%nat.

Lemma encode_log_app ms ms' : encode_log esi_bytes (ms ++ ms') = encode_log esi_bytes ms ++ encode_log esi_bytes ms'.
Proof. unfold encode_log. by rewrite fmap_app, concat_app. Qed.
Lemma replay_whole ms fuel : Forall (message_ok esi_bytes) ms → (length (encode_log esi_bytes ms) <= fuel)%nat →
  replay esi_bytes fuel (do_rewind (encode_log esi_bytes ms))
  = Ok (Some (filter (λ m, notified (m_body m) = true) ms)).
Proof using Hesi.
  intros Hok Hf.
  destruct (replay_prefix esi_bytes Hesi ms [] (length (encode_log esi_bytes ms)) fuel Hok) as (k & Hk & _ & Hall & Hr);
    [done|done|]. cbn [app length] in Hr. rewrite firstn_all in Hr.
  destruct Hall as [->|Hlt]; [by rewrite firstn_all in Hr|].
  rewrite <- (take_drop (Datatypes.S k) ms), encode_log_app, !length_app in Hlt at 1. lia.
Qed.

Lemma write_log_file ms bytes f : is_log bytes f → Forall (message_ok esi_bytes) ms →
  Z.of_nat (length bytes) + Z.of_nat (length (encode_log esi_bytes ms)) < MAX_LOGFILE_SIZE →
  ∃ f', write_log ms f = Ok f' /\ is_log (bytes ++ encode_log esi_bytes ms) f'.
Proof using Hesi.
  revert bytes f. induction ms as [|m ms IH]; intros bytes f Hl Hok Hmax.
  { exists f. split; [done|]. unfold encode_log. cbn. by rewrite app_nil_r. }
  apply Forall_cons in Hok as [Hm Hok]. rewrite encode_log_cons, length_app in Hmax.
  pose proof (encode_length esi_bytes Hesi m Hm) as He.
  destruct (af_write_log bytes (encode_message esi_bytes m) f Hl) as (f1 & E & Hl1); [|lia|].
  { intros Hn. rewrite Hn in He. cbn in He. lia. }
  assert (log_message f m = Ok f1) as Em by (unfold log_message; by rewrite E).
  unfold write_log. cbn [foldM]. rewrite Em. cbn [mbind res_bind].
  destruct (IH _ _ Hl1 Hok) as (f' & E' & Hl'); [rewrite length_app; lia|].
  exists f'. split; [done|]. by rewrite encode_log_cons, app_assoc.
Qed.

(** Starting over a log reads it all. *)
Lemma start_reads_log ms w om : is_log (encode_log esi_bytes ms) w → Forall (message_ok esi_bytes) ms →
  Z.of_nat (length (encode_log esi_bytes ms)) < MAX_LOGFILE_SIZE →
  om_start true (open_readonly (mr_file (af_filemap w)) (mr_file (af_sizemap w))) om
  = (om ← recover ms om; Ok (Some (connect_sessions true om))).
Proof using Hesi.
  intros Hl Hok Hmax. destruct (killed_log_reads _ _ _ Hl) as (raw & Hb & Hs & _ & Hp); [done|].
  cbn [ws_file] in *. unfold om_start, replay_file, get_buffer. rewrite Hb, Hs.
  unfold log_size in *. rewrite log_bytes_copied in *. rewrite (proj2 (Z.leb_le _ _)) by lia.
  rewrite Nat2Z.id, Hp. cbn [mbind res_bind default blotter_reader]. unfold id. rewrite replay_whole by done. cbn [mbind res_bind].
  by rewrite recover_notified.
Qed.

(** *** A hole of zeros at the end *)

Lemma decode_zeros n : decode (D := D) esi_bytes (replicate n 0)
  = Ok (if (n <? 20)%nat then - ReadErrors_to_Z NO_HEADER_SIZE else MESSAGE_HEADER_SIZE, None).
Proof using Hesi.
  unfold decode, MESSAGE_HEADER_SIZE. rewrite length_replicate.
  destruct (Nat.ltb_spec n 20) as [Hn|Hn]; [by rewrite (proj2 (Z.ltb_lt _ _)) by lia|].
  rewrite (proj2 (Z.ltb_ge _ _)) by lia.
  assert (c_dec c_MessageHeader (replicate n 0) = (0, 0, 0, mkTs 0 0)) as ->.
  { replace n with (20 + (n - 20))%nat by lia. rewrite replicate_add.
    change (replicate 20 0) with (c_enc c_MessageHeader (0, 0, 0, mkTs 0 0)).
    apply codec_dec_enc. vm_compute. repeat split; first [reflexivity|discriminate|lia]. }
  change (Z.to_nat 20) with 20%nat. rewrite drop_replicate, length_replicate.
  by rewrite (proj2 (Z.ltb_ge _ _)) by lia.
Qed.
Lemma replay_zeros fuel pre n : (n <= fuel)%nat →
  replay (D := D) esi_bytes fuel (mkReader (pre ++ replicate n 0) (Some (length pre))) = Ok (Some []).
Proof using Hesi.
  revert pre n. induction fuel as [|fuel IH]; intros pre n Hn.
  { assert (n = 0%nat) as -> by lia. apply replay_at_end. by rewrite at_end_app. }
  cbn [replay]. rewrite at_end_app. case_bool_decide as He; [done|].
  cbn [do_next r_pos r_file]. rewrite at_end_app, bool_decide_false, drop_app_length by done.
  rewrite decode_zeros. cbn [mbind res_bind]. destruct (Nat.ltb_spec n 20) as [H20|H20].
  { change (- ReadErrors_to_Z NO_HEADER_SIZE <=? 0) with true. cbv iota.
    rewrite replay_at_end by done. done. }
  change (MESSAGE_HEADER_SIZE <=? 0) with false. change (Z.to_nat MESSAGE_HEADER_SIZE) with 20%nat. cbv iota.
  replace (pre ++ replicate n 0) with ((pre ++ replicate 20 0) ++ replicate (n - 20) 0).
  2:{ rewrite <- app_assoc, <- replicate_add. do 2 f_equal. lia. }
  replace (length pre + 20)%nat with (length (pre ++ replicate 20 0)) by (by rewrite length_app, length_replicate).
  rewrite IH by lia. done.
Qed.
(** Whole messages, and then whatever replays. *)
Lemma replay_then ms rest fuel pre k : Forall (message_ok esi_bytes) ms →
  replay esi_bytes fuel (mkReader ((pre ++ encode_log esi_bytes ms) ++ rest) (Some (length (pre ++ encode_log esi_bytes ms))))
    = Ok (Some k) →
  replay esi_bytes (length ms + fuel) (mkReader (pre ++ encode_log esi_bytes ms ++ rest) (Some (length pre)))
    = Ok (Some (filter (λ m, notified (m_body m) = true) ms ++ k)).
Proof using Hesi.
  revert pre. induction ms as [|m ms IH]; intros pre Hok Hk.
  { cbn in *. by rewrite !app_nil_r in Hk. }
  apply Forall_cons in Hok as [Hm Hok]. rewrite encode_log_cons in *.
  pose proof (encode_nonempty esi_bytes Hesi m Hm) as Hne.
  pose proof (encode_length esi_bytes Hesi m Hm) as He.
  cbn [length Nat.add replay]. rewrite <- app_assoc, at_end_app.
  rewrite bool_decide_false by (by intros [? _]%app_eq_nil).
  cbn [do_next r_pos r_file]. rewrite at_end_app, bool_decide_false by (by intros [? _]%app_eq_nil).
  rewrite drop_app_length, decode_encode by done. cbn [mbind res_bind].
  rewrite (proj2 (Z.leb_gt _ _)) by lia. rewrite Nat2Z.id.
  specialize (IH (pre ++ encode_message esi_bytes m) Hok). rewrite <- !app_assoc in IH.
  rewrite <- !app_assoc in Hk. rewrite <- length_app, IH by exact Hk.
  cbn [mbind res_bind option_map]. rewrite filter_cons.
  destruct (notified (m_body m)) eqn:En; [by rewrite decide_True|by rewrite decide_False].
Qed.
End Start.

(** ** A day, and the start after it *)

Section Restart.
Context {D S : Type} `{Dbl D} `{!DblBits D} `{!OrderSession D S} `{!OrderSessionLaws D S}.
Context (recreates : MIC → string → S → Prop)
  (Hrecreates : ∀ m name s ts inst account id price size side tif type ud,
     recreates m name s →
     ∃ o s', ss_create_replay_order ts inst m account id price size side tif type ud s = (Some o, s')
       /\ recreates m name s' /\ replay_order_for name inst price size side o).
Implicit Types om r : OrderManager D S.

Definition log_fits_file (esi_bytes : nat) (ms : list (Message D)) : Prop :=
  Z.of_nat (length (encode_log esi_bytes ms)) < MAX_LOGFILE_SIZE.

(** C6: An engine that starts again where another ended has what the other had.
    Of a day in which callers and exchange keep to their contract ([allowed]) and
    nobody adjusts a position by hand, all that is logged is in the file while it
    has room ([MAX_LOGFILE_SIZE]); whether
    the file was closed or its writer was killed between two messages, and
    whatever the new engine logs before it reads (the start of the log, its
    sessions), starting with replay reads the whole file, fails in nothing, and
    ends with its sessions told to connect and a state that mirrors the one the
    day ended in: ids, orders and positions.  The file that the day began with held
    the log up to then, and reading it gave what mirrors the state the day began in.  What is logged fits the fields of the
    messages ([message_ok]), and its sessions make orders again from what the log
    says of them ([recreates]). *)
Theorem restart_recovers esi_bytes om evs om' r0 r f :
  (esi_bytes <= 8)%nat → invariant om → day om evs om' →
  recover (om_blotter om) r0 = Ok r → mirrors recreates om r →
  is_log (encode_log esi_bytes (om_blotter om)) f →
  Forall (message_ok esi_bytes) (om_blotter om') → log_fits_file esi_bytes (om_blotter om') →
  ∃ ms f', om_blotter om' = om_blotter om ++ ms /\ write_log esi_bytes ms f = Ok f'
    /\ ∀ disk offset boot, left_by f' disk offset → Forall (ignored (D := D) (S := S)) boot →
         Forall (message_ok esi_bytes) boot → log_fits_file esi_bytes (om_blotter om' ++ boot) →
         ∃ w r', write_log esi_bytes boot (open_log (Some disk, Some offset)) = Ok w
           /\ om_start esi_bytes true (open_readonly (mr_file (af_filemap w)) (mr_file (af_sizemap w))) r0
              = Ok (Some (connect_sessions true r'))
           /\ mirrors recreates om' r'.
Proof using All.
  intros Hesi Hi Hday Hr0 Hm Hf Hok Hfit. unfold log_fits_file in *.
  destruct (day_recovers recreates Hrecreates _ _ _ Hi Hday) as (ms & Hb & Hrec).
  destruct (Hrec r Hm) as (r' & Hr' & Hm'). exists ms. rewrite Hb in Hok, Hfit.
  pose proof Hok as [Hok0 Hokms]%Forall_app. rewrite encode_log_app, length_app in Hfit.
  destruct (write_log_file esi_bytes Hesi ms _ f Hf Hokms) as (f' & Hw & Hf'); [lia|].
  exists f'. split; [done|]. split; [done|]. intros disk offset boot Hleft Hig Hokb Hfitb.
  rewrite Hb in Hfitb. rewrite <- encode_log_app in Hf'. rewrite encode_log_app, length_app in Hfitb.
  apply (left_reopens _ _ _ _ Hf') in Hleft; [|lia].
  destruct (write_log_file esi_bytes Hesi boot _ _ Hleft Hokb) as (w & Hww & Hlw); [lia|].
  rewrite <- encode_log_app in Hlw. exists w, r'. split; [done|]. split; [|done].
  rewrite (start_reads_log esi_bytes Hesi _ w r0 Hlw); [|by apply Forall_app|rewrite encode_log_app, length_app; lia].
  rewrite !recover_app, Hr0. cbn [mbind res_bind]. rewrite Hr'. cbn [mbind res_bind].
  by rewrite (recover_ignored boot).
Qed.
End Restart.

(** A writer that is killed while it writes a message, its place reserved and its
    bytes not copied, loses that message and no other, when nothing is logged
    before the log is read: the hole at the end reads as messages without bodies. *)
Theorem killed_write_loses_one_message {D S : Type} `{Dbl D} `{!DblBits D} `{!OrderSession D S} esi_bytes
    (ms : list (Message D)) m t f w (om : OrderManager D S) :
  (esi_bytes <= 8)%nat → is_log (encode_log esi_bytes ms) f → Forall (message_ok esi_bytes) ms →
  message_ok esi_bytes m → log_fits_file esi_bytes (ms ++ [m]) →
  write_steps (mkWriters f ∅) [Reserve t (encode_message esi_bytes m)] = Some w →
  om_start esi_bytes true (open_readonly (mr_file (af_filemap (ws_file w))) (mr_file (af_sizemap (ws_file w)))) om
  = (om ← recover ms om; Ok (Some (connect_sessions true om))).
Proof.
  intros Hesi Hf Hok Hm Hfit Hw. unfold log_fits_file in Hfit.
  rewrite encode_log_app, encode_log_cons, !length_app in Hfit.
  change (length (encode_log esi_bytes [])) with 0%nat in Hfit.
  assert (Z.of_nat (length (encode_log esi_bytes ms) + length (encode_message esi_bytes m)) < MAX_LOGFILE_SIZE) as Hmax by lia.
  destruct (killed_in_write_reads _ _ _ _ _ Hf Hmax Hw) as (raw & Hr & Hs & Hp).
  unfold om_start, replay_file, get_buffer. rewrite Hr, Hs, (proj2 (Z.leb_le _ _)) by lia.
  rewrite Nat2Z.id, Hp. cbn [mbind res_bind default blotter_reader]. unfold id, do_rewind.
  set (n := length (encode_message esi_bytes m)).
  assert (length ms <= length (encode_log esi_bytes ms))%nat as Hlen.
  { clear -Hesi Hok. induction Hok as [|x ms Hx _ IH]; [done|]. rewrite encode_log_cons, length_app.
    rewrite (encode_length esi_bytes Hesi x Hx). cbn [length]. lia. }
  rewrite length_app, length_replicate.
  replace (length (encode_log esi_bytes ms) + n)%nat
    with (length ms + (length (encode_log esi_bytes ms) - length ms + n))%nat by lia.
  pose proof (replay_then esi_bytes Hesi ms (replicate n 0) (length (encode_log esi_bytes ms) - length ms + n) [] [] Hok) as Hthen.
  cbn [app length] in Hthen. rewrite Hthen by (apply replay_zeros; [done|lia]).
  cbn [mbind res_bind]. by rewrite app_nil_r, recover_notified.
Qed.

(** ** At NASDAQ *)

#[local] Abbreviation B := SpecFloat.spec_float.

Definition day_messages : list (Message B) := om_blotter (nasdaq_state 5).
Definition start_message : Message B := log_start (mkTs 40000 0) (FileHeader_reset 1 "" (replicate 40 0)).

Lemma day_messages_ok : Forall (message_ok 2) (start_message :: day_messages).
Proof.
  assert (∃ l, start_message :: day_messages = l) as [l Hl] by by eexists. rewrite Hl. vm_compute in Hl. subst l.
  repeat constructor; vm_compute; try congruence; try (by left; split; congruence);
    try (left; repeat split; congruence).
Qed.

Lemma start_message_ignored {D S : Type} `{Dbl D} `{!OrderSession D S} now h :
  ignored (D := D) (S := S) (log_start now h).
Proof. by intros om. Qed.

Lemma restart_recovers_witness : ∃ ms f',
  om_blotter (nasdaq_state 5) = om_blotter nasdaq_om ++ ms /\ write_log 2 ms new_log = Ok f'
  /\ ∃ w r', write_log 2 [start_message] (open_log (Some (mr_file (af_filemap f')), Some (mr_file (af_sizemap f')))) = Ok w
     /\ om_start 2 true (open_readonly (mr_file (af_filemap w)) (mr_file (af_sizemap w))) nasdaq_om
        = Ok (Some (connect_sessions true r'))
     /\ mirrors ouch_recreates (nasdaq_state 5) r'.
Proof.
  destruct (restart_recovers ouch_recreates ouch_recreates_spec 2 nasdaq_om nasdaq_events (nasdaq_state 5)
    nasdaq_om nasdaq_om new_log) as (ms & f' & Hb & Hw & Hr).
  - lia.
  - apply initial_invariant, nasdaq_initial.
  - exact (nasdaq_day 5 (le_n 5)).
  - vm_compute. reflexivity.
  - exact nasdaq_mirrors.
  - exact new_is_log.
  - exact (Forall_inv_tail day_messages_ok).
  - vm_compute. reflexivity.
  - exists ms, f'. split; [done|]. split; [done|]. apply (Hr _ _ [start_message]).
    + apply left_killed.
    + repeat constructor.
    + constructor; [exact (Forall_inv day_messages_ok)|constructor].
    + vm_compute. reflexivity.
Defined.

(** A hole that anything follows is another matter: the messages after it are
    looked for at multiples of the size of a header, and are lost.  Here a writer
    was killed while it wrote the fill of a day, and the engine that started after
    it logged its start, a fill and a cancellation: the next one reads none of
    them. *)
Definition hole_log : res (option (list (Message B))) :=
  f ← write_log 2 (take 2 day_messages) new_log;
  match drop 2 day_messages with
  | [] => Fail (Thrown "no fill")
  | fill :: _ =>
      match write_steps (mkWriters f ∅) [Reserve 0 (encode_message 2 fill)] with
      | None => Fail (Thrown "not at that step")
      | Some w =>
          let left := ws_file w in
          w ← write_log 2 (start_message :: drop 2 day_messages)
                (open_log (Some (mr_file (af_filemap left)), Some (mr_file (af_sizemap left))));
          replay_file 2 (open_readonly (mr_file (af_filemap w)) (mr_file (af_sizemap w)))
      end
  end.
Theorem hole_hides_what_follows : hole_log = Ok (Some (take 2 day_messages)).
Proof. vm_compute. reflexivity. Qed.
