(* ===== verification/ConfigFile.v ===== *)
(** * Configuration from Lua and from program options (src/core/Config.cpp)

    A Lua file leaves a table in a global variable; its nested tables are
    flattened into the dotted keys of the configuration.  Lua is not modelled: a
    table is the list of its entries in the order in which [lua_next] goes through
    them, and a file is a function from the table that is exported to it to what
    it leaves.  Lua's stack has room for every table that is nested.  Program
    options come as [boost::any]. *)

From S2P Require Import Prelude Config.
Open Scope Z_scope.

Section Lua.
(** Numbers of Lua, and their text by [lua_tostring]. *)
Context {Num : Type} (num_text : Num → string).

(** ** Values *)

(** A string is what [lua_tostring] gives, up to the first null character. *)
Inductive LuaValue :=
| LuaNil
| LuaBoolean (b : bool)
| LuaNumber (n : Num)
| LuaString (s : string)
| LuaTable (entries : list (LuaValue * LuaValue))
| LuaOther.
Definition LuaEntries : Type := list (LuaValue * LuaValue).

Definition boolean_text (b : bool) : string := if b then "true" else "false".

(** The text of a key; [None]: a type that is refused. *)
Definition key_text (k : LuaValue) : option string :=
  match k with
  | LuaBoolean b => Some (boolean_text b)
  | LuaNumber n => Some (num_text n)
  | LuaString s => Some s
  | LuaNil | LuaTable _ | LuaOther => None
  end.
(** The dot between a scope that is not empty and a key. *)
Definition child_scope (scope key : string) : string :=
  if bool_decide (scope = "") then key else scope +:+ "." +:+ key.

Definition is_string_key (s : string) (e : LuaValue * LuaValue) : bool :=
  match e.1 with LuaString s' => bool_decide (s = s') | _ => false end.
(** The entries after the one with a string as key. *)
Fixpoint entries_after (s : string) (entries : LuaEntries) : option LuaEntries :=
  match entries with
  | [] => None
  | e :: entries => if is_string_key s e then Some entries else entries_after s entries
  end.
(** [lua_next] after the entry of a key, with what is left after that entry.
    [lua_tostring] has turned a number into a string on the stack, and that string
    is what is looked for; a key that the table does not have is an error of Lua,
    which nobody catches. *)
Definition lua_next (entries : LuaEntries) (key : LuaValue) (rest : LuaEntries) : res LuaEntries :=
  match key with
  | LuaNumber n =>
      match entries_after (num_text n) entries with
      | Some rest => Ok rest
      | None => Fail (Thrown "invalid key to 'next'")
      end
  | _ => Ok rest
  end.

(** ** [flatten_luatable] *)

(** A table that is being gone through, as it is on Lua's stack: its entries, the
    key [lua_next] has given, and the entries after it. *)
Definition Frame : Type := LuaEntries * LuaValue * LuaEntries.
(** The loop over what is left of a table, with the tables that are below it on
    the stack; [None]: out of fuel.  What comes back: the result, the map, and the
    stack under the value on top.  A call that returns early leaves its table and
    its key behind, and its caller goes on with those. *)
Fixpoint flatten_luatable (fuel : nat) (scope : string) (top_level : bool) (entries rest : LuaEntries)
    (below : list Frame) (kvmap : gmap string string) : res (option (bool * gmap string string * list Frame)) :=
  match rest with
  | [] => Ok (Some (true, kvmap, below))
  | (k, v) :: rest =>
      match fuel with
      | O => Ok None
      | S fuel =>
          let stack := (entries, k, rest) :: below in
          match key_text k with
          | None => Ok (Some (false, kvmap, stack))
          | Some key =>
              let child := child_scope (if top_level then "" else scope) key in
              let continue_ ret kvmap stack :=
                match stack with
                | [] => Fail (UndefinedBehaviour "lua_pop of an empty stack")
                | (entries, k, rest) :: below =>
                    rest ← lua_next entries k rest;
                    next ← flatten_luatable fuel scope top_level entries rest below kvmap;
                    Ok (match next with
                        | None => None
                        | Some (ret', kvmap, stack) => Some (ret && ret', kvmap, stack)
                        end)
                end in
              match v with
              | LuaBoolean b => continue_ true (<[child := boolean_text b]> kvmap) stack
              | LuaNumber n => continue_ true (<[child := num_text n]> kvmap) stack
              | LuaString s => continue_ true (<[child := s]> kvmap) stack
              | LuaNil => continue_ true (delete child kvmap) stack
              | LuaTable nested =>
                  r ← flatten_luatable fuel child false nested nested stack kvmap;
                  match r with None => Ok None | Some (ret, kvmap, stack) => continue_ ret kvmap stack end
              | LuaOther => Ok (Some (false, kvmap, stack))
              end
          end
      end
  end.

(** ** [Config::load_lua_file] *)

(** [export_to_luatable] *)
Definition export_to_luatable (kvmap : gmap string string) : LuaValue :=
  LuaTable ((λ kv, (LuaString kv.1, LuaString kv.2)) <$> map_to_list kvmap).

(** [script] is the file: [None] when it does not load or run, and otherwise what
    the global variable holds afterwards.  [None]: out of fuel. *)
Definition load_lua_file (fuel : nat) (script : LuaValue → option LuaValue) (c : Config)
    : res (option (list Notification * Config)) :=
  match script (export_to_luatable (cs_map (cfg_storage c))) with
  | Some (LuaTable entries) =>
      r ← flatten_luatable fuel "conf" true entries entries [] (cs_map (cfg_storage c));
      match r with
      | None => Ok None
      | Some (true, m, _) => Ok (Some (cfg_update (cs_create m (cs_prefix (cfg_storage c))) c))
      | Some (false, _, _) => Ok (Some ([], c))
      end
  | _ => Ok (Some ([], c))
  end.
End Lua.

Arguments LuaNil {Num}.
Arguments LuaBoolean {Num} _.
Arguments LuaString {Num} _.
Arguments LuaOther {Num}.

(** ** Program options *)

Section Options.
(** [boost::lexical_cast] to text, and [std::to_string]. *)
Context {Double : Type} (int_text : Z → string) (double_text : Double → string).

(** What [boost::any] holds, of the types that are looked for. *)
Inductive AnyValue :=
| AnyString (s : string)
| AnyBool (b : bool)
| AnyInt (i : Z)
| AnyDouble (d : Double)
| AnyStrings (v : list string)
| AnyBools (v : list bool)
| AnyInts (v : list Z)
| AnyDoubles (v : list Double)
| AnyOther.

Definition any_to_vec_strings (val : AnyValue) : list string :=
  match val with
  | AnyString s => [s]
  | AnyBool b => [boolean_text b]
  | AnyInt i => [int_text i]
  | AnyDouble d => [double_text d]
  | AnyStrings v => v
  | AnyBools v => boolean_text <$> v
  | AnyInts v => int_text <$> v
  | AnyDoubles v => double_text <$> v
  | AnyOther => []
  end.
(** One option: many values are numbered from 1. *)
Fixpoint put_values (name : string) (i : Z) (sv : list string) (m : gmap string string) : gmap string string :=
  match sv with
  | [] => m
  | s :: sv => put_values name (i + 1) sv (<[name +:+ "." +:+ int_text i := s]> m)
  end.
Definition put_option (m : gmap string string) (kv : string * AnyValue) : gmap string string :=
  match any_to_vec_strings kv.2 with
  | [] => m
  | [s] => <[kv.1 := s]> m
  | sv => put_values kv.1 1 sv m
  end.
(** The options in the order of their names. *)
Definition load_variables_map (vm : list (string * AnyValue)) (c : Config) : list Notification * Config :=
  cfg_update (cs_create (foldl put_option (cs_map (cfg_storage c)) vm) (cs_prefix (cfg_storage c))) c.
End Options.

(** ** What a table says *)

Section Tables.
Context {Num : Type} (num_text : Num → string).
Abbreviation LuaValue := (LuaValue (Num := Num)).
Abbreviation LuaEntries := (LuaEntries (Num := Num)).
Implicit Types (v : LuaValue) (es : LuaEntries) (m : gmap string string).

(** The steps that going through a table takes. *)
Fixpoint lua_size v : nat :=
  match v with
  | LuaTable es => (fix go es := match es with [] => O | (k, v) :: es => S (lua_size v + go es) end) es
  | _ => O
  end.
Abbreviation table_size es := (lua_size (LuaTable es)).

(** The values in a table, each with the names on the way to it. *)
Fixpoint values v : list (list string * string) :=
  match v with
  | LuaBoolean true => [([], "true")]
  | LuaBoolean false => [([], "false")]
  | LuaNumber n => [([], num_text n)]
  | LuaString s => [([], s)]
  | LuaTable es =>
      (fix go es :=
         match es with
         | [] => []
         | (LuaString s, v) :: es => (prod_map (cons s) id <$> values v) ++ go es
         | (LuaBoolean true, v) :: es => (prod_map (cons "true") id <$> values v) ++ go es
         | (LuaBoolean false, v) :: es => (prod_map (cons "false") id <$> values v) ++ go es
         | _ :: es => go es
         end) es
  | LuaNil | LuaOther => []
  end.
(** Under a scope, when there is one, joined by dots. *)
Definition dotted (scope : string) (names : list string) : string :=
  String.concat "." (if bool_decide (scope = "") then names else scope :: names).
Definition leaves (scope : string) v : list (string * string) := prod_map (dotted scope) id <$> values v.

(** Keys are names that are not empty or booleans, values booleans, numbers, texts and such tables. *)
Definition plain_key v : bool :=
  match v with LuaBoolean _ => true | LuaString s => negb (bool_decide (s = "")) | _ => false end.
Fixpoint plain v : bool :=
  match v with
  | LuaTable es => (fix go es := match es with [] => true | (k, v) :: es => plain_key k && plain v && go es end) es
  | LuaNil | LuaOther => false
  | _ => true
  end.

Definition put_leaf m (kv : string * string) : gmap string string := <[kv.1 := kv.2]> m.

Lemma plain_key_next entries k rest : plain_key k = true → lua_next num_text entries k rest = Ok rest.
Proof. by destruct k. Qed.
Lemma plain_key_text k : plain_key k = true → is_Some (key_text num_text k).
Proof. destruct k; try done; by eexists. Qed.

Lemma dotted_child scope key names : key ≠ "" → dotted (child_scope scope key) names = dotted scope (key :: names).
Proof.
  intros Hk. unfold dotted, child_scope. destruct (decide (scope = "")) as [->|Hs].
  - rewrite (bool_decide_true ("" = "")) by done. by rewrite bool_decide_false.
  - rewrite (bool_decide_false (scope = "")) by done. rewrite bool_decide_false by (by destruct scope).
    destruct names; cbn [String.concat]; by rewrite ?app_string_assoc.
Qed.
Lemma dotted_nil scope : dotted scope [] = scope.
Proof. unfold dotted. by case_bool_decide. Qed.
Lemma leaves_cons scope k key v rest : plain_key k = true → key_text num_text k = Some key →
  leaves scope (LuaTable ((k, v) :: rest)) = leaves (child_scope scope key) v ++ leaves scope (LuaTable rest).
Proof.
  intros Hk Hkey. unfold leaves.
  assert (values (LuaTable ((k, v) :: rest)) = (prod_map (cons key) id <$> values v) ++ values (LuaTable rest)
          /\ key ≠ "") as [-> Hne].
  { destruct k as [|[]| |s| |]; try done; injection Hkey as <-; (split; [done|]); try done.
    cbn in Hk. by apply negb_true_iff, bool_decide_eq_false in Hk. }
  rewrite fmap_app, <- list_fmap_compose. f_equal. apply list_fmap_ext. intros i [names text] _.
  cbn. by rewrite dotted_child.
Qed.

Lemma flatten_plain fuel scope top_level entries rest below m : plain (LuaTable rest) = true →
  (table_size rest <= fuel)%nat →
  flatten_luatable num_text fuel scope top_level entries rest below m
  = Ok (Some (true, foldl put_leaf m (leaves (if top_level then "" else scope) (LuaTable rest)), below)).
Proof.
  revert scope top_level entries rest below m.
  induction fuel as [|fuel IH]; intros scope top_level entries rest below m Hp Hf.
  { destruct rest as [|[k v] rest]; [done|cbn in Hf; lia]. }
  destruct rest as [|[k v] rest]; [done|]. cbn [plain] in Hp. apply andb_true_iff in Hp as [[Hk Hv]%andb_true_iff Hp].
  change (table_size ((k, v) :: rest)) with (Datatypes.S (lua_size v + table_size rest)) in Hf.
  set (s0 := if top_level then "" else scope).
  destruct (plain_key_text k Hk) as [key Hkey].
  rewrite (leaves_cons s0 k key v rest Hk Hkey), foldl_app.
  cbn [flatten_luatable]. rewrite Hkey. fold s0.
  assert (∀ ret m, (rest0 ← lua_next num_text entries k rest;
      next ← flatten_luatable num_text fuel scope top_level entries rest0 below m;
      Ok (match next with
          | None => None
          | Some (ret', kvmap, stack) => Some (ret && ret', kvmap, stack)
          end))
    = Ok (Some (ret, foldl put_leaf m (leaves s0 (LuaTable rest)), below))) as Hgo.
  { intros ret m'. rewrite plain_key_next by done. cbn [mbind res_bind]. rewrite IH by (done || lia).
    cbn [mbind res_bind]. by rewrite andb_true_r. }
  destruct v as [|[]|n|s|nested|]; try done; rewrite ?Hgo; try (by unfold leaves; cbn; rewrite dotted_nil).
  rewrite IH; [|exact Hv|lia]. cbn [mbind res_bind]. by rewrite Hgo.
Qed.

(** Putting leaves: the last text of a path counts. *)
Lemma put_leaves_absent k ls m : k ∉ ls.*1 → foldl put_leaf m ls !! k = m !! k.
Proof.
  revert m. induction ls as [|[p t] ls IH]; intros m Hk; [done|]. cbn in Hk.
  apply not_elem_of_cons in Hk as [Hne Hk]. cbn [foldl]. rewrite IH by done. by apply lookup_insert_ne.
Qed.
Lemma put_leaves_present k t ls m : (k, t) ∈ ls → (∀ t', (k, t') ∈ ls → t' = t) →
  foldl put_leaf m ls !! k = Some t.
Proof.
  revert m. induction ls as [|[p t0] ls IH]; intros m Hin Hun; [by apply not_elem_of_nil in Hin|]. cbn [foldl].
  destruct (decide (k ∈ ls.*1)) as [Hk|Hk].
  - apply list_elem_of_fmap in Hk as ([k' t'] & -> & Hk). cbn [fst] in *.
    assert (t' = t) as -> by (apply Hun; by right). apply IH; [done|]. intros t'' Ht. apply Hun. by right.
  - rewrite put_leaves_absent by done. apply elem_of_cons in Hin as [[= <- <-]|Hin]; [apply lookup_insert_eq|].
    destruct Hk. apply list_elem_of_fmap. by exists (k, t).
Qed.
End Tables.

Section Loading.
Context {Num : Type} (num_text : Num → string).
Abbreviation LuaValue := (LuaValue (Num := Num)).
Implicit Types (v : LuaValue) (m : gmap string string).


Lemma leaves_strings (l : list (string * string)) :
  leaves num_text "" (LuaTable ((λ kv, (LuaString kv.1, LuaString kv.2)) <$> l)) = l.
Proof.
  unfold leaves. induction l as [|[k t] l IH]; [done|].
  change (values num_text (LuaTable ((λ kv, (LuaString kv.1, LuaString kv.2)) <$> (k, t) :: l)))
    with (([k], t) :: values num_text (LuaTable ((λ kv, (LuaString kv.1, LuaString kv.2)) <$> l))).
  rewrite fmap_cons, IH. done.
Qed.
Lemma plain_strings (l : list (string * string)) : Forall (λ kv, kv.1 ≠ "") l →
  plain (LuaTable ((λ kv, (LuaString kv.1, LuaString kv.2)) <$> l) : LuaValue) = true
  /\ lua_size (LuaTable ((λ kv, (LuaString kv.1, LuaString kv.2)) <$> l) : LuaValue) = length l.
Proof.
  induction 1 as [|[k t] l Hk _ [IH1 IH2]]; [done|]. cbn in *. by rewrite IH2, bool_decide_false.
Qed.
Lemma foldl_put_same ls m : (∀ k t, (k, t) ∈ ls → m !! k = Some t) → foldl put_leaf m ls = m.
Proof.
  induction ls as [|[k t] ls IH]; intros Hls; [done|]. cbn [foldl]. unfold put_leaf at 2. cbn [fst snd].
  rewrite insert_id by (apply Hls; by left). apply IH. intros k' t' Hin. apply Hls. by right.
Qed.

(** A file that hands back the table it was given changes nothing and tells
    nobody. *)
Theorem exported_configuration_reads_back (c : Config) fuel :
  (size (cs_map (cfg_storage c)) <= fuel)%nat → cs_map (cfg_storage c) !! "" = None →
  load_lua_file num_text fuel Some c = Ok (Some ([], c)).
Proof.
  intros Hf Hnone. unfold load_lua_file. cbn [export_to_luatable].
  destruct (plain_strings (map_to_list (cs_map (cfg_storage c)))) as [Hp Hs].
  { apply Forall_forall. intros [k t] Hin%elem_of_map_to_list Hk. cbn in Hk, Hin. subst k. by rewrite Hnone in Hin. }
  rewrite flatten_plain; [|exact Hp|rewrite Hs; by rewrite length_map_to_list].
  cbn [mbind res_bind]. rewrite leaves_strings, foldl_put_same; [|by intros k t ?%elem_of_map_to_list].
  unfold cfg_update. by rewrite bool_decide_true.
Qed.

(** Numbers do not do as keys, although the code has a case for them: after such
    an entry Lua is asked for the one that follows its text.  Where no key has that
    text Lua fails, which ends the program; *)
Theorem numbered_key_aborts (n : Num) (s : string) entries rest fuel scope top_level below m :
  Forall (λ e, is_string_key (num_text n) e = false) entries →
  flatten_luatable num_text (Datatypes.S fuel) scope top_level entries ((LuaNumber n, LuaString s) :: rest) below m
  = Fail (Thrown "invalid key to 'next'").
Proof.
  intros Hn. cbn [flatten_luatable key_text lua_next].
  assert (entries_after (num_text n) entries = None) as ->; [|done].
  induction Hn as [|e entries He _ IH]; [done|]. cbn [entries_after]. by rewrite He.
Qed.
(** and where a key before it has, the same entries come again for ever. *)
Theorem numbered_key_loops (n : Num) (s s' : string) scope top_level fuel below m :
  let entries := [(LuaString (num_text n), LuaString s); (LuaNumber n, LuaString s')] in
  flatten_luatable num_text fuel scope top_level entries entries below m = Ok None.
Proof.
  intros entries.
  assert (∀ fuel m, flatten_luatable num_text fuel scope top_level entries [(LuaNumber n, LuaString s')] below m = Ok None)
    as Hn.
  { intros f. induction f as [|f IH]; intros m'; [done|].
    cbn [flatten_luatable key_text lua_next entries entries_after is_string_key fst].
    rewrite bool_decide_true by done. cbn [mbind res_bind]. fold entries. by rewrite IH. }
  destruct fuel as [|fuel]; [done|]. unfold entries at 2.
  cbn [flatten_luatable key_text lua_next]. cbn [mbind res_bind]. by rewrite Hn.
Qed.
End Loading.

(** ** Options *)

Section OptionValues.
Context {Double : Type} (int_text : Z → string) (double_text : Double → string) `{!Inj (=) (=) int_text}.

Lemma put_values_before name i sv m k : k < i →
  put_values int_text name i sv m !! (name +:+ "." +:+ int_text k) = m !! (name +:+ "." +:+ int_text k).
Proof using All.
  revert i m. induction sv as [|s sv IH]; intros i m Hk; [done|]. cbn [put_values]. rewrite IH by lia.
  apply lookup_insert_ne. intros He%app_string_inj%app_string_inj%(inj int_text). lia.
Qed.
(** Of an option with many values the [j]-th is read under its name and [j],
    counted from 1. *)
Theorem option_values_are_numbered name sv s (j : nat) (c : Config) :
  (2 <= length sv)%nat → sv !! j = Some s →
  cs_map (cfg_storage (load_variables_map int_text double_text [(name, AnyStrings sv)] c).2)
    !! (name +:+ "." +:+ int_text (1 + Z.of_nat j)) = Some s.
Proof using All.
  intros Hlen Hj. unfold load_variables_map. cbn [foldl].
  assert (∀ i m, sv !! j = Some s → put_values int_text name i sv m !! (name +:+ "." +:+ int_text (i + Z.of_nat j)) = Some s)
    as Hput.
  { clear Hj Hlen. revert j. induction sv as [|s0 sv IH]; intros j i m Hj; [done|]. cbn [put_values].
    destruct j as [|j]; cbn in Hj.
    - injection Hj as ->. rewrite Z.add_0_r, put_values_before by lia. apply lookup_insert_eq.
    - replace (i + Z.of_nat (Datatypes.S j)) with (i + 1 + Z.of_nat j) by lia. by apply IH. }
  assert (put_option int_text double_text (cs_map (cfg_storage c)) (name, AnyStrings sv)
    = put_values int_text name 1 sv (cs_map (cfg_storage c))) as ->.
  { unfold put_option. cbn [any_to_vec_strings fst snd]. destruct sv as [|s1 [|s2 sv]]; [done|cbn in Hlen; lia|done]. }
  unfold cfg_update. case_bool_decide as He; cbn [snd cfg_storage]; [rewrite He|]; by apply Hput.
Qed.
End OptionValues.

(** ** A file *)

Definition sample_table : @LuaValue Z :=
  LuaTable [(LuaString "oe", LuaTable [(LuaString "risk", LuaTable [(LuaString "limit", LuaNumber 500)]);
                                       (LuaString "live", LuaBoolean true)]);
            (LuaString "host", LuaString "ny1")].
Definition sample_num_text (z : Z) : string := if z =? 500 then "500" else "0".

