(* ===== verification/CompressedCapture.v ===== *)
(** * Compressed captures (src/core/LZ4.cpp, core/Pcap.cpp)

    A capture may be a pcap file inside an lz4 frame.  [LZ4::FileReader] hands out
    its contents a piece at a time, and [pcap::FileReader] takes the records of the
    capture from them, with times in nanoseconds whatever the file has.  The lz4
    library is a type class with its laws; a capture that is not compressed is read
    by the pcap library: its frames. *)

From S2P Require Import Prelude Time Codec PQueue Reorder Capture.
Open Scope Z_scope.

(** ** The library *)

(** What [LZ4F_decompress] answers: the context after, the bytes it put out, how
    many it took, and a hint of how many it wants next, or an error. *)
Record Lz4Answer (C : Type) := mkAnswer { la_ctx : C; la_out : list Z; la_used : nat; la_hint : option nat }.
Arguments mkAnswer {C}. Arguments la_ctx {C}. Arguments la_out {C}. Arguments la_used {C}. Arguments la_hint {C}.
(** The room in the output, and the input. *)
Class Lz4 (C : Type) := {
  lz4_new : C;
  lz4_decompress : C → nat → list Z → Lz4Answer C
}.

(** ** [LZ4::FileReader] *)

Section Lz4Reader.
Context {C : Type} `{!Lz4 C}.

Record Lz4Reader := mkLz4 {
  (** the mapped file *)
  lz_file : list Z;
  lz_ctx : C;
  lz_compressed_offset : nat;
  lz_decompressed_bytes : nat;
  (** [None]: an error *)
  lz_next_frame_size : option nat
}.
#[export] Instance Lz4Reader_rebuild : Rebuild Lz4Reader := λ r,
  mkLz4 (lz_file r) (lz_ctx r) (lz_compressed_offset r) (lz_decompressed_bytes r) (lz_next_frame_size r).

Definition LZ4_MAGIC : Z := 407708164.  (* 0x184D2204 *)
(** The constructor.  A file that cannot be mapped throws; the left of the sum is
    [bad_magic_number].  A file of fewer than four bytes reads on as zeros. *)
Definition Lz4Reader_new (file : option (list Z)) : res (Z + Lz4Reader) :=
  match file with
  | None | Some [] => Fail (Thrown "could not map LZ4 file")
  | Some file =>
      let magic_number := le_val (take 4 (file ++ replicate 4 0)) in
      if negb (magic_number =? LZ4_MAGIC) then Ok (inl magic_number)
      else Ok (inr (mkLz4 file lz4_new 0 0 (Some 0%nat)))
  end.

(** How much input the library is given. *)
Definition input_size (hint : option nat) (left : nat) : nat :=
  match hint with
  | Some h => if (0 <? h)%nat && (h <? left)%nat then h else left
  | None => left
  end.
(** The loop of [read]: [acc] is what has been read.  [None]: out of fuel. *)
Fixpoint lz4_loop (fuel maxlen : nat) (acc : list Z) (r : Lz4Reader) : option (Z * list Z * Lz4Reader) :=
  if (length acc <? maxlen)%nat then
    match fuel with
    | O => None
    | S fuel =>
        let left := (length (lz_file r) - lz_compressed_offset r)%nat in
        let input := take (input_size (lz_next_frame_size r) left) (drop (lz_compressed_offset r) (lz_file r)) in
        let a := lz4_decompress (lz_ctx r) (maxlen - length acc) input in
        let r := r <| lz_ctx := la_ctx a |> <| lz_next_frame_size := la_hint a |> in
        let acc := acc ++ la_out a in
        match la_hint a with
        | None => Some (if (0 <? length acc)%nat then Z.of_nat (length acc) else -1, acc, r)
        | Some _ =>
            if (length (la_out a) =? 0)%nat || (la_used a =? 0)%nat then Some (Z.of_nat (length acc), acc, r)
            else
              lz4_loop fuel maxlen acc
                (r <| lz_compressed_offset := (lz_compressed_offset r + la_used a)%nat |>
                   <| lz_decompressed_bytes := (lz_decompressed_bytes r + length (la_out a))%nat |>)
        end
    end
  else Some (Z.of_nat (length acc), acc, r).
(** [read]: what it returns, and the bytes.  Every turn of the loop adds a byte. *)
Definition lz4_read (maxlen : nat) (r : Lz4Reader) : option (Z * list Z * Lz4Reader) :=
  if (length (lz_file r) <=? lz_compressed_offset r)%nat then Some (0, [], r)
  else match lz_next_frame_size r with
  | None => Some (-1, [], r)
  | Some _ => lz4_loop maxlen maxlen [] r
  end.
End Lz4Reader.
Arguments Lz4Reader : clear implicits.

(** ** [pcap::FileReader] *)

Definition TCPDUMP_MAGIC : Z := 2712847316.       (* 0xA1B2C3D4 *)
Definition NSEC_TCPDUMP_MAGIC : Z := 2712812621.  (* 0xA1B23C4D *)
Definition PCAP_VERSION_MAJOR : Z := 2.
Definition MAXIMUM_SNAPLEN : Z := 262144.

(** [pcap_file_header], and [pcap_sf_pkthdr] as a capture has it. *)
Record PcapFileHeader := mkPFH {
  pf_magic : Z; pf_version_major : Z; pf_version_minor : Z; pf_thiszone : Z; pf_sigfigs : Z; pf_snaplen : Z; pf_linktype : Z
}.
Definition c_PcapFileHeader : Codec PcapFileHeader :=
  c_record (λ '(a, b, c, d, e, f, g), mkPFH a b c d e f g)
    (λ h, (pf_magic h, pf_version_major h, pf_version_minor h, pf_thiszone h, pf_sigfigs h, pf_snaplen h, pf_linktype h))
    (c_uint 4 *c c_uint 2 *c c_uint 2 *c c_int 4 *c c_uint 4 *c c_uint 4 *c c_uint 4).
#[export] Instance c_PcapFileHeader_ok : CodecOk c_PcapFileHeader.
Proof. solve_codec. Qed.
Record SfPkthdr := mkSf { sf_sec : Z; sf_usec : Z; sf_caplen : Z; sf_len : Z }.
Definition c_SfPkthdr : Codec SfPkthdr :=
  c_record (λ '(a, b, c, d), mkSf a b c d) (λ h, (sf_sec h, sf_usec h, sf_caplen h, sf_len h))
    (c_int 4 *c c_int 4 *c c_uint 4 *c c_uint 4).
#[export] Instance c_SfPkthdr_ok : CodecOk c_SfPkthdr.
Proof. solve_codec. Qed.

(** The types of file that get past the constructor. *)
Inductive PcapFileType := FILETYPE_PCAPNS | FILETYPE_PCAP_LZ4 | FILETYPE_PCAPNS_LZ4.

Section PcapFile.
Context {C : Type} `{!Lz4 C}.

(** An open capture: with its frames from the library, or compressed. *)
Inductive PcapFile :=
| PlainCapture (frames : list PcapPkt) (end_ : Z)
| CompressedCapture (type : PcapFileType) (reader : Lz4Reader C).

(** The constructor: the bytes of the file, and what the pcap library makes of it
    where it is not compressed.  [None]: out of fuel. *)
Definition FileReader_new (file : option (list Z)) (plain : option (list PcapPkt * Z)) : res (option PcapFile) :=
  lz4 ← Lz4Reader_new file;
  match lz4 with
  | inl _ =>
      match plain with
      | None => Fail (Thrown "pcap_open_offline")
      | Some (frames, end_) => Ok (Some (PlainCapture frames end_))
      end
  | inr r =>
      match lz4_read 24 r with
      | None => Ok None
      | Some (n, bytes, r) =>
          if negb (n =? 24) then Fail (Thrown "could not read magic number from inside lz4 file")
          else
            let h := c_dec c_PcapFileHeader bytes in
            type ← (if pf_magic h =? NSEC_TCPDUMP_MAGIC then Ok FILETYPE_PCAPNS_LZ4
                    else if pf_magic h =? TCPDUMP_MAGIC then Ok FILETYPE_PCAP_LZ4
                    else Fail (Thrown "bag magic number inside lz4 file"));
            if pf_version_major h <? PCAP_VERSION_MAJOR then Fail (Thrown "pcap savefile format version too old.")
            else Ok (Some (CompressedCapture type r))
      end
  end.

(** [hdr->ts.tv_usec]: the product of [int]s must not overflow. *)
Definition frame_nsec (type : PcapFileType) (usec : Z) : res Z :=
  match type with
  | FILETYPE_PCAP_LZ4 =>
      if (-2147483648 <=? usec * 1000) && (usec * 1000 <=? 2147483647) then Ok (usec * 1000)
      else Fail (UndefinedBehaviour "overflow of int")
  | FILETYPE_PCAPNS | FILETYPE_PCAPNS_LZ4 => Ok usec
  end.
(** [next_packet_]: 1 for the end of the file, 0 with a packet, -1 for an error. *)
Definition next_packet (type : PcapFileType) (r : Lz4Reader C) : res (option (Z * option PcapPkt * Lz4Reader C)) :=
  match lz4_read 16 r with
  | None => Ok None
  | Some (n, bytes, r) =>
      if n =? 16 then
        let h := c_dec c_SfPkthdr bytes in
        usec ← frame_nsec type (sf_usec h);
        if MAXIMUM_SNAPLEN <? sf_caplen h then Ok (Some (-1, None, r))
        else
          match lz4_read (Z.to_nat (sf_caplen h)) r with
          | None => Ok None
          | Some (n, data, r) =>
              if (0 <? n) && (n =? sf_caplen h)
              then Ok (Some (0, Some (mkPkt (sf_sec h) usec (sf_caplen h) (sf_len h) data), r))
              else if 0 <? n then Ok (Some (-1, None, r))
              else if n =? sf_caplen h then Ok (Some (1, None, r))
              else Ok (Some (-1, None, r))
          end
      else if n =? 0 then Ok (Some (1, None, r))
      else Ok (Some (-1, None, r))
  end.

(** [next_ex], through the pcap library and [pcapnslz4_read]: the end is -2. *)
Definition next_ex (f : PcapFile) : res (option (Z * option PcapPkt * PcapFile)) :=
  match f with
  | PlainCapture [] end_ => Ok (Some (end_, None, f))
  | PlainCapture (p :: frames) end_ => Ok (Some (1, Some p, PlainCapture frames end_))
  | CompressedCapture type r =>
      next ← next_packet type r;
      Ok (match next with
          | None => None
          | Some (status, p, r) =>
              Some (if status =? 0 then 1 else if status =? 1 then -2 else status, p, CompressedCapture type r)
          end)
  end.
(** The frames of a file and what ends them, as [next_ex] hands them out: a reader
    of captures is made of these.  [None]: out of fuel. *)
Fixpoint capture_frames (fuel : nat) (f : PcapFile) : res (option (list PcapPkt * Z)) :=
  match fuel with
  | O => Ok None
  | S fuel =>
      next ← next_ex f;
      match next with
      | None => Ok None
      | Some (status, Some p, f) =>
          rest ← capture_frames fuel f;
          Ok (match rest with None => None | Some (frames, end_) => Some (p :: frames, end_) end)
      | Some (status, None, f) => Ok (Some ([], status))
      end
  end.
End PcapFile.
Arguments PcapFile : clear implicits.

(** ** The laws of the library

    [lz4_left c hint src out]: from this context, having wanted [hint], the input
    [src] decompresses to [out].  What the library documents: a call takes part of
    its input and puts out part of what it stands for, as room allows; nothing is
    left to put out when the input has ended, since a frame ends with its mark.
    What the reader relies on besides: a call that is given what the last one
    wanted puts something out while something is left, and fills the room when it
    takes nothing. *)
Class Lz4Ok (C : Type) `{!Lz4 C} := {
  lz4_left : C → nat → list Z → list Z → Prop;
  lz4_at_end c hint out : lz4_left c hint [] out → out = [];
  lz4_step c hint src out room : lz4_left c hint src out → (0 < room)%nat →
    let a := lz4_decompress c room (take (input_size (Some hint) (length src)) src) in
    ∃ hint' out', la_hint a = Some hint' /\ out = la_out a ++ out' /\ (length (la_out a) <= room)%nat
      /\ lz4_left (la_ctx a) hint' (drop (la_used a) src) out'
      /\ (out ≠ [] → la_out a ≠ [] /\ ((0 < la_used a)%nat \/ length (la_out a) = room))
}.
(** A file that decompresses to these bytes. *)
Definition compresses {C : Type} `{Lz4Ok C} (file out : list Z) : Prop :=
  le_val (take 4 (file ++ replicate 4 0)) = LZ4_MAGIC /\ lz4_left lz4_new 0 file out.

Section Reading.
Context {C : Type} `{!Lz4 C} `{!Lz4Ok C}.

(** What a reader is yet to hand out. *)
Definition reader_left (r : Lz4Reader C) (out : list Z) : Prop :=
  ∃ hint, lz_next_frame_size r = Some hint
    /\ lz4_left (lz_ctx r) hint (drop (lz_compressed_offset r) (lz_file r)) out.

Lemma lz4_loop_reads fuel maxlen acc r out : reader_left r out →
  (length acc <= maxlen)%nat → (maxlen - length acc <= fuel)%nat → (maxlen - length acc <= length out)%nat →
  ∃ r', lz4_loop fuel maxlen acc r = Some (Z.of_nat maxlen, acc ++ take (maxlen - length acc) out, r')
    /\ reader_left r' (drop (maxlen - length acc) out).
Proof.
  revert acc r out. induction fuel as [|fuel IH]; intros acc r out (hint & Hh & Hl) Hacc Hf Hout.
  { assert (length acc = maxlen) as <- by lia. exists r. cbn [lz4_loop].
    rewrite (proj2 (Nat.ltb_ge _ _)), Nat.sub_diag, take_0, app_nil_r by lia. split; [done|]. by exists hint. }
  cbn [lz4_loop]. destruct (Nat.ltb_spec (length acc) maxlen) as [Hlt|Hge].
  2:{ assert (length acc = maxlen) as <- by lia. exists r.
      rewrite Nat.sub_diag, take_0, app_nil_r. split; [done|]. by exists hint. }
  destruct (lz4_step _ _ _ _ (maxlen - length acc) Hl) as (hint' & out' & Ha & Ho & Hroom & Hl' & Hp); [lia|].
  rewrite length_drop in *. rewrite Hh. set (a := lz4_decompress _ _ _) in *. rewrite Ha.
  destruct Hp as [Hne Hused]; [by destruct out; [cbn in Hout; lia|]|].
  rewrite (proj2 (Nat.eqb_neq (length (la_out a)) 0)) by (by destruct (la_out a)). cbn [orb].
  subst out. rewrite length_app in Hout.
  destruct (Nat.eqb_spec (la_used a) 0) as [H0|H0].
  - destruct Hused as [|Hfull]; [lia|]. eexists. rewrite length_app, Hfull.
    replace (length acc + (maxlen - length acc))%nat with maxlen by lia.
    rewrite <- Hfull, take_app_length, drop_app_length. split; [reflexivity|].
    exists hint'. split; [done|]. cbn [lz_ctx lz_compressed_offset lz_file]. by rewrite H0 in Hl'.
  - match goal with |- context [lz4_loop fuel maxlen _ ?r1] =>
      destruct (IH (acc ++ la_out a) r1 out') as (r' & E & Hr') end.
    + exists hint'. split; [reflexivity|]. cbn [lz_ctx lz_compressed_offset lz_file]. by rewrite drop_drop in Hl'.
    + rewrite length_app. lia.
    + rewrite length_app. destruct (la_out a); [done|cbn [length]; lia].
    + rewrite length_app. lia.
    + exists r'. rewrite length_app in E, Hr'. rewrite E.
      replace (maxlen - length acc)%nat with (length (la_out a) + (maxlen - (length acc + length (la_out a))))%nat by lia.
      rewrite take_app_add, drop_app_add, <- app_assoc. split; [done|exact Hr'].
Qed.

Lemma lz4_read_some n r out : reader_left r out → (0 < n <= length out)%nat →
  ∃ r', lz4_read n r = Some (Z.of_nat n, take n out, r') /\ reader_left r' (drop n out).
Proof.
  intros Hl Hn. pose proof Hl as (hint & Hh & Hsrc). unfold lz4_read.
  destruct (Nat.leb_spec (length (lz_file r)) (lz_compressed_offset r)) as [Hle|Hgt].
  { rewrite drop_ge in Hsrc by done. apply lz4_at_end in Hsrc as ->. cbn in Hn. lia. }
  rewrite Hh. destruct (lz4_loop_reads n n [] r out Hl) as (r' & E & Hr'); cbn [length]; [lia..|].
  cbn [length app] in *. rewrite Nat.sub_0_r in E, Hr'. by exists r'.
Qed.
Lemma lz4_read_end n r : reader_left r [] → ∃ r', lz4_read n r = Some (0, [], r').
Proof.
  intros (hint & Hh & Hsrc). unfold lz4_read. case_match; [by eexists|]. rewrite Hh.
  destruct n as [|n]; [by eexists|]. cbn [lz4_loop length Nat.ltb Nat.leb]. rewrite Hh.
  destruct (lz4_step _ _ _ _ (Datatypes.S n) Hsrc) as (hint' & out' & Ha & Ho & _); [lia|].
  rewrite length_drop in Ha, Ho. change (Datatypes.S n - 0)%nat with (Datatypes.S n). rewrite Ha.
  symmetry in Ho. apply app_eq_nil in Ho as [-> _]. by eexists.
Qed.
Lemma lz4_read_none r out : reader_left r out → lz4_read 0 r = Some (0, [], r).
Proof. intros (hint & Hh & _). unfold lz4_read. case_match; [done|]. by rewrite Hh. Qed.

(** ** Captures as bytes *)

(** The layout of a capture: its header, and the headers of its records. *)
Definition capture_header_bytes (h : PcapFileHeader) : list Z :=
  le_bytes 4 (pf_magic h) ++ le_bytes 2 (pf_version_major h) ++ le_bytes 2 (pf_version_minor h)
  ++ le_bytes 4 (u32 (pf_thiszone h)) ++ le_bytes 4 (pf_sigfigs h) ++ le_bytes 4 (pf_snaplen h)
  ++ le_bytes 4 (pf_linktype h).
Definition sf_bytes (h : SfPkthdr) : list Z :=
  le_bytes 4 (u32 (sf_sec h)) ++ le_bytes 4 (u32 (sf_usec h)) ++ le_bytes 4 (sf_caplen h) ++ le_bytes 4 (sf_len h).
Lemma capture_header_bytes_enc h : capture_header_bytes h = c_enc c_PcapFileHeader h.
Proof. reflexivity. Qed.
Lemma sf_bytes_enc h : sf_bytes h = c_enc c_SfPkthdr h.
Proof. reflexivity. Qed.

(** A record of a capture: its header and its data. *)
Definition SfRecord : Type := SfPkthdr * list Z.
Definition record_bytes (r : SfRecord) : list Z := sf_bytes r.1 ++ r.2.
Definition record_ok (type : PcapFileType) (r : SfRecord) : Prop :=
  c_valid c_SfPkthdr r.1 /\ sf_caplen r.1 = Z.of_nat (length r.2) /\ 0 < sf_caplen r.1 <= MAXIMUM_SNAPLEN
  /\ (type = FILETYPE_PCAP_LZ4 → in_i 32 (sf_usec r.1 * 1000)).
(** The frame it is, its time in nanoseconds. *)
Definition record_frame (type : PcapFileType) (r : SfRecord) : PcapPkt :=
  mkPkt (sf_sec r.1) (match type with FILETYPE_PCAP_LZ4 => sf_usec r.1 * 1000 | _ => sf_usec r.1 end)
    (sf_caplen r.1) (sf_len r.1) r.2.
Definition magic_of (type : PcapFileType) : Z :=
  match type with FILETYPE_PCAP_LZ4 => TCPDUMP_MAGIC | _ => NSEC_TCPDUMP_MAGIC end.

Lemma frame_nsec_ok type r : record_ok type r →
  frame_nsec type (sf_usec r.1) = Ok (pk_usec (record_frame type r)).
Proof.
  intros (_ & _ & _ & Hu). destruct type; [done| |done]. specialize (Hu eq_refl). unfold in_i in Hu.
  unfold frame_nsec. rewrite (proj2 (Z.leb_le _ _)), (proj2 (Z.leb_le _ _)) by (change (2 ^ (32 - 1)) with 2147483648 in Hu; lia).
  done.
Qed.
Lemma length_sf r : c_valid c_SfPkthdr r → length (c_enc c_SfPkthdr r) = 16%nat.
Proof. intros Hv. by rewrite codec_length. Qed.

Lemma read_header r h out : c_valid c_SfPkthdr h → reader_left r (c_enc c_SfPkthdr h ++ out) →
  ∃ r', lz4_read 16 r = Some (16, c_enc c_SfPkthdr h, r') /\ reader_left r' out.
Proof.
  intros Hv Hl. destruct (lz4_read_some 16 r _ Hl) as (r' & E & Hr').
  { rewrite length_app, length_sf by done. lia. }
  rewrite <- (length_sf h Hv), take_app_length, drop_app_length in *.
  exists r'. split; [|done]. rewrite E. by rewrite (length_sf h Hv).
Qed.
Lemma sf_decoded h : c_valid c_SfPkthdr h → c_dec c_SfPkthdr (c_enc c_SfPkthdr h) = h.
Proof. intros Hv. rewrite <- (app_nil_r (c_enc _ _)). by apply codec_dec_enc. Qed.

Lemma next_packet_reads type rec r out : record_ok type rec → reader_left r (record_bytes rec ++ out) →
  ∃ r', next_packet type r = Ok (Some (0, Some (record_frame type rec), r')) /\ reader_left r' out.
Proof.
  intros Hok Hl. pose proof Hok as (Hv & Hc & Hm & _). unfold record_bytes in Hl. rewrite sf_bytes_enc, <- app_assoc in Hl.
  destruct (read_header r _ _ Hv Hl) as (r1 & E & Hl1). unfold next_packet. rewrite E.
  cbn [Z.eqb Pos.eqb]. rewrite sf_decoded by done. rewrite frame_nsec_ok by done. cbn [mbind res_bind].
  rewrite (proj2 (Z.ltb_ge _ _)) by lia.
  destruct (lz4_read_some (Z.to_nat (sf_caplen rec.1)) r1 _ Hl1) as (r2 & E2 & Hl2).
  { rewrite length_app. lia. }
  rewrite E2, Z2Nat.id by lia. rewrite (proj2 (Z.ltb_lt _ _)), Z.eqb_refl by lia. cbn [andb].
  assert (Z.to_nat (sf_caplen rec.1) = length rec.2) as Hn by lia. rewrite Hn, take_app_length, drop_app_length in *.
  exists r2. split; [|done]. destruct rec as [h d]. by destruct type.
Qed.
Lemma next_packet_end type r : reader_left r [] → ∃ r', next_packet type r = Ok (Some (1, None, r')).
Proof.
  intros Hl. destruct (lz4_read_end 16 r Hl) as (r' & E). unfold next_packet. rewrite E. by eexists.
Qed.

Lemma frames_read type recs r rest frames end_ fuel fuel' :
  Forall (record_ok type) recs → reader_left r (concat (record_bytes <$> recs) ++ rest) →
  (∀ r', reader_left r' rest → capture_frames fuel' (CompressedCapture type r') = Ok (Some (frames, end_))) →
  fuel = (length recs + fuel')%nat →
  capture_frames fuel (CompressedCapture type r) = Ok (Some ((record_frame type <$> recs) ++ frames, end_)).
Proof.
  intros Hok Hl Hrest ->. revert r Hl. induction Hok as [|rec recs Hrec _ IH]; intros r Hl; [by apply Hrest|].
  cbn [fmap list_fmap concat] in Hl. rewrite <- app_assoc in Hl.
  destruct (next_packet_reads type rec r _ Hrec Hl) as (r' & E & Hl').
  cbn [length Nat.add capture_frames next_ex]. rewrite E. cbn [mbind res_bind Z.eqb].
  rewrite (IH r' Hl'). done.
Qed.

Lemma frames_end type r k : reader_left r [] →
  capture_frames (Datatypes.S k) (CompressedCapture type r) = Ok (Some ([], -2)).
Proof.
  intros Hl. destruct (next_packet_end type r Hl) as (r' & E). cbn [capture_frames next_ex].
  rewrite E. cbn [mbind res_bind]. done.
Qed.
Lemma frames_empty_record type r h rest k : c_valid c_SfPkthdr h → sf_caplen h = 0 →
  (type = FILETYPE_PCAP_LZ4 → in_i 32 (sf_usec h * 1000)) →
  reader_left r (c_enc c_SfPkthdr h ++ rest) →
  capture_frames (Datatypes.S k) (CompressedCapture type r) = Ok (Some ([], -2)).
Proof.
  intros Hv Hc Hu Hl. destruct (read_header r _ _ Hv Hl) as (r1 & E & Hl1).
  cbn [capture_frames next_ex]. unfold next_packet. rewrite E. cbn [Z.eqb Pos.eqb]. rewrite sf_decoded by done.
  assert (∃ u, frame_nsec type (sf_usec h) = Ok u) as [u ->].
  { destruct type; try (by eexists). specialize (Hu eq_refl). unfold in_i in Hu. cbn [frame_nsec].
    rewrite (proj2 (Z.leb_le _ _)), (proj2 (Z.leb_le _ _)) by (change (2 ^ (32 - 1)) with 2147483648 in Hu; lia).
    by eexists. }
  cbn [mbind res_bind]. rewrite Hc. change (MAXIMUM_SNAPLEN <? 0) with false. change (Z.to_nat 0) with 0%nat. cbv iota.
  rewrite (lz4_read_none r1 _ Hl1). done.
Qed.

(** A compressed capture opens. *)
Lemma compressed_opens type h file out plain : type ≠ FILETYPE_PCAPNS →
  c_valid c_PcapFileHeader h → pf_magic h = magic_of type → PCAP_VERSION_MAJOR <= pf_version_major h →
  compresses file (c_enc c_PcapFileHeader h ++ out) →
  ∃ r, FileReader_new (Some file) plain = Ok (Some (CompressedCapture type r)) /\ reader_left r out.
Proof.
  intros Htype Hv Hmagic Hver [Hlz Hleft]. unfold FileReader_new, Lz4Reader_new.
  destruct file as [|b file]; [by vm_compute in Hlz|]. rewrite Hlz. change (LZ4_MAGIC =? LZ4_MAGIC) with true.
  cbn [negb mbind res_bind].
  assert (length (c_enc c_PcapFileHeader h) = 24%nat) as H24 by by rewrite codec_length.
  destruct (lz4_read_some 24 (mkLz4 (b :: file) lz4_new 0 0 (Some 0%nat)) (c_enc c_PcapFileHeader h ++ out))
    as (r & E & Hr).
  { exists 0%nat. by split. } { rewrite length_app. lia. }
  rewrite E. rewrite <- H24, take_app_length, drop_app_length in *. rewrite H24.
  cbn [Z.eqb Pos.eqb negb Z.of_nat Pos.of_succ_nat Pos.succ].
  rewrite <- (app_nil_r (c_enc _ _)), codec_dec_enc by done. rewrite Hmagic.
  exists r. split; [|done]. destruct type; [done|cbn [magic_of]..].
  all: lazymatch goal with |- context [?a =? ?b] => let e := eval vm_compute in (a =? b) in change (a =? b) with e end.
  all: cbn [mbind res_bind].
  all: try (change (TCPDUMP_MAGIC =? TCPDUMP_MAGIC) with true; cbn [mbind res_bind]).
  all: by rewrite (proj2 (Z.ltb_ge _ _)).
Qed.


(** A record without bytes is taken for the end of the file: what follows is never
    read. *)
Theorem empty_record_ends_capture type h recs e rest file plain :
  type ≠ FILETYPE_PCAPNS → c_valid c_PcapFileHeader h → pf_magic h = magic_of type →
  PCAP_VERSION_MAJOR <= pf_version_major h → Forall (record_ok type) recs →
  c_valid c_SfPkthdr e → sf_caplen e = 0 → (type = FILETYPE_PCAP_LZ4 → in_i 32 (sf_usec e * 1000)) →
  compresses file (capture_header_bytes h ++ concat (record_bytes <$> recs) ++ sf_bytes e ++ rest) →
  ∃ f, FileReader_new (Some file) plain = Ok (Some f)
    /\ ∀ fuel, (length recs < fuel)%nat → capture_frames fuel f = Ok (Some (record_frame type <$> recs, -2)).
Proof.
  intros Htype Hv Hmagic Hver Hok He Hz Hu Hc.
  destruct (compressed_opens type h file _ plain Htype Hv Hmagic Hver Hc) as (r & E & Hl).
  exists (CompressedCapture type r). split; [done|]. intros fuel Hf.
  rewrite <- (app_nil_r (record_frame type <$> recs)).
  eapply (frames_read type recs r _ [] (-2) fuel (Datatypes.S (fuel - length recs - 1)) Hok Hl); [|lia].
  intros r' Hr'. by eapply frames_empty_record.
Qed.
End Reading.

(** ** A library *)

(** Frames that hold their contents as they are, after the magic number: what the
    laws ask for can be had. *)
#[local] Instance stored_lz4 : Lz4 bool := {
  lz4_new := false;
  lz4_decompress started room input :=
    let body := if started : bool then input else drop 4 input in
    mkAnswer true (take room body)
      ((if started then 0 else Nat.min 4 (length input)) + Nat.min room (length body)) (Some 0%nat)
}.
#[local] Instance stored_lz4_ok : Lz4Ok bool.
Proof.
  refine {| lz4_left := λ started hint src out, hint = 0%nat /\
    if started : bool then out = src else out = drop 4 src /\ (out ≠ [] → 4 <= length src)%nat |}.
  - intros [] hint out [_ H]; [done|]. destruct H as [-> _]. by rewrite drop_nil.
  - intros started hint src out room [-> Ho] Hroom.
    change (input_size (Some 0%nat) (length src)) with (length src).
    rewrite firstn_all. cbn [lz4_decompress stored_lz4 la_hint la_out la_used la_ctx].
    set (body := if started then src else drop 4 src).
    assert (out = body) as -> by (by destruct started; [|destruct Ho]).
    exists 0%nat, (drop room body). split; [done|]. split; [by rewrite take_drop|].
    split; [rewrite length_take; lia|]. split.
    + split; [done|]. unfold body. destruct started.
      * cbn [Nat.add]. destruct (decide (room <= length src)%nat); [by rewrite Nat.min_l|].
        rewrite Nat.min_r, !drop_ge by lia. done.
      * rewrite length_drop, drop_drop. destruct (decide (4 <= length src)%nat).
        -- rewrite (Nat.min_l 4) by done. destruct (decide (room <= length src - 4)%nat); [by rewrite Nat.min_l|].
           rewrite Nat.min_r, !drop_ge by lia. done.
        -- rewrite !drop_ge by lia. done.
    + intros Hne. split; [destruct body, room; cbn; (done || lia)|].
      left. assert (0 < length body)%nat by (destruct body; [done|cbn; lia]). lia.
Defined.

Definition sample_pcap_header : PcapFileHeader := mkPFH TCPDUMP_MAGIC 2 4 0 0 65535 1.
Definition sample_records : list SfRecord := [(mkSf 100 7 3 3, [1; 2; 3]); (mkSf 101 9 1 60, [4])].
Definition sample_capture : list Z :=
  le_bytes 4 LZ4_MAGIC ++ capture_header_bytes sample_pcap_header ++ concat (record_bytes <$> sample_records).

